(* ===== verification/_CoqProject ===== *)
-Q . S2P
Prelude.v
Memory.v
DList.v
Buddy.v
BuddyPartition.v
BuddyInv.v
BuddySpec.v
BuddyInit.v
BuddyProps.v
BuddyRun.v
Strings.v
Libc.v
Slab.v
SlabSpec.v
Slob.v
SlobSpec.v
SlobPage.v
SlobInv.v
SlobOps.v
SlobRun.v
Slub.v
SlubSpec.v
KAlloc.v
Bump.v
Stack.v
Unified.v
UnifiedSpec.v
StackSpec.v
Mm.v
Vmm.v
Swap.v
SwapSpec.v
Paging.v
VmmSpec.v
Cow.v
PageReplacement.v
PageReplacementSpec.v
CowSpec.v
Keyboard.v
KeyboardSpec.v
Pit.v
FileTree.v
Filesystem.v
FileTreeSpec.v
FilesystemSpec.v
Process.v
Arch.v
ArchSpec.v
SchedSpec.v
Bytes.v
Chars.v
BlockDevice.v
BlockDeviceSpec.v
Ext2.v
Ext2Spec.v
Ext2DirSpec.v
Fault.v
FaultSpec.v
Vfs.v
Devices.v
IntrusiveList.v
Ports.v
Ata.v
AtaSpec.v
Storage.v
X86.v
X86Spec.v
Elf.v
ElfSpec.v
Environment.v
EnvironmentSpec.v
Syscalls.v
SyscallsSpec.v
Console.v
ConsoleSpec.v
Shell.v
ShellSpec.v
Cxx.v
Stats.v
Boot.v
