(* ===== verification/Prelude.v ===== *)
(** * A model of the kmOS kernel

    kmOS is a small 32-bit x86 kernel in C++ ([src/src/kernel]).  This library
    models its memory allocators, its virtual memory, its drivers for the
    keyboard, the timer, the screen, block devices and ATA disks, its file tree
    and file systems, its processes and scheduler, the program loader, the
    system calls, the environment and users, the shell, and the start that puts
    them together; and proves what each of them promises.  Where the code does
    not do what it means to do, it proves what it does.

    ** Conventions

    A machine integer is a [Z] in its range, and every operation that can leave
    the range is followed by its wrap-around ([u8] to [u64], [s32], below).
    Memory is a map from word addresses to words ([Memory.v]); a structure in
    memory is read and written at the offsets of its fields.  A C++ object whose
    address nobody computes with (a global manager, a [File], a [Process]) is a
    record, in a store when there are many.  An operation takes the state and
    returns it in an [outcome]: [Done], [Stuck] for undefined behaviour (null
    pointers, division by zero, reading out of bounds), or [OutOfFuel].  A loop
    runs on [loop] with a bound; the bound is a number the code implies (the 12
    orders of the buddy allocator, the length of a string, the 100 attempts of
    [schedule]) or the parameter [fuel], about which the theorems say how much
    is enough, or that none is: a busy wait or an endless recursion is
    [OutOfFuel] for every bound.

    ** The parts

    - [Prelude.v]: integers, outcomes, loops, lists updated by index.
      [Memory.v]: words and bytes.  [DList.v]: singly and doubly linked lists
      in memory, over any offsets of the links.  [Bytes.v]: byte buffers.
    - The heap ([runtime/]).  [Buddy.v] is [buddy.cc]: pages of memory in
      blocks of 12 orders; [BuddyPartition.v] the geometry of blocks and buddies,
      [BuddyInv.v] the invariant, [BuddySpec.v] the steps, [BuddyInit.v] the
      start, [BuddyProps.v] the contract: [alloc] returns fresh, aligned,
      disjoint blocks and fails only when no aligned place is free, [free]
      coalesces, a double free is rejected (in regions that end below 2^32:
      the code computes the end in 32 bits).  [BuddyRun.v]: histories; what is
      all freed is as it was after [init].  [Slab.v], [Slob.v], [Slub.v] are
      [slab.cc], [slob.cc], [slub.cc], with [SlabSpec.v], [SlobSpec.v],
      [SlubSpec.v]; [SlabSpec.v] also shows from any well-formed state that the
      objects of the 8-byte cache overwrite the header of the next buddy block.
      [SlobPage.v], [SlobInv.v], [SlobOps.v] and [SlobRun.v] put
      the SLOB allocator above the buddy allocator and its other clients:
      over any history of all of them every operation returns, blocks stay
      disjoint, clients' words are kept (but for the 20 bytes of the next
      block's header that a full page's last block reaches), and nothing is lost.  [Stack.v] is the arena of [stack.cc] ([StackSpec.v]).
      [Unified.v] is [unified_alloc.cc], which chooses between them and is
      [kmalloc] ([UnifiedSpec.v]).
    - The interface to the heap.  [KAlloc.v]: what the rest of the kernel calls
      ([kmalloc], [kfree], memory) as a class, and what a client relies on, as
      classes too: [KAllocLaws], that blocks are fresh and nobody else's bytes
      change, and [KBudget], how many requests are served before one may be
      refused.  A client's theorem says what happens when a request is refused,
      or states the number of requests it needs.  The kernel's own allocator
      meets the laws for the sizes it really serves ([UnifiedSpec.pool_laws]) and
      the budget as far as its pages go ([UnifiedSpec.pool_budget]); [Bump.v]
      meets the laws for all, and is what many concrete runs of the clients use.
    - Virtual memory ([arch/x86/]).  [Mm.v] the state; [Vmm.v] and [Paging.v]
      are [vmm.cc], frames and page tables; [Swap.v] is [swap.cc]; [Cow.v] is
      [cow.cc]; [PageReplacement.v] is [page_replacement.cc]; [Fault.v] is the
      start of the memory manager, the page fault handler and what ties swap
      and page replacement together.  [VmmSpec.v]: mapping and unmapping refine
      a partial map from pages to frames.  [CowSpec.v], [PageReplacementSpec.v],
      [FaultSpec.v], [SwapSpec.v]: copy on write, the clock, demand paging, and
      the swap manager's list as a list of pages by recency.
    - Drivers.  [Keyboard.v] ([keyboard.cc]) refines a queue of characters
      ([KeyboardSpec.v]); [Pit.v] ([pit.cc]); [BlockDevice.v]
      ([block_device.cc]) turns whole blocks into bytes, over an interface
      for the blocks ([BlockDeviceSpec.v]).  [Ports.v] is the interface of the
      processor's ports; [Ata.v] is [ata.cc] on it, and [AtaSpec.v] shows that
      on ports that are a drive ([DriveLaws]) it is a block device that works;
      [Storage.v] goes from the name of an ext2 file to its bytes, on any such
      device.
      [Console.v] is [io.cc], the screen and [print]; [ConsoleSpec.v]: it
      refines a terminal of 80 columns and 25 lines, for text without backspaces
      and tabs, with the text of numbers defined apart from the code.  [X86.v] is [x86.cc] and
      [x86int.cc], descriptor tables and exceptions ([X86Spec.v]: what the
      processor reads of them).
    - Files ([core/]).  [FileTree.v] is [file.cc], [Filesystem.v] is
      [filesystem.cc]; [FileTreeSpec.v] and [FilesystemSpec.v]: children,
      and paths as walks of the tree.  [Vfs.v] is the interface of the virtual
      operations of a file, and [mmap].  [Ext2.v] is [ext2.cc] on a block device
      ([Ext2Spec.v]: the bytes of a file; [Ext2DirSpec.v]: the entries of a
      directory).  [Devices.v] is [device.cc], [modulelink.cc] and [socket.cc].
    - Processes.  [Process.v] is [core/process.cc] with [signal.h] and
      [runtime/buffer.cc]; [Arch.v] is [architecture.cc] and [timer.cc]: the run
      queue, reaping, contexts, the timer interrupt, and fork, create and wait.
      Their state is the record [world], with the memory manager, the
      filesystem and the timer in it.  [ArchSpec.v]: the queue is a ring under
      insertion and removal, [schedule] takes the next candidate of it, every
      ready process runs, and contexts survive being saved.  [SchedSpec.v]: over
      any history the whole of it refines an abstract scheduler on a list.
    - Programs and users.  [Elf.v] is [elf_loader.cc] ([ElfSpec.v]: the
      memory after loading, byte by byte).  [Syscalls.v] is [syscalls.cc] and
      [api_posix.cc] ([SyscallsSpec.v]: dispatch, descriptors, directory
      entries).  [Environment.v] is [env.cc], [user.cc] and [system.cc]
      ([EnvironmentSpec.v]: variables keep what is written, who can log in).
      [Shell.v] is [shell.cc] ([ShellSpec.v]: the parser is a tokenizer).
      [Boot.v] is [main.cc]: [kmain], from the memory manager to the shell, and
      runs of it.
    - [Cxx.v] is [cxx.cc] and [divdi3.cc], what the compiler calls: 64-bit
      division, [new] and [delete], guards.  [Stats.v]: the sums and
      rates the [print_stats] functions report.
    - [Chars.v]: strings between objects and memory.  [IntrusiveList.v]:
      [runtime/list.h].
    - [Strings.v]: [string.cc], [itoa.cc].
      [Libc.v]: the C library of user programs ([src/src/sdk]).

    ** How the parts meet

    [Unified.v] calls the four allocators on one heap.  [Vmm.v], [Swap.v],
    [Paging.v], [Cow.v], [PageReplacement.v], [Stack.v], [BlockDevice.v] and
    [Ext2.v] are written against the class [KAlloc]; [Paging.alloc_frame] calls
    [Swap], which calls back for statistics.  [Ext2] reads through
    [BlockDevice], whose blocks are the class [BlockOps].  [Arch.v] calls
    [Cow] and [Paging] to fork and to destroy an address space, [FileTree] for
    the objects, and [Pit] for the ticks.  [Syscalls], [Elf] and [Shell] work on
    [world] and reach files of every class through [FileOps].  [AtaSpec.ata_laws]
    discharges the interface of [BlockDevice] by the ATA driver, so [Ext2] runs on
    a disk.  [Boot.start_kernel] composes the parts in the order of [kmain].

    ** What is a parameter

    The constructors and destructors given to slab caches; the addresses the
    linker gives to the swap file functions and the idle thread; what is in
    uninitialised memory and on the stack; [scan] of a directory of another file
    system, and the virtual operations of files; the reading and writing of one
    block of a device; the ports; the arguments of a system call, which the kernel
    never fills in ([Architecture::getArg] returns 0); the date.

    ** Not modelled

    Output that only reports: the text of the [print_stats] functions, the
    messages on the serial port, the cursor of the screen; percentages as
    floating point numbers.  The structures of the boot loader ([boot.h]), which
    no code reads.  Assembly: the interrupt stubs, the
    loading of table and control registers, [hlt].  Memory that [new] takes for
    C++ objects, which the stores above stand for, and the empty hooks of the
    compiler in [cxx.cc].  Interrupts are the order of the operations: a theorem about the
    timer is about any number of timer interrupts. *)

From Stdlib Require Import ZArith Lia.
From stdpp Require Import base list gmap option sets.

Open Scope Z_scope.

(** ** Machine integers

    A [w]-bit unsigned value is a [Z] in [[0, 2^w)]; every C operation that
    can leave the range is followed by the wrap-around the hardware does. *)

Definition u8 (z : Z) : Z := z mod 2 ^ 8.
Definition u16 (z : Z) : Z := z mod 2 ^ 16.
Definition u32 (z : Z) : Z := z mod 2 ^ 32.
Definition u64 (z : Z) : Z := z mod 2 ^ 64.

(** The value of a 32-bit pattern read as a signed [int]. *)
Definition s32 (z : Z) : Z := (z + 2 ^ 31) mod 2 ^ 32 - 2 ^ 31.

(** [x & y] used as a C condition. *)
Definition has_flag (x y : Z) : bool := negb (Z.land x y =? 0).

(** Boolean to C integer. *)
Definition b2z (b : bool) : Z := if b then 1 else 0.

Declare Scope kmos_scope.
Delimit Scope kmos_scope with kmos.

Lemma u8_range z : 0 <= u8 z < 256.
Proof. apply Z.mod_pos_bound. lia. Qed.
Lemma u32_range z : 0 <= u32 z < 2 ^ 32.
Proof. apply Z.mod_pos_bound. lia. Qed.
Lemma u64_range z : 0 <= u64 z < 2 ^ 64.
Proof. apply Z.mod_pos_bound. lia. Qed.
Lemma u8_small z : 0 <= z < 256 → u8 z = z.
Proof. apply Z.mod_small. Qed.
Lemma u32_small z : 0 <= z < 2 ^ 32 → u32 z = z.
Proof. apply Z.mod_small. Qed.
Lemma u64_small z : 0 <= z < 2 ^ 64 → u64 z = z.
Proof. apply Z.mod_small. Qed.
Lemma u32_idemp z : u32 (u32 z) = u32 z.
Proof. apply u32_small, u32_range. Qed.

(** ** Outcomes

    [Done v]: the C++ code returns; [Stuck]: it dereferences a pointer to no
    object, divides by zero or does something else the language leaves
    undefined; [OutOfFuel]: the bound given to the model's loops was used up.
    A theorem that some fuel gives [Done] is a termination theorem, and one
    that every fuel gives [OutOfFuel] a divergence theorem. *)
Inductive outcome (A : Type) : Type :=
| Done (a : A)
| Stuck
| OutOfFuel.
Arguments Done {A} a.
Arguments Stuck {A}.
Arguments OutOfFuel {A}.

Definition obind {A B} (x : outcome A) (k : A → outcome B) : outcome B :=
  match x with
  | Done a => k a
  | Stuck => Stuck
  | OutOfFuel => OutOfFuel
  end.

Notation "'let*' p ':=' x 'in' k" := (obind x (fun p => k))
  (at level 200, p pattern, x at level 100, k at level 200, right associativity) : kmos_scope.
Open Scope kmos_scope.

Definition of_option {A} (o : option A) : outcome A :=
  match o with Some a => Done a | None => Stuck end.

(** A run that returns, returns the value it has: for concrete runs whose
    result is too large to write down. *)
Definition is_done {A} (x : outcome A) : bool := match x with Done _ => true | _ => false end.

Lemma is_done_eq {A} (x : outcome A) d :
  is_done x = true → x = Done (match x with Done a => a | _ => d end).
Proof. by destruct x. Qed.

Lemma obind_Done {A B} (x : outcome A) (k : A → outcome B) b :
  obind x k = Done b ↔ ∃ a, x = Done a ∧ k a = Done b.
Proof. destruct x; naive_solver. Qed.

Lemma obind_assoc {A B C} (x : outcome A) (f : A → outcome B) (g : B → outcome C) :
  obind (obind x f) g = obind x (fun a => obind (f a) g).
Proof. by destruct x. Qed.

(** ** Loops

    [loop fuel body s] runs [body] until it answers [inr]; the body is a
    step of the C loop on the tuple of its live variables. *)
Fixpoint loop {S R : Type} (fuel : nat) (body : S → outcome (S + R)) (s : S) : outcome R :=
  match fuel with
  | O => OutOfFuel
  | Datatypes.S f =>
    let* x := body s in
    match x with
    | inl s' => loop f body s'
    | inr r => Done r
    end
  end.

(** [while fuel cond body s]: a loop without [break]. *)
Definition while {S : Type} (fuel : nat) (cond : S → bool) (body : S → S) (s : S) : outcome S :=
  loop fuel (fun s => if cond s then Done (inl (body s)) else Done (inr s)) s.

(** The total-correctness rule: an invariant, and a measure that decreases. *)
Lemma loop_total {S R} (I : S → Prop) (Q : R → Prop) (V : S → nat) body :
  (∀ s, I s → ∃ x, body s = Done x ∧
      match x with inl s' => I s' ∧ (V s' < V s)%nat | inr r => Q r end) →
  ∀ fuel s, I s → (V s < fuel)%nat → ∃ r, loop fuel body s = Done r ∧ Q r.
Proof.
  intros Hstep fuel. induction fuel as [|fuel IH]; intros s HI Hf; [lia|].
  simpl. destruct (Hstep s HI) as ([s'|r] & -> & Hx); simpl; [|by eauto].
  apply IH; [tauto|]. lia.
Qed.

Lemma while_total {S} (I : S → Prop) (V : S → nat) cond body :
  (∀ s, I s → cond s = true → I (body s) ∧ (V (body s) < V s)%nat) →
  ∀ fuel s, I s → (V s < fuel)%nat →
  ∃ s', while fuel cond body s = Done s' ∧ I s' ∧ cond s' = false.
Proof.
  intros Hstep fuel s HI HV. unfold while.
  apply (loop_total I (fun s' => I s' ∧ cond s' = false) V); [|done|done].
  intros s0 HI0. destruct (cond s0) eqn:Hc.
  - exists (inl (body s0)). auto.
  - exists (inr s0). auto.
Qed.

(** The partial-correctness rule. *)
Lemma loop_inv {S R} (I : S → Prop) (Q : R → Prop) body :
  (∀ s, I s → match body s with Done (inl s') => I s' | Done (inr r) => Q r | _ => True end) →
  ∀ fuel s r, I s → loop fuel body s = Done r → Q r.
Proof.
  intros Hstep fuel. induction fuel as [|fuel IH]; intros s r HI; [done|].
  simpl. specialize (Hstep s HI). destruct (body s) as [[s'|r']| |]; simpl; try done.
  - by apply IH.
  - naive_solver.
Qed.

(** A loop whose body never leaves runs out of any fuel. *)
Lemma loop_diverges {S R} (I : S → Prop) (body : S → outcome (S + R)) :
  (∀ s, I s → ∃ s', body s = Done (inl s') ∧ I s') →
  ∀ fuel s, I s → loop fuel body s = OutOfFuel.
Proof.
  intros Hstep fuel. induction fuel as [|fuel IH]; intros s HI; [done|].
  simpl. destruct (Hstep s HI) as (s' & -> & HI'). simpl. by apply IH.
Qed.

(** More fuel never changes a result. *)
Lemma loop_mono {S R} (body : S → outcome (S + R)) f1 f2 s r :
  (f1 <= f2)%nat → loop f1 body s = Done r → loop f2 body s = Done r.
Proof.
  revert f2 s. induction f1 as [|f1 IH]; intros f2 s Hle; [done|].
  destruct f2 as [|f2]; [lia|]. simpl.
  destruct (body s) as [[s'|]| |]; simpl; try done. apply IH. lia.
Qed.

(** [for_ n body s]: [for (i = 0; i < n; i++) body], [i] as a [Z]. *)
Fixpoint for_from {S : Type} (i : Z) (n : nat) (body : Z → S → S) (s : S) : S :=
  match n with
  | O => s
  | Datatypes.S n' => for_from (i + 1) n' body (body i s)
  end.
Definition for_ {S : Type} (n : Z) (body : Z → S → S) (s : S) : S :=
  for_from 0 (Z.to_nat n) body s.

Lemma for_from_inv {S} (I : Z → S → Prop) body n i s :
  I i s → (∀ j s', i <= j < i + Z.of_nat n → I j s' → I (j + 1) (body j s')) →
  I (i + Z.of_nat n) (for_from i n body s).
Proof.
  revert i s. induction n as [|n IH]; intros i s H0 Hs; cbn [for_from].
  - change (Z.of_nat 0) with 0. by rewrite Z.add_0_r.
  - replace (i + Z.of_nat (Datatypes.S n)) with ((i + 1) + Z.of_nat n) by lia.
    apply IH; [apply Hs; [lia|done]|]. intros j s' Hj. apply Hs. lia.
Qed.

Lemma for_inv {S} (I : Z → S → Prop) body n s :
  0 <= n → I 0 s → (∀ j s', 0 <= j < n → I j s' → I (j + 1) (body j s')) →
  I n (for_ n body s).
Proof.
  intros Hn H0 Hs. unfold for_.
  pose proof (for_from_inv I body (Z.to_nat n) 0 s H0) as H.
  rewrite Z2Nat.id in H by done. apply H. intros j s' Hj. apply Hs. lia.
Qed.

(** Arrays indexed by a [Z]; the default is what a static array holds. *)
Definition zget {A} (d : A) (l : list A) (i : Z) : A :=
  if decide (0 <= i) then nth (Z.to_nat i) l d else d.
Definition zset {A} (l : list A) (i : Z) (x : A) : list A :=
  if decide (0 <= i) then <[Z.to_nat i := x]> l else l.

Lemma zset_length {A} (l : list A) i x : length (zset l i x) = length l.
Proof. unfold zset. case_decide; [apply length_insert|done]. Qed.

Lemma zget_zset_eq {A} (d : A) l i x :
  0 <= i < Z.of_nat (length l) → zget d (zset l i x) i = x.
Proof.
  intros Hi. unfold zget, zset. repeat case_decide; try lia.
  rewrite nth_lookup, list_lookup_insert_eq; [done|lia].
Qed.

Lemma zget_zset_ne {A} (d : A) l i j x :
  i ≠ j → zget d (zset l i x) j = zget d l j.
Proof.
  intros Hij. unfold zget, zset. repeat case_decide; try done.
  rewrite !nth_lookup. f_equal. apply list_lookup_insert_ne. lia.
Qed.

Lemma zget_zset {A} (d : A) l i j x :
  0 <= i < Z.of_nat (length l) →
  zget d (zset l i x) j = if decide (i = j) then x else zget d l j.
Proof.
  intros Hi. case_decide as E; [subst; by apply zget_zset_eq|by apply zget_zset_ne].
Qed.

Lemma zget_out {A} (d : A) l i : i < 0 ∨ Z.of_nat (length l) <= i → zget d l i = d.
Proof.
  intros Hi. unfold zget. case_decide; [|done]. apply nth_overflow. lia.
Qed.

Lemma zget_cons {A} (d : A) x l i :
  zget d (x :: l) i = if decide (i = 0) then x else zget d l (i - 1).
Proof.
  unfold zget. repeat case_decide; subst; try done; try lia.
  replace (Z.to_nat i) with (S (Z.to_nat (i - 1))) by lia. done.
Qed.

(** ** Bits *)

Lemma testbit_clear_set x n m :
  0 <= n → Z.testbit (Z.lor x (Z.shiftl 1 n)) m = (m =? n) || Z.testbit x m.
Proof.
  intros Hn. rewrite Z.lor_spec. rewrite Z.shiftl_1_l, Z.pow2_bits_eqb by lia.
  rewrite orb_comm. f_equal. apply Z.eqb_sym.
Qed.

Lemma testbit_ldiff_bit x n m :
  0 <= n → Z.testbit (Z.ldiff x (Z.shiftl 1 n)) m = negb (m =? n) && Z.testbit x m.
Proof.
  intros Hn. rewrite Z.ldiff_spec. rewrite Z.shiftl_1_l, Z.pow2_bits_eqb by lia.
  rewrite andb_comm. f_equal. by rewrite Z.eqb_sym.
Qed.

(** Or-ing low bits into a multiple of [2 ^ n] adds them. *)
Lemma lor_low_add x b n : 0 <= n → 0 <= b < 2 ^ n → Z.lor (x * 2 ^ n) b = x * 2 ^ n + b.
Proof.
  intros Hn Hb. symmetry. apply Z.add_nocarry_lor. apply Z.bits_inj'. intros m Hm.
  rewrite Z.land_spec, Z.bits_0. destruct (Z.ltb_spec m n).
  - by rewrite Z.mul_pow2_bits_low by lia.
  - destruct (decide (b = 0)) as [->|Hb0]; [by rewrite Z.bits_0, andb_false_r|].
    rewrite (Z.bits_above_log2 b m), andb_false_r; [done|lia|].
    apply Z.lt_le_trans with n; [|lia]. apply Z.log2_lt_pow2; lia.
Qed.

(** [x & ~(2 ^ n - 1)] on 32-bit words rounds down to a multiple of [2 ^ n]. *)
Lemma land_align x n :
  0 <= n → 0 <= x < 2 ^ 32 → Z.land x (u32 (Z.lnot (2 ^ n - 1))) = x / 2 ^ n * 2 ^ n.
Proof.
  intros Hn Hx. unfold u32. rewrite <- Z.land_ones by lia.
  rewrite (Z.land_comm (Z.lnot _)), Z.land_assoc, (Z.land_ones x 32), Z.mod_small by lia.
  replace (2 ^ n - 1) with (Z.ones n) by (rewrite Z.ones_equiv; lia).
  rewrite <- Z.ldiff_land, Z.ldiff_ones_r by done.
  by rewrite Z.shiftl_mul_pow2, Z.shiftr_div_pow2.
Qed.

(** [x & (1 << n)] tests bit [n]. *)
Lemma has_flag_bit x n : 0 <= n → has_flag x (Z.shiftl 1 n) = Z.testbit x n.
Proof.
  intros Hn. unfold has_flag. rewrite Z.shiftl_1_l.
  assert (Z.land x (2 ^ n) = if Z.testbit x n then 2 ^ n else 0) as ->.
  { apply Z.bits_inj'. intros m Hm. rewrite Z.land_spec, Z.pow2_bits_eqb by lia.
    destruct (Z.eqb_spec n m) as [->|Hne].
    - destruct (Z.testbit x m) eqn:E; simpl.
      + by rewrite Z.pow2_bits_true by lia.
      + by rewrite Z.bits_0.
    - rewrite andb_false_r. destruct (Z.testbit x n).
      + by rewrite Z.pow2_bits_false by lia.
      + by rewrite Z.bits_0. }
  destruct (Z.testbit x n); [|done].
  assert (0 < 2 ^ n) by (apply Z.pow_pos_nonneg; lia).
  apply negb_true_iff, Z.eqb_neq. lia.
Qed.

(** ** Automation *)

(** Turn boolean comparisons of the code into propositions. *)
Ltac zify_bool :=
  repeat match goal with
  | H : _ && _ = true |- _ => apply andb_true_iff in H as [? ?]
  | H : _ || _ = false |- _ => apply orb_false_iff in H as [? ?]
  | H : negb _ = true |- _ => apply negb_true_iff in H
  | H : negb _ = false |- _ => apply negb_false_iff in H
  | H : (_ =? _) = true |- _ => apply Z.eqb_eq in H
  | H : (_ =? _) = false |- _ => apply Z.eqb_neq in H
  | H : (_ <? _) = true |- _ => apply Z.ltb_lt in H
  | H : (_ <? _) = false |- _ => apply Z.ltb_ge in H
  | H : (_ <=? _) = true |- _ => apply Z.leb_le in H
  | H : (_ <=? _) = false |- _ => apply Z.leb_gt in H
  end.

(** Case analysis on the boolean condition of the [if] in the goal. *)
Ltac case_if :=
  match goal with
  | |- context [if ?b then _ else _] => destruct b eqn:?; zify_bool
  end.

(** Invert a monadic run in a hypothesis. *)
Ltac oinv :=
  repeat match goal with
  | H : obind ?x _ = Done _ |- _ =>
    let a := fresh "a" in let E := fresh "E" in
    apply obind_Done in H as (a & E & H); simpl in H
  | H : Done _ = Done _ |- _ => injection H as H; subst
  | H : Stuck = Done _ |- _ => discriminate H
  | H : OutOfFuel = Done _ |- _ => discriminate H
  end.

Create HintDb kmos.
#[export] Hint Resolve u8_range u32_range u64_range : kmos.
#[export] Hint Rewrite @zset_length : kmos.

Lemma zset_id {A} (d : A) l i : 0 <= i < Z.of_nat (length l) → zset l i (zget d l i) = l.
Proof.
  intros Hi. unfold zset, zget. repeat case_decide; try lia. apply list_insert_id.
  rewrite nth_lookup. destruct (lookup_lt_is_Some_2 l (Z.to_nat i)) as [x Hx]; [lia|].
  by rewrite Hx.
Qed.

(** [for_] with a body that may stop the run. *)
Fixpoint ofor_from {S : Type} (i : Z) (n : nat) (body : Z → S → outcome S) (s : S) : outcome S :=
  match n with
  | O => Done s
  | Datatypes.S n => let* s := body i s in ofor_from (i + 1) n body s
  end.
Definition ofor {S : Type} (n : Z) (body : Z → S → outcome S) (s : S) : outcome S :=
  ofor_from 0 (Z.to_nat n) body s.

(** The length of a list as a machine integer. *)
Definition zlen {A} (l : list A) : Z := Z.of_nat (length l).

Lemma zlen_cons {A} (x : A) l : zlen (x :: l) = 1 + zlen l.
Proof. unfold zlen. simpl. lia. Qed.
Lemma zlen_nonneg {A} (l : list A) : 0 <= zlen l.
Proof. unfold zlen. lia. Qed.

Lemma zlen_app {A} (l1 l2 : list A) : zlen (l1 ++ l2) = zlen l1 + zlen l2.
Proof. unfold zlen. rewrite length_app. lia. Qed.
