(* ===== verification/Memory.v ===== *)
(** Kernel memory as the 32-bit machine sees it.

    kmOS keeps its allocator headers, free lists, page tables and LRU nodes
    in raw memory and reaches them through casts, so structures of different
    types may share bytes.  The model therefore has one memory: a finite map
    from the (4-aligned) address of a 32-bit word to its value.  A struct
    field is a load or a store at the struct's address plus the field's
    offset, and the [u8] fields are byte lanes of a word (little endian).
    Reading is total, as it is on the machine: a word nobody wrote holds
    what [default] says, and no theorem relies on that value. *)

From Stdlib Require Import ZArith Lia.
From stdpp Require Import base list gmap option.
From S2P Require Import Prelude.

Abbreviation mem := (gmap Z Z).

Definition load (m : mem) (a : Z) : Z := default 0 (m !! a).
Definition store (m : mem) (a v : Z) : mem := <[a := v]> m.

(** Byte access: the lane [a mod 4] of the word that contains [a]. *)
Definition load8 (m : mem) (a : Z) : Z :=
  Z.land (Z.shiftr (load m (a - a mod 4)) (8 * (a mod 4))) 255.
Definition store8 (m : mem) (a v : Z) : mem :=
  let w := load m (a - a mod 4) in
  store m (a - a mod 4)
    (Z.lor (Z.ldiff w (Z.shiftl 255 (8 * (a mod 4)))) (Z.shiftl (u8 v) (8 * (a mod 4)))).

(** 64-bit fields are two words, low word first. *)
Definition load64 (m : mem) (a : Z) : Z := u32 (load m a) + 2 ^ 32 * load m (a + 4).
Definition store64 (m : mem) (a v : Z) : mem :=
  store (store m a (u32 v)) (a + 4) (u32 (Z.shiftr v 32)).

Lemma load_store_eq m a v : load (store m a v) a = v.
Proof. unfold load, store. by rewrite lookup_insert_eq. Qed.

Lemma load_store_ne m a b v : a ≠ b → load (store m a v) b = load m b.
Proof. intros. unfold load, store. by rewrite lookup_insert_ne. Qed.

Lemma load_store m a b v :
  load (store m a v) b = if decide (a = b) then v else load m b.
Proof. case_decide; subst; [apply load_store_eq|by apply load_store_ne]. Qed.

Lemma store_store_eq m a v w : store (store m a v) a w = store m a w.
Proof. apply insert_insert_eq. Qed.

(** ** Byte lanes *)

Lemma land_255_bits x i : 0 <= i → Z.testbit (Z.land x 255) i = (i <? 8) && Z.testbit x i.
Proof.
  intros Hi. rewrite Z.land_spec. change 255 with (Z.ones 8).
  rewrite Z.testbit_ones_nonneg by lia. apply andb_comm.
Qed.

Lemma u8_bits x i : 0 <= i → Z.testbit (u8 x) i = (i <? 8) && Z.testbit x i.
Proof.
  intros Hi. unfold u8. rewrite <- Z.land_ones by lia. rewrite Z.land_spec.
  rewrite Z.testbit_ones_nonneg by lia. apply andb_comm.
Qed.

Lemma lane_same w v s :
  0 <= s →
  Z.land (Z.shiftr (Z.lor (Z.ldiff w (Z.shiftl 255 s)) (Z.shiftl (u8 v) s)) s) 255 = u8 v.
Proof.
  intros Hs. apply Z.bits_inj'. intros i Hi.
  rewrite land_255_bits, Z.shiftr_spec, Z.lor_spec, Z.ldiff_spec, !Z.shiftl_spec by lia.
  replace (i + s - s) with i by lia. rewrite u8_bits by lia.
  change 255 with (Z.ones 8). rewrite Z.testbit_ones_nonneg by lia.
  destruct (i <? 8); simpl; [|done]. by rewrite andb_false_r.
Qed.

Lemma lane_other w v s t :
  0 <= s → 0 <= t → s + 8 <= t ∨ t + 8 <= s →
  Z.land (Z.shiftr (Z.lor (Z.ldiff w (Z.shiftl 255 s)) (Z.shiftl (u8 v) s)) t) 255
  = Z.land (Z.shiftr w t) 255.
Proof.
  intros Hs Ht Hst. apply Z.bits_inj'. intros i Hi.
  rewrite !land_255_bits, !Z.shiftr_spec, Z.lor_spec, Z.ldiff_spec, !Z.shiftl_spec by lia.
  destruct (Z.ltb_spec i 8); simpl; [|done].
  change 255 with (Z.ones 8).
  assert (Z.testbit (Z.ones 8) (i + t - s) = false) as ->.
  { destruct (decide (i + t - s < 0)); [by rewrite Z.testbit_neg_r by lia|].
    rewrite Z.testbit_ones_nonneg by lia. apply Z.ltb_ge. lia. }
  assert (Z.testbit (u8 v) (i + t - s) = false) as ->.
  { destruct (decide (i + t - s < 0)); [by rewrite Z.testbit_neg_r by lia|].
    rewrite u8_bits by lia. rewrite (proj2 (Z.ltb_ge _ _)) by lia. done. }
  by rewrite andb_true_r, orb_false_r.
Qed.

Lemma load8_store8_eq m a v : load8 (store8 m a v) a = u8 v.
Proof.
  unfold load8, store8. rewrite load_store_eq. apply lane_same.
  pose proof (Z.mod_pos_bound a 4). lia.
Qed.

Lemma load8_store8_ne m a b v : a ≠ b → load8 (store8 m a v) b = load8 m b.
Proof.
  intros Hab. unfold load8, store8.
  destruct (decide (a - a mod 4 = b - b mod 4)) as [E|E].
  - rewrite E, load_store_eq.
    pose proof (Z.mod_pos_bound a 4). pose proof (Z.mod_pos_bound b 4).
    apply lane_other; lia.
  - by rewrite load_store_ne by done.
Qed.

Lemma load8_store_ne m a b v : a ≠ b - b mod 4 → load8 (store m a v) b = load8 m b.
Proof. intros. unfold load8. by rewrite load_store_ne. Qed.

Lemma load_store8_ne m a b v : a - a mod 4 ≠ b → load (store8 m a v) b = load m b.
Proof. intros. unfold store8. by rewrite load_store_ne. Qed.

(** Two memories agree on the words of a region. *)
Definition agree_on (P : Z → Prop) (m1 m2 : mem) : Prop :=
  ∀ a, P a → load m1 a = load m2 a.

#[export] Instance agree_on_equiv P : Equivalence (agree_on P).
Proof.
  split.
  - by intros m a _.
  - intros m1 m2 H a Ha. symmetry. by apply H.
  - intros m1 m2 m3 H1 H2 a Ha. rewrite H1, H2; done.
Qed.

Lemma agree_on_store P m a v : ¬ P a → agree_on P m (store m a v).
Proof. intros Ha b Hb. rewrite load_store_ne; [done|]. by intros ->. Qed.

Lemma agree_on_weaken (P Q : Z → Prop) m1 m2 :
  (∀ a, Q a → P a) → agree_on P m1 m2 → agree_on Q m1 m2.
Proof. intros HQ H a Ha. auto. Qed.

(** [load]s of the stores in the goal, by deciding each address with [lia]. *)
Ltac mem_step :=
  match goal with
  | |- context [load (store ?m ?a ?v) ?b] =>
    first
    [ rewrite (load_store_ne m a b v) by lia
    | replace (load (store m a v) b) with v
        by (symmetry; replace b with a by lia; apply load_store_eq) ]
  end.
Ltac mem_simpl := repeat mem_step.

#[export] Hint Rewrite load_store_eq load8_store8_eq store_store_eq : kmos.

Lemma load8_range m a : 0 <= load8 m a < 256.
Proof.
  unfold load8. change 255 with (Z.ones 8). rewrite Z.land_ones by lia. apply Z.mod_pos_bound. lia.
Qed.

Lemma load8_word m a : (4 | a) → load8 m a = Z.land (load m a) 255.
Proof.
  intros [i ->]. unfold load8. rewrite Z.mod_mul by lia.
  by rewrite Z.sub_0_r, Z.mul_0_r, Z.shiftr_0_r.
Qed.
Lemma store8_word m a b v : (4 | a) → a ≠ b → load (store8 m a v) b = load m b.
Proof. intros [i ->] H. apply load_store8_ne. rewrite Z.mod_mul by lia. lia. Qed.
