(* ===== verification/DList.v ===== *)
(** Pointer lists in kernel memory.

    kmOS threads its free lists, slab lists, COW pages and LRU queues through
    [next]/[prev] fields of the nodes.  This file has the representation
    predicates of both kinds of list, for any field offsets, and what the
    two recurring code fragments do to them: linking a node in front of the
    head and unlinking a node from anywhere. *)

From Stdlib Require Import ZArith Lia.
From stdpp Require Import base list gmap option.
From S2P Require Import Prelude Memory.

Section singly_linked.
(** Offset of the [next] field. *)
Context (noff : Z).

(** [slist m p l]: following [next] from [p] visits exactly [l] and stops at null. *)
Fixpoint slist (m : mem) (p : Z) (l : list Z) : Prop :=
  match l with
  | [] => p = 0
  | x :: l' => p = x ∧ x ≠ 0 ∧ slist m (load m (x + noff)) l'
  end.

Lemma slist_functional m p l1 l2 : slist m p l1 → slist m p l2 → l1 = l2.
Proof.
  revert p l2. induction l1 as [|x l1 IH]; intros p [|y l2]; simpl; naive_solver.
Qed.

Lemma slist_frame m m' p l :
  (∀ x, x ∈ l → load m' (x + noff) = load m (x + noff)) → slist m p l → slist m' p l.
Proof.
  revert p. induction l as [|x l IH]; intros p Hag; simpl; [done|].
  intros (-> & Hx & Hl). split_and!; [done|done|].
  rewrite (Hag x) by set_solver. apply IH; [|done]. intros y Hy. apply Hag. set_solver.
Qed.

Lemma slist_app m p l1 l2 :
  slist m p (l1 ++ l2) → ∃ q, slist m q l2 ∧ q = hd 0 l2.
Proof.
  revert p. induction l1 as [|x l1 IH]; intros p; simpl.
  - intros H. exists p. split; [done|]. destruct l2; simpl in *; naive_solver.
  - intros (_ & _ & H). by eapply IH.
Qed.

Lemma slist_head m p l : slist m p l → p = hd 0 l.
Proof. destruct l; simpl; naive_solver. Qed.

Lemma slist_nonnull m p l : slist m p l → Forall (λ x, x ≠ 0) l.
Proof. revert p. induction l; intros p; simpl; [constructor|]. naive_solver. Qed.

Lemma slist_length_le m p l (U : list Z) :
  slist m p l → NoDup l → (∀ x, x ∈ l → x ∈ U) → (length l <= length U)%nat.
Proof.
  intros _ Hnd Hsub. apply (submseteq_length l U). by apply NoDup_submseteq.
Qed.
End singly_linked.

Section doubly_linked.
(** Offsets of the [next] and [prev] fields. *)
Context (noff poff : Z).
Context (Hnp : noff ≠ poff).

(** A word that is no link field of the nodes of [l]. *)
Definition off_list (a : Z) (l : list Z) : Prop :=
  ∀ y, y ∈ l → a ≠ y + noff ∧ a ≠ y + poff.

(** The link fields of two nodes do not overlap. *)
Definition link_sep (x y : Z) : Prop :=
  x ≠ y → x + noff ≠ y + poff ∧ y + noff ≠ x + poff.

(** Every node of the list points back to its predecessor and on to its successor. *)
Fixpoint dseg (m : mem) (prev : Z) (l : list Z) (after : Z) : Prop :=
  match l with
  | [] => True
  | x :: l' =>
    x ≠ 0 ∧ load m (x + poff) = prev ∧ load m (x + noff) = hd after l' ∧ dseg m x l' after
  end.

(** [dlist m h l]: [h] is the head pointer of the null-terminated list [l]. *)
Definition dlist (m : mem) (h : Z) (l : list Z) : Prop :=
  h = hd 0 l ∧ dseg m 0 l 0 ∧ NoDup l ∧
  (∀ x y, x ∈ l → y ∈ l → link_sep x y).

Lemma dlist_intro m h l :
  h = hd 0 l → dseg m 0 l 0 → NoDup l → (∀ x y, x ∈ l → y ∈ l → link_sep x y) → dlist m h l.
Proof. unfold dlist. tauto. Qed.

Lemma dseg_nonnull m p l a : dseg m p l a → ∀ x, x ∈ l → x ≠ 0.
Proof.
  revert p. induction l as [|y l IH]; intros p; simpl; [set_solver|].
  intros (Hy & _ & _ & Hl) x Hx. apply elem_of_cons in Hx as [->|Hx]; [done|].
  by eapply IH.
Qed.

Lemma dseg_frame m m' p l a :
  (∀ x, x ∈ l → load m' (x + noff) = load m (x + noff)
              ∧ load m' (x + poff) = load m (x + poff)) →
  dseg m p l a → dseg m' p l a.
Proof.
  revert p. induction l as [|x l IH]; intros p Hag; simpl; [done|].
  intros (Hx & Hp & Hn & Hl). destruct (Hag x) as [-> ->]; [set_solver|].
  split; [done|split; [done|split; [done|]]]. apply IH; [|done]. intros y Hy. apply Hag. set_solver.
Qed.

Lemma dlist_frame m m' h l :
  (∀ x, x ∈ l → load m' (x + noff) = load m (x + noff)
              ∧ load m' (x + poff) = load m (x + poff)) →
  dlist m h l → dlist m' h l.
Proof. intros Hag (? & ? & ? & ?). apply dlist_intro; try done. by eapply dseg_frame. Qed.

Lemma last_default {A} (y : A) l d d' : List.last (y :: l) d = List.last (y :: l) d'.
Proof. revert y. induction l as [|z l IH]; intros y; [done|]. apply IH. Qed.

Lemma dseg_app m p l1 l2 a :
  dseg m p (l1 ++ l2) a ↔ dseg m p l1 (hd a l2) ∧ dseg m (List.last l1 p) l2 a.
Proof.
  revert p. induction l1 as [|x l1 IH]; intros p; simpl; [tauto|].
  rewrite IH. destruct l1 as [|y l1]; simpl; [tauto|].
  pose proof (last_default y l1 x p) as E. simpl in E. rewrite E. tauto.
Qed.

Lemma dlist_nil m : dlist m 0 [].
Proof. apply dlist_intro; [done|done|constructor|set_solver]. Qed.

Lemma dlist_null m l : dlist m 0 l → l = [].
Proof.
  intros (H & Hs & _). destruct l as [|x l]; [done|]. simpl in *. naive_solver.
Qed.

Lemma dlist_slist m h l : dlist m h l → slist noff m h l.
Proof.
  intros (-> & Hs & _ & _). revert Hs. generalize 0 at 1.
  induction l as [|x l IH]; intros p; simpl; [done|].
  intros (Hx & _ & Hn & Hl). split; [done|split; [done|]]. rewrite Hn. by apply (IH x).
Qed.

Lemma dlist_functional m h l1 l2 : dlist m h l1 → dlist m h l2 → l1 = l2.
Proof. intros H1%dlist_slist H2%dlist_slist. by eapply slist_functional. Qed.

(** The link fields of a node are off every list it is not on. *)
Lemma off_list_node y l o :
  o = noff ∨ o = poff → y ∉ l → (∀ z, z ∈ l → link_sep y z) → off_list (y + o) l.
Proof.
  intros Ho Hy Hsep z Hz. assert (y ≠ z) as Hne by (intros ->; done).
  destruct (Hsep z Hz Hne) as [? ?]. destruct Ho as [-> | ->]; split; lia.
Qed.

Lemma dlist_frame_off m m' h l :
  (∀ a, (∃ y o, y ∈ l ∧ (o = noff ∨ o = poff) ∧ a = y + o) → load m' a = load m a) →
  dlist m h l → dlist m' h l.
Proof. intros H. apply dlist_frame. intros x Hx. split; apply H; exists x; eauto. Qed.

(** *** Linking in front

    [x->next = head; x->prev = 0; if (head) head->prev = x;] *)
Definition dl_push (m : mem) (head x : Z) : mem :=
  let m := store m (x + noff) head in
  let m := store m (x + poff) 0 in
  if head =? 0 then m else store m (head + poff) x.

Lemma dl_push_other m head x a :
  a ≠ x + noff → a ≠ x + poff → a ≠ head + poff → load (dl_push m head x) a = load m a.
Proof. intros. unfold dl_push. case_if; rewrite ?load_store_ne; done. Qed.

Lemma dl_push_other' m head x a :
  a ≠ x + noff → a ≠ x + poff → head = 0 ∨ a ≠ head + poff →
  load (dl_push m head x) a = load m a.
Proof.
  intros H1 H2 [->|H3]; [|by apply dl_push_other]. unfold dl_push. simpl. by rewrite !load_store_ne.
Qed.

Lemma dl_push_dlist m h l x :
  dlist m h l → x ≠ 0 → x ∉ l → (∀ y, y ∈ l → link_sep x y) →
  dlist (dl_push m h x) x (x :: l).
Proof.
  intros (-> & Hs & Hnd & Hsep) Hx Hxl Hxs.
  assert (∀ y z, y ∈ x :: l → z ∈ x :: l → link_sep y z) as Hsep'.
  { unfold link_sep in *. intros y z. rewrite !elem_of_cons.
    intros [->|Hy] [->|Hz] Hne; try done; [by apply Hxs| |by apply Hsep].
    destruct (Hxs y Hy) as [? ?]; [done|]. auto. }
  apply dlist_intro; [done| |by constructor|done].
  destruct l as [|y l]; simpl in *.
  - unfold dl_push. simpl. rewrite load_store_eq, load_store_ne, load_store_eq by lia. done.
  - destruct Hs as (Hy & Hyp & Hyn & Hs).
    assert (x ≠ y) as Hxy by set_solver.
    destruct (Hxs y ltac:(set_solver) Hxy) as [Hs1 Hs2].
    unfold dl_push. rewrite (proj2 (Z.eqb_neq y 0) Hy).
    rewrite (load_store_ne _ (y + poff) (x + poff)) by lia. rewrite load_store_eq.
    rewrite (load_store_ne _ (y + poff) (x + noff)) by lia.
    rewrite (load_store_ne _ (x + poff) (x + noff)) by lia. rewrite load_store_eq.
    split_and!; try done; [by rewrite load_store_eq| |].
    + rewrite !load_store_ne by lia. done.
    + eapply dseg_frame; [|done]. intros z Hz.
      assert (z ≠ x ∧ z ≠ y) as [Hzx Hzy].
      { apply list.NoDup_cons in Hnd as [? _]. set_solver. }
      destruct (Hxs z ltac:(set_solver) ltac:(done)) as [? ?].
      destruct (Hsep y z ltac:(set_solver) ltac:(set_solver) ltac:(done)) as [? ?].
      rewrite !load_store_ne by lia. done.
Qed.

(** *** Unlinking

    [if (x->prev) x->prev->next = x->next; else head = x->next;
     if (x->next) x->next->prev = x->prev;] *)
Definition dl_remove (m : mem) (head x : Z) : mem * Z :=
  let '(m, head) :=
    if negb (load m (x + poff) =? 0)
    then (store m (load m (x + poff) + noff) (load m (x + noff)), head)
    else (m, load m (x + noff)) in
  let m :=
    if negb (load m (x + noff) =? 0)
    then store m (load m (x + noff) + poff) (load m (x + poff))
    else m in
  (m, head).

Lemma dseg_last_nonnull m p l a :
  l ≠ [] → dseg m p l a → List.last l p ≠ 0 ∧ List.last l p ∈ l.
Proof.
  revert p. induction l as [|x l IH]; intros p Hne; [done|]. simpl.
  intros (Hx & _ & _ & Hl). destruct l as [|y l].
  - split; [done|set_solver].
  - change (List.last (x :: y :: l) p) with (List.last (y :: l) p).
    rewrite (last_default y l p x).
    destruct (IH x ltac:(done) Hl) as [? ?]. split; [done|]. set_solver.
Qed.

(** Setting the [next] of the last node of a segment redirects its end. *)
Lemma dseg_set_after m p l a a' :
  l ≠ [] → dseg m p l a → NoDup l → (∀ x y, x ∈ l → y ∈ l → link_sep x y) →
  dseg (store m (List.last l p + noff) a') p l a'.
Proof.
  revert p. induction l as [|x l IH]; intros p Hne; [done|].
  intros (Hx & Hp & Hn & Hl) Hnd Hsep. destruct l as [|y l].
  - simpl. rewrite load_store_eq, load_store_ne by lia. done.
  - change (List.last (x :: y :: l) p) with (List.last (y :: l) p).
    rewrite (last_default y l p x).
    destruct (dseg_last_nonnull m x (y :: l) a ltac:(done) Hl) as [_ Hin].
    apply list.NoDup_cons in Hnd as [Hxl Hnd].
    set (z := List.last (y :: l) x) in *.
    assert (x ≠ z) by (intros E; apply Hxl; by rewrite E).
    destruct (Hsep x z ltac:(set_solver) ltac:(set_solver) ltac:(done)) as [? ?].
    split; [done|split; [|split]].
    + rewrite load_store_ne by lia. done.
    + rewrite load_store_ne by lia. done.
    + apply IH; try done. intros u v Hu Hv. apply Hsep; set_solver.
Qed.

Lemma last_in_app {A} (l : list A) d : l ≠ [] → List.last l d ∈ l.
Proof.
  induction l as [|x l IH]; [done|]. intros _. destruct l as [|y l]; [set_solver|].
  right. by apply IH.
Qed.

(** What [dl_remove]'s first conditional establishes. *)
Lemma unlink_prev m l1 x l2 :
  dseg m 0 l1 x → dseg m x l2 0 →
  NoDup (l1 ++ l2) → (∀ y z, y ∈ l1 ++ l2 → z ∈ l1 ++ l2 → link_sep y z) →
  (∀ y, y ∈ l1 ++ l2 → y + noff ≠ x + noff ∧ y + noff ≠ x + poff) →
  load m (x + noff) = hd 0 l2 → load m (x + poff) = List.last l1 0 →
  ∃ m1, (if negb (List.last l1 0 =? 0)
         then (store m (List.last l1 0 + noff) (hd 0 l2), hd 0 (l1 ++ x :: l2))
         else (m, hd 0 l2)) = (m1, hd 0 (l1 ++ l2))
    ∧ dseg m1 0 l1 (hd 0 l2) ∧ dseg m1 x l2 0
    ∧ load m1 (x + noff) = hd 0 l2 ∧ load m1 (x + poff) = List.last l1 0
    ∧ (∀ a, (∀ y, y ∈ l1 ++ l2 → a ≠ y + noff ∧ a ≠ y + poff) → load m1 a = load m a).
Proof.
  intros Hs1 Hs2 Hnd Hsep Hxsep Hxn Hxp.
  destruct (decide (l1 = [])) as [->|Hne]; [by exists m|].
  destruct (dseg_last_nonnull m 0 l1 x Hne Hs1) as [Hp0 Hpin].
  set (p := List.last l1 0) in *.
  rewrite (proj2 (Z.eqb_neq p 0) Hp0). simpl.
  exists (store m (p + noff) (hd 0 l2)).
  destruct (Hxsep p ltac:(set_solver)) as (? & ?).
  split; [f_equal; by destruct l1|].
  split; [|split; [|split; [|split]]].
  - apply dseg_set_after with (a := x); try done.
    + by apply list.NoDup_app in Hnd as [? _].
    + intros y z Hy Hz. apply Hsep; set_solver.
  - eapply dseg_frame; [|done]. intros y Hy.
    assert (p ≠ y).
    { intros E. rewrite <- E in Hy. apply list.NoDup_app in Hnd as (_ & Hd & _). by eapply Hd. }
    destruct (Hsep p y ltac:(set_solver) ltac:(set_solver) ltac:(done)) as [? ?].
    rewrite !load_store_ne by lia. done.
  - rewrite load_store_ne by lia. done.
  - rewrite load_store_ne by lia. done.
  - intros a Ha. destruct (Ha p) as [? ?]; [set_solver|]. by rewrite load_store_ne by lia.
Qed.

(** What the second conditional adds. *)
Lemma unlink_next m l1 x l2 :
  dseg m 0 l1 (hd 0 l2) → dseg m x l2 0 →
  NoDup (l1 ++ l2) → (∀ y z, y ∈ l1 ++ l2 → z ∈ l1 ++ l2 → link_sep y z) →
  let m' := if negb (hd 0 l2 =? 0) then store m (hd 0 l2 + poff) (List.last l1 0) else m in
  dseg m' 0 (l1 ++ l2) 0
  ∧ (∀ a, (∀ y, y ∈ l1 ++ l2 → a ≠ y + noff ∧ a ≠ y + poff) → load m' a = load m a).
Proof.
  intros Hs1 Hs2 Hnd Hsep. destruct l2 as [|w l2]; simpl in *.
  - rewrite app_nil_r. done.
  - destruct Hs2 as (Hw & _ & Hwn & Hs2). rewrite (proj2 (Z.eqb_neq w 0) Hw). simpl.
    assert (∀ y, y ∈ l1 ++ l2 →
              load (store m (w + poff) (List.last l1 0)) (y + noff) = load m (y + noff)
            ∧ load (store m (w + poff) (List.last l1 0)) (y + poff) = load m (y + poff)) as Hfr.
    { intros y Hy. assert (y ≠ w) as Hne.
      { intros ->. apply list.NoDup_app in Hnd as (_ & Hd & Hc).
        apply list.NoDup_cons in Hc as [? _]. set_solver. }
      destruct (Hsep y w ltac:(set_solver) ltac:(set_solver) Hne) as [? ?].
      rewrite !load_store_ne by lia. done. }
    split.
    + apply dseg_app. simpl. rewrite load_store_eq, load_store_ne by lia.
      split; [|split; [done|split; [done|split; [done|]]]].
      * eapply dseg_frame; [|exact Hs1]. intros y Hy. apply Hfr. set_solver.
      * eapply dseg_frame; [|exact Hs2]. intros y Hy. apply Hfr. set_solver.
    + intros a Ha. destruct (Ha w) as [? ?]; [set_solver|]. by rewrite load_store_ne by lia.
Qed.

Lemma dl_remove_dlist m h l1 x l2 :
  dlist m h (l1 ++ x :: l2) →
  ∃ m', dl_remove m h x = (m', hd 0 (l1 ++ l2)) ∧ dlist m' (hd 0 (l1 ++ l2)) (l1 ++ l2) ∧
    (∀ a, (∀ y, y ∈ l1 ++ l2 → a ≠ y + noff ∧ a ≠ y + poff) → load m' a = load m a).
Proof.
  intros (-> & Hs & Hnd & Hsep).
  apply dseg_app in Hs as [Hs1 Hs2]. simpl in Hs1, Hs2.
  destruct Hs2 as (Hx & Hxp & Hxn & Hs2).
  assert (x ∉ l1 ++ l2) as Hxl.
  { apply list.NoDup_app in Hnd as (_ & Hd & Hc). apply list.NoDup_cons in Hc as [? _]. set_solver. }
  assert (NoDup (l1 ++ l2)) as Hnd'.
  { eapply sublist_NoDup; [exact Hnd|]. apply sublist_app; [done|]. by apply sublist_cons. }
  assert (∀ y z, y ∈ l1 ++ l2 → z ∈ l1 ++ l2 → link_sep y z) as Hsep'.
  { intros y z Hy Hz. apply Hsep; set_solver. }
  assert (∀ y, y ∈ l1 ++ l2 → y + noff ≠ x + noff ∧ y + noff ≠ x + poff) as Hxsep.
  { intros y Hy. assert (x ≠ y) as Hne by set_solver.
    destruct (Hsep x y ltac:(set_solver) ltac:(set_solver) Hne). lia. }
  destruct (unlink_prev m l1 x l2) as (m1 & E & Hd1 & Hd2 & Hn1 & Hp1 & Hf1); try done.
  destruct (unlink_next m1 l1 x l2) as [Hd Hf]; try done.
  unfold dl_remove. rewrite Hxp, Hxn, E, Hn1, Hp1. eexists. split; [done|].
  split; [by apply dlist_intro|].
  intros a Ha. rewrite Hf by done. by apply Hf1.
Qed.

(** *** Linking behind a node

    [x->next = c->next; x->prev = c; if (c->next) c->next->prev = x; c->next = x;] *)
Definition dl_insert_after (m : mem) (c x : Z) : mem :=
  let n := load m (c + noff) in
  let m := store m (x + noff) n in
  let m := store m (x + poff) c in
  let m := if n =? 0 then m else store m (n + poff) x in
  store m (c + noff) x.

Lemma dl_insert_after_other m c x a :
  a ≠ x + noff → a ≠ x + poff → a ≠ c + noff →
  load m (c + noff) = 0 ∨ a ≠ load m (c + noff) + poff →
  load (dl_insert_after m c x) a = load m a.
Proof.
  intros H1 H2 H3 H4. unfold dl_insert_after. rewrite (load_store_ne _ (c + noff)) by done.
  case_if; [by rewrite !load_store_ne|]. destruct H4; [done|]. by rewrite !load_store_ne.
Qed.

(** The four links at the two nodes. *)
Lemma dl_insert_after_links m c x :
  x ≠ c → link_sep x c → (load m (c + noff) ≠ 0 → load m (c + noff) ≠ c ∧ load m (c + noff) ≠ x ∧
    link_sep x (load m (c + noff)) ∧ link_sep c (load m (c + noff))) →
  load (dl_insert_after m c x) (c + poff) = load m (c + poff) ∧ load (dl_insert_after m c x) (c + noff) = x ∧
  load (dl_insert_after m c x) (x + noff) = load m (c + noff) ∧ load (dl_insert_after m c x) (x + poff) = c ∧
  (load m (c + noff) ≠ 0 → load (dl_insert_after m c x) (load m (c + noff) + poff) = x).
Proof.
  intros Hxc Hsep Hn. destruct (Hsep Hxc) as [? ?]. unfold dl_insert_after. destruct (Z.eqb_spec (load m (c + noff)) 0) as [E|E].
  - split_and!; mem_simpl; done.
  - destruct (Hn E) as (H1 & H2 & H3 & H4). destruct (H3 ltac:(done)), (H4 ltac:(done)).
    split_and!; mem_simpl; done.
Qed.

Lemma NoDup_insert_after (l1 : list Z) c l2 x :
  NoDup (l1 ++ c :: l2) → x ∉ l1 ++ c :: l2 → NoDup (l1 ++ c :: x :: l2).
Proof.
  intros Hnd Hx. assert (l1 ++ c :: x :: l2 = (l1 ++ [c]) ++ x :: l2) as -> by by rewrite <- app_assoc.
  rewrite <- Permutation_middle, <- app_assoc. by constructor.
Qed.

Lemma dl_insert_after_dlist m h l1 c l2 x :
  dlist m h (l1 ++ c :: l2) → x ≠ 0 → x ∉ l1 ++ c :: l2 →
  (∀ y, y ∈ l1 ++ c :: l2 → link_sep x y) →
  dlist (dl_insert_after m c x) h (l1 ++ c :: x :: l2).
Proof.
  intros (-> & Hs & Hnd & Hsep) Hx Hxl Hxs.
  set (L := l1 ++ c :: l2) in *. set (m' := dl_insert_after m c x).
  apply dseg_app in Hs as [Hs1 Hs2]. simpl in Hs1, Hs2.
  destruct Hs2 as (Hc & Hcp & Hcn & Hs2).
  assert (c ∈ L) as HcL by (unfold L; set_solver).
  assert (∀ y, y ∈ l1 → y ∈ L) as H1L by (unfold L; set_solver).
  assert (∀ y, y ∈ l2 → y ∈ L) as H2L by (unfold L; set_solver).
  assert (x ≠ c) as Hxc by (intros ->; done).
  assert (hd 0 l2 = 0 ∨ hd 0 l2 ∈ l2) as Hhd by (destruct l2; [by left|right; left]).
  pose proof Hnd as (Hnd1 & Hd1 & [Hc2 Hnd2]%list.NoDup_cons)%list.NoDup_app.
  assert (∀ y, y ∈ L → y ≠ c → hd 0 l2 = 0 ∨ y ≠ hd 0 l2 → load m' (y + noff) = load m (y + noff)
     ∧ load m' (y + poff) = load m (y + poff)) as Hfr.
  { intros y Hy Hyc Hyn. assert (x ≠ y) as Hxy by (intros ->; done).
    destruct (Hxs y Hy Hxy). destruct (Hsep c y HcL Hy ltac:(done)).
    unfold m'. split; (apply dl_insert_after_other; [lia|lia|lia|]); rewrite Hcn;
      (destruct Hyn as [?|Hyn]; [by left|]); (destruct Hhd as [?|Hhd]; [by left|]); right; [|lia].
    intros E. destruct (Hsep (hd 0 l2) y (H2L _ Hhd) Hy ltac:(done)). lia. }
  assert (hd 0 l2 ≠ 0 → hd 0 l2 ∈ l2) as Hhd' by (intros ?; by destruct Hhd).
  destruct (dl_insert_after_links m c x Hxc (Hxs c HcL)) as (E1 & E2 & E3 & E4 & E5).
  { rewrite Hcn. intros Hh%Hhd'. split; [by intros <-|]. split; [by intros <-; auto|]. auto. }
  fold m' in E1, E2, E3, E4, E5. rewrite Hcn in E3, E5.
  apply dlist_intro.
  - by destruct l1.
  - apply dseg_app. split.
    + eapply dseg_frame; [|exact Hs1]. intros y Hy. apply Hfr; [by apply H1L|by intros ->; eapply Hd1; [|left]|].
      destruct Hhd as [?|Hhd]; [by left|right]. intros ->. eapply Hd1; [exact Hy|by right].
    + split; [done|]. split; [by rewrite E1|]. split; [done|].
      split; [done|]. split; [done|]. split; [done|].
      destruct l2 as [|y l2]; [done|]. simpl in *. destruct Hs2 as (Hy & Hyp & Hyn & Hs2).
      assert (y ∈ L) as HyL by (apply H2L; left). assert (y ≠ c) as Hyc by (intros ->; apply Hc2; left).
      assert (x ≠ y) as Hxy by (intros ->; done). destruct (Hxs y HyL Hxy).
      destruct (Hsep c y HcL HyL ltac:(done)).
      split; [done|]. split; [by apply E5|split].
      * unfold m'. rewrite dl_insert_after_other; [done|lia|lia|lia|]. rewrite Hcn. right. lia.
      * eapply dseg_frame; [|exact Hs2]. intros z Hz. apply Hfr; [apply H2L; by right|by intros ->; apply Hc2; right|].
        right. intros ->. by apply list.NoDup_cons in Hnd2 as [? _].
  - by apply NoDup_insert_after.
  - assert (∀ y, y ∈ l1 ++ c :: x :: l2 → y = x ∨ y ∈ L) as Hin by (unfold L; set_solver).
    intros y z [->|Hy]%Hin [->|Hz]%Hin Hne; [done|by apply Hxs| |by apply Hsep].
    destruct (Hxs y Hy ltac:(done)). lia.
Qed.

(** *** Linking behind the last node *)

(** A segment keeps its shape when only the [next] of its last node changes. *)
Lemma dseg_redirect m m' p l a a' :
  dseg m p l a → NoDup l → (∀ y, y ∈ l → load m' (y + poff) = load m (y + poff)) →
  (∀ y, y ∈ l → y ≠ List.last l p → load m' (y + noff) = load m (y + noff)) →
  (l ≠ [] → load m' (List.last l p + noff) = a') → dseg m' p l a'.
Proof.
  revert p. induction l as [|x l IH]; intros p; [done|].
  intros (Hx & Hp & Hn & Hl) [Hxl Hnd]%list.NoDup_cons Hpo Hno Hla.
  destruct l as [|y l]; [split; [done|]; split; [by rewrite Hpo by set_solver|]; split; [by apply Hla|done]|].
  change (List.last (x :: y :: l) p) with (List.last (y :: l) p) in *. rewrite (last_default y l p x) in *.
  assert (x ≠ List.last (y :: l) x) as Hxz by (intros E; apply Hxl; rewrite E; by apply last_in_app).
  split; [done|]. split; [by rewrite Hpo by set_solver|]. split; [by rewrite Hno by set_solver|].
  apply IH; [done|done| | |by intros _; apply Hla]; intros z Hz; [|intros Hne];
    [apply Hpo|apply Hno; [|done]]; by apply elem_of_cons; right.
Qed.

Lemma dl_append_dlist m m' h l x :
  dlist m h l → x ≠ 0 → x ∉ l → (∀ y, y ∈ l → link_sep x y) → l ≠ [] →
  load m' (x + noff) = 0 → load m' (x + poff) = List.last l 0 → load m' (List.last l 0 + noff) = x →
  (∀ y, y ∈ l → load m' (y + poff) = load m (y + poff)) →
  (∀ y, y ∈ l → y ≠ List.last l 0 → load m' (y + noff) = load m (y + noff)) →
  dlist m' h (l ++ [x]).
Proof.
  intros (-> & Hs & Hnd & Hsep) Hx Hxl Hxs Hl Hxn Hxp Hln Hp Hn. apply dlist_intro.
  - by destruct l.
  - apply dseg_app. split; [by eapply (dseg_redirect m m' 0 l 0 x)|]. by repeat split.
  - apply list.NoDup_app. split; [done|]. split; [|apply NoDup_singleton].
    intros y Hy [->|?%elem_of_nil]%elem_of_cons; done.
  - intros y z [Hy|Hy%list_elem_of_singleton]%elem_of_app [Hz|Hz%list_elem_of_singleton]%elem_of_app Hne; try subst y; try subst z;
      [by apply Hsep| |by apply Hxs|done]. destruct (Hxs y Hy ltac:(done)). lia.
Qed.
End doubly_linked.
