(* ===== verification/Buddy.v ===== *)
(** The buddy allocator: [src/src/kernel/runtime/buddy.h] and [buddy.cc].

    A [buddy_block] is the 20-byte header at the start of every block:
    [next] at 0, [prev] at 4, [order] at 8, [magic] at 12 and the byte
    [allocated] at 16.  The zone's static fields are the record
    [buddy_zone]; the headers live in kernel memory.  [heap] pairs the two,
    and it is what every allocator built on the buddy allocator threads. *)

From Stdlib Require Import ZArith Lia.
From stdpp Require Import base list gmap option.
From S2P Require Import Prelude Memory DList.

Definition MAX_ORDER : Z := 11.
Definition MIN_BLOCK_SIZE : Z := 4096.
Definition BUDDY_MAGIC : Z := 0xBDD1234.

(** [struct buddy_block]: field offsets and [sizeof]. *)
Definition bb_next : Z := 0.
Definition bb_prev : Z := 4.
Definition bb_order : Z := 8.
Definition bb_magic : Z := 12.
Definition bb_allocated : Z := 16.
Definition sizeof_buddy_block : Z := 20.

Record buddy_zone := mk_zone {
  free_lists : list Z;
  free_blocks : list Z;
  memory_start : Z;
  memory_size : Z;
  total_blocks : Z;
  allocated_blocks : Z;
}.

Record heap := mk_heap { hmem : mem; zone : buddy_zone }.

Definition set_mem (h : heap) (m : mem) : heap := mk_heap m (zone h).
Definition set_zone (h : heap) (z : buddy_zone) : heap := mk_heap (hmem h) z.
Definition zone_lists (z : buddy_zone) (l c : list Z) : buddy_zone :=
  mk_zone l c (memory_start z) (memory_size z) (total_blocks z) (allocated_blocks z).
Definition zone_allocated (z : buddy_zone) (n : Z) : buddy_zone :=
  mk_zone (free_lists z) (free_blocks z) (memory_start z) (memory_size z) (total_blocks z) n.

(** Reading and writing one field of a structure in the kernel heap. *)
Definition hload (h : heap) (a : Z) : Z := load (hmem h) a.
Definition hstore (h : heap) (a v : Z) : heap := set_mem h (store (hmem h) a v).
Definition hstore8 (h : heap) (a v : Z) : heap := set_mem h (store8 (hmem h) a v).

(** [(1U << order) * MIN_BLOCK_SIZE], the code's 32-bit block size. *)
Definition block_size (order : Z) : Z := u32 (u32 (Z.shiftl 1 order) * MIN_BLOCK_SIZE).

Definition flist (h : heap) (order : Z) : Z := zget 0 (free_lists (zone h)) order.

Definition add_to_free_list (h : heap) (block order : Z) : heap :=
  let head := flist h order in
  let h := hstore h (block + bb_next) head in
  let h := hstore h (block + bb_prev) 0 in
  let h := if head =? 0 then h else hstore h (head + bb_prev) block in
  let z := zone h in
  set_zone h (zone_lists z (zset (free_lists z) order block)
                (zset (free_blocks z) order (u32 (zget 0 (free_blocks z) order + 1)))).

Definition remove_from_free_list (h : heap) (block order : Z) : heap :=
  let m := hmem h in
  let h :=
    if negb (load m (block + bb_prev) =? 0)
    then hstore h (load m (block + bb_prev) + bb_next) (load m (block + bb_next))
    else let z := zone h in
         set_zone h (zone_lists z (zset (free_lists z) order (load m (block + bb_next)))
                       (free_blocks z)) in
  let m := hmem h in
  let h :=
    if negb (load m (block + bb_next) =? 0)
    then hstore h (load m (block + bb_next) + bb_prev) (load m (block + bb_prev))
    else h in
  let z := zone h in
  set_zone h (zone_lists z (free_lists z)
                (zset (free_blocks z) order (u32 (zget 0 (free_blocks z) order - 1)))).

Definition init_block (h : heap) (block order : Z) : heap :=
  let h := hstore h (block + bb_next) 0 in
  let h := hstore h (block + bb_prev) 0 in
  let h := hstore h (block + bb_order) order in
  let h := hstore h (block + bb_magic) BUDDY_MAGIC in
  hstore8 h (block + bb_allocated) 0.

(** [get_order]: the loop doubles [block_size] until it covers [size]. *)
Definition get_order (size : Z) : outcome Z :=
  let* s := while 13 (fun '(order, bs) => (bs <? size) && (order <? MAX_ORDER))
                     (fun '(order, bs) => (order + 1, u32 (Z.shiftl bs 1)))
                     (0, MIN_BLOCK_SIZE) in
  Done (fst s).

Definition find_buddy (h : heap) (block order : Z) : Z :=
  let z := zone h in
  let block_index := (block - memory_start z) / block_size order in
  let buddy_index := Z.lxor block_index 1 in
  let buddy_addr := u32 (memory_start z + u32 (buddy_index * block_size order)) in
  if u32 (memory_start z + memory_size z) <=? buddy_addr then 0
  else
    if (load (hmem h) (buddy_addr + bb_magic) =? BUDDY_MAGIC)
       && (load8 (hmem h) (buddy_addr + bb_allocated) =? 0)
       && (load (hmem h) (buddy_addr + bb_order) =? order)
    then buddy_addr else 0.

Definition split_block (h : heap) (block order target_order : Z) : outcome heap :=
  let* s := while 13 (fun '(order, _) => target_order <? order)
    (fun '(order, h) =>
       let order := order - 1 in
       let buddy := block + block_size order in
       let h := init_block h buddy order in
       let h := add_to_free_list h buddy order in
       (order, hstore h (block + bb_order) order))
    (order, h) in
  Done (snd s).

Definition coalesce_block (h : heap) (block order : Z) : outcome heap :=
  let* s := loop 13
    (fun '(h, block, order) =>
       if negb (order <? MAX_ORDER) then Done (inr (h, block, order))
       else
         let buddy := find_buddy h block order in
         if buddy =? 0 then Done (inr (h, block, order))
         else
           let h := remove_from_free_list h buddy order in
           let block := if buddy <? block then buddy else block in
           let order := order + 1 in
           Done (inl (hstore h (block + bb_order) order, block, order)))
    (h, block, order) in
  let '(h, block, order) := s in
  Done (add_to_free_list h block order).

Definition alloc_order (h : heap) (order : Z) : outcome (Z * heap) :=
  if MAX_ORDER <? order then Done (0, h)
  else
    let* current_order :=
      while 13 (fun c => (c <=? MAX_ORDER) && (flist h c =? 0)) (fun c => c + 1) order in
    if MAX_ORDER <? current_order then Done (0, h)
    else
      let block := flist h current_order in
      let h := remove_from_free_list h block current_order in
      let* h := if order <? current_order then split_block h block current_order order
                else Done h in
      let h := hstore8 h (block + bb_allocated) 1 in
      let h := set_zone h (zone_allocated (zone h) (u32 (allocated_blocks (zone h) + 1))) in
      Done (block + sizeof_buddy_block, h).

Definition alloc (h : heap) (size : Z) : outcome (Z * heap) :=
  if size =? 0 then Done (0, h)
  else let* order := get_order size in alloc_order h order.

Definition free_order (h : heap) (ptr order : Z) : outcome heap :=
  if (ptr =? 0) || (MAX_ORDER <? order) then Done h
  else
    let block := ptr - sizeof_buddy_block in
    let h := hstore8 h (block + bb_allocated) 0 in
    let h := set_zone h (zone_allocated (zone h) (u32 (allocated_blocks (zone h) - 1))) in
    coalesce_block h block order.

Definition free (h : heap) (ptr : Z) : outcome heap :=
  if ptr =? 0 then Done h
  else
    let block := ptr - sizeof_buddy_block in
    if negb (load (hmem h) (block + bb_magic) =? BUDDY_MAGIC)
       || (load8 (hmem h) (block + bb_allocated) =? 0)
    then Done h
    else free_order h ptr (load (hmem h) (block + bb_order)).

(** The largest order whose block still fits in [current_size]. *)
Definition init_order (current_size : Z) : outcome Z :=
  while 13 (fun order => (block_size (order + 1) <=? current_size) && (order <? MAX_ORDER))
        (fun order => order + 1) 0.

(** [init]: empty lists, then blocks of decreasing size from the start of the region. *)
Definition init (m : mem) (start size : Z) : outcome heap :=
  let z := mk_zone (replicate 12 0) (replicate 12 0) start size (size / MIN_BLOCK_SIZE) 0 in
  let* s := loop (S (Z.to_nat (size / MIN_BLOCK_SIZE)))
    (fun '(h, current_addr, current_size) =>
       if negb (MIN_BLOCK_SIZE <=? current_size) then Done (inr h)
       else
         let* order := init_order current_size in
         let h := init_block h current_addr order in
         let h := add_to_free_list h current_addr order in
         let bs := block_size order in
         Done (inl (h, current_addr + bs, current_size - bs)))
    (mk_heap m z, start, size) in
  Done s.

Definition init_buddy_allocator (m : mem) : outcome heap := init m 0x1000000 0x1000000.
