(* ===== verification/BuddyPartition.v ===== *)
(** The geometry of the buddy allocator: sizes and alignment of blocks, the
    partition of the region into blocks, and partitions without two free
    buddies.  In such a partition every naturally aligned place that meets no
    allocated block lies in one free block, so the partition without
    allocations is unique. *)

From Stdlib Require Import ZArith Lia Znumtheory.
From stdpp Require Import base list gmap option.
From S2P Require Import Prelude Buddy.

(** ** Block sizes *)

Definition bsize (k : Z) : Z := 4096 * 2 ^ k.

Lemma bsize_0 : bsize 0 = 4096.
Proof. done. Qed.
Lemma bsize_succ k : 0 <= k → bsize (k + 1) = 2 * bsize k.
Proof. intros. unfold bsize. rewrite Z.pow_add_r by lia. lia. Qed.
Lemma bsize_ge k : 0 <= k → 4096 <= bsize k.
Proof. intros. unfold bsize. assert (0 < 2 ^ k) by (apply Z.pow_pos_nonneg; lia). lia. Qed.
Lemma bsize_divide j k : 0 <= j <= k → (bsize j | bsize k).
Proof.
  intros. exists (2 ^ (k - j)). unfold bsize.
  replace k with ((k - j) + j) at 1 by lia. rewrite Z.pow_add_r by lia. lia.
Qed.
Lemma page_divide k : 0 <= k → (4096 | bsize k).
Proof. intros. exists (2 ^ k). unfold bsize. lia. Qed.
Lemma bsize_mono j k : 0 <= j <= k → bsize j <= bsize k.
Proof.
  intros. unfold bsize. assert (2 ^ j <= 2 ^ k) by (apply Z.pow_le_mono_r; lia). lia.
Qed.
Lemma bsize_lt j k : 0 <= j < k → bsize j < bsize k.
Proof.
  intros. unfold bsize. assert (2 ^ j < 2 ^ k) by (apply Z.pow_lt_mono_r; lia). lia.
Qed.

Lemma block_size_bsize k : 0 <= k <= 12 → block_size k = bsize k.
Proof.
  intros. unfold block_size, bsize, MIN_BLOCK_SIZE. rewrite Z.shiftl_1_l.
  assert (2 ^ k <= 2 ^ 12) by (apply Z.pow_le_mono_r; lia).
  assert (0 < 2 ^ k) by (apply Z.pow_pos_nonneg; lia).
  rewrite (u32_small (2 ^ k)) by lia. rewrite u32_small; lia.
Qed.

(** An aligned block that meets a larger aligned block is inside it. *)
Lemma aligned_inside s c p x n M :
  0 < n → (n | M) → (M | c - s) → (n | p - s) →
  c <= x < c + M → p <= x < p + n → c <= p ∧ p + n <= c + M.
Proof.
  intros Hn [t ->] [i Hi] [j Hj] Hc Hp.
  assert (c = s + i * t * n) as -> by lia. assert (p = s + j * n) as -> by lia.
  assert (i * t <= j) by nia. assert (j + 1 <= i * t + t) by nia. nia.
Qed.

(** ** The partition of the region into blocks *)

Record shape (s e : Z) (B : gmap Z (Z * bool)) : Prop := {
  shape_block : ∀ b k a, B !! b = Some (k, a) →
    0 <= k <= MAX_ORDER ∧ s <= b ∧ (bsize k | b - s) ∧ b + bsize k <= e;
  shape_disj : ∀ b1 k1 a1 b2 k2 a2, B !! b1 = Some (k1, a1) → B !! b2 = Some (k2, a2) →
    b1 ≠ b2 → b1 + bsize k1 <= b2 ∨ b2 + bsize k2 <= b1;
  shape_cover : ∀ p, s <= p < e → ∃ b k a, B !! b = Some (k, a) ∧ b <= p < b + bsize k;
}.

Lemma shape_flag s e B b k a a' :
  shape s e B → B !! b = Some (k, a) → shape s e (<[b := (k, a')]> B).
Proof.
  intros [Hb Hd Hc] HB. split.
  - intros c j d. rewrite lookup_insert. case_decide; [|by apply Hb].
    intros [= -> ->]. subst. by eapply Hb.
  - intros b1 k1 a1 b2 k2 a2. rewrite !lookup_insert.
    repeat case_decide; subst; try done; intros [=] || intros; simplify_eq;
      intros; simplify_eq; eauto.
  - intros p Hp. destruct (Hc p Hp) as (c & j & d & Hl & Hr).
    destruct (decide (b = c)) as [->|].
    + exists c, k, a'. rewrite lookup_insert_eq. simplify_eq. eauto.
    + exists c, j, d. rewrite lookup_insert_ne by done. eauto.
Qed.

(** Replacing the blocks of a sub-region keeps the partition, if the new
    blocks are well formed and cover the same sub-region. *)
Lemma shape_split s e B b k a1 a2 a3 :
  shape s e B → 0 <= k → B !! b = Some (k + 1, a1) →
  shape s e (<[b + bsize k := (k, a2)]> (<[b := (k, a3)]> B)).
Proof.
  intros [Hb Hd Hc] Hk HB.
  destruct (Hb _ _ _ HB) as (Hk1 & Hs & [i Hi] & He).
  pose proof (bsize_ge k Hk) as Hge. pose proof (bsize_succ k Hk) as Hsucc.
  split.
  - intros c j d. rewrite !lookup_insert. repeat case_decide; [| |by apply Hb]; intros [= <- <-]; subst.
    + split; [lia|split; [lia|split; [|lia]]]. exists (2 * i + 1). lia.
    + split; [lia|split; [lia|split; [|lia]]]. exists (2 * i). lia.
  - assert (∀ c j d, B !! c = Some (j, d) → c ≠ b → b + bsize (k + 1) <= c ∨ c + bsize j <= b) as Hother.
    { intros c j d Hl Hne. destruct (Hd _ _ _ _ _ _ HB Hl); auto. }
    intros b1 k1 d1 b2 k2 d2. rewrite !lookup_insert.
    repeat case_decide; intros E1 E2 Hne; simplify_eq; try lia;
      try (destruct (Hother _ _ _ E1); [congruence|lia|lia]);
      try (destruct (Hother _ _ _ E2); [congruence|lia|lia]). by eapply Hd.
  - intros p Hp. destruct (Hc p Hp) as (c & j & d & Hl & Hr).
    destruct (decide (b = c)) as [<-|].
    + simplify_eq. destruct (decide (p < b + bsize k)).
      * exists b, k, a3. rewrite lookup_insert_ne, lookup_insert_eq by lia. split; [done|lia].
      * exists (b + bsize k), k, a2. rewrite lookup_insert_eq. split; [done|lia].
    + exists c, j, d. rewrite !lookup_insert_ne; [done|done|].
      intros <-. destruct (Hb _ _ _ Hl) as (? & _). pose proof (bsize_ge j ltac:(lia)).
      destruct (Hd _ _ _ _ _ _ HB Hl); lia.
Qed.

Lemma shape_merge s e B b k a1 a2 a :
  shape s e B → k < MAX_ORDER → B !! b = Some (k, a1) → B !! (b + bsize k) = Some (k, a2) →
  (bsize (k + 1) | b - s) →
  shape s e (<[b := (k + 1, a)]> (delete (b + bsize k) B)).
Proof.
  intros [Hb Hd Hc] HM HB HB2 Hal.
  destruct (Hb _ _ _ HB) as (Hk1 & Hs & _ & He). destruct (Hb _ _ _ HB2) as (_ & _ & _ & He2).
  pose proof (bsize_ge k ltac:(lia)) as Hge. pose proof (bsize_succ k ltac:(lia)) as Hsucc.
  set (c := b + bsize k) in *.
  split.
  - intros x j d. rewrite lookup_insert, lookup_delete.
    repeat case_decide; try done; [intros [= <- <-]; subst; split; [lia|split; [lia|split; [done|lia]]]|by apply Hb].
  - assert (∀ x j d, B !! x = Some (j, d) → x ≠ b → x ≠ c →
              b + bsize (k + 1) <= x ∨ x + bsize j <= b) as Hother.
    { intros x j d Hl Hx1 Hx2. pose proof (Hb _ _ _ Hl) as (? & _). pose proof (bsize_ge j ltac:(lia)).
      destruct (Hd _ _ _ _ _ _ HB Hl); [congruence| |lia].
      destruct (Hd _ _ _ _ _ _ HB2 Hl); [congruence|lia|lia]. }
    intros b1 k1 d1 b2 k2 d2. rewrite !lookup_insert, !lookup_delete.
    repeat case_decide; intros E1 E2 Hne; simplify_eq; try lia;
      try (destruct (Hother _ _ _ E1); [congruence|congruence|lia|lia]);
      try (destruct (Hother _ _ _ E2); [congruence|congruence|lia|lia]). by eapply Hd.
  - intros p Hp. destruct (Hc p Hp) as (x & j & d & Hl & Hr).
    destruct (decide (x = b ∨ x = c)) as [Hx|Hx].
    + exists b, (k + 1), a. rewrite lookup_insert_eq. split; [done|].
      destruct Hx as [-> | ->]; simplify_eq; lia.
    + exists x, j, d. rewrite lookup_insert_ne, lookup_delete_ne by naive_solver. done.
Qed.

(** The buddy of a block is in the region; then its header is the header of a
    block no larger than [k], so testing the header is safe. *)
Lemma shape_buddy s e B b k a x :
  shape s e B → B !! b = Some (k, a) → (bsize k | x - s) → s <= x < e →
  (x = b + bsize k ∧ (bsize (k + 1) | b - s) ∨ x = b - bsize k ∧ (bsize (k + 1) | x - s)) →
  ∃ j d, B !! x = Some (j, d) ∧ j <= k.
Proof.
  intros [Hb Hd Hc] HB Hxal Hx Hbud.
  destruct (Hb _ _ _ HB) as (Hk & Hs & Hal & He).
  pose proof (bsize_ge k ltac:(lia)) as Hge. pose proof (bsize_succ k ltac:(lia)) as Hsucc.
  destruct (Hc x Hx) as (c & j & d & Hl & Hr).
  destruct (Hb _ _ _ Hl) as (Hj & Hcs & Hcal & Hce).
  pose proof (bsize_ge j ltac:(lia)).
  destruct (decide (j <= k)) as [Hjk|Hjk].
  - exists j, d. split; [|done].
    destruct (aligned_inside s x c x (bsize j) (bsize k)); try lia; try done.
    { apply bsize_divide; lia. }
    assert (c = x) as -> by lia. done.
  - exfalso. assert ((bsize (k + 1) | bsize j)) by (apply bsize_divide; lia).
    assert (b ≠ c) by (intros ->; simplify_eq; lia).
    set (p := Z.min b x).
    destruct (aligned_inside s c p x (bsize (k + 1)) (bsize j)); try done; try lia.
    { subst p. destruct Hbud as [[-> ?]|[-> ?]]; [rewrite Z.min_l by lia|rewrite Z.min_r by lia]; done. }
    destruct (Hd _ _ _ _ _ _ HB Hl); [done|lia|lia].
Qed.

(** ** Partitions without two free buddies *)

(** The buddies [x] of the block [b] of order [k]. *)
Definition is_buddy (s b x k : Z) : Prop :=
  x = b + bsize k ∧ (bsize (k + 1) | b - s) ∨ b = x + bsize k ∧ (bsize (k + 1) | x - s).

Lemma is_buddy_sym s b x k : is_buddy s b x k → is_buddy s x b k.
Proof. unfold is_buddy. tauto. Qed.

Lemma is_buddy_unique s b x y k : 0 <= k → is_buddy s b x k → is_buddy s b y k → x = y.
Proof.
  intros Hk Hx Hy. pose proof (bsize_ge k Hk). pose proof (bsize_succ k Hk) as E.
  assert (∀ i j u v, u - s = i * bsize (k + 1) → v - s = j * bsize (k + 1) → u ≠ v + bsize k) as Hodd.
  { intros i j u v Hi Hj ->. rewrite E in Hi, Hj.
    assert (bsize k * (2 * (i - j) - 1) = 0) as [?|?]%Z.mul_eq_0 by lia; lia. }
  destruct Hx as [[-> [i Hi]]|[Hx [i Hi]]], Hy as [[-> [j Hj]]|[Hy [j Hj]]]; try lia.
  - by destruct (Hodd _ _ _ _ Hi Hj).
  - by destruct (Hodd _ _ _ _ Hj Hi).
Qed.

(** A block is one half of a naturally aligned block of the next order. *)
Lemma parent_exists s b k :
  0 <= k → (bsize k | b - s) →
  ∃ p, (bsize (k + 1) | p - s) ∧ (b = p ∨ b = p + bsize k) ∧ is_buddy s b (2 * p + bsize k - b) k.
Proof.
  intros Hk [i Hi]. pose proof (bsize_succ k Hk) as E.
  destruct (Z.Even_or_Odd i) as [[j ->]|[j ->]].
  - exists b. assert (bsize (k + 1) | b - s) by (exists j; lia).
    split; [done|]. split; [by left|]. left. split; [lia|done].
  - assert (bsize (k + 1) | b - bsize k - s) by (exists j; lia).
    exists (b - bsize k). split; [done|]. split; [right; lia|]. right.
    replace (2 * (b - bsize k) + bsize k - b) with (b - bsize k) by lia. split; [lia|done].
Qed.

Definition maximal (s : Z) (B : gmap Z (Z * bool)) : Prop :=
  ∀ b x k, k < MAX_ORDER → is_buddy s b x k → B !! b = Some (k, false) → B !! x ≠ Some (k, false).

Lemma maximal_fewer s B B' :
  maximal s B → (∀ b k, B' !! b = Some (k, false) → B !! b = Some (k, false)) → maximal s B'.
Proof. intros HB Hsub b x k Hk Hbud Hb%Hsub Hx%Hsub. by eapply HB. Qed.

Lemma maximal_held s B b k : maximal s B → maximal s (<[b := (k, true)]> B).
Proof.
  intros HB. apply (maximal_fewer _ _ _ HB). intros c j. rewrite lookup_insert. by case_decide.
Qed.

Lemma maximal_put s B b k :
  maximal s B → 0 <= k → (k < MAX_ORDER → ∀ x, is_buddy s b x k → B !! x ≠ Some (k, false)) →
  maximal s (<[b := (k, false)]> B).
Proof.
  intros HB Hk Hb c x j Hj Hbud. rewrite !lookup_insert. repeat case_decide; simplify_eq.
  - intros [= ->] _. pose proof (bsize_ge j Hk). destruct Hbud as [[? _]|[? _]]; lia.
  - intros [= <-]. by apply Hb.
  - intros Hc [= ->]. by destruct (Hb Hj c (is_buddy_sym _ _ _ _ Hbud)).
  - by apply HB.
Qed.

(** A naturally aligned place of order [k] that meets no allocated block. *)
Definition free_place (s e : Z) (B : gmap Z (Z * bool)) (q k : Z) : Prop :=
  0 <= k <= MAX_ORDER ∧ s <= q ∧ q + bsize k <= e ∧ (bsize k | q - s) ∧
  ∀ b j, B !! b = Some (j, true) → b + bsize j <= q ∨ q + bsize k <= b.

Section cover.
Context (s e : Z) (B : gmap Z (Z * bool)) (Hsh : shape s e B) (Hmax : maximal s B).

(** The buddy of a block in a free place, smaller than the place, is cut
    into smaller blocks: it is in the place, so it is free. *)
Lemma smaller_block q k b j a :
  free_place s e B q k → B !! b = Some (j, a) → j < k → q <= b < q + bsize k →
  ∃ x i d, B !! x = Some (i, d) ∧ i < j ∧ q <= x < q + bsize k.
Proof.
  intros (Hk & Hs & He & Hal & Hfree) Hb Hj Hr.
  assert (∀ c i d, B !! c = Some (i, d) → q <= c < q + bsize k → d = false) as Hd.
  { intros c i [] Hc Hcr; [|done]. destruct (shape_block _ _ _ Hsh _ _ _ Hc) as (? & _).
    pose proof (bsize_ge i ltac:(lia)). apply Hfree in Hc. lia. }
  rewrite (Hd _ _ _ Hb Hr) in Hb. destruct (shape_block _ _ _ Hsh _ _ _ Hb) as (Hj0 & _ & Hbal & _).
  pose proof (bsize_ge j ltac:(lia)). pose proof (bsize_succ j ltac:(lia)) as E.
  destruct (parent_exists s b j ltac:(lia) Hbal) as (p & Hp & Hbp & Hbud).
  destruct (aligned_inside s q p b (bsize (j + 1)) (bsize k)) as [Hq1 Hq2];
    try done; try lia; [apply bsize_divide; lia|].
  set (x := 2 * p + bsize j - b) in *. assert (q <= x < q + bsize k) as Hxr by lia.
  destruct (shape_buddy _ _ _ _ _ _ x Hsh Hb) as (i & d & Hx & Hi).
  - destruct Hbal as [t Ht], Hbud as [[-> _]|[Hbx _]]; [exists (t + 1)|exists (t - 1)]; lia.
  - lia.
  - destruct Hbud as [[? ?]|[? ?]]; [left; done|right; split; [lia|done]].
  - exists x, i, d. split; [done|]. split; [|done].
    destruct (decide (i = j)) as [->|]; [|lia]. rewrite (Hd _ _ _ Hx Hxr) in Hx.
    by destruct (Hmax b x j ltac:(lia) Hbud Hb).
Qed.

Lemma no_smaller_block q k b j a :
  free_place s e B q k → B !! b = Some (j, a) → q <= b < q + bsize k → k <= j.
Proof.
  intros Hq Hb Hr. destruct (decide (k <= j)); [done|exfalso].
  destruct (shape_block _ _ _ Hsh _ _ _ Hb) as ([Hj _] & _).
  assert (∀ n b j a, B !! b = Some (j, a) → j < Z.of_nat n → j < k → q <= b < q + bsize k → False) as Hind.
  { clear dependent b j a. induction n as [|n IH]; intros b j a Hb Hn Hj Hr.
    - destruct (shape_block _ _ _ Hsh _ _ _ Hb) as ([? _] & _). lia.
    - destruct (smaller_block _ _ _ _ _ Hq Hb Hj Hr) as (x & i & d & Hx & Hi & Hxr).
      eapply (IH x i d); [done|lia|lia|done]. }
  eapply (Hind (Z.to_nat (j + 1))); [done|lia|lia|done].
Qed.

(** A free place lies in one free block. *)
Lemma free_place_covered q k :
  free_place s e B q k → ∃ b j, B !! b = Some (j, false) ∧ k <= j ∧ b <= q ∧ q + bsize k <= b + bsize j.
Proof.
  intros Hq. pose proof Hq as (Hk & Hs & He & Hal & Hfree).
  pose proof (bsize_ge k ltac:(lia)) as Hge.
  destruct (shape_cover _ _ _ Hsh q ltac:(lia)) as (b & j & a & Hb & Hr).
  destruct (shape_block _ _ _ Hsh _ _ _ Hb) as (Hj & Hbs & Hbal & Hbe).
  assert (k <= j) as Hkj.
  { destruct (decide (k <= j)); [done|]. apply (no_smaller_block q k b j a Hq Hb).
    pose proof (bsize_ge j ltac:(lia)).
    destruct (aligned_inside s q b q (bsize j) (bsize k)); try done; try lia. apply bsize_divide; lia. }
  destruct (aligned_inside s b q q (bsize k) (bsize j)); try done; try lia; [apply bsize_divide; lia|].
  exists b, j. destruct a; [apply Hfree in Hb; lia|]. done.
Qed.

(** Conversely a free block is a free place for every order up to its own. *)
Lemma free_block_place b j k :
  B !! b = Some (j, false) → 0 <= k <= j → free_place s e B b k.
Proof.
  intros Hb Hk. destruct (shape_block _ _ _ Hsh _ _ _ Hb) as (Hj & Hbs & Hbal & Hbe).
  pose proof (bsize_mono k j ltac:(lia)). split; [lia|]. split; [done|]. split; [lia|]. split.
  - eapply Z.divide_trans; [apply bsize_divide|exact Hbal]. lia.
  - intros c i Hc. assert (b ≠ c) by (intros ->; congruence).
    destruct (shape_disj _ _ _ Hsh _ _ _ _ _ _ Hb Hc); [done|lia|lia].
Qed.
End cover.

(** Without allocations there is one partition. *)
Lemma maximal_subset s e B B' :
  shape s e B → shape s e B' → maximal s B → maximal s B' →
  (∀ b k, B !! b ≠ Some (k, true)) → (∀ b k, B' !! b ≠ Some (k, true)) →
  ∀ b k, B !! b = Some (k, false) → B' !! b = Some (k, false).
Proof.
  intros Hsh Hsh' HM HM' HA HA' b k Hb.
  assert (∀ C q i, (∀ b k, C !! b ≠ Some (k, true)) → 0 <= i <= MAX_ORDER → s <= q → q + bsize i <= e →
    (bsize i | q - s) → free_place s e C q i) as Hfp.
  { intros C q i HC ????. repeat split; try done; try lia. intros c j Hc. by apply HC in Hc. }
  destruct (shape_block _ _ _ Hsh _ _ _ Hb) as (Hk & Hbs & Hbal & Hbe).
  destruct (free_place_covered s e B' Hsh' HM' b k) as (c & j & Hc & Hkj & Hcb & Hce); [by apply Hfp|].
  destruct (shape_block _ _ _ Hsh' _ _ _ Hc) as (Hj & Hcs & Hcal & Hcee).
  destruct (free_place_covered s e B Hsh HM c j) as (d & i & Hd & Hji & Hdc & Hde); [by apply Hfp|].
  pose proof (bsize_ge k ltac:(lia)).
  destruct (decide (b = d)) as [<-|Hne].
  - simplify_eq. assert (j = k) as -> by lia. assert (c = b) as -> by lia. done.
  - destruct (shape_disj _ _ _ Hsh _ _ _ _ _ _ Hb Hd Hne); lia.
Qed.
