(* ===== verification/BuddyInv.v ===== *)
(** The buddy allocator's invariant and what each of its operations does to it.

    The abstract state of the allocator is [A : gmap Z Z], the live
    allocations: block address to order.  [wf h B D A] ties it to the heap
    [h]: [B] is the partition of the region into blocks (address to order
    and status), with no two free buddies, [D] the blocks in transit, off every free list in the middle
    of a split or a merge.  [buddy_ok h A] is [wf] with nothing in transit. *)

From Stdlib Require Import ZArith Lia Znumtheory.
From stdpp Require Import base list gmap option sets.
From S2P Require Import Prelude Memory DList Buddy BuddyPartition.

(** ** The invariant *)

Definition zstart (h : heap) : Z := memory_start (zone h).
Definition zend (h : heap) : Z := memory_start (zone h) + memory_size (zone h).

Record wf (h : heap) (B : gmap Z (Z * bool)) (D : gset Z) (A : gmap Z Z) : Prop := {
  wf_region : (4096 | zstart h) ∧ 0 < zstart h ∧ zend h < 2 ^ 32 ∧ (4096 | memory_size (zone h));
  wf_shape : shape (zstart h) (zend h) B;
  wf_maximal : maximal (zstart h) B;
  wf_hdr : ∀ b k a, B !! b = Some (k, a) →
    load (hmem h) (b + bb_magic) = BUDDY_MAGIC ∧
    (b ∉ D → load (hmem h) (b + bb_order) = k) ∧
    load8 (hmem h) (b + bb_allocated) = b2z (a && bool_decide (b ∉ D));
  wf_transit : ∀ b, b ∈ D → ∃ k, B !! b = Some (k, true);
  wf_lengths : length (free_lists (zone h)) = 12%nat ∧ length (free_blocks (zone h)) = 12%nat;
  wf_list : ∀ k, 0 <= k <= MAX_ORDER → ∃ l,
    dlist bb_next bb_prev (hmem h) (flist h k) l ∧
    zget 0 (free_blocks (zone h)) k = u32 (Z.of_nat (length l)) ∧
    (∀ b, b ∈ l ↔ B !! b = Some (k, false));
  wf_live : ∀ b k, A !! b = Some k ↔ B !! b = Some (k, true) ∧ b ∉ D;
  wf_count : allocated_blocks (zone h) = u32 (Z.of_nat (size A));
}.

Definition buddy_ok (h : heap) (A : gmap Z Z) : Prop := ∃ B, wf h B ∅ A.

(** The bytes of live allocations that belong to the client. *)
Definition user_area (A : gmap Z Z) (a : Z) : Prop :=
  ∃ b k, A !! b = Some k ∧ b + sizeof_buddy_block <= a < b + bsize k.

(** ** Addresses of header fields *)

Lemma hdr_inj b c o1 o2 :
  (4096 | b) → (4096 | c) → 0 <= o1 < 4096 → 0 <= o2 < 4096 → b + o1 = c + o2 → b = c ∧ o1 = o2.
Proof. intros [i ->] [j ->] ???. assert (i = j) by lia. lia. Qed.

Lemma hdr_ne b c o1 o2 :
  (4096 | b) → (4096 | c) → 0 <= o1 < 4096 → 0 <= o2 < 4096 → b ≠ c ∨ o1 ≠ o2 → b + o1 ≠ c + o2.
Proof. intros ???? H E. destruct (hdr_inj b c o1 o2) as [? ?]; tauto. Qed.

Lemma wf_aligned h B D A b k a : wf h B D A → B !! b = Some (k, a) → (4096 | b).
Proof.
  intros Hwf HB. destruct (wf_region _ _ _ _ Hwf) as (Hs & _).
  destruct (shape_block _ _ _ (wf_shape _ _ _ _ Hwf) _ _ _ HB) as (Hk & _ & Hal & _).
  replace b with (zstart h + (b - zstart h)) by lia.
  apply Z.divide_add_r; [done|]. eapply Z.divide_trans; [|done]. apply page_divide. lia.
Qed.

Lemma user_area_hdr h B D A c j d o :
  wf h B D A → B !! c = Some (j, d) → 0 <= o < sizeof_buddy_block → ¬ user_area A (c + o).
Proof.
  intros Hwf Hc Ho (b & k & Hb & Hr).
  apply (wf_live _ _ _ _ Hwf) in Hb as [Hb _]. unfold sizeof_buddy_block in *.
  destruct (decide (b = c)) as [->|Hne]; [lia|].
  pose proof (shape_block _ _ _ (wf_shape _ _ _ _ Hwf) _ _ _ Hc) as (? & _).
  pose proof (bsize_ge j ltac:(lia)).
  destruct (shape_disj _ _ _ (wf_shape _ _ _ _ Hwf) _ _ _ _ _ _ Hb Hc Hne); lia.
Qed.

Lemma flist_zset h l c k x :
  0 <= k <= MAX_ORDER → length (free_lists (zone h)) = 12%nat →
  l = zset (free_lists (zone h)) k x →
  ∀ j, flist (set_zone h (zone_lists (zone h) l c)) j = if decide (k = j) then x else flist h j.
Proof.
  intros Hk Hlen -> j. unfold flist. simpl. unfold MAX_ORDER in Hk.
  rewrite zget_zset by lia. done.
Qed.

(** The two list operations are the generic ones of [DList]. *)
Lemma add_to_free_list_eq h b k :
  add_to_free_list h b k =
  mk_heap (dl_push bb_next bb_prev (hmem h) (flist h k) b)
    (zone_lists (zone h) (zset (free_lists (zone h)) k b)
       (zset (free_blocks (zone h)) k (u32 (zget 0 (free_blocks (zone h)) k + 1)))).
Proof. unfold add_to_free_list, dl_push. by destruct (flist h k =? 0). Qed.

Lemma remove_from_free_list_eq h b k :
  0 <= k < Z.of_nat (length (free_lists (zone h))) →
  remove_from_free_list h b k =
  mk_heap (fst (dl_remove bb_next bb_prev (hmem h) (flist h k) b))
    (zone_lists (zone h) (zset (free_lists (zone h)) k (snd (dl_remove bb_next bb_prev (hmem h) (flist h k) b)))
       (zset (free_blocks (zone h)) k (u32 (zget 0 (free_blocks (zone h)) k - 1)))).
Proof.
  intros Hk. unfold remove_from_free_list, dl_remove.
  destruct (load (hmem h) (b + bb_prev) =? 0); simpl.
  - by case_if.
  - unfold flist. rewrite zset_id by done.
    destruct (negb (load (store (hmem h) _ _) (b + bb_next) =? 0)); by destruct h as [m []].
Qed.

(** ** Steps *)

Lemma bb_np : bb_next ≠ bb_prev.
Proof. done. Qed.

Lemma link_sep_aligned b c : (4096 | b) → (4096 | c) → link_sep bb_next bb_prev b c.
Proof. intros Hb Hc Hne. unfold bb_next, bb_prev. split; apply hdr_ne; (done || lia || by left). Qed.

(** Only [next] and [prev] fields of aligned blocks differ. *)
Definition links_only (m m' : mem) : Prop :=
  ∀ a, (∀ c, (4096 | c) → a ≠ c + bb_next ∧ a ≠ c + bb_prev) → load m' a = load m a.

Lemma links_only_hdr m m' b o :
  links_only m m' → (4096 | b) → 8 <= o < 4096 → load m' (b + o) = load m (b + o).
Proof.
  intros H Hb Ho. apply H. intros c Hc. unfold bb_next, bb_prev.
  split; apply hdr_ne; (done || lia).
Qed.

Lemma dl_push_links m h b :
  (4096 | b) → (4096 | h) → links_only m (dl_push bb_next bb_prev m h b).
Proof.
  intros Hb Hh a Ha. destruct (Ha b Hb), (Ha h Hh). by apply dl_push_other.
Qed.

(** The clauses of [wf] about headers and lists, for any memory. *)
Definition headers (m : mem) (B : gmap Z (Z * bool)) (D : gset Z) : Prop :=
  ∀ b k a, B !! b = Some (k, a) →
    load m (b + bb_magic) = BUDDY_MAGIC ∧ (b ∉ D → load m (b + bb_order) = k) ∧
    load8 m (b + bb_allocated) = b2z (a && bool_decide (b ∉ D)).

Definition represents (h : heap) (B : gmap Z (Z * bool)) (k : Z) : Prop :=
  ∃ l, dlist bb_next bb_prev (hmem h) (flist h k) l ∧
    zget 0 (free_blocks (zone h)) k = u32 (Z.of_nat (length l)) ∧
    (∀ b, b ∈ l ↔ B !! b = Some (k, false)).

Lemma load8_hdr m b :
  (4096 | b) → load8 m (b + bb_allocated) = Z.land (load m (b + bb_allocated)) 255.
Proof.
  intros Hb. apply load8_word. apply Z.divide_add_r; [|by exists 4].
  eapply Z.divide_trans; [by exists 1024|done].
Qed.

Lemma headers_frame h m' B D A :
  wf h B D A →
  (∀ y i d o, B !! y = Some (i, d) → 8 <= o < sizeof_buddy_block →
     load m' (y + o) = load (hmem h) (y + o)) →
  headers m' B D.
Proof.
  intros Hwf Hm b k a HB. pose proof (wf_aligned _ _ _ _ _ _ _ Hwf HB).
  rewrite load8_hdr, !(Hm _ _ _ _ HB), <- load8_hdr by done. by eapply wf_hdr.
Qed.

Lemma headers_links h m' B D A :
  wf h B D A → links_only (hmem h) m' → headers m' B D.
Proof.
  intros Hwf Hm. apply (headers_frame h _ _ _ A Hwf). intros y i d o Hy Ho.
  apply links_only_hdr; [done|by eapply wf_aligned|]. unfold sizeof_buddy_block in Ho. lia.
Qed.

(** Changing the status of one block. *)
Lemma headers_update m B D D' b k a :
  headers m B D → (∀ c, c ≠ b → c ∈ D' ↔ c ∈ D) →
  load m (b + bb_magic) = BUDDY_MAGIC → (b ∉ D' → load m (b + bb_order) = k) →
  load8 m (b + bb_allocated) = b2z (a && bool_decide (b ∉ D')) →
  headers m (<[b := (k, a)]> B) D'.
Proof.
  intros Hh HD Hm Ho Ha c j d Hc. rewrite lookup_insert in Hc. case_decide as E.
  - by simplify_eq.
  - destruct (Hh _ _ _ Hc) as (? & Ho' & Ha'). pose proof (HD c ltac:(congruence)) as HDc.
    split; [done|]. split; [naive_solver|]. rewrite Ha'. do 2 f_equal.
    apply bool_decide_ext. by rewrite HDc.
Qed.

(** A list is unaffected by writes to the link fields of blocks of other orders. *)
Lemma represents_other h B D A h' B' j :
  wf h B D A → 0 <= j <= MAX_ORDER →
  (∀ a, (∀ c i d, B !! c = Some (i, d) → i ≠ j ∨ d = true → a ≠ c + bb_next ∧ a ≠ c + bb_prev) →
        load (hmem h') a = load (hmem h) a) →
  flist h' j = flist h j → zget 0 (free_blocks (zone h')) j = zget 0 (free_blocks (zone h)) j →
  (∀ b, B' !! b = Some (j, false) ↔ B !! b = Some (j, false)) →
  represents h' B' j.
Proof.
  intros Hwf Hj Hm Hf Hc HB. destruct (wf_list _ _ _ _ Hwf j Hj) as (l & Hd & Hn & Hl).
  exists l. rewrite Hf, Hc. split; [|split; [done|intros b; by rewrite Hl, HB]].
  eapply (dlist_frame _ _ bb_np); [|exact Hd]. intros x Hx%Hl.
  assert (∀ o, o = bb_next ∨ o = bb_prev → load (hmem h') (x + o) = load (hmem h) (x + o)) as E.
  { intros o Ho. apply Hm. intros c i d HBc Hid.
    pose proof (wf_aligned _ _ _ _ _ _ _ Hwf HBc). pose proof (wf_aligned _ _ _ _ _ _ _ Hwf Hx).
    assert (x ≠ c) by (intros ->; simplify_eq; naive_solver).
    unfold bb_next, bb_prev in *. split; apply hdr_ne; (done || lia || by left). }
  split; apply E; auto.
Qed.

(** The live allocations only depend on the status of the blocks not in transit. *)
Definition live (B : gmap Z (Z * bool)) (D : gset Z) (A : gmap Z Z) : Prop :=
  ∀ c j, A !! c = Some j ↔ B !! c = Some (j, true) ∧ c ∉ D.

Lemma live_take B D A b k :
  live B D A → b ∈ D ∨ B !! b = Some (k, false) → live (<[b := (k, true)]> B) ({[b]} ∪ D) A.
Proof.
  intros Hl Hb c j. rewrite (Hl c j), lookup_insert, not_elem_of_union, not_elem_of_singleton.
  case_decide as E; [subst|].
  - split; [|naive_solver]. intros [HB HD]. destruct Hb; simplify_eq; done.
  - naive_solver.
Qed.

Lemma lookup_held (B : gmap Z (Z * bool)) b k c j :
  <[b := (k, true)]> B !! c = Some (j, false) ↔ B !! c = Some (j, false) ∧ c ≠ b.
Proof. rewrite lookup_insert. case_decide; naive_solver. Qed.

Lemma lookup_freed (B : gmap Z (Z * bool)) b k c j :
  <[b := (k, false)]> B !! c = Some (j, false) ↔ B !! c = Some (j, false) ∧ c ≠ b ∨ c = b ∧ j = k.
Proof. rewrite lookup_insert. case_decide; naive_solver. Qed.

(** Taking a free block off its list. *)
Lemma take_effect h B D A b k :
  wf h B D A → B !! b = Some (k, false) →
  ∃ m' l, remove_from_free_list h b k =
      mk_heap m' (zone_lists (zone h) (zset (free_lists (zone h)) k (hd 0 l))
        (zset (free_blocks (zone h)) k (u32 (zget 0 (free_blocks (zone h)) k - 1))))
    ∧ dlist bb_next bb_prev m' (hd 0 l) l
    ∧ (∀ c, c ∈ l ↔ B !! c = Some (k, false) ∧ c ≠ b)
    ∧ zget 0 (free_blocks (zone h)) k = u32 (1 + Z.of_nat (length l))
    ∧ (∀ a, (∀ y, y ∈ l → a ≠ y + bb_next ∧ a ≠ y + bb_prev) → load m' a = load (hmem h) a).
Proof.
  intros Hwf HB. pose proof (shape_block _ _ _ (wf_shape _ _ _ _ Hwf) _ _ _ HB) as (Hk & _).
  destruct (wf_lengths _ _ _ _ Hwf) as [Hl1 Hl2].
  destruct (wf_list _ _ _ _ Hwf k Hk) as (l & Hdl & Hcnt & Hmem).
  apply Hmem, list_elem_of_split in HB as (l1 & l2 & ->).
  destruct (dl_remove_dlist _ _ bb_np _ _ _ _ _ Hdl) as (m' & Erm & Hdl' & Hfr).
  exists m', (l1 ++ l2). rewrite remove_from_free_list_eq, Erm by (unfold MAX_ORDER in *; lia). simpl.
  split; [done|]. split; [done|]. split; [|split; [|done]].
  - intros c. rewrite <- Hmem. destruct Hdl as (_ & _ & Hnd & _).
    apply list.NoDup_app in Hnd as (_ & Hd & Hc). apply list.NoDup_cons in Hc as [Hc _].
    assert (b ∉ l1 ++ l2) by set_solver. set_solver.
  - rewrite Hcnt, !length_app. simpl. f_equal. lia.
Qed.

Lemma take_wf h B D A b k :
  wf h B D A → B !! b = Some (k, false) →
  let h' := remove_from_free_list h b k in
  wf h' (<[b := (k, true)]> B) ({[b]} ∪ D) A ∧ agree_on (user_area A) (hmem h) (hmem h')
  ∧ load (hmem h') (b + bb_order) = k.
Proof.
  intros Hwf HB. pose proof (shape_block _ _ _ (wf_shape _ _ _ _ Hwf) _ _ _ HB) as (Hk & _).
  destruct (wf_lengths _ _ _ _ Hwf) as [Hl1 Hl2]. unfold MAX_ORDER in Hk.
  assert (b ∉ D) as HbD.
  { intros Hin. destruct (wf_transit _ _ _ _ Hwf _ Hin) as [? ?]. simplify_eq. }
  destruct (take_effect h B D A b k Hwf HB) as (m' & l & E & Hdl & Hmem & Hcnt & Hfr).
  cbn zeta. rewrite E.
  assert (links_only (hmem h) m') as Hlinks.
  { intros a Ha. apply Hfr. intros y [Hy _]%Hmem. apply Ha. by eapply wf_aligned. }
  pose proof (headers_links _ _ _ _ _ Hwf Hlinks) as Hhdr.
  destruct (Hhdr _ _ _ HB) as (Hmg & Ho & Ha).
  split; [split; simpl|split].
  - apply (wf_region _ _ _ _ Hwf).
  - exact (shape_flag _ _ _ _ _ _ _ (wf_shape _ _ _ _ Hwf) HB).
  - exact (maximal_held _ _ _ _ (wf_maximal _ _ _ _ Hwf)).
  - apply headers_update with (D := D); [done|set_solver|done|set_solver|].
    rewrite Ha. simpl. by rewrite bool_decide_eq_false_2 by set_solver.
  - intros c [->%elem_of_singleton|Hc]%elem_of_union; [exists k; apply lookup_insert_eq|].
    destruct (wf_transit _ _ _ _ Hwf _ Hc) as [j Hj]. exists j.
    rewrite lookup_insert_ne; [done|]. by intros ->.
  - by rewrite !zset_length.
  - intros j Hj. destruct (decide (k = j)) as [<-|Hne].
    + exists l. unfold flist. simpl. rewrite !zget_zset_eq by lia. split; [done|]. split.
      * rewrite Hcnt. unfold u32. rewrite Zminus_mod_idemp_l. f_equal. lia.
      * intros c. by rewrite Hmem, lookup_held.
    + apply (represents_other h B D A); try done; unfold flist; simpl.
      * intros a Hav. apply Hfr. intros y [Hy _]%Hmem. eapply Hav; [done|by left].
      * by rewrite zget_zset_ne.
      * by rewrite zget_zset_ne.
      * intros c. rewrite lookup_held. split; [tauto|]. intros Hc. split; [done|].
        intros ->. simplify_eq.
  - apply live_take; [|by right]. exact (wf_live _ _ _ _ Hwf).
  - apply (wf_count _ _ _ _ Hwf).
  - intros a Hua. symmetry. apply Hfr. intros y [Hy _]%Hmem.
    split; intros ->; by eapply (user_area_hdr h B D A y k false _ Hwf Hy); [|exact Hua].
  - by apply Ho.
Qed.

Lemma live_put B D A b k :
  live B D A → b ∈ D → B !! b = Some (k, true) → live (<[b := (k, false)]> B) (D ∖ {[b]}) A.
Proof.
  intros Hl Hb HB c j. rewrite (Hl c j), lookup_insert, not_elem_of_difference, elem_of_singleton.
  case_decide as E; [subst|]; [naive_solver|]. naive_solver.
Qed.

(** Pushing a block on a free list writes no user byte. *)
Lemma push_agree h B D A b k x :
  wf h B D A → B !! b = Some x → (flist h k = 0 ∨ B !! flist h k = Some (k, false)) →
  agree_on (user_area A) (hmem h) (dl_push bb_next bb_prev (hmem h) (flist h k) b).
Proof.
  intros Hwf HB Hhead a Hua. symmetry. destruct x as [i0 d0].
  assert (∀ y i d o, B !! y = Some (i, d) → 0 <= o < sizeof_buddy_block → a ≠ y + o) as Hne.
  { intros y i d o Hy Ho ->. by eapply (user_area_hdr h B D A y i d o Hwf Hy). }
  destruct (decide (flist h k = 0)) as [E0|E0].
  { unfold dl_push. rewrite E0. simpl. rewrite !load_store_ne; [done| |]; apply not_eq_sym; by eapply Hne. }
  destruct Hhead as [?|Hhd]; [done|]. apply dl_push_other; by eapply Hne.
Qed.

(** Putting a block in transit on the free list of its order. *)
Lemma put_wf h B D A b k :
  wf h B D A → b ∈ D → B !! b = Some (k, true) → load (hmem h) (b + bb_order) = k →
  (k < MAX_ORDER → ∀ x, is_buddy (zstart h) b x k → B !! x ≠ Some (k, false)) →
  let h' := add_to_free_list h b k in
  wf h' (<[b := (k, false)]> B) (D ∖ {[b]}) A ∧ agree_on (user_area A) (hmem h) (hmem h')
  ∧ (∀ c o, (4096 | c) → 8 <= o < 4096 → load (hmem h') (c + o) = load (hmem h) (c + o)).
Proof.
  intros Hwf HbD HB Hord Hbud.
  pose proof (shape_block _ _ _ (wf_shape _ _ _ _ Hwf) _ _ _ HB) as (Hk & Hbs & _).
  destruct (wf_lengths _ _ _ _ Hwf) as [Hl1 Hl2]. destruct (wf_region _ _ _ _ Hwf) as (_ & Hs0 & _).
  destruct (wf_list _ _ _ _ Hwf k Hk) as (l & Hdl & Hcnt & Hmem).
  pose proof (wf_aligned _ _ _ _ _ _ _ Hwf HB) as Hbal.
  assert (flist h k = 0 ∨ B !! flist h k = Some (k, false)) as Hhead.
  { destruct Hdl as (Hh & _). destruct l as [|y l]; [by left|right]. simpl in Hh. apply Hmem. rewrite Hh. by left. }
  assert (∀ y, y ∈ l → (4096 | y) ∧ y ≠ b) as Hlal.
  { intros y Hy%Hmem. split; [by eapply wf_aligned|]. intros ->. simplify_eq. }
  cbn zeta. rewrite add_to_free_list_eq. unfold MAX_ORDER in Hk.
  assert (links_only (hmem h) (dl_push bb_next bb_prev (hmem h) (flist h k) b)) as Hlinks.
  { apply dl_push_links; [done|]. destruct Hhead as [-> | ?]; [apply Z.divide_0_r|by eapply wf_aligned]. }
  pose proof (headers_links _ _ _ _ _ Hwf Hlinks) as Hhdr.
  destruct (Hhdr _ _ _ HB) as (Hmg & _ & Ha).
  split; [split; simpl|split].
  - apply (wf_region _ _ _ _ Hwf).
  - exact (shape_flag _ _ _ _ _ _ _ (wf_shape _ _ _ _ Hwf) HB).
  - apply maximal_put; [exact (wf_maximal _ _ _ _ Hwf)|lia|exact Hbud].
  - apply headers_update with (D := D); [done|set_solver|done| |].
    + intros _. by rewrite (links_only_hdr _ _ _ _ Hlinks) by done.
    + rewrite Ha. simpl. by rewrite bool_decide_eq_false_2 by auto.
  - intros c [Hc Hcb]%elem_of_difference. destruct (wf_transit _ _ _ _ Hwf _ Hc) as [j Hj].
    exists j. rewrite lookup_insert_ne; [done|]. intros ->. set_solver.
  - by rewrite !zset_length.
  - intros j Hj. destruct (decide (k = j)) as [<-|Hne].
    + exists (b :: l). unfold flist. simpl. rewrite !zget_zset_eq by lia. split; [|split].
      * apply dl_push_dlist; [done|exact Hdl|lia| |].
        -- intros Hin. by apply Hlal in Hin as [_ ?].
        -- intros y Hy. apply link_sep_aligned; [done|by apply Hlal].
      * rewrite Hcnt. simpl. unfold u32. rewrite Zplus_mod_idemp_l. f_equal. lia.
      * intros c. rewrite elem_of_cons, Hmem, lookup_freed. split; [|tauto].
        intros [->|Hc]; [by right|left]. split; [done|]. intros ->. simplify_eq.
    + apply (represents_other h B D A); try done; cbn [hmem].
      * intros a Hav. destruct (Hav _ _ _ HB ltac:(by left)).
        destruct (decide (flist h k = 0)) as [E0|E0].
        { unfold dl_push. rewrite E0. simpl. by rewrite !load_store_ne. }
        destruct Hhead as [?|Hhd]; [done|]. destruct (Hav _ _ _ Hhd ltac:(by left)).
        by apply dl_push_other.
      * unfold flist. simpl. by rewrite zget_zset_ne.
      * simpl. by rewrite zget_zset_ne.
      * intros c. rewrite lookup_freed. split; [naive_solver|]. intros Hc. left. split; [done|].
        intros ->. simplify_eq.
  - apply live_put; [exact (wf_live _ _ _ _ Hwf)|done|done].
  - apply (wf_count _ _ _ _ Hwf).
  - by apply (push_agree h B D A b k (k, true)).
  - intros c o Hc Ho. by apply links_only_hdr.
Qed.

(** Writes that miss the link fields of every free block keep the lists. *)
Lemma represents_mem h B D A m' z' B' j :
  wf h B D A → 0 <= j <= MAX_ORDER →
  (∀ y, B !! y = Some (j, false) → load m' (y + bb_next) = load (hmem h) (y + bb_next)
                                 ∧ load m' (y + bb_prev) = load (hmem h) (y + bb_prev)) →
  free_lists z' = free_lists (zone h) → free_blocks z' = free_blocks (zone h) →
  (∀ y, B' !! y = Some (j, false) ↔ B !! y = Some (j, false)) →
  represents (mk_heap m' z') B' j.
Proof.
  intros Hwf Hj Hm Hf Hc HB. destruct (wf_list _ _ _ _ Hwf j Hj) as (l & Hd & Hn & Hl).
  exists l. unfold flist. simpl. rewrite Hf, Hc. split; [|split; [done|intros b; by rewrite Hl, HB]].
  eapply (dlist_frame _ _ bb_np); [|exact Hd]. intros x Hx%Hl. by apply Hm.
Qed.

(** The fields [init_block] writes. *)
Lemma init_block_effect h c k :
  (4096 | c) →
  let h' := init_block h c k in
  zone h' = zone h ∧ load (hmem h') (c + bb_order) = k ∧ load (hmem h') (c + bb_magic) = BUDDY_MAGIC ∧
  load8 (hmem h') (c + bb_allocated) = 0 ∧
  (∀ a, (∀ o, 0 <= o < sizeof_buddy_block → a ≠ c + o) → load (hmem h') a = load (hmem h) a).
Proof.
  intros Hc h'. unfold h', init_block, hstore, hstore8. simpl.
  assert (4 | c + bb_allocated) as H4.
  { apply Z.divide_add_r; [|by exists 4]. eapply Z.divide_trans; [by exists 1024|done]. }
  split; [done|]. split; [|split; [|split]].
  - rewrite store8_word by (done || unfold bb_allocated, bb_order; lia).
    rewrite load_store_ne by (unfold bb_magic, bb_order; lia). apply load_store_eq.
  - rewrite store8_word by (done || unfold bb_allocated, bb_magic; lia). apply load_store_eq.
  - by rewrite load8_store8_eq.
  - intros a Ha. unfold sizeof_buddy_block in Ha.
    rewrite store8_word by (done || apply not_eq_sym, Ha; done).
    rewrite !load_store_ne; [done| | | |]; apply not_eq_sym, Ha; done.
Qed.

Lemma live_carve B D A b c k j :
  live B D A → b ∈ D → B !! c = None → b ≠ c →
  live (<[c := (k, true)]> (<[b := (j, true)]> B)) ({[c]} ∪ D) A.
Proof.
  intros Hl Hb Hc Hbc x i.
  rewrite (Hl x i), !lookup_insert, not_elem_of_union, not_elem_of_singleton.
  repeat case_decide; subst; naive_solver.
Qed.

(** Carving the upper half of a block in transit. *)
Lemma carve_wf h B D A b k :
  wf h B D A → b ∈ D → 0 <= k → B !! b = Some (k + 1, true) →
  let c := b + bsize k in
  let h' := init_block h c k in
  wf h' (<[c := (k, true)]> (<[b := (k, true)]> B)) ({[c]} ∪ D) A
  ∧ agree_on (user_area A) (hmem h) (hmem h') ∧ load (hmem h') (c + bb_order) = k ∧ B !! c = None.
Proof.
  intros Hwf HbD Hk HB. set (c := b + bsize k). cbn zeta.
  pose proof (bsize_ge k Hk). pose proof (bsize_succ k Hk).
  pose proof (wf_aligned _ _ _ _ _ _ _ Hwf HB) as Hbal.
  assert (4096 | c) as Hcal by (apply Z.divide_add_r; [done|by apply page_divide]).
  assert (∀ y i d, B !! y = Some (i, d) → y ≠ c) as Hnc.
  { intros y i d Hy ->. pose proof (shape_block _ _ _ (wf_shape _ _ _ _ Hwf) _ _ _ Hy) as (? & _).
    pose proof (bsize_ge i ltac:(lia)).
    destruct (shape_disj _ _ _ (wf_shape _ _ _ _ Hwf) _ _ _ _ _ _ HB Hy); lia. }
  assert (B !! c = None) as Hc.
  { destruct (B !! c) as [[i d]|] eqn:E; [|done]. by apply Hnc in E. }
  destruct (init_block_effect h c k Hcal) as (Hz & Ho & Hmg & Ha & Hfr).
  assert (∀ y o, (4096 | y) → y ≠ c → 0 <= o < 4096 →
            load (hmem (init_block h c k)) (y + o) = load (hmem h) (y + o)) as Hfr'.
  { intros y o Hy Hyc Ho'. apply Hfr. intros o2 Ho2. apply hdr_ne; (done || unfold sizeof_buddy_block in *; lia || by left). }
  split; [split|split; [|done]]; unfold zstart, zend; rewrite ?Hz.
  - apply (wf_region _ _ _ _ Hwf).
  - eapply shape_split; [by apply (wf_shape _ _ _ _ Hwf)|done|done].
  - apply maximal_held, maximal_held, (wf_maximal _ _ _ _ Hwf).
  - assert (headers (hmem (init_block h c k)) B D) as Hh.
    { apply (headers_frame h _ _ _ A Hwf). intros y i d o Hy Ho'. unfold sizeof_buddy_block in Ho'.
      apply Hfr'; [by eapply wf_aligned|by eapply Hnc|lia]. }
    destruct (Hh _ _ _ HB) as (Hm1 & _ & Ha1).
    apply headers_update with (D := D); [|set_solver|done|done|].
    + apply headers_update with (D := D); [done|done|done|done|by rewrite Ha1].
    + rewrite Ha, bool_decide_eq_false_2 by set_solver. done.
  - intros y [->%elem_of_singleton|Hy]%elem_of_union; [exists k; apply lookup_insert_eq|].
    destruct (wf_transit _ _ _ _ Hwf _ Hy) as [i Hi]. rewrite lookup_insert_ne by (apply not_eq_sym; by eapply Hnc).
    rewrite lookup_insert. case_decide; eauto.
  - apply (wf_lengths _ _ _ _ Hwf).
  - intros j Hj. destruct (init_block h c k) as [m' z'] eqn:E. simpl in *. subst z'.
    apply (represents_mem h B D A); try done.
    + intros y Hy. pose proof (wf_aligned _ _ _ _ _ _ _ Hwf Hy). pose proof (Hnc _ _ _ Hy).
      rewrite !Hfr' by (done || unfold bb_next, bb_prev; lia). done.
    + intros y. rewrite !lookup_held. split; [tauto|]. intros Hy. split; [split|]; [done| |].
      * intros ->. simplify_eq.
      * by eapply Hnc.
  - apply live_carve; [exact (wf_live _ _ _ _ Hwf)|done|done|lia].
  - apply (wf_count _ _ _ _ Hwf).
  - intros a (x & i & Hx & Hr). symmetry. apply Hfr. intros o Ho' ->.
    apply (wf_live _ _ _ _ Hwf) in Hx as [Hx HxD].
    assert (x ≠ b) by (intros ->; done). unfold sizeof_buddy_block in *. subst c.
    pose proof (bsize_ge i ltac:(pose proof (shape_block _ _ _ (wf_shape _ _ _ _ Hwf) _ _ _ Hx); lia)).
    destruct (shape_disj _ _ _ (wf_shape _ _ _ _ Hwf) _ _ _ _ _ _ Hx HB); [done|lia|lia].
Qed.

Lemma live_merge B D A lo hi k :
  live B D A → lo ∈ D → hi ∈ D → lo ≠ hi →
  live (<[lo := (k, true)]> (delete hi B)) (D ∖ {[hi]}) A.
Proof.
  intros Hl Hlo Hhi Hne x i.
  rewrite (Hl x i), lookup_insert, lookup_delete, not_elem_of_difference, elem_of_singleton.
  repeat case_decide; subst; naive_solver.
Qed.

Lemma headers_merge m B D lo hi k j :
  headers m B D → lo ∈ D → lo ≠ hi → B !! lo = Some (j, true) →
  headers m (<[lo := (k, true)]> (delete hi B)) (D ∖ {[hi]}).
Proof.
  intros Hh Hlo Hne HB y i d.
  assert (lo ∈ D ∖ {[hi]}) as Hlo' by set_solver.
  destruct (decide (lo = y)) as [<-|Hy1]; [rewrite lookup_insert_eq|rewrite lookup_insert_ne by done].
  - intros [= <- <-]. destruct (Hh _ _ _ HB) as (Hm & _ & Ha).
    split; [done|split; [done|]]. rewrite Ha. by rewrite !bool_decide_eq_false_2 by auto.
  - intros [Hy2 Hy]%lookup_delete_Some. destruct (Hh _ _ _ Hy) as (Hm & Ho & Ha).
    assert (y ∈ D ∖ {[hi]} ↔ y ∈ D) as E by set_solver.
    split; [done|split; [by rewrite E|]]. rewrite Ha. do 2 f_equal. apply bool_decide_ext. by rewrite E.
Qed.

(** Two buddies in transit become one block of the next order. *)
Lemma merge_wf h B D A lo k :
  wf h B D A → k < MAX_ORDER → lo ∈ D → lo + bsize k ∈ D →
  B !! lo = Some (k, true) → B !! (lo + bsize k) = Some (k, true) →
  (bsize (k + 1) | lo - zstart h) →
  wf h (<[lo := (k + 1, true)]> (delete (lo + bsize k) B)) (D ∖ {[lo + bsize k]}) A.
Proof.
  intros Hwf HM Hlo Hhi HB1 HB2 Hal.
  pose proof (shape_block _ _ _ (wf_shape _ _ _ _ Hwf) _ _ _ HB1) as (Hk & _).
  pose proof (bsize_ge k ltac:(lia)). set (hi := lo + bsize k) in *.
  assert (lo ≠ hi) as Hne by lia.
  split.
  - apply (wf_region _ _ _ _ Hwf).
  - eapply shape_merge; [by apply (wf_shape _ _ _ _ Hwf)|done|done|done|done].
  - apply maximal_held. apply (maximal_fewer _ _ _ (wf_maximal _ _ _ _ Hwf)).
    by intros y j [_ ?]%lookup_delete_Some.
  - eapply headers_merge; [exact (wf_hdr _ _ _ _ Hwf)|done|done|done].
  - intros y [Hy Hyh]%elem_of_difference. rewrite elem_of_singleton in Hyh.
    destruct (wf_transit _ _ _ _ Hwf _ Hy) as [i Hi].
    rewrite lookup_insert, lookup_delete. repeat case_decide; subst; eauto. done.
  - apply (wf_lengths _ _ _ _ Hwf).
  - intros j Hj. destruct h as [m z]. apply (represents_mem (mk_heap m z) B D A); try done.
    intros y. rewrite lookup_held, lookup_delete. case_decide; subst.
    + split; [naive_solver|]. intros E. by rewrite E in HB2.
    + split; [tauto|]. intros Hy. split; [done|]. intros ->. by rewrite Hy in HB1.
  - apply live_merge; [exact (wf_live _ _ _ _ Hwf)|done|done|done].
  - apply (wf_count _ _ _ _ Hwf).
Qed.

(** Writing the order of a block in transit. *)
Lemma store_order_wf h B D A b k v :
  wf h B D A → b ∈ D → B !! b = Some (k, true) →
  let h' := hstore h (b + bb_order) v in
  wf h' B D A ∧ agree_on (user_area A) (hmem h) (hmem h') ∧ load (hmem h') (b + bb_order) = v.
Proof.
  intros Hwf HbD HB h'. pose proof (wf_aligned _ _ _ _ _ _ _ Hwf HB) as Hbal.
  assert (∀ y i d o, B !! y = Some (i, d) → 0 <= o < 4096 → y ≠ b ∨ o ≠ bb_order →
            load (hmem h') (y + o) = load (hmem h) (y + o)) as Hfr.
  { intros y i d o Hy Ho Hne. unfold h'. simpl. apply load_store_ne.
    pose proof (wf_aligned _ _ _ _ _ _ _ Hwf Hy). apply hdr_ne; [done|done|unfold bb_order; lia|done|naive_solver]. }
  split; [split|split; [|apply load_store_eq]]; try apply Hwf.
  - intros y i d Hy. destruct (wf_hdr _ _ _ _ Hwf _ _ _ Hy) as (Hm & Ho & Ha).
    pose proof (wf_aligned _ _ _ _ _ _ _ Hwf Hy).
    rewrite load8_hdr, (Hfr _ _ _ bb_magic Hy), (Hfr _ _ _ bb_allocated Hy), <- load8_hdr
      by (done || (by right)).
    split; [done|split; [|done]]. intros HyD. rewrite (Hfr _ _ _ _ Hy); [by apply Ho|done|].
    left. by intros ->.
  - intros j Hj. destruct h as [m z]. apply (represents_mem (mk_heap m z) B D A); try done.
    intros y Hy. split; apply (Hfr _ _ _ _ Hy); (done || by right).
  - apply agree_on_store. apply (user_area_hdr h B D A b k true); done.
Qed.

(** Setting or clearing the [allocated] byte of [b]. *)
Lemma allocated_mem h B D A b k v D' :
  wf h B D A → B !! b = Some (k, true) → (∀ c, c ≠ b → c ∈ D' ↔ c ∈ D) →
  v = b2z (bool_decide (b ∉ D')) → (b ∉ D' → load (hmem h) (b + bb_order) = k) →
  let m' := store8 (hmem h) (b + bb_allocated) v in
  headers m' B D' ∧ (∀ j, 0 <= j <= MAX_ORDER → ∀ z', free_lists z' = free_lists (zone h) →
    free_blocks z' = free_blocks (zone h) → represents (mk_heap m' z') B j)
  ∧ agree_on (user_area A) (hmem h) m'.
Proof.
  intros Hwf HB HD Hv Hord m'. pose proof (wf_aligned _ _ _ _ _ _ _ Hwf HB) as Hbal.
  assert (4 | b + bb_allocated) as H4.
  { apply Z.divide_add_r; [|by exists 4]. eapply Z.divide_trans; [by exists 1024|done]. }
  assert (∀ y i d o, B !! y = Some (i, d) → 0 <= o < 4096 → y ≠ b ∨ o ≠ bb_allocated →
            load m' (y + o) = load (hmem h) (y + o)) as Hfr.
  { intros y i d o Hy Ho Hne. apply store8_word; [done|].
    pose proof (wf_aligned _ _ _ _ _ _ _ Hwf Hy). apply hdr_ne; try done. naive_solver. }
  split; [|split].
  - assert (<[b := (k, true)]> B = B) as <- by by apply insert_id.
    assert (headers m' (delete b B) D') as Hh.
    { intros y i d [Hyb Hy]%lookup_delete_Some. destruct (wf_hdr _ _ _ _ Hwf _ _ _ Hy) as (Hm & Ho & Ha).
      pose proof (wf_aligned _ _ _ _ _ _ _ Hwf Hy). pose proof (HD y ltac:(done)) as E.
      rewrite load8_hdr, !(Hfr _ _ _ _ Hy), <- load8_hdr by (done || by left).
      split; [done|split; [naive_solver|]]. rewrite Ha. do 2 f_equal. apply bool_decide_ext. by rewrite E. }
    rewrite <- insert_delete_eq. apply headers_update with (D := D'); [done|done| | |].
    + rewrite (Hfr _ _ _ _ HB) by (done || by right). by eapply wf_hdr.
    + rewrite (Hfr _ _ _ _ HB) by (done || by right). done.
    + unfold m'. rewrite load8_store8_eq, Hv. simpl. by case_bool_decide.
  - intros j Hj z' Hz1 Hz2. apply (represents_mem h B D A); try done.
    intros y Hy. split; apply (Hfr _ _ _ _ Hy); (done || by right).
  - intros a Ha. symmetry. apply store8_word; [done|]. intros <-.
    by apply (user_area_hdr h B D A b k true bb_allocated Hwf HB).
Qed.

Lemma live_mark B D A b k :
  live B D A → b ∈ D → B !! b = Some (k, true) → live B (D ∖ {[b]}) (<[b := k]> A).
Proof.
  intros Hl Hb HB c j. rewrite lookup_insert, not_elem_of_difference, elem_of_singleton.
  case_decide; subst; [naive_solver|]. rewrite (Hl c j). naive_solver.
Qed.

Lemma live_unmark B D A b :
  live B D A → live B ({[b]} ∪ D) (delete b A).
Proof.
  intros Hl c j. rewrite lookup_delete_Some, not_elem_of_union, not_elem_of_singleton, (Hl c j).
  naive_solver.
Qed.

(** Handing a block in transit to the client. *)
Lemma mark_wf h B D A b k :
  wf h B D A → b ∈ D → B !! b = Some (k, true) → load (hmem h) (b + bb_order) = k →
  let h1 := hstore8 h (b + bb_allocated) 1 in
  let h' := set_zone h1 (zone_allocated (zone h1) (u32 (allocated_blocks (zone h1) + 1))) in
  wf h' B (D ∖ {[b]}) (<[b := k]> A) ∧ agree_on (user_area A) (hmem h) (hmem h') ∧ A !! b = None.
Proof.
  intros Hwf HbD HB Hord. cbn zeta.
  assert (A !! b = None) as HA.
  { destruct (A !! b) eqn:E; [|done]. by apply (wf_live _ _ _ _ Hwf) in E as [_ ?]. }
  destruct (allocated_mem h B D A b k 1 (D ∖ {[b]}) Hwf HB) as (Hh & Hr & Hag);
    [set_solver|by rewrite bool_decide_eq_true_2 by set_solver|done|].
  split; [split|done]; try apply Hwf.
  - exact Hh.
  - intros c [Hc _]%elem_of_difference. by apply (wf_transit _ _ _ _ Hwf).
  - intros j Hj. by apply Hr.
  - apply live_mark; [exact (wf_live _ _ _ _ Hwf)|done|done].
  - simpl. rewrite (wf_count _ _ _ _ Hwf), map_size_insert_None by done.
    unfold u32. rewrite Zplus_mod_idemp_l. f_equal. lia.
Qed.

(** Taking a block back from the client. *)
Lemma unmark_wf h B D A b k :
  wf h B D A → A !! b = Some k →
  let h1 := hstore8 h (b + bb_allocated) 0 in
  let h' := set_zone h1 (zone_allocated (zone h1) (u32 (allocated_blocks (zone h1) - 1))) in
  wf h' B ({[b]} ∪ D) (delete b A) ∧ agree_on (user_area A) (hmem h) (hmem h')
  ∧ load (hmem h') (b + bb_order) = k.
Proof.
  intros Hwf HA. cbn zeta. destruct (proj1 (wf_live _ _ _ _ Hwf b k) HA) as [HB HbD].
  destruct (wf_hdr _ _ _ _ Hwf _ _ _ HB) as (_ & Ho & _).
  pose proof (wf_aligned _ _ _ _ _ _ _ Hwf HB) as Hbal.
  destruct (allocated_mem h B D A b k 0 ({[b]} ∪ D) Hwf HB) as (Hh & Hr & Hag);
    [set_solver|by rewrite bool_decide_eq_false_2 by set_solver|set_solver|].
  split; [split|split; [done|]]; try apply Hwf.
  - exact Hh.
  - intros c [->%elem_of_singleton|Hc]%elem_of_union; [by exists k|]. by apply (wf_transit _ _ _ _ Hwf).
  - intros j Hj. by apply Hr.
  - apply live_unmark. exact (wf_live _ _ _ _ Hwf).
  - simpl. rewrite (wf_count _ _ _ _ Hwf), map_size_delete_Some by (by rewrite HA).
    assert (size A ≠ 0%nat) by (apply map_size_ne_0_lookup; by exists b; rewrite HA).
    unfold u32. rewrite Zminus_mod_idemp_l. f_equal. lia.
  - simpl. rewrite store8_word; [by apply Ho| |unfold bb_allocated, bb_order; lia].
    apply Z.divide_add_r; [|by exists 4]. eapply Z.divide_trans; [by exists 1024|done].
Qed.
