(* ===== verification/BuddySpec.v ===== *)
(** The buddy allocator's contract: initialisation establishes the invariant,
    [alloc] returns a fresh, aligned, disjoint block and leaves the client's
    bytes alone, [free] gives the block back and merges it with its buddies,
    and pointers that are no live allocation are refused. *)

From Stdlib Require Import ZArith Lia.
From stdpp Require Import base list gmap option sets.
From S2P Require Import Prelude Memory DList Buddy BuddyPartition BuddyInv.

(** ** What every operation keeps *)

(** [h'] comes from [h] by operations that keep the region and the live
    allocations' bytes. *)
Definition heap_step (A : gmap Z Z) (h h' : heap) : Prop :=
  zstart h' = zstart h ∧ zend h' = zend h ∧ agree_on (user_area A) (hmem h) (hmem h').

#[export] Instance heap_step_preorder A : PreOrder (heap_step A).
Proof.
  split.
  - intros h. by repeat split.
  - intros h1 h2 h3 (E1 & E2 & E3) (F1 & F2 & F3).
    split; [congruence|split; [congruence|by transitivity (hmem h2)]].
Qed.

(** One block of order [k] is out of every list and in nobody's hands. *)
Definition holds (h : heap) (b k : Z) (A : gmap Z Z) : Prop :=
  ∃ B, wf h B {[b]} A ∧ B !! b = Some (k, true) ∧ load (hmem h) (b + bb_order) = k.

(** ... and no buddy of it is free, so it can go on its free list. *)
Definition settled (h : heap) (b k : Z) (A : gmap Z Z) : Prop :=
  ∃ B, wf h B {[b]} A ∧ B !! b = Some (k, true) ∧ load (hmem h) (b + bb_order) = k ∧
    (k < MAX_ORDER → ∀ x, is_buddy (zstart h) b x k → B !! x ≠ Some (k, false)).

Lemma holds_order h b k A : holds h b k A → 0 <= k <= MAX_ORDER.
Proof. intros (B & Hwf & HB & _). by eapply shape_block; [apply (wf_shape _ _ _ _ Hwf)|]. Qed.

Lemma take_holds h B A b k :
  wf h B ∅ A → B !! b = Some (k, false) →
  holds (remove_from_free_list h b k) b k A ∧ heap_step A h (remove_from_free_list h b k).
Proof.
  intros Hwf HB. destruct (take_wf _ _ _ _ _ _ Hwf HB) as (Hwf' & Hag & Ho).
  pose proof (shape_block _ _ _ (wf_shape _ _ _ _ Hwf) _ _ _ HB) as (Hk & _).
  destruct (wf_lengths _ _ _ _ Hwf) as [Hl _]. unfold MAX_ORDER in Hk.
  split.
  - exists (<[b := (k, true)]> B). rewrite (right_id_L ∅ (∪)) in Hwf'.
    split; [done|split; [apply lookup_insert_eq|]]. done.
  - split; [|split; [|done]]; unfold zstart, zend; by rewrite remove_from_free_list_eq by lia.
Qed.

(** The [allocated] bytes: splitting and merging never touch those of other
    blocks, and merging touches none at all. *)
Definition flags_kept (m m' : mem) : Prop :=
  ∀ c, (4096 | c) → load8 m' (c + bb_allocated) = load8 m (c + bb_allocated).

#[export] Instance flags_kept_preorder : PreOrder flags_kept.
Proof.
  split; [by intros m c|]. intros m1 m2 m3 H1 H2 c Hc. by rewrite H2, H1.
Qed.

Lemma flags_kept_words m m' :
  (∀ c, (4096 | c) → load m' (c + bb_allocated) = load m (c + bb_allocated)) → flags_kept m m'.
Proof. intros H c Hc. by rewrite !load8_hdr, H. Qed.

Lemma take_flags h B D A b k :
  wf h B D A → B !! b = Some (k, false) → flags_kept (hmem h) (hmem (remove_from_free_list h b k)).
Proof.
  intros Hwf HB. destruct (take_effect _ _ _ _ _ _ Hwf HB) as (m' & l & -> & _ & Hl & _ & Hm).
  apply flags_kept_words. intros c Hc. apply Hm. intros y [Hy _]%Hl.
  apply (wf_aligned _ _ _ _ _ _ _ Hwf) in Hy. unfold bb_allocated, bb_next, bb_prev.
  split; apply hdr_ne; (done || lia).
Qed.

Lemma store_order_flags m b v : (4096 | b) → flags_kept m (store m (b + bb_order) v).
Proof.
  intros Hb. apply flags_kept_words. intros c Hc. apply load_store_ne.
  unfold bb_order, bb_allocated. apply hdr_ne; (done || lia).
Qed.

Lemma put_holds h b k A :
  settled h b k A →
  buddy_ok (add_to_free_list h b k) A ∧ heap_step A h (add_to_free_list h b k)
  ∧ flags_kept (hmem h) (hmem (add_to_free_list h b k)).
Proof.
  intros (B & Hwf & HB & Ho & Hbud).
  destruct (put_wf h B {[b]} A b k Hwf ltac:(set_solver) HB Ho Hbud) as (Hwf' & Hag & Hfl).
  rewrite difference_diag_L in Hwf'. split; [by eexists|].
  split; [|by apply flags_kept_words; intros c Hc; apply Hfl].
  split; [|split; [|done]]; unfold zstart, zend; by rewrite add_to_free_list_eq.
Qed.

(** ** Splitting *)

Definition split_step (block : Z) : Z * heap → Z * heap :=
  fun '(order, h) =>
    let order := order - 1 in
    let buddy := block + block_size order in
    let h := init_block h buddy order in
    let h := add_to_free_list h buddy order in
    (order, hstore h (block + bb_order) order).

(** The only buddy of the upper half is the lower half, which is in transit. *)
Lemma upper_half_settled s e B b k j :
  shape s e B → 0 <= k → B !! b = Some (k + 1, true) →
  let c := b + bsize k in
  ∀ x, is_buddy s c x k → <[c := (j, true)]> (<[b := (j, true)]> B) !! x ≠ Some (k, false).
Proof.
  intros Hsh Hk HB c x Hx. destruct (shape_block _ _ _ Hsh _ _ _ HB) as (_ & _ & Hal & _).
  assert (x = b) as ->.
  { apply (is_buddy_unique s c x b k Hk Hx). right. split; done. }
  rewrite lookup_held. pose proof (bsize_ge k Hk). subst c. 
  intros [E _]. by rewrite lookup_insert_eq in E.
Qed.

Lemma split_step_holds h b k A :
  holds h b (k + 1) A → 0 <= k →
  holds (snd (split_step b (k + 1, h))) b k A ∧ heap_step A h (snd (split_step b (k + 1, h))).
Proof.
  intros Hh Hk. pose proof (holds_order _ _ _ _ Hh) as Hk1. unfold MAX_ORDER in Hk1.
  destruct Hh as (B & Hwf & HB & _). unfold split_step. simpl.
  replace (k + 1 - 1) with k by lia. rewrite block_size_bsize by lia.
  destruct (carve_wf h B {[b]} A b k Hwf ltac:(set_solver) Hk HB) as (Hwf1 & Hag1 & Ho1 & HBc).
  set (c := b + bsize k) in *. set (h1 := init_block h c k) in *.
  assert (c ≠ b) by (intros E; rewrite E in HBc; congruence).
  destruct (put_wf h1 _ _ A c k Hwf1) as (Hwf2 & Hag2 & _);
    [set_solver|apply lookup_insert_eq|done| |].
  { intros _. replace (zstart h1) with (zstart h) by (unfold zstart, h1, init_block; done).
    exact (upper_half_settled _ _ _ _ _ k (wf_shape _ _ _ _ Hwf) Hk HB). }
  set (h2 := add_to_free_list h1 c k) in *.
  rewrite insert_insert_eq in Hwf2.
  replace (({[c]} ∪ {[b]}) ∖ {[c]} : gset Z) with ({[b]} : gset Z) in Hwf2 by set_solver.
  destruct (store_order_wf h2 _ _ A b k k Hwf2) as (Hwf3 & Hag3 & Ho3);
    [set_solver|rewrite lookup_insert_ne by done; apply lookup_insert_eq|].
  split.
  - eexists. split; [exact Hwf3|]. split; [|done].
    rewrite lookup_insert_ne by done. apply lookup_insert_eq.
  - split; [|split]; [unfold h2, zstart, zend; by rewrite add_to_free_list_eq..|].
    transitivity (hmem h1); [done|]. by transitivity (hmem h2).
Qed.

Lemma split_block_holds h b k t A :
  holds h b k A → 0 <= t <= k →
  ∃ h', split_block h b k t = Done h' ∧ holds h' b t A ∧ heap_step A h h'.
Proof.
  intros Hh Ht. pose proof (holds_order _ _ _ _ Hh) as Hk. unfold MAX_ORDER in Hk.
  destruct (while_total (fun '(o, h') => t <= o <= 11 ∧ holds h' b o A ∧ heap_step A h h')
    (fun '(o, _) => Z.to_nat o) (fun '(o, _) => t <? o) (split_step b)) with (fuel := 13%nat) (s := (k, h))
    as ([o h'] & Hr & (Ho & Hh' & Hst) & Hc).
  - intros [o h'] (Ho & Hh' & Hst) Hlt. zify_bool.
    replace o with (o - 1 + 1) in Hh' by lia.
    destruct (split_step_holds _ _ _ _ Hh') as [Hs1 Hs2]; [lia|].
    unfold split_step in *. replace (o - 1 + 1) with o in * by lia.
    split; [split; [simpl; lia|split; [done|by etransitivity]]|simpl; lia].
  - split; [lia|split; [done|reflexivity]].
  - lia.
  - zify_bool. assert (o = t) as -> by lia. exists h'.
    unfold split_block, split_step in *. rewrite Hr. done.
Qed.

(** ** Finding and merging buddies *)

Lemma lxor_1 i : 0 <= i → Z.lxor i 1 = if Z.even i then i + 1 else i - 1.
Proof. intros Hi. by destruct i as [|[p|p|]|p]. Qed.

Lemma buddy_address s b k :
  0 <= k <= MAX_ORDER → s <= b → (bsize k | b - s) → b - s + bsize k < 2 ^ 32 →
  is_buddy s b (s + u32 (Z.lxor ((b - s) / block_size k) 1 * block_size k)) k.
Proof.
  intros Hk Hs [i Hi] Hmax. unfold MAX_ORDER in Hk.
  pose proof (bsize_ge k ltac:(lia)). rewrite block_size_bsize by lia.
  rewrite Hi, Z.div_mul by lia. assert (0 <= i) by nia. rewrite lxor_1 by done.
  unfold is_buddy. rewrite (bsize_succ k) by lia.
  destruct (Z.even i) eqn:E.
  - apply Z.even_spec in E as [j ->]. left. rewrite u32_small by lia.
    split; [lia|]. rewrite Hi. exists j. lia.
  - assert (∃ j, i = 2 * j + 1) as [j ->].
    { apply Z.odd_spec. rewrite <- Z.negb_even, E. done. }
    right. assert (0 <= j) by lia. rewrite u32_small by nia. split; [lia|]. exists j. lia.
Qed.

(** [find_buddy] returns the buddy exactly when it is a free block of the same order. *)
Lemma find_buddy_free h B A b k x :
  wf h B {[b]} A → B !! b = Some (k, true) → is_buddy (zstart h) b x k → B !! x = Some (k, false) →
  find_buddy h b k = x ∧ x ≠ 0.
Proof.
  intros Hwf HB Hbud Hx. destruct (shape_block _ _ _ (wf_shape _ _ _ _ Hwf) _ _ _ HB) as (Hk & Hs & Hal & He).
  destruct (wf_region _ _ _ _ Hwf) as (_ & Hs0 & Hend & _).
  destruct (shape_block _ _ _ (wf_shape _ _ _ _ Hwf) _ _ _ Hx) as (_ & Hxs & _ & Hxe).
  destruct (wf_hdr _ _ _ _ Hwf _ _ _ Hx) as (Hm & Ho & Ha). pose proof (bsize_ge k ltac:(lia)).
  specialize (Ho ltac:(apply not_elem_of_singleton; intros ->; congruence)).
  unfold find_buddy. fold (zstart h) (zend h).
  pose proof (buddy_address (zstart h) b k Hk Hs Hal ltac:(lia)) as Hbud'.
  rewrite (is_buddy_unique _ _ _ _ _ (proj1 Hk) Hbud' Hbud).
  change (zstart h + memory_size (zone h)) with (zend h). rewrite !u32_small by lia.
  rewrite (proj2 (Z.leb_gt (zend h) x)), Hm, Ha, Ho, !Z.eqb_refl by lia. split; [done|lia].
Qed.

Lemma find_buddy_spec h B A b k :
  wf h B {[b]} A → B !! b = Some (k, true) →
  find_buddy h b k = 0 ∧ (∀ x, is_buddy (zstart h) b x k → B !! x ≠ Some (k, false)) ∨
  B !! find_buddy h b k = Some (k, false) ∧ is_buddy (zstart h) b (find_buddy h b k) k.
Proof.
  intros Hwf HB. destruct (shape_block _ _ _ (wf_shape _ _ _ _ Hwf) _ _ _ HB) as (Hk & Hs & Hal & He).
  destruct (wf_region _ _ _ _ Hwf) as (_ & Hs0 & Hend & _).
  destruct (decide (find_buddy h b k = 0)) as [E|E].
  { left. split; [done|]. intros x Hbud Hx. by destruct (find_buddy_free _ _ _ _ _ _ Hwf HB Hbud Hx); simplify_eq. }
  right. revert E. unfold find_buddy. pose proof (buddy_address (zstart h) b k Hk Hs Hal) as Hbud.
  fold (zstart h) in *. specialize (Hbud ltac:(lia)).
  change (zstart h + memory_size (zone h)) with (zend h).
  set (x := zstart h + u32 _) in *.
  assert (x <= zend h) as Hxe by (pose proof (bsize_ge k ltac:(lia)); destruct Hbud as [[? _]|[? _]]; lia).
  assert (0 < x) as Hx0.
  { unfold x. pose proof (u32_range (Z.lxor ((b - zstart h) / block_size k) 1 * block_size k)). lia. }
  rewrite !(u32_small x), (u32_small (zend h)) by lia.
  case_if; [done|]. case_if; [|done]. zify_bool. intros _.
  pose proof (bsize_ge k ltac:(lia)). pose proof (bsize_succ k ltac:(lia)).
  destruct (shape_buddy _ _ _ _ _ _ x (wf_shape _ _ _ _ Hwf) HB) as (j & d & Hx & Hj).
  - destruct Hbud as [[-> [i Hi]]|[E _]]; [|destruct Hal as [i Hi]; exists (i - 1); lia].
    exists (2 * i + 1). lia.
  - unfold x in *. pose proof (u32_range (Z.lxor ((b - zstart h) / block_size k) 1 * block_size k)). lia.
  - destruct Hbud as [[? ?]|[? ?]]; [left; done|right; split; [lia|done]].
  - assert (x ≠ b) by (destruct Hbud as [[? _]|[? _]]; lia).
    destruct (wf_hdr _ _ _ _ Hwf _ _ _ Hx) as (_ & Hxo & Hxa).
    rewrite Hxo in * by set_solver. subst j. rewrite Hxa in *.
    destruct d; [|done]. rewrite bool_decide_eq_true_2 in * by set_solver. done.
Qed.

Lemma held_pair (x b lo hi : Z) :
  x ≠ b → lo = x ∧ hi = b ∨ lo = b ∧ hi = x →
  lo ∈ ({[x]} ∪ {[b]} : gset Z) ∧ hi ∈ ({[x]} ∪ {[b]} : gset Z)
  ∧ ({[x]} ∪ {[b]}) ∖ {[hi]} = ({[lo]} : gset Z).
Proof. intros Hne [[-> ->]|[-> ->]]; set_solver. Qed.

Definition coalesce_step : heap * Z * Z → outcome (heap * Z * Z + heap * Z * Z) :=
  fun '(h, block, order) =>
    if negb (order <? MAX_ORDER) then Done (inr (h, block, order))
    else
      let buddy := find_buddy h block order in
      if buddy =? 0 then Done (inr (h, block, order))
      else
        let h := remove_from_free_list h buddy order in
        let block := if buddy <? block then buddy else block in
        let order := order + 1 in
        Done (inl (hstore h (block + bb_order) order, block, order)).

Lemma coalesce_step_holds h b k A :
  holds h b k A →
  coalesce_step (h, b, k) = Done (inr (h, b, k)) ∧ settled h b k A ∨
  ∃ h' c, coalesce_step (h, b, k) = Done (inl (h', c, k + 1)) ∧ k < MAX_ORDER ∧
    holds h' c (k + 1) A ∧ heap_step A h h' ∧ flags_kept (hmem h) (hmem h').
Proof.
  intros (B & Hwf & HB & Ho). unfold coalesce_step.
  case_if; zify_bool.
  { left. split; [done|]. exists B. split; [done|split; [done|split; [done|lia]]]. }
  destruct (find_buddy_spec _ _ _ _ _ Hwf HB) as [[E Hno]|[Hx Hbud]].
  { rewrite E. left. split; [done|]. by exists B. }
  pose proof (find_buddy_free _ _ _ _ _ _ Hwf HB Hbud Hx) as [_ Hx0].
  rewrite (proj2 (Z.eqb_neq (find_buddy h b k) 0)) by done. right.
  set (x := find_buddy h b k) in *.
  destruct (shape_block _ _ _ (wf_shape _ _ _ _ Hwf) _ _ _ HB) as (Hk & _).
  pose proof (bsize_ge k ltac:(lia)).
  destruct (take_wf _ _ _ _ _ _ Hwf Hx) as (Hwf1 & Hag1 & _).
  pose proof (take_flags _ _ _ _ _ _ Hwf Hx) as Hfl1.
  set (h1 := remove_from_free_list h x k) in *.
  assert (zstart h1 = zstart h ∧ zend h1 = zend h) as [Ez1 Ez2].
  { destruct (wf_lengths _ _ _ _ Hwf) as [Hl _]. unfold MAX_ORDER in Hk.
    unfold h1, zstart, zend. by rewrite remove_from_free_list_eq by lia. }
  set (lo := if x <? b then x else b). set (hi := lo + bsize k).
  assert ((lo = x ∧ hi = b ∨ lo = b ∧ hi = x) ∧ (bsize (k + 1) | lo - zstart h)) as [Hlohi Hlo].
  { unfold hi, lo. destruct Hbud as [[? ?]|[? ?]]; case_if; split; (done || lia). }
  assert (x ≠ b) by (intros E; rewrite E in Hx; congruence).
  assert (<[x:=(k, true)]> B !! lo = Some (k, true) ∧ <[x:=(k, true)]> B !! hi = Some (k, true)) as [HB1 HB2].
  { destruct Hlohi as [[-> ->]|[-> ->]]; rewrite lookup_insert_eq, lookup_insert_ne by done; done. }
  assert (lo ∈ ({[x]} ∪ {[b]} : gset Z) ∧ hi ∈ ({[x]} ∪ {[b]} : gset Z)
          ∧ ({[x]} ∪ {[b]}) ∖ {[hi]} = ({[lo]} : gset Z)) as (Hlo1 & Hhi1 & Hdiff).
  { by apply held_pair. }
  assert (Hwf2 : wf h1 (<[lo := (k + 1, true)]> (delete hi (<[x := (k, true)]> B))) {[lo]} A).
  { rewrite <- Hdiff. apply merge_wf; try done. by rewrite Ez1. }
  destruct (store_order_wf h1 _ _ A lo (k + 1) (k + 1) Hwf2) as (Hwf3 & Hag3 & Ho3);
    [set_solver|apply lookup_insert_eq|].
  exists (hstore h1 (lo + bb_order) (k + 1)), lo.
  split; [done|]. split; [done|]. split.
  - eexists. split; [exact Hwf3|]. split; [apply lookup_insert_eq|done].
  - split; [split; [done|]; split; [done|]; by transitivity (hmem h1)|].
    transitivity (hmem h1); [done|]. apply store_order_flags.
    eapply (wf_aligned _ _ _ _ _ _ _ Hwf2). apply lookup_insert_eq.
Qed.

Lemma coalesce_block_holds h b k A :
  holds h b k A →
  ∃ h', coalesce_block h b k = Done h' ∧ buddy_ok h' A ∧ heap_step A h h'
        ∧ flags_kept (hmem h) (hmem h').
Proof.
  intros Hh. pose proof (holds_order _ _ _ _ Hh) as Hk.
  set (I := fun '(h', c, o) => holds h' c o A ∧ heap_step A h h' ∧ flags_kept (hmem h) (hmem h')).
  destruct (loop_total I (fun '(h', c, o) => settled h' c o A ∧ heap_step A h h' ∧ flags_kept (hmem h) (hmem h'))
    (fun '(_, _, o) => Z.to_nat (12 - o)) coalesce_step) with (fuel := 13%nat) (s := (h, b, k))
    as ([[h1 c] o] & Hr & Hh1 & Hst & Hfl).
  - intros [[h1 c] o] (Hh1 & Hst & Hfl).
    destruct (coalesce_step_holds _ _ _ _ Hh1) as [[E Hset]|(h2 & c2 & E & Ho & Hh2 & Hst2 & Hfl2)]; rewrite E.
    + by eexists.
    + eexists. split; [done|]. simpl. unfold MAX_ORDER in Ho.
      split; [split; [done|split; by etransitivity]|lia].
  - split; [done|split; reflexivity].
  - unfold MAX_ORDER in Hk. lia.
  - unfold coalesce_block. fold coalesce_step. rewrite Hr. simpl.
    destruct (put_holds _ _ _ _ Hh1) as (Hok & Hst2 & Hfl2).
    eexists. split; [done|]. split; [done|]. split; by etransitivity.
Qed.

(** ** Allocation *)

Lemma flist_head h B D A k :
  wf h B D A → 0 <= k <= MAX_ORDER → flist h k ≠ 0 → B !! flist h k = Some (k, false).
Proof.
  intros Hwf Hk Hne. destruct (wf_list _ _ _ _ Hwf k Hk) as (l & (Hh & _) & _ & Hl).
  destruct l as [|b l]; [by rewrite Hh in Hne|]. apply Hl. rewrite Hh. by left.
Qed.

(** The search for the first non-empty list at or above [order]. *)
Lemma alloc_search h order :
  0 <= order <= MAX_ORDER →
  ∃ c, while 13 (fun c => (c <=? MAX_ORDER) && (flist h c =? 0)) (fun c => c + 1) order = Done c
    ∧ order <= c <= MAX_ORDER + 1 ∧ (∀ j, order <= j < c → flist h j = 0)
    ∧ (c <= MAX_ORDER → flist h c ≠ 0).
Proof.
  intros Ho.
  destruct (while_total (fun c => order <= c <= MAX_ORDER + 1 ∧ ∀ j, order <= j < c → flist h j = 0)
    (fun c => Z.to_nat (12 - c)) (fun c => (c <=? MAX_ORDER) && (flist h c =? 0)) (fun c => c + 1))
    with (fuel := 13%nat) (s := order) as (c & Hr & [Hc Hl] & Hstop).
  - intros c [Hc Hl] Hb. zify_bool. unfold MAX_ORDER in *. split; [split; [lia|]|lia].
    intros j Hj. destruct (decide (j = c)) as [->|]; [done|]. apply Hl. lia.
  - split; [lia|]. intros. lia.
  - lia.
  - exists c. split; [done|]. split; [done|]. split; [done|]. intros Hc1 E.
    rewrite (proj2 (Z.leb_le c MAX_ORDER)), E in Hstop by done. done.
Qed.

Lemma mark_holds h b k A :
  holds h b k A →
  let h1 := hstore8 h (b + bb_allocated) 1 in
  let h' := set_zone h1 (zone_allocated (zone h1) (u32 (allocated_blocks (zone h1) + 1))) in
  buddy_ok h' (<[b := k]> A) ∧ A !! b = None ∧ heap_step A h h'.
Proof.
  intros (B & Hwf & HB & Ho).
  destruct (mark_wf h B {[b]} A b k Hwf ltac:(set_solver) HB Ho) as (Hwf' & Hag & HA).
  rewrite difference_diag_L in Hwf'. split; [by eexists|]. done.
Qed.

(** What a successful allocation of order [k] means. *)
Definition allocated (h : heap) (A : gmap Z Z) (k p : Z) (h' : heap) : Prop :=
  ∃ b, p = b + sizeof_buddy_block ∧ p ≠ 0 ∧ A !! b = None ∧ buddy_ok h' (<[b := k]> A) ∧ heap_step A h h'.

(** [BuddyAllocator::alloc_order] returns: either null, with the heap
    unchanged, and then every free list of the order or above is empty; or a
    pointer just behind the header of a block of that order that no live
    allocation held, the allocator's invariant holds with the block added to
    the live ones, and no byte of the live allocations changed. *)
Lemma alloc_order_returns h A order :
  buddy_ok h A → 0 <= order <= MAX_ORDER →
  (alloc_order h order = Done (0, h) ∧ ∀ k, order <= k <= MAX_ORDER → flist h k = 0)
  ∨ ∃ p h', alloc_order h order = Done (p, h') ∧ allocated h A order p h'.
Proof.
  intros [B Hwf] Ho. unfold alloc_order. rewrite (proj2 (Z.ltb_ge _ _)) by lia.
  destruct (alloc_search h order Ho) as (c & -> & Hc & Hl & Hh). cbn [obind].
  destruct (Z.ltb_spec MAX_ORDER c) as [Hgt|Hle]; [left|right].
  { split; [done|]. intros k Hk. apply Hl. lia. }
  assert (B !! flist h c = Some (c, false)) as HB by (apply (flist_head h B ∅ A); auto; lia).
  destruct (wf_region _ _ _ _ Hwf) as (_ & Hs & _).
  pose proof (shape_block _ _ _ (wf_shape _ _ _ _ Hwf) _ _ _ HB) as (_ & Hb & _).
  destruct (take_holds _ _ _ _ _ Hwf HB) as [Hh1 Hst1].
  set (b := flist h c) in *. set (h1 := remove_from_free_list h b c) in *.
  assert (∃ h2, (if order <? c then split_block h1 b c order else Done h1) = Done h2
            ∧ holds h2 b order A ∧ heap_step A h1 h2) as (h2 & -> & Hh2 & Hst2).
  { destruct (Z.ltb_spec order c).
    - apply split_block_holds; [done|lia].
    - assert (c = order) as -> by lia. by exists h1. }
  cbn [obind]. destruct (mark_holds _ _ _ _ Hh2) as (Hok & HA & Hst3).
  do 2 eexists. split; [done|]. exists b. split; [done|]. unfold sizeof_buddy_block.
  split; [lia|]. split; [done|]. split; [done|]. etransitivity; [done|]. by etransitivity.
Qed.

(** [get_order] ends with the least order whose block is as large as the
    request, and with the largest order, 11, for every request above 8 MB:
    such a request is not refused but cut down to 8 MB. *)
Lemma get_order_returns size :
  0 <= size < 2 ^ 32 →
  ∃ k, get_order size = Done k ∧ 0 <= k <= MAX_ORDER ∧
    (size <= bsize MAX_ORDER → size <= bsize k) ∧ (0 < k → bsize (k - 1) < size) ∧
    (bsize MAX_ORDER < size → k = MAX_ORDER).
Proof.
  intros Hs. unfold get_order.
  destruct (while_total
    (fun '(o, bs) => 0 <= o <= MAX_ORDER ∧ bs = bsize o ∧ (0 < o → bsize (o - 1) < size))
    (fun '(o, _) => Z.to_nat (12 - o))
    (fun '(o, bs) => (bs <? size) && (o <? MAX_ORDER))
    (fun '(o, bs) => (o + 1, u32 (Z.shiftl bs 1)))) with (fuel := 13%nat) (s := (0, MIN_BLOCK_SIZE))
    as ([k bs] & -> & (Hk & -> & Hlt) & Hc).
  - intros [o bs] (Ho & -> & Hl) Hb. zify_bool. unfold MAX_ORDER in *. split; [|lia].
    split; [lia|]. rewrite Z.shiftl_mul_pow2 by lia. rewrite bsize_succ by lia.
    pose proof (bsize_mono o 11 ltac:(lia)). change (bsize 11) with 8388608 in *.
    pose proof (bsize_ge o ltac:(lia)).
    rewrite u32_small by lia. split; [lia|]. intros _. by replace (o + 1 - 1) with o by lia.
  - split; [done|split; [done|lia]].
  - lia.
  - exists k. split; [done|]. split; [done|]. simpl in Hc.
    apply andb_false_iff in Hc as [Hc|Hc]; zify_bool.
    + split; [lia|]. split; [done|]. intros Hbig.
      pose proof (bsize_mono k MAX_ORDER ltac:(lia)). lia.
    + assert (k = MAX_ORDER) as -> by lia. split; [done|]. done.
Qed.

(** [alloc] of a non-zero size allocates the order [get_order] computes
    (see [alloc_order_returns]): it returns, with null or with a fresh block
    whose header leaves [bsize k - 20] bytes to the caller. *)
Lemma alloc_returns h A size :
  buddy_ok h A → 0 < size < 2 ^ 32 →
  ∃ k, get_order size = Done k ∧
  ((alloc h size = Done (0, h) ∧ ∀ j, k <= j <= MAX_ORDER → flist h j = 0)
   ∨ ∃ p h', alloc h size = Done (p, h') ∧ allocated h A k p h').
Proof.
  intros Hok Hs. destruct (get_order_returns size ltac:(lia)) as (k & E & Hk & _).
  exists k. split; [done|]. unfold alloc. rewrite (proj2 (Z.eqb_neq size 0)), E by lia.
  by apply alloc_order_returns.
Qed.

Lemma alloc_order_ok h A k p h' :
  buddy_ok h A → 0 <= k <= MAX_ORDER → alloc_order h k = Done (p, h') → p ≠ 0 →
  buddy_ok h' (<[p - sizeof_buddy_block := k]> A).
Proof.
  intros Hok Hk E Hp.
  destruct (alloc_order_returns h A k Hok Hk) as [[E' _]|(q & h2 & E' & b & Hq & _ & _ & Hok' & _)];
    rewrite E in E'; injection E' as -> ->; [done|].
  by replace (q - sizeof_buddy_block) with b by lia.
Qed.

(** ** Live allocations *)

(** Live allocations lie in the allocator's region, aligned to their
    size relative to its start, and no two of them overlap. *)
Lemma live_disjoint h A b k :
  buddy_ok h A → A !! b = Some k →
  0 <= k <= MAX_ORDER ∧ zstart h <= b ∧ b + bsize k <= zend h ∧ (bsize k | b - zstart h) ∧
  ∀ b' k', A !! b' = Some k' → b ≠ b' → b + bsize k <= b' ∨ b' + bsize k' <= b.
Proof.
  intros [B Hwf] Hb. apply (wf_live _ _ _ _ Hwf) in Hb as [Hb _].
  destruct (shape_block _ _ _ (wf_shape _ _ _ _ Hwf) _ _ _ Hb) as (? & ? & ? & ?).
  do 4 (split; [done|]). intros b' k' Hb' Hne. apply (wf_live _ _ _ _ Hwf) in Hb' as [Hb' _].
  by eapply shape_disj; [apply (wf_shape _ _ _ _ Hwf)|..].
Qed.

(** ** When an allocation can succeed *)

(** A place for a block of order [k]: naturally aligned, in the region, and
    disjoint from all live allocations. *)
Definition room_at (h : heap) (A : gmap Z Z) (k q : Z) : Prop :=
  zstart h <= q ∧ q + bsize k <= zend h ∧ (bsize k | q - zstart h) ∧
  ∀ b j, A !! b = Some j → q + bsize k <= b ∨ b + bsize j <= q.

Lemma room_free_place h B A k q :
  wf h B ∅ A → 0 <= k <= MAX_ORDER →
  room_at h A k q ↔ free_place (zstart h) (zend h) B q k.
Proof.
  intros Hwf Hk. pose proof (wf_live _ _ _ _ Hwf) as Hl. unfold room_at, free_place.
  split; [intros (? & ? & ? & Hd)|intros (_ & ? & ? & ? & Hd)]; repeat split; try done; try lia;
    intros b j Hb.
  - destruct (Hd b j) as [?|?]; [by apply Hl|by right|by left].
  - apply Hl in Hb as [Hb _]. destruct (Hd b j Hb); [by right|by left].
Qed.

(** No list from order [k] up has a block exactly when there is no room:
    free blocks are merged, so free memory that is aligned is in one block. *)
Lemma no_room h A k :
  buddy_ok h A → 0 <= k <= MAX_ORDER →
  (∀ j, k <= j <= MAX_ORDER → flist h j = 0) ↔ ∀ q, ¬ room_at h A k q.
Proof.
  intros [B Hwf] Hk. pose proof (wf_shape _ _ _ _ Hwf) as Hsh. split.
  - intros Hl q Hq%(room_free_place _ _ _ _ _ Hwf Hk).
    destruct (free_place_covered _ _ _ Hsh (wf_maximal _ _ _ _ Hwf) q k Hq) as (b & j & Hb & Hkj & _).
    destruct (shape_block _ _ _ Hsh _ _ _ Hb) as (Hj & Hbs & _).
    destruct (wf_region _ _ _ _ Hwf) as (_ & Hs & _).
    destruct (wf_list _ _ _ _ Hwf j Hj) as (l & (Hh & Hnz & _) & _ & Hm).
    apply Hm in Hb. rewrite Hl in Hh by lia. destruct l as [|y l]; [by apply not_elem_of_nil in Hb|].
    simpl in Hh. subst y. assert (0 ∈ 0 :: l) as H0%Hm by (by left).
    destruct (shape_block _ _ _ Hsh _ _ _ H0) as (_ & ? & _). lia.
  - intros Hno j Hj. destruct (decide (flist h j = 0)) as [|Hne]; [done|].
    apply (flist_head h B ∅ A j Hwf ltac:(lia)) in Hne.
    destruct (Hno (flist h j)). apply (room_free_place _ _ _ _ _ Hwf Hk).
    apply (free_block_place _ _ _ Hsh _ j); [done|lia].
Qed.

(** A new block is where there was room. *)
Lemma new_block_room h h' A b k :
  A !! b = None → buddy_ok h' (<[b := k]> A) → heap_step A h h' → room_at h A k b.
Proof.
  intros HA Hok (Es & Ee & _).
  destruct (live_disjoint _ _ b k Hok) as (_ & Hb & He & Hal & Hd); [apply lookup_insert_eq|].
  rewrite Es, Ee in *. split; [done|]. split; [done|]. split; [done|]. intros b' k' Hb'.
  assert (b ≠ b') by (intros ->; congruence). apply Hd; [by rewrite lookup_insert_ne|done].
Qed.

(** ** Freeing *)

Lemma unmark_holds h b k A :
  buddy_ok h A → A !! b = Some k →
  let h1 := hstore8 h (b + bb_allocated) 0 in
  let h' := set_zone h1 (zone_allocated (zone h1) (u32 (allocated_blocks (zone h1) - 1))) in
  holds h' b k (delete b A) ∧ heap_step (delete b A) h h'.
Proof.
  intros [B Hwf] HA. destruct (unmark_wf _ _ _ _ _ _ Hwf HA) as (Hwf' & Hag & Ho).
  rewrite (right_id_L ∅ (∪)) in Hwf'. apply (wf_live _ _ _ _ Hwf) in HA as [HB _].
  split; [by exists B|]. split; [done|]. split; [done|].
  eapply agree_on_weaken; [|exact Hag]. intros a (c & j & Hc & Hr).
  apply lookup_delete_Some in Hc as [_ Hc]. by exists c, j.
Qed.

Lemma free_order_live h A b k :
  buddy_ok h A → A !! b = Some k →
  ∃ h', free_order h (b + sizeof_buddy_block) k = Done h' ∧ buddy_ok h' (delete b A)
        ∧ heap_step (delete b A) h h' ∧ load8 (hmem h') (b + bb_allocated) = 0.
Proof.
  intros Hok HA. pose proof (unmark_holds _ _ _ _ Hok HA) as [Hh Hst].
  destruct Hok as [B Hwf]. pose proof (proj1 (wf_live _ _ _ _ Hwf _ _) HA) as [HB _].
  destruct (shape_block _ _ _ (wf_shape _ _ _ _ Hwf) _ _ _ HB) as (Hk & Hb & _).
  destruct (wf_region _ _ _ _ Hwf) as (_ & Hs & _).
  pose proof (wf_aligned _ _ _ _ _ _ _ Hwf HB) as Hal.
  unfold free_order. unfold sizeof_buddy_block in *.
  replace (b + 20 - 20) with b by lia. rewrite (proj2 (Z.eqb_neq (b + 20) 0)) by lia.
  rewrite (proj2 (Z.ltb_ge MAX_ORDER k)) by lia.
  destruct (coalesce_block_holds _ _ _ _ Hh) as (h' & E & Hok' & Hst' & Hfl).
  exists h'. split; [exact E|]. split; [done|]. split; [by etransitivity|].
  rewrite (Hfl b Hal). simpl. apply load8_store8_eq.
Qed.

(** [free] of a live block is [free_order] with the order of its header. *)
Lemma free_free_order h A b k :
  buddy_ok h A → A !! b = Some k →
  free h (b + sizeof_buddy_block) = free_order h (b + sizeof_buddy_block) k.
Proof.
  intros [B Hwf] HA. pose proof (proj1 (wf_live _ _ _ _ Hwf _ _) HA) as [HB _].
  destruct (wf_hdr _ _ _ _ Hwf _ _ _ HB) as (Hm & Ho & Ha).
  destruct (shape_block _ _ _ (wf_shape _ _ _ _ Hwf) _ _ _ HB) as (_ & Hb & _).
  destruct (wf_region _ _ _ _ Hwf) as (_ & Hs & _).
  unfold free, sizeof_buddy_block. replace (b + 20 - 20) with b by lia.
  rewrite (proj2 (Z.eqb_neq (b + 20) 0)), Hm, Ha, Ho by (lia || set_solver). done.
Qed.

Lemma free_live h A b k :
  buddy_ok h A → A !! b = Some k →
  ∃ h', free h (b + sizeof_buddy_block) = Done h' ∧ buddy_ok h' (delete b A)
        ∧ heap_step (delete b A) h h' ∧ load8 (hmem h') (b + bb_allocated) = 0.
Proof. intros Hok HA. rewrite (free_free_order _ _ _ _ Hok HA). by apply free_order_live. Qed.

(** ** Clients write to their own bytes *)

(** [h'] differs from [h] at most in the words of [P]. *)
Definition only_writes (P : Z → Prop) (h h' : heap) : Prop :=
  zone h' = zone h ∧ ∀ a, ¬ P a → hload h' a = hload h a.

#[export] Instance only_writes_preorder P : PreOrder (only_writes P).
Proof.
  split; [by intros h|]. intros h1 h2 h3 [E1 H1] [E2 H2]. split; [congruence|].
  intros a Ha. by rewrite H2, H1.
Qed.

Lemma only_writes_hstore (P : Z → Prop) h a v : P a → only_writes P h (hstore h a v).
Proof.
  intros Ha. split; [done|]. intros b Hb. apply load_store_ne. by intros ->.
Qed.

Lemma only_writes_hstore8 (P : Z → Prop) h a v : P (a - a mod 4) → only_writes P h (hstore8 h a v).
Proof.
  intros Ha. split; [done|]. intros b Hb. apply load_store8_ne. by intros <-.
Qed.

Lemma only_writes_weaken (P Q : Z → Prop) h h' :
  (∀ a, P a → Q a) → only_writes P h h' → only_writes Q h h'.
Proof. intros HPQ [E H]. split; [done|]. intros a Ha. apply H. auto. Qed.

(** A client that stays inside its live allocations cannot break the allocator. *)
Lemma client_writes_ok h h' A :
  buddy_ok h A → only_writes (user_area A) h h' → buddy_ok h' A.
Proof.
  intros [B Hwf] [Hz Hm]. exists B. destruct h as [m z], h' as [m' z']. simpl in Hz. subst z'.
  assert (∀ y i d o, B !! y = Some (i, d) → 0 <= o < sizeof_buddy_block →
            load m' (y + o) = load m (y + o)) as Hfr.
  { intros y i d o Hy Ho. apply Hm. by eapply (user_area_hdr _ _ _ _ _ _ _ _ Hwf). }
  split; try apply Hwf.
  - apply (headers_frame _ _ _ _ _ Hwf). intros y i d o Hy Ho. apply (Hfr _ _ _ _ Hy). lia.
  - intros k Hk. apply (represents_mem _ _ _ _ _ _ _ _ Hwf Hk); try done.
    intros y Hy. split; apply (Hfr _ _ _ _ Hy); done.
Qed.

Lemma user_area_block A b k a :
  A !! b = Some k → b + sizeof_buddy_block <= a < b + bsize k → user_area A a.
Proof. intros. by exists b, k. Qed.

(** The [n] bytes from [p]. *)
Definition in_block (p n a : Z) : Prop := p <= a < p + n.

Lemma only_writes_then_hstore (P : Z → Prop) h h1 a v :
  only_writes P h h1 → P a → only_writes P h (hstore h1 a v).
Proof. intros H Ha. etransitivity; [exact H|]. by apply only_writes_hstore. Qed.

Lemma allocated_pointer h A k p h' : allocated h A k p h' → p ≠ 0 ∧ (4 | p).
Proof.
  intros (b & -> & Hp & HA & [B Hwf] & _). split; [done|].
  destruct (proj1 (wf_live _ _ _ _ Hwf b k)) as [HB _]; [by rewrite lookup_insert_eq|].
  apply (wf_aligned _ _ _ _ _ _ _ Hwf) in HB as [i ->]. exists (1024 * i + 5). unfold sizeof_buddy_block. lia.
Qed.

(** Filling in a new allocation keeps everything an allocation promises. *)
Lemma new_block_writes h A k p h1 n h2 :
  allocated h A k p h1 → n + sizeof_buddy_block <= bsize k →
  only_writes (in_block p n) h1 h2 → allocated h A k p h2.
Proof.
  intros (b & -> & Hp & HA & Hok & Hst) Hn Hw.
  exists b. split; [done|]. split; [done|]. split; [done|]. split.
  - eapply client_writes_ok; [exact Hok|]. eapply only_writes_weaken; [|exact Hw].
    intros a Ha. apply (user_area_block _ b k); [by rewrite lookup_insert_eq|]. unfold in_block in Ha. lia.
  - transitivity h1; [done|]. destruct Hw as [Hz Hm]. unfold heap_step, zstart, zend. rewrite Hz.
    split; [done|]. split; [done|]. intros a (b' & k' & Hb' & Hr). symmetry. apply Hm. intros Ha.
    destruct (live_disjoint _ _ b k Hok) as (_ & _ & _ & _ & Hdis); [by rewrite lookup_insert_eq|].
    assert (b ≠ b') as Hne by (intros ->; congruence).
    destruct (Hdis b' k') as [?|?]; [by rewrite lookup_insert_ne|done| |];
      unfold in_block, sizeof_buddy_block in *; lia.
Qed.
