(* ===== verification/BuddyInit.v ===== *)
(** Initialisation of the buddy allocator: [init] cuts the region into blocks
    of decreasing order, and establishes the invariant of [BuddyInv]. *)

From Stdlib Require Import ZArith Lia.
From stdpp Require Import base list gmap option sets.
From S2P Require Import Prelude Memory DList Buddy BuddyPartition BuddyInv BuddySpec.

(** [init] builds the partition of a growing prefix of the region: the zone
    with [memory_size] cut down to what has been carved so far. *)
Definition zone_size (z : buddy_zone) (n : Z) : buddy_zone :=
  mk_zone (free_lists z) (free_blocks z) (memory_start z) n (total_blocks z) (allocated_blocks z).
Definition prefix (h : heap) (n : Z) : heap := set_zone h (zone_size (zone h) n).

Lemma shape_grow s e B k a :
  shape s e B → s <= e → 0 <= k <= MAX_ORDER → (bsize k | e - s) →
  shape s (e + bsize k) (<[e := (k, a)]> B).
Proof.
  intros [Hb Hd Hc] Hse Hk Hal. pose proof (bsize_ge k ltac:(lia)). split.
  - intros b j d. rewrite lookup_insert. case_decide as E.
    + intros [= <- <-]. subst b. split; [done|]. split; [done|]. split; [done|lia].
    + intros HB. destruct (Hb _ _ _ HB) as (? & ? & ? & ?). split; [done|]. split; [done|]. split; [done|lia].
  - assert (∀ b j d, B !! b = Some (j, d) → b + bsize j <= e) as Hle by (intros ??? HB; by eapply Hb).
    intros b1 k1 a1 b2 k2 a2. rewrite !lookup_insert.
    repeat case_decide; intros E1 E2 Hne; simplify_eq; eauto.
  - intros p Hp. destruct (decide (p < e)) as [Hlt|Hge].
    + destruct (Hc p ltac:(lia)) as (b & j & d & HB & Hr). exists b, j, d.
      rewrite lookup_insert_ne; [done|]. intros <-. destruct (Hb _ _ _ HB) as (? & _).
      pose proof (bsize_ge j ltac:(lia)). lia.
    + exists e, k, a. rewrite lookup_insert_eq. split; [done|lia].
Qed.

(** Carving a new block at the end of the prefix. *)
Lemma grow_wf h B A k n :
  wf (prefix h n) B ∅ A → 0 <= n → 0 <= k <= MAX_ORDER → (bsize k | n) →
  zstart h + n + bsize k < 2 ^ 32 →
  let c := zstart h + n in
  wf (prefix (init_block h c k) (n + bsize k)) (<[c := (k, true)]> B) {[c]} A.
Proof.
  intros Hwf Hn Hk Hal Hmax c.
  destruct (wf_region _ _ _ _ Hwf) as (Hr1 & Hr2 & _ & Hr4).
  pose proof (wf_shape _ _ _ _ Hwf) as Hsh.
  change (zstart (prefix h n)) with (zstart h) in *.
  change (zend (prefix h n)) with (zstart h + n) in *. simpl in Hr4.
  pose proof (bsize_ge k ltac:(lia)).
  assert (4096 | c) as Hc by (apply Z.divide_add_r; done).
  destruct (init_block_effect h c k Hc) as (Hz & Ho & Hm & Ha & Hfr).
  assert (∀ y i d, B !! y = Some (i, d) → y < c) as Hlt.
  { intros y i d HB. destruct (shape_block _ _ _ Hsh _ _ _ HB) as (? & _ & _ & ?).
    pose proof (bsize_ge i ltac:(lia)). subst c. lia. }
  assert (B !! c = None) as HBc.
  { destruct (B !! c) as [[i d]|] eqn:E; [|done]. apply Hlt in E. lia. }
  assert (∀ y i d o, B !! y = Some (i, d) → 0 <= o < sizeof_buddy_block →
            load (hmem (init_block h c k)) (y + o) = load (hmem h) (y + o)) as Hfr'.
  { intros y i d o HB Ho'. apply Hfr. intros o' Ho2. unfold sizeof_buddy_block in *.
    apply hdr_ne; [by apply (wf_aligned _ _ _ _ _ _ _ Hwf HB)|done|lia|lia|].
    left. apply Hlt in HB. lia. }
  destruct (init_block h c k) as [m' z'] eqn:E. cbn [zone hmem] in *. subst z'.
  split.
  - change (zstart (prefix (mk_heap m' (zone h)) (n + bsize k))) with (zstart h).
    change (zend (prefix (mk_heap m' (zone h)) (n + bsize k))) with (zstart h + (n + bsize k)).
    split; [done|]. split; [done|]. split; [lia|].
    change (4096 | n + bsize k). apply Z.divide_add_r; [done|apply page_divide; lia].
  - change (zstart (prefix (mk_heap m' (zone h)) (n + bsize k))) with (zstart h).
    change (zend (prefix (mk_heap m' (zone h)) (n + bsize k))) with (zstart h + (n + bsize k)).
    replace (zstart h + (n + bsize k)) with (c + bsize k) by (subst c; lia).
    apply shape_grow; [done|lia|done|]. subst c. by replace (zstart h + n - zstart h) with n by lia.
  - exact (maximal_held _ _ _ _ (wf_maximal _ _ _ _ Hwf)).
  - apply headers_update with (D := ∅); [|set_solver|done|done|].
    + apply (headers_frame (prefix h n) _ _ _ A Hwf). intros y i d o HB Ho'.
      apply (Hfr' _ _ _ _ HB). lia.
    + cbn [prefix set_zone hmem]. rewrite Ha, bool_decide_eq_false_2 by set_solver. done.
  - intros b ->%elem_of_singleton. exists k. apply lookup_insert_eq.
  - apply (wf_lengths _ _ _ _ Hwf).
  - intros j Hj.
    apply (represents_mem (prefix h n) B ∅ A); try done.
    + intros y HB. split; apply (Hfr' _ _ _ _ HB); done.
    + intros y. rewrite lookup_held. split; [tauto|]. intros HB. split; [done|].
      intros ->. congruence.
  - intros y i. rewrite lookup_insert, not_elem_of_singleton.
    pose proof (wf_live _ _ _ _ Hwf y i) as Hl. case_decide; subst.
    + split; [|naive_solver]. intros [HB _]%Hl. congruence.
    + set_solver.
  - apply (wf_count _ _ _ _ Hwf).
Qed.

(** One round of [init]: carve and put on its free list.  The new block has no
    free buddy, because the blocks before it are larger, or of the largest order. *)
Lemma init_round h B A k n :
  wf (prefix h n) B ∅ A → 0 <= n → 0 <= k <= MAX_ORDER → (bsize k | n) →
  zstart h + n + bsize k < 2 ^ 32 → (∀ b j a, B !! b = Some (j, a) → k < MAX_ORDER → k < j) →
  let c := zstart h + n in
  wf (prefix (add_to_free_list (init_block h c k) c k) (n + bsize k)) (<[c := (k, false)]> B) ∅ A.
Proof.
  intros Hwf Hn Hk Hal Hmax Hlarger c.
  pose proof (grow_wf _ _ _ _ _ Hwf Hn Hk Hal Hmax) as Hg. fold c in Hg. cbn zeta in Hg.
  destruct (wf_region _ _ _ _ Hwf) as (Hr1 & _ & _ & Hr4).
  assert (4096 | c) as Hc by (apply Z.divide_add_r; done).
  destruct (init_block_effect h c k Hc) as (_ & Ho & _).
  destruct (put_wf (prefix (init_block h c k) (n + bsize k)) _ _ A c k Hg) as (Hok & _);
    [set_solver|apply lookup_insert_eq|done| |].
  - intros Hlt x _ [Hx _]%lookup_held. apply Hlarger in Hx; lia.
  - rewrite insert_insert_eq, difference_diag_L in Hok. rewrite add_to_free_list_eq in *. exact Hok.
Qed.

Lemma init_order_spec r :
  4096 <= r < 2 ^ 32 →
  ∃ k, init_order r = Done k ∧ 0 <= k <= MAX_ORDER ∧ bsize k <= r ∧
    (k < MAX_ORDER → r < bsize (k + 1)).
Proof.
  intros Hr. unfold init_order.
  destruct (while_total (fun o => 0 <= o <= MAX_ORDER ∧ bsize o <= r) (fun o => Z.to_nat (12 - o))
    (fun o => (block_size (o + 1) <=? r) && (o <? MAX_ORDER)) (fun o => o + 1))
    with (fuel := 13%nat) (s := 0) as (k & E & [Hk Hle] & Hc).
  - intros o [Ho Hle] Hb. zify_bool. unfold MAX_ORDER in *.
    rewrite block_size_bsize in * by lia. lia.
  - split; [done|]. change (bsize 0) with 4096. lia.
  - lia.
  - exists k. split; [done|]. split; [done|]. split; [done|]. intros Hlt.
    apply andb_false_iff in Hc as [Hc|Hc]; zify_bool; [|lia]. unfold MAX_ORDER in *.
    by rewrite block_size_bsize in Hc by lia.
Qed.

Lemma empty_wf m s t :
  (4096 | s) → 0 < s < 2 ^ 32 →
  wf (mk_heap m (mk_zone (replicate 12 0) (replicate 12 0) s 0 t 0)) ∅ ∅ ∅.
Proof.
  intros Hs Hs0. split; try done.
  - unfold zend, zstart. simpl. split; [done|]. split; [lia|]. split; [lia|apply Z.divide_0_r].
  - unfold zend, zstart. simpl. split; [done|done|]. intros p Hp. lia.
  - intros k Hk. exists []. unfold flist. cbn [hmem zone free_lists free_blocks].
    assert (∀ j, zget 0 (replicate 12 0) j = 0) as E.
    { intros j. unfold zget. case_decide; [|done]. generalize (Z.to_nat j). intros i.
      do 12 (destruct i as [|i]; [done|]). by destruct i. }
    rewrite !E. split; [by apply dlist_nil|]. split; [done|].
    intros b. rewrite lookup_empty. split; [by intros ?%not_elem_of_nil|done].
  - intros b k. rewrite !lookup_empty. naive_solver.
Qed.

(** The state of the [init] loop: the prefix carved so far is well formed, the
    rest is a multiple of the page size, and smaller than the block carved last
    if that was not of the largest order, so the orders below it strictly fall. *)
Definition init_inv (s size : Z) (st : heap * Z * Z) : Prop :=
  let '(h, addr, r) := st in
  zstart h = s ∧ memory_size (zone h) = size ∧ addr = s + (size - r) ∧ 0 <= r <= size ∧ (4096 | r) ∧
  ∃ B o, wf (prefix h (size - r)) B ∅ ∅ ∧ 0 <= o <= MAX_ORDER ∧ (bsize o | size - r) ∧
    (o < MAX_ORDER → r < bsize o) ∧ ∀ b k a, B !! b = Some (k, a) → o <= k.

Definition init_step : heap * Z * Z → outcome (heap * Z * Z + heap) :=
  fun '(h, current_addr, current_size) =>
    if negb (MIN_BLOCK_SIZE <=? current_size) then Done (inr h)
    else
      let* order := init_order current_size in
      let h := init_block h current_addr order in
      let h := add_to_free_list h current_addr order in
      let bs := block_size order in
      Done (inl (h, current_addr + bs, current_size - bs)).

Lemma init_step_inv s size h addr r :
  s + size < 2 ^ 32 → 0 < s → init_inv s size (h, addr, r) →
  r = 0 ∧ init_step (h, addr, r) = Done (inr h)
  ∨ ∃ h' addr' r', init_step (h, addr, r) = Done (inl (h', addr', r')) ∧ r' < r
      ∧ init_inv s size (h', addr', r').
Proof.
  intros Hmax Hs0 (Hs & Hsz & Haddr & Hr & [q Hq] & B & o & Hwf & Ho & Hdiv & Hlt & Hge).
  unfold init_step. unfold MIN_BLOCK_SIZE. destruct (Z.leb_spec 4096 r) as [Hle|Hgt].
  2: { left. split; [lia|]. done. }
  right. destruct (init_order_spec r ltac:(lia)) as (k & -> & Hk & Hkr & Hkm). simpl.
  unfold MAX_ORDER in *. rewrite block_size_bsize by lia.
  pose proof (bsize_ge k ltac:(lia)).
  assert (k <= o ∧ (o < 11 → k < o)) as [Hko Hko'].
  { destruct (decide (o < 11)) as [Hl|]; [|lia]. specialize (Hlt Hl).
    destruct (decide (k < o)); [lia|]. pose proof (bsize_mono o k ltac:(lia)). lia. }
  assert (bsize k | size - r) as Hkd by (eapply Z.divide_trans; [apply bsize_divide|done]; lia).
  assert (∀ b j a, B !! b = Some (j, a) → k < MAX_ORDER → k < j) as Hlarger.
  { intros b j a Hb%Hge Hlt11. unfold MAX_ORDER in *. lia. }
  pose proof (init_round h B ∅ k (size - r) Hwf ltac:(lia) Hk Hkd ltac:(lia) Hlarger) as Hwf'.
  cbn zeta in Hwf'. rewrite Hs, <- Haddr in Hwf'.
  do 3 eexists. split; [done|]. split; [lia|].
  destruct (Z.divide_add_r _ _ _ Hkd (Z.divide_refl (bsize k))) as [t Ht].
  split; [unfold zstart in *; by rewrite add_to_free_list_eq|].
  split; [by rewrite add_to_free_list_eq|]. split; [lia|]. split; [lia|].
  split; [apply Z.divide_sub_r; [by exists q|apply page_divide; lia]|].
  replace (size - (r - bsize k)) with (size - r + bsize k) by lia.
  eexists _, k. split; [exact Hwf'|]. split; [lia|]. split; [exists t; lia|]. split.
  - intros Hk11. specialize (Hkm ltac:(lia)). rewrite bsize_succ in Hkm by lia. lia.
  - intros b j a. rewrite lookup_insert. case_decide; [intros [= <- <-]; lia|].
    intros Hb%Hge. lia.
Qed.

(** [BuddyAllocator::init] returns on every region of whole pages, and
    leaves the allocator well formed, with no live allocation: the region is
    cut into naturally aligned blocks that cover all of it, each on the free
    list of its order. *)
Lemma init_returns m s size :
  (4096 | s) → 0 < s → 0 <= size → (4096 | size) → s + size < 2 ^ 32 →
  ∃ h, init m s size = Done h ∧ buddy_ok h ∅ ∧ zstart h = s ∧ zend h = s + size.
Proof.
  intros Hs Hs0 Hsz [q Hq] Hmax. unfold init.
  set (h0 := mk_heap m _).
  destruct (loop_total (init_inv s size) (fun h => buddy_ok h ∅ ∧ zstart h = s ∧ zend h = s + size)
    (fun '(_, _, r) => Z.to_nat (r / 4096)) init_step)
    with (fuel := S (Z.to_nat (size / MIN_BLOCK_SIZE))) (s := (h0, s, size)) as (h & E & Hh).
  - intros [[h addr] r] Hinv.
    destruct (init_step_inv _ _ _ _ _ Hmax Hs0 Hinv) as [[-> E]|(h' & a' & r' & E & Hr & Hinv')];
      rewrite E; eexists; (split; [done|]); cbn beta iota.
    + destruct Hinv as (Hs1 & Hs2 & _ & _ & _ & B & o & Hok & _). rewrite Z.sub_0_r, <- Hs2 in Hok.
      split; [exists B|split; [done|unfold zend, zstart in *; lia]].
      by destruct h as [? []].
    + split; [done|]. destruct Hinv as (_ & _ & _ & ? & [i Hi] & _).
      destruct Hinv' as (_ & _ & _ & ? & [j Hj] & _). subst r r'.
      rewrite !Z.div_mul by lia. lia.
  - unfold init_inv. split; [done|]. split; [done|]. split; [lia|]. split; [lia|].
    split; [by exists q|]. rewrite Z.sub_diag. exists ∅, MAX_ORDER.
    split; [apply (empty_wf m s (size / MIN_BLOCK_SIZE)); [done|lia]|].
    split; [done|]. split; [apply Z.divide_0_r|]. split; [lia|done].
  - unfold MIN_BLOCK_SIZE. lia.
  - exists h. unfold init_step in E. rewrite E. done.
Qed.

(** The kernel's zone: 16 MB from 16 MB, two blocks of 8 MB. *)
Lemma init_buddy_allocator_ok m :
  ∃ h, init_buddy_allocator m = Done h ∧ buddy_ok h ∅.
Proof.
  destruct (init_returns m 0x1000000 0x1000000) as (h & E & Hok & _); [by exists 4096|lia|lia|by exists 4096|lia|].
  by exists h.
Qed.

(** The heap right after boot, computed; the witnesses start from it. *)
Definition boot_heap : heap := Eval vm_compute in
  match init_buddy_allocator ∅ with Done h => h | _ => mk_heap ∅ (mk_zone [] [] 0 0 0 0) end.

Lemma boot_heap_ok : buddy_ok boot_heap ∅.
Proof.
  destruct (init_buddy_allocator_ok ∅) as (h & E & Hok). vm_compute in E.
  injection E as <-. exact Hok.
Qed.
