(* ===== verification/BuddyProps.v ===== *)
(** The properties of the buddy allocator. *)

From Stdlib Require Import ZArith Lia.
From stdpp Require Import base list gmap option sets.
From S2P Require Import Prelude Memory DList Buddy BuddyPartition BuddyInv BuddySpec BuddyInit.

(** C5. [BuddyAllocator::init] returns on every region of whole pages, and
    leaves the allocator well formed, with no live allocation: the region is
    cut into naturally aligned blocks that cover all of it, each on the free
    list of its order, and no two of them are buddies that could be one. *)
Theorem init_spec m s size :
  (4096 | s) → 0 < s → 0 <= size → (4096 | size) → s + size < 2 ^ 32 →
  ∃ h, init m s size = Done h ∧ buddy_ok h ∅ ∧ zstart h = s ∧ zend h = s + size.
Proof. apply init_returns. Qed.

Lemma init_spec_witness :
  ∃ h, init ∅ 0x1000000 0x5000 = Done h ∧ buddy_ok h ∅ ∧ zstart h = 0x1000000 ∧ zend h = 0x1005000.
Proof.
  apply (init_spec ∅ 0x1000000 0x5000);
    [by exists 4096|reflexivity|discriminate|by exists 5|reflexivity].
Defined.

(** C1. [BuddyAllocator::alloc] returns for every non-zero size.  Let [k] be the
    least order whose block is as large as the size (11, 8 MB, for larger
    requests).  If the region has no naturally aligned place of [2^k] pages
    that is disjoint from the live allocations, [alloc] returns null and the
    heap is unchanged: nothing else makes it fail, since free memory is merged
    as far as alignment allows.  Otherwise it returns a pointer just behind the
    header of a block at such a place, the block joins the live allocations of
    the well-formed allocator, and no byte of the others changed. *)
Theorem alloc_spec h A size :
  buddy_ok h A → 0 < size < 2 ^ 32 →
  ∃ k, 0 <= k <= MAX_ORDER ∧ (size <= bsize MAX_ORDER → size <= bsize k) ∧ (0 < k → bsize (k - 1) < size) ∧
  ((alloc h size = Done (0, h) ∧ ∀ q, ¬ room_at h A k q)
   ∨ ∃ b h', alloc h size = Done (b + sizeof_buddy_block, h') ∧ A !! b = None ∧ room_at h A k b ∧
       buddy_ok h' (<[b := k]> A) ∧ heap_step A h h').
Proof.
  intros Hok Hs. destruct (get_order_returns size ltac:(lia)) as (k & E & Hk & H1 & H2 & _).
  destruct (alloc_returns h A size Hok Hs) as (k' & E' & Ha). assert (k' = k) as -> by congruence.
  exists k. split; [done|]. split; [done|]. split; [done|].
  destruct Ha as [[Ha Hno]|(p & h' & Ha & b & -> & _ & HA & Hok' & Hst)].
  { left. split; [done|]. by apply (no_room h A k Hok Hk). }
  right.
  exists b, h'. split; [done|]. split; [done|]. split; [|done]. by eapply new_block_room.
Qed.

Lemma alloc_spec_witness :
  ∃ k, 0 <= k <= MAX_ORDER ∧ (5000 <= bsize MAX_ORDER → 5000 <= bsize k) ∧ (0 < k → bsize (k - 1) < 5000) ∧
  ((alloc boot_heap 5000 = Done (0, boot_heap) ∧ ∀ q, ¬ room_at boot_heap ∅ k q)
   ∨ ∃ b h', alloc boot_heap 5000 = Done (b + sizeof_buddy_block, h') ∧ (∅ : gmap Z Z) !! b = None ∧
       room_at boot_heap ∅ k b ∧ buddy_ok h' (<[b := k]> ∅) ∧ heap_step ∅ boot_heap h').
Proof. apply (alloc_spec boot_heap ∅ 5000); [exact boot_heap_ok|split; reflexivity]. Defined.

(** [get_order] ends with the least order whose block is as large as the
    request, and with the largest order, 11, for every request above 8 MB:
    such a request is not refused but cut down to 8 MB. *)
Theorem get_order_spec size :
  0 <= size < 2 ^ 32 →
  ∃ k, get_order size = Done k ∧ 0 <= k <= MAX_ORDER ∧
    (size <= bsize MAX_ORDER → size <= bsize k) ∧ (0 < k → bsize (k - 1) < size) ∧
    (bsize MAX_ORDER < size → k = MAX_ORDER).
Proof. apply get_order_returns. Qed.

Lemma get_order_spec_witness :
  ∃ k, get_order 0x2000000 = Done k ∧ 0 <= k <= MAX_ORDER ∧
    (0x2000000 <= bsize MAX_ORDER → 0x2000000 <= bsize k) ∧ (0 < k → bsize (k - 1) < 0x2000000) ∧
    (bsize MAX_ORDER < 0x2000000 → k = MAX_ORDER).
Proof. apply (get_order_spec 0x2000000). split; [discriminate|reflexivity]. Defined.

(** One page allocated from the boot heap. *)
Definition one_page_heap : heap := Eval vm_compute in
  match alloc_order boot_heap 0 with Done (_, h) => h | _ => boot_heap end.

Lemma one_page_ok : buddy_ok one_page_heap {[ 0x1800000 := 0 ]}.
Proof.
  apply (alloc_order_ok boot_heap ∅ 0 0x1800014 one_page_heap);
    [exact boot_heap_ok|done|vm_compute; reflexivity|done].
Qed.

(** C2. [BuddyAllocator::free] of a live allocation returns: the block is no
    longer live, it is merged with its free buddies as far as they go, the
    invariant holds, and the bytes of the other live allocations are kept. *)
Theorem free_spec h A b k :
  buddy_ok h A → A !! b = Some k →
  ∃ h', free h (b + sizeof_buddy_block) = Done h' ∧ buddy_ok h' (delete b A)
        ∧ heap_step (delete b A) h h'.
Proof.
  intros Hok HA. destruct (free_live _ _ _ _ Hok HA) as (h' & ? & ? & ? & _). by exists h'.
Qed.

Lemma free_spec_witness :
  ∃ h', free one_page_heap (0x1800000 + sizeof_buddy_block) = Done h' ∧
        buddy_ok h' (delete 0x1800000 {[ 0x1800000 := 0 ]})
        ∧ heap_step (delete 0x1800000 {[ 0x1800000 := 0 ]}) one_page_heap h'.
Proof. apply (free_spec one_page_heap _ 0x1800000 0); [exact one_page_ok|reflexivity]. Defined.

(** A double free is detected: freeing the pointer of a live allocation
    twice in a row leaves the heap as the first [free] left it, whatever the
    block was merged with. *)
Theorem double_free_rejected h A b k h' :
  buddy_ok h A → A !! b = Some k → free h (b + sizeof_buddy_block) = Done h' →
  free h' (b + sizeof_buddy_block) = Done h'.
Proof.
  intros Hok HA Hfree. destruct (free_live _ _ _ _ Hok HA) as (h1 & E & _ & _ & Ha).
  assert (h1 = h') as -> by congruence.
  unfold free, sizeof_buddy_block. replace (b + 20 - 20) with b by lia.
  case_if; [done|]. rewrite Ha, orb_true_r. done.
Qed.

Definition freed_heap : heap := Eval vm_compute in
  match free one_page_heap (0x1800000 + sizeof_buddy_block) with Done h => h | _ => boot_heap end.

Lemma double_free_rejected_witness :
  free freed_heap (0x1800000 + sizeof_buddy_block) = Done freed_heap.
Proof.
  apply (double_free_rejected one_page_heap {[ 0x1800000 := 0 ]} 0x1800000 0);
    [exact one_page_ok|reflexivity|vm_compute; reflexivity].
Defined.

(** Why regions end below 2^32: the end of a region that reaches 2^32 is 0 in
    32 bits, every address is behind it, and no block ever finds its buddy. *)
Lemma region_at_top_finds_no_buddy h b k : zend h = 2 ^ 32 → find_buddy h b k = 0.
Proof.
  unfold zend. intros E. unfold find_buddy. cbv zeta. rewrite E. change (u32 (2 ^ 32)) with 0.
  rewrite (proj2 (Z.leb_le _ _)); [done|]. apply u32_range.
Qed.

(** The header is not part of the request: the 4096 bytes that
    [alloc(4096)] returns run past the end of their 4096-byte block and over
    the header of the next block, here another live allocation. *)
Theorem alloc_page_overlaps_next_header :
  ∃ p q h1 h2, alloc boot_heap 4096 = Done (p, h1) ∧ alloc h1 4096 = Done (q, h2) ∧
    p < q - sizeof_buddy_block < p + 4096.
Proof.
  destruct (alloc boot_heap 4096) as [[p h1]| |] eqn:E1; [|vm_compute in E1; discriminate E1..].
  vm_compute in E1. injection E1 as <- <-.
  eexists _, _, _, _. split; [reflexivity|]. split; [vm_compute; reflexivity|]. done.
Qed.
