(* ===== verification/BuddyRun.v ===== *)
(** Histories of the buddy allocator: any sequence of the operations of
    [BuddyAllocator] and of writes of its clients to their own blocks.  No
    history damages the allocator, and when everything has been freed its free
    lists hold what they held after [init]: no memory is lost to fragments. *)

From Stdlib Require Import ZArith Lia.
From stdpp Require Import base list gmap option sets relations.
From S2P Require Import Prelude Memory DList Buddy BuddyPartition BuddyInv BuddySpec BuddyInit.

(** ** Histories *)

Inductive op :=
| Alloc (size : Z)
| AllocOrder (order : Z)
| Free (block : Z)
| FreeOrder (block order : Z)
| Write (a v : Z).

(** The heap and the live allocations, by block. *)
Definition client : Type := heap * gmap Z Z.

Definition hand_out (A : gmap Z Z) (k p : Z) : gmap Z Z :=
  if p =? 0 then A else <[p - sizeof_buddy_block := k]> A.

Definition run_op (o : op) (st : client) : outcome client :=
  let '(h, A) := st in
  match o with
  | Alloc size =>
      let* order := get_order size in
      let* r := alloc h size in
      Done (snd r, hand_out A order (fst r))
  | AllocOrder order =>
      let* r := alloc_order h order in
      Done (snd r, hand_out A order (fst r))
  | Free b => let* h := free h (b + sizeof_buddy_block) in Done (h, delete b A)
  | FreeOrder b order => let* h := free_order h (b + sizeof_buddy_block) order in Done (h, delete b A)
  | Write a v => Done (hstore h a v, A)
  end.

(** What clients may do: arguments are 32-bit numbers, only live blocks are
    freed, with their order, and only aligned words of live blocks are
    written. *)
Definition allowed (A : gmap Z Z) (o : op) : Prop :=
  match o with
  | Alloc size => 0 <= size < 2 ^ 32
  | AllocOrder order => 0 <= order < 2 ^ 32
  | Free b => is_Some (A !! b)
  | FreeOrder b order => A !! b = Some order
  | Write a v => (4 | a) ∧ user_area A a
  end.

Definition step (st st' : client) : Prop :=
  ∃ o, allowed (snd st) o ∧ run_op o st = Done st'.

(** ** Every step returns and keeps the allocator well formed *)

(** The region does not move. *)
Definition same_region (h h' : heap) : Prop := zstart h' = zstart h ∧ zend h' = zend h.

Lemma heap_step_region A h h' : heap_step A h h' → same_region h h'.
Proof. by intros (? & ? & _). Qed.

Definition good_step (st : client) (r : outcome client) : Prop :=
  ∃ h' A', r = Done (h', A') ∧ buddy_ok h' A' ∧ same_region (fst st) h'.

Lemma alloc_order_good h A k :
  buddy_ok h A → 0 <= k →
  good_step (h, A) (let* r := alloc_order h k in Done (snd r, hand_out A k (fst r))).
Proof.
  intros Hok Hk. destruct (decide (k <= MAX_ORDER)).
  - destruct (alloc_order_returns h A k Hok ltac:(lia)) as [[-> _]|(p & h' & -> & b & -> & Hp & _ & Hok' & Hst)].
    + by exists h, A.
    + exists h', (<[b := k]> A). cbn [obind fst snd]. unfold hand_out.
      rewrite (proj2 (Z.eqb_neq _ 0)), Z.add_simpl_r by done. split; [done|]. split; [done|].
      by eapply heap_step_region.
  - unfold alloc_order. rewrite (proj2 (Z.ltb_lt MAX_ORDER k)) by lia. by exists h, A.
Qed.

Lemma run_op_good o h A :
  buddy_ok h A → allowed A o → good_step (h, A) (run_op o (h, A)).
Proof.
  intros Hok. destruct o as [size|k|b|b k|a v]; cbn [allowed run_op].
  - intros Hs. destruct (get_order_returns size Hs) as (k & E & Hk & _). rewrite E. cbn [obind].
    unfold alloc. rewrite E. case_if; [by exists h, A|]. apply alloc_order_good; [done|lia].
  - intros Hk. apply alloc_order_good; [done|lia].
  - intros [k HA]. destruct (free_live h A b k Hok HA) as (h' & -> & Hok' & Hst & _).
    exists h', (delete b A). split; [done|]. split; [done|]. by eapply heap_step_region.
  - intros HA. destruct (free_order_live h A b k Hok HA) as (h' & -> & Hok' & Hst & _).
    exists h', (delete b A). split; [done|]. split; [done|]. by eapply heap_step_region.
  - intros [_ Ha]. exists (hstore h a v), A. split; [done|]. split; [|done].
    apply (client_writes_ok h); [done|]. by apply only_writes_hstore.
Qed.

Lemma steps_ok st st' :
  rtc step st st' → buddy_ok (fst st) (snd st) →
  buddy_ok (fst st') (snd st') ∧ same_region (fst st) (fst st').
Proof.
  induction 1 as [st|[h1 A1] [h2 A2] st3 (o & Ho & E) _ IH]; [done|].
  intros Hok. destruct (run_op_good o h1 A1 Hok Ho) as (h' & A' & E' & Hok' & Es & Ee).
  assert ((h', A') = (h2, A2)) as [= -> ->] by congruence.
  destruct (IH Hok') as [Hok3 [Es3 Ee3]]. split; [done|]. unfold same_region in *. simpl in *.
  split; congruence.
Qed.

(** ** Nothing is lost *)

(** Both heaps have the same blocks on the free list of order [k]. *)
Definition same_list (h h' : heap) (k : Z) : Prop :=
  ∃ l l', dlist bb_next bb_prev (hmem h) (flist h k) l ∧ dlist bb_next bb_prev (hmem h') (flist h' k) l' ∧
    l ≡ₚ l' ∧ zget 0 (free_blocks (zone h)) k = zget 0 (free_blocks (zone h')) k.

Lemma wf_all_free h B : wf h B ∅ ∅ → ∀ b k, B !! b ≠ Some (k, true).
Proof.
  intros Hwf b k HB. pose proof (proj2 (wf_live _ _ _ _ Hwf b k) (conj HB (not_elem_of_empty b))) as E.
  by rewrite lookup_empty in E.
Qed.

Lemma all_free_same_list h h' k :
  buddy_ok h ∅ → buddy_ok h' ∅ → same_region h h' → 0 <= k <= MAX_ORDER → same_list h h' k.
Proof.
  intros [B Hwf] [B' Hwf'] [Es Ee] Hk.
  destruct (wf_list _ _ _ _ Hwf k Hk) as (l & Hd & Hc & Hm).
  destruct (wf_list _ _ _ _ Hwf' k Hk) as (l' & Hd' & Hc' & Hm').
  pose proof (wf_shape _ _ _ _ Hwf) as Hsh. pose proof (wf_maximal _ _ _ _ Hwf) as HM.
  pose proof (wf_shape _ _ _ _ Hwf') as Hsh'. pose proof (wf_maximal _ _ _ _ Hwf') as HM'.
  rewrite Es, ?Ee in *. pose proof (wf_all_free _ _ Hwf). pose proof (wf_all_free _ _ Hwf').
  assert (l ≡ₚ l') as Hp.
  { pose proof Hd as (_ & _ & Hnd & _). pose proof Hd' as (_ & _ & Hnd' & _).
    apply NoDup_Permutation; [done..|]. intros b. rewrite Hm, Hm'.
    split; by eapply maximal_subset. }
  exists l, l'. split; [done|]. split; [done|]. split; [done|]. by rewrite Hc, Hc', Hp.
Qed.

Lemma alloc_null h A size :
  buddy_ok h A → 0 < size < 2 ^ 32 →
  ∃ k, get_order size = Done k ∧ 0 <= k <= MAX_ORDER ∧
    (alloc h size = Done (0, h) ↔ ∀ q, ¬ room_at h A k q).
Proof.
  intros Hok Hs. destruct (get_order_returns size ltac:(lia)) as (k & E & Hk & _).
  destruct (alloc_returns h A size Hok Hs) as (k' & E' & Ha). assert (k' = k) as -> by congruence.
  exists k. split; [done|]. split; [done|]. destruct Ha as [[Ha Hno]|(p & h' & Ha & b & -> & Hp & HA & Hok' & Hst)].
  - split; [|done]. intros _. by apply (no_room h A k Hok Hk).
  - rewrite Ha. split; [by intros [=]|]. intros Hno. destruct (Hno b). by eapply new_block_room.
Qed.

Lemma same_failures h h' size :
  buddy_ok h ∅ → buddy_ok h' ∅ → same_region h h' → 0 < size < 2 ^ 32 →
  alloc h size = Done (0, h) ↔ alloc h' size = Done (0, h').
Proof.
  intros Hok Hok' [Es Ee] Hs.
  destruct (alloc_null h ∅ size Hok Hs) as (k & E & _ & ->).
  destruct (alloc_null h' ∅ size Hok' Hs) as (k' & E' & _ & ->).
  assert (k' = k) as -> by congruence. unfold room_at. by rewrite Es, Ee.
Qed.

(** C3. No history of the buddy allocator damages it or loses memory.  After
    [init] of a region and any allowed sequence of allocations, frees and
    writes, every operation a client may do next returns; and if all blocks
    have been freed, every free list holds the blocks it held after [init],
    in some order, with the same counter, no block is counted as allocated,
    and [alloc] fails for the sizes for which it failed after [init]. *)
Theorem history_spec m s size h0 h A :
  (4096 | s) → 0 < s → 0 <= size → (4096 | size) → s + size < 2 ^ 32 →
  init m s size = Done h0 → rtc step (h0, ∅) (h, A) →
  (∀ o, allowed A o → ∃ st', run_op o (h, A) = Done st') ∧
  (A = ∅ → allocated_blocks (zone h) = 0 ∧ (∀ k, 0 <= k <= MAX_ORDER → same_list h0 h k) ∧
     ∀ n, 0 < n < 2 ^ 32 → alloc h0 n = Done (0, h0) ↔ alloc h n = Done (0, h)).
Proof.
  intros Hs Hs0 Hsz Hal Hmax E Hr.
  destruct (init_returns m s size Hs Hs0 Hsz Hal Hmax) as (h0' & E' & Hok0 & _).
  assert (h0' = h0) as -> by congruence.
  destruct (steps_ok _ _ Hr Hok0) as [Hok Hreg]. cbn [fst snd] in *. split.
  - intros o Ho. destruct (run_op_good o h A Hok Ho) as (h' & A' & Eo & _). by eexists.
  - intros ->. split; [by destruct Hok as [B Hwf]; rewrite (wf_count _ _ _ _ Hwf)|]. split.
    + intros k Hk. by apply all_free_same_list.
    + intros n Hn. by apply same_failures.
Qed.

(** A region of four pages; two blocks of different orders are allocated, one
    is written to, and they are freed in the same order: the first [free] finds
    its buddy cut in two, the second merges everything into one block again. *)
Definition four_pages : heap := Eval vm_compute in
  match init ∅ 0x1000000 0x4000 with Done h => h | _ => mk_heap ∅ (mk_zone [] [] 0 0 0 0) end.

Definition two_blocks : client := Eval vm_compute in
  match run_op (Alloc 5000) (four_pages, ∅) with
  | Done st => match run_op (Alloc 100) st with Done st => st | _ => (four_pages, ∅) end
  | _ => (four_pages, ∅)
  end.

Definition all_freed : heap := Eval vm_compute in
  match run_op (Free 0x1000000) (hstore (fst two_blocks) 0x1000020 77, snd two_blocks) with
  | Done st => match run_op (FreeOrder 0x1002000 0) st with Done st => fst st | _ => four_pages end
  | _ => four_pages
  end.

Lemma history_spec_witness :
  (∀ o, allowed ∅ o → ∃ st', run_op o (all_freed, ∅) = Done st') ∧
  (∅ = (∅ : gmap Z Z) → allocated_blocks (zone all_freed) = 0 ∧
     (∀ k, 0 <= k <= MAX_ORDER → same_list four_pages all_freed k) ∧
     ∀ n, 0 < n < 2 ^ 32 → alloc four_pages n = Done (0, four_pages) ↔ alloc all_freed n = Done (0, all_freed)).
Proof.
  apply (history_spec ∅ 0x1000000 0x4000 four_pages all_freed ∅);
    [by exists 4096|reflexivity|discriminate|by exists 4|reflexivity|vm_compute; reflexivity|].
  eapply rtc_l; [exists (Alloc 5000); split; [split; [discriminate|reflexivity]|vm_compute; reflexivity]|].
  eapply rtc_l; [exists (Alloc 100); split; [split; [discriminate|reflexivity]|vm_compute; reflexivity]|].
  eapply rtc_l; [exists (Write 0x1000020 77); split; [|vm_compute; reflexivity]|].
  { split; [by exists 0x400008|]. exists 0x1000000, 1. split; [reflexivity|]. split; [discriminate|reflexivity]. }
  eapply rtc_l; [exists (Free 0x1000000); split; [by exists 1|vm_compute; reflexivity]|].
  eapply rtc_l; [exists (FreeOrder 0x1002000 0); split; [reflexivity|vm_compute; reflexivity]|].
  apply rtc_refl.
Defined.
