(* ===== verification/Strings.v ===== *)
(** C strings and raw memory: [src/src/kernel/runtime/string.cc] and [itoa.cc].

    A [char *] is an address in the byte view of the kernel memory
    ([load8]/[store8]).  The functions that scan for the terminator take the
    fuel of their loop; every theorem says how much is enough. *)

From Stdlib Require Import ZArith Lia.
From stdpp Require Import base list gmap option.
From S2P Require Import Prelude Memory.

(** A [char] is signed on the i386. *)
Definition s8 (z : Z) : Z := (z + 128) mod 256 - 128.

(** ** The functions of [string.cc] *)

Definition strlen (fuel : nat) (m : mem) (s : Z) : outcome Z :=
  loop fuel (fun '(s, i) => Done (if load8 m s =? 0 then inr i else inl (s + 1, i + 1))) (s, 0).

Definition strncpy (m : mem) (dest src maxLength : Z) : outcome (Z * mem) :=
  if (dest =? 0) || (src =? 0) then Done (0, m)
  else
    let maxLength := if 255 <? maxLength then 255 else maxLength in
    let* (count, m) := loop 256
      (fun '(count, m) =>
         if negb (count <? maxLength) then Done (inr (count, m))
         else
           let m := store8 m (dest + count) (load8 m (src + count)) in
           if load8 m (src + count) =? 0 then Done (inr (count, m))
           else Done (inl (count + 1, m))) (0, m) in
    Done (if 255 <=? count then 0 else dest, m).

Definition strcmp (fuel : nat) (m : mem) (dst src : Z) : outcome Z :=
  loop fuel
    (fun i =>
       Done (if load8 m (dst + i) =? load8 m (src + i)
             then if load8 m (src + i) =? 0 then inr 0 else inl (i + 1)
             else inr 1)) 0.

Definition strcpy (fuel : nat) (m : mem) (dst src : Z) : outcome (Z * mem) :=
  loop fuel
    (fun '(i, m) =>
       let c := load8 m (src + i) in
       let m := store8 m (dst + i) c in
       Done (if c =? 0 then inr (i, m) else inl (i + 1, m))) (0, m).

Definition memcpy (m : mem) (dest src n : Z) : mem :=
  for_ n (fun i m => store8 m (dest + i) (load8 m (src + i))) m.

Definition memset (m : mem) (s c n : Z) : mem :=
  for_ n (fun i m => store8 m (s + i) c) m.

Definition strcat (fuel : nat) (m : mem) (dest src : Z) : outcome mem :=
  let* d := strlen fuel m dest in
  let* n := strlen fuel m src in
  Done (memcpy m (dest + d) src n).

Definition strncmp (fuel : nat) (m : mem) (s1 s2 c : Z) : outcome Z :=
  loop fuel
    (fun '(s1, s2, c, result) =>
       Done (if c =? 0 then inr result
             else
               let result := s8 (load8 m s1) - s8 (load8 m s2) in
               if negb (result =? 0) || (load8 m s1 =? 0) then inr result
               else inl (s1 + 1, s2 + 1, c - 1, result))) (s1, s2, c, 0).

Definition strchr (fuel : nat) (m : mem) (s c : Z) : outcome Z :=
  let ch := u8 c in
  loop fuel
    (fun s =>
       Done (if load8 m s =? 0 then inr (if ch =? 0 then s else 0)
             else if load8 m s =? ch then inr s else inl (s + 1))) s.

Definition strrchr (fuel : nat) (m : mem) (s c : Z) : outcome Z :=
  let ch := u8 c in
  loop fuel
    (fun '(s, last) =>
       Done (if load8 m s =? 0 then inr (if ch =? 0 then s else last)
             else inl (s + 1, if load8 m s =? ch then s else last))) (s, 0).

(** ** [itoa]: digits least significant first, then reversed in place *)

Definition itoa_digit (tmp : Z) : Z := if tmp <? 10 then tmp + 48 else tmp + 97 - 10.

(** One round of the [do ... while (n /= base)] loop. *)
Definition itoa_step (buf base : Z) : mem * Z * Z → outcome (mem * Z * Z + mem * Z) :=
  fun '(m, n, i) =>
    if base =? 0 then Stuck
    else
      let m := store8 m (buf + i) (itoa_digit (n mod base)) in
      let i := i + 1 in
      let n := n / base in
      Done (if n =? 0 then inr (m, i) else inl (m, n, i)).

Definition itoa_digits (m : mem) (buf n base : Z) : outcome (mem * Z) :=
  loop 33 (itoa_step buf base) (m, n, 0).

(** One swap of the reversing loop. *)
Definition itoa_swap (buf : Z) : mem * Z * Z → mem * Z * Z :=
  fun '(m, j, i) =>
    let tmp := load8 m (buf + j) in
    let m := store8 m (buf + j) (load8 m (buf + i)) in
    let m := store8 m (buf + i) tmp in
    (m, j + 1, i - 1).

Definition itoa_reverse (m : mem) (buf i : Z) : outcome mem :=
  let* (m, _, _) := while 33 (fun '(_, j, i) => j <? i) (itoa_swap buf) (m, 0, i) in
  Done m.

Definition itoa (m : mem) (buf n base : Z) : outcome mem :=
  let* (m, i) := itoa_digits m buf n base in
  let m := store8 m (buf + i) 0 in
  itoa_reverse m buf (i - 1).

(** ** Strings in memory *)

(** The non-zero bytes [s], then the terminator, from [a]. *)
Fixpoint cstr (m : mem) (a : Z) (s : list Z) : Prop :=
  match s with
  | [] => load8 m a = 0
  | c :: s => load8 m a = c ∧ 0 < c < 256 ∧ cstr m (a + 1) s
  end.

(** The bytes [l] from [a]. *)
Fixpoint bytes (m : mem) (a : Z) (l : list Z) : Prop :=
  match l with
  | [] => True
  | c :: l => load8 m a = c ∧ bytes m (a + 1) l
  end.

Lemma cstr_bytes m a s : cstr m a s → bytes m a s.
Proof. revert a. induction s as [|c s IH]; simpl; [done|]. intros a (? & _ & ?). auto. Qed.

Lemma cstr_end m a s : cstr m a s → load8 m (a + zlen s) = 0.
Proof.
  revert a. induction s as [|c s IH]; intros a H; simpl in H.
  - by rewrite Z.add_0_r.
  - rewrite zlen_cons, Z.add_assoc. apply IH, H.
Qed.

Lemma cstr_nonzero m a s : cstr m a s → Forall (λ c, 0 < c < 256) s.
Proof. revert a. induction s as [|c s IH]; intros a H; constructor; [apply H|eapply IH, H]. Qed.

Lemma cstr_intro m a s :
  bytes m a s → Forall (λ c, 0 < c < 256) s → load8 m (a + zlen s) = 0 → cstr m a s.
Proof.
  revert a. induction s as [|c s IH]; intros a Hb Hf He; simpl.
  - by rewrite Z.add_0_r in He.
  - destruct Hb as [? Hb]. apply list.Forall_cons_1 in Hf as [? Hf]. rewrite zlen_cons, Z.add_assoc in He. auto.
Qed.

Lemma bytes_frame m m' a l :
  (∀ x, a <= x < a + zlen l → load8 m' x = load8 m x) → bytes m a l → bytes m' a l.
Proof.
  revert a. induction l as [|c l IH]; intros a Hm; simpl; [done|].
  pose proof (zlen_nonneg l). rewrite zlen_cons in Hm.
  intros [? Hb]. split; [rewrite Hm; [done|lia]|]. apply IH; [|done]. intros x Hx. apply Hm. lia.
Qed.

Lemma cstr_frame m m' a s :
  (∀ x, a <= x <= a + zlen s → load8 m' x = load8 m x) → cstr m a s → cstr m' a s.
Proof.
  intros Hm H. apply cstr_intro.
  - apply (bytes_frame m); [|by apply cstr_bytes]. intros x Hx. apply Hm. lia.
  - by eapply cstr_nonzero.
  - rewrite Hm by (pose proof (zlen_nonneg s); lia). by apply cstr_end.
Qed.

(** ** Scanning *)

Lemma strlen_loop m s a i fuel :
  cstr m a s → (length s < fuel)%nat →
  loop fuel (fun '(s, i) => Done (if load8 m s =? 0 then inr i else inl (s + 1, i + 1))) (a, i)
  = Done (i + zlen s).
Proof.
  revert a i fuel. induction s as [|c s IH]; intros a i [|fuel] Hs Hf; simpl in *; try lia.
  - rewrite Hs. simpl. by rewrite Z.add_0_r.
  - destruct Hs as (-> & Hc & Hs). rewrite (proj2 (Z.eqb_neq c 0)) by lia. simpl.
    rewrite IH by (done || lia). rewrite zlen_cons. f_equal. lia.
Qed.

Lemma strlen_spec fuel m a s :
  cstr m a s → (length s < fuel)%nat → strlen fuel m a = Done (zlen s).
Proof. apply strlen_loop. Qed.

(** [strcmp] returns on any two strings, 0 exactly when they are equal and
    1 otherwise (it does not order them). *)
Theorem strcmp_spec fuel m a b s t :
  cstr m a s → cstr m b t → (length s < fuel)%nat →
  strcmp fuel m a b = Done (if decide (s = t) then 0 else 1).
Proof.
  unfold strcmp. intros Hs Ht Hf.
  cut (∀ i, cstr m (a + i) s → cstr m (b + i) t →
    loop fuel (fun i => Done (if load8 m (a + i) =? load8 m (b + i)
             then if load8 m (b + i) =? 0 then inr 0 else inl (i + 1) else inr 1)) i
    = Done (if decide (s = t) then 0 else 1)).
  { intros H. apply H; by rewrite Z.add_0_r. }
  clear Hs Ht. revert t fuel Hf.
  induction s as [|c s IH]; intros [|d t] [|fuel] Hf i Hs Ht; simpl in *; try lia.
  - by rewrite Hs, Ht.
  - destruct Ht as (-> & ? & _). rewrite Hs. by rewrite (proj2 (Z.eqb_neq 0 d)) by lia.
  - destruct Hs as (-> & ? & _). rewrite Ht. by rewrite (proj2 (Z.eqb_neq c 0)) by lia.
  - destruct Hs as (-> & ? & Hs), Ht as (-> & ? & Ht).
    destruct (Z.eqb_spec c d) as [->|Hne]; simpl.
    + rewrite (proj2 (Z.eqb_neq d 0)) by lia. simpl. rewrite (IH t fuel); [|lia|by rewrite Z.add_assoc..].
      f_equal. destruct (decide (s = t)) as [->|]; [by rewrite decide_True|rewrite decide_False; congruence].
    + rewrite decide_False; [done|congruence].
Qed.

(** [strchr] returns the address of the first occurrence of the character,
    of the terminator for the character 0, and null when it does not occur. *)
Theorem strchr_spec fuel m a s c :
  cstr m a s → (length s < fuel)%nat →
  ∃ r, strchr fuel m a c = Done r ∧
    (u8 c = 0 ∧ r = a + zlen s ∨
     u8 c ≠ 0 ∧ (u8 c ∉ s ∧ r = 0 ∨
       ∃ s1 s2, s = s1 ++ u8 c :: s2 ∧ u8 c ∉ s1 ∧ r = a + zlen s1)).
Proof.
  unfold strchr. set (ch := u8 c). revert a fuel.
  induction s as [|x s IH]; intros a [|fuel] Hs Hf; cbn [length] in Hf; try lia; cbn [loop]; simpl in Hs.
  - rewrite Hs. simpl. eexists. split; [done|]. destruct (Z.eqb_spec ch 0) as [->|?].
    + left. unfold zlen. simpl. split; [done|lia].
    + right. split; [done|]. left. split; [apply not_elem_of_nil|done].
  - destruct Hs as (-> & Hx & Hs). rewrite (proj2 (Z.eqb_neq x 0)) by lia. simpl.
    destruct (Z.eqb_spec x ch) as [->|Hne]; simpl.
    + eexists. split; [done|]. right. split; [lia|]. right. exists [], s.
      split; [done|]. split; [apply not_elem_of_nil|]. unfold zlen. simpl. lia.
    + destruct (IH (a + 1) fuel Hs ltac:(lia)) as (r & E & Hr). rewrite E.
      exists r. split; [done|]. destruct Hr as [[? ->]|(? & [[Hni ->]|(s1 & s2 & -> & Hni & ->)])].
      * left. rewrite zlen_cons. split; [done|lia].
      * right. split; [done|]. left. split; [|done]. by apply not_elem_of_cons.
      * right. split; [done|]. right. exists (x :: s1), s2. split; [done|].
        split; [by apply not_elem_of_cons|]. rewrite zlen_cons. lia.
Qed.

(** [strrchr] returns the address of the last occurrence of the character,
    of the terminator for the character 0, and null when it does not occur. *)
Theorem strrchr_spec fuel m a s c :
  cstr m a s → (length s < fuel)%nat →
  ∃ r, strrchr fuel m a c = Done r ∧
    (u8 c = 0 ∧ r = a + zlen s ∨
     u8 c ≠ 0 ∧ (u8 c ∉ s ∧ r = 0 ∨
       ∃ s1 s2, s = s1 ++ u8 c :: s2 ∧ u8 c ∉ s2 ∧ r = a + zlen s1)).
Proof.
  unfold strrchr. set (ch := u8 c). intros Hs Hf.
  cut (∀ s a fuel last, cstr m a s → (length s < fuel)%nat →
    ∃ r, loop fuel (fun '(s, last) =>
       Done (if load8 m s =? 0 then inr (if ch =? 0 then s else last)
             else inl (s + 1, if load8 m s =? ch then s else last))) (a, last) = Done r ∧
    (ch = 0 ∧ r = a + zlen s ∨
     ch ≠ 0 ∧ (ch ∉ s ∧ r = last ∨
       ∃ s1 s2, s = s1 ++ ch :: s2 ∧ ch ∉ s2 ∧ r = a + zlen s1))).
  { intros H. by apply H. }
  clear s a fuel Hs Hf.
  induction s as [|x s IH]; intros a [|fuel] last Hs Hf; cbn [length] in Hf; try lia; cbn [loop]; simpl in Hs.
  - rewrite Hs. simpl. eexists. split; [done|]. destruct (Z.eqb_spec ch 0) as [->|?].
    + left. unfold zlen. simpl. split; [done|lia].
    + right. split; [done|]. left. split; [apply not_elem_of_nil|done].
  - destruct Hs as (-> & Hx & Hs). rewrite (proj2 (Z.eqb_neq x 0)) by lia. simpl.
    destruct (IH (a + 1) fuel (if x =? ch then a else last) Hs ltac:(lia)) as (r & E & Hr). rewrite E.
    exists r. split; [done|]. rewrite zlen_cons.
    destruct Hr as [[? ->]|(? & [[Hni ->]|(s1 & s2 & -> & Hni & ->)])]; [left; split; [done|lia]|right; split; [done|]..].
    + destruct (Z.eqb_spec x ch) as [->|Hne].
      * right. exists [], s. split; [done|]. split; [done|]. unfold zlen. simpl. lia.
      * left. split; [by apply not_elem_of_cons|done].
    + right. exists (x :: s1), s2. split; [done|]. split; [done|]. rewrite zlen_cons. lia.
Qed.

(** [strncmp] returns, and it returns 0 exactly when the two strings agree
    on their first [c] characters (or are equal before that). *)
Theorem strncmp_spec fuel m a b s t c :
  cstr m a s → cstr m b t → 0 <= c → (length s < fuel)%nat →
  ∃ r, strncmp fuel m a b c = Done r ∧
    (r = 0 ↔ take (Z.to_nat c) s = take (Z.to_nat c) t).
Proof.
  unfold strncmp. intros Hs Ht Hc Hf. set (body := fun '(s1, s2, c, result) => _).
  cut (∀ s t fuel a b c, cstr m a s → cstr m b t → 0 <= c → (length s < fuel)%nat →
    ∃ r, loop fuel body (a, b, c, 0) = Done r ∧
    (r = 0 ↔ take (Z.to_nat c) s = take (Z.to_nat c) t)).
  { intros H. by apply H. }
  clear s t fuel a b c Hs Ht Hc Hf.
  assert (∀ x y, 0 <= x < 256 → 0 <= y < 256 → s8 x - s8 y = 0 → x = y) as Hinj.
  { intros x y Hx Hy. unfold s8. pose proof (Z.div_mod (x + 128) 256 ltac:(lia)).
    pose proof (Z.div_mod (y + 128) 256 ltac:(lia)).
    pose proof (Z.mod_pos_bound (x + 128) 256 ltac:(lia)). pose proof (Z.mod_pos_bound (y + 128) 256 ltac:(lia)).
    lia. }
  induction s as [|x s IH]; intros t [|fuel] a b c Hs Ht Hc Hf; cbn [length] in Hf; try lia;
    cbn [loop]; unfold body at 1; destruct (Z.eqb_spec c 0) as [->|Hc0]; simpl;
    try (eexists; split; [done|]; by rewrite !take_0);
    (assert (Z.to_nat c = S (Z.to_nat (c - 1))) as -> by lia); cbn [take].
  - simpl in Hs. rewrite Hs. destruct t as [|y t]; simpl in Ht.
    + rewrite Ht. simpl. by eexists.
    + destruct Ht as (-> & Hy & _). change (s8 0) with 0.
      destruct (Z.eqb_spec (0 - s8 y) 0) as [E|E]; simpl; (eexists; split; [done|]).
      * exfalso. pose proof (Hinj 0 y ltac:(lia) ltac:(lia)). change (s8 0) with 0 in *. lia.
      * split; [lia|done].
  - simpl in Hs. destruct Hs as (-> & Hx & Hs).
    destruct t as [|y t]; simpl in Ht.
    + rewrite Ht. change (s8 0) with 0. destruct (Z.eqb_spec (s8 x - 0) 0) as [E|E]; simpl.
      * exfalso. pose proof (Hinj x 0 ltac:(lia) ltac:(lia)). change (s8 0) with 0 in *. lia.
      * eexists. split; [done|]. split; [lia|done].
    + destruct Ht as (-> & Hy & Ht). destruct (Z.eqb_spec (s8 x - s8 y) 0) as [E|E]; simpl.
      * assert (x = y) as -> by (apply Hinj; lia). rewrite (proj2 (Z.eqb_neq y 0)) by lia. simpl.
        rewrite E. destruct (IH t fuel (a + 1) (b + 1) (c - 1) Hs Ht ltac:(lia) ltac:(lia)) as (r & -> & Hr).
        exists r. split; [done|]. rewrite Hr. split; [by intros ->|congruence].
      * eexists. split; [done|]. split; [done|]. intros [= -> _]. lia.
Qed.

(** ** Writing *)

Lemma cstr_store8 m a s x v :
  x < a ∨ a + zlen s < x → cstr m a s → cstr (store8 m x v) a s.
Proof. intros Hx. apply cstr_frame. intros y Hy. apply load8_store8_ne. lia. Qed.

(** [memcpy] copies [n] bytes, when the destination is not inside the
    source past its start (a forward copy), and writes nothing else. *)
Theorem memcpy_spec m dest src n :
  0 <= n → dest <= src ∨ src + n <= dest →
  (∀ i, 0 <= i < n → load8 (memcpy m dest src n) (dest + i) = load8 m (src + i)) ∧
  (∀ x, x < dest ∨ dest + n <= x → load8 (memcpy m dest src n) x = load8 m x).
Proof.
  intros Hn Hov. unfold memcpy.
  assert ((∀ i, 0 <= i < n → load8 (for_ n (fun i m => store8 m (dest + i) (load8 m (src + i))) m) (dest + i) = load8 m (src + i)) ∧
    (∀ x, x < dest ∨ dest + n <= x → load8 (for_ n (fun i m => store8 m (dest + i) (load8 m (src + i))) m) x = load8 m x)); [|done].
  apply (for_inv (fun k m' =>
    (∀ i, 0 <= i < k → load8 m' (dest + i) = load8 m (src + i)) ∧
    (∀ x, x < dest ∨ dest + k <= x → load8 m' x = load8 m x))); [done|split; [lia|done]|].
  intros j m' Hj [Hc Ho]. split.
  - intros i Hi. destruct (decide (i = j)) as [->|].
    + rewrite load8_store8_eq, u8_small by apply load8_range. apply Ho. lia.
    + rewrite load8_store8_ne by lia. apply Hc. lia.
  - intros x Hx. rewrite load8_store8_ne by lia. apply Ho. lia.
Qed.

Lemma memset_spec m s c n :
  0 <= n →
  (∀ i, 0 <= i < n → load8 (memset m s c n) (s + i) = u8 c) ∧
  (∀ x, x < s ∨ s + n <= x → load8 (memset m s c n) x = load8 m x).
Proof.
  intros Hn.
  apply (for_inv (fun k m' =>
    (∀ i, 0 <= i < k → load8 m' (s + i) = u8 c) ∧
    (∀ x, x < s ∨ s + k <= x → load8 m' x = load8 m x))); [done|split; [lia|done]|].
  intros j m' Hj [Hc Ho]. split.
  - intros i Hi. destruct (decide (i = j)) as [->|]; [apply load8_store8_eq|].
    rewrite load8_store8_ne by lia. apply Hc. lia.
  - intros x Hx. rewrite load8_store8_ne by lia. apply Ho. lia.
Qed.

Lemma bytes_lookup m a l :
  bytes m a l ↔ ∀ i c, l !! i = Some c → load8 m (a + Z.of_nat i) = c.
Proof.
  revert a. induction l as [|x l IH]; intros a; simpl.
  - split; [|done]. intros _ i c. by rewrite lookup_nil.
  - rewrite IH. split.
    + intros [Hx H] [|i] c; simpl; [intros [= <-]; by rewrite Z.add_0_r|].
      intros Hc. replace (a + Z.of_nat (S i)) with (a + 1 + Z.of_nat i) by lia. auto.
    + intros H. split; [rewrite <- (Z.add_0_r a); by apply (H 0%nat)|]. intros i c Hc.
      replace (a + 1 + Z.of_nat i) with (a + Z.of_nat (S i)) by lia. by apply H.
Qed.

Lemma bytes_copy m m' a b l :
  bytes m a l → (∀ i, 0 <= i < zlen l → load8 m' (b + i) = load8 m (a + i)) → bytes m' b l.
Proof.
  rewrite !bytes_lookup. intros H Hc i c Hi. rewrite Hc; [by apply H|].
  apply lookup_lt_Some in Hi. unfold zlen. lia.
Qed.

(** [strcpy] returns the length and makes an equal string at the
    destination, when the two ranges do not overlap; it writes nothing else. *)
Theorem strcpy_spec fuel m dst src s :
  cstr m src s → (length s < fuel)%nat → dst + zlen s < src ∨ src + zlen s < dst →
  ∃ m', strcpy fuel m dst src = Done (zlen s, m') ∧ cstr m' dst s ∧
    (∀ x, x < dst ∨ dst + zlen s < x → load8 m' x = load8 m x).
Proof.
  intros Hs Hf Hov. unfold strcpy. set (body := fun '(i, m) => _).
  cut (∀ s fuel m i, cstr m (src + i) s → (length s < fuel)%nat → 0 <= i →
    dst + i + zlen s < src ∨ src + i + zlen s < dst →
    ∃ m', loop fuel body (i, m) = Done (i + zlen s, m') ∧ cstr m' (dst + i) s ∧
      (∀ x, x < dst + i ∨ dst + i + zlen s < x → load8 m' x = load8 m x)).
  { intros H. destruct (H s fuel m 0) as (m' & E & Hc & Ho); rewrite ?Z.add_0_r; try done.
    rewrite Z.add_0_r in *. by exists m'. }
  clear s fuel m Hs Hf Hov.
  induction s as [|c s IH]; intros [|fuel] m i Hs Hf Hi Hov; cbn [length] in Hf; try lia; simpl in Hs;
    cbn [loop]; unfold body at 1.
  - rewrite Hs. simpl. unfold zlen. simpl. exists (store8 m (dst + i) 0). rewrite Z.add_0_r.
    split; [done|]. split; [apply load8_store8_eq|]. intros x Hx. apply load8_store8_ne. lia.
  - destruct Hs as (-> & Hc & Hs). rewrite (proj2 (Z.eqb_neq c 0)) by lia. cbn [obind].
    rewrite zlen_cons in *. pose proof (zlen_nonneg s).
    destruct (IH fuel (store8 m (dst + i) c) (i + 1)) as (m' & E & Hc' & Ho); [|lia..|].
    { rewrite Z.add_assoc. apply cstr_store8; [lia|done]. }
    exists m'. split; [rewrite E; do 2 f_equal; lia|]. split; [split; [|split; [done|]]|].
    + rewrite Ho by lia. rewrite load8_store8_eq. apply u8_small; lia.
    + by rewrite Z.add_assoc in Hc'.
    + intros x Hx. rewrite Ho by lia. apply load8_store8_ne. lia.
Qed.

(** [strcat] appends the characters of the source but not its terminator:
    the byte behind them is whatever was there, so the result is a string of
    the concatenation only if that byte was already 0. *)
Theorem strcat_spec fuel m dest src d s :
  cstr m dest d → cstr m src s → (length d < fuel)%nat → (length s < fuel)%nat →
  dest + zlen d + zlen s < src ∨ src + zlen s < dest →
  ∃ m', strcat fuel m dest src = Done m' ∧ bytes m' dest (d ++ s) ∧
    (∀ x, x < dest + zlen d ∨ dest + zlen d + zlen s <= x → load8 m' x = load8 m x).
Proof.
  intros Hd Hs Hf1 Hf2 Hov. unfold strcat.
  rewrite (strlen_spec _ _ _ _ Hd Hf1), (strlen_spec _ _ _ _ Hs Hf2). cbn [obind].
  pose proof (zlen_nonneg d). pose proof (zlen_nonneg s).
  destruct (memcpy_spec m (dest + zlen d) src (zlen s)) as [Hc Ho]; [done|lia|].
  eexists. split; [done|]. split; [|done].
  rewrite bytes_lookup. intros i c. rewrite lookup_app_Some.
  intros [Hi|[Hle Hi]]; pose proof (lookup_lt_Some _ _ _ Hi).
  - rewrite Ho by (unfold zlen; lia). by apply (proj1 (bytes_lookup _ _ _) (cstr_bytes _ _ _ Hd)).
  - replace (dest + Z.of_nat i) with (dest + zlen d + Z.of_nat (i - length d)) by (unfold zlen; lia).
    rewrite Hc by (unfold zlen; lia). by apply (proj1 (bytes_lookup _ _ _) (cstr_bytes _ _ _ Hs)).
Qed.

(** [strncpy] copies the string, or its first [n] characters when it is
    longer, and never more than 255 bytes; it neither pads nor terminates a
    truncated copy, and it answers null for every copy of 255 bytes or more. *)
Theorem strncpy_spec m dest src s n :
  cstr m src s → dest ≠ 0 → src ≠ 0 → 0 <= n →
  dest + zlen s < src ∨ src + zlen s < dest →
  ∃ m', strncpy m dest src n
      = Done (if (255 <=? n) && (255 <=? zlen s) then 0 else dest, m') ∧
    bytes m' dest (take (Z.to_nat (Z.min n 255)) (s ++ [0])) ∧
    (∀ x, x < dest ∨ dest + Z.min (Z.min n 255) (zlen s + 1) <= x → load8 m' x = load8 m x).
Proof.
  intros Hs Hd0 Hs0 Hn Hov. unfold strncpy.
  rewrite (proj2 (Z.eqb_neq dest 0)), (proj2 (Z.eqb_neq src 0)) by done. cbn [orb].
  replace (if 255 <? n then 255 else n) with (Z.min n 255) by (case_if; lia).
  set (k := Z.min n 255) in *. set (body := fun '(count, m) => _).
  cut (∀ s fuel m i, cstr m (src + i) s → 0 <= i <= k → (Z.to_nat (k - i) < fuel)%nat →
    dest + i + zlen s < src ∨ src + i + zlen s < dest →
    ∃ m', loop fuel body (i, m) = Done (i + Z.min (k - i) (zlen s), m') ∧
      bytes m' (dest + i) (take (Z.to_nat (k - i)) (s ++ [0])) ∧
      (∀ x, x < dest + i ∨ dest + i + Z.min (k - i) (zlen s + 1) <= x → load8 m' x = load8 m x)).
  { intros H. destruct (H s 256%nat m 0) as (m' & E & Hb & Ho); rewrite ?Z.add_0_r; try done; [lia|lia|].
    rewrite E, Z.sub_0_r, Z.add_0_r in *. cbn [obind]. exists m'. split; [|done].
    do 3 f_equal. rewrite Z.add_0_l. destruct (Z.leb_spec 255 n), (Z.leb_spec 255 (zlen s)); cbn [andb];
      (case_if; lia || done). }
  clear s m Hs Hov.
  induction s as [|c s IH]; intros [|fuel] m i Hs Hi Hf Hov; try lia; simpl in Hs;
    cbn [loop]; unfold body at 1; destruct (Z.ltb_spec i k) as [Hlt|Hge]; cbn [negb obind];
    try (exists m; assert (k - i = 0) as -> by lia; rewrite take_0;
         match goal with |- context [zlen ?l] => pose proof (zlen_nonneg l) end;
         rewrite Z.min_l, Z.add_0_r by lia; done).
  - assert (load8 (store8 m (dest + i) (load8 m (src + i))) (src + i) = 0) as ->.
    { destruct (decide (dest = src)) as [->|]; [unfold zlen in Hov; simpl in Hov; lia|].
      by rewrite load8_store8_ne by lia. }
    rewrite Hs. simpl. exists (store8 m (dest + i) 0). unfold zlen. simpl. rewrite Z.min_r, Z.add_0_r by lia.
    split; [done|]. replace (Z.to_nat (k - i)) with (S (Z.to_nat (k - i - 1))) by lia. simpl.
    split; [split; [apply load8_store8_eq|by rewrite take_nil]|]. intros x Hx. apply load8_store8_ne. lia.
  - destruct Hs as (Hc & Hcr & Hs). rewrite zlen_cons in *. pose proof (zlen_nonneg s).
    rewrite load8_store8_ne by lia. rewrite Hc, (proj2 (Z.eqb_neq c 0)) by lia. cbn [obind].
    destruct (IH fuel (store8 m (dest + i) c) (i + 1)) as (m' & E & Hb & Ho); [|lia..|].
    { rewrite Z.add_assoc. apply cstr_store8; [lia|done]. }
    exists m'. rewrite E. split; [do 2 f_equal; lia|].
    replace (Z.to_nat (k - i)) with (S (Z.to_nat (k - (i + 1)))) by lia.
    cbn [app take bytes]. rewrite Z.add_assoc in Hb. split; [split; [|done]|].
    + rewrite Ho by lia. rewrite load8_store8_eq. apply u8_small. lia.
    + intros x Hx. rewrite Ho by lia. apply load8_store8_ne. lia.
Qed.

(** ** [itoa] *)

Lemma rev_reverse {A} (l : list A) : rev l = reverse l.
Proof. unfold reverse. by rewrite rev_append_rev, app_nil_r. Qed.

Definition digit_val (c : Z) : Z := if c <? 58 then c - 48 else c - 87.

(** The number a digit string denotes, most significant digit first. *)
Definition parse (base : Z) (s : list Z) : Z := fold_left (fun acc c => acc * base + digit_val c) s 0.

Definition is_digit (base c : Z) : Prop := (48 <= c <= 57 ∨ 97 <= c <= 122) ∧ 0 <= digit_val c < base.

Lemma itoa_digit_ok base d :
  0 <= d < base → base <= 36 → is_digit base (itoa_digit d) ∧ digit_val (itoa_digit d) = d.
Proof. intros Hd Hb. unfold is_digit, digit_val, itoa_digit. repeat case_if; lia. Qed.

Lemma itoa_digits_spec base fuel : ∀ m buf n i,
  2 <= base <= 36 → 0 <= n < 2 ^ Z.of_nat fuel → (0 < fuel)%nat →
  ∃ m' ds, loop fuel (itoa_step buf base) (m, n, i) = Done (m', i + zlen ds) ∧
    bytes m' (buf + i) ds ∧ Forall (is_digit base) ds ∧ (0 < length ds <= fuel)%nat ∧
    fold_right (fun c acc => acc * base + digit_val c) 0 ds = n ∧
    (List.last ds 48 = 48 → ds = [48]) ∧
    (∀ x, x < buf + i ∨ buf + i + zlen ds <= x → load8 m' x = load8 m x).
Proof.
  induction fuel as [|fuel IH]; intros m buf n i Hb Hn Hf; [lia|].
  cbn [loop]. unfold itoa_step at 1. rewrite (proj2 (Z.eqb_neq base 0)) by lia. cbn [obind].
  pose proof (Z.mod_pos_bound n base ltac:(lia)) as Hmod. pose proof (Z.div_mod n base ltac:(lia)) as Hdm.
  destruct (itoa_digit_ok base (n mod base) Hmod ltac:(lia)) as [Hd Hdv].
  assert (u8 (itoa_digit (n mod base)) = itoa_digit (n mod base)) as Hu.
  { apply u8_small. destruct Hd. lia. }
  destruct (Z.eqb_spec (n / base) 0) as [E|E]; cbn [obind].
  - exists (store8 m (buf + i) (itoa_digit (n mod base))), [itoa_digit (n mod base)].
    unfold zlen. cbn [length]. split; [done|].
    split; [split; [by rewrite load8_store8_eq|done]|]. split; [by apply Forall_singleton|]. split; [lia|].
    split; [simpl; lia|]. split; [simpl; congruence|]. intros x Hx. apply load8_store8_ne. lia.
  - assert (0 <= n / base) by (apply Z.div_pos; lia).
    rewrite Nat2Z.inj_succ, Z.pow_succ_r in Hn by lia.
    assert (n / base < 2 ^ Z.of_nat fuel) by (apply Z.div_lt_upper_bound; nia).
    assert (0 < fuel)%nat by (destruct fuel; [simpl in *; lia|lia]).
    destruct (IH (store8 m (buf + i) (itoa_digit (n mod base))) buf (n / base) (i + 1))
      as (m' & ds & Er & Hbs & Hf' & Hlen & Hv & Hlast & Ho); [done|lia|done|].
    exists m', (itoa_digit (n mod base) :: ds). rewrite zlen_cons. pose proof (zlen_nonneg ds).
    rewrite Z.add_assoc in Hbs. split; [rewrite Er; do 2 f_equal; lia|].
    split; [split; [rewrite Ho by lia; by rewrite load8_store8_eq|done]|].
    split; [by constructor|]. split; [simpl; lia|]. split; [cbn [fold_right]; rewrite Hv, Hdv; lia|].
    split.
    + destruct ds as [|d ds]; [simpl in Hlen; lia|]. intros Hl.
      change (List.last (d :: ds) 48 = 48) in Hl. specialize (Hlast Hl). injection Hlast as -> ->.
      simpl in Hv. unfold digit_val in Hv. simpl in Hv. lia.
    + intros x Hx. rewrite Ho by lia. apply load8_store8_ne. lia.
Qed.

Lemma itoa_reverse_spec m buf l :
  bytes m buf l → (0 < length l <= 33)%nat →
  ∃ m', itoa_reverse m buf (zlen l - 1) = Done m' ∧ bytes m' buf (rev l) ∧
    (∀ x, x < buf ∨ buf + zlen l <= x → load8 m' x = load8 m x).
Proof.
  intros Hl Hlen. set (k := zlen l). unfold itoa_reverse.
  destruct (while_total (fun '(m', j, i) =>
      0 <= j ∧ i = k - 1 - j ∧ j <= i + 1 + 1 ∧
      (∀ x, 0 <= x < k → load8 m' (buf + x) =
         if (x <? j) || (i <? x) then load8 m (buf + (k - 1 - x)) else load8 m (buf + x)) ∧
      (∀ x, x < buf ∨ buf + k <= x → load8 m' x = load8 m x))
    (fun '(_, j, i) => Z.to_nat (i - j)) (fun '(_, j, i) => j <? i)
    (itoa_swap buf)) with (fuel := 33%nat) (s := (m, 0, k - 1))
    as ([[m' j] i] & -> & (Hj & -> & Hji & Hin & Hout) & Hc).
  - intros [[m' j] i] (Hj & -> & Hji & Hin & Hout) Hlt. zify_bool. unfold itoa_swap.
    split; [|lia]. split; [lia|]. split; [lia|]. split; [lia|]. split.
    + intros x Hx. destruct (decide (x = k - 1 - j)) as [->|Hxi].
      * rewrite load8_store8_eq, u8_small by apply load8_range. rewrite Hin by lia.
        replace (k - 1 - (k - 1 - j)) with j by lia. repeat case_if; try lia; done.
      * rewrite load8_store8_ne by lia. destruct (decide (x = j)) as [->|Hxj].
        -- rewrite load8_store8_eq, u8_small by apply load8_range. rewrite Hin by lia.
           destruct (Z.ltb_spec (k - 1 - j) j); [lia|].
           destruct (Z.ltb_spec (k - 1 - j) (k - 1 - j)); [lia|]. simpl.
           destruct (Z.ltb_spec j (j + 1)); [done|lia].
        -- rewrite load8_store8_ne by lia. rewrite Hin by lia.
           destruct (Z.ltb_spec x j), (Z.ltb_spec (k - 1 - j) x), (Z.ltb_spec x (j + 1)),
             (Z.ltb_spec (k - 1 - j - 1) x); (done || lia).
    + intros x Hx. rewrite !load8_store8_ne by lia. by apply Hout.
  - unfold k, zlen. split; [lia|]. split; [lia|]. split; [lia|]. split; [|done].
    intros x Hx. destruct (Z.ltb_spec x 0), (Z.ltb_spec (Z.of_nat (length l) - 1) x); (done || lia).
  - unfold k, zlen. lia.
  - zify_bool. cbn [obind]. exists m'. split; [done|]. split; [|done].
    rewrite bytes_lookup in Hl. apply bytes_lookup. intros x c Hx.
    pose proof (lookup_lt_Some _ _ _ Hx) as Hxl. rewrite length_rev in Hxl.
    rewrite rev_reverse in Hx. rewrite reverse_lookup in Hx by done.
    specialize (Hl _ _ Hx). rewrite Hin by (unfold k, zlen; lia). rewrite <- Hl.
    assert (Z.of_nat (length l - S x) = k - 1 - Z.of_nat x) as -> by (unfold k, zlen; lia).
    destruct (Z.ltb_spec (Z.of_nat x) j), (Z.ltb_spec (k - 1 - j) (Z.of_nat x)); simpl; try done.
    f_equal. lia.
Qed.

Lemma hd_rev_zero (ds : list Z) :
  (List.last ds 48 = 48 → ds = [48]) → hd 48 (rev ds) = 48 → rev ds = [48].
Proof.
  destruct ds as [|d ds _] using rev_ind; [intros H; discriminate (H eq_refl)|].
  rewrite last_last, rev_app_distr. simpl. intros H ->. specialize (H eq_refl).
  destruct ds as [|e ds]; [done|]. apply (f_equal length) in H.
  rewrite length_app in H. simpl in H. lia.
Qed.

Lemma itoa_ok m buf n base :
  2 <= base <= 36 → 0 <= n < 2 ^ 32 →
  ∃ m' s, itoa m buf n base = Done m' ∧ cstr m' buf s ∧ parse base s = n ∧
    Forall (is_digit base) s ∧ (hd 48 s = 48 → s = [48]) ∧ zlen s <= 32 ∧
    (∀ x, x < buf ∨ buf + zlen s < x → load8 m' x = load8 m x).
Proof.
  intros Hb Hn. unfold itoa, itoa_digits.
  destruct (itoa_digits_spec base 32 m buf n 0 Hb Hn ltac:(lia))
    as (m1 & ds & E & Hds & Hdig & Hlen & Hv & Hlast & Ho).
  apply (loop_mono _ 32 33) in E; [|lia]. rewrite E. cbn [obind]. rewrite Z.add_0_l.
  rewrite !Z.add_0_r in *.
  destruct (itoa_reverse_spec (store8 m1 (buf + zlen ds) 0) buf ds) as (m2 & E2 & Hrev & Ho2).
  { eapply bytes_frame; [|exact Hds]. intros x Hx. apply load8_store8_ne. lia. }
  { lia. }
  assert (zlen (rev ds) = zlen ds) as Hzl by (unfold zlen; by rewrite length_rev).
  exists m2, (rev ds). rewrite Hzl. split; [done|].
  assert (Forall (is_digit base) (rev ds)) as Hdig' by by rewrite rev_reverse, Forall_reverse.
  split; [|split; [|split; [done|split; [|split]]]].
  - apply cstr_intro; [done| |rewrite Hzl, Ho2 by lia; apply load8_store8_eq].
    eapply Forall_impl; [|exact Hdig']. intros c [? _]. lia.
  - unfold parse. by rewrite <- fold_left_rev_right, rev_involutive.
  - by apply hd_rev_zero.
  - unfold zlen. lia.
  - intros x Hx. pose proof (zlen_nonneg ds). rewrite Ho2 by lia.
    rewrite load8_store8_ne by lia. apply Ho. lia.
Qed.

(** C31. [itoa] returns for every [n] and every base from 2 to 36, and leaves
    at [buf] a string of digits of the base that denotes [n], without leading
    zeros; it writes at most 33 bytes, the string and its terminator. *)
Theorem itoa_spec m buf n base :
  2 <= base <= 36 → 0 <= n < 2 ^ 32 →
  ∃ m' s, itoa m buf n base = Done m' ∧ cstr m' buf s ∧ parse base s = n ∧
    Forall (is_digit base) s ∧ (hd 48 s = 48 → s = [48]) ∧ zlen s <= 32 ∧
    (∀ x, x < buf ∨ buf + zlen s < x → load8 m' x = load8 m x).
Proof. apply itoa_ok. Qed.

(** ** Concrete instances *)

(** "ab" at 0x100, "abc" at 0x200. *)
Definition demo_strings : mem :=
  store8 (store8 (store8 (store8 (store8 ∅ 0x100 97) 0x101 98) 0x200 97) 0x201 98) 0x202 99.

Lemma demo_ab : cstr demo_strings 0x100 [97; 98].
Proof. vm_compute. repeat split; discriminate. Qed.
Lemma demo_abc : cstr demo_strings 0x200 [97; 98; 99].
Proof. vm_compute. repeat split; discriminate. Qed.

Lemma itoa_spec_witness :
  ∃ m' s, itoa ∅ 0x100 0xbeef 16 = Done m' ∧ cstr m' 0x100 s ∧ parse 16 s = 0xbeef ∧
    Forall (is_digit 16) s ∧ (hd 48 s = 48 → s = [48]) ∧ zlen s <= 32 ∧
    (∀ x, x < 0x100 ∨ 0x100 + zlen s < x → load8 m' x = load8 ∅ x).
Proof. apply (itoa_spec ∅ 0x100 0xbeef 16); lia. Defined.

Lemma strcmp_spec_witness : strcmp 3 demo_strings 0x100 0x200 = Done 1.
Proof. apply (strcmp_spec 3 demo_strings 0x100 0x200 _ _ demo_ab demo_abc). simpl. lia. Defined.

Lemma strchr_spec_witness :
  ∃ r, strchr 4 demo_strings 0x200 98 = Done r ∧
    (u8 98 = 0 ∧ r = 0x200 + zlen [97; 98; 99] ∨
     u8 98 ≠ 0 ∧ (u8 98 ∉ [97; 98; 99] ∧ r = 0 ∨
       ∃ s1 s2, [97; 98; 99] = s1 ++ u8 98 :: s2 ∧ u8 98 ∉ s1 ∧ r = 0x200 + zlen s1)).
Proof. apply (strchr_spec 4 demo_strings 0x200 _ 98 demo_abc). simpl. lia. Defined.

Lemma strrchr_spec_witness :
  ∃ r, strrchr 4 demo_strings 0x200 98 = Done r ∧
    (u8 98 = 0 ∧ r = 0x200 + zlen [97; 98; 99] ∨
     u8 98 ≠ 0 ∧ (u8 98 ∉ [97; 98; 99] ∧ r = 0 ∨
       ∃ s1 s2, [97; 98; 99] = s1 ++ u8 98 :: s2 ∧ u8 98 ∉ s2 ∧ r = 0x200 + zlen s1)).
Proof. apply (strrchr_spec 4 demo_strings 0x200 _ 98 demo_abc). simpl. lia. Defined.

Lemma strncmp_spec_witness :
  ∃ r, strncmp 3 demo_strings 0x100 0x200 2 = Done r ∧
    (r = 0 ↔ take (Z.to_nat 2) [97; 98] = take (Z.to_nat 2) [97; 98; 99]).
Proof. apply (strncmp_spec 3 demo_strings 0x100 0x200 _ _ 2 demo_ab demo_abc); simpl; lia. Defined.

Lemma memcpy_spec_witness :
  (∀ i, 0 <= i < 4 → load8 (memcpy demo_strings 0x300 0x200 4) (0x300 + i) = load8 demo_strings (0x200 + i)) ∧
  (∀ x, x < 0x300 ∨ 0x300 + 4 <= x → load8 (memcpy demo_strings 0x300 0x200 4) x = load8 demo_strings x).
Proof. apply (memcpy_spec demo_strings 0x300 0x200 4); lia. Defined.

Lemma strcpy_spec_witness :
  ∃ m', strcpy 4 demo_strings 0x300 0x200 = Done (zlen [97; 98; 99], m') ∧ cstr m' 0x300 [97; 98; 99] ∧
    (∀ x, x < 0x300 ∨ 0x300 + zlen [97; 98; 99] < x → load8 m' x = load8 demo_strings x).
Proof. apply (strcpy_spec 4 demo_strings 0x300 0x200 _ demo_abc); [simpl; lia|right; unfold zlen; simpl; lia]. Defined.

Lemma strcat_spec_witness :
  ∃ m', strcat 4 demo_strings 0x100 0x200 = Done m' ∧ bytes m' 0x100 ([97; 98] ++ [97; 98; 99]) ∧
    (∀ x, x < 0x100 + zlen [97; 98] ∨ 0x100 + zlen [97; 98] + zlen [97; 98; 99] <= x → load8 m' x = load8 demo_strings x).
Proof.
  apply (strcat_spec 4 demo_strings 0x100 0x200 _ _ demo_ab demo_abc); [simpl; lia|simpl; lia|left; unfold zlen; simpl; lia].
Defined.

Lemma strncpy_spec_witness :
  ∃ m', strncpy demo_strings 0x300 0x200 2
      = Done (if (255 <=? 2) && (255 <=? zlen [97; 98; 99]) then 0 else 0x300, m') ∧
    bytes m' 0x300 (take (Z.to_nat (Z.min 2 255)) ([97; 98; 99] ++ [0])) ∧
    (∀ x, x < 0x300 ∨ 0x300 + Z.min (Z.min 2 255) (zlen [97; 98; 99] + 1) <= x → load8 m' x = load8 demo_strings x).
Proof.
  apply (strncpy_spec demo_strings 0x300 0x200 _ 2 demo_abc); [lia|lia|lia|right; unfold zlen; simpl; lia].
Defined.
