(* ===== verification/Libc.v ===== *)
(** The C library of user programs: [memcpy.c], [strncmp.c] and [strncpy.c] of
    [src/src/sdk/src/libc/src/string].  They differ from the kernel's functions
    of the same names ([Strings.v]) in how they walk, and [strncpy] in what it
    does: it is the one of the C standard. *)

From Stdlib Require Import ZArith Lia.
From stdpp Require Import base list gmap option.
From S2P Require Import Prelude Memory Strings.

Definition memcpy (fuel : nat) (m : mem) (d s n : Z) : outcome (Z * mem) :=
  let* m := loop fuel
    (fun '(m, dest, src, n) =>
       Done (if n =? 0 then inr m
             else inl (store8 m dest (load8 m src), dest + 1, src + 1, n - 1))) (m, d, s, n) in
  Done (d, m).

Definition strncmp (fuel : nat) (m : mem) (s1 s2 c : Z) : outcome Z :=
  loop fuel
    (fun '(s1, s2, c, result) =>
       Done (if c =? 0 then inr result
             else
               let result := s8 (load8 m s1) - s8 (load8 m s2) in
               if negb (result =? 0) || (load8 m s1 =? 0) then inr result
               else inl (s1 + 1, s2 + 1, c - 1, result))) (s1, s2, c, 0).

(** The first loop of [strncpy]; it leaves through [break] without [i++]. *)
Definition strncpy_step (c : Z) : mem * Z * Z * Z → outcome (mem * Z * Z * Z + mem * Z * Z) :=
  fun '(m, d, s, i) =>
    Done (if negb (i <? c) then inr (m, d, i)
          else
            let m := store8 m d (load8 m s) in
            if load8 m s =? 0 then inr (m, d + 1, i)
            else inl (m, d + 1, s + 1, i + 1)).

Definition strncpy (fuel : nat) (m : mem) (d s c : Z) : outcome (Z * mem) :=
  let* (m, d', i) := loop fuel (strncpy_step c) (m, d, s, 0) in
  let* (m, _, _) := while fuel (fun '(_, _, i) => i <? c)
    (fun '(m, d, i) => (store8 m d 0, d + 1, i + 1)) (m, d', i) in
  Done (d, m).

(** ** [memcpy] *)

(** A byte of the copy made so far, and of the rest. *)
Definition copied (m m' : mem) (d s k : Z) : Prop :=
  (∀ i, 0 <= i < k → load8 m' (d + i) = load8 m (s + i)) ∧
  (∀ x, x < d ∨ d + k <= x → load8 m' x = load8 m x).

Lemma copied_snoc m m' d s k :
  copied m m' d s k → 0 <= k → d <= s ∨ s + k < d →
  copied m (store8 m' (d + k) (load8 m' (s + k))) d s (k + 1).
Proof.
  intros [Hc Ho] Hk Hov. split.
  - intros i Hi. destruct (decide (i = k)) as [->|].
    + rewrite load8_store8_eq, u8_small by apply load8_range. apply Ho. lia.
    + rewrite load8_store8_ne by lia. apply Hc. lia.
  - intros x Hx. rewrite load8_store8_ne by lia. apply Ho. lia.
Qed.

(** [memcpy] of the library copies as the kernel's does, and returns the
    destination. *)
Lemma memcpy_ok fuel m d s n :
  0 <= n → n < Z.of_nat fuel → d <= s ∨ s + n <= d →
  ∃ m', memcpy fuel m d s n = Done (d, m') ∧ copied m m' d s n.
Proof.
  intros Hn Hf Hov. unfold memcpy.
  destruct (loop_total
    (λ '(m', dest, src, j), ∃ k, 0 <= k ∧ j = n - k ∧ 0 <= j ∧ dest = d + k ∧ src = s + k ∧ copied m m' d s k)
    (λ m', copied m m' d s n) (λ '(_, _, _, j), Z.to_nat j)
    (fun '(m, dest, src, n) =>
       Done (if n =? 0 then inr m
             else inl (store8 m dest (load8 m src), dest + 1, src + 1, n - 1)))) with (fuel := fuel) (s := (m, d, s, n))
    as (m' & E & Hm').
  - intros [[[m1 d1] s1] j] (k & Hk & -> & Hj & -> & -> & Hc). eexists. split; [done|].
    destruct (Z.eqb_spec (n - k) 0) as [E|E]; [by replace n with k by lia|].
    split; [|lia]. exists (k + 1). split_and!; try lia. apply copied_snoc; (done || lia).
  - exists 0. split_and!; try lia. split; [lia|done].
  - lia.
  - rewrite E. by exists m'.
Qed.

(** ** [strncmp] is the kernel's *)

Lemma strncmp_eq fuel m s1 s2 c : strncmp fuel m s1 s2 c = Strings.strncmp fuel m s1 s2 c.
Proof. reflexivity. Qed.

(** ** [strncpy] *)

(** The zero fill. *)
Lemma fill_ok fuel m d i c :
  0 <= i <= c → c - i < Z.of_nat fuel →
  ∃ m' d' i', while fuel (fun '(_, _, i) => i <? c)
      (fun '(m, d, i) => (store8 m d 0, d + 1, i + 1)) (m, d, i) = Done (m', d', i') ∧
    (∀ x, d <= x < d + (c - i) → load8 m' x = 0) ∧
    (∀ x, x < d ∨ d + (c - i) <= x → load8 m' x = load8 m x).
Proof.
  intros Hi Hf. destruct (while_total
    (λ '(m', d', i'), i <= i' <= c ∧ d' = d + (i' - i) ∧ (∀ x, d <= x < d' → load8 m' x = 0) ∧
       (∀ x, x < d ∨ d' <= x → load8 m' x = load8 m x))
    (λ '(_, _, i'), Z.to_nat (c - i')) (fun '(_, _, i) => i <? c)
    (fun '(m, d, i) => (store8 m d 0, d + 1, i + 1))) with (fuel := fuel) (s := (m, d, i))
    as ([[m' d'] i'] & E & (H1 & -> & H3 & H4) & Hc).
  - intros [[m1 d1] i1] (H1 & -> & H3 & H4) Hc. zify_bool. split; [|lia]. split_and!; try lia.
    + intros x Hx. destruct (decide (x = d + (i1 - i))) as [->|]; [apply load8_store8_eq|].
      rewrite load8_store8_ne by lia. apply H3. lia.
    + intros x Hx. rewrite load8_store8_ne by lia. apply H4. lia.
  - split_and!; (lia || done).
  - lia.
  - zify_bool. exists m', (d + (i' - i)), i'. split; [done|]. split; intros x Hx; [apply H3|apply H4]; lia.
Qed.

(** What the first loop leaves: the characters, and the terminator if it was
    reached, which the counter does not count. *)
Lemma copy_loop_ok c m0 d0 s0 t : ∀ fuel m k,
  cstr m (s0 + k) t → 0 <= k <= c → c - k < Z.of_nat fuel → d0 + c <= s0 ∨ s0 + k + zlen t < d0 →
  copied m0 m d0 s0 k →
  ∃ m' i, loop fuel (strncpy_step c) (m, d0 + k, s0 + k, k) = Done (m', d0 + Z.min (i + 1) c, i) ∧
    i = Z.min c (k + zlen t) ∧ copied m0 m' d0 s0 (Z.min (i + 1) c).
Proof.
  induction t as [|x t IH]; intros [|fuel] m k Hs Hk Hf Hov Hc; try lia; simpl in Hs; cbn [loop];
    unfold strncpy_step at 1; destruct (Z.ltb_spec k c) as [Hlt|Hge]; cbn [negb obind];
    try (exists m, k; match goal with |- context [zlen ?l] => pose proof (zlen_nonneg l) end;
         rewrite Z.min_r by lia; replace c with k by lia; split; [done|split; [lia|done]]).
  - rewrite load8_store8_ne by (unfold zlen in Hov; simpl in Hov; lia). rewrite Hs. simpl.
    exists (store8 m (d0 + k) 0), k. change (zlen []) with 0. rewrite !(Z.min_l (k + 1)) by lia. rewrite Z.add_assoc.
    split; [done|]. split; [lia|]. change 0 with 0 in Hs. rewrite <- Hs. apply copied_snoc; [done|lia|unfold zlen in Hov; simpl in Hov; lia].
  - destruct Hs as (Hx & Hxr & Hs). rewrite zlen_cons in *. pose proof (zlen_nonneg t).
    rewrite load8_store8_ne by lia. rewrite Hx, (proj2 (Z.eqb_neq x 0)) by lia. cbn [obind].
    rewrite <- !Z.add_assoc. destruct (IH fuel (store8 m (d0 + k) x) (k + 1)) as (m' & i & E & Ei & Hc').
    + rewrite Z.add_assoc. apply cstr_store8; [lia|done].
    + lia.
    + lia.
    + lia.
    + rewrite <- Hx. apply copied_snoc; [done|lia|lia].
    + exists m', i. split; [exact E|]. split; [lia|done].
Qed.

(** [strncpy] copies the string up to [c] characters and, when it is shorter,
    fills the rest with zeros; a string of [c] characters or more is left
    without a terminator.  The counter does not count the terminator, so the
    fill of a shorter string is one byte too long: it writes [c + 1] bytes. *)
Lemma strncpy_ok fuel m d s c t :
  cstr m s t → 0 <= c → c < Z.of_nat fuel → d + c <= s ∨ s + zlen t < d →
  let written := c + b2z (zlen t <? c) in
  ∃ m', strncpy fuel m d s c = Done (d, m') ∧
    (∀ j, 0 <= j < written → load8 m' (d + j) = if j <? zlen t then load8 m (s + j) else 0) ∧
    (∀ x, x < d ∨ d + written <= x → load8 m' x = load8 m x).
Proof.
  intros Hs Hc Hf Hov written. unfold strncpy.
  destruct (copy_loop_ok c m d s t fuel m 0) as (m1 & i & E1 & Ei & [Hc1 Ho1]); rewrite ?Z.add_0_r; try (done || lia).
  { split; [lia|done]. }
  rewrite !Z.add_0_r in E1. rewrite E1. cbn [obind]. pose proof (zlen_nonneg t).
  destruct (fill_ok fuel m1 (d + Z.min (i + 1) c) i c) as (m2 & d2 & i2 & E2 & Hz & Ho2); [lia..|].
  rewrite E2. cbn [obind]. exists m2. split; [done|].
  unfold written, b2z. clear written E1 E2. destruct (Z.ltb_spec (zlen t) c) as [Hlt|Hge].
  - replace (Z.min (i + 1) c) with (zlen t + 1) in * by lia. assert (i = zlen t) as -> by lia. split.
    + intros j Hj. destruct (decide (j < zlen t + 1)).
      * rewrite Ho2, Hc1 by lia. case_if; [done|]. assert (j = zlen t) as -> by lia. by apply cstr_end.
      * rewrite (proj2 (Z.ltb_ge j (zlen t))) by lia. apply Hz. lia.
    + intros x Hx. rewrite Ho2, Ho1 by lia. done.
  - replace (Z.min (i + 1) c) with c in * by lia. assert (i = c) as -> by lia. split.
    + intros j Hj. rewrite (proj2 (Z.ltb_lt j (zlen t))) by lia. rewrite Ho2, Hc1 by lia. done.
    + intros x Hx. rewrite Ho2, Ho1 by lia. done.
Qed.

(** A buffer of four bytes and the byte behind it: copying the string "ab"
    into the four clears the fifth. *)
Example strncpy_overflows :
  match strncpy 9 (store8 demo_strings 0x304 7) 0x300 0x100 4 with
  | Done (_, m') => load8 (store8 demo_strings 0x304 7) 0x304 = 7 ∧ load8 m' 0x304 = 0
  | _ => False
  end.
Proof. by vm_compute. Qed.
