(* ===== verification/Slab.v ===== *)
(** The slab allocator: [src/src/kernel/runtime/slab.h] and [slab.cc].

    Caches, slabs and free objects are structures in the kernel heap, which
    the slab allocator gets from the buddy allocator; the two static fields
    of [SlabAllocator] are the record [slab_allocator].  Constructors and
    destructors are function pointers of the clients: calling one is the
    section variable [call]. *)

From Stdlib Require Import ZArith Lia.
From stdpp Require Import base list gmap option.
From S2P Require Import Prelude Memory DList Buddy Strings.

Definition SLAB_MAGIC : Z := 0x5AB1234.
Definition CACHE_ALIGN : Z := 8.
Definition SLAB_MAX_SIZE : Z := 4096.

(** [struct slab_obj] *)
Definition so_next : Z := 0.
Definition so_magic : Z := 4.

(** [struct slab] *)
Definition sl_next : Z := 0.
Definition sl_prev : Z := 4.
Definition sl_mem : Z := 8.
Definition sl_inuse : Z := 12.
Definition sl_free : Z := 16.
Definition sl_freelist : Z := 20.
Definition sl_size : Z := 24.
Definition sl_order : Z := 28.
Definition sl_magic : Z := 32.
Definition sizeof_slab : Z := 36.

(** [struct slab_cache] *)
Definition sc_next : Z := 0.
Definition sc_name : Z := 4.
Definition sc_obj_size : Z := 36.
Definition sc_align : Z := 40.
Definition sc_flags : Z := 44.
Definition sc_num_objs : Z := 48.
Definition sc_order : Z := 52.
Definition sc_full : Z := 56.
Definition sc_partial : Z := 60.
Definition sc_empty : Z := 64.
Definition sc_num_slabs : Z := 68.
Definition sc_active : Z := 72.
Definition sc_free : Z := 76.
Definition sc_ctor : Z := 80.
Definition sc_dtor : Z := 84.
Definition sizeof_slab_cache : Z := 88.

Record slab_allocator := mk_slab_allocator {
  cache_chain : Z;
  size_caches : list Z;
}.

Definition size_cache_sizes : list Z :=
  [8; 16; 32; 64; 128; 256; 512; 1024; 2048; 4096; 8192; 16384].

(** [p->field += d] on a 32-bit counter. *)
Definition hadd (h : heap) (a d : Z) : heap := hstore h a (u32 (hload h a + d)).

(** ** Objects of one slab *)

Definition slab_alloc_obj (h : heap) (slab : Z) : Z * heap :=
  let obj := hload h (slab + sl_freelist) in
  if obj =? 0 then (0, h)
  else if negb (hload h (obj + so_magic) =? SLAB_MAGIC) then (0, h)
  else
    let h := hstore h (slab + sl_freelist) (hload h (obj + so_next)) in
    let h := hadd h (slab + sl_inuse) 1 in
    let h := hadd h (slab + sl_free) (-1) in
    (obj, h).

Definition slab_free_obj (h : heap) (slab obj : Z) : heap :=
  let h := hstore h (obj + so_next) (hload h (slab + sl_freelist)) in
  let h := hstore h (obj + so_magic) SLAB_MAGIC in
  let h := hstore h (slab + sl_freelist) obj in
  let h := hadd h (slab + sl_inuse) (-1) in
  hadd h (slab + sl_free) 1.

(** [from] and [to] are the addresses of two list heads of a cache. *)
Definition move_slab (h : heap) (from to slab : Z) : heap :=
  let p := hload h (slab + sl_prev) in
  let n := hload h (slab + sl_next) in
  let h := if negb (p =? 0) then hstore h (p + sl_next) n else hstore h from n in
  let h := if negb (hload h (slab + sl_next) =? 0)
           then hstore h (hload h (slab + sl_next) + sl_prev) (hload h (slab + sl_prev)) else h in
  let h := hstore h (slab + sl_next) (hload h to) in
  let h := hstore h (slab + sl_prev) 0 in
  let h := if negb (hload h to =? 0) then hstore h (hload h to + sl_prev) slab else h in
  hstore h to slab.

Definition calculate_num_objs (obj_size slab_size : Z) : outcome Z :=
  if obj_size =? 0 then Stuck else Done (slab_size / obj_size).

Definition get_cache_order (size : Z) : outcome Z := get_order size.

(** ** Slabs *)

(** Threading the objects of a fresh slab onto its free list. *)
Definition slab_carve (h : heap) (slab mem obj_size n : Z) : heap :=
  snd (for_ n (fun _ '(obj_ptr, h) =>
    let h := hstore h (obj_ptr + so_next) (hload h (slab + sl_freelist)) in
    let h := hstore h (obj_ptr + so_magic) SLAB_MAGIC in
    let h := hstore h (slab + sl_freelist) obj_ptr in
    (obj_ptr + obj_size, h)) (mem, h)).

Definition slab_create (h : heap) (cache : Z) : outcome (Z * heap) :=
  let* (slab, h) := alloc h sizeof_slab in
  if slab =? 0 then Done (0, h)
  else
    let* (mem, h) := alloc_order h (hload h (cache + sc_order)) in
    if mem =? 0 then let* h := free h slab in Done (0, h)
    else
      let h := hstore h (slab + sl_mem) mem in
      let h := hstore h (slab + sl_inuse) 0 in
      let h := hstore h (slab + sl_free) (hload h (cache + sc_num_objs)) in
      let h := hstore h (slab + sl_size) (hload h (cache + sc_obj_size)) in
      let h := hstore h (slab + sl_order) (hload h (cache + sc_order)) in
      let h := hstore h (slab + sl_magic) SLAB_MAGIC in
      let h := hstore h (slab + sl_next) 0 in
      let h := hstore h (slab + sl_prev) 0 in
      let h := hstore h (slab + sl_freelist) 0 in
      let h := slab_carve h slab mem (hload h (cache + sc_obj_size)) (hload h (cache + sc_num_objs)) in
      Done (slab, hadd h (cache + sc_free) (hload h (cache + sc_num_objs))).

Definition slab_destroy (h : heap) (cache slab : Z) : outcome heap :=
  if (slab =? 0) || negb (hload h (slab + sl_magic) =? SLAB_MAGIC) then Done h
  else
    let h := hadd h (cache + sc_free) (- hload h (slab + sl_free)) in
    let* h := free_order h (hload h (slab + sl_mem)) (hload h (slab + sl_order)) in
    let* h := free h slab in
    Done (hadd h (cache + sc_num_slabs) (-1)).

(** ** Caches *)

(** The cache name: at most 32 bytes, up to the terminator. *)
Definition copy_name (h : heap) (cache : Z) (name : list Z) : heap :=
  fst (for_ 32 (fun i '(h, go) =>
    if go && negb (zget 0 name i =? 0) then (hstore8 h (cache + sc_name + i) (zget 0 name i), true)
    else (h, false)) (h, true)).

(** [slab_size] doubles up to eight objects, but not past [SLAB_MAX_SIZE]. *)
Definition cache_slab_size (obj_size : Z) : outcome Z :=
  while 33 (fun s => (s <? u32 (obj_size * 8)) && (s <? SLAB_MAX_SIZE)) (fun s => u32 (s * 2))
    MIN_BLOCK_SIZE.

Definition cache_create (h : heap) (sa : slab_allocator) (name : list Z)
    (size align flags ctor dtor : Z) : outcome (Z * heap * slab_allocator) :=
  let* (cache, h) := alloc h sizeof_slab_cache in
  if cache =? 0 then Done (0, h, sa)
  else
    let h := copy_name h cache name in
    let obj_size := Z.land (u32 (size + align - 1)) (u32 (Z.lnot (align - 1))) in
    let h := hstore h (cache + sc_obj_size) obj_size in
    let h := hstore h (cache + sc_align) align in
    let h := hstore h (cache + sc_flags) flags in
    let h := hstore h (cache + sc_ctor) ctor in
    let h := hstore h (cache + sc_dtor) dtor in
    let* slab_size := cache_slab_size obj_size in
    let* order := get_order slab_size in
    let h := hstore h (cache + sc_order) order in
    let* n := calculate_num_objs obj_size slab_size in
    let h := hstore h (cache + sc_num_objs) n in
    let h := hstore h (cache + sc_full) 0 in
    let h := hstore h (cache + sc_partial) 0 in
    let h := hstore h (cache + sc_empty) 0 in
    let h := hstore h (cache + sc_num_slabs) 0 in
    let h := hstore h (cache + sc_active) 0 in
    let h := hstore h (cache + sc_free) 0 in
    let h := hstore h (cache + sc_next) (cache_chain sa) in
    Done (cache, h, mk_slab_allocator cache (size_caches sa)).

(** Popping the slabs of a list head, one at a time, and destroying them. *)
Definition destroy_list (fuel : nat) (h : heap) (cache list : Z) : outcome heap :=
  loop fuel
    (fun h =>
       let slab := hload h list in
       if slab =? 0 then Done (inr h)
       else
         let h := hstore h list (hload h (slab + sl_next)) in
         let* h := slab_destroy h cache slab in
         Done (inl h)) h.

Definition cache_destroy (fuel : nat) (h : heap) (sa : slab_allocator) (cache : Z)
    : outcome (heap * slab_allocator) :=
  if cache =? 0 then Done (h, sa)
  else
    let* h := destroy_list fuel h cache (cache + sc_full) in
    let* h := destroy_list fuel h cache (cache + sc_partial) in
    let* h := destroy_list fuel h cache (cache + sc_empty) in
    let* (h, sa) :=
      if cache_chain sa =? cache
      then Done (h, mk_slab_allocator (hload h (cache + sc_next)) (size_caches sa))
      else
        let* curr := while fuel (fun c => negb (c =? 0) && negb (hload h (c + sc_next) =? cache))
                           (fun c => hload h (c + sc_next)) (cache_chain sa) in
        Done (if curr =? 0 then h else hstore h (curr + sc_next) (hload h (cache + sc_next)), sa) in
    let* h := free h cache in
    Done (h, sa).

(** The first slab of a list whose memory contains [obj]. *)
Definition find_slab (fuel : nat) (h : heap) (head obj : Z) : outcome Z :=
  loop fuel
    (fun current =>
       if current =? 0 then Done (inr 0)
       else
         let slab_start := hload h (current + sl_mem) in
         let slab_end := slab_start + block_size (hload h (current + sl_order)) in
         Done (if (slab_start <=? obj) && (obj <? slab_end) then inr current
               else inl (hload h (current + sl_next)))) head.

Section Client.
(** Calling the function at a pointer on an object. *)
Variable call : Z → Z → heap → outcome heap.

(** The slab an allocation is served from: the first partial slab, else
    the first empty one, else a new one, which ends up on the partial list. *)
Definition pick_slab (h : heap) (cache : Z) : outcome (Z * heap) :=
  let slab := hload h (cache + sc_partial) in
  let (slab, h) :=
    if slab =? 0 then
      let slab := hload h (cache + sc_empty) in
      (slab, if negb (slab =? 0) then move_slab h (cache + sc_empty) (cache + sc_partial) slab else h)
    else (slab, h) in
  if slab =? 0 then
    let* (slab, h) := slab_create h cache in
    if slab =? 0 then Done (0, h)
    else
      let h := hstore h (slab + sl_next) (hload h (cache + sc_partial)) in
      let h := if negb (hload h (cache + sc_partial) =? 0)
               then hstore h (hload h (cache + sc_partial) + sl_prev) slab else h in
      let h := hstore h (cache + sc_partial) slab in
      Done (slab, hadd h (cache + sc_num_slabs) 1)
  else Done (slab, h).

Definition cache_alloc (h : heap) (cache : Z) : outcome (Z * heap) :=
  if cache =? 0 then Done (0, h)
  else
    let* (slab, h) := pick_slab h cache in
    if slab =? 0 then Done (0, h)
    else
      let (obj, h) := slab_alloc_obj h slab in
      if obj =? 0 then Done (0, h)
      else
        let h := hadd h (cache + sc_active) 1 in
        let h := hadd h (cache + sc_free) (-1) in
        let h := if hload h (slab + sl_free) =? 0
                 then move_slab h (cache + sc_partial) (cache + sc_full) slab else h in
        let* h := if negb (hload h (cache + sc_ctor) =? 0)
                  then call (hload h (cache + sc_ctor)) obj h else Done h in
        Done (obj, h).

Definition cache_free (fuel : nat) (h : heap) (cache obj : Z) : outcome heap :=
  if (cache =? 0) || (obj =? 0) then Done h
  else
    let* slab := find_slab fuel h (hload h (cache + sc_full)) obj in
    let* slab := if slab =? 0 then find_slab fuel h (hload h (cache + sc_partial)) obj
                 else Done slab in
    if slab =? 0 then Done h
    else
      let* h := if negb (hload h (cache + sc_dtor) =? 0)
                then call (hload h (cache + sc_dtor)) obj h else Done h in
      let was_full := hload h (slab + sl_free) =? 0 in
      let h := slab_free_obj h slab obj in
      let h := hadd h (cache + sc_active) (-1) in
      let h := hadd h (cache + sc_free) 1 in
      Done (if was_full then move_slab h (cache + sc_full) (cache + sc_partial) slab
            else if hload h (slab + sl_free) =? hload h (cache + sc_num_objs)
            then move_slab h (cache + sc_partial) (cache + sc_empty) slab else h).

(** [for (i = 0; i < 12; i++) if (size <= size_cache_sizes[i]) return size_caches[i]] *)
Definition find_size_cache (sa : slab_allocator) (size : Z) : Z :=
  match list_find (fun s => size <= s) size_cache_sizes with
  | Some (i, _) => zget 0 (size_caches sa) (Z.of_nat i)
  | None => 0
  end.

Definition kmem_cache_alloc (h : heap) (sa : slab_allocator) (size : Z) : outcome (Z * heap) :=
  let cache := find_size_cache sa size in
  if cache =? 0 then Done (0, h) else cache_alloc h cache.

Definition kmem_cache_free (fuel : nat) (h : heap) (sa : slab_allocator) (obj : Z) : outcome heap :=
  if obj =? 0 then Done h
  else if negb (hload h (obj + so_magic) =? SLAB_MAGIC) then Done h
  else match list_find (fun c => c ≠ 0) (take 12 (size_caches sa)) with
       | Some (_, c) => cache_free fuel h c obj
       | None => Done h
       end.
End Client.

(** Freeing the empty slabs of every cache that has more than one slab. *)
Definition cache_reap (fuel : nat) (h : heap) (sa : slab_allocator) : outcome heap :=
  let* (h, _) := loop fuel
    (fun '(h, cache) =>
       if cache =? 0 then Done (inr (h, cache))
       else
         let* h := loop fuel
           (fun h =>
              let slab := hload h (cache + sc_empty) in
              if negb (slab =? 0) && (1 <? hload h (cache + sc_num_slabs)) then
                let h := hstore h (cache + sc_empty) (hload h (slab + sl_next)) in
                let h := if negb (hload h (cache + sc_empty) =? 0)
                         then hstore h (hload h (cache + sc_empty) + sl_prev) 0 else h in
                let* h := slab_destroy h cache slab in
                Done (inl h)
              else Done (inr h)) h in
         Done (inl (h, hload h (cache + sc_next)))) (h, cache_chain sa) in
  Done h.

(** "size-" followed by the decimal digits of [size]. *)
Definition size_name (size : Z) : outcome (list Z) :=
  let name := replicate 32 0 in
  let base := [115; 105; 122; 101; 45] in
  let name := for_ 5 (fun pos name => zset name pos (zget 0 base pos)) name in
  let* (_, digits) := while 11 (fun '(t, _) => 0 <? t) (fun '(t, d) => (t / 10, d + 1)) (size, 0) in
  Done (fst (for_ digits (fun k '(name, temp) =>
    let d := digits - 1 - k in
    (zset name (5 + d) (48 + temp mod 10), temp / 10)) (name, size))).

(** [SlabAllocator::init]: one cache per size. *)
Definition slab_init (h : heap) : outcome (heap * slab_allocator) :=
  let* (_, h, sa) := loop 13
    (fun '(i, h, sa) =>
       if negb (i <? 12) then Done (inr (i, h, sa))
       else
         let size := zget 0 size_cache_sizes i in
         let* name := size_name size in
         let* (c, h, sa) := cache_create h sa name size CACHE_ALIGN 0 0 0 in
         Done (inl (i + 1, h, mk_slab_allocator (cache_chain sa) (zset (size_caches sa) i c))))
    (0, h, mk_slab_allocator 0 (replicate 12 0)) in
  Done (h, sa).
