(* ===== verification/SlabSpec.v ===== *)
(** What the slab allocator's operations do: the free list of a slab is a
    stack of well-formed objects, slabs move between the lists of their
    cache, what goes wrong with objects that are not of the first cache, and
    how the objects of a full page destroy the header of the next buddy block. *)

From Stdlib Require Import ZArith Lia.
From stdpp Require Import base list gmap option.
From S2P Require Import Prelude Memory DList Buddy BuddyPartition BuddyInv BuddySpec BuddyInit BuddyProps Strings Slab.

(** ** The free list of one slab *)

(** [apart x n y k]: the [n] bytes at [x] and the [k] bytes at [y] do not overlap. *)
Definition apart (x n y k : Z) : Prop := x + n <= y ∨ y + k <= x.

(** [slab_ok h slab n l]: the slab's free list is [l], every object on it is
    marked, the objects overlap neither each other nor the slab's header, and
    the two counters say how many of the [n] objects are free. *)
Record slab_ok (h : heap) (slab n : Z) (l : list Z) : Prop := {
  sk_list : slist so_next (hmem h) (hload h (slab + sl_freelist)) l;
  sk_magic : ∀ o, o ∈ l → hload h (o + so_magic) = SLAB_MAGIC;
  sk_free : hload h (slab + sl_free) = zlen l;
  sk_inuse : hload h (slab + sl_inuse) = n - zlen l;
  sk_header : ∀ o, o ∈ l → apart o 8 slab sizeof_slab;
  sk_objs : NoDup l ∧ ∀ o p, o ∈ l → p ∈ l → o ≠ p → apart o 8 p 8;
  sk_bound : zlen l <= n < 2 ^ 32;
}.

(** Reading the fields of a heap after some field writes. *)
Ltac heap_simpl :=
  unfold hadd, hload, hstore, set_mem, set_zone; cbn [hmem zone]; mem_simpl.

(** The words of a slab header that allocating and freeing objects change. *)
Definition slab_counters (slab a : Z) : Prop :=
  a = slab + sl_inuse ∨ a = slab + sl_free ∨ a = slab + sl_freelist.

(** [slab_alloc_obj] on a well-formed slab pops the first object of the
    free list and answers null exactly when the list is empty; it counts the
    object as used, keeps the slab well formed and changes no other memory. *)
Lemma slab_alloc_obj_pops h slab n l :
  slab_ok h slab n l →
  match l with
  | [] => slab_alloc_obj h slab = (0, h)
  | o :: l' => ∃ h', slab_alloc_obj h slab = (o, h') ∧ o ≠ 0 ∧ slab_ok h' slab n l' ∧
      zone h' = zone h ∧ ∀ a, ¬ slab_counters slab a → hload h' a = hload h a
  end.
Proof.
  intros [Hl Hm Hf Hi Hh [Hnd Ho] Hb]. unfold slab_alloc_obj.
  destruct l as [|o l]; cbn [slist] in Hl.
  - by rewrite Hl.
  - destruct Hl as (Hhd & Ho0 & Hl). rewrite Hhd, (proj2 (Z.eqb_neq o 0) Ho0), Hm by (by left). simpl.
    pose proof (zlen_nonneg l). rewrite zlen_cons in *.
    assert (apart o 8 slab sizeof_slab) as Hos by (apply Hh; by left).
    unfold apart, sizeof_slab in Hos.
    eexists. split; [done|]. split; [done|].
    assert (∀ a, ¬ slab_counters slab a →
      load (hmem (hadd (hadd (hstore h (slab + sl_freelist) (hload h (o + so_next)))
         (slab + sl_inuse) 1) (slab + sl_free) (-1))) a = load (hmem h) a) as Hfr.
    { intros a Ha. unfold slab_counters, sl_inuse, sl_free, sl_freelist in Ha. unfold sl_inuse, sl_free, sl_freelist.
      heap_simpl. done. }
    split; [|by split].
    assert (∀ p k, p ∈ l → 0 <= k < 8 → ¬ slab_counters slab (p + k)) as Hctr.
    { intros p k Hp Hk. pose proof (Hh p ltac:(by right)) as Hps. unfold apart, sizeof_slab in Hps.
      unfold slab_counters, sl_inuse, sl_free, sl_freelist. lia. }
    split.
    + apply (slist_frame _ (hmem h)).
      * intros p Hp. apply Hfr, Hctr; [done|]. unfold so_next. lia.
      * unfold sl_freelist, sl_inuse, sl_free, so_next in *. heap_simpl. done.
    + intros p Hp. unfold hload. rewrite Hfr by (apply Hctr; [done|unfold so_magic; lia]).
      apply Hm. by right.
    + unfold sl_freelist, sl_inuse, sl_free in *. unfold hload in *. heap_simpl. rewrite Hf.
      rewrite u32_small; lia.
    + unfold sl_freelist, sl_inuse, sl_free in *. unfold hload in *. heap_simpl. rewrite Hi.
      rewrite u32_small; lia.
    + intros p Hp. apply Hh. by right.
    + split; [by apply list.NoDup_cons in Hnd as [_ ?]|]. intros p q Hp Hq. apply Ho; by right.
    + lia.
Qed.

(** An address can be freed to a slab: it is none of its free objects and
    overlaps nothing of the slab. *)
Definition can_free (h : heap) (slab n : Z) (l : list Z) (o : Z) : Prop :=
  o ≠ 0 ∧ apart o 8 slab sizeof_slab ∧ (∀ p, p ∈ l → apart o 8 p 8) ∧ zlen l < n.

(** [slab_free_obj] pushes the object on the slab's free list, so that the
    next [slab_alloc_obj] returns it again, and keeps the slab well formed. *)
Theorem slab_free_obj_spec h slab n l o :
  slab_ok h slab n l → can_free h slab n l o →
  let h' := slab_free_obj h slab o in
  slab_ok h' slab n (o :: l) ∧ fst (slab_alloc_obj h' slab) = o ∧ zone h' = zone h ∧
  (∀ a, ¬ slab_counters slab a → a ≠ o + so_next → a ≠ o + so_magic → hload h' a = hload h a).
Proof.
  intros [Hl Hm Hf Hi Hh [Hnd Ho] Hb] (Ho0 & Hos & Hop & Hn) h'.
  assert (∀ a, ¬ slab_counters slab a → a ≠ o + so_next → a ≠ o + so_magic →
            load (hmem h') a = load (hmem h) a) as Hfr.
  { intros a Ha. unfold slab_counters, sl_inuse, sl_free, sl_freelist, so_next, so_magic in *. intros Ha1 Ha2.
    unfold h', slab_free_obj, sl_inuse, sl_free, sl_freelist, so_next, so_magic. heap_simpl. done. }
  assert (∀ p k, p ∈ l → 0 <= k < 8 → load (hmem h') (p + k) = load (hmem h) (p + k)) as Hfr'.
  { intros p k Hp Hk. pose proof (Hh p Hp) as Hps. pose proof (Hop p Hp) as Hops. unfold apart, sizeof_slab in *.
    apply Hfr; unfold slab_counters, sl_inuse, sl_free, sl_freelist, so_next, so_magic; lia. }
  unfold apart, sizeof_slab in Hos. pose proof (zlen_nonneg l).
  assert (hload h' (slab + sl_freelist) = o ∧ hload h' (o + so_next) = hload h (slab + sl_freelist)
    ∧ hload h' (o + so_magic) = SLAB_MAGIC ∧ hload h' (slab + sl_free) = u32 (zlen l + 1)
    ∧ hload h' (slab + sl_inuse) = u32 (n - zlen l - 1)) as (E1 & E2 & E3 & E4 & E5).
  { rewrite <- Hf at 1. rewrite <- Hi. unfold h', slab_free_obj, sl_inuse, sl_free, sl_freelist, so_next, so_magic.
    heap_simpl. done. }
  assert (slab_ok h' slab n (o :: l)) as Hok.
  { split.
    - rewrite E1. split; [done|]. split; [done|]. change (load (hmem h') (o + so_next)) with (hload h' (o + so_next)).
      rewrite E2. eapply slist_frame; [|exact Hl]. intros p Hp. apply Hfr'; [done|unfold so_next; lia].
    - intros p [->|Hp]%elem_of_cons; [done|]. unfold hload. rewrite Hfr' by (done || unfold so_magic; lia).
      by apply Hm.
    - rewrite E4, zlen_cons, u32_small; lia.
    - rewrite E5, zlen_cons, u32_small; lia.
    - intros p [->|Hp]%elem_of_cons; [exact Hos|by apply Hh].
    - split.
      + constructor; [|done]. intros Hin%Hop. unfold apart in Hin. lia.
      + intros p q [->|Hp]%elem_of_cons [->|Hq]%elem_of_cons Hne; try done.
        * by apply Hop.
        * destruct (Hop p Hp); [by right|by left].
        * by apply Ho.
    - rewrite zlen_cons. lia. }
  split; [done|]. split; [|split; [done|exact Hfr]].
  destruct (slab_alloc_obj_pops _ _ _ _ Hok) as (h2 & E & _). by rewrite E.
Qed.

(** ** Carving a new slab *)

(** The objects [slab_carve] threads onto the free list, the last one first. *)
Definition slab_objects (mem obj_size : Z) (n : nat) : list Z :=
  rev (map (fun i => mem + Z.of_nat i * obj_size) (seq 0 n)).

Lemma slab_objects_S mem sz n :
  slab_objects mem sz (S n) = mem + Z.of_nat n * sz :: slab_objects mem sz n.
Proof. unfold slab_objects. by rewrite seq_S, map_app, rev_app_distr. Qed.

Lemma slab_objects_elem mem sz n o :
  o ∈ slab_objects mem sz n → ∃ i, 0 <= i < Z.of_nat n ∧ o = mem + i * sz.
Proof.
  induction n as [|n IH]; [by intros ?%not_elem_of_nil|].
  rewrite slab_objects_S. intros [->|H]%elem_of_cons.
  - exists (Z.of_nat n). lia.
  - destruct (IH H) as (i & ? & ->). exists i. lia.
Qed.

(** The header words carving does not touch, and neither does the zone. *)
Lemma slab_carve_step h slab mem sz k :
  8 <= sz → 0 < mem → (∀ i, 0 <= i <= k → apart (mem + i * sz) 8 slab sizeof_slab) → 0 <= k →
  slist so_next (hmem h) (hload h (slab + sl_freelist)) (slab_objects mem sz (Z.to_nat k)) →
  (∀ o, o ∈ slab_objects mem sz (Z.to_nat k) → hload h (o + so_magic) = SLAB_MAGIC) →
  let o := mem + k * sz in
  let h1 := hstore h (o + so_next) (hload h (slab + sl_freelist)) in
  let h2 := hstore h1 (o + so_magic) SLAB_MAGIC in
  let h' := hstore h2 (slab + sl_freelist) o in
  slist so_next (hmem h') (hload h' (slab + sl_freelist)) (slab_objects mem sz (Z.to_nat (k + 1))) ∧
  (∀ o, o ∈ slab_objects mem sz (Z.to_nat (k + 1)) → hload h' (o + so_magic) = SLAB_MAGIC).
Proof.
  intros Hsz Hmem Hap Hk Hl Hm o h1 h2 h'.
  assert (∀ p d, p ∈ slab_objects mem sz (Z.to_nat k) → 0 <= d < 8 →
            load (hmem h') (p + d) = load (hmem h) (p + d)) as Hfr.
  { intros p d Hp Hd. apply slab_objects_elem in Hp as (i & Hi & ->).
    pose proof (Hap i ltac:(lia)). pose proof (Hap k ltac:(lia)). unfold apart, sizeof_slab in *.
    assert ((k - i) * sz >= sz) by nia.
    unfold h', h2, h1, o, so_next, so_magic, sl_freelist. heap_simpl. done. }
  replace (Z.to_nat (k + 1)) with (S (Z.to_nat k)) by lia. rewrite slab_objects_S, Z2Nat.id by lia. fold o.
  pose proof (Hap k ltac:(lia)) as Hak. fold o in Hak. unfold apart, sizeof_slab in Hak.
  assert (hload h' (slab + sl_freelist) = o ∧ load (hmem h') (o + so_next) = hload h (slab + sl_freelist)
     ∧ hload h' (o + so_magic) = SLAB_MAGIC) as (E1 & E2 & E3).
  { unfold h', h2, h1, so_next, so_magic, sl_freelist. clearbody o. heap_simpl. done. }
  split.
  - rewrite E1. split; [done|]. split; [unfold o; nia|]. rewrite E2.
    eapply slist_frame; [|exact Hl]. intros p Hp. apply Hfr; [done|unfold so_next; lia].
  - intros p [->|Hp]%elem_of_cons; [done|]. unfold hload. rewrite Hfr by (done || unfold so_magic; lia).
    by apply Hm.
Qed.

(** Carving a new slab links [n] distinct, marked objects, [obj_size]
    bytes apart, into its free list, when the objects and the slab's header
    do not overlap. *)
Theorem slab_carve_spec h slab mem sz n :
  8 <= sz → 0 < mem → 0 <= n → (∀ i, 0 <= i < n → apart (mem + i * sz) 8 slab sizeof_slab) →
  hload h (slab + sl_freelist) = 0 →
  let h' := slab_carve h slab mem sz n in
  slist so_next (hmem h') (hload h' (slab + sl_freelist)) (slab_objects mem sz (Z.to_nat n)) ∧
  (∀ o, o ∈ slab_objects mem sz (Z.to_nat n) → hload h' (o + so_magic) = SLAB_MAGIC).
Proof.
  intros Hsz Hmem Hn Hap Hfl h'. unfold h', slab_carve.
  set (body := fun (_ : Z) '(obj_ptr, h) => _).
  pose proof (for_inv (fun k '(p, h') => p = mem + k * sz ∧
    slist so_next (hmem h') (hload h' (slab + sl_freelist)) (slab_objects mem sz (Z.to_nat k)) ∧
    (∀ o, o ∈ slab_objects mem sz (Z.to_nat k) → hload h' (o + so_magic) = SLAB_MAGIC)) body n (mem, h)) as H.
  destruct (for_ n body (mem, h)) as [p hf]. destruct H as (_ & H1 & H2); [done| | |done].
  - split; [lia|]. split; [done|]. intros o Ho. by apply not_elem_of_nil in Ho.
  - intros j [q hj] Hj (-> & Hl & Hm). unfold body. split; [lia|].
    apply slab_carve_step; try done; [|lia]. intros i Hi. apply Hap. lia.
Qed.

(** ** Moving a slab between the lists of its cache *)

Lemma sl_np : sl_next ≠ sl_prev.
Proof. done. Qed.

(** [move_slab] is unlinking from the one list and pushing on the other. *)
Lemma move_slab_mem h from to x :
  from ≠ x + sl_next → from ≠ x + sl_prev →
  hload h (x + sl_next) = 0 ∨ from ≠ hload h (x + sl_next) + sl_prev →
  to ≠ x + sl_next → to ≠ x + sl_prev →
  let (m1, hd) := dl_remove sl_next sl_prev (hmem h) (hload h from) x in
  let m2 := if hload h (x + sl_prev) =? 0 then store m1 from hd else m1 in
  move_slab h from to x = set_mem h (store (dl_push sl_next sl_prev m2 (load m2 to) x) to x).
Proof.
  intros Hf1 Hf2 Hf3 Ht1 Ht2. unfold dl_remove, move_slab, dl_push, hload, hstore, set_mem in *.
  destruct (load (hmem h) (x + sl_prev) =? 0) eqn:E; cbn [negb hmem zone].
  - rewrite (load_store_ne _ from (x + sl_next)), (load_store_ne _ from (x + sl_prev)) by done.
    destruct (load (hmem h) (x + sl_next) =? 0) eqn:E2; cbn [negb hmem zone].
    + rewrite (load_store_ne _ (x + sl_prev) to), (load_store_ne _ (x + sl_next) to) by done.
      match goal with |- context [load ?m to =? 0] => by destruct (load m to =? 0) end.
    + assert (store (store (hmem h) from (load (hmem h) (x + sl_next)))
                (load (hmem h) (x + sl_next) + sl_prev) (load (hmem h) (x + sl_prev))
              = store (store (hmem h) (load (hmem h) (x + sl_next) + sl_prev) (load (hmem h) (x + sl_prev)))
                from (load (hmem h) (x + sl_next))) as ->.
      { apply insert_insert_ne. zify_bool. destruct Hf3; done. }
      rewrite (load_store_ne _ (x + sl_prev) to), (load_store_ne _ (x + sl_next) to) by done.
      match goal with |- context [load ?m to =? 0] => by destruct (load m to =? 0) end.
  - destruct (load _ (x + sl_next) =? 0) eqn:E2; cbn [negb hmem zone];
      rewrite (load_store_ne _ (x + sl_prev) to), (load_store_ne _ (x + sl_next) to) by done;
      match goal with |- context [load ?m to =? 0] => by destruct (load m to =? 0) end.
Qed.

(** The neighbours of [x] in a list, as its own fields show them. *)
Lemma dlist_neighbours m p l1 x l2 :
  dlist sl_next sl_prev m p (l1 ++ x :: l2) →
  (load m (x + sl_next) = 0 ∨ load m (x + sl_next) ∈ l2) ∧
  ((load m (x + sl_prev) =? 0) = false → hd 0 (l1 ++ l2) = p).
Proof.
  intros (-> & Hs & _). apply dseg_app in Hs as [Hs1 (_ & Ep & En & _)]. split.
  - rewrite En. destruct l2; [by left|right; left].
  - rewrite Ep. by destruct l1.
Qed.

Section move.
Context (h : heap) (from to x : Z) (l1 l2 t : list Z).
Let all := (l1 ++ x :: l2) ++ t.
Context (Hd : dlist sl_next sl_prev (hmem h) (hload h from) (l1 ++ x :: l2)).
Context (Ht : dlist sl_next sl_prev (hmem h) (hload h to) t).
Context (Hnd : NoDup all) (Hft : from ≠ to).
Context (Hcf : off_list sl_next sl_prev from all) (Hct : off_list sl_next sl_prev to all).
Context (Hsep : ∀ y z, y ∈ all → z ∈ all → link_sep sl_next sl_prev y z).

Lemma move_unlinked :
  ∃ m2, move_slab h from to x = set_mem h (store (dl_push sl_next sl_prev m2 (hload h to) x) to x) ∧
    load m2 from = hd 0 (l1 ++ l2) ∧ dlist sl_next sl_prev m2 (hd 0 (l1 ++ l2)) (l1 ++ l2) ∧
    (∀ a, a ≠ from → off_list sl_next sl_prev a (l1 ++ l2) → load m2 a = hload h a).
Proof.
  assert (x ∈ all) as Hx by (unfold all; set_solver).
  destruct (Hcf x Hx) as [Hfx1 Hfx2]. destruct (Hct x Hx) as [Htx1 Htx2].
  destruct (dl_remove_dlist _ _ sl_np _ _ _ _ _ Hd) as (m1 & Erm & Hd1 & Hf1).
  destruct (dlist_neighbours _ _ _ _ _ Hd) as [Hnx Hpv].
  assert (hload h (x + sl_next) = 0 ∨ from ≠ hload h (x + sl_next) + sl_prev) as Hfn.
  { destruct Hnx as [?|Hin]; [by left|right]. apply (Hcf _). unfold all. set_solver. }
  assert (∀ c, off_list sl_next sl_prev c all → off_list sl_next sl_prev c (l1 ++ l2)) as Hoff.
  { intros c Hc y Hy. apply Hc. unfold all. set_solver. }
  pose proof (move_slab_mem h from to x Hfx1 Hfx2 Hfn Htx1 Htx2) as E. rewrite Erm in E.
  destruct (hload h (x + sl_prev) =? 0) eqn:Ep; cbv beta iota zeta in E.
  - eexists. split; [rewrite load_store_ne, (Hf1 to (Hoff _ Hct)) in E by done; exact E|].
    split; [apply load_store_eq|]. split.
    + apply (dlist_frame _ _ sl_np m1); [|done]. intros y Hy. destruct (Hoff _ Hcf y Hy).
      by rewrite !load_store_ne.
    + intros a Ha Hoa. rewrite load_store_ne by done. by apply Hf1.
  - exists m1. split; [rewrite (Hf1 to (Hoff _ Hct)) in E; exact E|].
    split; [rewrite (Hf1 from (Hoff _ Hcf)); symmetry; by apply Hpv|].
    split; [done|]. intros a _. apply Hf1.
Qed.

Lemma move_disjoint :
  x ∉ l1 ++ l2 ∧ x ∉ t ∧ (∀ y, y ∈ l1 ++ l2 → y ∉ t) ∧
  (∀ y, y ∈ l1 ++ l2 → y ∈ all) ∧ (∀ y, y ∈ t → y ∈ all) ∧ x ∈ all.
Proof.
  unfold all in *. apply list.NoDup_app in Hnd as (H1 & H2 & _).
  apply list.NoDup_app in H1 as (_ & H3 & H4). apply list.NoDup_cons in H4 as [H4 _].
  set_solver.
Qed.
End move.

(** [move_slab] takes a slab from wherever it is in the list at [from] and
    puts it in front of the list at [to]: both lists stay well-formed doubly
    linked lists, with exactly those slabs, and no word other than link
    fields of the slabs and the two heads changes. *)
Theorem move_slab_spec h from to x l1 l2 t :
  let all := (l1 ++ x :: l2) ++ t in
  dlist sl_next sl_prev (hmem h) (hload h from) (l1 ++ x :: l2) →
  dlist sl_next sl_prev (hmem h) (hload h to) t →
  NoDup all → from ≠ to → off_list sl_next sl_prev from all → off_list sl_next sl_prev to all →
  (∀ y z, y ∈ all → z ∈ all → link_sep sl_next sl_prev y z) →
  let h' := move_slab h from to x in
  dlist sl_next sl_prev (hmem h') (hload h' from) (l1 ++ l2) ∧
  dlist sl_next sl_prev (hmem h') (hload h' to) (x :: t) ∧
  (∀ a, a ≠ from → a ≠ to → off_list sl_next sl_prev a all → hload h' a = hload h a).
Proof.
  intros all Hd Ht Hnd Hft Hcf Hct Hsep h'.
  destruct (move_unlinked h from to x l1 l2 t Hd Ht Hnd Hft Hcf Hct Hsep) as (m2 & E & Hm2f & Hd2 & Hm2).
  destruct (move_disjoint h from to x l1 l2 t Hd Ht Hnd Hft Hcf Hct Hsep) as (Hx12 & Hxt & H12t & Hin12 & Hint & Hx).
  set (m3 := dl_push sl_next sl_prev m2 (hload h to) x) in E.
  assert (hload h to = 0 ∨ hload h to ∈ t) as Hhead.
  { destruct Ht as (-> & _). destruct t; [by left|right; left]. }
  assert (∀ a, off_list sl_next sl_prev a (x :: t) → load m3 a = load m2 a) as Hm3.
  { intros a Ha. apply dl_push_other'; [apply (Ha x); left..|].
    destruct Hhead as [?|Hh]; [by left|right]. apply (Ha (hload h to)). by right. }
  assert (dlist sl_next sl_prev m3 x (x :: t)) as Hd3.
  { apply (dl_push_dlist _ _ sl_np); [|by destruct (Hcf x Hx); destruct Hd as (_ & Hs & _);
      apply dseg_app in Hs as [_ (? & _)]|done|intros y Hy; apply Hsep; auto].
    eapply (dlist_frame_off _ _ sl_np); [|exact Ht]. intros a (y & o & Hy & Ho & ->). apply Hm2.
    - destruct (Hcf y (Hint _ Hy)). destruct Ho as [-> | ->]; auto.
    - apply (off_list_node _ _ sl_np); [done|by intros ?%H12t|]. intros z Hz. apply Hsep; auto. }
  assert (∀ a, a ≠ to → load (hmem h') a = load m3 a) as Hfin.
  { intros a Ha. unfold h'. rewrite E. by apply load_store_ne. }
  assert (∀ y o, y ∈ all → (o = sl_next ∨ o = sl_prev) → y + o ≠ to) as Hto.
  { intros y o Hy Ho. destruct (Hct y Hy). destruct Ho as [-> | ->]; auto. }
  assert (∀ c, off_list sl_next sl_prev c all → off_list sl_next sl_prev c (x :: t)) as Hoff.
  { intros c Hc y [->|Hy]%elem_of_cons; [by apply Hc|by apply Hc, Hint]. }
  split; [|split].
  - assert (hload h' from = hd 0 (l1 ++ l2)) as ->.
    { unfold hload. by rewrite Hfin, Hm3, Hm2f by (done || by apply Hoff). }
    eapply (dlist_frame_off _ _ sl_np); [|exact Hd2]. intros a (y & o & Hy & Ho & ->).
    rewrite Hfin by auto. apply Hm3. apply (off_list_node _ _ sl_np); [done| |].
    + intros [->|Hyt]%elem_of_cons; [done|]. by apply H12t in Hy.
    + intros z [->|Hz]%elem_of_cons; apply Hsep; auto.
  - assert (hload h' to = x) as -> by (unfold hload, h'; rewrite E; apply load_store_eq).
    eapply (dlist_frame_off _ _ sl_np); [|exact Hd3]. intros a (y & o & Hy & Ho & ->).
    apply Hfin, Hto; [|done]. apply elem_of_cons in Hy as [->|Hy]; auto.
  - intros a Haf Hat Hoa. unfold hload. rewrite Hfin, Hm3 by (done || by apply Hoff). apply Hm2; [done|].
    intros y Hy. by apply Hoa, Hin12.
Qed.

(** ** Caches *)

Lemma cache_slab_size_eq obj_size : cache_slab_size obj_size = Done 4096.
Proof. unfold cache_slab_size, while. cbn [loop]. by rewrite andb_false_r. Qed.

Lemma get_order_4096 : get_order 4096 = Done 0.
Proof. reflexivity. Qed.

(** [(size + 7) & ~7] *)
Lemma cache_obj_size size :
  0 < size <= 0x80000000 →
  Z.land (u32 (size + CACHE_ALIGN - 1)) (u32 (Z.lnot (CACHE_ALIGN - 1))) = (size + 7) / 8 * 8.
Proof.
  intros Hs. unfold CACHE_ALIGN. rewrite u32_small by lia. rewrite (land_align _ 3) by lia.
  change (2 ^ 3) with 8. by replace (size + 8 - 1) with (size + 7) by lia.
Qed.

Lemma round8_bounds size : 0 < size → 8 <= (size + 7) / 8 * 8 ∧ size <= (size + 7) / 8 * 8.
Proof.
  intros. pose proof (Z.div_mod (size + 7) 8 ltac:(lia)). pose proof (Z.mod_pos_bound (size + 7) 8 ltac:(lia)).
  assert (1 <= (size + 7) / 8) by (apply Z.div_le_lower_bound; lia). lia.
Qed.

Lemma copy_name_writes h cache name :
  (4 | cache) → only_writes (in_block cache sizeof_slab_cache) h (copy_name h cache name).
Proof.
  intros [i ->]. unfold copy_name.
  set (body := fun (_ : Z) '(h, go) => _).
  pose proof (for_inv (fun _ '(h', _) => only_writes (in_block (i * 4) sizeof_slab_cache) h h') body 32 (h, true)) as H.
  destruct (for_ 32 body (h, true)) as [hf go]. simpl. apply H; [lia|reflexivity|].
  intros j [hj g] Hj Hw. unfold body. case_if; [|done].
  etransitivity; [exact Hw|]. apply only_writes_hstore8. unfold in_block, sizeof_slab_cache, sc_name.
  pose proof (Z.mod_pos_bound (i * 4 + 4 + j) 4 ltac:(lia)).
  assert ((i * 4 + 4 + j) mod 4 = j mod 4) as E.
  { replace (i * 4 + 4 + j) with (j + (i + 1) * 4) by lia. apply Z.mod_add. lia. }
  rewrite E. pose proof (Z.mod_le j 4 ltac:(lia) ltac:(lia)). lia.
Qed.

(** [cache_create] returns: null, with nothing changed, when the buddy
    allocator has no block left, or a new cache in front of the chain, empty,
    with the object size rounded up to 8 bytes.  Every cache has one-page
    slabs (the loop that should enlarge them never runs) of
    [4096 / obj_size] objects, so a cache for objects above 4096 bytes has
    slabs with no object at all. *)
Theorem cache_create_spec h A sa name size flags ctor dtor :
  buddy_ok h A → 0 < size <= 0x80000000 →
  (cache_create h sa name size CACHE_ALIGN flags ctor dtor = Done (0, h, sa) ∧
     ∀ j, 0 <= j <= MAX_ORDER → flist h j = 0) ∨
  ∃ c h', cache_create h sa name size CACHE_ALIGN flags ctor dtor
        = Done (c, h', mk_slab_allocator c (size_caches sa)) ∧
    allocated h A 0 c h' ∧ hload h' (c + sc_next) = cache_chain sa ∧
    let obj_size := (size + 7) / 8 * 8 in
    hload h' (c + sc_obj_size) = obj_size ∧ hload h' (c + sc_order) = 0 ∧
    hload h' (c + sc_num_objs) = 4096 / obj_size ∧ (4096 < size → hload h' (c + sc_num_objs) = 0) ∧
    hload h' (c + sc_full) = 0 ∧ hload h' (c + sc_partial) = 0 ∧ hload h' (c + sc_empty) = 0 ∧
    hload h' (c + sc_num_slabs) = 0 ∧ hload h' (c + sc_active) = 0 ∧ hload h' (c + sc_free) = 0.
Proof.
  intros Hok Hsz.
  destruct (alloc_returns h A sizeof_slab_cache Hok ltac:(unfold sizeof_slab_cache; lia))
    as (k & Ek & Halloc).
  assert (k = 0) as -> by (vm_compute in Ek; congruence).
  destruct Halloc as [[E Hnone]|(c & h1 & E & Hall)]; unfold cache_create; rewrite E; cbn [obind];
    [by left|right].
  destruct (allocated_pointer _ _ _ _ _ Hall) as [Hc Hal].
  rewrite (proj2 (Z.eqb_neq c 0) Hc), cache_slab_size_eq. cbn [obind]. rewrite get_order_4096. cbn [obind].
  rewrite cache_obj_size by done. destruct (round8_bounds size ltac:(lia)) as [Hsz8 Hszs].
  set (sz := (size + 7) / 8 * 8) in *.
  unfold calculate_num_objs. rewrite (proj2 (Z.eqb_neq sz 0)) by lia. cbn [obind].
  pose proof (copy_name_writes h1 c name Hal) as Hcopy. set (h2 := copy_name h1 c name) in *.
  set (n := 4096 / sz). assert (4096 < size → n = 0) as Hn0 by (intros; apply Z.div_small; lia).
  do 2 eexists. split; [reflexivity|]. split.
  { eapply (new_block_writes _ _ _ _ _ sizeof_slab_cache); [exact Hall|done|].
    repeat (eapply only_writes_then_hstore; [|unfold in_block, sizeof_slab_cache, sc_next, sc_obj_size, sc_align, sc_flags,
      sc_num_objs, sc_order, sc_full, sc_partial, sc_empty, sc_num_slabs, sc_active, sc_free, sc_ctor, sc_dtor; lia]).
    exact Hcopy. }
  clearbody h2 n.
  unfold sc_next, sc_obj_size, sc_align, sc_flags,
      sc_num_objs, sc_order, sc_full, sc_partial, sc_empty, sc_num_slabs, sc_active, sc_free, sc_ctor, sc_dtor.
  heap_simpl. do 4 (split; [done|]). split; [|done]. done.
Qed.

Lemma find_size_cache_large sa size : 16384 < size → find_size_cache sa size = 0.
Proof.
  intros Hs. unfold find_size_cache. destruct (list_find _ _) as [[i s]|] eqn:E; [|done].
  apply list_find_Some in E as (Hi & Hle & _).
  assert (Forall (λ s, s <= 16384) size_cache_sizes) as Hall by (by repeat constructor).
  rewrite Forall_lookup in Hall. apply Hall in Hi. lia.
Qed.

(** ** Freeing by address *)

(** [obj] lies in the memory of [slab]. *)
Definition in_slab (h : heap) (slab obj : Z) : bool :=
  (hload h (slab + sl_mem) <=? obj) &&
  (obj <? hload h (slab + sl_mem) + block_size (hload h (slab + sl_order))).

(** The search through one list of slabs ends, with the first slab that
    contains the object. *)
Lemma find_slab_spec fuel h p l obj :
  slist sl_next (hmem h) p l → (length l < fuel)%nat →
  find_slab fuel h p obj = Done (default 0 (snd <$> list_find (λ s, Is_true (in_slab h s obj)) l)).
Proof.
  unfold find_slab. revert p fuel. induction l as [|x l IH]; intros p [|fuel] Hl Hf; simpl in Hf; try lia;
    cbn [loop slist] in *.
  - subst p. done.
  - destruct Hl as (-> & Hx & Hl). rewrite (proj2 (Z.eqb_neq x 0) Hx). cbn [obind].
    cbn [list_find]. fold (hload h (x + sl_next)) in Hl.
    change ((hload h (x + sl_mem) <=? obj) && _) with (in_slab h x obj).
    destruct (decide (in_slab h x obj)) as [Hd|Hd]; destruct (in_slab h x obj) eqn:E; try done.
    rewrite (IH _ fuel Hl) by lia. by destruct (list_find _ l) as [[]|].
Qed.

(** [kmem_cache_free] looks for the object in the first size cache only:
    an object of any other cache is silently not freed, the heap is left as
    it was.  (The loop over the caches returns in its first round.) *)
Theorem kmem_cache_free_other_cache call fuel h sa obj c0 rest lf lp :
  size_caches sa = c0 :: rest → c0 ≠ 0 →
  slist sl_next (hmem h) (hload h (c0 + sc_full)) lf → (length lf < fuel)%nat →
  slist sl_next (hmem h) (hload h (c0 + sc_partial)) lp → (length lp < fuel)%nat →
  (∀ s, s ∈ lf ++ lp → in_slab h s obj = false) →
  kmem_cache_free call fuel h sa obj = Done h.
Proof.
  intros Hsc Hc0 Hlf Hff Hlp Hfp Hno. unfold kmem_cache_free. rewrite Hsc.
  case_if; [done|]. case_if; [done|]. cbn [take list_find]. rewrite decide_True by done.
  unfold cache_free. rewrite (proj2 (Z.eqb_neq c0 0) Hc0), (proj2 (Z.eqb_neq obj 0)) by done. cbn [orb].
  assert (∀ l, (∀ s, s ∈ l → s ∈ lf ++ lp) → list_find (λ s, Is_true (in_slab h s obj)) l = None) as Hnone.
  { intros l Hl. apply list_find_None, list.Forall_forall. intros s Hs. simpl. rewrite (Hno _ (Hl _ Hs)). by intros []. }
  rewrite (find_slab_spec _ _ _ _ _ Hlf Hff), Hnone by (intros; apply elem_of_app; by left). simpl.
  rewrite (find_slab_spec _ _ _ _ _ Hlp Hfp), Hnone by (intros; apply elem_of_app; by right). done.
Qed.

(** ** What the objects of the 8-byte cache do to the buddy allocator *)

(** The words carving writes: the objects, and the head of the free list. *)
Lemma slab_carve_writes h slab mem sz n :
  8 <= sz → 0 <= n → only_writes (fun a => a = slab + sl_freelist ∨ in_block mem (n * sz) a) h (slab_carve h slab mem sz n).
Proof.
  intros Hsz Hn. unfold slab_carve. set (P := fun a => _). set (body := fun (_ : Z) '(obj_ptr, h) => _).
  pose proof (for_inv (fun k '(p, h') => p = mem + k * sz ∧ only_writes P h h') body n (mem, h)) as H.
  destruct (for_ n body (mem, h)) as [p hf]. destruct H as [_ H]; [done|split; [lia|reflexivity]| |exact H].
  intros j [q hj] Hj [-> Hw]. unfold body. split; [lia|].
  repeat (eapply only_writes_then_hstore; [|unfold P, in_block, so_next, so_magic; (left; done) || (right; nia)]). exact Hw.
Qed.

(** Behind every block but the last of the region there is the header of another. *)
Lemma block_behind h B A b k a :
  wf h B ∅ A → B !! b = Some (k, a) → b + bsize k < zend h → ∃ j d, B !! (b + bsize k) = Some (j, d).
Proof.
  intros Hwf HB Hlt. pose proof (wf_shape _ _ _ _ Hwf) as Sh.
  destruct (shape_block _ _ _ Sh _ _ _ HB) as (Hk & Hs & _). pose proof (bsize_ge k ltac:(lia)).
  destruct (shape_cover _ _ _ Sh (b + bsize k)) as (c & j & d & Hc & Hr); [lia|].
  destruct (decide (b = c)) as [->|Hne]; [simplify_eq; lia|].
  destruct (shape_disj _ _ _ Sh _ _ _ _ _ _ HB Hc Hne); [|lia]. exists j, d. by replace (b + bsize k) with c by lia.
Qed.

Lemma next_magic h A b k : buddy_ok h A → A !! b = Some k → b + bsize k < zend h → hload h (b + bsize k + bb_magic) = BUDDY_MAGIC.
Proof.
  intros [B Hwf] Hb Hlt. apply (wf_live _ _ _ _ Hwf) in Hb as [Hb _].
  destruct (block_behind _ _ _ _ _ _ Hwf Hb Hlt) as (j & d & HB). apply (wf_hdr _ _ _ _ Hwf _ _ _ HB).
Qed.

(** A cache of 8-byte objects at [cache] that has no slab yet, as
    [cache_create] leaves it. *)
Record cache8 (h : heap) (cache : Z) : Prop := {
  c8_size : hload h (cache + sc_obj_size) = 8;
  c8_num : hload h (cache + sc_num_objs) = 512;
  c8_order : hload h (cache + sc_order) = 0;
  c8_partial : hload h (cache + sc_partial) = 0;
  c8_empty : hload h (cache + sc_empty) = 0;
  c8_ctor : hload h (cache + sc_ctor) = 0;
}.

Lemma cache8_step h h' A c kc :
  A !! c = Some kc → 0 <= kc → heap_step A h h' → cache8 h (c + sizeof_buddy_block) → cache8 h' (c + sizeof_buddy_block).
Proof.
  intros Hc Hkc (_ & _ & Hag) [H1 H2 H3 H4 H5 H6]. pose proof (bsize_ge kc Hkc).
  assert (∀ o, 0 <= o < sizeof_slab_cache → hload h' (c + sizeof_buddy_block + o) = hload h (c + sizeof_buddy_block + o)) as E.
  { intros o Ho. symmetry. apply Hag. exists c, kc. split; [done|]. unfold sizeof_buddy_block, sizeof_slab_cache in *. lia. }
  split; rewrite E; done.
Qed.

(** There are fewer than two pages free. *)
Definition short_of_pages (h : heap) (A : gmap Z Z) : Prop :=
  (∀ q, ¬ room_at h A 0 q) ∨ ∃ s, room_at h A 0 s ∧ ∀ q, ¬ room_at h (<[s := 0]> A) 0 q.

(** The two requests of [slab_create]: a page [s] for the slab, a page [b] for
    its objects; neither overlaps the other or the live block [c]. *)
Record two_pages (h : heap) (A : gmap Z Z) (c s b : Z) (h1 h2 : heap) : Prop := {
  tp_alloc : alloc h sizeof_slab = Done (s + sizeof_buddy_block, h1);
  tp_order : alloc_order h1 0 = Done (b + sizeof_buddy_block, h2);
  tp_ok : buddy_ok h2 (<[b := 0]> (<[s := 0]> A));
  tp_step1 : heap_step A h h1;
  tp_step : heap_step A h h2;
  tp_apart : 0 < b ∧ 0 < s ∧ apart c 4096 s 4096 ∧ apart c 4096 b 4096 ∧ apart s 4096 b 4096;
}.

Lemma two_pages_or_none h A c kc :
  buddy_ok h A → A !! c = Some kc →
  (short_of_pages h A ∧ (alloc h sizeof_slab = Done (0, h) ∨
     ∃ s h1 h', alloc h sizeof_slab = Done (s + sizeof_buddy_block, h1) ∧ s + sizeof_buddy_block ≠ 0 ∧ heap_step A h h1 ∧
       alloc_order h1 0 = Done (0, h1) ∧ free h1 (s + sizeof_buddy_block) = Done h' ∧ buddy_ok h' A)) ∨
  ∃ s b h1 h2, two_pages h A c s b h1 h2.
Proof.
  intros Hok Hc. destruct (alloc_returns h A sizeof_slab Hok ltac:(unfold sizeof_slab; lia)) as (k & Ek & Ha).
  assert (k = 0) as -> by (vm_compute in Ek; congruence).
  destruct Ha as [[E Hno]|(p & h1 & E & s & -> & Hs0 & HA & Hok1 & Hst)].
  { left. split; [|by left]. left. by apply (no_room _ _ _ Hok). }
  pose proof (new_block_room _ _ _ _ _ HA Hok1 Hst) as Hroom.
  destruct (alloc_order_returns h1 _ 0 Hok1 ltac:(done)) as [[E2 Hno]|(p & h2 & E2 & b & -> & Hb0 & HA2 & Hok2 & Hst2)].
  - left. split.
    + right. exists s. split; [done|]. intros q Hq. apply (proj1 (no_room _ _ _ Hok1 ltac:(done)) Hno q).
      destruct Hst as (Es & Ee & _). unfold room_at in *. by rewrite Es, Ee.
    + right. destruct (free_live h1 _ s 0 Hok1) as (h' & E3 & Hok' & _); [by rewrite lookup_insert_eq|].
      exists s, h1, h'. rewrite delete_insert_id in Hok' by done. done.
  - right. exists s, b, h1, h2.
    assert (s ≠ b) as Hsb by (intros ->; by rewrite lookup_insert_eq in HA2).
    rewrite lookup_insert_ne in HA2 by done. assert (c ≠ s ∧ c ≠ b) as [Hcs Hcb] by (split; intros ->; congruence).
    pose proof Hok2 as [B2 Hwf2]. destruct (wf_region _ _ _ _ Hwf2) as (_ & H0 & _).
    assert (<[b := 0]> (<[s := 0]> A) !! s = Some 0) as Es by (by rewrite lookup_insert_ne, lookup_insert_eq).
    assert (<[b := 0]> (<[s := 0]> A) !! b = Some 0) as Eb by (by rewrite lookup_insert_eq).
    assert (<[b := 0]> (<[s := 0]> A) !! c = Some kc) as Ec by (by rewrite !lookup_insert_ne).
    destruct (live_disjoint _ _ _ _ Hok2 Ec) as (Hkc & _ & _ & _ & Dc).
    destruct (live_disjoint _ _ _ _ Hok2 Es) as (_ & Hs1 & _ & _ & Ds).
    destruct (live_disjoint _ _ _ _ Hok2 Eb) as (_ & Hb1 & _ & _ & _). pose proof (bsize_ge kc ltac:(lia)).
    specialize (Ds b 0 Eb Hsb). pose proof (Dc s 0 Es Hcs). pose proof (Dc b 0 Eb Hcb). rewrite bsize_0 in *.
    split; [done|done|done|done| |unfold apart; repeat split; lia].
    transitivity h1; [done|]. destruct Hst2 as (F1 & F2 & F3). split; [done|]. split; [done|].
    eapply agree_on_weaken; [|exact F3]. intros a (b' & k' & Hb' & Hr). exists b', k'. split; [|done].
    rewrite lookup_insert_ne; [done|]. intros ->. congruence.
Qed.

(** The header of a new slab. *)
Lemma slab_header_stores h slab v1 v2 v3 v4 v5 v6 v7 v8 v9 :
  let hs := hstore (hstore (hstore (hstore (hstore (hstore (hstore (hstore (hstore h (slab + sl_mem) v1) (slab + sl_inuse) v2)
    (slab + sl_free) v3) (slab + sl_size) v4) (slab + sl_order) v5) (slab + sl_magic) v6) (slab + sl_next) v7) (slab + sl_prev) v8)
    (slab + sl_freelist) v9 in
  only_writes (in_block slab sizeof_slab) h hs ∧ hload hs (slab + sl_freelist) = v9 ∧ hload hs (slab + sl_free) = v3.
Proof.
  intros hs. unfold hs, sl_mem, sl_inuse, sl_free, sl_size, sl_order, sl_magic, sl_next, sl_prev, sl_freelist. split.
  - repeat (eapply only_writes_then_hstore; [|unfold in_block, sizeof_slab; lia]). reflexivity.
  - heap_simpl. done.
Qed.

(** Carving the 512 objects of a page: the last one is first on the list. *)
Lemma slab_carve8 h slab mem :
  0 < mem → (∀ i, 0 <= i < 512 → apart (mem + i * 8) 8 slab sizeof_slab) → hload h (slab + sl_freelist) = 0 →
  ∃ hc, slab_carve h slab mem 8 512 = hc ∧ only_writes (fun a => a = slab + sl_freelist ∨ in_block mem 4096 a) h hc ∧
    hload hc (slab + sl_freelist) = mem + 4088 ∧ hload hc (mem + 4088 + so_next) = mem + 4080 ∧ hload hc (mem + 4088 + so_magic) = SLAB_MAGIC.
Proof.
  intros Hmem Hap Hf. eexists. split; [reflexivity|].
  destruct (slab_carve_spec h slab mem 8 512) as [Hl Hm]; [lia|done|lia|done|done|].
  pose proof (slab_carve_writes h slab mem 8 512 ltac:(lia) ltac:(lia)) as Hw. split; [exact Hw|]. clear Hw.
  assert (slab_objects mem 8 (Z.to_nat 512) = mem + 4088 :: mem + 4080 :: slab_objects mem 8 510) as El.
  { replace (Z.to_nat 512) with (S 511) by lia. rewrite (slab_objects_S mem 8 511), (slab_objects_S mem 8 510). done. }
  rewrite El in Hl, Hm. clear El. specialize (Hm (mem + 4088) ltac:(by left)). generalize dependent (slab_objects mem 8 510).
  generalize dependent (slab_carve h slab mem 8 512). intros hc Hm rest (H1 & _ & H2 & _). done.
Qed.

(** The slab that [slab_create] makes in the two pages: its last object, the
    first on the free list, is the magic word of the next block's header. *)
Lemma slab_create8 h A c kc s b h1 h2 :
  let cache := c + sizeof_buddy_block in let slab := s + sizeof_buddy_block in
  A !! c = Some kc → 0 <= kc → cache8 h cache → two_pages h A c s b h1 h2 →
  ∃ h', slab_create h cache = Done (slab, h') ∧ zone h' = zone h2 ∧ cache8 h' cache ∧ hload h' (slab + sl_free) = 512 ∧
    hload h' (slab + sl_freelist) = b + 4108 ∧ hload h' (b + 4108 + so_next) = b + 4100 ∧ hload h' (b + 4108 + so_magic) = SLAB_MAGIC.
Proof.
  intros cache slab Hc Hkc C [E1 E2 Hok Hst1 Hst (Hb0 & Hs0 & Dcs & Dcb & Dsb)].
  pose proof (c8_order _ _ (cache8_step h h1 A c kc Hc Hkc Hst1 C)) as Co. fold cache in Co.
  destruct (cache8_step h h2 A c kc Hc Hkc Hst C) as [C1 C2 C3 C4 C5 C6].
  unfold slab_create. rewrite E1. cbn [obind]. rewrite (proj2 (Z.eqb_neq (s + sizeof_buddy_block) 0)) by (unfold sizeof_buddy_block; lia).
  rewrite Co, E2. cbn [obind]. rewrite (proj2 (Z.eqb_neq (b + sizeof_buddy_block) 0)) by (unfold sizeof_buddy_block; lia).
  fold cache in C1, C2, C3, C4, C5, C6. fold slab.
  match goal with |- context [hload ?hh (cache + sc_num_objs)] => assert (hload hh (cache + sc_num_objs) = 512) as Cn; [|rewrite Cn] end.
  { unfold apart, cache, slab, sizeof_buddy_block in *. unfold hload, hstore, set_mem. cbn [hmem].
    rewrite !load_store_ne by (unfold sl_mem, sl_inuse, sc_num_objs; lia). exact C2. }
  match goal with |- context [hstore (hstore (hstore (hstore (hstore (hstore (hstore (hstore (hstore h2 _ ?v1) _ ?v2) _ ?v3) _ ?v4) _ ?v5) _ ?v6) _ ?v7) _ ?v8) _ ?v9] =>
    destruct (slab_header_stores h2 slab v1 v2 v3 v4 v5 v6 v7 v8 v9) as ([Fz Fw] & Ff & Ffree) end.
  match goal with |- context [slab_carve ?hh _ _ _ _] => set (hs := hh) in * end. set (mem := b + sizeof_buddy_block).
  assert (∀ o, 0 <= o < sizeof_slab_cache → hload hs (cache + o) = hload h2 (cache + o)) as Fc.
  { intros o Ho. apply Fw. unfold apart, in_block, cache, slab, sizeof_buddy_block, sizeof_slab_cache, sizeof_slab in *. lia. }
  clearbody hs. rewrite !Fc by (unfold sc_obj_size, sc_num_objs, sizeof_slab_cache; lia). rewrite C1, C2.
  assert (∀ i, 0 <= i < 512 → apart (mem + i * 8) 8 slab sizeof_slab) as Hap.
  { intros i Hi. unfold apart, mem, slab, sizeof_buddy_block, sizeof_slab in *. lia. }
  destruct (slab_carve8 hs slab mem) as (hc & -> & [Hz Hw] & H1 & H2 & Hm); [unfold mem, sizeof_buddy_block; lia|done|done|].
  assert (∀ o, 0 <= o < sizeof_slab_cache → hload hc (cache + o) = hload h2 (cache + o)) as Fcc.
  { intros o Ho. rewrite Hw, Fc by (done || unfold apart, in_block, cache, slab, mem, sl_freelist, sizeof_buddy_block, sizeof_slab_cache in *; lia). done. }
  replace (mem + 4088) with (b + 4108) in * by (unfold mem, sizeof_buddy_block; lia).
  replace (mem + 4080) with (b + 4100) in * by (unfold mem, sizeof_buddy_block; lia).
  eexists. split; [reflexivity|]. split; [cbn; by rewrite Hz|].
  assert (cache + sc_free ≠ slab + sl_free ∧ cache + sc_free ≠ slab + sl_freelist ∧ cache + sc_free ≠ b + 4108 + so_next ∧
    cache + sc_free ≠ b + 4108 + so_magic) as (N1 & N2 & N3 & N4).
  { unfold apart, cache, slab, sizeof_buddy_block, sc_free, sl_free, sl_freelist, so_next, so_magic in *. lia. }
  assert (hload hc (slab + sl_free) = 512) as Hfree.
  { rewrite Hw, Ffree; [done|]. unfold apart, in_block, slab, mem, sl_free, sl_freelist, sizeof_buddy_block in *. lia. }
  split.
  - split; unfold hadd, hload, hstore, set_mem; cbn [hmem];
      (rewrite load_store_ne by (unfold sc_free, sc_obj_size, sc_num_objs, sc_order, sc_partial, sc_empty, sc_ctor; lia));
      (etrans; [apply Fcc; unfold sc_obj_size, sc_num_objs, sc_order, sc_partial, sc_empty, sc_ctor, sizeof_slab_cache; lia|done]).
  - unfold hadd, hload, hstore, set_mem in *. cbn [hmem] in *. rewrite !load_store_ne by done. done.
Qed.

(** Reading a word behind writes to others. *)
Lemma hload_hstore_ne h a v x : a ≠ x → hload (hstore h a v) x = hload h x.
Proof. apply load_store_ne. Qed.

Lemma hload_hadd_ne h a v x : a ≠ x → hload (hadd h a v) x = hload h x.
Proof. apply load_store_ne. Qed.

Lemma hload_hadd_eq h a d : hload (hadd h a d) a = u32 (hload h a + d).
Proof. apply load_store_eq. Qed.

(** Serving the first object of a new slab changes neither of its words. *)
Lemma serve_new_slab call h hc cache slab o :
  cache ≠ 0 → slab ≠ 0 → o ≠ 0 → apart cache sizeof_slab_cache slab sizeof_slab → apart o 8 slab sizeof_slab → apart o 8 cache sizeof_slab_cache →
  hload h (cache + sc_partial) = 0 → hload h (cache + sc_empty) = 0 → slab_create h cache = Done (slab, hc) → cache8 hc cache →
  hload hc (slab + sl_free) = 512 → hload hc (slab + sl_freelist) = o → hload hc (o + so_magic) = SLAB_MAGIC →
  ∃ h', cache_alloc call h cache = Done (o, h') ∧ zone h' = zone hc ∧ hload h' o = hload hc o.
Proof.
  intros Hc Hs Ho Dcs Dos Doc Hp He E [_ _ _ Kp _ Kc] Kfree Kl Km. unfold cache_alloc, pick_slab.
  unfold apart, sizeof_slab, sizeof_slab_cache in *.
  rewrite (proj2 (Z.eqb_neq cache 0) Hc), Hp. change (0 =? 0) with true. cbv iota. rewrite He. change (0 =? 0) with true. cbn [negb]. cbv iota.
  rewrite E. cbn [obind]. rewrite (proj2 (Z.eqb_neq slab 0) Hs). rewrite (hload_hstore_ne hc), Kp by (unfold sl_next, sc_partial; lia).
  change (0 =? 0) with true. cbn [negb]. cbv iota. cbn [obind]. rewrite (proj2 (Z.eqb_neq slab 0) Hs).
  unfold sl_free, sl_freelist, sl_next, so_magic, so_next, sc_num_slabs, sc_partial, sc_ctor, sc_active, sc_free in *.
  unfold slab_alloc_obj, sl_freelist, sl_inuse, sl_free, so_magic, so_next. cbv zeta.
  rewrite !hload_hadd_ne, !hload_hstore_ne, Kl by lia. rewrite (proj2 (Z.eqb_neq o 0) Ho).
  rewrite !hload_hadd_ne, !hload_hstore_ne, Km by lia. change (SLAB_MAGIC =? SLAB_MAGIC) with true. cbn [negb]. cbv iota.
  match goal with |- context [hload ?k (slab + 16) =? 0] => assert (hload k (slab + 16) = 511) as ->; [|change (511 =? 0) with false; cbv iota] end.
  { rewrite 2 hload_hadd_ne by lia. rewrite hload_hadd_eq, !hload_hadd_ne, !hload_hstore_ne, !hload_hadd_ne, !hload_hstore_ne, Kfree by lia. done. }
  match goal with |- context [hload ?k (cache + 80) =? 0] => assert (hload k (cache + 80) = 0) as ->; [|change (0 =? 0) with true; cbn [negb obind]; cbv iota] end.
  { rewrite !hload_hadd_ne, !hload_hstore_ne, !hload_hadd_ne, !hload_hstore_ne by lia. exact Kc. }
  rewrite (proj2 (Z.eqb_neq o 0) Ho). eexists. split; [reflexivity|]. split; [done|].
  rewrite !hload_hadd_ne, !hload_hstore_ne, !hload_hadd_ne, !hload_hstore_ne by lia. done.
Qed.

(** ... of which one is the magic word of the next header. *)
Lemma cache_alloc8 call h A c kc s b h1 h2 :
  let cache := c + sizeof_buddy_block in
  cache ≠ 0 → A !! c = Some kc → 0 <= kc → cache8 h cache → two_pages h A c s b h1 h2 →
  ∃ h', cache_alloc call h cache = Done (b + 4096 + bb_magic, h') ∧ zone h' = zone h2 ∧ hload h' (b + 4096 + bb_magic) = b + 4100.
Proof.
  intros cache Hc0 Hc Hkc C T. destruct (slab_create8 h A c kc s b h1 h2 Hc Hkc C T) as (hc & E & Hz & K & Kfree & Kl & Kn & Km).
  destruct T as [_ _ _ _ _ (Hb0 & Hs0 & Dcs & Dcb & Dsb)].
  replace (b + 4108 + so_next) with (b + 4108) in Kn by (unfold so_next; lia).
  replace (b + 4096 + bb_magic) with (b + 4108) by (unfold bb_magic; lia).
  destruct (serve_new_slab call h hc cache (s + sizeof_buddy_block) (b + 4108)) as (h' & E' & Hz' & Hv); try done.
  - unfold sizeof_buddy_block. lia.
  - lia.
  - unfold apart, cache, sizeof_buddy_block, sizeof_slab, sizeof_slab_cache in *. lia.
  - unfold apart, cache, sizeof_buddy_block, sizeof_slab, sizeof_slab_cache in *. lia.
  - unfold apart, cache, sizeof_buddy_block, sizeof_slab, sizeof_slab_cache in *. lia.
  - apply (c8_partial _ _ C).
  - apply (c8_empty _ _ C).
  - exists h'. split; [done|]. split; congruence.
Qed.

(** C28. The first object of an 8-byte cache breaks the buddy allocator.  Let the
    allocator's invariant hold, and let the first size cache, itself a live
    block, have one-page slabs of 512 objects of 8 bytes and no slab yet.  Then
    allocating at most 8 bytes is either refused, when fewer than two pages are
    free, and the invariant still holds; or a page [s] for the slab and a page
    [b] for its objects are allocated, and with them the invariant holds; but
    the objects start 20 bytes into the page and need all of its 4096, and the
    object returned is the word at [b + 4096 + 12].  Unless [b] is the last page of the
    region, that is the magic word of the header of the block behind it: it
    held the magic number, a link of the slab's free list has replaced it, and
    in no way of accounting for the blocks with [b] still allocated does the
    heap satisfy the allocator's invariant. *)
Theorem slab_alloc_breaks_buddy call h A sa size c kc :
  buddy_ok h A → A !! c = Some kc → let cache := c + sizeof_buddy_block in
  size <= 8 → zget 0 (size_caches sa) 0 = cache → cache8 h cache →
  (∃ h', kmem_cache_alloc call h sa size = Done (0, h') ∧ buddy_ok h' A ∧ short_of_pages h A) ∨
  ∃ s b h1 h2 h',
    alloc h sizeof_slab = Done (s + sizeof_buddy_block, h1) ∧ alloc_order h1 0 = Done (b + sizeof_buddy_block, h2) ∧
    buddy_ok h2 (<[b := 0]> (<[s := 0]> A)) ∧
    kmem_cache_alloc call h sa size = Done (b + 4096 + bb_magic, h') ∧
    (b + 4096 = zend h ∨
     hload h2 (b + 4096 + bb_magic) = BUDDY_MAGIC ∧ hload h' (b + 4096 + bb_magic) = b + 4100 ∧
     ∀ A', A' !! b = Some 0 → ¬ buddy_ok h' A').
Proof.
  intros Hok Hc cache Hsize Hsa C. destruct (live_disjoint _ _ _ _ Hok Hc) as ((Hkc & _) & Hc0 & _).
  assert (0 < zstart h) as Hzs by (destruct Hok as [? Hwf]; apply (wf_region _ _ _ _ Hwf)).
  assert (cache ≠ 0) as H0 by (unfold cache, sizeof_buddy_block; lia).
  assert (kmem_cache_alloc call h sa size = cache_alloc call h cache) as ->.
  { unfold kmem_cache_alloc, find_size_cache. cbn [size_cache_sizes list_find]. rewrite decide_True by done. change (Z.of_nat 0) with 0.
    rewrite Hsa. by rewrite (proj2 (Z.eqb_neq cache 0)). }
  destruct (two_pages_or_none h A c kc Hok Hc) as [[Hshort E]|(s & b & h1 & h2 & T)].
  - left. assert (∃ h', slab_create h cache = Done (0, h') ∧ buddy_ok h' A) as (h' & E' & Hok').
    { unfold slab_create. destruct E as [->|(s & h1 & h' & E1 & Hs & Hst & E2 & E3 & Hok')]; [by exists h|].
      exists h'. rewrite E1. cbn [obind]. rewrite (proj2 (Z.eqb_neq _ 0) Hs).
      pose proof (c8_order _ _ (cache8_step _ _ _ _ _ Hc Hkc Hst C)) as Ho. fold cache in Ho. rewrite Ho, E2. cbn [obind]. change (0 =? 0) with true. cbv iota. by rewrite E3. }
    exists h'. split; [|done]. unfold cache_alloc, pick_slab. rewrite (proj2 (Z.eqb_neq cache 0) H0).
    rewrite (c8_partial _ _ C). change (0 =? 0) with true. cbv iota. rewrite (c8_empty _ _ C). change (0 =? 0) with true. cbn [negb].
    cbv iota. rewrite E'. done.
  - right. destruct (cache_alloc8 call h A c kc s b h1 h2 H0 Hc Hkc C T) as (h' & E & Hz & Hv). fold cache in E.
    destruct T as [E1 E2 Hok2 _ Hst _]. exists s, b, h1, h2, h'. do 4 (split; [done|]).
    assert (<[b := 0]> (<[s := 0]> A) !! b = Some 0) as Eb by apply lookup_insert_eq.
    destruct (live_disjoint _ _ _ _ Hok2 Eb) as (_ & _ & He & _). destruct Hst as (_ & Ee & _). rewrite bsize_0, Ee in He.
    destruct (decide (b + 4096 = zend h)) as [|Hne]; [by left|right].
    pose proof (next_magic h2 _ b 0 Hok2 Eb ltac:(rewrite bsize_0; lia)) as Hm. rewrite bsize_0 in Hm. split; [done|]. split; [done|].
    intros A' HA' Hok'. assert (zend h' = zend h) as Ee' by (rewrite <- Ee; unfold zend; by rewrite Hz).
    pose proof (next_magic h' A' b 0 Hok' HA' ltac:(rewrite bsize_0; lia)) as Hm'. rewrite bsize_0, Hv in Hm'.
    destruct Hok2 as [B2 Hwf2]. apply (wf_live _ _ _ _ Hwf2) in Eb as [Eb _].
    destruct (wf_aligned _ _ _ _ _ _ _ Hwf2 Eb) as [i ->]. unfold BUDDY_MAGIC in Hm'. lia.
Qed.

(** The boot heap with the first size cache. *)
Definition first_cache : Z * heap := Eval vm_compute in
  match cache_create boot_heap (mk_slab_allocator 0 []) [] 8 CACHE_ALIGN 0 0 0 with Done (c, h, _) => (c, h) | _ => (0, boot_heap) end.
Definition first_sa : slab_allocator := mk_slab_allocator (fst first_cache) (fst first_cache :: replicate 11 0).

(** A call through a function pointer that does nothing. *)
Definition no_call (f obj : Z) (h : heap) : outcome heap := Done h.

Lemma first_cache_ok : ∃ c, fst first_cache = c + sizeof_buddy_block ∧ buddy_ok (snd first_cache) {[ c := 0 ]}.
Proof.
  destruct (cache_create_spec boot_heap ∅ (mk_slab_allocator 0 []) [] 8 0 0 0 boot_heap_ok ltac:(lia))
    as [[E _]|(c & h' & E & (b & -> & _ & _ & Hok & _) & _)]; [vm_compute in E; discriminate E|].
  assert (cache_create boot_heap (mk_slab_allocator 0 []) [] 8 CACHE_ALIGN 0 0 0 =
    Done (fst first_cache, snd first_cache, mk_slab_allocator (fst first_cache) [])) as E2 by (vm_compute; reflexivity).
  rewrite E in E2. injection E2 as E3 E4. exists b. split; [done|]. by subst h'.
Qed.

(** The pointer of a result. *)
Definition served (r : outcome (Z * heap)) : Z := match r with Done (p, _) => p | _ => 0 end.

Lemma slab_alloc_breaks_buddy_witness :
  ∃ b h', kmem_cache_alloc no_call (snd first_cache) first_sa 8 = Done (b + 4096 + bb_magic, h') ∧
    hload h' (b + 4096 + bb_magic) = b + 4100 ∧ ∀ A', A' !! b = Some 0 → ¬ buddy_ok h' A'.
Proof.
  destruct first_cache_ok as (c & Ec & Hok).
  destruct (slab_alloc_breaks_buddy no_call (snd first_cache) {[ c := 0 ]} first_sa 8 c 0)
    as [(h' & E & _)|(s & b & h1 & h2 & h' & _ & _ & _ & E & Hb)].
  - exact Hok.
  - apply lookup_singleton_eq.
  - lia.
  - rewrite <- Ec. reflexivity.
  - rewrite <- Ec. split; vm_compute; reflexivity.
  - apply (f_equal served) in E. vm_compute in E. discriminate E.
  - exists b, h'. split; [exact E|]. destruct Hb as [He|(_ & H1 & H2)]; [|split; [exact H1|exact H2]].
    exfalso. change (zend (snd first_cache)) with 0x2000000 in He. assert (b + 4096 + bb_magic = 0x200000C) as Ep by (rewrite He; reflexivity).
    rewrite Ep in E. apply (f_equal served) in E. vm_compute in E. discriminate E.
Defined.

(** ** Concrete instances *)

(** A slab at 0x1000 with two objects, one of them free. *)
Definition demo_slab : heap :=
  mk_heap (list_to_map [(0x1000 + sl_freelist, 0x2000); (0x1000 + sl_free, 1); (0x1000 + sl_inuse, 1);
                        (0x2000 + so_next, 0); (0x2000 + so_magic, SLAB_MAGIC)]) (mk_zone [] [] 0 0 0 0).

Lemma demo_slab_ok : slab_ok demo_slab 0x1000 2 [0x2000].
Proof.
  split; try done.
  - by intros o ->%list_elem_of_singleton.
  - intros o ->%list_elem_of_singleton. by right.
  - split; [apply NoDup_singleton|]. by intros o p ->%list_elem_of_singleton ->%list_elem_of_singleton.
Qed.

Lemma slab_free_obj_spec_witness :
  let h' := slab_free_obj demo_slab 0x1000 0x2008 in
  slab_ok h' 0x1000 2 [0x2008; 0x2000] ∧ fst (slab_alloc_obj h' 0x1000) = 0x2008 ∧ zone h' = zone demo_slab ∧
  (∀ a, ¬ slab_counters 0x1000 a → a ≠ 0x2008 + so_next → a ≠ 0x2008 + so_magic → hload h' a = hload demo_slab a).
Proof.
  apply (slab_free_obj_spec demo_slab 0x1000 2 [0x2000] 0x2008 demo_slab_ok).
  split; [done|]. split; [by right|]. split; [|done]. intros p ->%list_elem_of_singleton. by right.
Defined.

Lemma slab_carve_spec_witness :
  let h' := slab_carve (mk_heap ∅ (mk_zone [] [] 0 0 0 0)) 0x1000 0x2000 16 3 in
  slist so_next (hmem h') (hload h' (0x1000 + sl_freelist)) [0x2020; 0x2010; 0x2000] ∧
  (∀ o, o ∈ [0x2020; 0x2010; 0x2000] → hload h' (o + so_magic) = SLAB_MAGIC).
Proof.
  apply (slab_carve_spec (mk_heap ∅ (mk_zone [] [] 0 0 0 0)) 0x1000 0x2000 16 3);
    [lia|lia|lia|intros i Hi; right; unfold sizeof_slab; lia|done].
Defined.

(** The slabs 0x1000 and 0x2000 on the list at 0x100, none on the list at 0x104. *)
Definition demo_lists : heap :=
  mk_heap (list_to_map [(0x100, 0x1000); (0x1000 + sl_next, 0x2000); (0x2000 + sl_prev, 0x1000)])
    (mk_zone [] [] 0 0 0 0).

Lemma move_slab_spec_witness :
  let h' := move_slab demo_lists 0x100 0x104 0x2000 in
  dlist sl_next sl_prev (hmem h') (hload h' 0x100) [0x1000] ∧
  dlist sl_next sl_prev (hmem h') (hload h' 0x104) [0x2000] ∧
  (∀ a, a ≠ 0x100 → a ≠ 0x104 → off_list sl_next sl_prev a [0x1000; 0x2000] → hload h' a = hload demo_lists a).
Proof.
  assert (∀ y, y ∈ [0x1000; 0x2000] → y = 0x1000 ∨ y = 0x2000) as Hin by set_solver.
  assert (∀ y z, y ∈ [0x1000; 0x2000] → z ∈ [0x1000; 0x2000] → link_sep sl_next sl_prev y z) as Hsep.
  { intros y z [-> | ->]%Hin [-> | ->]%Hin; unfold link_sep, sl_next, sl_prev; lia. }
  assert (NoDup [0x1000; 0x2000]) as Hnd by (constructor; [set_solver|apply NoDup_singleton]).
  apply (move_slab_spec demo_lists 0x100 0x104 0x2000 [0x1000] [] []); try done.
  - apply (dlist_nil _ _ sl_np).
  - intros y [-> | ->]%Hin; unfold sl_next, sl_prev; lia.
  - intros y [-> | ->]%Hin; unfold sl_next, sl_prev; lia.
Defined.

Lemma cache_create_spec_witness :
  buddy_ok boot_heap ∅ ∧
  ((cache_create boot_heap (mk_slab_allocator 0 []) [] 100 CACHE_ALIGN 0 0 0 = Done (0, boot_heap, mk_slab_allocator 0 []) ∧
     ∀ j, 0 <= j <= MAX_ORDER → flist boot_heap j = 0) ∨
   ∃ c h', cache_create boot_heap (mk_slab_allocator 0 []) [] 100 CACHE_ALIGN 0 0 0
        = Done (c, h', mk_slab_allocator c []) ∧ hload h' (c + sc_num_objs) = 39).
Proof.
  split; [exact boot_heap_ok|].
  destruct (cache_create_spec boot_heap ∅ (mk_slab_allocator 0 []) [] 100 0 0 0 boot_heap_ok ltac:(lia))
    as [H|(c & h' & E & _ & _ & _ & _ & Hn & _)]; [by left|right]. by exists c, h'.
Defined.

(** The allocator's state with one empty cache at 0x3000, and an object at
    0x5000 that some other cache marked. *)
Definition demo_cache : heap :=
  mk_heap (list_to_map [(0x5000 + so_magic, SLAB_MAGIC)]) (mk_zone [] [] 0 0 0 0).

Lemma kmem_cache_free_other_cache_witness :
  kmem_cache_free no_call 1 demo_cache (mk_slab_allocator 0x3000 [0x3000; 0x4000]) 0x5000 = Done demo_cache.
Proof.
  apply (kmem_cache_free_other_cache no_call 1 demo_cache (mk_slab_allocator 0x3000 [0x3000; 0x4000])
           0x5000 0x3000 [0x4000] [] []); try done; [simpl; lia..|].
  by intros s ?%not_elem_of_nil.
Defined.
