(* ===== verification/Slob.v ===== *)
(** The SLOB allocator: [src/src/kernel/runtime/slob.h] and [slob.cc].

    Pages of 4096 bytes come from the buddy allocator; page headers and free
    blocks are structures in the kernel heap.  The static fields of
    [SLOBAllocator] are the record [slob].  Every loop over the page list or
    over a free list takes the fuel of the operation. *)

From Stdlib Require Import ZArith Lia.
From stdpp Require Import base list gmap option.
From S2P Require Import Prelude Memory DList Buddy.

Definition SLOB_MAGIC : Z := 0x510B1234.
Definition SLOB_ALIGN : Z := 8.
Definition SLOB_BLOCK_SIZE : Z := 4096.
Definition SLOB_MIN_ALLOC : Z := 16.
Definition SLOB_MAX_ALLOC : Z := 512.

(** [struct slob_block] *)
Definition ob_size : Z := 0.
Definition ob_magic : Z := 4.
Definition ob_next : Z := 8.
Definition ob_prev : Z := 12.
Definition sizeof_slob_block : Z := 16.

(** [struct slob_page] *)
Definition op_addr : Z := 0.
Definition op_total : Z := 4.
Definition op_free : Z := 8.
Definition op_frag : Z := 12.
Definition op_list : Z := 16.
Definition op_next : Z := 20.
Definition op_prev : Z := 24.
Definition sizeof_slob_page : Z := 28.

Record slob := mk_slob {
  pages : Z;
  total_pages : Z;
  total_allocated : Z;
  total_free : Z;
  fragmentation_threshold : Z;
}.

Definition set_pages (s : slob) (p n f : Z) : slob :=
  mk_slob p n (total_allocated s) f (fragmentation_threshold s).
Definition set_allocated (s : slob) (n : Z) : slob :=
  mk_slob (pages s) (total_pages s) n (total_free s) (fragmentation_threshold s).

Definition hadd32 (h : heap) (a d : Z) : heap := hstore h a (u32 (hload h a + d)).

Definition slob_alloc_page (h : heap) (s : slob) : outcome (Z * heap * slob) :=
  let* (page, h) := alloc h SLOB_BLOCK_SIZE in
  if page =? 0 then Done (0, h, s)
  else
    let free_size := SLOB_BLOCK_SIZE - sizeof_slob_page in
    let h := hstore h (page + op_addr) page in
    let h := hstore h (page + op_total) SLOB_BLOCK_SIZE in
    let h := hstore h (page + op_free) free_size in
    let h := hstore h (page + op_frag) 0 in
    let h := hstore h (page + op_next) (pages s) in
    let h := hstore h (page + op_prev) 0 in
    let h := if negb (pages s =? 0) then hstore h (pages s + op_prev) page else h in
    let block := page + sizeof_slob_page in
    let h := hstore h (block + ob_size) free_size in
    let h := hstore h (block + ob_magic) 0 in
    let h := hstore h (block + ob_next) 0 in
    let h := hstore h (block + ob_prev) 0 in
    let h := hstore h (page + op_list) block in
    Done (page, h, set_pages s page (u32 (total_pages s + 1)) (u32 (total_free s + free_size))).

Definition slob_free_page (h : heap) (s : slob) (page : Z) : outcome (heap * slob) :=
  if page =? 0 then Done (h, s)
  else
    let prev := hload h (page + op_prev) in
    let (h, first) := if negb (prev =? 0) then (hstore h (prev + op_next) (hload h (page + op_next)), pages s)
                      else (h, hload h (page + op_next)) in
    let h := if negb (hload h (page + op_next) =? 0)
             then hstore h (hload h (page + op_next) + op_prev) (hload h (page + op_prev)) else h in
    let s := set_pages s first (u32 (total_pages s - 1)) (u32 (total_free s - hload h (page + op_free))) in
    let* h := free h (hload h (page + op_addr)) in
    Done (h, s).

(** The inner loop of [find_free_block]: the best block of one free list so
    far, [inr] when one fits exactly. *)
Definition best_in_list (fuel : nat) (h : heap) (size block best best_size : Z)
    : outcome (Z * Z + Z) :=
  loop fuel
    (fun '(block, best, best_size) =>
       if block =? 0 then Done (inr (inl (best, best_size)))
       else
         let bs := hload h (block + ob_size) in
         Done (if (size <=? bs) && (bs <? best_size)
               then if bs =? size then inr (inr block)
                    else inl (hload h (block + ob_next), block, bs)
               else inl (hload h (block + ob_next), best, best_size))) (block, best, best_size).

Definition find_free_block (fuel : nat) (h : heap) (s : slob) (size : Z) : outcome Z :=
  loop fuel
    (fun '(page, best, best_size) =>
       if page =? 0 then Done (inr best)
       else
         let* r := best_in_list fuel h size (hload h (page + op_list)) best best_size in
         Done (match r with
               | inr b => inr b
               | inl (b, bs) => inl (hload h (page + op_next), b, bs)
               end)) (pages s, 0, 0xFFFFFFFF).

Definition slob_split_block (h : heap) (block size : Z) : heap :=
  if hload h (block + ob_size) <=? u32 (size + sizeof_slob_block) then h
  else
    let new_block := block + size in
    let h := hstore h (new_block + ob_size) (u32 (hload h (block + ob_size) - size)) in
    let h := hstore h (new_block + ob_magic) 0 in
    let h := hstore h (new_block + ob_next) (hload h (block + ob_next)) in
    let h := hstore h (new_block + ob_prev) block in
    let h := if negb (hload h (block + ob_next) =? 0)
             then hstore h (hload h (block + ob_next) + ob_prev) new_block else h in
    let h := hstore h (block + ob_next) new_block in
    hstore h (block + ob_size) size.

Definition merge_free_blocks (fuel : nat) (h : heap) (page : Z) : outcome heap :=
  if (page =? 0) || (hload h (page + op_list) =? 0) then Done h
  else
    loop fuel
      (fun '(h, current) =>
         if (current =? 0) || (hload h (current + ob_next) =? 0) then Done (inr h)
         else
           let next := hload h (current + ob_next) in
           Done (inl (
             if u32 (current + hload h (current + ob_size)) =? next then
               let h := hadd32 h (current + ob_size) (hload h (next + ob_size)) in
               let h := hstore h (current + ob_next) (hload h (next + ob_next)) in
               let h := if negb (hload h (next + ob_next) =? 0)
                        then hstore h (hload h (next + ob_next) + ob_prev) current else h in
               (hadd32 h (page + op_frag) (-1), current)
             else (h, hload h (current + ob_next))))) (h, hload h (page + op_list)).

Definition add_free_block (fuel : nat) (h : heap) (page block : Z) : outcome heap :=
  if (page =? 0) || (block =? 0) then Done h
  else
    let first := hload h (page + op_list) in
    if first =? 0 then
      let h := hstore h (page + op_list) block in
      let h := hstore h (block + ob_next) 0 in
      Done (hstore h (block + ob_prev) 0)
    else if block <? first then
      let h := hstore h (block + ob_next) (hload h (page + op_list)) in
      let h := hstore h (block + ob_prev) 0 in
      let h := hstore h (hload h (page + op_list) + ob_prev) block in
      Done (hstore h (page + op_list) block)
    else
      let* current := while fuel
        (fun c => negb (hload h (c + ob_next) =? 0) && (hload h (c + ob_next) <? block))
        (fun c => hload h (c + ob_next)) first in
      let h := hstore h (block + ob_next) (hload h (current + ob_next)) in
      let h := hstore h (block + ob_prev) current in
      let h := if negb (hload h (current + ob_next) =? 0)
               then hstore h (hload h (current + ob_next) + ob_prev) block else h in
      let h := hstore h (current + ob_next) block in
      Done (hadd32 h (page + op_frag) 1).

Definition remove_free_block (h : heap) (page block : Z) : heap :=
  if (page =? 0) || (block =? 0) then h
  else
    let h := if hload h (page + op_list) =? block
             then hstore h (page + op_list) (hload h (block + ob_next)) else h in
    let h := if negb (hload h (block + ob_prev) =? 0)
             then hstore h (hload h (block + ob_prev) + ob_next) (hload h (block + ob_next)) else h in
    let h := if negb (hload h (block + ob_next) =? 0)
             then hstore h (hload h (block + ob_next) + ob_prev) (hload h (block + ob_prev)) else h in
    let h := hstore h (block + ob_next) 0 in
    hstore h (block + ob_prev) 0.

(** The page that contains [block], 0 if none does. *)
Definition find_page (fuel : nat) (h : heap) (s : slob) (block : Z) : outcome Z :=
  loop fuel
    (fun p =>
       if p =? 0 then Done (inr 0)
       else
         Done (if (hload h (p + op_addr) <=? block)
                  && (block <? u32 (hload h (p + op_addr) + hload h (p + op_total)))
               then inr p else inl (hload h (p + op_next)))) (pages s).

(** [(size + 7) & ~7], at least 16, plus the block header. *)
Definition slob_aligned_size (size : Z) : Z :=
  let a := Z.land (u32 (size + SLOB_ALIGN - 1)) (u32 (Z.lnot (SLOB_ALIGN - 1))) in
  u32 ((if a <? SLOB_MIN_ALLOC then SLOB_MIN_ALLOC else a) + sizeof_slob_block).

Definition slob_alloc (fuel : nat) (h : heap) (s : slob) (size : Z) : outcome (Z * heap * slob) :=
  if (size =? 0) || (SLOB_MAX_ALLOC <? size) then Done (0, h, s)
  else
    let aligned_size := slob_aligned_size size in
    let* block := find_free_block fuel h s aligned_size in
    let* (block, h, s) :=
      if block =? 0 then
        let* (new_page, h, s) := slob_alloc_page h s in
        if new_page =? 0 then Done (0, h, s)
        else let* block := find_free_block fuel h s aligned_size in Done (block, h, s)
      else Done (block, h, s) in
    if block =? 0 then Done (0, h, s)
    else
      let h := if u32 (aligned_size + sizeof_slob_block + SLOB_MIN_ALLOC) <? hload h (block + ob_size)
               then slob_split_block h block aligned_size else h in
      let* page := find_page fuel h s block in
      let h := if negb (page =? 0) then
                 let h := remove_free_block h page block in
                 hadd32 h (page + op_free) (- hload h (block + ob_size))
               else h in
      let h := hstore h (block + ob_magic) SLOB_MAGIC in
      let s := set_allocated s (u32 (total_allocated s + hload h (block + ob_size))) in
      Done (u32 (block + sizeof_slob_block), h, s).

(** Recounting the free blocks of every page, after merging them. *)
Definition defragment (fuel : nat) (h : heap) (s : slob) : outcome heap :=
  let* (h, _) := loop fuel
    (fun '(h, page) =>
       if page =? 0 then Done (inr (h, page))
       else
         let* h := merge_free_blocks fuel h page in
         let h := hstore h (page + op_frag) 0 in
         let* h := loop fuel
           (fun '(h, block) =>
              if block =? 0 then Done (inr h)
              else Done (inl (if negb (hload h (block + ob_next) =? 0) then hadd32 h (page + op_frag) 1 else h,
                              hload h (block + ob_next)))) (h, hload h (page + op_list)) in
         Done (inl (h, hload h (page + op_next)))) (h, pages s) in
  Done h.

Definition should_defragment (fuel : nat) (h : heap) (s : slob) : outcome bool :=
  let* (_, total) := while fuel (fun '(page, _) => negb (page =? 0))
    (fun '(page, t) => (hload h (page + op_next), u32 (t + hload h (page + op_frag)))) (pages s, 0) in
  Done (if total_pages s =? 0 then false
        else fragmentation_threshold s <? total / total_pages s).

Definition slob_free (fuel : nat) (h : heap) (s : slob) (ptr : Z) : outcome (heap * slob) :=
  if ptr =? 0 then Done (h, s)
  else
    let block := u32 (ptr - sizeof_slob_block) in
    if negb (hload h (block + ob_magic) =? SLOB_MAGIC) then Done (h, s)
    else
      let* page := find_page fuel h s block in
      if page =? 0 then Done (h, s)
      else
        let h := hstore h (block + ob_magic) 0 in
        let s := set_allocated s (u32 (total_allocated s - hload h (block + ob_size))) in
        let h := hadd32 h (page + op_free) (hload h (block + ob_size)) in
        let* h := add_free_block fuel h page block in
        let* h := merge_free_blocks fuel h page in
        let* (h, s) :=
          if hload h (page + op_free) =? u32 (hload h (page + op_total) - sizeof_slob_page)
          then if 1 <? total_pages s then slob_free_page h s page else Done (h, s)
          else Done (h, s) in
        let* b := should_defragment fuel h s in
        if b then let* h := defragment fuel h s in Done (h, s) else Done (h, s).

Definition get_efficiency (s : slob) : outcome Z :=
  if u32 (total_allocated s + total_free s) =? 0 then Done 0
  else Done (u32 (total_allocated s * 100) / u32 (total_allocated s + total_free s)).

Definition slob_init (h : heap) : outcome (heap * slob) :=
  let* (_, h, s) := slob_alloc_page h (mk_slob 0 0 0 0 75) in
  Done (h, s).
