(* ===== verification/SlobSpec.v ===== *)
(** The SLOB allocator's free lists: the search is best fit, freeing keeps a
    page's list in address order and coalesced, and carving a block for an
    allocation splits it without losing a byte. *)

From Stdlib Require Import ZArith Lia.
From stdpp Require Import base list gmap option.
From S2P Require Import Prelude Memory DList Buddy BuddySpec Slob.

(** ** Best fit *)

Section best_fit.
Context (h : heap) (size : Z).
Let sz (b : Z) : Z := hload h (b + ob_size).

(** [r] is a best fit among [l], or 0 when nothing fits. *)
Definition best_of (l : list Z) (r : Z) : Prop :=
  r = 0 ∧ (∀ b, b ∈ l → sz b < size) ∨
  r ∈ l ∧ size <= sz r ∧ ∀ b, b ∈ l → size <= sz b → sz r <= sz b.

(** The loop's two variables after the blocks [seen]. *)
Definition best_state (seen : list Z) (best best_size : Z) : Prop :=
  best_of seen best ∧ best_size = if decide (best = 0) then 0xFFFFFFFF else sz best.

Lemma best_state_skip seen best bs b :
  best_state seen best bs → ¬ (size <= sz b ∧ sz b < bs) → sz b < 0xFFFFFFFF →
  (∀ x, x ∈ seen → x ≠ 0) → best_state (seen ++ [b]) best bs.
Proof.
  intros [Hb Hs] Hno Hlt Hnz. split; [|done].
  destruct Hb as [[-> Hall]|(Hin & Hle & Hmin)].
  - rewrite decide_True in Hs by done. left. split; [done|].
    intros x [Hx|Hx]%elem_of_app; [by apply Hall|]. apply list_elem_of_singleton in Hx as ->. lia.
  - rewrite decide_False in Hs by by apply Hnz. right. split; [apply elem_of_app; by left|].
    split; [done|]. intros x [Hx|Hx]%elem_of_app; [by apply Hmin|].
    apply list_elem_of_singleton in Hx as ->. lia.
Qed.

Lemma best_state_take seen best bs b :
  best_state seen best bs → size <= sz b → sz b < bs → b ≠ 0 → (∀ x, x ∈ seen → x ≠ 0) →
  best_state (seen ++ [b]) b (sz b).
Proof.
  intros [Hb Hs] Hle Hlt Hb0 Hnz. split; [|by rewrite decide_False].
  right. split; [apply elem_of_app; right; by apply list_elem_of_singleton|]. split; [done|].
  intros x [Hx|Hx]%elem_of_app Hsx; [|by apply list_elem_of_singleton in Hx as ->].
  destruct Hb as [[-> Hall]|(Hin & _ & Hmin)]; [apply Hall in Hx; lia|].
  rewrite decide_False in Hs by by apply Hnz. specialize (Hmin x Hx Hsx). lia.
Qed.

(** An exact fit is a best fit among any larger set. *)
Lemma best_of_exact l b : b ∈ l → sz b = size → best_of l b.
Proof. intros Hb E. right. split; [done|]. split; [lia|]. intros x _ Hx. lia. Qed.

Lemma best_in_list_spec fuel l : ∀ p seen best bs,
  slist ob_next (hmem h) p l → (length l < fuel)%nat → (∀ x, x ∈ l → sz x < 0xFFFFFFFF) →
  (∀ x, x ∈ seen → x ≠ 0) → best_state seen best bs →
  ∃ r, best_in_list fuel h size p best bs = Done r ∧
    match r with
    | inl (b', bs') => best_state (seen ++ l) b' bs'
    | inr b => b ∈ l ∧ sz b = size
    end.
Proof.
  unfold best_in_list. revert fuel. induction l as [|x l IH]; intros [|fuel] p seen best bs Hl Hf Hsz Hnz Hst;
    simpl in Hf; try lia; cbn [loop slist] in *.
  - subst p. simpl. eexists. split; [done|]. by rewrite app_nil_r.
  - destruct Hl as (-> & Hx & Hl). rewrite (proj2 (Z.eqb_neq x 0) Hx). cbn [obind].
    fold (sz x). fold (hload h (x + ob_next)) in Hl.
    assert (∀ y, y ∈ seen ++ [x] → y ≠ 0) as Hnz'.
    { intros y [Hy|Hy]%elem_of_app; [by apply Hnz|]. by apply list_elem_of_singleton in Hy as ->. }
    assert (∀ y, y ∈ l → sz y < 0xFFFFFFFF) as Hsz' by (intros y Hy; apply Hsz; by right).
    assert (∀ b' bs', best_state (seen ++ [x]) b' bs' → ∃ r,
      loop fuel (fun '(block, best, best_size) =>
        if block =? 0 then Done (inr (inl (best, best_size)))
        else
          let bs := hload h (block + ob_size) in
          Done (if (size <=? bs) && (bs <? best_size)
             then if bs =? size then inr (inr block)
                  else inl (hload h (block + ob_next), block, bs)
             else inl (hload h (block + ob_next), best, best_size))) (hload h (x + ob_next), b', bs') = Done r ∧
      match r with
      | inl (b', bs') => best_state (seen ++ x :: l) b' bs'
      | inr b => b ∈ x :: l ∧ sz b = size
      end) as Hrec.
    { intros b' bs' Hst'. destruct (IH fuel _ _ b' bs' Hl ltac:(lia) Hsz' Hnz' Hst') as (r & E & Hr).
      exists r. split; [exact E|]. destruct r as [[b2 bs2]|b2].
      - by rewrite <- app_assoc in Hr.
      - destruct Hr. split; [by right|done]. }
    destruct (Z.leb_spec size (sz x)), (Z.ltb_spec (sz x) bs); cbn [andb];
      [destruct (Z.eqb_spec (sz x) size) as [E|E]; [|apply Hrec; eapply best_state_take; eauto]| | |];
      [exists (inr x); split; [done|]; split; [by left|done]|..];
      apply Hrec; eapply best_state_skip; eauto; try lia; apply Hsz; by left.
Qed.
End best_fit.

(** The search of all pages, and its fuel. *)
Lemma find_free_block_returns fuel h s size pl (fl : Z → list Z) :
  slist op_next (hmem h) (pages s) pl → (length pl < fuel)%nat →
  (∀ p, p ∈ pl → slist ob_next (hmem h) (hload h (p + op_list)) (fl p) ∧ (length (fl p) < fuel)%nat) →
  (∀ p b, p ∈ pl → b ∈ fl p → b ≠ 0 ∧ hload h (b + ob_size) < 0xFFFFFFFF) →
  ∃ r, find_free_block fuel h s size = Done r ∧ best_of h size (pl ≫= fl) r.
Proof.
  intros Hpl Hf Hfl Hbl. unfold find_free_block. set (body := fun '(page, best, best_size) => _).
  cut (∀ pl' f p seen best bs, slist op_next (hmem h) p pl' → (length pl' < f)%nat →
    (pl ≫= fl) = seen ++ (pl' ≫= fl) → (∀ q, q ∈ pl' → q ∈ pl) →
    best_state h size seen best bs →
    ∃ r, loop f body (p, best, bs) = Done r ∧ best_of h size (pl ≫= fl) r).
  { intros H. eapply (H pl fuel _ []); try done. split; [left; split; [done|]|done].
    intros b Hb. by apply not_elem_of_nil in Hb. }
  assert (∀ b, b ∈ (pl ≫= fl) → b ≠ 0) as Hnz.
  { intros b (p & Hb & Hp)%list_elem_of_bind. by eapply Hbl. }
  clear Hpl Hf. induction pl' as [|q pl' IH]; intros [|f] p seen best bs Hl Hf E Hin Hst; simpl in Hf; try lia;
    cbn [loop slist] in *; unfold body at 1.
  - subst p. simpl in *. rewrite app_nil_r in E. exists best. split; [done|]. rewrite E. apply Hst.
  - destruct Hl as (-> & Hq & Hl). rewrite (proj2 (Z.eqb_neq q 0) Hq). cbn [obind].
    assert (q ∈ pl) as Hqpl by (apply Hin; left). destruct (Hfl q Hqpl) as [Hlq Hfq].
    assert (∀ x, x ∈ seen → x ≠ 0) as Hnz' by (intros x Hx; apply Hnz; rewrite E; apply elem_of_app; by left).
    destruct (best_in_list_spec h size fuel (fl q) _ seen best bs Hlq Hfq) as (r & -> & Hr); [|done..|].
    { intros x Hx. by eapply Hbl. }
    simpl in E. rewrite app_assoc in E. cbn [obind]. destruct r as [[b' bs']|b].
    + eapply (IH f); [exact Hl|lia|exact E|intros x Hx; apply Hin; by right|done].
    + exists b. split; [done|]. destruct Hr as [Hb Hsz]. apply best_of_exact; [|done].
      rewrite E. apply elem_of_app. left. apply elem_of_app. by right.
Qed.

(** C22. [find_free_block] returns, with a best fit over the free lists of all
    pages: a smallest free block that is large enough, and null exactly when
    no free block is. *)
Theorem find_free_block_best fuel h s size pl (fl : Z → list Z) :
  slist op_next (hmem h) (pages s) pl → (length pl < fuel)%nat →
  (∀ p, p ∈ pl → slist ob_next (hmem h) (hload h (p + op_list)) (fl p) ∧ (length (fl p) < fuel)%nat) →
  (∀ p b, p ∈ pl → b ∈ fl p → b ≠ 0 ∧ hload h (b + ob_size) < 0xFFFFFFFF) →
  ∃ r, find_free_block fuel h s size = Done r ∧ best_of h size (pl ≫= fl) r.
Proof. apply find_free_block_returns. Qed.

(** ** The free list of one page *)

(** Free blocks (address and size) in address order between [lo] and [hi]. *)
Fixpoint ordered (lo : Z) (bl : list (Z * Z)) (hi : Z) : Prop :=
  match bl with
  | [] => True
  | (a, s) :: r => lo <= a ∧ sizeof_slob_block <= s ∧ a + s <= hi ∧ ordered (a + s) r hi
  end.

(** [free_ok h page bl]: the page's free list is [bl]. *)
Record free_ok (h : heap) (page : Z) (bl : list (Z * Z)) : Prop := {
  fk_list : dlist ob_next ob_prev (hmem h) (hload h (page + op_list)) (map fst bl);
  fk_size : ∀ a s, (a, s) ∈ bl → hload h (a + ob_size) = s;
  fk_order : ordered (page + sizeof_slob_page) bl (page + SLOB_BLOCK_SIZE);
  fk_page : 0 < page ∧ page + SLOB_BLOCK_SIZE < 2 ^ 32;
}.

(** The words the free-list operations may change: the headers of the blocks
    [nodes] and two fields of the page header. *)
Definition slob_words (page : Z) (nodes : list Z) (a : Z) : Prop :=
  a = page + op_frag ∨ a = page + op_list ∨ ∃ x, x ∈ nodes ∧ x <= a < x + sizeof_slob_block.

Lemma not_slob_words page nodes c :
  ¬ slob_words page nodes c →
  c ≠ page + op_frag ∧ c ≠ page + op_list ∧ ∀ x o, x ∈ nodes → 0 <= o < 16 → c ≠ x + o.
Proof.
  unfold slob_words, sizeof_slob_block. intros H. split; [tauto|]. split; [tauto|].
  intros x o Hx Ho ->. apply H. right. right. exists x. split; [done|lia].
Qed.

Lemma slob_words_mono page nodes nodes' a :
  (∀ x, x ∈ nodes → x ∈ nodes') → slob_words page nodes a → slob_words page nodes' a.
Proof. intros H [?|[?|(x & Hx & Hr)]]; [by left|right; by left|right; right]. exists x. auto. Qed.

Lemma ordered_weaken lo lo' bl hi : lo' <= lo → ordered lo bl hi → ordered lo' bl hi.
Proof. destruct bl as [|[a s] bl]; simpl; [done|]. intros ? (? & ? & ? & ?). split; [lia|done]. Qed.

Lemma ordered_elem lo bl hi a s :
  ordered lo bl hi → (a, s) ∈ bl → lo <= a ∧ 16 <= s ∧ a + s <= hi.
Proof.
  revert lo. induction bl as [|[b t] bl IH]; intros lo; simpl; [by intros _ ?%not_elem_of_nil|].
  intros (H1 & H2 & H3 & H4) [E|Hin]%elem_of_cons.
  - injection E as -> ->. unfold sizeof_slob_block in H2. lia.
  - destruct (IH _ H4 Hin) as (? & ? & ?). unfold sizeof_slob_block in H2. lia.
Qed.

Lemma ordered_app lo b1 a s b2 hi :
  ordered lo (b1 ++ (a, s) :: b2) hi ↔
  ordered lo b1 a ∧ lo <= a ∧ 16 <= s ∧ a + s <= hi ∧ ordered (a + s) b2 hi.
Proof.
  revert lo. induction b1 as [|[b t] b1 IH]; intros lo; simpl; unfold sizeof_slob_block; [tauto|].
  rewrite IH. split.
  - intros (? & ? & ? & ? & ? & ? & ? & ?). split_and!; try done; lia.
  - intros ((? & ? & ? & ?) & ? & ? & ? & ?). split_and!; try done; lia.
Qed.

(** Blocks of an ordered list are pairwise at least a header apart. *)
Lemma ordered_apart lo bl hi x y :
  ordered lo bl hi → x ∈ map fst bl → y ∈ map fst bl → x ≠ y → x + 16 <= y ∨ y + 16 <= x.
Proof.
  revert lo. induction bl as [|[a s] bl IH]; intros lo; simpl; [by intros _ ?%not_elem_of_nil|].
  unfold sizeof_slob_block. intros (H1 & H2 & H3 & H4).
  assert (∀ z, z ∈ map fst bl → a + 16 <= z) as Hz.
  { intros z ([b t] & -> & Hb)%list_elem_of_fmap. destruct (ordered_elem _ _ _ _ _ H4 Hb). simpl. lia. }
  intros [->|Hx]%elem_of_cons [->|Hy]%elem_of_cons Hne; [done|left; by apply Hz|right; by apply Hz|by eapply IH].
Qed.

Lemma ordered_sep lo bl hi x y :
  ordered lo bl hi → x ∈ map fst bl → y ∈ map fst bl → link_sep ob_next ob_prev x y.
Proof.
  intros Ho Hx Hy Hne. destruct (ordered_apart _ _ _ _ _ Ho Hx Hy Hne); unfold ob_next, ob_prev; lia.
Qed.

Lemma ordered_nodup lo bl hi : ordered lo bl hi → NoDup (map fst bl).
Proof.
  revert lo. induction bl as [|[a s] bl IH]; intros lo; simpl; [constructor|].
  unfold sizeof_slob_block. intros (H1 & H2 & H3 & H4). constructor; [|by eapply IH].
  intros ([b t] & E & Hb)%list_elem_of_fmap. destruct (ordered_elem _ _ _ _ _ H4 Hb). simpl in *. lia.
Qed.

Lemma ob_np : ob_next ≠ ob_prev.
Proof. done. Qed.

(** [free_ok] after writes that only touch one node's header. *)
Lemma elem_of_fst (bl : list (Z * Z)) a s : (a, s) ∈ bl → a ∈ map fst bl.
Proof. intros H. apply list_elem_of_fmap. by exists (a, s). Qed.

(** Where the headers of a page's free blocks are. *)
Lemma block_words page bl a s o :
  ordered (page + sizeof_slob_page) bl (page + SLOB_BLOCK_SIZE) → (a, s) ∈ bl → 0 <= o < 16 →
  page + sizeof_slob_page <= a + o < page + SLOB_BLOCK_SIZE.
Proof. intros Ho Hin Hoo. destruct (ordered_elem _ _ _ _ _ Ho Hin). lia. Qed.

Lemma fst_block page bl a :
  ordered (page + sizeof_slob_page) bl (page + SLOB_BLOCK_SIZE) → a ∈ map fst bl →
  page + sizeof_slob_page <= a ∧ a + 16 <= page + SLOB_BLOCK_SIZE.
Proof. intros Ho ([b t] & -> & Hb)%list_elem_of_fmap. destruct (ordered_elem _ _ _ _ _ Ho Hb). simpl. lia. Qed.

(** A well-formed list again after a change that rebuilt its links. *)
Lemma free_ok_relink h h' page bl bl' :
  free_ok h page bl → ordered (page + sizeof_slob_page) bl' (page + SLOB_BLOCK_SIZE) →
  dlist ob_next ob_prev (hmem h') (hload h' (page + op_list)) (map fst bl') →
  (∀ a s, (a, s) ∈ bl' → hload h' (a + ob_size) = s) → free_ok h' page bl'.
Proof. intros [_ _ _ Hp] Ho Hd Hs. by split. Qed.

(** The list head of a page, as the code sees it. *)
Lemma free_ok_head h page bl : free_ok h page bl → hload h (page + op_list) = hd 0 (map fst bl).
Proof. intros [(E & _) _ _ _]. exact E. Qed.

(** ** Splitting *)

Lemma slob_split_mem h b size :
  u32 (size + sizeof_slob_block) < hload h (b + ob_size) → 16 <= size → hload h (b + ob_next) ≠ b + size →
  slob_split_block h b size =
  set_mem h (store (dl_insert_after ob_next ob_prev
    (store (store (hmem h) (b + size + ob_size) (u32 (hload h (b + ob_size) - size))) (b + size + ob_magic) 0)
    b (b + size)) (b + ob_size) size).
Proof.
  intros Hlt Hsz Hne. unfold slob_split_block. rewrite (proj2 (Z.leb_gt _ _)) by done.
  unfold dl_insert_after, hload, hstore, set_mem, ob_size, ob_next, ob_prev, ob_magic in *. cbn [hmem zone].
  mem_simpl. case_if; cbn [hmem zone]; mem_simpl; by case_if.
Qed.

Lemma split_ordered lo b1 a s b2 hi size :
  ordered lo (b1 ++ (a, s) :: b2) hi → 16 <= size → size + 16 <= s →
  ordered lo (b1 ++ (a, size) :: (a + size, s - size) :: b2) hi.
Proof.
  intros (H1 & H2 & H3 & H4 & H5)%ordered_app Hsz Hs. apply ordered_app.
  split; [done|]. split; [done|]. split; [lia|]. split; [lia|]. simpl. unfold sizeof_slob_block.
  do 3 (split; [lia|]). by replace (a + size + (s - size)) with (a + s) by lia.
Qed.

(** The headers of the old blocks do not overlap that of the new one. *)
Lemma split_apart lo b1 a s b2 hi size x :
  ordered lo (b1 ++ (a, s) :: b2) hi → 16 <= size → size + 16 <= s →
  x ∈ map fst (b1 ++ (a, s) :: b2) → x + 16 <= a + size ∨ a + size + 16 <= x.
Proof.
  intros (H1 & H2 & H3 & H4 & H5)%ordered_app Hsz Hs.
  intros ([y t] & -> & Hx)%list_elem_of_fmap. simpl. apply elem_of_app in Hx as [Hx|[Hx|Hx]%elem_of_cons].
  - destruct (ordered_elem _ _ _ _ _ H1 Hx). lia.
  - injection Hx as -> _. lia.
  - destruct (ordered_elem _ _ _ _ _ H5 Hx). lia.
Qed.

(** The successor of a block, as its header says. *)
Lemma next_block h page b1 a s b2 :
  free_ok h page (b1 ++ (a, s) :: b2) →
  hload h (a + ob_next) = hd 0 (map fst b2) ∧ hload h (a + ob_prev) = List.last (map fst b1) 0 ∧
  (hload h (a + ob_next) = 0 ∨ hload h (a + ob_next) ∈ map fst (b1 ++ (a, s) :: b2)).
Proof.
  intros [(_ & Hs & _) _ _ _]. rewrite map_app in *. apply dseg_app in Hs as [_ (_ & Ep & En & _)].
  unfold hload. simpl in En, Ep. rewrite En, Ep. split; [done|]. split; [done|].
  destruct b2 as [|[y t] b2]; [by left|right]. apply elem_of_app. right. right. left.
Qed.

(** Inserting a node into the links of a well-formed list, after words of the
    page that are no links of it were written. *)
Lemma insert_links h page b1 a s b2 x m1 :
  free_ok h page (b1 ++ (a, s) :: b2) → x ≠ 0 →
  (∀ y, y ∈ map fst (b1 ++ (a, s) :: b2) → y + 16 <= x ∨ x + 16 <= y) →
  (∀ y o, y ∈ map fst (b1 ++ (a, s) :: b2) → 0 <= o < 16 → load m1 (y + o) = hload h (y + o)) →
  let m2 := dl_insert_after ob_next ob_prev m1 a x in
  dlist ob_next ob_prev m2 (hload h (page + op_list)) (map fst b1 ++ a :: x :: map fst b2) ∧
  (∀ y, y ∈ map fst (b1 ++ (a, s) :: b2) → load m2 (y + ob_size) = hload h (y + ob_size)) ∧
  load m2 (x + ob_size) = load m1 (x + ob_size) ∧
  (∀ c, (∀ y o, y ∈ map fst (b1 ++ (a, s) :: b2) → 0 <= o < 16 → c ≠ y + o) → ¬ (x <= c < x + 16) → load m2 c = load m1 c).
Proof.
  intros Hok Hx Hap Hm1 m2. destruct (next_block _ _ _ _ _ _ Hok) as (_ & _ & Hnin).
  destruct Hok as [Hd Hsize Ho Hp].
  assert (a ∈ map fst (b1 ++ (a, s) :: b2)) as Ha by (rewrite map_app; apply elem_of_app; right; left).
  assert (load m1 (a + ob_next) = hload h (a + ob_next)) as En by (apply Hm1; [done|unfold ob_next; lia]).
  split.
  { rewrite map_app in *. simpl map in *. apply (dl_insert_after_dlist _ _ ob_np); [|done| |].
    - eapply dlist_frame; [apply ob_np| |exact Hd]. intros y Hy. unfold ob_next, ob_prev.
      rewrite !Hm1 by (done || lia). done.
    - intros Hin. apply Hap in Hin. lia.
    - intros y Hy Hne. apply Hap in Hy. unfold ob_next, ob_prev. lia. }
  assert (∀ c, c ≠ x + ob_next → c ≠ x + ob_prev → c ≠ a + ob_next →
     hload h (a + ob_next) = 0 ∨ c ≠ hload h (a + ob_next) + ob_prev → load m2 c = load m1 c) as Hfr.
  { intros c H1 H2 H3 H4. apply dl_insert_after_other; [done..|]. by rewrite En. }
  unfold ob_size, ob_next, ob_prev in *. split; [|split].
  - intros y Hy. pose proof (Hap y Hy) as Hay. rewrite Hfr, Hm1; [done|done|lia|lia|lia| |].
    + destruct (decide (y = a)) as [->|Hne]; [lia|]. pose proof (ordered_apart _ _ _ _ _ Ho Hy Ha Hne). lia.
    + destruct Hnin as [?|Hn]; [by left|right].
      destruct (decide (y = hload h (a + 8))) as [->|Hne]; [lia|]. pose proof (ordered_apart _ _ _ _ _ Ho Hy Hn Hne). lia.
  - pose proof (Hap a Ha). apply Hfr; [lia|lia|lia|].
    destruct Hnin as [?|Hn]; [by left|right]. pose proof (Hap _ Hn). lia.
  - intros c Hc1 Hc2. apply Hfr; [lia|lia|apply (Hc1 a 8); [done|lia]|].
    destruct Hnin as [?|Hn]; [by left|right]. apply Hc1; [done|lia].
Qed.

(** Splitting a free block keeps every byte: the block shrinks to [size]
    and a new free block with the rest follows it in the list, which stays a
    well-formed list in address order; nothing outside the page changes. *)
Theorem slob_split_spec h page b1 a s b2 size :
  free_ok h page (b1 ++ (a, s) :: b2) → 16 <= size → size + sizeof_slob_block < s →
  s - size >= sizeof_slob_block →
  let h' := slob_split_block h a size in
  let bl := b1 ++ (a, size) :: (a + size, s - size) :: b2 in
  free_ok h' page bl ∧ only_writes (slob_words page (map fst bl)) h h'.
Proof.
  intros Hok Hsz Hs Hrest h' bl. unfold bl. clear bl. unfold sizeof_slob_block in *.
  destruct (next_block _ _ _ _ _ _ Hok) as (_ & _ & Hnin). destruct (Hok) as [Hd Hsize Ho Hp].
  assert ((a, s) ∈ b1 ++ (a, s) :: b2) as Hin by (apply elem_of_app; right; left).
  pose proof (Hsize _ _ Hin) as Has. destruct (ordered_elem _ _ _ _ _ Ho Hin) as (Hlo & _ & Hhi).
  pose proof (split_ordered _ _ _ _ _ _ size Ho Hsz ltac:(lia)) as Ho'.
  pose proof (λ x, split_apart _ _ _ _ _ _ size x Ho Hsz ltac:(lia)) as Hap.
  assert (a ∈ map fst (b1 ++ (a, s) :: b2)) as Ha by (by eapply elem_of_fst).
  unfold sizeof_slob_page, SLOB_BLOCK_SIZE in *.
  unfold h'. rewrite slob_split_mem;
    [|unfold sizeof_slob_block; rewrite u32_small; lia|done|destruct Hnin as [->|Hx]; [lia|apply Hap in Hx; lia]].
  rewrite Has, u32_small by lia. set (m1 := store (store _ _ _) _ _).
  assert (∀ c, c ≠ a + size + 0 → c ≠ a + size + 4 → load m1 c = hload h c) as Hm1.
  { intros c H1 H2. unfold m1, ob_size, ob_magic, hload. by rewrite !load_store_ne by lia. }
  destruct (insert_links h page b1 a s b2 (a + size) m1 Hok ltac:(lia) Hap) as (Hd2 & Hs2 & Hx2 & Hfr).
  { intros y o Hy Hoo. pose proof (Hap y Hy). apply Hm1; lia. }
  set (m2 := dl_insert_after _ _ _ _ _) in *.
  assert (∀ c, (∀ x o, x ∈ map fst (b1 ++ (a, size) :: (a + size, s - size) :: b2) → 0 <= o < 16 → c ≠ x + o) →
    load (store m2 (a + ob_size) size) c = hload h c) as Hout.
  { intros c Hc. rewrite map_app in Hc. assert (∀ o, 0 <= o < 16 → c ≠ a + o ∧ c ≠ a + size + o) as Hca.
    { intros o Hoo. split; apply Hc; [apply elem_of_app; right; by left|done|apply elem_of_app; right; right; by left|done]. }
    rewrite load_store_ne by (apply not_eq_sym, Hca; done).
    rewrite Hfr; [apply Hm1; by apply Hca| |].
    - intros y o Hy Hoo. rewrite map_app in Hy. apply elem_of_app in Hy as [Hy|[Hy|Hy]%elem_of_cons].
      + apply Hc; [apply elem_of_app; by left|done].
      + cbn in Hy. subst y. by apply Hca.
      + apply Hc; [apply elem_of_app; right; by do 2 right|done].
    - intros Hr. apply (proj2 (Hca (c - (a + size)) ltac:(lia))). lia. }
  assert (∀ x, x ∈ map fst (b1 ++ (a, size) :: (a + size, s - size) :: b2) →
     x = a ∨ x + 16 <= a ∨ a + 16 <= x) as Hapa.
  { intros x Hx. destruct (decide (x = a)); [by left|right]. eapply ordered_apart; [exact Ho'|done| |done].
    rewrite map_app. apply elem_of_app. right. left. }
  split.
  - eapply free_ok_relink; [exact Hok|exact Ho'| |].
    + unfold hload. cbn [set_mem hmem].
      rewrite Hout by (intros x o Hx Hoo; destruct (fst_block page _ _ Ho' Hx); unfold sizeof_slob_page, op_list in *; lia).
      eapply dlist_frame; [apply ob_np| |rewrite map_app; exact Hd2]. intros x Hx.
      unfold ob_next, ob_prev, ob_size. pose proof (Hapa x Hx). rewrite !load_store_ne by lia. done.
    + intros x t Hx. unfold hload. cbn [set_mem hmem]. apply elem_of_app in Hx as [Hx|[Hx|[Hx|Hx]%elem_of_cons]%elem_of_cons].
      * rewrite load_store_ne; [rewrite Hs2; [by apply Hsize, elem_of_app; left|]|].
        { rewrite map_app. apply elem_of_app. left. by eapply elem_of_fst. }
        apply ordered_app in Ho as (Ho1 & _). destruct (ordered_elem _ _ _ _ _ Ho1 Hx). unfold ob_size. lia.
      * injection Hx as -> ->. apply load_store_eq.
      * injection Hx as -> ->. unfold ob_size in *. rewrite load_store_ne by lia. rewrite Hx2. unfold m1, ob_size, ob_magic.
        rewrite load_store_ne by lia. apply load_store_eq.
      * rewrite load_store_ne; [rewrite Hs2; [by apply Hsize, elem_of_app; right; right|]|].
        { rewrite map_app. apply elem_of_app. right. right. by eapply elem_of_fst. }
        apply ordered_app in Ho as (_ & _ & _ & _ & Ho2). destruct (ordered_elem _ _ _ _ _ Ho2 Hx). unfold ob_size. lia.
  - split; [done|]. intros c (_ & _ & Hc)%not_slob_words. by apply Hout.
Qed.

(** ** Inserting a freed block *)

(** The walk to the last free block before [block]. *)
Lemma add_walk fuel h (b1 : list (Z * Z)) a t (b2 : list (Z * Z)) block : ∀ p,
  slist ob_next (hmem h) p (map fst (b1 ++ (a, t) :: b2)) → (length b1 < fuel)%nat →
  (∀ x, x ∈ map fst b1 → x < block) → a < block → (∀ x, x ∈ map fst b2 → block < x) →
  while fuel (fun c => negb (hload h (c + ob_next) =? 0) && (hload h (c + ob_next) <? block))
    (fun c => hload h (c + ob_next)) p = Done a.
Proof.
  unfold while. revert fuel. induction b1 as [|[x u] b1 IH]; intros [|fuel] p Hl Hf H1 Ha H2; simpl in Hf; try lia;
    cbn [loop map app slist fst] in *.
  - destruct Hl as (-> & Ha0 & Hl). fold (hload h (a + ob_next)) in Hl.
    destruct b2 as [|[y v] b2]; cbn [map fst slist] in Hl; [by rewrite Hl|].
    destruct Hl as (-> & Hy & _). rewrite (proj2 (Z.eqb_neq y 0) Hy).
    rewrite (proj2 (Z.ltb_ge y block)); [done|]. apply Z.lt_le_incl, H2. by left.
  - destruct Hl as (-> & Hx0 & Hl). fold (hload h (x + ob_next)) in Hl.
    assert (∃ z, hload h (x + ob_next) = z ∧ z ≠ 0 ∧ z < block) as (z & Ez & Hz & Hzb).
    { destruct b1 as [|[z v] b1]; cbn [map app fst slist] in Hl; destruct Hl as (-> & Hz & _); [by exists a|].
      exists z. split; [done|]. split; [done|]. apply H1. right. by left. }
    rewrite Ez, (proj2 (Z.eqb_neq z 0) Hz), (proj2 (Z.ltb_lt z block) Hzb). cbn [negb andb obind].
    rewrite <- Ez. apply IH; [exact Hl|lia| |done|done]. intros y Hy. apply H1. by right.
Qed.

Lemma ordered_delete lo b1 a s b2 hi : ordered lo (b1 ++ (a, s) :: b2) hi → ordered lo (b1 ++ b2) hi.
Proof.
  revert lo. induction b1 as [|[y t] b1 IH]; intros lo; simpl; unfold sizeof_slob_block.
  - intros (? & ? & ? & H). eapply ordered_weaken; [|exact H]. lia.
  - intros (? & ? & ? & H). split_and!; try done. by apply IH.
Qed.

(** The header of the inserted block does not overlap the others. *)
Lemma insert_apart lo b1 a s b2 hi x :
  ordered lo (b1 ++ (a, s) :: b2) hi → x ∈ map fst (b1 ++ b2) → x + 16 <= a ∨ a + 16 <= x.
Proof.
  intros Ho Hx. assert (x ∈ map fst (b1 ++ (a, s) :: b2)) as Hx'.
  { rewrite map_app in *. simpl. apply elem_of_app in Hx as [?|?]; apply elem_of_app; [by left|right; by right]. }
  destruct (decide (x = a)) as [->|Hne].
  - pose proof (ordered_nodup _ _ _ Ho) as Hnd. rewrite map_app in *. simpl in Hnd.
    apply list.NoDup_app in Hnd as (_ & Hd & Hnd). apply list.NoDup_cons in Hnd as [Hn _].
    apply elem_of_app in Hx as [Hx|Hx]; [|done]. exfalso. eapply Hd; [exact Hx|left].
  - eapply ordered_apart; [exact Ho|exact Hx'| |done]. rewrite map_app. apply elem_of_app. right. left.
Qed.

(** In front of the first free block (or onto an empty list). *)
Lemma add_front fuel h page b s b2 :
  free_ok h page b2 → ordered (page + sizeof_slob_page) ((b, s) :: b2) (page + SLOB_BLOCK_SIZE) →
  ∃ h', add_free_block fuel h page b = Done h' ∧
    h' = set_mem h (store (dl_push ob_next ob_prev (hmem h) (hload h (page + op_list)) b) (page + op_list) b).
Proof.
  intros Hok Ho. pose proof (free_ok_head _ _ _ Hok) as Hhd. destruct Hok as [_ _ _ Hp].
  destruct (ordered_elem _ _ _ b s Ho) as (Hb & _ & _); [by left|].
  unfold sizeof_slob_page, SLOB_BLOCK_SIZE in *. unfold add_free_block.
  rewrite (proj2 (Z.eqb_neq page 0)), (proj2 (Z.eqb_neq b 0)) by lia. cbn [orb].
  rewrite Hhd. unfold dl_push. destruct b2 as [|[y t] b2]; cbn [map hd fst].
  - simpl. eexists. split; [done|]. unfold hstore, set_mem. cbn [hmem zone]. f_equal.
    unfold store, ob_next, ob_prev, op_list. rewrite (insert_insert_ne _ (page + 16) (b + 12)) by lia.
    by rewrite (insert_insert_ne _ (page + 16) (b + 8)) by lia.
  - simpl in Ho. unfold sizeof_slob_block in Ho. rewrite (proj2 (Z.eqb_neq y 0)), (proj2 (Z.ltb_lt b y)) by lia.
    eexists. split; [done|]. unfold hload, hstore, set_mem in *. cbn [hmem zone].
    unfold ob_next, ob_prev, op_list in *. mem_simpl. simpl in Hhd. by rewrite Hhd.
Qed.

(** Behind the block [a]. *)
Lemma add_behind fuel h page b1 a t b2 b s :
  free_ok h page (b1 ++ (a, t) :: b2) →
  ordered (page + sizeof_slob_page) ((b1 ++ [(a, t)]) ++ (b, s) :: b2) (page + SLOB_BLOCK_SIZE) →
  (length b1 < fuel)%nat →
  add_free_block fuel h page b = Done (hadd32
    (set_mem h (dl_insert_after ob_next ob_prev (hmem h) a b)) (page + op_frag) 1).
Proof.
  intros Hok Ho Hf. pose proof (free_ok_head _ _ _ Hok) as Hhd.
  destruct (next_block _ _ _ _ _ _ Hok) as (Hn & _ & _). destruct Hok as [Hd _ Ho0 Hp].
  apply ordered_app in Ho as (Ho1 & Hb & Hs & Hbs & Ho2).
  unfold sizeof_slob_page, SLOB_BLOCK_SIZE in *. unfold add_free_block.
  rewrite (proj2 (Z.eqb_neq page 0)), (proj2 (Z.eqb_neq b 0)) by lia. cbn [orb].
  assert (∀ x, x ∈ map fst (b1 ++ [(a, t)]) → page + 28 <= x ∧ x + 16 <= b) as Hbefore.
  { intros x ([y u] & -> & Hx)%list_elem_of_fmap. destruct (ordered_elem _ _ _ _ _ Ho1 Hx). simpl. lia. }
  assert (a ∈ map fst (b1 ++ [(a, t)])) as Ha by (rewrite map_app; apply elem_of_app; right; by left).
  assert (hload h (page + op_list) ∈ map fst (b1 ++ [(a, t)])) as Hfirst.
  { rewrite Hhd. destruct b1 as [|[y u] b1]; by left. }
  pose proof (Hbefore _ Hfirst). pose proof (Hbefore _ Ha).
  assert (∀ x, x ∈ map fst b2 → b + 16 <= x) as Hafter.
  { intros x ([y u] & -> & Hx)%list_elem_of_fmap. destruct (ordered_elem _ _ _ _ _ Ho2 Hx). simpl. lia. }
  rewrite (proj2 (Z.eqb_neq (hload h (page + op_list)) 0)), (proj2 (Z.ltb_ge b (hload h (page + op_list)))) by lia.
  rewrite (add_walk fuel h b1 a t b2 b); [|by apply dlist_slist in Hd|done| |lia|].
  - cbn [obind]. f_equal. unfold dl_insert_after, hadd32, hload, hstore, set_mem in *. cbn [hmem zone].
    unfold ob_next, ob_prev in *. mem_simpl. rewrite Hn.
    destruct b2 as [|[y u] b2]; cbn [map hd fst]; [simpl; by mem_simpl|].
    pose proof (Hafter y ltac:(by left)). rewrite (proj2 (Z.eqb_neq y 0)) by lia. cbn [negb hmem zone]. by mem_simpl.
  - intros x Hx. specialize (Hbefore x). rewrite map_app in Hbefore. specialize (Hbefore ltac:(apply elem_of_app; by left)). lia.
  - intros x Hx%Hafter. lia.
Qed.

Lemma add_front_ok fuel h page b s b2 :
  free_ok h page b2 → hload h (b + ob_size) = s →
  ordered (page + sizeof_slob_page) ((b, s) :: b2) (page + SLOB_BLOCK_SIZE) →
  ∃ h', add_free_block fuel h page b = Done h' ∧ free_ok h' page ((b, s) :: b2) ∧
    only_writes (slob_words page (map fst ((b, s) :: b2))) h h'.
Proof.
  intros Hok Hbs Ho. pose proof (λ x, insert_apart _ [] _ _ _ _ x Ho) as Hap.
  destruct (ordered_elem _ _ _ b s Ho) as (Hlo & Hs & Hhi); [by left|].
  pose proof (fk_page _ _ _ Hok) as Hp. unfold sizeof_slob_page, SLOB_BLOCK_SIZE in *.
  destruct (add_front fuel h page b s b2 Hok Ho) as (h' & E & Eh). exists h'. split; [exact E|].
  set (m2 := dl_push _ _ _ _ _) in Eh. simpl in Hok, Hap, Ho |- *.
  pose proof (free_ok_head _ _ _ Hok) as Hhd.
  assert (hload h (page + op_list) = 0 ∨ hload h (page + op_list) ∈ map fst b2) as Hfst.
  { rewrite Hhd. destruct b2; [by left|right; by left]. }
  assert (∀ c, c ≠ b + 8 → c ≠ b + 12 → hload h (page + op_list) = 0 ∨ c ≠ hload h (page + op_list) + 12 →
     load m2 c = hload h c) as Hm2.
  { intros c H1 H2 H3. by apply dl_push_other'. }
  assert (Hd2 : dlist ob_next ob_prev m2 b (b :: map fst b2)).
  { apply (dl_push_dlist _ _ ob_np); [apply Hok|lia| |].
    - intros Hin%Hap. lia.
    - intros y Hy%Hap Hne. unfold ob_next, ob_prev. lia. }
  destruct Hok as [Hd Hsz Ho0 _].
  assert (∀ x, x ∈ map fst b2 → page + 28 <= x ∧ x + 16 <= page + 4096) as Hin2.
  { intros x Hx. by apply (fst_block _ _ _ Ho0). }
  subst h'. split; [split|].
  + unfold hload. cbn [set_mem hmem]. rewrite load_store_eq.
    eapply dlist_frame; [apply ob_np| |exact Hd2]. intros x Hx.
    simpl in Hx. assert (page + 28 <= x) by (apply elem_of_cons in Hx as [->|Hx]; [lia|by apply Hin2]).
    unfold ob_next, ob_prev, op_list. rewrite !load_store_ne by lia. done.
  + intros x t [E'|Hx]%elem_of_cons.
    * injection E' as -> ->. unfold hload. cbn [set_mem hmem]. unfold ob_size, op_list in *. rewrite load_store_ne by lia.
      rewrite Hm2; [done|lia|lia|]. destruct Hfst as [?|Hx]; [by left|right]. pose proof (Hap _ Hx). lia.
    * pose proof (elem_of_fst _ _ _ Hx) as Hx'. pose proof (Hin2 _ Hx'). pose proof (Hap _ Hx').
      unfold hload. cbn [set_mem hmem]. unfold ob_size, op_list in *. rewrite load_store_ne by lia.
      rewrite Hm2; [by apply Hsz|lia|lia|]. destruct Hfst as [?|Hy]; [by left|right].
      destruct (decide (x = hload h (page + 16))) as [->|Hne]; [lia|].
      pose proof (ordered_apart _ _ _ _ _ Ho0 Hx' Hy Hne). lia.
  + exact Ho.
  + exact Hp.
  + split; [done|]. intros c (_ & Hcl & Hc)%not_slob_words. unfold hload. cbn [set_mem hmem].
    rewrite load_store_ne by done. apply Hm2; [apply Hc; [by left|lia]..|].
    destruct Hfst as [?|Hx]; [by left|right]. apply Hc; [by right|lia].
Qed.

Lemma add_behind_ok fuel h page b1 a t b s b2 :
  free_ok h page (b1 ++ (a, t) :: b2) → hload h (b + ob_size) = s → (length (b1 ++ [(a, t)]) <= fuel)%nat →
  ordered (page + sizeof_slob_page) ((b1 ++ [(a, t)]) ++ (b, s) :: b2) (page + SLOB_BLOCK_SIZE) →
  ∃ h', add_free_block fuel h page b = Done h' ∧ free_ok h' page ((b1 ++ [(a, t)]) ++ (b, s) :: b2) ∧
    only_writes (slob_words page (map fst ((b1 ++ [(a, t)]) ++ (b, s) :: b2))) h h'.
Proof.
  intros Hok Hbs Hf Ho. pose proof (λ x, insert_apart _ _ _ _ _ _ x Ho) as Hap.
  destruct (ordered_elem _ _ _ b s Ho) as (Hlo & Hs & Hhi); [apply elem_of_app; right; by left|].
  pose proof (fk_page _ _ _ Hok) as Hp. unfold sizeof_slob_page, SLOB_BLOCK_SIZE in *.
  rewrite <- app_assoc in Hap. simpl in Hap.
  rewrite length_app in Hf. simpl in Hf.
  pose proof (add_behind fuel h page b1 a t b2 b s Hok Ho ltac:(lia)) as E.
  destruct (insert_links h page b1 a t b2 b (hmem h) Hok ltac:(lia) Hap) as (Hd2 & Hs2 & Hx2 & Hfr); [done|].
  set (m2 := dl_insert_after _ _ _ _ _) in *. eexists. split; [exact E|].
  rewrite <- app_assoc in *. simpl in Ho |- *.
  assert (∀ x o, x ∈ map fst (b1 ++ (a, t) :: (b, s) :: b2) → 0 <= o < 16 → x + o ≠ page + op_frag) as Hfrag.
  { intros x o Hx Hoo. destruct (fst_block page _ _ Ho Hx). unfold op_frag, sizeof_slob_page in *. lia. }
  split; [split|].
  + unfold hload, hadd32, hstore. cbn [set_mem hmem]. unfold op_list, op_frag. rewrite load_store_ne by lia.
    rewrite Hfr; [|intros y o Hy Hoo; destruct (fst_block page _ _ (fk_order _ _ _ Hok) Hy); unfold sizeof_slob_page in *; lia|lia].
    eapply dlist_frame; [apply ob_np| |rewrite map_app; exact Hd2]. intros x Hx.
    pose proof (Hfrag x 8 Hx ltac:(lia)). pose proof (Hfrag x 12 Hx ltac:(lia)).
    unfold ob_next, ob_prev, op_frag in *. rewrite !load_store_ne by lia. done.
  + intros x u Hx. pose proof (elem_of_fst _ _ _ Hx) as Hx'. unfold hload, hadd32, hstore. cbn [set_mem hmem].
    rewrite load_store_ne by (apply not_eq_sym, Hfrag; [done|unfold ob_size; lia]).
    assert ((x, u) = (b, s) ∨ (x, u) ∈ b1 ++ (a, t) :: b2) as [Exu|Hold].
    { apply elem_of_app in Hx as [?|[->|[->|?]%elem_of_cons]%elem_of_cons]; [right; apply elem_of_app; by left|
        right; apply elem_of_app; right; by left|by left|right; apply elem_of_app; right; by right]. }
    * injection Exu as -> ->. by rewrite Hx2.
    * rewrite Hs2 by by eapply elem_of_fst. by apply (fk_size _ _ _ Hok).
  + exact Ho.
  + exact Hp.
  + split; [done|]. intros c (Hcf & _ & Hc)%not_slob_words. unfold hload, hadd32, hstore. cbn [set_mem hmem].
    rewrite load_store_ne by done. rewrite map_app in Hc. cbn [map fst] in Hc. apply Hfr.
    * intros y o Hy Hoo. apply Hc; [|done]. rewrite map_app in Hy.
      apply elem_of_app in Hy as [Hy|[->|Hy]%elem_of_cons]; apply elem_of_app; [by left|right; by left|right; by do 2 right].
    * intros Hr. apply (Hc b (c - b)); [apply elem_of_app; right; right; by left|lia|lia].
Qed.

Lemma add_free_block_ok fuel h page b1 b s b2 :
  free_ok h page (b1 ++ b2) → hload h (b + ob_size) = s → (length b1 <= fuel)%nat →
  ordered (page + sizeof_slob_page) (b1 ++ (b, s) :: b2) (page + SLOB_BLOCK_SIZE) →
  ∃ h', add_free_block fuel h page b = Done h' ∧ free_ok h' page (b1 ++ (b, s) :: b2) ∧
    only_writes (slob_words page (map fst (b1 ++ (b, s) :: b2))) h h'.
Proof.
  intros Hok Hbs Hf Ho. destruct b1 as [|[a t] b1 _] using rev_ind; [by apply add_front_ok|].
  rewrite <- app_assoc in Hok. by apply add_behind_ok.
Qed.

(** ** Coalescing *)

(** What merging does to the list: every run of touching blocks becomes one. *)
Fixpoint coalesce (a s : Z) (bl : list (Z * Z)) : list (Z * Z) :=
  match bl with
  | [] => [(a, s)]
  | (b, t) :: r => if a + s =? b then coalesce a (s + t) r else (a, s) :: coalesce b t r
  end.

Definition coalesce_all (bl : list (Z * Z)) : list (Z * Z) :=
  match bl with [] => [] | (a, s) :: r => coalesce a s r end.

(** The free bytes of a list. *)
Definition free_bytes (bl : list (Z * Z)) : Z := foldr (λ x acc, snd x + acc) 0 bl.

(** No two neighbours touch. *)
Fixpoint separated (bl : list (Z * Z)) : Prop :=
  match bl with
  | (a, s) :: ((b, _) :: _) as r => a + s ≠ b ∧ separated r
  | _ => True
  end.

Lemma coalesce_head a s bl : ∃ t r, coalesce a s bl = (a, t) :: r.
Proof.
  revert a s. induction bl as [|[b t] r IH]; intros a s; simpl; [by eexists _, _|].
  destruct (a + s =? b); [apply IH|by eexists _, _].
Qed.

Lemma coalesce_separated a s bl : separated (coalesce a s bl).
Proof.
  revert a s. induction bl as [|[b t] r IH]; intros a s; simpl; [done|].
  destruct (Z.eqb_spec (a + s) b); [apply IH|]. destruct (coalesce_head b t r) as (u & q & E).
  rewrite E. split; [done|]. rewrite <- E. apply IH.
Qed.

Lemma coalesce_bytes a s bl : free_bytes (coalesce a s bl) = s + free_bytes bl.
Proof.
  revert a s. induction bl as [|[b t] r IH]; intros a s; simpl; [done|].
  destruct (a + s =? b); [rewrite IH; lia|]. simpl. rewrite IH. lia.
Qed.

Lemma merge_sub (b1 : list (Z * Z)) a s n t (b2 : list (Z * Z)) y :
  y ∈ (map fst b1 ++ [a]) ++ map fst b2 → y ∈ map fst (b1 ++ (a, s) :: (n, t) :: b2).
Proof.
  rewrite map_app. simpl. intros [[?|Hy]%elem_of_app|?]%elem_of_app; apply elem_of_app; [by left|right|right].
  - apply list_elem_of_singleton in Hy as ->. left.
  - by do 2 right.
Qed.

(** The blocks around a neighbouring pair are others. *)
Lemma merge_others lo hi (b1 : list (Z * Z)) a s n t b2 y u :
  ordered lo (b1 ++ (a, s) :: (n, t) :: b2) hi → (y, u) ∈ b1 ++ b2 →
  (y, u) ∈ b1 ++ (a, s) :: (n, t) :: b2 ∧ y ≠ a ∧ y ≠ n.
Proof.
  intros Ho Hy. split.
  - apply elem_of_app in Hy as [?|?]; apply elem_of_app; [by left|right; by do 2 right].
  - pose proof (ordered_nodup _ _ _ Ho) as Hnd. rewrite map_app in Hnd. simpl in Hnd.
    apply list.NoDup_app in Hnd as (_ & Hdis & Hnd). apply list.NoDup_cons in Hnd as [Ha' Hnd].
    apply list.NoDup_cons in Hnd as [Hn' _]. apply elem_of_app in Hy as [Hy|Hy]; apply elem_of_fst in Hy.
    + split; intros ->; eapply Hdis; [exact Hy|left|exact Hy|right; left].
    + split; intros ->; [apply Ha'; by right|done].
Qed.

(** What the code writes to unlink [n] behind [a] is [dl_remove]. *)
Lemma merge_is_remove h first first' a n v m3 :
  a ≠ 0 → n ≠ a → a + ob_next ≠ n + ob_prev →
  load (store (hmem h) (a + ob_size) v) (n + ob_prev) = a →
  dl_remove ob_next ob_prev (store (hmem h) (a + ob_size) v) first n = (m3, first') →
  let h1 := hstore h (a + ob_size) v in
  let h2 := hstore h1 (a + ob_next) (hload h1 (n + ob_next)) in
  hmem (if negb (hload h2 (n + ob_next) =? 0) then hstore h2 (hload h2 (n + ob_next) + ob_prev) a else h2) = m3.
Proof.
  intros Ha Hna Hap Hprev Hrm. cbv zeta. set (m1 := store _ _ _) in *.
  unfold dl_remove in Hrm. rewrite Hprev, (proj2 (Z.eqb_neq a 0)) in Hrm by done. cbn [negb] in Hrm.
  rewrite (load_store_ne m1 (a + ob_next) (n + ob_prev)), Hprev in Hrm by done.
  unfold hload, hstore, set_mem. cbn [hmem zone]. fold m1.
  destruct (load (store m1 _ _) (n + ob_next) =? 0); cbn [negb hmem] in *; congruence.
Qed.

(** Removing the right neighbour [n] of [a] from the links, as the code does. *)
Lemma merge_links h page b1 a s n t b2 v :
  free_ok h page (b1 ++ (a, s) :: (n, t) :: b2) →
  let h1 := hstore h (a + ob_size) v in
  let h2 := hstore h1 (a + ob_next) (hload h1 (n + ob_next)) in
  let h3 := if negb (hload h2 (n + ob_next) =? 0)
            then hstore h2 (hload h2 (n + ob_next) + ob_prev) a else h2 in
  dlist ob_next ob_prev (hmem h3) (hload h (page + op_list)) (map fst b1 ++ a :: map fst b2) ∧
  hload h3 (a + ob_size) = v ∧ zone h3 = zone h ∧
  (∀ y u, (y, u) ∈ b1 ++ b2 → hload h3 (y + ob_size) = u) ∧
  (∀ c, (∀ x o, x ∈ map fst (b1 ++ (a, s) :: (n, t) :: b2) → 0 <= o < 16 → c ≠ x + o) → hload h3 c = hload h c).
Proof.
  intros Hok h1 h2 h3. destruct (Hok) as [Hd Hsz Ho Hp].
  assert ((a, s) ∈ b1 ++ (a, s) :: (n, t) :: b2) as Hain by (apply elem_of_app; right; left).
  assert ((n, t) ∈ b1 ++ (a, s) :: (n, t) :: b2) as Hnin by (apply elem_of_app; right; right; left).
  pose proof (elem_of_fst _ _ _ Hain) as Ha. pose proof (elem_of_fst _ _ _ Hnin) as Hn.
  pose proof (λ y u, merge_others _ _ b1 a s n t b2 y u Ho) as Hold.
  assert (a ≠ n) as Han.
  { apply ordered_app in Ho as (_ & _ & ? & _ & H5). simpl in H5. lia. }
  pose proof (ordered_apart _ _ _ _ _ Ho Ha Hn Han) as Hap.
  destruct (fst_block _ _ _ Ho Ha) as [Hpa Hpa']. destruct (fst_block _ _ _ Ho Hn) as [Hpn _].
  destruct (next_block h page (b1 ++ [(a, s)]) n t b2) as (Hnn & Hnp & Hnl); [by rewrite <- app_assoc|].
  rewrite map_app in Hnp. simpl in Hnp. rewrite last_last in Hnp. rewrite <- app_assoc in Hnl. simpl in Hnl.
  unfold sizeof_slob_page, SLOB_BLOCK_SIZE in *.
  set (m1 := store (hmem h) (a + ob_size) v).
  assert (∀ y o, y ∈ map fst (b1 ++ (a, s) :: (n, t) :: b2) → 4 <= o < 16 → load m1 (y + o) = hload h (y + o)) as Hm1.
  { intros y o Hy Hoo. unfold m1, hload. apply load_store_ne. unfold ob_size.
    destruct (decide (y = a)) as [->|Hne]; [lia|]. pose proof (ordered_apart _ _ _ _ _ Ho Hy Ha Hne). lia. }
  assert (Hd1 : dlist ob_next ob_prev m1 (hload h (page + op_list)) ((map fst b1 ++ [a]) ++ n :: map fst b2)).
  { rewrite map_app in Hd. simpl in Hd. rewrite <- app_assoc. simpl.
    eapply dlist_frame; [apply ob_np| |exact Hd]. intros y Hy.
    assert (y ∈ map fst (b1 ++ (a, s) :: (n, t) :: b2)) by (by rewrite map_app).
    unfold ob_next, ob_prev. rewrite !Hm1 by (done || lia). done. }
  destruct (dl_remove_dlist _ _ ob_np _ _ _ _ _ Hd1) as (m3 & Erm & Hd3 & Hf3).
  assert (load m1 (n + ob_prev) = a ∧ load m1 (n + ob_next) = hload h (n + ob_next)) as [E1 E2].
  { split; (rewrite Hm1; [done|done|unfold ob_prev, ob_next; lia]). }
  assert (hmem h3 = m3) as Eh3
    by (eapply merge_is_remove; [lia|lia|unfold ob_next, ob_prev; lia|exact E1|exact Erm]).
  assert (zone h3 = zone h) as Ez by (unfold h3; by case_if).
  assert (hd 0 ((map fst b1 ++ [a]) ++ map fst b2) = hload h (page + op_list)) as Ehd.
  { destruct Hd1 as (-> & _). by destruct b1. }
  rewrite Ehd, <- app_assoc in Hd3. rewrite Eh3.
  split; [exact Hd3|split; [|split; [done|split]]].
  - unfold hload. rewrite Eh3, Hf3; [apply load_store_eq|]. intros y Hy. unfold ob_size, ob_next, ob_prev.
    destruct (decide (y = a)) as [->|Hne]; [lia|].
    pose proof (ordered_apart _ _ _ _ _ Ho (merge_sub _ _ s _ t _ _ Hy) Ha Hne). lia.
  - intros y u Hy. destruct (Hold _ _ Hy) as (Hy1 & Hya & _). pose proof (elem_of_fst _ _ _ Hy1) as Hy1'.
    unfold hload. rewrite Eh3, Hf3.
    + unfold m1, ob_size. pose proof (ordered_apart _ _ _ _ _ Ho Hy1' Ha Hya). rewrite load_store_ne by lia. by apply Hsz.
    + intros z Hz. unfold ob_size, ob_next, ob_prev. destruct (decide (y = z)) as [->|Hne]; [lia|].
      pose proof (ordered_apart _ _ _ _ _ Ho Hy1' (merge_sub _ _ s _ t _ _ Hz) Hne). lia.
  - intros c Hc. unfold hload. rewrite Eh3, Hf3.
    + unfold m1, ob_size. rewrite load_store_ne; [done|]. apply not_eq_sym, Hc; [done|lia].
    + intros z Hz. pose proof (merge_sub b1 a s n t b2 z Hz) as Hz'. unfold ob_next, ob_prev. split; apply Hc; (done || lia).
Qed.

(** One round of the merging loop. *)
Lemma merge_one h page b1 a s n t b2 :
  free_ok h page (b1 ++ (a, s) :: (n, t) :: b2) → a + s = n →
  let h1 := hadd32 h (a + ob_size) (hload h (n + ob_size)) in
  let h2 := hstore h1 (a + ob_next) (hload h1 (n + ob_next)) in
  let h3 := if negb (hload h2 (n + ob_next) =? 0)
            then hstore h2 (hload h2 (n + ob_next) + ob_prev) a else h2 in
  let h4 := hadd32 h3 (page + op_frag) (-1) in
  free_ok h4 page (b1 ++ (a, s + t) :: b2) ∧ only_writes (slob_words page (map fst (b1 ++ (a, s) :: (n, t) :: b2))) h h4.
Proof.
  intros Hok Hadj h1 h2 h3 h4.
  pose proof (merge_links h page b1 a s n t b2 (u32 (hload h (a + ob_size) + hload h (n + ob_size))) Hok) as Hl.
  cbv zeta in Hl. change (hstore h (a + ob_size) (u32 (hload h (a + ob_size) + hload h (n + ob_size)))) with h1 in Hl.
  change (hstore h1 (a + ob_next) (hload h1 (n + ob_next))) with h2 in Hl.
  change (if negb (hload h2 (n + ob_next) =? 0) then hstore h2 (hload h2 (n + ob_next) + ob_prev) a else h2) with h3 in Hl.
  destruct Hl as (Hd3 & Ha3 & Hz3 & Hs3 & Hf3). destruct Hok as [Hd Hsz Ho Hp].
  rewrite (Hsz a s), (Hsz n t) in Ha3 by (apply elem_of_app; right; (by left) || by right; left).
  assert (ordered (page + sizeof_slob_page) (b1 ++ (a, s + t) :: b2) (page + SLOB_BLOCK_SIZE)) as Ho'.
  { apply ordered_app in Ho as (H1 & H2 & H3 & H4 & H5). simpl in H5. unfold sizeof_slob_block in H5.
    destruct H5 as (H5 & H6 & H7 & H8). apply ordered_app. split_and!; [done|lia|lia|lia|].
    eapply ordered_weaken; [|exact H8]. lia. }
  assert (u32 (s + t) = s + t) as Eu.
  { destruct (ordered_elem _ _ _ a (s + t) Ho') as (? & ? & ?); [apply elem_of_app; right; by left|].
    unfold sizeof_slob_page in *. apply u32_small. lia. }
  rewrite Eu in Ha3. unfold sizeof_slob_page, SLOB_BLOCK_SIZE in *.
  assert (∀ c, c ≠ page + op_frag → hload h4 c = hload h3 c) as Hf4.
  { intros c Hc. unfold h4, hadd32, hload. cbn [hstore set_mem hmem]. by rewrite load_store_ne. }
  split; [split|].
  - rewrite Hf4 by (unfold op_list, op_frag; lia).
    rewrite Hf3 by (intros x o Hx Hoo; destruct (fst_block page _ _ Ho Hx); unfold sizeof_slob_page, op_list in *; lia).
    rewrite map_app. cbn [map fst].
    eapply dlist_frame; [apply ob_np| |exact Hd3]. intros x Hx.
    destruct (fst_block page (b1 ++ (a, s + t) :: b2) x Ho') as [Hx' _]; [by rewrite map_app|].
    unfold sizeof_slob_page in *. split; apply Hf4; unfold ob_next, ob_prev, op_frag; lia.
  - intros y u Hy. destruct (ordered_elem _ _ _ _ _ Ho' Hy). rewrite Hf4 by (unfold ob_size, op_frag; lia).
    apply elem_of_app in Hy as [Hy|[Hy|Hy]%elem_of_cons].
    + apply Hs3, elem_of_app. by left.
    + injection Hy as -> ->. done.
    + apply Hs3, elem_of_app. by right.
  - exact Ho'.
  - exact Hp.
  - split; [by unfold h4|]. intros c (Hcf & _ & Hc)%not_slob_words. rewrite Hf4, Hf3 by done. done.
Qed.

Definition merge_step (page : Z) : heap * Z → outcome (heap * Z + heap) :=
  fun '(h, current) =>
    if (current =? 0) || (hload h (current + ob_next) =? 0) then Done (inr h)
    else
      let next := hload h (current + ob_next) in
      Done (inl (
        if u32 (current + hload h (current + ob_size)) =? next then
          let h := hadd32 h (current + ob_size) (hload h (next + ob_size)) in
          let h := hstore h (current + ob_next) (hload h (next + ob_next)) in
          let h := if negb (hload h (next + ob_next) =? 0)
                   then hstore h (hload h (next + ob_next) + ob_prev) current else h in
          (hadd32 h (page + op_frag) (-1), current)
        else (h, hload h (current + ob_next)))).

Lemma merge_loop h0 page nodes : ∀ b2 fuel h b1 a s,
  free_ok h page (b1 ++ (a, s) :: b2) → (∀ x, x ∈ map fst (b1 ++ (a, s) :: b2) → x ∈ nodes) →
  only_writes (slob_words page nodes) h0 h → (length b2 < fuel)%nat →
  ∃ h', loop fuel (merge_step page) (h, a) = Done h' ∧
    free_ok h' page (b1 ++ coalesce a s b2) ∧ only_writes (slob_words page nodes) h0 h'.
Proof.
  induction b2 as [|[n t] b2 IH]; intros [|fuel] h b1 a s Hok Hnodes Hw Hf; simpl in Hf; try lia; cbn [loop];
    unfold merge_step at 1; destruct (next_block _ _ _ _ _ _ Hok) as (Hn & _ & _); rewrite Hn; cbn [map hd fst].
  - rewrite orb_true_r. exists h. done.
  - destruct (Hok) as [_ Hsz Ho Hp].
    destruct (ordered_elem _ _ _ a s Ho) as (Hla & Hs & Hha); [apply elem_of_app; right; by left|].
    destruct (ordered_elem _ _ _ n t Ho) as (Hln & _ & _); [apply elem_of_app; right; right; by left|].
    unfold sizeof_slob_page, SLOB_BLOCK_SIZE in *.
    rewrite (proj2 (Z.eqb_neq a 0)), (proj2 (Z.eqb_neq n 0)) by lia. cbn [orb obind].
    rewrite (Hsz a s) by (apply elem_of_app; right; by left). rewrite u32_small by lia. cbn [coalesce].
    destruct (Z.eqb_spec (a + s) n) as [E|E].
    + destruct (merge_one _ _ _ _ _ _ _ _ Hok E) as [Hok' Hw']. apply IH; [exact Hok'| | |lia].
      * intros x Hx. apply Hnodes. rewrite map_app in *. cbn [map fst] in *.
        apply elem_of_app in Hx as [Hx|[->|Hx]%elem_of_cons]; apply elem_of_app; [by left|right; by left|right; by do 2 right].
      * etransitivity; [exact Hw|]. eapply only_writes_weaken; [|exact Hw']. intros x. by apply slob_words_mono.
    + destruct (IH fuel h (b1 ++ [(a, s)]) n t) as (h' & E' & Hok' & Hw'); [by rewrite <- app_assoc|by rewrite <- app_assoc|done|lia|].
      exists h'. rewrite <- app_assoc in Hok'. done.
Qed.

Lemma merge_free_blocks_ok fuel h page bl :
  free_ok h page bl → (length bl <= fuel)%nat →
  ∃ h', merge_free_blocks fuel h page = Done h' ∧ free_ok h' page (coalesce_all bl) ∧
    only_writes (slob_words page (map fst bl)) h h'.
Proof.
  intros Hok Hf. unfold merge_free_blocks. rewrite (free_ok_head _ _ _ Hok).
  pose proof (fk_page _ _ _ Hok) as Hp. rewrite (proj2 (Z.eqb_neq page 0)) by lia. cbn [orb].
  destruct bl as [|[a s] bl]; cbn [map fst hd]; [exists h; split; [done|]; split; [done|reflexivity]|].
  destruct (ordered_elem _ _ _ a s (fk_order _ _ _ Hok)) as (Hla & _ & _); [by left|].
  unfold sizeof_slob_page in *. rewrite (proj2 (Z.eqb_neq a 0)) by lia. simpl in Hf.
  destruct (merge_loop h page (map fst ((a, s) :: bl)) bl fuel h [] a s) as (h' & E & Hok' & Hw); [done|done|reflexivity|lia|].
  exists h'. split; [exact E|]. by split.
Qed.

(** Giving a block back to its page, [add_free_block] followed by
    [merge_free_blocks] as in [SLOBAllocator::free], returns and leaves the
    page's free list in address order with the block in it and every run of
    touching blocks merged into one: no free byte is lost, no two neighbours
    touch, and nothing changes but the headers of the free blocks and of the
    page. *)
Lemma slob_release_ok fuel h page b1 b s b2 :
  free_ok h page (b1 ++ b2) → hload h (b + ob_size) = s →
  ordered (page + sizeof_slob_page) (b1 ++ (b, s) :: b2) (page + SLOB_BLOCK_SIZE) →
  (length (b1 ++ b2) < fuel)%nat →
  ∃ h' bl, (let* h := add_free_block fuel h page b in merge_free_blocks fuel h page) = Done h' ∧
    free_ok h' page bl ∧ bl = coalesce_all (b1 ++ (b, s) :: b2) ∧
    free_bytes bl = s + free_bytes (b1 ++ b2) ∧ separated bl ∧
    only_writes (slob_words page (map fst (b1 ++ (b, s) :: b2))) h h'.
Proof.
  intros Hok Hb Ho Hf. rewrite length_app in Hf.
  destruct (add_free_block_ok fuel h page b1 b s b2 Hok Hb ltac:(lia) Ho) as (h1 & E1 & Hok1 & Hw1).
  destruct (merge_free_blocks_ok fuel h1 page _ Hok1) as (h2 & E2 & Hok2 & Hw2).
  { rewrite length_app. simpl. lia. }
  exists h2, (coalesce_all (b1 ++ (b, s) :: b2)). rewrite E1. cbn [obind].
  split; [done|]. split; [done|]. split; [done|]. split; [|split; [|by etransitivity]].
  - assert (∀ l, free_bytes (coalesce_all l) = free_bytes l) as ->.
    { intros [|[x u] l]; [done|]. apply coalesce_bytes. }
    clear. induction b1 as [|[x u] b1 IH]; simpl in *; lia.
  - destruct (b1 ++ (b, s) :: b2) as [|[x u] l]; [done|]. apply coalesce_separated.
Qed.

(** ** Concrete instances *)

(** A page at 0x1000 with the free blocks 0x101c (100 bytes) and 0x1100 (64
    bytes), and the allocated block 0x1080 (128 bytes) between them. *)
Definition demo_page : heap :=
  mk_heap (list_to_map [(0x1000 + op_list, 0x101c); (0x101c + ob_size, 100); (0x101c + ob_next, 0x1100);
    (0x1080 + ob_size, 128); (0x1100 + ob_size, 64); (0x1100 + ob_prev, 0x101c)]) (mk_zone [] [] 0 0 0 0).

Lemma demo_page_ok : free_ok demo_page 0x1000 [(0x101c, 100); (0x1100, 64)].
Proof.
  assert (ordered (0x1000 + sizeof_slob_page) [(0x101c, 100); (0x1100, 64)] (0x1000 + SLOB_BLOCK_SIZE)) as Ho by done.
  split; [|intros a s [E|[E|E%not_elem_of_nil]%elem_of_cons]%elem_of_cons; simplify_eq; done|done|done].
  apply dlist_intro; [done|done|by eapply ordered_nodup|]. intros x y. by eapply ordered_sep.
Qed.

Lemma slob_split_spec_witness :
  let h' := slob_split_block demo_page 0x101c 32 in
  free_ok h' 0x1000 [(0x101c, 32); (0x103c, 68); (0x1100, 64)] ∧
  only_writes (slob_words 0x1000 [0x101c; 0x103c; 0x1100]) demo_page h'.
Proof.
  apply (slob_split_spec demo_page 0x1000 [] 0x101c 100 [(0x1100, 64)] 32);
    [exact demo_page_ok|done|done|done].
Defined.

Lemma find_free_block_best_witness :
  ∃ r, find_free_block 9 demo_page (mk_slob 0x1000 1 0 0 75) 60 = Done r ∧
    best_of demo_page 60 [0x101c; 0x1100] r.
Proof.
  apply (find_free_block_best 9 demo_page (mk_slob 0x1000 1 0 0 75) 60 [0x1000] (λ _, [0x101c; 0x1100]));
    [done|simpl; lia| |].
  - intros p ->%list_elem_of_singleton. split; [done|simpl; lia].
  - intros p b ->%list_elem_of_singleton [->|[->|Hb%not_elem_of_nil]%elem_of_cons]%elem_of_cons; done.
Defined.
