(* ===== verification/SlobPage.v ===== *)
(** SLOB pages: the operations on one page that [SlobSpec.v] leaves open
    (unlinking a free block, carving an allocation out of one), its free
    blocks as a set of bytes, and the walks over the list of pages. *)

From Stdlib Require Import ZArith Lia.
From stdpp Require Import base list gmap option sets.
From S2P Require Import Prelude Memory DList Buddy BuddyPartition BuddyInv BuddySpec Slob SlobSpec.

(** ** Free lists as sets of bytes *)

(** The byte [x] is in a free block. *)
Definition free_at (bl : list (Z * Z)) (x : Z) : Prop := ∃ a t, (a, t) ∈ bl ∧ a <= x < a + t.

Lemma free_at_nil x : ¬ free_at [] x.
Proof. intros (a & t & ?%not_elem_of_nil & _). done. Qed.

Lemma free_at_cons a t bl x : free_at ((a, t) :: bl) x ↔ a <= x < a + t ∨ free_at bl x.
Proof.
  unfold free_at. split.
  - intros (b & u & [E|Hb]%elem_of_cons & Hx); [injection E as -> ->; by left|right; by exists b, u].
  - intros [Hx|(b & u & Hb & Hx)]; [exists a, t; split; [by left|done]|exists b, u; split; [by right|done]].
Qed.

Lemma free_at_app b1 b2 x : free_at (b1 ++ b2) x ↔ free_at b1 x ∨ free_at b2 x.
Proof.
  induction b1 as [|[a t] b1 IH]; simpl; [pose proof (free_at_nil x); tauto|].
  rewrite !free_at_cons, IH. tauto.
Qed.

Lemma free_at_ordered lo bl hi x : ordered lo bl hi → free_at bl x → lo <= x < hi.
Proof. intros Ho (a & t & Hin & Hx). destruct (ordered_elem _ _ _ _ _ Ho Hin). lia. Qed.

Lemma coalesce_at a s bl x : 0 <= s → (∀ b t, (b, t) ∈ bl → 0 <= t) →
  free_at (coalesce a s bl) x ↔ free_at ((a, s) :: bl) x.
Proof.
  revert a s. induction bl as [|[b t] bl IH]; intros a s Hs Hp; simpl; [done|].
  pose proof (Hp b t ltac:(by left)). assert (∀ c u, (c, u) ∈ bl → 0 <= u) by (intros c u ?; eapply Hp; by right).
  destruct (Z.eqb_spec (a + s) b) as [<-|].
  - rewrite IH, !free_at_cons by (done || lia). split.
    + intros [?|?]; [|by do 2 right]. destruct (decide (x < a + s)); [left|right; left]; lia.
    + intros [?|[?|?]]; [left; lia|left; lia|by right].
  - rewrite (free_at_cons a), IH, (free_at_cons a) by done. done.
Qed.

Lemma coalesce_all_at lo bl hi x : ordered lo bl hi → free_at (coalesce_all bl) x ↔ free_at bl x.
Proof.
  intros Ho. destruct bl as [|[a s] bl]; [done|]. apply coalesce_at.
  - destruct (ordered_elem _ _ _ a s Ho); [by left|]. lia.
  - intros b t Hb. destruct (ordered_elem _ _ _ b t Ho); [by right|]. lia.
Qed.

Lemma coalesce_starts a s bl c : c ∈ map fst (coalesce a s bl) → c = a ∨ c ∈ map fst bl.
Proof.
  revert a s. induction bl as [|[b t] bl IH]; intros a s; simpl.
  - intros ?%list_elem_of_singleton. by left.
  - destruct (a + s =? b).
    + intros [?|?]%IH; [by left|right; by right].
    + simpl. intros [?|[->|?]%IH]%elem_of_cons; [by left|right; by left|right; by right].
Qed.

Lemma coalesce_all_starts bl c : c ∈ map fst (coalesce_all bl) → c ∈ map fst bl.
Proof. destruct bl as [|[a s] bl]; [done|]. intros [->|?]%coalesce_starts; [by left|by right]. Qed.

Lemma coalesce_all_separated bl : separated (coalesce_all bl).
Proof. destruct bl as [|[a s] bl]; [done|]. apply coalesce_separated. Qed.

Lemma coalesce_all_bytes bl : free_bytes (coalesce_all bl) = free_bytes bl.
Proof. destruct bl as [|[a s] bl]; [done|]. apply coalesce_bytes. Qed.

Lemma free_bytes_app b1 b2 : free_bytes (b1 ++ b2) = free_bytes b1 + free_bytes b2.
Proof. induction b1 as [|[a s] b1 IH]; simpl; [done|]. rewrite IH. lia. Qed.

(** Merging a list without neighbours that touch changes nothing. *)
Lemma separated_coalesce bl : separated bl → coalesce_all bl = bl.
Proof.
  destruct bl as [|[a s] bl]; [done|]. revert a s. simpl coalesce_all.
  induction bl as [|[b t] bl IH]; intros a s; [done|]. intros [Hne Hs].
  simpl. rewrite (proj2 (Z.eqb_neq _ _)) by done. f_equal. by apply IH.
Qed.

Lemma separated_tail x bl : separated (x :: bl) → separated bl.
Proof. destruct x, bl as [|[b t] bl]; [done|]. by intros [_ ?]. Qed.

Lemma ordered_length lo bl hi : lo <= hi → ordered lo bl hi → 16 * Z.of_nat (length bl) <= hi - lo.
Proof.
  revert lo. induction bl as [|[a s] bl IH]; intros lo Hlo; simpl length; [lia|].
  intros (H1 & H2 & H3 & H4). unfold sizeof_slob_block in H2. specialize (IH (a + s) H3 H4). lia.
Qed.

Lemma ordered_bytes lo bl hi : lo <= hi → ordered lo bl hi → 0 <= free_bytes bl <= hi - lo.
Proof.
  revert lo. induction bl as [|[a s] bl IH]; intros lo Hlo; simpl; [lia|].
  intros (H1 & H2 & H3 & H4). unfold sizeof_slob_block in H2. specialize (IH (a + s) H3 H4). simpl in *. lia.
Qed.

(** A list that covers the whole page is one block. *)
Lemma ordered_full lo bl hi :
  lo < hi → ordered lo bl hi → separated bl → free_bytes bl = hi - lo → bl = [(lo, hi - lo)].
Proof.
  intros Hlo. destruct bl as [|[a s] bl]; simpl; [lia|]. intros (H1 & H2 & H3 & H4) Hs Hb. unfold sizeof_slob_block in H2.
  pose proof (ordered_bytes _ _ _ H3 H4). assert (a = lo) as -> by (simpl in *; lia).
  destruct bl as [|[b t] bl]; [simpl in *; f_equal; f_equal; lia|]. destruct Hs as [Hne _].
  simpl in H4. destruct H4 as (H4 & H5 & H6 & H7). pose proof (ordered_bytes _ _ _ H6 H7). simpl in *. lia.
Qed.

Lemma ordered_covered lo bl hi :
  lo < hi → ordered lo bl hi → separated bl → (∀ x, lo <= x < hi → free_at bl x) → bl = [(lo, hi - lo)].
Proof.
  intros Hlo. destruct bl as [|[a s] bl]; simpl.
  - intros _ _ H. by destruct (free_at_nil lo (H lo ltac:(lia))).
  - intros (H1 & H2 & H3 & H4) Hs Hc. unfold sizeof_slob_block in H2.
    assert (a = lo) as ->.
    { destruct (proj1 (free_at_cons _ _ _ _) (Hc lo ltac:(lia))) as [?|Hf]; [lia|].
      pose proof (free_at_ordered _ _ _ _ H4 Hf). lia. }
    destruct (decide (lo + s = hi)) as [E|Hne].
    + destruct bl as [|[b t] bl]; [f_equal; f_equal; lia|].
      simpl in H4. unfold sizeof_slob_block in H4. lia.
    + destruct (proj1 (free_at_cons _ _ _ _) (Hc (lo + s) ltac:(lia))) as [?|Hf]; [lia|].
      destruct bl as [|[b t] bl]; [by apply free_at_nil in Hf|]. destruct Hs as [Hs _]. simpl in H4.
      unfold sizeof_slob_block in H4. destruct H4 as (H4 & H5 & H6 & H7).
      apply free_at_cons in Hf as [Hf|Hf]; [lia|]. pose proof (free_at_ordered _ _ _ _ H7 Hf). lia.
Qed.

(** Where a block that meets no free block goes in the list. *)
Lemma ordered_insert lo bl hi b t :
  ordered lo bl hi → 16 <= t → lo <= b → b + t <= hi → (∀ x, b <= x < b + t → ¬ free_at bl x) →
  ∃ b1 b2, bl = b1 ++ b2 ∧ ordered lo (b1 ++ (b, t) :: b2) hi.
Proof.
  intros Ho Ht Hlo Hhi. revert lo Ho Hlo. induction bl as [|[a s] bl IH]; intros lo Ho Hlo Hd.
  - exists [], []. split; [done|]. simpl. unfold sizeof_slob_block. repeat split; lia.
  - simpl in Ho. destruct Ho as (H1 & H2 & H3 & H4).
    assert (b + t <= a ∨ a + s <= b) as [Hb|Hb].
    { unfold sizeof_slob_block in H2. destruct (decide (b + t <= a)); [by left|right].
      destruct (decide (a + s <= b)); [done|]. destruct (Hd (Z.max a b)); [lia|]. apply free_at_cons. left. lia. }
    + exists [], ((a, s) :: bl). split; [done|]. simpl. unfold sizeof_slob_block in *. repeat split; (done || lia).
    + destruct (IH (a + s) H4 Hb) as (b1 & b2 & -> & Ho').
      { intros x Hx Hf. apply (Hd x Hx). apply free_at_cons. by right. }
      exists ((a, s) :: b1), b2. split; [done|]. simpl. repeat split; done.
Qed.

(** ** Unlinking a free block *)

(** The bytes of the page [p].  The page is the user area of a buddy block of
    4096 bytes, so its last bytes are the header of the next block: what is in
    the block of the page is its core. *)
Definition in_page (p x : Z) : Prop := p <= x < p + SLOB_BLOCK_SIZE.
Definition page_room : Z := SLOB_BLOCK_SIZE - sizeof_buddy_block.
Definition in_core (p x : Z) : Prop := p <= x < p + page_room.

(** Blocks start at multiples of 8, and their headers are in the core. *)
Definition starts_ok (p : Z) (bl : list (Z * Z)) : Prop :=
  ∀ a, a ∈ map fst bl → (8 | a) ∧ a + sizeof_slob_block <= p + page_room.

(** The words the free list depends on. *)
Lemma free_ok_headers h h' p bl :
  hload h' (p + op_list) = hload h (p + op_list) →
  (∀ a o, a ∈ map fst bl → 0 <= o < 16 → o ≠ ob_magic → hload h' (a + o) = hload h (a + o)) →
  free_ok h p bl → free_ok h' p bl.
Proof.
  intros El Hag [Hd Hs Ho Hp].
  split; [|intros a s Ha; rewrite Hag; [by apply Hs|by eapply elem_of_fst|done|done]|done|done].
  rewrite El. eapply dlist_frame; [apply ob_np| |exact Hd]. intros a Ha. by split; apply Hag.
Qed.

Lemma free_ok_frame h h' p bl :
  (∀ x, in_core p x → x < p + op_next ∨ p + sizeof_slob_page <= x → hload h' x = hload h x) →
  starts_ok p bl → free_ok h p bl → free_ok h' p bl.
Proof.
  unfold in_core, page_room, SLOB_BLOCK_SIZE, sizeof_buddy_block. intros Hag Hst Hok.
  apply (free_ok_headers h); [apply Hag; unfold op_list, op_next; lia| |done].
  intros a o Ha Hoo _. destruct (fst_block _ _ _ (fk_order _ _ _ Hok) Ha), (Hst a Ha).
  unfold sizeof_slob_block, page_room, sizeof_slob_page, SLOB_BLOCK_SIZE, sizeof_buddy_block in *. apply Hag; lia.
Qed.

(** A header is in its block. *)
Lemma header_free lo bl hi a o : ordered lo bl hi → a ∈ map fst bl → 0 <= o < 16 → free_at bl (a + o).
Proof.
  intros Ho ([b t] & -> & Hb)%list_elem_of_fmap Hoo. destruct (ordered_elem _ _ _ _ _ Ho Hb).
  exists b, t. simpl. split; [done|lia].
Qed.

(** [remove_free_block] is the generic unlinking, after the list head was
    moved on, and clears the links of the block. *)
Lemma remove_mem h page a first :
  page ≠ 0 → a ≠ 0 →
  let m := if hload h (page + op_list) =? a
           then store (hmem h) (page + op_list) (hload h (a + ob_next)) else hmem h in
  remove_free_block h page a =
  set_mem h (store (store (fst (dl_remove ob_next ob_prev m first a)) (a + ob_next) 0) (a + ob_prev) 0).
Proof.
  intros Hp Ha m. unfold remove_free_block. rewrite (proj2 (Z.eqb_neq page 0)), (proj2 (Z.eqb_neq a 0)) by done. cbn [orb].
  assert ((if hload h (page + op_list) =? a then hstore h (page + op_list) (hload h (a + ob_next)) else h) = set_mem h m) as ->.
  { unfold m, hstore. case_if; [done|]. by destruct h. }
  unfold dl_remove, hload, hstore, set_mem. cbn [hmem zone].
  destruct (negb (load m (a + ob_prev) =? 0)); cbn [fst hmem zone]; by case_if.
Qed.

(** The blocks that stay are others. *)
Lemma remaining_sub lo b1 a s b2 hi x :
  ordered lo (b1 ++ (a, s) :: b2) hi → x ∈ map fst (b1 ++ b2) → x ∈ map fst (b1 ++ (a, s) :: b2) ∧ x ≠ a.
Proof.
  intros Ho Hx. pose proof (ordered_nodup _ _ _ Ho) as Hnd. rewrite map_app in *. cbn [map fst] in *.
  assert (map fst b1 ++ a :: map fst b2 ≡ₚ a :: map fst b1 ++ map fst b2) as HP by by rewrite Permutation_middle.
  rewrite HP in Hnd. apply list.NoDup_cons in Hnd as [Hna _]. split; [rewrite HP; by right|by intros ->].
Qed.

(** Headers of free blocks are behind the page header. *)
Lemma header_above page bl x o :
  ordered (page + sizeof_slob_page) bl (page + SLOB_BLOCK_SIZE) → x ∈ map fst bl → 0 <= o → page + op_list < x + o.
Proof. intros Ho Hx Hoo. destruct (fst_block _ _ _ Ho Hx). unfold sizeof_slob_page, op_list in *. lia. Qed.

Lemma remove_links h page b1 a s b2 :
  free_ok h page (b1 ++ (a, s) :: b2) →
  let h' := remove_free_block h page a in
  zone h' = zone h ∧ dlist ob_next ob_prev (hmem h') (hload h' (page + op_list)) (map fst (b1 ++ b2)) ∧
  (∀ c, c ≠ page + op_list → (∀ x, x ∈ map fst (b1 ++ (a, s) :: b2) → c ≠ x + ob_next ∧ c ≠ x + ob_prev) →
     hload h' c = hload h c).
Proof.
  intros Hok h'. destruct (next_block _ _ _ _ _ _ Hok) as (Hn & _ & _). destruct (Hok) as [Hd _ Ho Hp].
  set (bl := b1 ++ (a, s) :: b2) in *.
  assert (a ∈ map fst bl) as Ha by (unfold bl; rewrite map_app; apply elem_of_app; right; left).
  pose proof (λ x o, header_above page bl x o Ho) as Hpx. pose proof (Hpx a 0 Ha ltac:(lia)).
  set (m := if hload h (page + op_list) =? a
            then store (hmem h) (page + op_list) (hload h (a + ob_next)) else hmem h).
  assert (∀ c, c ≠ page + op_list → load m c = hload h c) as Hm.
  { intros c Hc. unfold m. case_if; [by apply load_store_ne|done]. }
  assert (dlist ob_next ob_prev m (hload h (page + op_list)) (map fst b1 ++ a :: map fst b2)) as Hdm.
  { unfold bl in Hd. rewrite map_app in Hd. eapply dlist_frame; [apply ob_np| |exact Hd]. intros x Hx.
    assert (x ∈ map fst bl) as Hx' by (unfold bl; by rewrite map_app).
    split; apply Hm, not_eq_sym, Z.lt_neq, Hpx; done. }
  destruct (dl_remove_dlist _ _ ob_np _ _ _ _ _ Hdm) as (m' & E & Hd' & Hf). rewrite <- map_app in Hd', Hf.
  assert (hmem h' = store (store m' (a + ob_next) 0) (a + ob_prev) 0) as Em.
  { unfold h'. unfold op_list in H. rewrite (remove_mem h page a (hload h (page + op_list))) by lia. fold m. by rewrite E. }
  assert (∀ c, (∀ x, x ∈ map fst bl → c ≠ x + ob_next ∧ c ≠ x + ob_prev) → hload h' c = load m c) as Hf'.
  { intros c Hc. unfold hload. rewrite Em. destruct (Hc a Ha). rewrite !load_store_ne by done.
    apply Hf. intros x Hx. by apply Hc, (remaining_sub _ _ _ s _ _ _ Ho). }
  split; [unfold h'; unfold op_list in H; rewrite (remove_mem h page a 0) by lia; done|split].
  - assert (hload h' (page + op_list) = hd 0 (map fst b1 ++ map fst b2)) as ->.
    { rewrite Hf' by (intros x Hx; split; apply Z.lt_neq, Hpx; done).
      unfold m. rewrite (free_ok_head _ _ _ Hok). unfold bl. destruct b1 as [|[y t] b1]; simpl.
      - rewrite Z.eqb_refl, load_store_eq. exact Hn.
      - destruct (remaining_sub _ _ _ _ _ _ y Ho) as [_ Hne]; [by left|]. rewrite (proj2 (Z.eqb_neq y a) Hne).
        change (load (hmem h) (page + op_list)) with (hload h (page + op_list)). by rewrite (free_ok_head _ _ _ Hok). }
    rewrite <- map_app. eapply dlist_frame; [apply ob_np| |exact Hd']. intros x Hx. rewrite Em.
    destruct (remaining_sub _ _ _ _ _ _ x Ho Hx) as [Hx' Hne]. pose proof (ordered_apart _ _ _ _ _ Ho Hx' Ha Hne).
    unfold ob_next, ob_prev. split; rewrite !load_store_ne by lia; done.
  - intros c Hcl Hc. rewrite Hf' by done. by apply Hm.
Qed.

Lemma remove_free_block_ok h page b1 a s b2 :
  free_ok h page (b1 ++ (a, s) :: b2) →
  let h' := remove_free_block h page a in
  free_ok h' page (b1 ++ b2) ∧ hload h' (a + ob_size) = s ∧
  only_writes (slob_words page (map fst (b1 ++ (a, s) :: b2))) h h'.
Proof.
  intros Hok h'. destruct (remove_links _ _ _ _ _ _ Hok) as (Hz & Hd' & Hf). destruct Hok as [Hd Hsz Ho Hp]. fold h' in Hz, Hd', Hf.
  set (bl := b1 ++ (a, s) :: b2) in *.
  assert (∀ x u, (x, u) ∈ bl → hload h' (x + ob_size) = u) as Hs.
  { intros x u Hx. pose proof (elem_of_fst _ _ _ Hx) as Hx'. rewrite Hf; [by apply Hsz| |].
    - by apply not_eq_sym, Z.lt_neq, (header_above _ bl).
    - intros y Hy. unfold ob_size, ob_next, ob_prev. destruct (decide (x = y)) as [->|Hne]; [lia|].
      pose proof (ordered_apart _ _ _ _ _ Ho Hx' Hy Hne). lia. }
  split; [split; [exact Hd'| |by eapply ordered_delete|exact Hp]|split].
  - intros x t Hx. apply Hs. apply elem_of_app in Hx as [?|?]; apply elem_of_app; [by left|right; by right].
  - apply Hs, elem_of_app. right. left.
  - split; [exact Hz|]. intros c (_ & Hcl & Hc)%not_slob_words. apply Hf; [done|]. intros x Hx. split; apply Hc; done.
Qed.

(** ** Carving an allocation out of a free block *)

(** The words an operation on the free blocks [bl] of the page may write. *)
Definition free_words (p : Z) (bl : list (Z * Z)) (x : Z) : Prop :=
  x = p + op_frag ∨ x = p + op_list ∨ free_at bl x ∧ in_core p x.

Lemma slob_words_free p bl x :
  ordered (p + sizeof_slob_page) bl (p + SLOB_BLOCK_SIZE) → starts_ok p bl →
  slob_words p (map fst bl) x → free_words p bl x.
Proof.
  intros Ho Hst [->|[->|(a & Ha & Hx)]]; [by left|by right; left|].
  destruct (Hst a Ha) as [_ Hr]. apply list_elem_of_fmap in Ha as ([b t] & -> & Hb).
  destruct (ordered_elem _ _ _ _ _ Ho Hb). do 2 right. unfold in_core, sizeof_slob_block, sizeof_slob_page in *. simpl in *.
  split; [|lia]. exists b, t. split; [done|lia].
Qed.

Lemma free_words_mono p bl bl' x :
  (∀ y, free_at bl y → free_at bl' y) → free_words p bl x → free_words p bl' x.
Proof. unfold free_words. intros H. pose proof (H x). tauto. Qed.

(** What [alloc] does to the block it chose: [n] bytes of it, or all [s]. *)
Definition cut (h : heap) (a n : Z) : heap :=
  if u32 (n + sizeof_slob_block + SLOB_MIN_ALLOC) <? hload h (a + ob_size) then slob_split_block h a n else h.

Definition carved (a s n t : Z) (rest : list (Z * Z)) : Prop :=
  rest = [] ∧ t = s ∨ rest = [(a + n, s - n)] ∧ t = n ∧ n + 32 < s.

(** The rest of a split block is large enough for its header: the end of the
    page is no multiple of 8. *)
Lemma carved_starts p b1 a s b2 n t rest :
  ordered (p + sizeof_slob_page) (b1 ++ (a, s) :: b2) (p + SLOB_BLOCK_SIZE) → (8 | p + 4) → (8 | n) →
  starts_ok p (b1 ++ (a, s) :: b2) → carved a s n t rest → starts_ok p (b1 ++ rest ++ b2).
Proof.
  unfold starts_ok. intros (_ & _ & _ & Hs & _)%ordered_app [i Hi] [j Hj] Hst Hc c.
  rewrite !map_app in *. cbn [map fst] in *. intros Hin.
  apply elem_of_app in Hin as [?|Hin]; [apply Hst, elem_of_app; by left|].
  apply elem_of_app in Hin as [Hin|?]; [|apply Hst, elem_of_app; right; by right].
  destruct Hc as [[-> _]|(-> & _ & Hlt)]; [by apply not_elem_of_nil in Hin|].
  apply list_elem_of_singleton in Hin as ->. simpl.
  destruct (Hst a) as [[k Hk] _]; [apply elem_of_app; right; by left|].
  unfold page_room, sizeof_slob_block, sizeof_buddy_block, SLOB_BLOCK_SIZE in *.
  split; [exists (k + j); lia|lia].
Qed.

Lemma cut_ok h p b1 a s b2 n :
  free_ok h p (b1 ++ (a, s) :: b2) → 16 <= n <= s → (8 | p + 4) → (8 | n) → starts_ok p (b1 ++ (a, s) :: b2) →
  ∃ t rest, carved a s n t rest ∧ free_ok (cut h a n) p (b1 ++ (a, t) :: rest ++ b2) ∧
    starts_ok p (b1 ++ (a, t) :: rest ++ b2) ∧ only_writes (free_words p (b1 ++ (a, s) :: b2)) h (cut h a n).
Proof.
  intros Hok Hn Hp4 Hn8 Hst. destruct (Hok) as [_ Hsz Ho Hp].
  assert ((a, s) ∈ b1 ++ (a, s) :: b2) as Hin by (apply elem_of_app; right; left).
  destruct (ordered_elem _ _ _ _ _ Ho Hin) as (? & ? & ?). unfold sizeof_slob_page, SLOB_BLOCK_SIZE in *.
  unfold cut. rewrite (Hsz _ _ Hin). unfold sizeof_slob_block, SLOB_MIN_ALLOC in *. rewrite u32_small by lia.
  destruct (Z.ltb_spec (n + 16 + 16) s); [|by exists s, []; split; [by left|]].
  destruct (slob_split_spec h p b1 a s b2 n Hok) as [Hok1 Hw1]; [lia|unfold sizeof_slob_block; lia..|].
  assert (carved a s n n [(a + n, s - n)]) as Hc by (right; split; [done|]; lia).
  assert (starts_ok p (b1 ++ (a, n) :: (a + n, s - n) :: b2)) as Hst1.
  { pose proof (carved_starts p b1 a s b2 n n _ Ho Hp4 Hn8 Hst Hc) as Hst'.
    intros c Hin'. rewrite map_app in Hin'. cbn [map fst] in Hin'. destruct (decide (c = a)) as [->|Hca]; [by apply Hst; eapply elem_of_fst|].
    apply Hst'. rewrite map_app. cbn [map fst app]. apply elem_of_app in Hin' as [?|[?|?]%elem_of_cons]; [|done|];
      apply elem_of_app; [by left|by right]. }
  exists n, [(a + n, s - n)]. do 3 (split; [done|]).
  eapply only_writes_weaken; [|exact Hw1]. intros x Hx.
  eapply free_words_mono; [|eapply slob_words_free; [apply Hok1|exact Hst1|exact Hx]]. intros y.
  rewrite !free_at_app, !free_at_cons. intros [?|[?|[?|?]]]; auto; right; left; lia.
Qed.

Lemma carve_ok h p b1 a s b2 n :
  free_ok h p (b1 ++ (a, s) :: b2) → 16 <= n <= s → (8 | p + 4) → (8 | n) → starts_ok p (b1 ++ (a, s) :: b2) →
  ∃ t rest, carved a s n t rest ∧ free_ok (remove_free_block (cut h a n) p a) p (b1 ++ rest ++ b2) ∧
    hload (remove_free_block (cut h a n) p a) (a + ob_size) = t ∧
    only_writes (free_words p (b1 ++ (a, s) :: b2)) h (remove_free_block (cut h a n) p a).
Proof.
  intros Hok Hn Hp4 Hn8 Hst. destruct (cut_ok h p b1 a s b2 n Hok Hn Hp4 Hn8 Hst) as (t & rest & Hc & Hok1 & Hst1 & Hw1).
  destruct (remove_free_block_ok _ p b1 a t (rest ++ b2) Hok1) as (Hok2 & Ha2 & Hw2).
  exists t, rest. do 3 (split; [done|]). etransitivity; [exact Hw1|]. eapply only_writes_weaken; [|exact Hw2]. intros x Hx.
  eapply free_words_mono; [|eapply slob_words_free; [apply Hok1|exact Hst1|exact Hx]]. intros y.
  destruct Hc as [[-> ->]|(-> & -> & Hlt)]; [done|].
  rewrite !free_at_app, !free_at_cons, free_at_app, free_at_cons. pose proof (free_at_nil y).
  intros [?|[?|[[?|?]|?]]]; auto; try done; right; left; lia.
Qed.

(** The bytes and the shape of what remains. *)
Lemma carved_tiles h p b1 a s b2 n t rest :
  free_ok h p (b1 ++ (a, s) :: b2) → 16 <= n <= s → carved a s n t rest →
  n <= t <= s ∧ ∀ x, free_at (b1 ++ rest ++ b2) x ↔ free_at (b1 ++ (a, s) :: b2) x ∧ ¬ a <= x < a + t.
Proof.
  intros Hok Hn Hc. pose proof (fk_order _ _ _ Hok) as Ho. apply ordered_app in Ho as (H1 & H2 & H3 & H4 & H5).
  assert (∀ x, free_at b1 x → x < a) as Hb1 by (intros x Hx; destruct (free_at_ordered _ _ _ _ H1 Hx); done).
  assert (∀ x, free_at b2 x → a + s <= x) as Hb2 by (intros x Hx; destruct (free_at_ordered _ _ _ _ H5 Hx); done).
  destruct Hc as [[-> ->]|(-> & -> & Hlt)].
  - split; [lia|]. intros x. specialize (Hb1 x). specialize (Hb2 x). rewrite !free_at_app, free_at_cons.
    pose proof (free_at_nil x). split; [|tauto]. intros [?|[?|?]]; [|done|]; (split; [tauto|]); intros ?; [specialize (Hb1 H0)|specialize (Hb2 H0)]; lia.
  - split; [lia|]. intros x. specialize (Hb1 x). specialize (Hb2 x). rewrite !free_at_app, !free_at_cons.
    pose proof (free_at_nil x). split.
    + intros [?|[[?|?]|?]]; [|split; [right; left|]; lia|done|].
      * split; [tauto|]. specialize (Hb1 H0). lia.
      * split; [tauto|]. specialize (Hb2 H0). lia.
    + intros [[?|[?|?]] ?]; [tauto| |tauto]. right. left. left. lia.
Qed.

Lemma carved_separated lo hi b1 a s b2 n t rest :
  ordered lo (b1 ++ (a, s) :: b2) hi → separated (b1 ++ (a, s) :: b2) → carved a s n t rest → 16 <= n →
  separated (b1 ++ rest ++ b2).
Proof.
  intros Ho Hs Hc Hn.
  destruct Hc as [[-> _]|(-> & _ & Hlt)]; revert lo Ho Hs; induction b1 as [|[y u] b1 IH]; intros lo Ho Hs.
  - by eapply separated_tail.
  - cbn [app] in *. destruct Ho as (_ & _ & _ & Ho). specialize (IH _ Ho (separated_tail _ _ Hs)).
    destruct b1 as [|[z v] b1]; cbn [app] in *; [|destruct Hs; by split].
    destruct Hs as [Hne _], Ho as (H1 & H2 & H3 & H4). destruct b2 as [|[z v] b2]; [done|]. split; [|done].
    simpl in H4. unfold sizeof_slob_block in *. lia.
  - cbn [app] in *. destruct b2 as [|[z v] b2]; [done|]. destruct Hs as [Hne Hs]. split; [lia|done].
  - cbn [app] in *. destruct Ho as (_ & _ & _ & Ho). specialize (IH _ Ho (separated_tail _ _ Hs)).
    destruct b1 as [|[z v] b1]; cbn [app] in *; [|destruct Hs; by split].
    destruct Hs as [Hne _], Ho as (H1 & H2 & H3 & H4). split; [lia|done].
Qed.

Lemma carved_bytes b1 a s b2 n t rest :
  carved a s n t rest → free_bytes (b1 ++ rest ++ b2) = free_bytes (b1 ++ (a, s) :: b2) - t.
Proof.
  rewrite !free_bytes_app. intros [[-> ->]|(-> & -> & _)]; simpl; lia.
Qed.

(** ** Walks over the pages *)

Definition page_apart (p q : Z) : Prop := p + SLOB_BLOCK_SIZE <= q ∨ q + SLOB_BLOCK_SIZE <= p.

Lemma find_page_spec fuel h s b pl p :
  slist op_next (hmem h) (pages s) pl → (length pl < fuel)%nat → p ∈ pl → in_page p b →
  (∀ q, q ∈ pl → 0 <= q ∧ q + SLOB_BLOCK_SIZE < 2 ^ 32 ∧
     hload h (q + op_addr) = q ∧ hload h (q + op_total) = SLOB_BLOCK_SIZE ∧ (q ≠ p → page_apart q p)) →
  find_page fuel h s b = Done p.
Proof.
  intros Hl Hf Hp Hb Hpl. unfold find_page. revert fuel Hf Hl Hp Hpl. generalize (pages s).
  induction pl as [|q pl IH]; intros x [|fuel] Hf Hl Hp Hpl; simpl in Hf; try lia; [by apply not_elem_of_nil in Hp|].
  cbn [loop slist] in *. destruct Hl as (-> & Hq & Hl). rewrite (proj2 (Z.eqb_neq q 0) Hq).
  destruct (Hpl q ltac:(by left)) as (Hq0 & Hq1 & Ea & Et & Hap). rewrite Ea, Et, u32_small by (unfold SLOB_BLOCK_SIZE in *; lia).
  unfold in_page, page_apart, SLOB_BLOCK_SIZE in *. cbn [obind]. destruct (decide (q = p)) as [->|Hne].
  - rewrite (proj2 (Z.leb_le p b)), (proj2 (Z.ltb_lt b (p + 4096))) by lia. done.
  - destruct (Hap Hne); [rewrite (proj2 (Z.ltb_ge b (q + 4096))), andb_false_r by lia|
      rewrite (proj2 (Z.leb_gt q b)) by lia; cbn [andb]];
    (apply IH; [lia|exact Hl|by apply elem_of_cons in Hp as [->|?]|intros r Hr; apply Hpl; by right]).
Qed.

Lemma should_defragment_returns fuel h s pl :
  slist op_next (hmem h) (pages s) pl → (length pl < fuel)%nat → ∃ b, should_defragment fuel h s = Done b.
Proof.
  intros Hl Hf. unfold should_defragment, while.
  match goal with |- context [loop fuel ?b _] => set (body := b) end.
  cut (∃ r, loop fuel body (pages s, 0) = Done r).
  { intros [[? t] ->]. cbn [obind]. by eexists. }
  revert fuel Hf Hl. generalize (pages s) 0. induction pl as [|q pl IH]; intros x t [|fuel] Hf Hl; simpl in Hf; try lia;
    cbn [loop slist] in *.
  - subst x. by eexists.
  - destruct Hl as (-> & Hq & Hl). unfold body at 1. rewrite (proj2 (Z.eqb_neq q 0) Hq). cbn [negb obind].
    apply IH; [lia|exact Hl].
Qed.

(** Counting the gaps of one page. *)
Lemma count_gaps fuel h0 p bl : ∀ h x l,
  slist ob_next (hmem h) x l → (length l < fuel)%nat → (∀ y, y ∈ l → y + ob_next ≠ p + op_frag) →
  only_writes (free_words p bl) h0 h →
  ∃ h', loop fuel
    (fun '(h, block) =>
       if block =? 0 then Done (inr h)
       else Done (inl (if negb (hload h (block + ob_next) =? 0) then hadd32 h (p + op_frag) 1 else h,
                       hload h (block + ob_next)))) (h, x) = Done h' ∧
    only_writes (free_words p bl) h0 h' ∧ ∀ c, c ≠ p + op_frag → hload h' c = hload h c.
Proof.
  induction fuel as [|fuel IH]; intros h x [|y l] Hl Hf Hy Hw; simpl in Hf; try lia; cbn [loop slist] in *.
  - subst x. by exists h.
  - destruct Hl as (-> & Hy0 & Hl). rewrite (proj2 (Z.eqb_neq y 0) Hy0). cbn [obind].
    set (h1 := if negb (hload h (y + ob_next) =? 0) then hadd32 h (p + op_frag) 1 else h).
    assert (∀ c, c ≠ p + op_frag → hload h1 c = hload h c) as Hc1.
    { intros c Hc. unfold h1. case_if; [by apply load_store_ne, not_eq_sym|done]. }
    destruct (IH h1 (hload h (y + ob_next)) l) as (h' & E & Hw' & Hc').
    + eapply slist_frame; [|exact Hl]. intros z Hz. apply Hc1, Hy. by right.
    + lia.
    + intros z Hz. apply Hy. by right.
    + etransitivity; [exact Hw|]. unfold h1. case_if; [|done]. apply only_writes_hstore. by left.
    + exists h'. split; [exact E|]. split; [done|]. intros c Hc. by rewrite Hc', Hc1.
Qed.

(** One page of [defragment]: there is nothing left to merge. *)
Lemma defragment_page fuel h p bl :
  free_ok h p bl → starts_ok p bl → separated bl → (length bl < fuel)%nat →
  ∃ h1 h', merge_free_blocks fuel h p = Done h1 ∧
    loop fuel
      (fun '(h, block) =>
         if block =? 0 then Done (inr h)
         else Done (inl (if negb (hload h (block + ob_next) =? 0) then hadd32 h (p + op_frag) 1 else h,
                         hload h (block + ob_next))))
      (hstore h1 (p + op_frag) 0, hload (hstore h1 (p + op_frag) 0) (p + op_list)) = Done h' ∧
    free_ok h' p bl ∧ only_writes (free_words p bl) h h'.
Proof.
  intros Hok Hst Hs Hf. destruct (merge_free_blocks_ok fuel h p bl Hok ltac:(lia)) as (h1 & E1 & Hok1 & Hw1).
  rewrite (separated_coalesce _ Hs) in Hok1. exists h1.
  assert (∀ a, a ∈ map fst bl → ∀ o, 0 <= o → a + o ≠ p + op_frag) as Hne.
  { intros a Ha o Hoo. destruct (fst_block _ _ _ (fk_order _ _ _ Hok) Ha). unfold sizeof_slob_page, op_frag in *. lia. }
  assert (∀ h2, (∀ c, c ≠ p + op_frag → hload h2 c = hload h1 c) → free_ok h2 p bl) as Hfr.
  { intros h2 Hc. destruct Hok1 as [Hd Hsz Ho Hp]. split; [|intros a t Ha; rewrite Hc; [by apply Hsz|]|done|done].
    - rewrite Hc by (unfold op_list, op_frag; lia). eapply dlist_frame; [apply ob_np| |exact Hd].
      intros a Ha. split; apply Hc, Hne; done.
    - apply Hne; [by eapply elem_of_fst|done]. }
  assert (free_ok (hstore h1 (p + op_frag) 0) p bl) as Hok2.
  { apply Hfr. intros c Hc. by apply load_store_ne, not_eq_sym. }
  destruct (count_gaps fuel h p bl (hstore h1 (p + op_frag) 0) (hload (hstore h1 (p + op_frag) 0) (p + op_list))
    (map fst bl)) as (h' & E & Hw & Hc).
  - eapply dlist_slist, Hok2.
  - by rewrite length_map.
  - intros y Hy. by apply Hne.
  - apply only_writes_then_hstore; [|by left]. eapply only_writes_weaken; [|exact Hw1].
    intros x. apply slob_words_free; [apply Hok|done].
  - exists h'. split; [done|]. split; [done|]. split; [|done]. apply Hfr. intros c Hcf. rewrite Hc by done.
    by apply load_store_ne, not_eq_sym.
Qed.

Lemma free_words_bounds p bl x :
  ordered (p + sizeof_slob_page) bl (p + SLOB_BLOCK_SIZE) → free_words p bl x →
  p + op_frag <= x < p + page_room ∧ (x < p + op_next ∨ p + sizeof_slob_page <= x).
Proof.
  intros Ho.
  unfold free_words, in_core, page_room, op_free, op_frag, op_list, op_next, sizeof_slob_page, SLOB_BLOCK_SIZE, sizeof_buddy_block in *.
  intros [->|[->|[Hx ?]]]; [lia..|]. apply (free_at_ordered _ _ _ _ Ho) in Hx. lia.
Qed.

Lemma free_words_in_page h p bl x :
  free_ok h p bl → free_words p bl x → p + op_frag <= x < p + page_room ∧ (x < p + op_next ∨ p + sizeof_slob_page <= x).
Proof. intros Hok. apply free_words_bounds, Hok. Qed.

Lemma free_words_other h h' p bl q x :
  free_ok h p bl → only_writes (free_words p bl) h h' → page_apart p q → in_page q x → hload h' x = hload h x.
Proof.
  intros Hok [_ Hw] Hpq Hx. apply Hw. intros Hxw. destruct (free_words_in_page _ _ _ _ Hok Hxw) as [? _].
  unfold page_apart, in_page, page_room, op_frag, sizeof_buddy_block, SLOB_BLOCK_SIZE in *. lia.
Qed.

Lemma page_in {A} (P : list (Z * A)) p x : (p, x) ∈ P → p ∈ map fst P.
Proof. apply (list_elem_of_fmap_2 fst P (p, x)). Qed.

Lemma page_unique {A} (P : list (Z * A)) p x y : NoDup (map fst P) → (p, x) ∈ P → (p, y) ∈ P → x = y.
Proof.
  induction P as [|[q z] P IH]; [by intros _ ?%not_elem_of_nil|]. cbn [map fst].
  intros [Hq Hnd]%list.NoDup_cons [E1|H1]%elem_of_cons [E2|H2]%elem_of_cons.
  - congruence.
  - injection E1 as -> ->. destruct Hq. by eapply page_in.
  - injection E2 as -> ->. destruct Hq. by eapply page_in.
  - by apply IH.
Qed.

Definition all_free_words (P : list (Z * list (Z * Z))) (x : Z) : Prop :=
  ∃ p bl, (p, bl) ∈ P ∧ free_words p bl x.

Lemma defragment_ok fuel h s P :
  slist op_next (hmem h) (pages s) (map fst P) → (length P < fuel)%nat → NoDup (map fst P) →
  (∀ p q, p ∈ map fst P → q ∈ map fst P → p ≠ q → page_apart p q) →
  (∀ p bl, (p, bl) ∈ P → free_ok h p bl ∧ starts_ok p bl ∧ separated bl ∧ (length bl < fuel)%nat) →
  ∃ h', defragment fuel h s = Done h' ∧ (∀ p bl, (p, bl) ∈ P → free_ok h' p bl) ∧
    only_writes (all_free_words P) h h'.
Proof.
  intros Hl Hf Hnd Hap Hok. unfold defragment.
  match goal with |- context [loop fuel ?b _] => set (body := b) end.
  cut (∀ Q n h1 x, slist op_next (hmem h1) x (map fst Q) → (length Q < n)%nat → (∀ pb, pb ∈ Q → pb ∈ P) →
    (∀ p bl, (p, bl) ∈ P → free_ok h1 p bl) → only_writes (all_free_words P) h h1 →
    ∃ h' y, loop n body (h1, x) = Done (h', y) ∧ (∀ p bl, (p, bl) ∈ P → free_ok h' p bl) ∧
      only_writes (all_free_words P) h h').
  { intros H. destruct (H P fuel h (pages s)) as (h' & y & -> & ? & ?); try done.
    { intros p bl Hp. by apply Hok. } exists h'. cbn [obind]. done. }
  induction Q as [|[p bl] Q IH]; intros [|n] h1 x Hl1 Hn Hsub Hok1 Hw1; simpl in Hn; try lia; cbn [loop].
  - simpl in Hl1. subst x. exists h1, 0. done.
  - cbn [map fst slist] in Hl1. destruct Hl1 as (-> & Hp & Hl1). unfold body at 1. rewrite (proj2 (Z.eqb_neq p 0) Hp).
    assert ((p, bl) ∈ P) as Hin by (apply Hsub; left). destruct (Hok _ _ Hin) as (_ & Hst & Hsep & Hlen).
    pose proof (Hok1 _ _ Hin) as Hokp.
    destruct (defragment_page fuel h1 p bl Hokp Hst Hsep Hlen) as (h2 & h3 & E1 & E2 & Hok3 & Hw3).
    rewrite E1. cbn [obind]. rewrite E2. cbn [obind].
    assert (∀ q, q ∈ map fst P → q = p ∨ page_apart p q) as Hpq.
    { intros q Hq. destruct (decide (q = p)); [by left|right]. apply Hap; [by eapply page_in|done|done]. }
    assert (∀ q bl', (q, bl') ∈ P → hload h3 (q + op_next) = hload h1 (q + op_next)) as Hnext.
    { intros q bl' Hq. destruct (Hpq q) as [->|Hapq]; [by eapply page_in| |].
      - apply Hw3. intros Hx%(free_words_in_page _ _ _ _ Hokp). unfold op_next, sizeof_slob_page in *. lia.
      - eapply free_words_other; [exact Hokp|exact Hw3|exact Hapq|]. unfold in_page, op_next, SLOB_BLOCK_SIZE. lia. }
    apply (IH n h3).
    + rewrite (Hnext p bl Hin). eapply slist_frame; [|exact Hl1].
      intros q ([q' bl'] & -> & Hq)%list_elem_of_fmap. apply (Hnext q' bl'). apply Hsub. by right.
    + lia.
    + intros pb Hpb. apply Hsub. by right.
    + intros q bl' Hq. destruct (Hpq q) as [->|Hapq]; [by eapply page_in| |].
      * rewrite (page_unique _ _ _ _ Hnd Hq Hin). exact Hok3.
      * eapply free_ok_frame; [|by apply (Hok q)|by apply Hok1].
        intros x Hx _. eapply free_words_other; [done..|]. unfold in_core, in_page, page_room, sizeof_buddy_block in *. lia.
    + etransitivity; [exact Hw1|]. eapply only_writes_weaken; [|exact Hw3]. intros x Hx. by exists p, bl.
Qed.
