(* ===== verification/SlobInv.v ===== *)
(** The invariant of the SLOB allocator with the blocks it has handed out, and
    what [alloc_page], [free_page], [alloc] and [free] do to it.  The pages
    come from the buddy allocator, which has other clients. *)

From Stdlib Require Import ZArith Lia.
From stdpp Require Import base list gmap option sets fin_maps.
From S2P Require Import Prelude Memory DList Buddy BuddyPartition BuddyInv BuddySpec BuddyRun Slob SlobSpec SlobPage.

(** ** The invariant *)

(** The byte [x] is in a live block of [T], a map from blocks to their sizes. *)
Definition live_at (T : gmap Z Z) (x : Z) : Prop := ∃ b t, T !! b = Some t ∧ b <= x < b + t.

(** The page [p] with the free list [bl]: the free blocks are the bytes
    behind the page header that are in no live block. *)
Record page_ok (h : heap) (T : gmap Z Z) (p : Z) (bl : list (Z * Z)) : Prop := {
  pk_free : free_ok h p bl;
  pk_sep : separated bl;
  pk_addr : hload h (p + op_addr) = p;
  pk_total : hload h (p + op_total) = SLOB_BLOCK_SIZE;
  pk_bytes : hload h (p + op_free) = free_bytes bl;
  pk_starts : starts_ok p bl;
  pk_tile : ∀ x, p + sizeof_slob_page <= x < p + SLOB_BLOCK_SIZE → free_at bl x ↔ ¬ live_at T x;
}.

Record block_ok (h : heap) (pl : list Z) (b t : Z) : Prop := {
  bk_size : 2 * sizeof_slob_block <= t;
  bk_header : hload h (b + ob_size) = t ∧ hload h (b + ob_magic) = SLOB_MAGIC;
  bk_page : ∃ p, p ∈ pl ∧ p + sizeof_slob_page <= b ∧ b + t <= p + SLOB_BLOCK_SIZE ∧
    (8 | b) ∧ b + sizeof_slob_block <= p + page_room;
}.

Definition apart (T : gmap Z Z) : Prop :=
  ∀ b t c u, T !! b = Some t → T !! c = Some u → b ≠ c → b + t <= c ∨ c + u <= b.

Definition total_size (T : gmap Z Z) : Z := map_fold (λ _ t acc, t + acc) 0 T.

(** The order of the buddy blocks the pages are in: one page. *)
Definition page_order : Z := 0.

(** [A]: the live blocks of the buddy allocator, [O]: those of its other
    clients; [P]: the pages with their free lists; [T]: the live blocks. *)
Record slob_inv (h : heap) (s : slob) (A O : gmap Z Z) (P : list (Z * list (Z * Z))) (T : gmap Z Z) : Prop := {
  si_buddy : buddy_ok h A;
  si_top : zend h + sizeof_buddy_block < 2 ^ 32;
  si_heap : ∀ b k, A !! b = Some k ↔ O !! b = Some k ∨ k = page_order ∧ b + sizeof_buddy_block ∈ map fst P;
  si_others : ∀ b, b + sizeof_buddy_block ∈ map fst P → O !! b = None;
  si_pages : dlist op_next op_prev (hmem h) (pages s) (map fst P);
  si_page : ∀ p bl, (p, bl) ∈ P → page_ok h T p bl;
  si_block : ∀ b t, T !! b = Some t → block_ok h (map fst P) b t;
  si_apart : apart T;
  si_count : total_pages s = u32 (zlen P) ∧ total_free s = u32 ((SLOB_BLOCK_SIZE - sizeof_slob_page) * zlen P) ∧
    total_allocated s = u32 (total_size T);
}.

(** *** Where the pages are *)

Lemma page_block h s A O P T p :
  slob_inv h s A O P T → p ∈ map fst P → A !! (p - sizeof_buddy_block) = Some page_order.
Proof.
  intros Hi Hp. apply (si_heap _ _ _ _ _ _ Hi). right. split; [done|]. by rewrite Z.sub_add.
Qed.

Lemma order0_bounds h A p :
  buddy_ok h A → zend h + sizeof_buddy_block < 2 ^ 32 → A !! (p - sizeof_buddy_block) = Some page_order →
  zstart h <= p - sizeof_buddy_block ∧ 0 < p - sizeof_buddy_block ∧ p + page_room <= zend h ∧
  p + SLOB_BLOCK_SIZE < 2 ^ 32 ∧ (4096 | p - sizeof_buddy_block).
Proof.
  intros Hok Htop HA. destruct (live_disjoint _ _ _ _ Hok HA) as (_ & H1 & H2 & _).
  destruct Hok as [B Hwf]. destruct (wf_region _ _ _ _ Hwf) as (_ & H3 & H4 & _).
  apply (wf_live _ _ _ _ Hwf) in HA as [HB _]. pose proof (wf_aligned _ _ _ _ _ _ _ Hwf HB).
  change (bsize page_order) with 4096 in H2. unfold page_room, sizeof_buddy_block, SLOB_BLOCK_SIZE in *.
  repeat split; (done || lia).
Qed.

Lemma order0_apart h A p q :
  buddy_ok h A → A !! (p - sizeof_buddy_block) = Some page_order → A !! (q - sizeof_buddy_block) = Some page_order →
  p ≠ q → page_apart p q.
Proof.
  intros Hok HA HA' Hne. destruct (live_disjoint _ _ _ _ Hok HA) as (_ & _ & _ & _ & Hd).
  specialize (Hd _ _ HA' ltac:(lia)). change (bsize page_order) with 4096 in Hd.
  unfold page_apart, SLOB_BLOCK_SIZE. lia.
Qed.

Lemma page_bounds h s A O P T p :
  slob_inv h s A O P T → p ∈ map fst P →
  zstart h <= p - sizeof_buddy_block ∧ 0 < p - sizeof_buddy_block ∧ p + page_room <= zend h ∧
  p + SLOB_BLOCK_SIZE < 2 ^ 32 ∧ (4096 | p - sizeof_buddy_block).
Proof. intros Hi Hp. eapply order0_bounds; [apply Hi|apply Hi|by eapply page_block]. Qed.

Lemma pages_apart h s A O P T p q :
  slob_inv h s A O P T → p ∈ map fst P → q ∈ map fst P → p ≠ q → page_apart p q.
Proof. intros Hi Hp Hq. eapply order0_apart; [apply Hi|by eapply page_block..]. Qed.

Lemma pages_nodup h s A O P T : slob_inv h s A O P T → NoDup (map fst P).
Proof. intros Hi. by destruct (si_pages _ _ _ _ _ _ Hi) as (_ & _ & ? & _). Qed.

(** The words of a page's core are the allocator's own, and no other client's. *)
Lemma page_area h s A O P T p x :
  slob_inv h s A O P T → p ∈ map fst P → in_core p x → user_area A x.
Proof.
  intros Hi Hp Hx. eapply user_area_block; [by eapply page_block|].
  change (bsize page_order) with 4096. unfold in_core, page_room, SLOB_BLOCK_SIZE, sizeof_buddy_block in *. lia.
Qed.

Lemma page_not_others h s A O P T p x :
  slob_inv h s A O P T → p ∈ map fst P → in_page p x → ¬ user_area O x.
Proof.
  intros Hi Hp Hx (b & k & Hb & Hr). pose proof (page_block _ _ _ _ _ _ _ Hi Hp) as HA.
  destruct (live_disjoint _ _ _ _ (si_buddy _ _ _ _ _ _ Hi) HA) as (_ & _ & _ & _ & Hd).
  assert (p - sizeof_buddy_block ≠ b) as Hne.
  { intros <-. rewrite (si_others _ _ _ _ _ _ Hi) in Hb; [done|by rewrite Z.sub_add]. }
  specialize (Hd b k (proj2 (si_heap _ _ _ _ _ _ Hi b k) (or_introl Hb)) Hne).
  change (bsize page_order) with 4096 in Hd. unfold in_page, SLOB_BLOCK_SIZE, sizeof_buddy_block in *. lia.
Qed.

(** There are at most as many pages as blocks of their order fit in the region. *)
Lemma pages_count h s A O P T :
  slob_inv h s A O P T → P = [] ∨ 4096 * zlen P <= zend h - zstart h.
Proof.
  intros Hi. pose proof (pages_nodup _ _ _ _ _ _ Hi) as Hnd.
  destruct P as [|[p0 bl0] P0] eqn:EP; [by left|right]. rewrite <- EP in *.
  set (f := λ p, (p - sizeof_buddy_block - zstart h) / 4096). set (n := (zend h - zstart h) / 4096).
  assert (∀ p, p ∈ map fst P → 0 <= f p < n) as Hf.
  { intros p Hp. destruct (page_bounds _ _ _ _ _ _ _ Hi Hp) as (H1 & _ & H2 & _).
    unfold page_room, SLOB_BLOCK_SIZE in H2. unfold f, n. split; [apply Z.div_pos; lia|].
    assert ((p - sizeof_buddy_block - zstart h) / 4096 + 1 <= (zend h - zstart h) / 4096); [|lia].
    rewrite <- Z.div_add by lia. apply Z.div_le_mono; lia. }
  assert (NoDup (f <$> map fst P)) as Hndf.
  { apply NoDup_fmap_2_strong; [|done]. intros p q Hp Hq E. destruct (decide (p = q)) as [|Hpq]; [done|].
    destruct (pages_apart _ _ _ _ _ _ _ _ Hi Hp Hq Hpq); unfold f, SLOB_BLOCK_SIZE in *; exfalso;
      Z.div_mod_to_equations; lia. }
  assert (length (f <$> map fst P) ≤ length (seqZ 0 n))%nat as Hlen.
  { apply submseteq_length, NoDup_submseteq; [done|]. intros x (p & -> & Hp)%list_elem_of_fmap.
    apply elem_of_seqZ. specialize (Hf p Hp). lia. }
  rewrite length_fmap, length_map, length_seqZ in Hlen. unfold zlen.
  assert (0 <= f p0 < n) by (apply Hf; rewrite EP; by left).
  pose proof (Z.mul_div_le (zend h - zstart h) 4096 ltac:(lia)). fold n in H0. lia.
Qed.

(** *** Changing one page *)

(** The words of a page that its links are not. *)
Definition page_body (p x : Z) : Prop := in_core p x ∧ (x < p + op_next ∨ p + sizeof_slob_page <= x).

Lemma page_ok_frame h h' T p bl :
  (∀ x, page_body p x → hload h' x = hload h x) → page_ok h T p bl → page_ok h' T p bl.
Proof.
  intros Hag [Hf Hs Ha Ht Hb Hst Htl].
  assert (∀ o, 0 <= o < 20 → hload h' (p + o) = hload h (p + o)) as Hag'.
  { intros o Ho. apply Hag. unfold page_body, in_core, page_room, op_next, SLOB_BLOCK_SIZE, sizeof_buddy_block. lia. }
  split; [by eapply free_ok_frame; [intros x ??; by apply Hag|..]|done|..|done|done]; rewrite Hag'; done.
Qed.

Lemma page_ok_live h T T' p bl :
  (∀ x, in_page p x → live_at T' x ↔ live_at T x) → page_ok h T p bl → page_ok h T' p bl.
Proof.
  intros HT [Hf Hs Ha Ht Hb Hst Htl]. split; try done. intros x Hx. rewrite HT by (unfold in_page, sizeof_slob_page in *; lia).
  by apply Htl.
Qed.

(** Headers of live blocks. *)
Lemma block_ok_frame h h' pl b t :
  hload h' (b + ob_size) = hload h (b + ob_size) → hload h' (b + ob_magic) = hload h (b + ob_magic) →
  block_ok h pl b t → block_ok h' pl b t.
Proof. intros E1 E2 [H1 [H2 H3] H4]. split; [done| |done]. by rewrite E1, E2. Qed.

(** A step of the allocator on the page [p]. *)
Record page_step (h h' : heap) (s s' : slob) (p : Z) : Prop := {
  ps_zone : zone h' = zone h;
  ps_other : ∀ x, ¬ in_core p x → hload h' x = hload h x;
  ps_links : hload h' (p + op_next) = hload h (p + op_next) ∧ hload h' (p + op_prev) = hload h (p + op_prev);
  ps_slob : pages s' = pages s ∧ total_pages s' = total_pages s ∧ total_free s' = total_free s;
}.

Lemma core_other p q x : page_apart p q → in_core q x → ¬ in_core p x.
Proof. unfold page_apart, in_core, page_room, SLOB_BLOCK_SIZE, sizeof_buddy_block. lia. Qed.

Lemma slob_inv_update h h' s s' A O P1 p bl bl' P2 T T' :
  slob_inv h s A O (P1 ++ (p, bl) :: P2) T → page_step h h' s s' p → page_ok h' T' p bl' →
  (∀ x, ¬ in_page p x → live_at T' x ↔ live_at T x) →
  (∀ b t, T' !! b = Some t → block_ok h' (map fst (P1 ++ (p, bl) :: P2)) b t) → apart T' →
  total_allocated s' = u32 (total_size T') →
  slob_inv h' s' A O (P1 ++ (p, bl') :: P2) T'.
Proof.
  set (P := P1 ++ (p, bl) :: P2). intros Hi [Hz Hoth [Hn Hp] (E1 & E2 & E3)] Hpage Hlive Hblock Hap Hsum.
  assert (map fst (P1 ++ (p, bl') :: P2) = map fst P) as EP by (unfold P; by rewrite !map_app).
  assert (p ∈ map fst P) as HpP by (apply (page_in P p bl), elem_of_app; right; left).
  assert (∀ q, q ∈ map fst P → q ≠ p → ∀ x, in_core q x → hload h' x = hload h x) as Hfr.
  { intros q Hq Hne x Hx. apply Hoth. eapply core_other; [|exact Hx]. by eapply pages_apart. }
  split.
  - eapply client_writes_ok; [apply Hi|]. split; [done|]. intros x Hx. apply Hoth. intros Hc. apply Hx.
    by eapply page_area.
  - unfold zend. rewrite Hz. apply Hi.
  - rewrite EP. apply Hi.
  - rewrite EP. apply Hi.
  - rewrite E1, EP. eapply dlist_frame; [done| |apply Hi]. intros q Hq. destruct (decide (q = p)) as [->|Hne]; [done|].
    split; apply (Hfr q Hq Hne); unfold in_core, op_next, op_prev, page_room, SLOB_BLOCK_SIZE, sizeof_buddy_block; lia.
  - intros q bq Hq. pose proof (pages_nodup _ _ _ _ _ _ Hi) as Hnd. rewrite <- EP in Hnd.
    destruct (decide (q = p)) as [->|Hne].
    + assert (bq = bl') as ->; [|done]. eapply page_unique; [exact Hnd|exact Hq|]. apply elem_of_app. right. left.
    + assert ((q, bq) ∈ P) as HqP.
      { apply elem_of_app in Hq as [?|[[= ??]|?]%elem_of_cons]; [apply elem_of_app; by left|done|apply elem_of_app; right; by right]. }
      eapply page_ok_frame; [intros x [Hx _]; by eapply Hfr; [eapply page_in| |]|]. eapply page_ok_live; [|by eapply si_page].
      intros x Hx. apply Hlive. pose proof (pages_apart _ _ _ _ _ _ _ _ Hi (page_in _ _ _ HqP) HpP Hne).
      unfold page_apart, in_page in *. lia.
  - rewrite EP. exact Hblock.
  - exact Hap.
  - rewrite E2, E3, Hsum. destruct (si_count _ _ _ _ _ _ Hi) as (-> & -> & _).
    assert (zlen (P1 ++ (p, bl') :: P2) = zlen P) as ->; [|done]. unfold P. by rewrite !zlen_app, !zlen_cons.
Qed.

(** The words the allocator writes on a page are in no live block. *)
Lemma header_not_live h s A O P T p x :
  slob_inv h s A O P T → p ∈ map fst P → p <= x < p + sizeof_slob_page → ¬ live_at T x.
Proof.
  intros Hi Hp Hr (b & t & Hb & Hbx). destruct (si_block _ _ _ _ _ _ Hi _ _ Hb) as [_ _ (q & Hq & Hq1 & Hq2 & _)].
  destruct (decide (p = q)) as [->|Hne]; [lia|].
  pose proof (pages_apart _ _ _ _ _ _ _ _ Hi Hp Hq Hne). unfold page_apart, sizeof_slob_page, SLOB_BLOCK_SIZE in *. lia.
Qed.

Lemma free_words_not_live h s A O P T p bl x :
  slob_inv h s A O P T → (p, bl) ∈ P → free_words p bl x → ¬ live_at T x.
Proof.
  intros Hi Hp Hx. pose proof (si_page _ _ _ _ _ _ Hi _ _ Hp) as Hpk.
  destruct (free_words_in_page _ _ _ _ (pk_free _ _ _ _ Hpk) Hx) as [Hr _].
  destruct (decide (x < p + sizeof_slob_page)) as [Hlt|Hge].
  - apply (header_not_live _ _ _ _ _ _ _ _ Hi (page_in _ _ _ Hp)). unfold op_frag in *. lia.
  - apply (pk_tile _ _ _ _ Hpk); [unfold page_room, sizeof_buddy_block in *; lia|].
    destruct Hx as [->|[->|[Hf _]]]; [unfold op_frag, op_list, sizeof_slob_page in *; lia..|done].
Qed.

(** They are not the fields of page headers either. *)
Lemma free_words_fields h s A O P T p bl h' q o :
  slob_inv h s A O P T → (p, bl) ∈ P → only_writes (free_words p bl) h h' → q ∈ map fst P →
  0 <= o <= op_free ∨ op_next <= o <= op_prev → hload h' (q + o) = hload h (q + o).
Proof.
  intros Hi Hp [_ Hw] Hq Ho. apply Hw. intros Hx. pose proof (si_page _ _ _ _ _ _ Hi _ _ Hp) as Hpk.
  destruct (free_words_in_page _ _ _ _ (pk_free _ _ _ _ Hpk) Hx) as [Hr Hr2].
  unfold op_free, op_frag, op_next, op_prev, sizeof_slob_page, page_room, sizeof_buddy_block, SLOB_BLOCK_SIZE in *.
  destruct (decide (p = q)) as [->|Hne]; [lia|].
  pose proof (pages_apart _ _ _ _ _ _ _ _ Hi (page_in _ _ _ Hp) Hq Hne). unfold page_apart, SLOB_BLOCK_SIZE in *. lia.
Qed.

(** ** A new page *)

(** What [alloc_page] writes, with the linking in front of the page list. *)
Definition new_page_mem (m : mem) (first p : Z) : mem :=
  let m := store m (p + op_addr) p in
  let m := store m (p + op_total) SLOB_BLOCK_SIZE in
  let m := store m (p + op_free) (SLOB_BLOCK_SIZE - sizeof_slob_page) in
  let m := store m (p + op_frag) 0 in
  let m := dl_push op_next op_prev m first p in
  let b := p + sizeof_slob_page in
  let m := store m (b + ob_size) (SLOB_BLOCK_SIZE - sizeof_slob_page) in
  let m := store m (b + ob_magic) 0 in
  let m := store m (b + ob_next) 0 in
  let m := store m (b + ob_prev) 0 in
  store m (p + op_list) b.

Lemma slob_alloc_page_mem h h1 s p :
  alloc h SLOB_BLOCK_SIZE = Done (p, h1) → p ≠ 0 →
  slob_alloc_page h s = Done (p, set_mem h1 (new_page_mem (hmem h1) (pages s) p),
    set_pages s p (u32 (total_pages s + 1)) (u32 (total_free s + (SLOB_BLOCK_SIZE - sizeof_slob_page)))).
Proof.
  intros E Hp. unfold slob_alloc_page. rewrite E. cbn [obind]. rewrite (proj2 (Z.eqb_neq p 0)) by done.
  do 3 f_equal. unfold new_page_mem, dl_push, hstore, set_mem. cbn [hmem zone].
  destruct (pages s =? 0); done.
Qed.

Definition whole_page (p : Z) : list (Z * Z) := [(p + sizeof_slob_page, SLOB_BLOCK_SIZE - sizeof_slob_page)].

(** The words of a new page, and the one word of the old first page. *)
Lemma new_page_words m first p :
  let m' := new_page_mem m first p in
  first = 0 ∨ page_apart first p →
  load m' (p + op_addr) = p ∧ load m' (p + op_total) = SLOB_BLOCK_SIZE ∧
  load m' (p + op_free) = SLOB_BLOCK_SIZE - sizeof_slob_page ∧
  load m' (p + op_list) = p + sizeof_slob_page ∧
  load m' (p + sizeof_slob_page + ob_size) = SLOB_BLOCK_SIZE - sizeof_slob_page ∧
  load m' (p + sizeof_slob_page + ob_next) = 0 ∧ load m' (p + sizeof_slob_page + ob_prev) = 0 ∧
  (∀ x, ¬ p <= x < p + sizeof_slob_page + sizeof_slob_block → first = 0 ∨ x ≠ first + op_prev → load m' x = load m x).
Proof.
  intros m' Hf. unfold m', new_page_mem, dl_push, page_apart in *.
  unfold sizeof_slob_page, sizeof_slob_block, ob_size, ob_magic, ob_next, ob_prev, op_addr, op_total, op_free, op_frag,
    op_list, op_next, op_prev, SLOB_BLOCK_SIZE in *.
  destruct (Z.eqb_spec first 0) as [->|Hne].
  - split_and!; intros; mem_simpl; done.
  - destruct Hf as [?|Hf]; [done|]. split_and!; [mem_simpl; done..|].
    intros x Hx [?|Hx']; [done|]. mem_simpl. done.
Qed.

Lemma whole_page_ok h T p :
  hload h (p + op_addr) = p → hload h (p + op_total) = SLOB_BLOCK_SIZE →
  hload h (p + op_free) = SLOB_BLOCK_SIZE - sizeof_slob_page → hload h (p + op_list) = p + sizeof_slob_page →
  hload h (p + sizeof_slob_page + ob_size) = SLOB_BLOCK_SIZE - sizeof_slob_page →
  hload h (p + sizeof_slob_page + ob_next) = 0 → hload h (p + sizeof_slob_page + ob_prev) = 0 →
  0 < p → p + SLOB_BLOCK_SIZE < 2 ^ 32 → (4096 | p - sizeof_buddy_block) → (∀ x, in_page p x → ¬ live_at T x) →
  page_ok h T p (whole_page p).
Proof.
  intros Ea Et Ef El Es En Ep Hp Hp2 [i Hi] HT. split; [split| |done|done|rewrite Ef; done| |].
  - rewrite El. apply dlist_intro; [done| |apply NoDup_singleton|].
    + simpl. unfold sizeof_slob_page in *. split; [lia|]. done.
    + intros x y ->%list_elem_of_singleton ->%list_elem_of_singleton ?. done.
  - intros a t [= -> ->]%list_elem_of_singleton. exact Es.
  - simpl. unfold sizeof_slob_page, sizeof_slob_block, SLOB_BLOCK_SIZE. split; [lia|]. split; [lia|]. split; [lia|done].
  - done.
  - done.
  - intros a ->%list_elem_of_singleton. unfold page_room, sizeof_slob_page, sizeof_slob_block, sizeof_buddy_block, SLOB_BLOCK_SIZE; simpl.
    unfold sizeof_buddy_block in Hi. split; [exists (512 * i + 6); lia|lia].
  - intros x Hx. unfold whole_page. rewrite free_at_cons. unfold sizeof_slob_page, SLOB_BLOCK_SIZE in *.
    split; [|intros; left; lia]. intros _. apply HT. unfold in_page, SLOB_BLOCK_SIZE. lia.
Qed.

(** The words of the clients: of the live blocks (the last bytes of a page,
    which are the header of the next buddy block, apart) and of the buddy
    allocator's other clients. *)
Definition owned (T O : gmap Z Z) (x : Z) : Prop :=
  live_at T x ∧ sizeof_buddy_block <= x mod MIN_BLOCK_SIZE ∨ user_area O x.

Definition slob_keeps (T O : gmap Z Z) (h h' : heap) : Prop :=
  same_region h h' ∧ ∀ x, owned T O x → hload h' x = hload h x.

#[export] Instance slob_keeps_preorder T O : PreOrder (slob_keeps T O).
Proof.
  split; [by intros h|]. intros h1 h2 h3 [[E1 E2] H1] [[E3 E4] H2]. split; [split; congruence|].
  intros x Hx. by rewrite H2, H1.
Qed.

Lemma live_core h s A O P T x :
  slob_inv h s A O P T → live_at T x → sizeof_buddy_block <= x mod MIN_BLOCK_SIZE →
  ∃ p, p ∈ map fst P ∧ in_core p x ∧ p + sizeof_slob_page <= x.
Proof.
  intros Hi (b & t & Hb & Hx) Hm. destruct (si_block _ _ _ _ _ _ Hi _ _ Hb) as [_ _ (p & Hp & H1 & H2 & _)].
  exists p. split; [done|]. destruct (page_bounds _ _ _ _ _ _ _ Hi Hp) as (_ & _ & _ & _ & [i Hi']).
  unfold in_core, page_room, sizeof_slob_page, sizeof_buddy_block, SLOB_BLOCK_SIZE, MIN_BLOCK_SIZE in *.
  split; [|lia]. split; [lia|]. Z.div_mod_to_equations. lia.
Qed.

(** What the buddy allocator keeps. *)
Lemma heap_step_keeps A O T (pl : list Z) h h' :
  heap_step A h h' → (∀ b k, O !! b = Some k → A !! b = Some k) →
  (∀ p, p ∈ pl → A !! (p - sizeof_buddy_block) = Some page_order) →
  (∀ x, live_at T x → sizeof_buddy_block <= x mod MIN_BLOCK_SIZE → ∃ p, p ∈ pl ∧ in_core p x ∧ p + sizeof_slob_page <= x) →
  slob_keeps T O h h' ∧ ∀ p, p ∈ pl → ∀ x, in_core p x → hload h' x = hload h x.
Proof.
  intros (Es & Ee & Hag) HO Hpl Hlive.
  assert (∀ p, p ∈ pl → ∀ x, in_core p x → hload h' x = hload h x) as Hcore.
  { intros p Hp x Hx. symmetry. apply Hag. eapply user_area_block; [by apply Hpl|].
    change (bsize page_order) with 4096. unfold in_core, page_room, sizeof_buddy_block, SLOB_BLOCK_SIZE in *. lia. }
  split; [|done]. split; [by split|]. intros x [[Hl Hm]|(b & k & Hb & Hx)].
  - destruct (Hlive x Hl Hm) as (p & Hp & Hc & _). by eapply Hcore.
  - symmetry. apply Hag. exists b, k. split; [by apply HO|done].
Qed.

Lemma others_live h s A O P T b k : slob_inv h s A O P T → O !! b = Some k → A !! b = Some k.
Proof. intros Hi Hb. apply (si_heap _ _ _ _ _ _ Hi). by left. Qed.

(** The list of pages with a new one in front. *)
Lemma new_page_links m0 m first p pl :
  dlist op_next op_prev m0 first pl → (∀ q, q ∈ pl → load m (q + op_next) = load m0 (q + op_next) ∧
    load m (q + op_prev) = load m0 (q + op_prev)) →
  p ≠ 0 → p ∉ pl → (∀ q, q ∈ pl → page_apart q p) →
  dlist op_next op_prev (new_page_mem m first p) p (p :: pl).
Proof.
  unfold page_apart, SLOB_BLOCK_SIZE. intros Hd Hag Hp Hin Hap.
  unfold new_page_mem. set (m1 := store (store (store (store m _ _) _ _) _ _) _ _).
  assert (∀ y o, y = p ∨ y ∈ pl → o = op_next ∨ o = op_prev → 
    ∀ c, p + op_addr <= c <= p + op_list ∨ p + sizeof_slob_page <= c <= p + sizeof_slob_page + ob_prev → c ≠ y + o) as Hoff.
  { unfold op_next, op_prev, op_addr, op_list, sizeof_slob_page, ob_prev.
    intros y o [->|Hy] Ho c Hc; [lia|]. specialize (Hap y Hy). lia. }
  assert (dlist op_next op_prev (dl_push op_next op_prev m1 first p) p (p :: pl)) as Hd1.
  { apply dl_push_dlist; [done| |done|done|].
    - eapply dlist_frame; [done| |exact Hd]. intros q Hq. destruct (Hag q Hq) as [<- <-]. unfold m1.
      split; rewrite !load_store_ne; try done; (eapply (Hoff q); [by right| |]);
        unfold op_addr, op_total, op_free, op_frag, op_list, sizeof_slob_page; (by left) || (by right) || lia.
    - intros q Hq Hne. specialize (Hap q Hq). unfold op_next, op_prev. lia. }
  eapply dlist_frame; [done| |exact Hd1]. intros y Hy%elem_of_cons.
  split; rewrite !load_store_ne; try done; (eapply (Hoff y); [done| |]);
    unfold op_addr, op_list, sizeof_slob_page, ob_size, ob_magic, ob_next, ob_prev; (by left) || (by right) || lia.
Qed.

(** A fresh buddy block for a page: where it is. *)
Record fresh_page (h h1 : heap) (A : gmap Z Z) (pl : list Z) (p : Z) : Prop := {
  fp_none : A !! (p - sizeof_buddy_block) = None;
  fp_buddy : buddy_ok h1 (<[p - sizeof_buddy_block := page_order]> A);
  fp_bounds : 0 < p - sizeof_buddy_block ∧ p + SLOB_BLOCK_SIZE < 2 ^ 32 ∧ (4096 | p - sizeof_buddy_block);
  fp_apart : ∀ q, q ∈ pl → page_apart q p;
}.

Lemma fresh_page_intro h s A O P T h1 p :
  slob_inv h s A O P T → A !! (p - sizeof_buddy_block) = None → same_region h h1 →
  buddy_ok h1 (<[p - sizeof_buddy_block := page_order]> A) → fresh_page h h1 A (map fst P) p.
Proof.
  intros Hi HA [_ Ee] Hok. pose proof (lookup_insert_eq A (p - sizeof_buddy_block) page_order) as HpA.
  destruct (order0_bounds h1 _ p Hok ltac:(rewrite Ee; apply Hi) HpA) as (_ & ? & _ & ? & ?).
  split; [done..|]. intros q Hq. pose proof (page_block _ _ _ _ _ _ _ Hi Hq) as Hq'.
  assert (q ≠ p) as Hne by (intros ->; congruence).
  eapply order0_apart; [exact Hok|by rewrite lookup_insert_ne by lia|exact HpA|done].
Qed.

(** The pages that were there keep their contents. *)
Lemma new_page_frame h s A O P T h1 p :
  slob_inv h s A O P T → fresh_page h h1 A (map fst P) p →
  (∀ q, q ∈ map fst P → ∀ x, in_core q x → hload h1 x = hload h x) →
  ∀ q, q ∈ map fst P → ∀ x, page_body q x → load (new_page_mem (hmem h1) (pages s) p) x = hload h x.
Proof.
  intros Hi Hp Hcore q Hq x [Hx Hx2]. rewrite <- (Hcore q Hq x Hx). pose proof (fp_apart _ _ _ _ _ Hp) as Hap.
  assert (pages s = 0 ∨ pages s ∈ map fst P) as Hfirst.
  { destruct (si_pages _ _ _ _ _ _ Hi) as (-> & _). destruct P as [|[r br] P]; [by left|right; by left]. }
  apply new_page_words.
  - destruct Hfirst as [?|Hf]; [by left|right; by apply Hap].
  - specialize (Hap q Hq). unfold page_apart, in_core, page_room, sizeof_slob_page, sizeof_slob_block, sizeof_buddy_block, SLOB_BLOCK_SIZE in *. lia.
  - destruct Hfirst as [?|Hf]; [by left|right]. destruct (decide (q = pages s)) as [->|Hne].
    + unfold op_prev, op_next, sizeof_slob_page in *. lia.
    + pose proof (pages_apart _ _ _ _ _ _ _ _ Hi Hq Hf Hne).
      unfold page_apart, in_core, page_room, op_prev, sizeof_buddy_block, SLOB_BLOCK_SIZE in *. lia.
Qed.

(** The writes are in the page or in the link of the old first page. *)
Lemma new_page_writes h s A O P T h1 p :
  slob_inv h s A O P T → fresh_page h h1 A (map fst P) p →
  only_writes (user_area (<[p - sizeof_buddy_block := page_order]> A)) h1
    (set_mem h1 (new_page_mem (hmem h1) (pages s) p)).
Proof.
  intros Hi Hp. split; [done|]. intros x Hx. pose proof (fp_apart _ _ _ _ _ Hp) as Hap.
  apply new_page_words.
  - destruct (si_pages _ _ _ _ _ _ Hi) as (-> & _). destruct P as [|[r br] P]; [by left|right]. apply Hap. by left.
  - intros Hr. apply Hx. eapply user_area_block; [apply lookup_insert_eq|]. change (bsize page_order) with 4096.
    unfold sizeof_slob_page, sizeof_slob_block, sizeof_buddy_block in *. lia.
  - destruct (si_pages _ _ _ _ _ _ Hi) as (E & _). destruct P as [|[r br] P]; [by left|right]. simpl in E.
    assert (r ∈ map fst ((r, br) :: P)) as Hr by by left. rewrite E. intros ->. apply Hx.
    pose proof (page_block _ _ _ _ _ _ _ Hi Hr) as HA. specialize (Hap r Hr). unfold page_apart, SLOB_BLOCK_SIZE in Hap.
    apply (user_area_block _ (r - sizeof_buddy_block) page_order); [by rewrite lookup_insert_ne by lia|].
    change (bsize page_order) with 4096. unfold op_prev, sizeof_buddy_block. lia.
Qed.

Lemma new_page_inv h s A O P T h1 p :
  slob_inv h s A O P T → fresh_page h h1 A (map fst P) p → same_region h h1 →
  (∀ q, q ∈ map fst P → ∀ x, in_core q x → hload h1 x = hload h x) →
  slob_inv (set_mem h1 (new_page_mem (hmem h1) (pages s) p))
    (set_pages s p (u32 (total_pages s + 1)) (u32 (total_free s + (SLOB_BLOCK_SIZE - sizeof_slob_page))))
    (<[p - sizeof_buddy_block := page_order]> A) O ((p, whole_page p) :: P) T.
Proof.
  intros Hi Hp Hreg Hcore. pose proof (new_page_frame _ _ _ _ _ _ _ _ Hi Hp Hcore) as Hbody.
  pose proof (new_page_writes _ _ _ _ _ _ _ _ Hi Hp) as Hw. destruct Hp as [HA Hok (Hb2 & Hb4 & Hb5) Hap].
  assert (∀ b, b + sizeof_buddy_block = p → O !! b = None) as HO.
  { intros b <-. rewrite Z.add_simpl_r in HA. destruct (O !! b) as [k|] eqn:E; [|done].
    rewrite (proj2 (si_heap _ _ _ _ _ _ Hi b k) (or_introl E)) in HA. done. }
  split; cbn [map fst].
  - by eapply client_writes_ok.
  - destruct Hreg as [_ Ee]. unfold zend in *. cbn [zone set_mem]. rewrite Ee. apply Hi.
  - intros b k. rewrite elem_of_cons. rewrite lookup_insert. case_decide as Hbp.
    + subst b. rewrite Z.sub_add. split; [intros [= <-]; right; split; [done|by left]|].
      rewrite (HO (p - sizeof_buddy_block)) by lia. intros [?|[-> _]]; done.
    + rewrite (si_heap _ _ _ _ _ _ Hi b k). assert (b + sizeof_buddy_block ≠ p) by lia. tauto.
  - intros b [Hb|Hb]%elem_of_cons; [by apply HO|by apply (si_others _ _ _ _ _ _ Hi)].
  - apply (new_page_links (hmem h)); [apply Hi| |unfold sizeof_buddy_block in Hb2; lia| |done].
    + intros q Hq. split; apply (Hcore q Hq); unfold in_core, op_next, op_prev, page_room, sizeof_buddy_block, SLOB_BLOCK_SIZE; lia.
    + intros Hq%Hap. unfold page_apart, SLOB_BLOCK_SIZE in Hq. lia.
  - assert (∀ q bq, (q, bq) ∈ P → page_ok (set_mem h1 (new_page_mem (hmem h1) (pages s) p)) T q bq) as Hold.
    { intros q bq Hq. eapply page_ok_frame; [by apply Hbody, (page_in _ _ _ Hq)|by eapply si_page]. }
    intros q bq [E|Hq]%elem_of_cons; [|by apply Hold]. injection E as -> ->.
    destruct (new_page_words (hmem h1) (pages s) p) as (W1 & W2 & W3 & W4 & W5 & W6 & W7 & _).
    { destruct (si_pages _ _ _ _ _ _ Hi) as (-> & _). destruct P as [|[r br] P]; [by left|right]. apply Hap. by left. }
    apply whole_page_ok; try done; [unfold sizeof_buddy_block in *; lia|].
    intros x Hx (b & t & Hb & Hbx). destruct (si_block _ _ _ _ _ _ Hi _ _ Hb) as [_ _ (q & Hq & H1 & H2 & _)].
    specialize (Hap q Hq). unfold page_apart, in_page, sizeof_slob_page, SLOB_BLOCK_SIZE in *. lia.
  - intros b t Hb. destruct (si_block _ _ _ _ _ _ Hi _ _ Hb) as [B1 [B2 B3] (q & Hq & B4 & B5 & B6 & B7)].
    assert (∀ o, 0 <= o < 16 → page_body q (b + o)) as Hbo.
    { intros o Ho. unfold page_body, in_core, sizeof_slob_page, sizeof_slob_block in *. lia. }
    split; [done| |exists q; split_and!; (done || by right)].
    split; [rewrite <- B2|rewrite <- B3]; apply (Hbody q Hq), Hbo; done.
  - apply Hi.
  - destruct (si_count _ _ _ _ _ _ Hi) as (E1 & E2 & E3). cbn [set_pages total_pages total_free total_allocated].
    rewrite zlen_cons, E1, E2. split; [|split; [|done]]; unfold u32; rewrite Zplus_mod_idemp_l; f_equal; lia.
Qed.

Lemma slob_inv_alloc_page h s A O P T :
  slob_inv h s A O P T →
  slob_alloc_page h s = Done (0, h, s) ∧ (∀ q, ¬ room_at h A page_order q) ∨
  ∃ p h' s', slob_alloc_page h s = Done (p, h', s') ∧ p ≠ 0 ∧
    slob_inv h' s' (<[p - sizeof_buddy_block := page_order]> A) O ((p, whole_page p) :: P) T ∧ slob_keeps T O h h'.
Proof.
  intros Hi. destruct (alloc_returns h A SLOB_BLOCK_SIZE (si_buddy _ _ _ _ _ _ Hi) ltac:(done)) as (k & Ek & Ha).
  assert (k = page_order) as -> by (vm_compute in Ek; by injection Ek).
  destruct Ha as [[E Hno]|(p & h1 & E & b & Hpb & Hp & HA & Hok & Hst)].
  { left. split; [unfold slob_alloc_page; rewrite E; done|]. by apply (no_room h A page_order (si_buddy _ _ _ _ _ _ Hi)). }
  right. pose proof (slob_alloc_page_mem h h1 s p E Hp) as Er. do 3 eexists. split; [exact Er|]. split; [done|].
  assert (b = p - sizeof_buddy_block) as -> by lia.
  destruct (heap_step_keeps A O T (map fst P) h h1 Hst) as [[Hreg Hk1] Hcore];
    [intros ??; by eapply others_live|intros ?; by eapply page_block|intros ?; by eapply live_core|].
  pose proof (fresh_page_intro _ _ _ _ _ _ _ _ Hi HA Hreg Hok) as Hfp.
  pose proof (new_page_inv _ _ _ _ _ _ _ _ Hi Hfp Hreg Hcore) as Hi'. split; [exact Hi'|]. split; [exact Hreg|].
  pose proof (fp_apart _ _ _ _ _ Hfp) as Hap. pose proof (si_pages _ _ _ _ _ _ Hi) as (Ef & _).
  intros x [[Hl Hm]|Hx].
  - destruct (live_core _ _ _ _ _ _ _ Hi Hl Hm) as (q & Hq & Hc & Hx).
    apply (new_page_frame _ _ _ _ _ _ _ _ Hi Hfp Hcore q Hq). split; [done|by right].
  - rewrite <- (Hk1 x) by by right. apply new_page_words.
    + rewrite Ef. destruct P as [|[r br] P]; [by left|right]. apply Hap. by left.
    + intros Hr. apply (page_not_others _ _ _ _ _ _ p x Hi'); [by left| |done].
      unfold in_page, sizeof_slob_page, sizeof_slob_block, SLOB_BLOCK_SIZE in *. lia.
    + rewrite Ef. destruct P as [|[r br] P]; [by left|right]. intros ->.
      apply (page_not_others _ _ _ _ _ _ r (r + op_prev) Hi); [by left| |done]. unfold in_page, op_prev, SLOB_BLOCK_SIZE. lia.
Qed.

(** ** Giving a page back *)

Lemma slob_free_page_mem h s p m first :
  p ≠ 0 → dl_remove op_next op_prev (hmem h) (pages s) p = (m, first) →
  slob_free_page h s p =
  let* h' := free (set_mem h m) (load m (p + op_addr)) in
  Done (h', set_pages s first (u32 (total_pages s - 1)) (u32 (total_free s - load m (p + op_free)))).
Proof.
  intros Hp. unfold dl_remove, slob_free_page, hload. rewrite (proj2 (Z.eqb_neq p 0)) by done.
  destruct (negb (load (hmem h) (p + op_prev) =? 0)); unfold hstore, set_mem; cbn [hmem zone];
    destruct (negb (load _ (p + op_next) =? 0)); cbn [hmem zone]; intros [= <- <-]; destruct h; done.
Qed.

(** The list without [p], and which words its unlinking may write. *)
Lemma unlink_page h s A O P1 p bl P2 T :
  slob_inv h s A O (P1 ++ (p, bl) :: P2) T →
  ∃ m first, dl_remove op_next op_prev (hmem h) (pages s) p = (m, first) ∧
    dlist op_next op_prev m first (map fst (P1 ++ P2)) ∧
    (∀ q, q ∈ map fst (P1 ++ (p, bl) :: P2) → ∀ x, page_body q x → load m x = hload h x) ∧
    only_writes (user_area A) h (set_mem h m) ∧ (∀ x, user_area O x → load m x = hload h x).
Proof.
  intros Hi. pose proof (si_pages _ _ _ _ _ _ Hi) as Hd. pose proof Hd as Hd0. rewrite map_app in Hd. cbn [map fst] in Hd.
  destruct (dl_remove_dlist _ _ (ltac:(done) : op_next ≠ op_prev) _ _ _ _ _ Hd) as (m & E & Hd' & Hf).
  assert (∀ q, q ∈ map fst P1 ++ map fst P2 → q ∈ map fst (P1 ++ (p, bl) :: P2)) as Hsub.
  { intros q. rewrite map_app. cbn [map fst]. intros [?|?]%elem_of_app; apply elem_of_app; [by left|right; by right]. }
  exists m, (hd 0 (map fst P1 ++ map fst P2)). rewrite map_app. split; [done|]. split; [done|]. split; [|split].
  - intros q Hq x Hx. apply Hf. intros r Hr%Hsub. unfold page_body, in_core, op_next, op_prev, page_room, sizeof_slob_page, sizeof_buddy_block, SLOB_BLOCK_SIZE in *.
    destruct (decide (q = r)) as [->|Hne]; [lia|]. pose proof (pages_apart _ _ _ _ _ _ _ _ Hi Hq Hr Hne).
    unfold page_apart, SLOB_BLOCK_SIZE in *. lia.
  - split; [done|]. intros x Hx. apply Hf. intros r Hr%Hsub. split; intros ->; apply Hx; (eapply page_area; [exact Hi|exact Hr|]);
      unfold in_core, op_next, op_prev, page_room, sizeof_buddy_block, SLOB_BLOCK_SIZE; lia.
  - intros x Hx. apply Hf. intros r Hr%Hsub. split; intros ->; (eapply page_not_others; [exact Hi|exact Hr| |exact Hx]);
      unfold in_page, op_next, op_prev, SLOB_BLOCK_SIZE; lia.
Qed.

(** A page whose bytes are all free has no live block. *)
Lemma page_full h T p bl :
  page_ok h T p bl → free_bytes bl = SLOB_BLOCK_SIZE - sizeof_slob_page →
  bl = whole_page p ∧ ∀ x, p + sizeof_slob_page <= x < p + SLOB_BLOCK_SIZE → ¬ live_at T x.
Proof.
  intros Hp Hb. assert (bl = whole_page p) as ->.
  { unfold whole_page. pose proof (ordered_full (p + sizeof_slob_page) bl (p + SLOB_BLOCK_SIZE)) as E.
    rewrite E; [do 2 f_equal; lia|unfold sizeof_slob_page, SLOB_BLOCK_SIZE; lia|apply Hp|apply Hp|lia]. }
  split; [done|]. intros x Hx. apply (pk_tile _ _ _ _ Hp); [done|]. unfold whole_page. rewrite free_at_cons. left. lia.
Qed.

(** The other pages, when the page names are distinct. *)
Lemma other_pages (P1 : list (Z * list (Z * Z))) p bl P2 :
  NoDup (map fst (P1 ++ (p, bl) :: P2)) →
  (∀ q bq, (q, bq) ∈ P1 ++ P2 ↔ (q, bq) ∈ P1 ++ (p, bl) :: P2 ∧ q ≠ p) ∧
  (∀ q : Z, q ∈ map fst (P1 ++ P2) ↔ q ∈ map fst (P1 ++ (p, bl) :: P2) ∧ q ≠ p).
Proof.
  intros Hnd. rewrite map_app in Hnd. cbn [map fst] in Hnd.
  apply list.NoDup_app in Hnd as (_ & Hdis & Hnd). apply list.NoDup_cons in Hnd as [Hn _].
  assert (∀ q bq, (q, bq) ∈ P1 ++ P2 ↔ (q, bq) ∈ P1 ++ (p, bl) :: P2 ∧ q ≠ p) as HP.
  { intros q bq. rewrite !elem_of_app, elem_of_cons. split.
    - intros [Hq|Hq]; (split; [tauto|]); apply page_in in Hq; intros ->; [|done]. eapply Hdis; [exact Hq|by left].
    - intros [[?|[[= -> ->]|?]] Hne]; [by left|done|by right]. }
  split; [exact HP|]. intros q. split.
  - intros ([? bq] & -> & [Hq Hne]%HP)%list_elem_of_fmap. simpl in *. split; [by eapply page_in|done].
  - intros [([? bq] & -> & Hq)%list_elem_of_fmap Hne]. eapply page_in, HP. by split.
Qed.

(** The invariant without the page, in a heap where the rest is unchanged. *)
Lemma slob_inv_fewer h s A O P1 p bl P2 T h' first :
  slob_inv h s A O (P1 ++ (p, bl) :: P2) T → zend h' = zend h → buddy_ok h' (delete (p - sizeof_buddy_block) A) →
  dlist op_next op_prev (hmem h') first (map fst (P1 ++ P2)) →
  (∀ q, q ∈ map fst (P1 ++ P2) → ∀ x, page_body q x → hload h' x = hload h x) →
  (∀ x, p + sizeof_slob_page <= x < p + SLOB_BLOCK_SIZE → ¬ live_at T x) →
  slob_inv h' (set_pages s first (u32 (total_pages s - 1)) (u32 (total_free s - (SLOB_BLOCK_SIZE - sizeof_slob_page))))
    (delete (p - sizeof_buddy_block) A) O (P1 ++ P2) T.
Proof.
  intros Hi Hz Hok Hd Hbody Hempty. destruct (other_pages _ _ _ _ (pages_nodup _ _ _ _ _ _ Hi)) as [HP HPf].
  assert (p ∈ map fst (P1 ++ (p, bl) :: P2)) as Hp by (rewrite map_app; apply elem_of_app; right; by left).
  split; try done.
  - rewrite Hz. apply Hi.
  - intros b k. rewrite lookup_delete, HPf. case_decide as Hb; [|rewrite (si_heap _ _ _ _ _ _ Hi b k)].
    + subst b. rewrite Z.sub_add. split; [done|]. rewrite (si_others _ _ _ _ _ _ Hi) by by rewrite Z.sub_add.
      intros [?|(_ & _ & ?)]; done.
    + assert (b + sizeof_buddy_block ≠ p) by lia. tauto.
  - intros b [Hb _]%HPf. by apply (si_others _ _ _ _ _ _ Hi).
  - intros q bq Hq. eapply page_ok_frame; [by apply Hbody, (page_in _ _ _ Hq)|]. by apply (si_page _ _ _ _ _ _ Hi), HP.
  - intros b t Hb. destruct (si_block _ _ _ _ _ _ Hi _ _ Hb) as [B1 [B2 B3] (q & Hq & B4 & B5 & B6 & B7)].
    assert (q ≠ p) as Hne.
    { intros ->. apply (Hempty b); [unfold sizeof_slob_block, SLOB_BLOCK_SIZE in *; lia|]. exists b, t. split; [done|].
      unfold sizeof_slob_block in *. lia. }
    assert (q ∈ map fst (P1 ++ P2)) as Hq' by by apply HPf.
    assert (∀ o, 0 <= o < 16 → page_body q (b + o)) as Hbo.
    { intros o Ho. unfold page_body, in_core, sizeof_slob_page, sizeof_slob_block in *. lia. }
    split; [done| |by exists q]. split; [rewrite <- B2|rewrite <- B3]; apply (Hbody q Hq'), Hbo; done.
  - apply Hi.
  - destruct (si_count _ _ _ _ _ _ Hi) as (E1 & E2 & E3). cbn [set_pages total_pages total_free total_allocated].
    rewrite E1, E2, zlen_app, zlen_app, zlen_cons. split; [|split; [|done]]; unfold u32; rewrite Zminus_mod_idemp_l; f_equal; lia.
Qed.

Lemma slob_inv_free_page h s A O P1 p bl P2 T :
  slob_inv h s A O (P1 ++ (p, bl) :: P2) T → free_bytes bl = SLOB_BLOCK_SIZE - sizeof_slob_page →
  ∃ h' s', slob_free_page h s p = Done (h', s') ∧ slob_keeps T O h h' ∧
    slob_inv h' s' (delete (p - sizeof_buddy_block) A) O (P1 ++ P2) T.
Proof.
  intros Hi Hfull. destruct (unlink_page _ _ _ _ _ _ _ _ _ Hi) as (m & first & E & Hd & Hbody & Hw & HwO).
  assert ((p, bl) ∈ P1 ++ (p, bl) :: P2) as HpP by (apply elem_of_app; right; left). pose proof (page_in _ _ _ HpP) as Hp.
  destruct (page_bounds _ _ _ _ _ _ _ Hi Hp) as (_ & Hp0 & _). pose proof (si_page _ _ _ _ _ _ Hi _ _ HpP) as Hpk.
  destruct (page_full _ _ _ _ Hpk Hfull) as [_ Hempty].
  destruct (other_pages _ _ _ _ (pages_nodup _ _ _ _ _ _ Hi)) as [HP HPf].
  assert (∀ o, 0 <= o < 20 → load m (p + o) = hload h (p + o)) as Hpo.
  { intros o Ho. apply (Hbody p Hp). unfold page_body, in_core, page_room, op_next, sizeof_buddy_block, SLOB_BLOCK_SIZE. lia. }
  rewrite (slob_free_page_mem h s p m first), !Hpo, (pk_addr _ _ _ _ Hpk), (pk_bytes _ _ _ _ Hpk), Hfull
    by (done || unfold sizeof_buddy_block in *; lia).
  destruct (free_live (set_mem h m) A (p - sizeof_buddy_block) page_order) as (h2 & E2 & Hok2 & Hst & _);
    [eapply client_writes_ok; [apply Hi|done]|by eapply page_block|].
  rewrite Z.sub_add in E2. rewrite E2. cbn [obind].
  destruct (heap_step_keeps (delete (p - sizeof_buddy_block) A) O T (map fst (P1 ++ P2)) (set_mem h m) h2 Hst) as [Hk Hcore].
  - intros b k Hb. apply lookup_delete_Some. split; [|by eapply others_live]. intros <-.
    rewrite (si_others _ _ _ _ _ _ Hi) in Hb; [done|by rewrite Z.sub_add].
  - intros q [Hq Hne]%HPf. apply lookup_delete_Some. split; [lia|]. by eapply page_block.
  - intros x Hl Hm. destruct (live_core _ _ _ _ _ _ _ Hi Hl Hm) as (q & Hq & Hc & Hx). exists q. split; [|done].
    apply HPf. split; [done|]. intros ->. apply (Hempty x); [|done]. unfold in_core, page_room, sizeof_buddy_block in *. lia.
  - do 2 eexists. split; [done|]. split.
    + etransitivity; [|exact Hk]. split; [done|]. intros x [[Hl Hm]|Hx]; [|by apply HwO].
      destruct (live_core _ _ _ _ _ _ _ Hi Hl Hm) as (q & Hq & Hc & Hx). apply (Hbody q Hq). split; [done|by right].
    + apply (slob_inv_fewer h s A O P1 p bl P2 T h2 first); [done| |done| | |done].
      * destruct Hst as (_ & Ez & _). exact Ez.
      * eapply dlist_frame; [done| |exact Hd]. intros q Hq.
        split; apply (Hcore q Hq); unfold in_core, op_next, op_prev, page_room, sizeof_buddy_block, SLOB_BLOCK_SIZE; lia.
      * intros q Hq x Hx. destruct Hx as [Hx Hx2]. rewrite (Hcore q Hq x Hx). apply HPf in Hq as [Hq _]. by apply (Hbody q Hq).
Qed.
