(* ===== verification/SlobOps.v ===== *)
(** [SLOBAllocator::alloc] and [free] keep the allocator's invariant: they
    return, hand out and take back blocks that meet no other, get pages from
    the buddy allocator only when no free block is large enough, and give a
    page back when its last block is freed and it is not the only one. *)

From Stdlib Require Import ZArith Lia.
From stdpp Require Import base list gmap option sets fin_maps.
From S2P Require Import Prelude Memory DList Buddy BuddyPartition BuddyInv BuddySpec BuddyRun Slob SlobSpec SlobPage SlobInv.

(** Fuel for the walks over the pages and over a free list. *)
Definition fuel_ok (fuel : nat) (h : heap) : Prop :=
  zend h - zstart h < 4096 * Z.of_nat fuel ∧ 256 <= Z.of_nat fuel.

Section walks.
Context (fuel : nat) (h : heap) (s : slob) (A O : gmap Z Z) (P : list (Z * list (Z * Z))) (T : gmap Z Z).
Context (Hi : slob_inv h s A O P T) (Hfuel : fuel_ok fuel h).

Lemma pages_fuel : (length P < fuel)%nat.
Proof.
  destruct Hfuel as [H1 H2]. destruct (pages_count _ _ _ _ _ _ Hi) as [->|Hc]; [simpl; lia|]. unfold zlen in Hc. lia.
Qed.

Lemma blocks_fuel p bl : (p, bl) ∈ P → (length bl < fuel)%nat.
Proof.
  intros Hp. pose proof (fk_order _ _ _ (pk_free _ _ _ _ (si_page _ _ _ _ _ _ Hi _ _ Hp))) as Ho.
  apply ordered_length in Ho; [|unfold sizeof_slob_page, SLOB_BLOCK_SIZE; lia].
  destruct Hfuel as [_ H2]. unfold sizeof_slob_page, SLOB_BLOCK_SIZE in Ho. lia.
Qed.

Lemma pages_list : slist op_next (hmem h) (pages s) (map fst P).
Proof. eapply dlist_slist, Hi. Qed.

(** *** The search *)

Definition no_fit (n : Z) : Prop := ∀ p bl a t, (p, bl) ∈ P → (a, t) ∈ bl → t < n.

Let fl (p : Z) : list Z := map fst (default [] ((list_to_map P : gmap Z (list (Z * Z))) !! p)).

Lemma fl_page p bl : (p, bl) ∈ P → fl p = map fst bl.
Proof.
  intros Hp. unfold fl. apply elem_of_list_to_map in Hp as ->; [done|]. eapply pages_nodup, Hi.
Qed.

Lemma find_free_block_inv n :
  ∃ r, find_free_block fuel h s n = Done r ∧
    (r = 0 ∧ no_fit n ∨ ∃ P1 p b1 t b2 P2, P = P1 ++ (p, b1 ++ (r, t) :: b2) :: P2 ∧ n <= t).
Proof.
  assert (∀ p b, p ∈ map fst P → b ∈ fl p → ∃ bl t, (p, bl) ∈ P ∧ (b, t) ∈ bl) as Hfl.
  { intros p b ([? bl] & -> & Hp)%list_elem_of_fmap Hb. simpl in *. rewrite (fl_page _ _ Hp) in Hb.
    apply list_elem_of_fmap in Hb as ([? t] & -> & Hb). by exists bl, t. }
  destruct (find_free_block_returns fuel h s n (map fst P) fl) as (r & E & Hr).
  - exact pages_list.
  - rewrite length_map. exact pages_fuel.
  - intros p ([? bl] & -> & Hp)%list_elem_of_fmap. simpl. rewrite (fl_page _ _ Hp), length_map.
    split; [|by eapply blocks_fuel]. eapply dlist_slist, fk_list, pk_free, si_page; [exact Hi|done].
  - intros p b Hp Hb. destruct (Hfl p b Hp Hb) as (bl & t & HpP & Hbl).
    pose proof (pk_free _ _ _ _ (si_page _ _ _ _ _ _ Hi _ _ HpP)) as Hok.
    destruct (ordered_elem _ _ _ _ _ (fk_order _ _ _ Hok) Hbl) as (? & ? & ?). destruct (fk_page _ _ _ Hok).
    unfold sizeof_slob_page, SLOB_BLOCK_SIZE in *. rewrite (fk_size _ _ _ Hok _ _ Hbl). lia.
  - exists r. split; [exact E|]. destruct Hr as [[-> Hno]|(Hin & Hle & _)].
    + left. split; [done|]. intros p bl a t Hp Ha.
      rewrite <- (fk_size _ _ _ (pk_free _ _ _ _ (si_page _ _ _ _ _ _ Hi _ _ Hp)) _ _ Ha). apply Hno.
      apply list_elem_of_bind. exists p. rewrite (fl_page _ _ Hp). split; [by eapply elem_of_fst|by eapply page_in].
    + right. apply list_elem_of_bind in Hin as (p & Hr & Hp). destruct (Hfl p r Hp Hr) as (bl & t & HpP & Hrt).
      rewrite (fk_size _ _ _ (pk_free _ _ _ _ (si_page _ _ _ _ _ _ Hi _ _ HpP)) _ _ Hrt) in Hle.
      apply list_elem_of_split in HpP as (P1 & P2 & ->). apply list_elem_of_split in Hrt as (b1 & b2 & ->).
      by exists P1, p, b1, t, b2, P2.
Qed.
End walks.

(** ** Allocation *)

(** The second half of [alloc]: the block is cut, unlinked and marked. *)
Definition take_block (fuel : nat) (h : heap) (s : slob) (block aligned_size : Z) : outcome (Z * heap * slob) :=
  let h := cut h block aligned_size in
  let* page := find_page fuel h s block in
  let h := if negb (page =? 0) then
             let h := remove_free_block h page block in
             hadd32 h (page + op_free) (- hload h (block + ob_size))
           else h in
  let h := hstore h (block + ob_magic) SLOB_MAGIC in
  let s := set_allocated s (u32 (total_allocated s + hload h (block + ob_size))) in
  Done (u32 (block + sizeof_slob_block), h, s).

Lemma slob_alloc_eq fuel h s size :
  slob_alloc fuel h s size =
  if (size =? 0) || (SLOB_MAX_ALLOC <? size) then Done (0, h, s)
  else
    let* block := find_free_block fuel h s (slob_aligned_size size) in
    let* (block, h, s) :=
      if block =? 0 then
        let* (new_page, h, s) := slob_alloc_page h s in
        if new_page =? 0 then Done (0, h, s)
        else let* block := find_free_block fuel h s (slob_aligned_size size) in Done (block, h, s)
      else Done (block, h, s) in
    if block =? 0 then Done (0, h, s) else take_block fuel h s block (slob_aligned_size size).
Proof. reflexivity. Qed.

Lemma slob_aligned_size_spec n :
  0 < n <= SLOB_MAX_ALLOC →
  n + sizeof_slob_block <= slob_aligned_size n <= 528 ∧ 32 <= slob_aligned_size n ∧ (8 | slob_aligned_size n).
Proof.
  unfold SLOB_MAX_ALLOC, sizeof_slob_block. intros Hn. unfold slob_aligned_size, SLOB_ALIGN, SLOB_MIN_ALLOC, sizeof_slob_block.
  rewrite (u32_small (n + 8 - 1)) by lia. change (u32 (Z.lnot (8 - 1))) with (u32 (Z.lnot (2 ^ 3 - 1))).
  rewrite land_align by lia. change (2 ^ 3) with 8. replace (n + 8 - 1) with (n + 7) by lia.
  pose proof (Z.div_mod (n + 7) 8 ltac:(lia)). pose proof (Z.mod_pos_bound (n + 7) 8 ltac:(lia)).
  case_if; rewrite u32_small by lia.
  - split; [lia|]. split; [lia|]. by exists 4.
  - split; [lia|]. split; [lia|]. exists ((n + 7) / 8 + 2). lia.
Qed.

Lemma find_page_inv fuel h s A O P T p bl h' q b :
  slob_inv h s A O P T → fuel_ok fuel h → (p, bl) ∈ P → only_writes (free_words p bl) h h' →
  q ∈ map fst P → in_page q b → find_page fuel h' s b = Done q.
Proof.
  intros Hi Hf Hp Hw Hq Hb. apply find_page_spec with (pl := map fst P); [| |done|done|].
  - eapply slist_frame; [|by eapply pages_list]. intros r Hr.
    apply (free_words_fields _ _ _ _ _ _ _ _ _ _ _ Hi Hp Hw Hr). unfold op_free, op_next, op_prev. lia.
  - rewrite length_map. by eapply pages_fuel.
  - intros r Hr. destruct (page_bounds _ _ _ _ _ _ _ Hi Hr) as (_ & H1 & _ & H2 & _).
    apply list_elem_of_fmap in Hr as ([? br] & -> & Hr). simpl in *. pose proof (page_in _ _ _ Hr) as Hr'.
    pose proof (si_page _ _ _ _ _ _ Hi _ _ Hr) as Hpk.
    rewrite !(free_words_fields _ _ _ _ _ _ _ _ _ _ _ Hi Hp Hw Hr'), (pk_addr _ _ _ _ Hpk), (pk_total _ _ _ _ Hpk)
      by (unfold op_addr, op_total, op_free, op_next, op_prev; lia).
    unfold sizeof_buddy_block in *. split; [lia|]. split; [done|]. split; [done|]. split; [done|].
    intros Hne. by eapply pages_apart.
Qed.

(** The words [alloc] writes: in the chosen block, or for the bookkeeping of its page. *)
Record taken (h h' : heap) (p : Z) (bl : list (Z * Z)) (a t : Z) (bl' : list (Z * Z)) : Prop := {
  tk_zone : zone h' = zone h;
  tk_words : ∀ x, ¬ free_words p bl x → x ≠ p + op_free → hload h' x = hload h x;
  tk_free : free_ok h' p bl';
  tk_bytes : hload h' (p + op_free) = free_bytes bl';
  tk_header : hload h' (a + ob_size) = t ∧ hload h' (a + ob_magic) = SLOB_MAGIC;
}.

Lemma take_block_ok fuel h s A O P T p b1 a s0 b2 n :
  slob_inv h s A O P T → fuel_ok fuel h → (p, b1 ++ (a, s0) :: b2) ∈ P → 32 <= n <= s0 → (8 | n) →
  ∃ t rest h', carved a s0 n t rest ∧
    take_block fuel h s a n = Done (a + sizeof_slob_block, h', set_allocated s (u32 (total_allocated s + t))) ∧
    taken h h' p (b1 ++ (a, s0) :: b2) a t (b1 ++ rest ++ b2).
Proof.
  set (bl := b1 ++ (a, s0) :: b2). intros Hi Hfuel Hp Hn Hn8.
  pose proof (si_page _ _ _ _ _ _ Hi _ _ Hp) as Hpk. pose proof (pk_free _ _ _ _ Hpk) as Hok.
  pose proof (page_in _ _ _ Hp) as Hpf.
  destruct (page_bounds _ _ _ _ _ _ _ Hi Hpf) as (_ & Hp0 & _ & Hp1 & [i Hpi]).
  assert ((a, s0) ∈ bl) as Hin by (apply elem_of_app; right; left).
  destruct (ordered_elem _ _ _ _ _ (fk_order _ _ _ Hok) Hin) as (Ha1 & Ha2 & Ha3).
  assert (8 | p + 4) as Hp4 by (exists (512 * i + 3); unfold sizeof_buddy_block in Hpi; lia).
  destruct (cut_ok h p b1 a s0 b2 n Hok ltac:(lia) Hp4 Hn8 (pk_starts _ _ _ _ Hpk)) as (_ & _ & _ & _ & _ & Hw1).
  destruct (carve_ok h p b1 a s0 b2 n Hok ltac:(lia) Hp4 Hn8 (pk_starts _ _ _ _ Hpk)) as (t & rest & Hc & Hok2 & Ht & Hw2).
  fold bl in Hw1, Hw2. exists t, rest. unfold take_block.
  unfold sizeof_slob_page, SLOB_BLOCK_SIZE, sizeof_buddy_block in *.
  rewrite (find_page_inv fuel h s A O P T p bl (cut h a n) p a Hi Hfuel Hp Hw1 Hpf) by (unfold in_page, SLOB_BLOCK_SIZE; lia).
  cbn [obind]. rewrite (proj2 (Z.eqb_neq p 0)) by lia. cbn [negb].
  set (h2 := remove_free_block (cut h a n) p a) in *. rewrite Ht. rewrite u32_small by (unfold sizeof_slob_block; lia).
  set (h3 := hstore (hadd32 h2 (p + op_free) (- t)) (a + ob_magic) SLOB_MAGIC).
  assert (∀ x, x ≠ p + op_free → x ≠ a + ob_magic → hload h3 x = hload h2 x) as Hf3.
  { intros x Hx1 Hx2. unfold h3, hadd32, hload, hstore. cbn [hmem set_mem]. by rewrite !load_store_ne. }
  assert (hload h3 (a + ob_size) = t) as Ht3.
  { rewrite Hf3; [done|unfold op_free, ob_size; lia|unfold ob_size, ob_magic; lia]. }
  assert (n <= t <= s0) as Hts by (destruct Hc as [[_ ->]|(_ & -> & _)]; lia).
  exists h3. split; [done|]. split; [by rewrite Ht3|].
  destruct (pk_starts _ _ _ _ Hpk a) as [_ Hroom]; [by eapply elem_of_fst|].
  unfold page_room, sizeof_slob_block, sizeof_buddy_block, SLOB_BLOCK_SIZE in Hroom. split.
  - destruct Hw2 as [Ez _]. exact Ez.
  - intros x Hx Hxf. rewrite Hf3; [by apply Hw2|done|]. intros ->. apply Hx. do 2 right.
    split; [exists a, s0; split; [done|unfold ob_magic; lia]|]. unfold in_core, page_room, ob_magic, sizeof_buddy_block, SLOB_BLOCK_SIZE. lia.
  - pose proof (fk_order _ _ _ Hok2) as Ho2. apply (free_ok_headers h2); [|intros c o Hcin Hoo _|done]; apply Hf3.
    + unfold op_list, op_free. lia.
    + unfold op_list, ob_magic. lia.
    + destruct (fst_block p _ _ Ho2 Hcin). unfold sizeof_slob_page, op_free in *. lia.
    + destruct (carved_tiles h p b1 a s0 b2 n t rest Hok ltac:(lia) Hc) as [_ Htl].
      pose proof (header_free _ _ _ _ _ Ho2 Hcin Hoo) as [_ Hnot]%Htl. unfold ob_magic. lia.
  - assert (hload h3 (p + op_free) = u32 (hload h2 (p + op_free) - t)) as ->.
    { unfold h3, hadd32, hload, hstore. cbn [hmem set_mem]. rewrite load_store_ne by (unfold ob_magic, op_free; lia). apply load_store_eq. }
    rewrite (free_words_fields _ _ _ _ _ _ _ _ _ _ _ Hi Hp Hw2 Hpf) by (unfold op_free; lia).
    rewrite (pk_bytes _ _ _ _ Hpk). unfold bl. rewrite <- (carved_bytes _ _ _ _ _ _ _ Hc).
    destruct (ordered_bytes (p + 28) (b1 ++ rest ++ b2) (p + 4096)); [lia|exact (fk_order _ _ _ Hok2)|]. apply u32_small. lia.
  - split; [done|]. unfold h3, hload. apply load_store_eq.
Qed.

(** *** The map of live blocks *)

Lemma live_insert T a t x : T !! a = None → live_at (<[a := t]> T) x ↔ live_at T x ∨ a <= x < a + t.
Proof.
  intros Ha. unfold live_at. split.
  - intros (b & u & Hb & Hx). apply lookup_insert_Some in Hb as [[<- <-]|[_ Hb]]; [by right|left; by exists b, u].
  - intros [(b & u & Hb & Hx)|Hx]; [exists b, u; split; [|done]; by rewrite lookup_insert_ne by congruence|].
    exists a, t. by rewrite lookup_insert_eq.
Qed.

Lemma total_size_insert T a t : T !! a = None → total_size (<[a := t]> T) = t + total_size T.
Proof. intros Ha. unfold total_size. apply map_fold_insert_L; [|done]. intros; lia. Qed.

Lemma total_size_delete T a t : T !! a = Some t → total_size T = t + total_size (delete a T).
Proof. intros Ha. rewrite <- (insert_delete_id T a t Ha) at 1. by rewrite total_size_insert by apply lookup_delete_eq. Qed.

Lemma apart_insert T a t :
  apart T → 0 < t → (∀ c u, T !! c = Some u → 0 < u) → (∀ x, a <= x < a + t → ¬ live_at T x) → apart (<[a := t]> T).
Proof.
  intros Hap Ht Hpos Hdis.
  assert (∀ c u, T !! c = Some u → a + t <= c ∨ c + u <= a) as Hnew.
  { intros c u Hc. specialize (Hpos c u Hc). destruct (decide (a + t <= c)); [by left|right].
    destruct (decide (c + u <= a)); [done|]. destruct (Hdis (Z.max a c)); [lia|]. exists c, u. split; [done|lia]. }
  intros b v c u Hb Hc Hne. apply lookup_insert_Some in Hb as [[<- <-]|[_ Hb]], Hc as [[<- <-]|[_ Hc]].
  - done.
  - by apply Hnew.
  - destruct (Hnew b v Hb); lia.
  - by eapply Hap.
Qed.

(** Live blocks keep what they hold when the free words of a page change. *)
Lemma live_kept h s A O P T p bl h' x :
  slob_inv h s A O P T → (p, bl) ∈ P →
  (∀ x, ¬ free_words p bl x → x ≠ p + op_free → hload h' x = hload h x) →
  live_at T x ∨ user_area O x → hload h' x = hload h x.
Proof.
  intros Hi Hp Hw Hx. pose proof (page_in _ _ _ Hp) as Hpf. destruct Hx as [Hx|Hx]; apply Hw; intros Hf.
  - by eapply free_words_not_live.
  - subst x. eapply header_not_live; [exact Hi|exact Hpf| |exact Hx]. unfold op_free, sizeof_slob_page. lia.
  - destruct (free_words_in_page _ _ _ _ (pk_free _ _ _ _ (si_page _ _ _ _ _ _ Hi _ _ Hp)) Hf) as [Hr _].
    eapply page_not_others; [exact Hi|exact Hpf| |exact Hx]. unfold in_page, page_room, op_frag, sizeof_buddy_block in *. lia.
  - subst x. eapply page_not_others; [exact Hi|exact Hpf| |exact Hx]. unfold in_page, op_free, SLOB_BLOCK_SIZE. lia.
Qed.

Lemma kept_blocks h s A O P T T' h' pl :
  slob_inv h s A O P T → (∀ x, live_at T' x → live_at T x → hload h' x = hload h x) → pl = map fst P →
  ∀ b t, T !! b = Some t → T' !! b = Some t → block_ok h' pl b t.
Proof.
  intros Hi Hk -> b t Hb Hb'. pose proof (si_block _ _ _ _ _ _ Hi _ _ Hb) as Hbk.
  pose proof (bk_size _ _ _ _ Hbk). unfold sizeof_slob_block in *.
  eapply block_ok_frame; [..|exact Hbk]; (apply Hk; exists b, t; split; [done|unfold ob_size, ob_magic; lia|done|unfold ob_size, ob_magic; lia]).
Qed.

Lemma taken_step h s A O P T h' p bl a t bl' n :
  slob_inv h s A O P T → (p, bl) ∈ P → taken h h' p bl a t bl' → page_step h h' s (set_allocated s n) p.
Proof.
  intros Hi Hp [Hz Hw _ _ _]. pose proof (pk_free _ _ _ _ (si_page _ _ _ _ _ _ Hi _ _ Hp)) as Hok.
  pose proof (λ x, free_words_in_page h p bl x Hok) as Hfw.
  unfold in_core, page_room, op_free, op_frag, op_next, op_prev, sizeof_slob_page, sizeof_buddy_block, SLOB_BLOCK_SIZE in *.
  split; [done| | |done].
  - unfold in_core, page_room, SLOB_BLOCK_SIZE, sizeof_buddy_block. intros x Hx. apply Hw; [intros ?%Hfw|]; lia.
  - split; apply Hw; unfold op_free, op_next, op_prev; try lia; intros ?%Hfw; lia.
Qed.

Lemma taken_page h s A O P T h' p b1 a s0 b2 n t rest :
  slob_inv h s A O P T → (p, b1 ++ (a, s0) :: b2) ∈ P → 32 <= n <= s0 → (8 | n) → carved a s0 n t rest →
  taken h h' p (b1 ++ (a, s0) :: b2) a t (b1 ++ rest ++ b2) → T !! a = None →
  page_ok h' (<[a := t]> T) p (b1 ++ rest ++ b2).
Proof.
  intros Hi Hp Hn Hn8 Hc Htk HT. pose proof (si_page _ _ _ _ _ _ Hi _ _ Hp) as Hpk. pose proof (pk_free _ _ _ _ Hpk) as Hok.
  destruct (page_bounds _ _ _ _ _ _ _ Hi (page_in _ _ _ Hp)) as (_ & _ & _ & _ & [i Hpi]).
  destruct (carved_tiles h p b1 a s0 b2 n t rest Hok ltac:(lia) Hc) as [Ht Htl].
  assert (∀ o, 0 <= o < 8 → hload h' (p + o) = hload h (p + o)) as Hhd.
  { intros o Ho. apply (tk_words _ _ _ _ _ _ _ Htk); [|unfold op_free; lia]. intros [? _]%(free_words_in_page _ _ _ _ Hok). unfold op_frag in *. lia. }
  split.
  - apply Htk.
  - eapply carved_separated; [apply Hok|apply Hpk|done|lia].
  - rewrite Hhd by done. exact (pk_addr _ _ _ _ Hpk).
  - rewrite Hhd by done. exact (pk_total _ _ _ _ Hpk).
  - exact (tk_bytes _ _ _ _ _ _ _ Htk).
  - eapply carved_starts; [apply Hok| |done|apply Hpk|done]. exists (512 * i + 3). unfold sizeof_buddy_block in Hpi. lia.
  - intros x Hx. rewrite Htl, (pk_tile _ _ _ _ Hpk), live_insert by done. tauto.
Qed.

Lemma take_inv h s A O P1 p b1 a s0 b2 P2 T n t rest h' :
  slob_inv h s A O (P1 ++ (p, b1 ++ (a, s0) :: b2) :: P2) T → 32 <= n <= s0 → (8 | n) → carved a s0 n t rest →
  taken h h' p (b1 ++ (a, s0) :: b2) a t (b1 ++ rest ++ b2) →
  T !! a = None ∧ n <= t ∧ slob_keeps T O h h' ∧
  slob_inv h' (set_allocated s (u32 (total_allocated s + t))) A O (P1 ++ (p, b1 ++ rest ++ b2) :: P2) (<[a := t]> T).
Proof.
  set (bl := b1 ++ (a, s0) :: b2). set (P := P1 ++ (p, bl) :: P2). intros Hi Hn Hn8 Hc Htk.
  assert ((p, bl) ∈ P) as Hp by (apply elem_of_app; right; left). pose proof (si_page _ _ _ _ _ _ Hi _ _ Hp) as Hpk.
  pose proof (pk_free _ _ _ _ Hpk) as Hok. pose proof (fk_order _ _ _ Hok) as Ho.
  assert ((a, s0) ∈ bl) as Hin by (apply elem_of_app; right; left). destruct (ordered_elem _ _ _ _ _ Ho Hin) as (Ha1 & _ & Ha3).
  destruct (carved_tiles h p b1 a s0 b2 n t rest Hok ltac:(lia) Hc) as [Hts _].
  assert (∀ x, a <= x < a + t → ¬ live_at T x) as Hfree.
  { intros x Hx. apply (pk_tile _ _ _ _ Hpk); [lia|]. exists a, s0. split; [done|lia]. }
  assert (T !! a = None) as HT.
  { destruct (T !! a) as [u|] eqn:E; [|done]. destruct (Hfree a); [lia|]. exists a, u. split; [done|].
    pose proof (bk_size _ _ _ _ (si_block _ _ _ _ _ _ Hi _ _ E)). unfold sizeof_slob_block in *. lia. }
  assert (∀ x, live_at T x ∨ user_area O x → hload h' x = hload h x) as Hk.
  { intros x. eapply live_kept; [exact Hi|exact Hp|apply Htk]. }
  split; [done|]. split; [lia|]. split.
  { split; [|intros x [[Hx _]|Hx]; apply Hk; tauto]. unfold same_region, zstart, zend. by rewrite (tk_zone _ _ _ _ _ _ _ Htk). }
  eapply slob_inv_update; [exact Hi|by eapply taken_step|by eapply taken_page| | | |].
  - intros x Hx. rewrite live_insert by done. unfold in_page in Hx. split; [|tauto]. intros [?|?]; [done|].
    unfold sizeof_slob_page in *. lia.
  - intros b u Hb. apply lookup_insert_Some in Hb as [[<- <-]|[Hne Hb]].
    + destruct (pk_starts _ _ _ _ Hpk a) as [? ?]; [by eapply elem_of_fst|].
      split; [unfold sizeof_slob_block; lia|apply Htk|]. exists p. split; [by eapply page_in|]. split; [done|]. split; [lia|done].
    + eapply (kept_blocks h s A O P T (<[a := t]> T)); [done| |done|done|by rewrite lookup_insert_ne].
      intros x _ Hx. apply Hk. by left.
  - apply apart_insert; [apply Hi|lia| |done]. intros c u Hcu. pose proof (bk_size _ _ _ _ (si_block _ _ _ _ _ _ Hi _ _ Hcu)).
    unfold sizeof_slob_block in *. lia.
  - cbn [set_allocated total_allocated]. rewrite total_size_insert by done. destruct (si_count _ _ _ _ _ _ Hi) as (_ & _ & ->).
    unfold u32. rewrite Zplus_mod_idemp_l. f_equal. lia.
Qed.

(** Only the last page may have no live block. *)
Definition nonfull (P : list (Z * list (Z * Z))) : Prop :=
  (1 < length P)%nat → ∀ p bl, (p, bl) ∈ P → free_bytes bl ≠ SLOB_BLOCK_SIZE - sizeof_slob_page.

(** The allocator in a good state, for some pages in blocks of the buddy allocator. *)
Definition slob_ok (h : heap) (s : slob) (O T : gmap Z Z) : Prop :=
  ∃ A P, slob_inv h s A O P T ∧ nonfull P.

Lemma nonfull_less P1 p bl bl' P2 :
  nonfull (P1 ++ (p, bl) :: P2) → free_bytes bl' < SLOB_BLOCK_SIZE - sizeof_slob_page → nonfull (P1 ++ (p, bl') :: P2).
Proof.
  intros Hn Hlt Hlen q bq Hq. rewrite length_app in Hlen. simpl in Hlen.
  apply elem_of_app in Hq as [Hq|[[= -> ->]|Hq]%elem_of_cons]; [|lia|];
    (apply Hn with q; [rewrite length_app; simpl; lia|]); apply elem_of_app; [by left|right; by right].
Qed.

Lemma fuel_ok_region fuel h h' : same_region h h' → fuel_ok fuel h → fuel_ok fuel h'.
Proof. intros [E1 E2] [H1 H2]. split; [by rewrite E1, E2|done]. Qed.

(** One block from a page that has a large enough one. *)
Lemma take_from fuel h s A O P1 p b1 a s0 b2 P2 T n :
  slob_inv h s A O (P1 ++ (p, b1 ++ (a, s0) :: b2) :: P2) T → fuel_ok fuel h → 32 <= n <= s0 → (8 | n) →
  ∃ h' s' bl' t, take_block fuel h s a n = Done (a + sizeof_slob_block, h', s') ∧ 0 < a ∧ (8 | a) ∧
    T !! a = None ∧ n <= t ∧ slob_keeps T O h h' ∧
    free_bytes bl' < SLOB_BLOCK_SIZE - sizeof_slob_page ∧
    slob_inv h' s' A O (P1 ++ (p, bl') :: P2) (<[a := t]> T).
Proof.
  intros Hi Hf Hn Hn8. assert ((p, b1 ++ (a, s0) :: b2) ∈ P1 ++ (p, b1 ++ (a, s0) :: b2) :: P2) as Hp by (apply elem_of_app; right; left).
  destruct (take_block_ok fuel h s A O _ T p b1 a s0 b2 n Hi Hf Hp Hn Hn8) as (t & rest & h' & Hc & E & Htk).
  destruct (take_inv h s A O P1 p b1 a s0 b2 P2 T n t rest h' Hi Hn Hn8 Hc Htk) as (HT & Hnt & Hk & Hi').
  exists h', (set_allocated s (u32 (total_allocated s + t))), (b1 ++ rest ++ b2), t. split; [done|].
  pose proof (si_page _ _ _ _ _ _ Hi _ _ Hp) as Hpk. pose proof (fk_order _ _ _ (pk_free _ _ _ _ Hpk)) as Ho.
  destruct (fst_block p _ a Ho) as [Ha _]; [rewrite map_app; apply elem_of_app; right; by left|].
  destruct (pk_starts _ _ _ _ Hpk a) as [Ha8 _]; [rewrite map_app; apply elem_of_app; right; by left|].
  destruct (fk_page _ _ _ (pk_free _ _ _ _ Hpk)) as [Hp0 _]. unfold sizeof_slob_page in Ha.
  do 5 (split; [done || lia|]). split; [|done]. rewrite (carved_bytes b1 a s0 b2 n t rest Hc).
  pose proof (ordered_bytes (p + 28) (b1 ++ (a, s0) :: b2) (p + 4096) ltac:(lia) Ho).
  unfold sizeof_slob_page, SLOB_BLOCK_SIZE in *. lia.
Qed.

(** A page without a live block serves every request. *)
Lemma no_fit_nonfull h s A O P T n q bq :
  slob_inv h s A O P T → no_fit P n → n <= 528 → (q, bq) ∈ P → free_bytes bq ≠ SLOB_BLOCK_SIZE - sizeof_slob_page.
Proof.
  intros Hi Hno Hn Hq Hb. destruct (page_full _ _ _ _ (si_page _ _ _ _ _ _ Hi _ _ Hq) Hb) as [-> _].
  specialize (Hno _ _ _ _ Hq ltac:(by left)). unfold SLOB_BLOCK_SIZE, sizeof_slob_page in Hno. lia.
Qed.

(** The block found after a new page was made is on that page, and it is the
    only page that had no live block. *)
Lemma new_page_nonfull h s A O P T h1 s1 A1 n p P1 p1 b1 r t b2 P2 bl' :
  slob_inv h s A O P T → no_fit P n → n <= 528 → n <= t →
  slob_inv h1 s1 A1 O (P1 ++ (p1, b1 ++ (r, t) :: b2) :: P2) T →
  (p, whole_page p) :: P = P1 ++ (p1, b1 ++ (r, t) :: b2) :: P2 →
  free_bytes bl' < SLOB_BLOCK_SIZE - sizeof_slob_page → nonfull (P1 ++ (p1, bl') :: P2).
Proof.
  intros Hi Hno Hn Ht Hi1 EP Hb _ q bq Hq Hfull. destruct (other_pages _ _ _ _ (pages_nodup _ _ _ _ _ _ Hi1)) as [HP _].
  assert ((p1, b1 ++ (r, t) :: b2) ∈ (p, whole_page p) :: P) as Hp1 by (rewrite EP; apply elem_of_app; right; left).
  assert (p1 = p) as ->.
  { apply elem_of_cons in Hp1 as [[= -> _]|Hp1]; [done|]. specialize (Hno _ _ r t Hp1 ltac:(apply elem_of_app; right; left)). lia. }
  assert ((q, bq) = (p, bl') ∨ (q, bq) ∈ P1 ++ P2) as [[= -> ->]|[Hq' Hne]%HP]; [|lia|].
  { rewrite elem_of_app, elem_of_cons in Hq. rewrite elem_of_app. tauto. }
  rewrite <- EP in Hq'. apply elem_of_cons in Hq' as [[= -> _]|Hq']; [done|].
  by apply (no_fit_nonfull h s A O P T n q bq Hi Hno Hn Hq').
Qed.

(** [alloc] of a size it serves: null, with nothing changed, exactly when no
    free block is large enough and there is no room for another page. *)
Lemma slob_alloc_ok fuel h s A O P T size :
  slob_inv h s A O P T → nonfull P → fuel_ok fuel h → 0 < size <= SLOB_MAX_ALLOC →
  slob_alloc fuel h s size = Done (0, h, s) ∧ no_fit P (slob_aligned_size size) ∧ (∀ q, ¬ room_at h A page_order q) ∨
  ∃ b t h' s', slob_alloc fuel h s size = Done (b + sizeof_slob_block, h', s') ∧ 0 < b ∧ (8 | b) ∧
    T !! b = None ∧ size + sizeof_slob_block <= t ∧ slob_keeps T O h h' ∧ slob_ok h' s' O (<[b := t]> T).
Proof.
  intros Hi Hnf Hf Hs. rewrite slob_alloc_eq. destruct (slob_aligned_size_spec size Hs) as (Hn1 & Hn2 & Hn8).
  set (n := slob_aligned_size size) in *. unfold SLOB_MAX_ALLOC in *.
  rewrite (proj2 (Z.eqb_neq size 0)), (proj2 (Z.ltb_ge 512 size)) by lia. cbn [orb].
  destruct (find_free_block_inv fuel h s A O P T Hi Hf n) as (r & -> & Hr). cbn [obind].
  destruct Hr as [[-> Hno]|(P1 & p & b1 & t0 & b2 & P2 & -> & Hle)].
  - rewrite Z.eqb_refl. destruct (slob_inv_alloc_page h s A O P T Hi) as [[-> Hroom]|(p & h1 & s1 & -> & Hp & Hi1 & Hk1)].
    { left. split; [done|]. by split. }
    cbn [obind]. rewrite (proj2 (Z.eqb_neq p 0)) by done. pose proof (fuel_ok_region _ _ _ (proj1 Hk1) Hf) as Hf1.
    destruct (find_free_block_inv fuel h1 s1 _ O _ T Hi1 Hf1 n) as (r & -> & Hr). cbn [obind].
    destruct Hr as [[_ Hno1]|(P1 & p1 & b1 & t0 & b2 & P2 & EP & Hle)].
    { specialize (Hno1 p (whole_page p) (p + sizeof_slob_page) _ ltac:(by left) ltac:(by left)).
      unfold SLOB_BLOCK_SIZE, sizeof_slob_page in *. lia. }
    rewrite EP in Hi1. destruct (take_from fuel h1 s1 _ O P1 p1 b1 r t0 b2 P2 T n Hi1 Hf1 ltac:(lia) Hn8)
      as (h' & s' & bl' & t & E & Hr0 & Hr8 & HT & Hnt & Hk & Hb & Hi').
    rewrite (proj2 (Z.eqb_neq r 0)), E by lia. right. exists r, t, h', s'. split; [done|].
    do 3 (split; [done|]). split; [lia|]. split; [by etransitivity|]. do 2 eexists. split; [exact Hi'|].
    eapply (new_page_nonfull h s A O P T h1 s1); [exact Hi|exact Hno|lia|exact Hle|exact Hi1|exact EP|done].
  - destruct (take_from fuel h s A O P1 p b1 r t0 b2 P2 T n Hi Hf ltac:(lia) Hn8) as (h' & s' & bl' & t & E & Hr0 & Hr8 & HT & Hnt & Hk & Hb & Hi').
    rewrite (proj2 (Z.eqb_neq r 0)) by lia. cbn [obind]. rewrite (proj2 (Z.eqb_neq r 0)), E by lia.
    right. exists r, t, h', s'. split; [done|]. do 3 (split; [done|]). split; [lia|]. split; [done|].
    do 2 eexists. split; [exact Hi'|]. by eapply nonfull_less.
Qed.

(** ** Freeing *)

(** The first half of [free]: the block goes back to its page. *)
Definition give_back (fuel : nat) (h : heap) (page block : Z) : outcome heap :=
  let h := hstore h (block + ob_magic) 0 in
  let h := hadd32 h (page + op_free) (hload h (block + ob_size)) in
  let* h := add_free_block fuel h page block in
  merge_free_blocks fuel h page.

(** The second half: an empty page goes back, and fragments are counted. *)
Definition settle (fuel : nat) (h : heap) (s : slob) (page : Z) : outcome (heap * slob) :=
  let* (h, s) :=
    if hload h (page + op_free) =? u32 (hload h (page + op_total) - sizeof_slob_page)
    then if 1 <? total_pages s then slob_free_page h s page else Done (h, s)
    else Done (h, s) in
  let* b := should_defragment fuel h s in
  if b then let* h := defragment fuel h s in Done (h, s) else Done (h, s).

Lemma slob_free_eq fuel h s ptr :
  slob_free fuel h s ptr =
  if ptr =? 0 then Done (h, s)
  else
    let block := u32 (ptr - sizeof_slob_block) in
    if negb (hload h (block + ob_magic) =? SLOB_MAGIC) then Done (h, s)
    else
      let* page := find_page fuel h s block in
      if page =? 0 then Done (h, s)
      else
        let s := set_allocated s (u32 (total_allocated s - hload (hstore h (block + ob_magic) 0) (block + ob_size))) in
        let* h := give_back fuel h page block in settle fuel h s page.
Proof.
  unfold slob_free, give_back. destruct (ptr =? 0); [done|]. destruct (negb _); [done|].
  destruct (find_page _ _ _ _) as [page| |]; [|done..]. cbn [obind]. destruct (page =? 0); [done|].
  by destruct (add_free_block _ _ _ _).
Qed.

Lemma live_delete T b t x :
  apart T → (∀ c u, T !! c = Some u → 0 < u) → T !! b = Some t →
  live_at (delete b T) x ↔ live_at T x ∧ ¬ b <= x < b + t.
Proof.
  intros Hap Hpos Hb. unfold live_at. split.
  - intros (c & u & [Hne Hc]%lookup_delete_Some & Hx). split; [by exists c, u|].
    destruct (Hap b t c u Hb Hc Hne); lia.
  - intros [(c & u & Hc & Hx) Hn]. exists c, u. split; [|done]. apply lookup_delete_Some. split; [|done].
    intros <-. simplify_eq. lia.
Qed.

Lemma live_positive h s A O P T b t : slob_inv h s A O P T → T !! b = Some t → 32 <= t.
Proof. intros Hi Hb. pose proof (bk_size _ _ _ _ (si_block _ _ _ _ _ _ Hi _ _ Hb)). unfold sizeof_slob_block in *. lia. Qed.

(** The free list of the page, with the block in it and merged. *)
Record given (h h' : heap) (p : Z) (bl : list (Z * Z)) (b t : Z) (bi : list (Z * Z)) : Prop := {
  gv_list : ∃ c1 c2, bl = c1 ++ c2 ∧ bi = c1 ++ (b, t) :: c2;
  gv_order : ordered (p + sizeof_slob_page) bi (p + SLOB_BLOCK_SIZE);
  gv_zone : zone h' = zone h;
  gv_words : ∀ x, ¬ free_words p bi x → x ≠ p + op_free → hload h' x = hload h x;
  gv_free : free_ok h' p (coalesce_all bi);
  gv_bytes : hload h' (p + op_free) = free_bytes bi;
}.

Lemma given_at h h' p bl b t bi x : given h h' p bl b t bi → free_at bi x ↔ free_at bl x ∨ b <= x < b + t.
Proof.
  intros [(c1 & c2 & -> & ->) _ _ _ _ _]. rewrite !free_at_app, free_at_cons. tauto.
Qed.

Lemma give_back_ok fuel h s A O P T p bl b t :
  slob_inv h s A O P T → fuel_ok fuel h → (p, bl) ∈ P → T !! b = Some t →
  p + sizeof_slob_page <= b → b + t <= p + SLOB_BLOCK_SIZE → b + sizeof_slob_block <= p + page_room → (8 | b) →
  ∃ h' bi, give_back fuel h p b = Done h' ∧ given h h' p bl b t bi ∧ starts_ok p bi.
Proof.
  intros Hi Hfuel Hp Hb Hb1 Hb2 Hb3 Hb8. pose proof (si_page _ _ _ _ _ _ Hi _ _ Hp) as Hpk. pose proof (pk_free _ _ _ _ Hpk) as Hok.
  pose proof (live_positive _ _ _ _ _ _ _ _ Hi Hb) as Ht. destruct (bk_header _ _ _ _ (si_block _ _ _ _ _ _ Hi _ _ Hb)) as [Hsz _].
  assert (∀ x, b <= x < b + t → ¬ free_at bl x) as Hnf.
  { intros x Hx Hf. pose proof (free_at_ordered _ _ _ _ (fk_order _ _ _ Hok) Hf).
    apply (pk_tile _ _ _ _ Hpk) in Hf; [|done]. apply Hf. by exists b, t. }
  destruct (ordered_insert _ bl _ b t (fk_order _ _ _ Hok) ltac:(lia) Hb1 Hb2 Hnf) as (c1 & c2 & -> & Ho).
  set (bi := c1 ++ (b, t) :: c2) in *. pose proof (page_in _ _ _ Hp) as Hpf.
  unfold sizeof_slob_page, sizeof_slob_block, SLOB_BLOCK_SIZE in *.
  set (h1 := hstore h (b + ob_magic) 0). set (h2 := hadd32 h1 (p + op_free) (hload h1 (b + ob_size))).
  assert (∀ x, x ≠ p + op_free → x ≠ b + ob_magic → hload h2 x = hload h x) as Hf2.
  { intros x Hx1 Hx2. unfold h2, h1, hadd32, hload, hstore. cbn [hmem set_mem]. by rewrite !load_store_ne. }
  assert (hload h1 (b + ob_size) = t) as Hsz1.
  { unfold h1, hload, hstore. cbn [hmem set_mem]. rewrite load_store_ne by (unfold ob_size, ob_magic; lia). exact Hsz. }
  assert (starts_ok p bi) as Hst.
  { unfold starts_ok, bi. intros a. rewrite map_app. cbn [map fst]. intros [Ha|[->|Ha]%elem_of_cons]%elem_of_app; [|done|];
      apply (pk_starts _ _ _ _ Hpk); rewrite map_app; apply elem_of_app; [by left|by right]. }
  assert (free_ok h2 p (c1 ++ c2)) as Hok2.
  { apply (free_ok_headers h); [apply Hf2; unfold op_list, op_free, ob_magic; lia| |done]. intros a o Ha Hoo _.
    destruct (fst_block p _ _ (fk_order _ _ _ Hok) Ha) as [Hpa _]. unfold sizeof_slob_page in Hpa. apply Hf2; [unfold op_free; lia|].
    intros E. apply (Hnf (a + o)); [unfold ob_magic in *; lia|]. by eapply header_free; [apply Hok| |]. }
  assert (hload h2 (b + ob_size) = t) as Hsz2 by (rewrite Hf2; [done|unfold ob_size, op_free; lia|unfold ob_size, ob_magic; lia]).
  pose proof (blocks_fuel _ _ _ _ _ _ _ Hi Hfuel _ _ Hp) as Hlen. rewrite length_app in Hlen.
  destruct (slob_release_ok fuel h2 p c1 b t c2 Hok2 Hsz2 Ho) as (h4 & bl' & E4 & Hok4 & -> & _ & _ & Hw4); [rewrite length_app; lia|].
  fold bi in Hok4, Hw4. assert (only_writes (free_words p bi) h2 h4) as [Ez Hw].
  { eapply only_writes_weaken; [|exact Hw4]. intros x. by apply slob_words_free. }
  exists h4, bi. unfold give_back. fold h1 h2. split; [exact E4|]. split; [|exact Hst]. split; try done.
  - by exists c1, c2.
  - intros x Hx Hx2. rewrite Hw by done. apply Hf2; [done|]. intros ->. apply Hx. do 2 right. split.
    + exists b, t. split; [apply elem_of_app; right; left|unfold ob_magic; lia].
    + unfold in_core, page_room, ob_magic, sizeof_buddy_block, SLOB_BLOCK_SIZE in *. lia.
  - rewrite Hw by (intros [? _]%(free_words_bounds _ _ _ Ho); unfold op_frag, op_free in *; lia).
    assert (hload h2 (p + op_free) = u32 (hload h (p + op_free) + t)) as ->.
    { unfold h2, hadd32, hload at 1, hstore. cbn [hmem set_mem]. rewrite load_store_eq. rewrite Hsz1.
      unfold h1, hload, hstore. cbn [hmem set_mem]. rewrite load_store_ne by (unfold ob_magic, op_free; lia). done. }
    rewrite (pk_bytes _ _ _ _ Hpk). unfold bi. rewrite !free_bytes_app. simpl.
    pose proof (ordered_bytes (p + 28) bi (p + 4096) ltac:(lia) Ho) as Hby. unfold bi in Hby. rewrite free_bytes_app in Hby. simpl in Hby.
    rewrite u32_small by lia. lia.
Qed.

Section given_back.
Context (h : heap) (s : slob) (A O : gmap Z Z) (P1 : list (Z * list (Z * Z))) (p : Z) (bl : list (Z * Z))
  (P2 : list (Z * list (Z * Z))) (T : gmap Z Z) (b t : Z) (h' : heap) (bi : list (Z * Z)).
Let P := P1 ++ (p, bl) :: P2.
Context (Hi : slob_inv h s A O P T) (Hb : T !! b = Some t) (Hb1 : p + sizeof_slob_page <= b) (Hb2 : b + t <= p + SLOB_BLOCK_SIZE)
  (Hg : given h h' p bl b t bi) (Hst : starts_ok p bi).

Lemma given_in : (p, bl) ∈ P.
Proof. apply elem_of_app. right. left. Qed.

Lemma given_live x : live_at (delete b T) x ↔ live_at T x ∧ ¬ b <= x < b + t.
Proof.
  apply live_delete; [apply (si_apart _ _ _ _ _ _ Hi)| |done].
  intros c u Hc. pose proof (live_positive _ _ _ _ _ _ _ _ Hi Hc). lia.
Qed.

(** The words [free] writes are in none of the other live blocks. *)
Lemma given_words x :
  free_words p bi x →
  ¬ live_at (delete b T) x ∧ p + op_frag <= x < p + page_room ∧ (x < p + op_next ∨ p + sizeof_slob_page <= x).
Proof.
  intros Hx. pose proof (si_page _ _ _ _ _ _ Hi _ _ given_in) as Hpk. pose proof (gv_order _ _ _ _ _ _ _ Hg) as Ho.
  pose proof (free_words_bounds _ _ _ Ho Hx) as Hr.
  split; [|done]. destruct (decide (x < p + sizeof_slob_page)) as [Hlt|Hge].
  - intros [Hx' _]%given_live. eapply header_not_live; [exact Hi|exact (page_in _ _ _ given_in)| |exact Hx'].
    unfold op_frag in *. lia.
  - destruct Hx as [->|[->|[Hx _]]]; [unfold op_frag, op_list, sizeof_slob_page in *; lia..|].
    apply (given_at _ _ _ _ _ _ _ _ Hg) in Hx as [Hx|Hx]; [|rewrite given_live; tauto].
    apply (pk_tile _ _ _ _ Hpk) in Hx; [rewrite given_live; tauto|]. unfold page_room, sizeof_buddy_block in *. lia.
Qed.

Lemma given_kept x : live_at (delete b T) x ∨ user_area O x → hload h' x = hload h x.
Proof.
  intros Hx. pose proof (page_in _ _ _ given_in) as Hpf. apply (gv_words _ _ _ _ _ _ _ Hg).
  - intros (Hnl & Hr & _)%given_words. destruct Hx as [?|Hx]; [done|].
    eapply page_not_others; [exact Hi|exact Hpf| |exact Hx]. unfold in_page, page_room, op_frag, sizeof_buddy_block in *. lia.
  - intros ->. destruct Hx as [[Hx _]%given_live|Hx].
    + eapply header_not_live; [exact Hi|exact Hpf| |exact Hx]. unfold op_free, sizeof_slob_page. lia.
    + eapply page_not_others; [exact Hi|exact Hpf| |exact Hx]. unfold in_page, op_free, SLOB_BLOCK_SIZE. lia.
Qed.

Lemma given_page : page_ok h' (delete b T) p (coalesce_all bi).
Proof.
  pose proof (si_page _ _ _ _ _ _ Hi _ _ given_in) as Hpk. pose proof (gv_order _ _ _ _ _ _ _ Hg) as Ho.
  assert (∀ o, 0 <= o < 8 → hload h' (p + o) = hload h (p + o)) as Hhd.
  { intros o Hoo. apply (gv_words _ _ _ _ _ _ _ Hg); [intros (_ & Hr & _)%given_words; unfold op_frag in *|unfold op_free]; lia. }
  split.
  - exact (gv_free _ _ _ _ _ _ _ Hg).
  - apply coalesce_all_separated.
  - rewrite Hhd by done. exact (pk_addr _ _ _ _ Hpk).
  - rewrite Hhd by done. exact (pk_total _ _ _ _ Hpk).
  - rewrite coalesce_all_bytes. exact (gv_bytes _ _ _ _ _ _ _ Hg).
  - intros a Ha%coalesce_all_starts. by apply Hst.
  - intros x Hx. rewrite (coalesce_all_at _ _ _ _ Ho), (given_at _ _ _ _ _ _ _ _ Hg), (pk_tile _ _ _ _ Hpk), given_live by done.
    destruct (decide (b <= x < b + t)); tauto.
Qed.

Lemma given_step n : page_step h h' s (set_allocated s n) p.
Proof.
  split; [exact (gv_zone _ _ _ _ _ _ _ Hg)| | |done].
  - unfold in_core, page_room, SLOB_BLOCK_SIZE, sizeof_buddy_block. intros x Hx. apply (gv_words _ _ _ _ _ _ _ Hg).
    + intros (_ & Hr & _)%given_words. unfold page_room, op_frag, SLOB_BLOCK_SIZE, sizeof_buddy_block in *. lia.
    + unfold op_free. lia.
  - split; apply (gv_words _ _ _ _ _ _ _ Hg); try (unfold op_free, op_next, op_prev; lia);
      intros (_ & _ & Hr)%given_words; unfold op_next, op_prev, sizeof_slob_page in *; lia.
Qed.

Lemma given_inv :
  slob_keeps (delete b T) O h h' ∧
  slob_inv h' (set_allocated s (u32 (total_allocated s - t))) A O (P1 ++ (p, coalesce_all bi) :: P2) (delete b T).
Proof.
  split.
  { split; [unfold same_region, zstart, zend; by rewrite (gv_zone _ _ _ _ _ _ _ Hg)|].
    intros x [[Hx _]|Hx]; apply given_kept; tauto. }
  eapply slob_inv_update; [exact Hi|apply given_step|exact given_page| | | |].
  - intros x Hx. rewrite given_live. unfold in_page, sizeof_slob_page in *. split; [tauto|]. intros ?. split; [done|lia].
  - intros c u Hc. pose proof Hc as [_ Hc']%lookup_delete_Some. eapply (kept_blocks h s A O P T (delete b T)); [exact Hi| |done|exact Hc'|exact Hc].
    intros x Hx _. apply given_kept. by left.
  - intros c u d v [_ Hc]%lookup_delete_Some [_ Hd]%lookup_delete_Some. by apply (si_apart _ _ _ _ _ _ Hi).
  - cbn [set_allocated total_allocated]. destruct (si_count _ _ _ _ _ _ Hi) as (_ & _ & ->).
    rewrite (total_size_delete T b t Hb). unfold u32. rewrite Zminus_mod_idemp_l. f_equal. lia.
Qed.
End given_back.

Section defragmenting.
Context (h : heap) (s : slob) (A O : gmap Z Z) (P : list (Z * list (Z * Z))) (T : gmap Z Z).
Context (Hi : slob_inv h s A O P T).

(** Merging again writes only words that belong to the allocator. *)
Lemma all_free_words_own x :
  all_free_words P x → user_area A x ∧ ¬ live_at T x ∧ ¬ user_area O x ∧
  ∀ q o, q ∈ map fst P → 0 <= o <= op_free ∨ op_next <= o <= op_prev → x ≠ q + o.
Proof.
  intros (p & bl & Hp & Hx). pose proof (page_in _ _ _ Hp) as Hpf.
  destruct (free_words_in_page _ _ _ _ (pk_free _ _ _ _ (si_page _ _ _ _ _ _ Hi _ _ Hp)) Hx) as [Hr Hr2].
  unfold op_frag, op_next, op_prev, op_free, sizeof_slob_page, page_room, sizeof_buddy_block, SLOB_BLOCK_SIZE in *.
  split; [|split; [by eapply free_words_not_live|split]].
  - eapply page_area; [exact Hi|exact Hpf|]. unfold in_core, page_room, sizeof_buddy_block, SLOB_BLOCK_SIZE. lia.
  - eapply page_not_others; [exact Hi|exact Hpf|]. unfold in_page, SLOB_BLOCK_SIZE. lia.
  - intros q o Hq Ho ->. destruct (decide (p = q)) as [->|Hne]; [lia|].
    pose proof (pages_apart _ _ _ _ _ _ _ _ Hi Hpf Hq Hne). unfold page_apart, SLOB_BLOCK_SIZE in *. lia.
Qed.

Lemma slob_inv_merged h' :
  only_writes (all_free_words P) h h' → (∀ p bl, (p, bl) ∈ P → free_ok h' p bl) →
  slob_inv h' s A O P T ∧ slob_keeps T O h h'.
Proof.
  intros [Hz Hw] Hok. assert (∀ x, live_at T x ∨ user_area O x → hload h' x = hload h x) as Hk.
  { intros x Hx. apply Hw. intros (_ & ? & ? & _)%all_free_words_own. tauto. }
  assert (∀ q o, q ∈ map fst P → 0 <= o <= op_free ∨ op_next <= o <= op_prev → hload h' (q + o) = hload h (q + o)) as Hf.
  { intros q o Hq Ho. apply Hw. intros (_ & _ & _ & Hne)%all_free_words_own. by apply (Hne q o). }
  split; [|split; [unfold same_region, zstart, zend; by rewrite Hz|intros x [[Hx _]|Hx]; apply Hk; tauto]].
  split; try apply Hi.
  - eapply client_writes_ok; [apply Hi|]. split; [done|]. intros x Hx. apply Hw. intros [? _]%all_free_words_own. done.
  - unfold zend. rewrite Hz. apply Hi.
  - eapply dlist_frame; [done| |apply Hi]. intros q Hq. split; apply Hf; (done || unfold op_free, op_next, op_prev; lia).
  - intros p bl Hp. pose proof (si_page _ _ _ _ _ _ Hi _ _ Hp) as Hpk. pose proof (page_in _ _ _ Hp) as Hpf. split; try apply Hpk.
    + by apply Hok.
    + rewrite Hf by (done || unfold op_addr, op_free; lia). exact (pk_addr _ _ _ _ Hpk).
    + rewrite Hf by (done || unfold op_total, op_free; lia). exact (pk_total _ _ _ _ Hpk).
    + rewrite Hf by (done || unfold op_free; lia). exact (pk_bytes _ _ _ _ Hpk).
  - intros b t Hb. eapply (kept_blocks h s A O P T T); [done| |done..]. intros x Hx _. apply Hk. by left.
Qed.

Lemma defragment_inv fuel :
  fuel_ok fuel h → ∃ h', defragment fuel h s = Done h' ∧ slob_inv h' s A O P T ∧ slob_keeps T O h h'.
Proof.
  intros Hf. destruct (defragment_ok fuel h s P) as (h' & E & Hok & Hw).
  - by eapply pages_list.
  - by eapply pages_fuel.
  - by eapply pages_nodup.
  - intros p q. by eapply pages_apart.
  - intros p bl Hp. pose proof (si_page _ _ _ _ _ _ Hi _ _ Hp) as Hpk.
    split; [apply Hpk|]. split; [apply Hpk|]. split; [apply Hpk|]. by eapply blocks_fuel.
  - exists h'. split; [exact E|]. by apply slob_inv_merged.
Qed.

Lemma pages_small : zlen P < 2 ^ 32.
Proof.
  destruct (pages_count _ _ _ _ _ _ Hi) as [->|Hc]; [done|]. pose proof (si_top _ _ _ _ _ _ Hi).
  destruct (si_buddy _ _ _ _ _ _ Hi) as [B Hwf]. destruct (wf_region _ _ _ _ Hwf) as (_ & ? & _).
  unfold sizeof_buddy_block in *. lia.
Qed.
End defragmenting.

(** An empty page goes back, unless it is the only one. *)
Lemma page_back_ok h s A O P1 p bl bl' P2 T :
  slob_inv h s A O (P1 ++ (p, bl') :: P2) T → nonfull (P1 ++ (p, bl) :: P2) →
  ∃ h1 s1, (if hload h (p + op_free) =? u32 (hload h (p + op_total) - sizeof_slob_page)
    then if 1 <? total_pages s then slob_free_page h s p else Done (h, s) else Done (h, s)) = Done (h1, s1) ∧
    slob_keeps T O h h1 ∧ ∃ A1 P', slob_inv h1 s1 A1 O P' T ∧ nonfull P'.
Proof.
  set (P := P1 ++ (p, bl') :: P2). intros Hi Hnf.
  assert ((p, bl') ∈ P) as Hp by (apply elem_of_app; right; left). pose proof (si_page _ _ _ _ _ _ Hi _ _ Hp) as Hpk.
  rewrite (pk_bytes _ _ _ _ Hpk), (pk_total _ _ _ _ Hpk).
  change (u32 (SLOB_BLOCK_SIZE - sizeof_slob_page)) with (SLOB_BLOCK_SIZE - sizeof_slob_page).
  destruct (si_count _ _ _ _ _ _ Hi) as (-> & _). rewrite u32_small by (split; [apply zlen_nonneg|by eapply pages_small]).
  unfold nonfull in Hnf. assert (length (P1 ++ (p, bl) :: P2) = length P) as El by (unfold P; by rewrite !length_app).
  rewrite El in Hnf. unfold zlen.
  assert (∀ q bq, (1 < length P)%nat → (q, bq) ∈ P1 ++ P2 → free_bytes bq ≠ SLOB_BLOCK_SIZE - sizeof_slob_page) as Hothers.
  { intros q bq Hlen Hq. apply Hnf with q; [done|]. apply elem_of_app in Hq as [?|?]; apply elem_of_app; [by left|right; by right]. }
  destruct (Z.eqb_spec (free_bytes bl') (SLOB_BLOCK_SIZE - sizeof_slob_page)) as [Hfull|Hfull];
    [destruct (Z.ltb_spec 1 (Z.of_nat (length P))) as [Hlen|Hlen]|].
  - destruct (slob_inv_free_page h s A O P1 p bl' P2 T Hi Hfull) as (h1 & s1 & E & Hk & Hi1).
    exists h1, s1. split; [exact E|]. split; [done|]. do 2 eexists. split; [exact Hi1|]. intros _ q bq Hq.
    apply Hothers with q; [lia|done].
  - exists h, s. split; [done|]. split; [done|]. exists A, P. split; [done|]. intros Hlen'. lia.
  - exists h, s. split; [done|]. split; [done|]. exists A, P. split; [done|]. intros Hlen q bq Hq.
    apply elem_of_app in Hq as [Hq|[[= -> ->]|Hq]%elem_of_cons]; [|done|]; apply Hothers with q; try done;
      apply elem_of_app; tauto.
Qed.

Lemma settle_ok fuel h s A O P1 p bl bl' P2 T :
  slob_inv h s A O (P1 ++ (p, bl') :: P2) T → nonfull (P1 ++ (p, bl) :: P2) → fuel_ok fuel h →
  ∃ h' s', settle fuel h s p = Done (h', s') ∧ slob_keeps T O h h' ∧ slob_ok h' s' O T.
Proof.
  intros Hi Hnf Hfuel. unfold settle.
  destruct (page_back_ok h s A O P1 p bl bl' P2 T Hi Hnf) as (h1 & s1 & -> & Hk1 & A1 & P' & Hi1 & Hnf1).
  pose proof (fuel_ok_region _ _ _ (proj1 Hk1) Hfuel) as Hfuel1. cbn [obind].
  destruct (should_defragment_returns fuel h1 s1 (map fst P')) as (d & ->);
    [by eapply pages_list|rewrite length_map; by eapply pages_fuel|]. cbn [obind].
  destruct d; [|exists h1, s1; split; [done|]; split; [done|by exists A1, P']].
  destruct (defragment_inv _ _ _ _ _ _ Hi1 fuel Hfuel1) as (h2 & -> & Hi2 & Hk2).
  exists h2, s1. split; [done|]. split; [by etransitivity|]. by exists A1, P'.
Qed.

(** [free] of a live block. *)
Lemma slob_free_ok fuel h s O T b t :
  slob_ok h s O T → fuel_ok fuel h → T !! b = Some t →
  ∃ h' s', slob_free fuel h s (b + sizeof_slob_block) = Done (h', s') ∧
    slob_keeps (delete b T) O h h' ∧ slob_ok h' s' O (delete b T).
Proof.
  intros (A & P & Hi & Hnf) Hfuel Hb. pose proof (live_positive _ _ _ _ _ _ _ _ Hi Hb) as Ht.
  destruct (si_block _ _ _ _ _ _ Hi _ _ Hb) as [_ [Hsz Hmagic] (p & Hpf & Hb1 & Hb2 & Hb8 & Hb3)].
  destruct (page_bounds _ _ _ _ _ _ _ Hi Hpf) as (_ & Hp0 & _ & Hp1 & _).
  apply list_elem_of_fmap in Hpf as ([p' bl] & E & Hp). simpl in E. subst p'. pose proof (page_in _ _ _ Hp) as Hpf.
  rewrite slob_free_eq. unfold sizeof_slob_block, sizeof_slob_page, sizeof_buddy_block, SLOB_BLOCK_SIZE in *.
  rewrite (proj2 (Z.eqb_neq (b + 16) 0)) by lia. cbv zeta. replace (b + 16 - 16) with b by lia. rewrite u32_small by lia.
  rewrite Hmagic, Z.eqb_refl. cbn [negb].
  rewrite (find_page_inv fuel h s A O P T p bl h p b Hi Hfuel Hp (reflexivity h) Hpf) by (unfold in_page, SLOB_BLOCK_SIZE; lia).
  cbn [obind]. rewrite (proj2 (Z.eqb_neq p 0)) by lia.
  assert (hload (hstore h (b + ob_magic) 0) (b + ob_size) = t) as ->.
  { unfold hload, hstore. cbn [hmem set_mem]. rewrite load_store_ne by (unfold ob_magic, ob_size; lia). exact Hsz. }
  destruct (give_back_ok fuel h s A O P T p bl b t Hi Hfuel Hp Hb) as (h1 & bi & -> & Hg & Hst);
    [unfold sizeof_slob_page, SLOB_BLOCK_SIZE, sizeof_slob_block; (lia || done)..|]. cbn [obind].
  apply list_elem_of_split in Hp as (P1 & P2 & ->).
  destruct (given_inv h s A O P1 p bl P2 T b t h1 bi Hi Hb) as [Hk1 Hi1];
    [unfold sizeof_slob_page, SLOB_BLOCK_SIZE; (lia || done)..|].
  destruct (settle_ok fuel h1 _ A O P1 p bl (coalesce_all bi) P2 (delete b T) Hi1 Hnf) as (h2 & s2 & E & Hk2 & Hok2).
  { eapply fuel_ok_region; [exact (proj1 Hk1)|done]. }
  exists h2, s2. split; [exact E|]. split; [by etransitivity|done].
Qed.
