(* ===== verification/SlobRun.v ===== *)
(** Histories of the SLOB allocator on top of the buddy allocator: any
    sequence of its operations, of writes of its clients to their own blocks,
    and of operations of the buddy allocator's other clients.  Every operation
    returns, no client sees another's words change (the words of a block
    that lie in the header of the next buddy block are not counted), and when every block has
    been freed the allocator has one page, all of it free. *)

From Stdlib Require Import ZArith Lia.
From stdpp Require Import base list gmap option sets fin_maps relations.
From S2P Require Import Prelude Memory DList Buddy BuddyPartition BuddyInv BuddySpec BuddyInit BuddyRun.
From S2P Require Import Slob SlobSpec SlobPage SlobInv SlobOps.

(** ** Histories *)

Inductive slob_op :=
| SlobAlloc (size : Z)
| SlobFree (ptr : Z)
| SlobWrite (a v : Z)
| BuddyOp (o : op).

(** The two allocators; the live blocks of SLOB's clients, by pointer, with
    the sizes that were asked for; those of the buddy allocator's other
    clients, by block, with their orders. *)
Record slob_client := mk_client {
  c_heap : heap;
  c_slob : slob;
  c_live : gmap Z Z;
  c_others : gmap Z Z;
}.

Definition run_slob (fuel : nat) (r : slob_op) (st : slob_client) : outcome slob_client :=
  let '(mk_client h s L others) := st in
  match r with
  | SlobAlloc size =>
      let* (p, h, s) := slob_alloc fuel h s size in
      Done (mk_client h s (if p =? 0 then L else <[p := size]> L) others)
  | SlobFree p => let* (h, s) := slob_free fuel h s p in Done (mk_client h s (delete p L) others)
  | SlobWrite a v => Done (mk_client (hstore h a v) s L others)
  | BuddyOp o => let* (h, others) := run_op o (h, others) in Done (mk_client h s L others)
  end.

(** The words of a live block, without those in the header of the buddy block
    behind the page. *)
Definition block_word (L : gmap Z Z) (x : Z) : Prop :=
  (∃ p n, L !! p = Some n ∧ p <= x < p + n) ∧ sizeof_buddy_block <= x mod MIN_BLOCK_SIZE.

Definition slob_allowed (st : slob_client) (r : slob_op) : Prop :=
  match r with
  | SlobAlloc size => 0 <= size < 2 ^ 32
  | SlobFree p => p = 0 ∨ is_Some (c_live st !! p)
  | SlobWrite a v => (4 | a) ∧ block_word (c_live st) a
  | BuddyOp o => allowed (c_others st) o
  end.

Definition slob_step (fuel : nat) (st st' : slob_client) : Prop :=
  ∃ r, slob_allowed st r ∧ run_slob fuel r st = Done st'.

(** The words a client may read and write. *)
Definition client_word (st : slob_client) (x : Z) : Prop := block_word (c_live st) x ∨ user_area (c_others st) x.

Definition op_writes (r : slob_op) (x : Z) : Prop :=
  match r with SlobWrite a _ | BuddyOp (Write a _) => x = a | _ => False end.

(** What an operation does to the words that are a client's before and after. *)
Definition kept (r : slob_op) (st st' : slob_client) : Prop :=
  ∀ x, client_word st x → client_word st' x → ¬ op_writes r x → hload (c_heap st') x = hload (c_heap st) x.

(** ** The invariant of a history *)

(** The clients' view of the live blocks. *)
Definition blocks_rel (L T : gmap Z Z) : Prop :=
  (∀ p n, L !! p = Some n → ∃ t, T !! (p - sizeof_slob_block) = Some t ∧ n + sizeof_slob_block <= t) ∧
  (∀ b, is_Some (T !! b) → is_Some (L !! (b + sizeof_slob_block))).

Definition client_ok (st : slob_client) : Prop :=
  ∃ T, slob_ok (c_heap st) (c_slob st) (c_others st) T ∧ blocks_rel (c_live st) T.

Lemma block_word_live L T x : blocks_rel L T → block_word L x → live_at T x ∧ sizeof_buddy_block <= x mod MIN_BLOCK_SIZE.
Proof.
  intros [HL _] [(p & n & Hp & Hx) Hm]. split; [|done]. destruct (HL p n Hp) as (t & Ht & Hn).
  exists (p - sizeof_slob_block), t. split; [done|]. unfold sizeof_slob_block in *. lia.
Qed.

Lemma client_word_owned st T x : blocks_rel (c_live st) T → client_word st x → owned T (c_others st) x.
Proof. intros HL [Hx|Hx]; [left; by eapply block_word_live|by right]. Qed.

Lemma blocks_rel_insert L T b t n :
  blocks_rel L T → n + sizeof_slob_block <= t → blocks_rel (<[b + sizeof_slob_block := n]> L) (<[b := t]> T).
Proof.
  intros [H1 H2] Hn. split.
  - intros p m [[<- <-]|[Hne Hp]]%lookup_insert_Some.
    + exists t. split; [|done]. rewrite Z.add_simpl_r. apply lookup_insert_eq.
    + destruct (H1 p m Hp) as (u & Hu & Hm). exists u. split; [|done]. by rewrite lookup_insert_ne by lia.
  - intros c Hc. destruct (decide (b = c)) as [->|Hne]; [rewrite lookup_insert_eq; by eexists|].
    rewrite lookup_insert_ne in Hc |- * by lia. by apply H2.
Qed.

Lemma blocks_rel_delete L T p : blocks_rel L T → blocks_rel (delete p L) (delete (p - sizeof_slob_block) T).
Proof.
  intros [H1 H2]. split.
  - intros q m [Hne Hq]%lookup_delete_Some. destruct (H1 q m Hq) as (u & Hu & Hm). exists u. split; [|done].
    by rewrite lookup_delete_ne by lia.
  - intros c Hc. destruct (decide (p - sizeof_slob_block = c)) as [<-|Hne]; [by rewrite lookup_delete_eq in Hc; destruct Hc|].
    rewrite lookup_delete_ne in Hc by done. rewrite lookup_delete_ne by lia. by apply H2.
Qed.

(** ** Writes of the clients *)

(** A client that writes to its block touches neither free lists nor headers. *)
Lemma slob_inv_write h s A O P T b t a v :
  slob_inv h s A O P T → T !! b = Some t → b + sizeof_slob_block <= a < b + t →
  sizeof_buddy_block <= a mod MIN_BLOCK_SIZE → slob_inv (hstore h a v) s A O P T.
Proof.
  intros Hi Hb Ha Hm. unfold sizeof_slob_block in Ha. assert (live_at T a) as Hl by (exists b, t; split; [done|lia]).
  destruct (live_core _ _ _ _ _ _ _ Hi Hl Hm) as (p & Hp & Hc & Hpa).
  assert (∀ x, x ≠ a → hload (hstore h a v) x = hload h x) as Hw by (intros x Hx; by apply load_store_ne, not_eq_sym).
  assert (∀ q o, q ∈ map fst P → 0 <= o < 28 → hload (hstore h a v) (q + o) = hload h (q + o)) as Hf.
  { intros q o Hq Ho. apply Hw. intros E. eapply header_not_live; [exact Hi|exact Hq| |rewrite <- E in Hl; exact Hl].
    unfold sizeof_slob_page. lia. }
  split; try apply Hi.
  - eapply client_writes_ok; [apply Hi|]. apply only_writes_hstore. by eapply page_area.
  - eapply dlist_frame; [done| |apply Hi]. intros q Hq. by split; apply Hf.
  - intros q bl Hq. pose proof (si_page _ _ _ _ _ _ Hi _ _ Hq) as Hpk. pose proof (page_in _ _ _ Hq) as Hqf. split; try apply Hpk.
    + apply (free_ok_headers h); [by apply Hf| |apply Hpk]. intros c o Hcin Ho _. apply Hw. intros E.
      pose proof (fk_order _ _ _ (pk_free _ _ _ _ Hpk)) as Hor. pose proof (header_free _ _ _ _ _ Hor Hcin Ho) as Hfr.
      pose proof (free_at_ordered _ _ _ _ Hor Hfr). apply (pk_tile _ _ _ _ Hpk) in Hfr; [|done]. by rewrite E in Hfr.
    + rewrite Hf by done. exact (pk_addr _ _ _ _ Hpk).
    + rewrite Hf by done. exact (pk_total _ _ _ _ Hpk).
    + rewrite Hf by done. exact (pk_bytes _ _ _ _ Hpk).
  - intros c u Hcu. pose proof (live_positive _ _ _ _ _ _ _ _ Hi Hcu). pose proof (live_positive _ _ _ _ _ _ _ _ Hi Hb).
    assert (∀ o, 0 <= o < 16 → c + o ≠ a) as Hne.
    { intros o Ho. destruct (decide (b = c)) as [->|Hbc]; [lia|].
      destruct (si_apart _ _ _ _ _ _ Hi b t c u Hb Hcu Hbc); lia. }
    eapply block_ok_frame; [..|by eapply si_block]; apply Hw, Hne; done.
Qed.

(** ** The other clients of the buddy allocator *)

(** A step of the buddy allocator that keeps the cores of the pages. *)
Lemma slob_inv_env h s A O P T h' A' O' :
  slob_inv h s A O P T → buddy_ok h' A' → zend h' = zend h →
  (∀ b k, A' !! b = Some k ↔ O' !! b = Some k ∨ k = page_order ∧ b + sizeof_buddy_block ∈ map fst P) →
  (∀ b, b + sizeof_buddy_block ∈ map fst P → O' !! b = None) →
  (∀ p, p ∈ map fst P → ∀ x, in_core p x → hload h' x = hload h x) →
  slob_inv h' s A' O' P T.
Proof.
  intros Hi Hok Hz HA' HO' Hcore. split; try done; try apply Hi.
  - rewrite Hz. apply Hi.
  - eapply dlist_frame; [done| |apply Hi]. intros q Hq.
    split; apply (Hcore q Hq); unfold in_core, op_next, op_prev, page_room, sizeof_buddy_block, SLOB_BLOCK_SIZE; lia.
  - intros p bl Hp. eapply page_ok_frame; [|by eapply si_page]. intros x [Hx _]. eapply Hcore; [by eapply page_in|done].
  - intros b t Hb. pose proof (si_block _ _ _ _ _ _ Hi _ _ Hb) as Hbk. destruct (bk_page _ _ _ _ Hbk) as (p & Hp & H1 & H2 & _ & H3).
    unfold sizeof_slob_page, sizeof_slob_block in *.
    eapply block_ok_frame; [..|exact Hbk]; apply (Hcore p Hp); unfold in_core, ob_size, ob_magic; lia.
Qed.

(** What such a step leaves to the clients. *)
Definition env_result (h : heap) (s : slob) (O : gmap Z Z) (P : list (Z * list (Z * Z))) (T : gmap Z Z)
    (r : outcome client) : Prop :=
  ∃ h' A' O', r = Done (h', O') ∧ slob_inv h' s A' O' P T ∧ same_region h h' ∧
    ∀ x, owned T O x → owned T O' x → hload h' x = hload h x.

Lemma env_alloc h s A O P T k :
  slob_inv h s A O P T → 0 <= k →
  env_result h s O P T (let* r := alloc_order h k in Done (snd r, hand_out O k (fst r))).
Proof.
  intros Hi Hk. destruct (decide (k <= MAX_ORDER)) as [Hk'|Hk'].
  2: { unfold alloc_order. rewrite (proj2 (Z.ltb_lt MAX_ORDER k)) by lia. by exists h, A, O. }
  destruct (alloc_order_returns h A k (si_buddy _ _ _ _ _ _ Hi) ltac:(lia)) as [[-> _]|(p & h1 & -> & b & -> & Hp & HA & Hok & Hst)];
    [by exists h, A, O|].
  exists h1, (<[b := k]> A), (<[b := k]> O). cbn [obind fst snd]. unfold hand_out.
  rewrite (proj2 (Z.eqb_neq _ 0)), Z.add_simpl_r by done. split; [done|].
  destruct (heap_step_keeps A O T (map fst P) h h1 Hst) as [[Hreg Hk1] Hcore];
    [intros ??; by eapply others_live|intros ?; by eapply page_block|intros ?; by eapply live_core|].
  assert (∀ c, c + sizeof_buddy_block ∈ map fst P → c ≠ b) as Hne.
  { intros c Hc ->. pose proof (page_block _ _ _ _ _ _ _ Hi Hc) as E. rewrite Z.add_simpl_r in E. congruence. }
  split; [|split; [done|intros x Hx _; by apply Hk1]]. eapply slob_inv_env; [exact Hi|done|apply Hreg| | |done].
  - intros c j. rewrite !lookup_insert. case_decide as Hcb; [|by apply (si_heap _ _ _ _ _ _ Hi)]. subst c.
    split; [by left|]. intros [?|[_ Hc]]; [done|]. by destruct (Hne b Hc).
  - intros c Hc. rewrite lookup_insert_ne by (apply not_eq_sym; by apply Hne). by apply (si_others _ _ _ _ _ _ Hi).
Qed.

Lemma env_free h s A O P T b k h1 :
  slob_inv h s A O P T → O !! b = Some k → buddy_ok h1 (delete b A) → heap_step (delete b A) h h1 →
  env_result h s O P T (Done (h1, delete b O)).
Proof.
  intros Hi Hb Hok Hst. exists h1, (delete b A), (delete b O). split; [done|].
  assert (∀ c, c + sizeof_buddy_block ∈ map fst P → c ≠ b) as Hne.
  { intros c Hc ->. by rewrite (si_others _ _ _ _ _ _ Hi) in Hb. }
  destruct (heap_step_keeps (delete b A) (delete b O) T (map fst P) h h1 Hst) as [[Hreg Hk1] Hcore].
  - intros c j [? Hc]%lookup_delete_Some. apply lookup_delete_Some. split; [done|by eapply others_live].
  - intros p Hp. apply lookup_delete_Some. split; [|by eapply page_block]. apply not_eq_sym, Hne. by rewrite Z.sub_add.
  - intros x. by eapply live_core.
  - split; [|split; [done|intros x _ Hx; by apply Hk1]]. eapply slob_inv_env; [exact Hi|done|apply Hreg| | |done].
    + intros c j. rewrite !lookup_delete_Some, (si_heap _ _ _ _ _ _ Hi c j). split; [tauto|]. 
      intros [?|[? Hc]]; [tauto|]. split; [by apply not_eq_sym, Hne|tauto].
    + intros c Hc. apply lookup_delete_None. right. by apply (si_others _ _ _ _ _ _ Hi).
Qed.

(** Any allowed operation of the others. *)
Lemma env_op h s A O P T o :
  slob_inv h s A O P T → allowed O o →
  ∃ h' A' O', run_op o (h, O) = Done (h', O') ∧ slob_inv h' s A' O' P T ∧ same_region h h' ∧
    ∀ x, owned T O x → owned T O' x → ¬ op_writes (BuddyOp o) x → hload h' x = hload h x.
Proof.
  intros Hi Ho. assert (∀ r, env_result h s O P T r → ∃ h' A' O', r = Done (h', O') ∧ slob_inv h' s A' O' P T ∧ same_region h h' ∧
    ∀ x, owned T O x → owned T O' x → ¬ op_writes (BuddyOp o) x → hload h' x = hload h x) as Hres.
  { intros r (h' & A' & O' & -> & Hi' & Hreg & Hk). exists h', A', O'. do 3 (split; [done|]). intros x Hx Hx' _. by apply Hk. }
  pose proof (si_buddy _ _ _ _ _ _ Hi) as Hok.
  destruct o as [size|k|b|b k|a v]; cbn [allowed run_op] in *.
  - apply Hres. destruct (get_order_returns size Ho) as (k & E & Hk & _). rewrite E. cbn [obind].
    unfold alloc. rewrite E. case_if; [by exists h, A, O|]. eapply env_alloc; [done|lia].
  - apply Hres. eapply env_alloc; [done|lia].
  - destruct Ho as [k Hb]. destruct (free_live h A b k Hok (others_live _ _ _ _ _ _ _ _ Hi Hb)) as (h1 & -> & Hok1 & Hst & _).
    apply Hres. by eapply env_free.
  - destruct (free_order_live h A b k Hok (others_live _ _ _ _ _ _ _ _ Hi Ho)) as (h1 & -> & Hok1 & Hst & _).
    apply Hres. by eapply env_free.
  - exists (hstore h a v), A, O. split; [done|]. split; [|split; [done|]].
    + eapply slob_inv_env; [exact Hi| |done|apply Hi|apply Hi|].
      * eapply client_writes_ok; [exact Hok|]. apply only_writes_hstore. destruct Ho as (_ & b & k & Hb & Hr).
        exists b, k. split; [by eapply others_live|done].
      * intros p Hp x Hx. apply load_store_ne. intros <-. eapply page_not_others; [exact Hi|exact Hp| |exact (proj2 Ho)].
        unfold in_core, in_page, page_room, sizeof_buddy_block in *. lia.
    + intros x _ _ Hx. apply load_store_ne. intros E. apply Hx. by rewrite E.
Qed.

(** ** Every operation *)

(** The operation returns, keeps the invariant and the clients' words. *)
Definition op_good (fuel : nat) (r : slob_op) (st : slob_client) : Prop :=
  ∃ st', run_slob fuel r st = Done st' ∧ client_ok st' ∧ same_region (c_heap st) (c_heap st') ∧ kept r st st'.

(** A result whose owned words come from the keeping lemmas. *)
Lemma kept_of (r : slob_op) st st' T T' :
  blocks_rel (c_live st) T → blocks_rel (c_live st') T' →
  (∀ x, owned T (c_others st) x → owned T' (c_others st') x → ¬ op_writes r x → hload (c_heap st') x = hload (c_heap st) x) →
  kept r st st'.
Proof. intros HL HL' Hk x Hx Hx' Hn. apply Hk; [by eapply client_word_owned..|done]. Qed.

Lemma slob_alloc_zero fuel h s size : size = 0 ∨ SLOB_MAX_ALLOC < size → slob_alloc fuel h s size = Done (0, h, s).
Proof.
  intros Hs. unfold slob_alloc. destruct Hs as [->|Hs]; [done|]. rewrite (proj2 (Z.ltb_lt SLOB_MAX_ALLOC size)) by done.
  by rewrite orb_true_r.
Qed.

Lemma alloc_good fuel st size :
  client_ok st → fuel_ok fuel (c_heap st) → 0 <= size < 2 ^ 32 → op_good fuel (SlobAlloc size) st.
Proof.
  destruct st as [h s L O]. intros (T & (A & P & Hi & Hnf) & HL) Hfuel Hs. cbn [c_heap c_slob c_live c_others] in *.
  unfold op_good. cbn [run_slob c_heap]. destruct (decide (0 < size <= SLOB_MAX_ALLOC)) as [Hs'|Hs'].
  - destruct (slob_alloc_ok fuel h s A O P T size Hi Hnf Hfuel Hs') as [[-> _]|(b & t & h' & s' & -> & Hb & _ & HT & Ht & [Hreg Hk] & Hok)].
    + eexists. split; [done|]. split; [exists T; split; [by exists A, P|done]|]. split; [done|]. by intros x _ _ _.
    + cbn [obind]. rewrite (proj2 (Z.eqb_neq _ 0)) by (unfold sizeof_slob_block; lia).
      assert (blocks_rel (<[b + sizeof_slob_block := size]> L) (<[b := t]> T)) as HL' by by apply blocks_rel_insert.
      eexists. split; [done|]. split; [by exists (<[b := t]> T)|]. split; [done|].
      eapply kept_of; [exact HL|exact HL'|]. intros x Hx _ _. by apply Hk.
  - rewrite slob_alloc_zero by lia. eexists. split; [done|]. split; [exists T; split; [by exists A, P|done]|].
    split; [done|]. by intros x _ _ _.
Qed.

Lemma free_good fuel st p :
  client_ok st → fuel_ok fuel (c_heap st) → p = 0 ∨ is_Some (c_live st !! p) → op_good fuel (SlobFree p) st.
Proof.
  destruct st as [h s L O]. intros (T & Hok & HL) Hfuel Hp. cbn [c_heap c_slob c_live c_others] in *.
  unfold op_good. cbn [run_slob c_heap]. destruct (decide (p = 0)) as [->|Hne].
  - assert (delete 0 L = L) as ->.
    { apply delete_id. destruct (L !! 0) as [n|] eqn:E; [|done]. destruct HL as [HL _]. destruct (HL 0 n E) as (t & Ht & _).
      destruct Hok as (A & P & Hi & _). destruct (bk_page _ _ _ _ (si_block _ _ _ _ _ _ Hi _ _ Ht)) as (q & Hq & H1 & _).
      destruct (page_bounds _ _ _ _ _ _ _ Hi Hq) as (_ & ? & _). unfold sizeof_slob_block, sizeof_buddy_block, sizeof_slob_page in *. lia. }
    eexists. split; [done|]. split; [by exists T|]. split; [done|]. by intros x _ _ _.
  - destruct Hp as [?|[n Hn]]; [done|]. destruct (proj1 HL p n Hn) as (t & Ht & _).
    destruct (slob_free_ok fuel h s O T _ t Hok Hfuel Ht) as (h' & s' & E & [Hreg Hk] & Hok').
    rewrite Z.sub_add in E. rewrite E. cbn [obind]. pose proof (blocks_rel_delete L T p HL) as HL'.
    eexists. split; [done|]. split; [by eexists|]. split; [done|].
    eapply kept_of; [exact HL|exact HL'|]. intros x _ Hx _. by apply Hk.
Qed.

Lemma write_good fuel st a v : client_ok st → block_word (c_live st) a → op_good fuel (SlobWrite a v) st.
Proof.
  destruct st as [h s L O]. intros (T & (A & P & Hi & Hnf) & HL) [(p & n & Hp & Ha) Hm]. cbn [c_heap c_slob c_live c_others] in *.
  destruct (proj1 HL p n Hp) as (t & Ht & Hn).
  eexists. split; [done|]. split; [|split; [done|]].
  - exists T. split; [|done]. exists A, P. split; [|done]. eapply slob_inv_write; [exact Hi|exact Ht| |done].
    unfold sizeof_slob_block in *. lia.
  - intros x _ _ Hx. apply load_store_ne. intros E. apply Hx. by rewrite E.
Qed.

Lemma buddy_good fuel st o : client_ok st → allowed (c_others st) o → op_good fuel (BuddyOp o) st.
Proof.
  destruct st as [h s L O]. intros (T & (A & P & Hi & Hnf) & HL) Ho. cbn [c_heap c_slob c_live c_others] in *.
  destruct (env_op h s A O P T o Hi Ho) as (h' & A' & O' & E & Hi' & Hreg & Hk).
  eexists. split; [cbn [run_slob]; by rewrite E|]. split; [exists T; split; [by exists A', P|done]|]. split; [done|].
  eapply kept_of; [exact HL|exact HL|exact Hk].
Qed.

Lemma run_slob_good fuel r st :
  client_ok st → fuel_ok fuel (c_heap st) → slob_allowed st r → op_good fuel r st.
Proof.
  intros Hok Hf Hr. destruct r as [size|p|a v|o]; cbn [slob_allowed] in Hr;
    [by apply alloc_good|by apply free_good|by apply write_good, Hr|by apply buddy_good].
Qed.

Lemma slob_steps_ok fuel st st' :
  rtc (slob_step fuel) st st' → client_ok st → fuel_ok fuel (c_heap st) → client_ok st' ∧ fuel_ok fuel (c_heap st').
Proof.
  induction 1 as [st|st1 st2 st3 (r & Hr & E) _ IH]; [done|]. intros Hok Hf.
  destruct (run_slob_good fuel r st1 Hok Hf Hr) as (st2' & E' & Hok' & Hreg & _).
  assert (st2' = st2) as -> by congruence. apply IH; [done|]. by eapply fuel_ok_region.
Qed.

(** [init] of the allocator, with or without its first page. *)
Lemma slob_init_ok h O :
  buddy_ok h O → zend h + sizeof_buddy_block < 2 ^ 32 →
  ∃ h' s, slob_init h = Done (h', s) ∧ client_ok (mk_client h' s ∅ O) ∧ same_region h h'.
Proof.
  intros Hok Htop. assert (slob_inv h (mk_slob 0 0 0 0 75) O O [] ∅) as Hi.
  { split; try done.
    - intros b k. split; [by left|]. intros [?|[_ H%not_elem_of_nil]]; done.
    - intros b Hb%not_elem_of_nil. done.
    - apply (dlist_nil op_next op_prev). done.
    - intros p bl Hp%not_elem_of_nil. done. }
  assert (blocks_rel ∅ ∅) as HL by (split; [done|by intros b [? ?]]).
  unfold slob_init. destruct (slob_inv_alloc_page _ _ _ _ _ _ Hi) as [[-> _]|(p & h1 & s1 & -> & _ & Hi1 & [Hreg _])]; cbn [obind].
  - exists h, (mk_slob 0 0 0 0 75). split; [done|]. split; [|done]. exists ∅. split; [|done]. exists O, []. split; [done|].
    intros ?. simpl in *. lia.
  - exists h1, s1. split; [done|]. split; [|done]. exists ∅. split; [|done]. do 2 eexists. split; [exact Hi1|]. intros ?. simpl in *. lia.
Qed.

(** ** What the invariant says *)

(** Live blocks are aligned, and meet neither each other nor the words of the
    buddy allocator's other clients. *)
Definition separate (st : slob_client) : Prop :=
  ∀ p n, c_live st !! p = Some n →
    0 < p ∧ (8 | p) ∧ p + n < 2 ^ 32 ∧
    (∀ q m, c_live st !! q = Some m → p ≠ q → p + n <= q ∨ q + m <= p) ∧
    ∀ x, p <= x < p + n → ¬ user_area (c_others st) x.

(** One page at most, and all of it free. *)
Definition all_free (st : slob_client) : Prop :=
  let p := pages (c_slob st) in
  total_allocated (c_slob st) = 0 ∧
  (p = 0 ∨ free_ok (c_heap st) p (whole_page p) ∧ hload (c_heap st) (p + op_next) = 0).

Lemma client_ok_separate st : client_ok st → separate st.
Proof.
  destruct st as [h s L O]. intros (T & (A & P & Hi & _) & HL & _). cbn [c_heap c_slob c_live c_others] in *.
  intros p n Hp. destruct (HL p n Hp) as (t & Ht & Hn). destruct (si_block _ _ _ _ _ _ Hi _ _ Ht) as [_ _ (q & Hq & H1 & H2 & [i Hi8] & H3)].
  destruct (page_bounds _ _ _ _ _ _ _ Hi Hq) as (_ & H4 & _ & H5 & _).
  unfold sizeof_slob_block, sizeof_slob_page, sizeof_buddy_block in *.
  split; [lia|]. split; [exists (i + 2); lia|]. split; [lia|]. split.
  - intros r m Hr Hne. destruct (HL r m Hr) as (u & Hu & Hm). destruct (si_apart _ _ _ _ _ _ Hi _ _ _ _ Ht Hu); lia.
  - intros x Hx. eapply page_not_others; [exact Hi|exact Hq|]. unfold in_page. lia.
Qed.

Lemma client_ok_empty st : client_ok st → c_live st = ∅ → all_free st.
Proof.
  destruct st as [h s L O]. intros (T & (A & P & Hi & Hnf) & _ & HT) HL. cbn [c_heap c_slob c_live c_others] in *. subst L.
  assert (T = ∅) as ->.
  { apply map_empty. intros b. destruct (T !! b) as [t|] eqn:E; [|done]. by destruct (HT b (mk_is_Some _ _ E)). }
  assert (∀ p bl, (p, bl) ∈ P → bl = whole_page p) as Hwhole.
  { intros p bl Hp. pose proof (si_page _ _ _ _ _ _ Hi _ _ Hp) as Hpk. unfold whole_page.
    rewrite (ordered_covered (p + sizeof_slob_page) bl (p + SLOB_BLOCK_SIZE)).
    - do 2 f_equal. lia.
    - unfold sizeof_slob_page, SLOB_BLOCK_SIZE. lia.
    - apply Hpk.
    - apply Hpk.
    - intros x Hx. apply (pk_tile _ _ _ _ Hpk); [done|]. by intros (b & t & ? & _). }
  split; cbn [c_slob c_heap]; [by destruct (si_count _ _ _ _ _ _ Hi) as (_ & _ & ->)|].
  destruct (si_pages _ _ _ _ _ _ Hi) as (-> & Hd & _). destruct P as [|[p bl] [|[q bq] P]]; cbn [map fst hd] in *; [by left| |].
  - right. destruct Hd as (_ & _ & Hn & _). split; [|exact Hn].
    rewrite <- (Hwhole p bl) by by left. eapply pk_free, si_page; [exact Hi|by left].
  - exfalso. apply (Hnf ltac:(simpl; lia) p bl); [by left|]. rewrite (Hwhole p bl) by by left. done.
Qed.

Lemma client_ok_fail fuel st n h' s' :
  client_ok st → fuel_ok fuel (c_heap st) → 0 < n <= SLOB_MAX_ALLOC →
  slob_alloc fuel (c_heap st) (c_slob st) n = Done (0, h', s') →
  alloc (c_heap st) SLOB_BLOCK_SIZE = Done (0, c_heap st).
Proof.
  intros (T & (A & P & Hi & Hnf) & _) Hf Hn E.
  destruct (slob_alloc_ok fuel _ _ A _ P T n Hi Hnf Hf Hn) as [(_ & _ & Hroom)|(b & t & h1 & s1 & E1 & Hb & _)].
  - destruct (alloc_null _ A SLOB_BLOCK_SIZE (si_buddy _ _ _ _ _ _ Hi) ltac:(done)) as (k & Ek & _ & Hiff).
    assert (k = page_order) as -> by (vm_compute in Ek; by injection Ek). by apply Hiff.
  - rewrite E in E1. injection E1 as E1. unfold sizeof_slob_block in E1. lia.
Qed.

(** C4. Histories of the SLOB allocator above the buddy allocator.  After
    [init], take any sequence of allocations, frees and aligned writes of SLOB's
    clients, and of operations and aligned writes of the buddy allocator's other
    clients.  The words of a SLOB client here are those of its blocks but for
    the 20 bytes at the end of a block that fills its page: these are the header
    of the next buddy block ([block_word]), no client writes them, and nothing
    is said of what they hold; [last_block_reaches_next_header] shows what a
    write there does.  Every operation a client may do next returns and changes
    no such word of any client but the one it writes; the live blocks are
    8-aligned and meet neither each other nor the other clients' blocks; [alloc]
    of a size it serves fails only when the buddy allocator has no page left;
    and when all blocks have been freed, one page at most is left and its free
    list is one block: no byte is lost.  The fuel is one round per page of the
    region, and 256 for a free list. *)
Theorem slob_history_spec fuel h0 O h1 s1 st :
  buddy_ok h0 O → zend h0 + sizeof_buddy_block < 2 ^ 32 → fuel_ok fuel h0 →
  slob_init h0 = Done (h1, s1) → rtc (slob_step fuel) (mk_client h1 s1 ∅ O) st →
  (∀ r, slob_allowed st r → ∃ st', run_slob fuel r st = Done st' ∧ kept r st st') ∧
  separate st ∧
  (∀ n h' s', 0 < n <= SLOB_MAX_ALLOC → slob_alloc fuel (c_heap st) (c_slob st) n = Done (0, h', s') →
     alloc (c_heap st) SLOB_BLOCK_SIZE = Done (0, c_heap st)) ∧
  (c_live st = ∅ → all_free st).
Proof.
  intros Hok Htop Hfuel E Hr. destruct (slob_init_ok h0 O Hok Htop) as (h1' & s1' & E' & Hc & Hreg).
  assert (h1' = h1 ∧ s1' = s1) as [-> ->] by (split; congruence).
  destruct (slob_steps_ok fuel _ _ Hr Hc) as [Hst Hf]; [by eapply fuel_ok_region|].
  split; [|split; [by apply client_ok_separate|split; [|by apply client_ok_empty]]].
  - intros r Hall. destruct (run_slob_good fuel r st Hst Hf Hall) as (st' & Es & _ & _ & Hk). by exists st'.
  - intros n h' s'. by apply client_ok_fail.
Qed.

(** ** A concrete history *)

Definition run_ops (fuel : nat) (l : list slob_op) (st : slob_client) : outcome slob_client :=
  foldl (λ r o, let* st := r in run_slob fuel o st) (Done st) l.

(** The four pages of [BuddyRun], with the allocator's first page in one of them. *)
Definition slob_start : slob_client := Eval vm_compute in
  match slob_init four_pages with Done (h, s) => mk_client h s ∅ ∅ | _ => mk_client four_pages (mk_slob 0 0 0 0 75) ∅ ∅ end.

Definition first_ptr : Z := 0x1000040.
Definition second_ptr : Z := 0x10000c0.

(** Two blocks are allocated, another client of the buddy allocator takes a
    page, both write, and the blocks are freed in the order of allocation. *)
Definition demo_ops : list slob_op :=
  [SlobAlloc 112; SlobAlloc 24; BuddyOp (Alloc 4000); SlobWrite first_ptr 77; SlobFree first_ptr; SlobFree second_ptr].

Definition slob_end : slob_client := Eval vm_compute in
  match run_ops 300 demo_ops slob_start with Done st => st | _ => slob_start end.

Lemma four_pages_ok : buddy_ok four_pages ∅.
Proof.
  destruct (init_returns ∅ 0x1000000 0x4000) as (h & E & Hok & _); [by exists 4096|done|done|by exists 4|done|].
  vm_compute in E. injection E as <-. exact Hok.
Qed.

Lemma slob_history_spec_witness :
  (∀ r, slob_allowed slob_end r → ∃ st', run_slob 300 r slob_end = Done st' ∧ kept r slob_end st') ∧
  separate slob_end ∧
  (∀ n h' s', 0 < n <= SLOB_MAX_ALLOC → slob_alloc 300 (c_heap slob_end) (c_slob slob_end) n = Done (0, h', s') →
     alloc (c_heap slob_end) SLOB_BLOCK_SIZE = Done (0, c_heap slob_end)) ∧
  (c_live slob_end = ∅ → all_free slob_end).
Proof.
  apply (slob_history_spec 300 four_pages ∅ (c_heap slob_start) (c_slob slob_start) slob_end);
    [exact four_pages_ok|done|by split|vm_compute; reflexivity|].
  eapply rtc_l; [exists (SlobAlloc 112); split; [by split|vm_compute; reflexivity]|].
  eapply rtc_l; [exists (SlobAlloc 24); split; [by split|vm_compute; reflexivity]|].
  eapply rtc_l; [exists (BuddyOp (Alloc 4000)); split; [by split|vm_compute; reflexivity]|].
  eapply rtc_l; [exists (SlobWrite first_ptr 77); split; [|vm_compute; reflexivity]|].
  { split; [by exists 0x400010|]. split; [|discriminate]. exists first_ptr, 112. split; [reflexivity|]. split; [discriminate|reflexivity]. }
  eapply rtc_l; [exists (SlobFree first_ptr); split; [right; by exists 112|vm_compute; reflexivity]|].
  eapply rtc_l; [exists (SlobFree second_ptr); split; [right; by exists 24|vm_compute; reflexivity]|].
  apply rtc_refl.
Defined.

(** The history above ends with all SLOB blocks freed, the other client's page
    still there. *)
Example demo_ends : c_live slob_end = ∅ ∧ map_to_list (c_others slob_end) = [(0x1001000, 0)].
Proof. by split; vm_compute. Qed.

(** The bytes the theorem keeps clients away from are theirs: when a page is
    filled, the last block runs over the magic number of the next buddy block,
    and when its client writes there the other client's [free] is refused. *)
Definition filled : slob_client := Eval vm_compute in
  match run_ops 300 (BuddyOp (Alloc 4000) :: repeat (SlobAlloc 512) 7 ++ [SlobAlloc 352]) slob_start with
  | Done st => st | _ => slob_start end.

Example last_block_reaches_next_header :
  (∃ p n, c_live filled !! p = Some n ∧ p <= 0x1001000 + bb_magic < p + n) ∧
  c_others filled !! 0x1001000 = Some 0 ∧
  let h := hstore (c_heap filled) (0x1001000 + bb_magic) 0 in
  free h (0x1001000 + sizeof_buddy_block) = Done h.
Proof.
  split; [|split; vm_compute; reflexivity].
  exists 0x1000eb0, 352. split; [reflexivity|]. split; [discriminate|reflexivity].
Qed.
