(* ===== verification/Slub.v ===== *)
(** The SLUB allocator: [src/src/kernel/runtime/slub.h] and [slub.cc].

    Caches, pages and objects are structures in the kernel heap; the static
    fields of [SLUBAllocator] are the record [slub].  As in [Slab], a call of
    a constructor or destructor is the section variable [call]. *)

From Stdlib Require Import ZArith Lia.
From stdpp Require Import base list gmap option.
From S2P Require Import Prelude Memory DList Buddy Strings.

Definition PAGE_SIZE : Z := 4096.
Definition SLUB_MAGIC : Z := 0x51B41234.
Definition SLUB_MAX_CPUS : Z := 32.
Definition SLUB_ALIGN : Z := 16.
Definition SLUB_MIN_OBJECTS : Z := 16.
Definition SLUB_BATCH_SIZE : Z := 16.
Definition SLUB_MAX_ORDER : Z := 3.
Definition SLUB_CACHE_PERCPU : Z := 1.

(** [struct slub_object] *)
Definition uo_next : Z := 0.
Definition uo_magic : Z := 4.
Definition sizeof_slub_object : Z := 8.

(** [struct slub_page] *)
Definition up_base : Z := 0.
Definition up_freelist : Z := 4.
Definition up_inuse : Z := 8.
Definition up_objects : Z := 12.
Definition up_order : Z := 16.
Definition up_next : Z := 20.
Definition up_cache : Z := 24.
Definition up_frozen : Z := 28.
Definition sizeof_slub_page : Z := 32.

(** [struct slub_cpu_cache] *)
Definition cc_freelist : Z := 0.
Definition cc_page : Z := 4.
Definition cc_count : Z := 8.
Definition cc_limit : Z := 12.
Definition cc_batch : Z := 16.
Definition sizeof_slub_cpu_cache : Z := 80.

(** [struct slub_cache] *)
Definition uc_next : Z := 0.
Definition uc_name : Z := 4.
Definition uc_size : Z := 36.
Definition uc_objsize : Z := 40.
Definition uc_align : Z := 44.
Definition uc_flags : Z := 48.
Definition uc_per_page : Z := 52.
Definition uc_order : Z := 56.
Definition uc_cpus : Z := 60.
Definition uc_partial : Z := 2620.
Definition uc_full : Z := 2624.
Definition uc_total_pages : Z := 2628.
Definition uc_active : Z := 2632.
Definition uc_total_objects : Z := 2636.
Definition uc_allocations : Z := 2640.
Definition uc_frees : Z := 2644.
Definition uc_hits : Z := 2648.
Definition uc_misses : Z := 2652.
Definition uc_ctor : Z := 2656.
Definition uc_dtor : Z := 2660.
Definition sizeof_slub_cache : Z := 2664.

Record slub := mk_slub {
  cache_chain : Z;
  size_caches : list Z;
  current_cpu : Z;
}.

Definition slub_cache_sizes : list Z :=
  [16; 32; 64; 96; 128; 192; 256; 384; 512; 768; 1024; 1536; 2048; 3072; 4096; 8192].

Definition inc (h : heap) (a d : Z) : heap := hstore h a (u32 (hload h a + d)).

(** [for (order = 1; order <= 3; order++) if ((PAGE_SIZE << order) / size >= 16) return order;] *)
Definition order_step (size order : Z) : outcome (Z + Z) :=
  if negb (order <=? SLUB_MAX_ORDER) then Done (inr SLUB_MAX_ORDER)
  else
    let page_size := u32 (Z.shiftl PAGE_SIZE order) in
    Done (if SLUB_MIN_OBJECTS <=? page_size / size then inr order else inl (order + 1)).

Definition calculate_order (size : Z) : outcome Z :=
  if size =? 0 then Stuck
  else if SLUB_MIN_OBJECTS <=? PAGE_SIZE / size then Done 0
  else loop 4 (order_step size) 1.

Definition calculate_objects_per_page (obj_size order : Z) : outcome Z :=
  if obj_size =? 0 then Stuck else Done (u32 (Z.shiftl PAGE_SIZE order) / obj_size).

(** ** Lists of pages *)

Definition add_page_to_list (h : heap) (list page : Z) : heap :=
  let h := hstore h (page + up_next) (hload h list) in
  hstore h list page.

Definition remove_page_from_list (fuel : nat) (h : heap) (list page : Z) : outcome heap :=
  if hload h list =? page then Done (hstore h list (hload h (page + up_next)))
  else
    let* current := while fuel
      (fun c => negb (c =? 0) && negb (hload h (c + up_next) =? page))
      (fun c => hload h (c + up_next)) (hload h list) in
    Done (if negb (current =? 0) then hstore h (current + up_next) (hload h (page + up_next)) else h).

(** ** Objects of one page *)

Definition init_page_objects (h : heap) (cache page : Z) : heap :=
  let '(h, _, prev) := for_ (hload h (page + up_objects))
    (fun _ '(h, obj, prev) =>
       let h := hstore h (obj + uo_magic) 0 in
       let h := hstore h (obj + uo_next) prev in
       (h, u32 (obj + hload h (cache + uc_size)), obj)) (h, hload h (page + up_base), 0) in
  hstore h (page + up_freelist) prev.

Definition alloc_from_page (h : heap) (page : Z) : Z * heap :=
  let obj := hload h (page + up_freelist) in
  if obj =? 0 then (0, h)
  else
    let h := hstore h (page + up_freelist) (hload h (obj + uo_next)) in
    let h := inc h (page + up_inuse) 1 in
    let h := hstore h (obj + uo_magic) SLUB_MAGIC in
    (obj, hstore h (obj + uo_next) 0).

Definition free_to_page (h : heap) (page obj : Z) : heap :=
  let h := hstore h (obj + uo_magic) 0 in
  let h := hstore h (obj + uo_next) (hload h (page + up_freelist)) in
  let h := hstore h (page + up_freelist) obj in
  inc h (page + up_inuse) (-1).

(** ** Pages of a cache *)

Definition alloc_slub_page (h : heap) (cache : Z) : outcome (Z * heap) :=
  let* (page_mem, h) := alloc h (u32 (Z.shiftl PAGE_SIZE (hload h (cache + uc_order)))) in
  if page_mem =? 0 then Done (0, h)
  else
    let* (page, h) := alloc h sizeof_slub_page in
    if page =? 0 then let* h := free h page_mem in Done (0, h)
    else
      let h := hstore h (page + up_base) page_mem in
      let h := hstore h (page + up_objects) (hload h (cache + uc_per_page)) in
      let h := hstore h (page + up_inuse) 0 in
      let h := hstore h (page + up_order) (hload h (cache + uc_order)) in
      let h := hstore h (page + up_cache) cache in
      let h := hstore h (page + up_frozen) 0 in
      let h := hstore h (page + up_next) 0 in
      let h := init_page_objects h cache page in
      let h := add_page_to_list h (cache + uc_partial) page in
      let h := inc h (cache + uc_total_pages) 1 in
      let h := inc h (cache + uc_total_objects) (hload h (page + up_objects)) in
      Done (page, h).

Definition free_slub_page (h : heap) (cache page : Z) : outcome heap :=
  let h := inc h (cache + uc_total_pages) (-1) in
  let h := inc h (cache + uc_total_objects) (- hload h (page + up_objects)) in
  let* h := free h (hload h (page + up_base)) in
  free h page.

(** A page whose last object was handed out moves to the full list. *)
Definition move_if_full (fuel : nat) (h : heap) (cache page : Z) : outcome heap :=
  if hload h (page + up_inuse) =? hload h (page + up_objects) then
    let* h := remove_page_from_list fuel h (cache + uc_partial) page in
    Done (add_page_to_list h (cache + uc_full) page)
  else Done h.

(** [(PAGE_SIZE << p->order)] bytes from [p->page_base]. *)
Definition in_page (h : heap) (page obj : Z) : bool :=
  (hload h (page + up_base) <=? obj) &&
  (obj <? u32 (hload h (page + up_base) + u32 (Z.shiftl PAGE_SIZE (hload h (page + up_order))))).

Definition find_slub_page (fuel : nat) (h : heap) (head obj : Z) : outcome Z :=
  loop fuel
    (fun p => if p =? 0 then Done (inr 0)
              else Done (if in_page h p obj then inr p else inl (hload h (p + up_next)))) head.

(** ** Per-CPU caches *)

Definition cpu_of (s : slub) : Z := if SLUB_MAX_CPUS <=? current_cpu s then 0 else current_cpu s.

Definition cpu_cache (cache cpu : Z) : Z := cache + uc_cpus + cpu * sizeof_slub_cpu_cache.

(** [batch_objects[--batch_count]] *)
Definition pop_batch (h : heap) (cc : Z) : Z * heap :=
  let h := inc h (cc + cc_count) (-1) in
  (hload h (cc + cc_batch + 4 * hload h (cc + cc_count)), h).

(** [batch_objects[batch_count++] = obj] *)
Definition push_batch (h : heap) (cc obj : Z) : heap :=
  let n := hload h (cc + cc_count) in
  let h := inc h (cc + cc_count) 1 in
  hstore h (cc + cc_batch + 4 * n) obj.

Definition refill_cpu_cache (fuel : nat) (h : heap) (cache cc : Z) : outcome heap :=
  loop fuel
    (fun '(h, i) =>
       if negb (i <? hload h (cc + cc_limit)) then Done (inr h)
       else
         let page := hload h (cache + uc_partial) in
         let* (page, h) := if page =? 0 then alloc_slub_page h cache else Done (page, h) in
         if page =? 0 then Done (inr h)
         else
           let (obj, h) := alloc_from_page h page in
           let* h := if negb (obj =? 0) then
                       let h := push_batch h cc obj in
                       let h := inc h (cache + uc_active) 1 in
                       move_if_full fuel h cache page
                     else Done h in
           Done (inl (h, i + 1))) (h, 0).

Definition cpu_cache_alloc (fuel : nat) (h : heap) (s : slub) (cache : Z) : outcome (Z * heap) :=
  let cc := cpu_cache cache (cpu_of s) in
  if 0 <? hload h (cc + cc_count) then Done (pop_batch h cc)
  else
    let obj := hload h (cc + cc_freelist) in
    if negb (obj =? 0) then Done (obj, hstore h (cc + cc_freelist) (hload h (obj + uo_next)))
    else
      let* h := refill_cpu_cache fuel h cache cc in
      Done (if 0 <? hload h (cc + cc_count) then pop_batch h cc else (0, h)).

Definition cpu_cache_free (h : heap) (s : slub) (cache obj : Z) : heap :=
  let cc := cpu_cache cache (cpu_of s) in
  if hload h (cc + cc_count) <? SLUB_BATCH_SIZE then push_batch h cc obj
  else
    let h := hstore h (obj + uo_next) (hload h (cc + cc_freelist)) in
    hstore h (cc + cc_freelist) obj.

Section Client.
(** Calling the function at a pointer on an object. *)
Variable call : Z → Z → heap → outcome heap.

Definition construct (h : heap) (f obj : Z) : outcome heap :=
  if negb (hload h f =? 0) then call (hload h f) obj h else Done h.

Definition cache_alloc (fuel : nat) (h : heap) (s : slub) (cache : Z) : outcome (Z * heap) :=
  if cache =? 0 then Done (0, h)
  else
    let* (obj, h) :=
      if has_flag (hload h (cache + uc_flags)) SLUB_CACHE_PERCPU
      then cpu_cache_alloc fuel h s cache else Done (0, h) in
    if negb (obj =? 0) then
      let h := inc h (cache + uc_hits) 1 in
      let h := inc h (cache + uc_allocations) 1 in
      let* h := construct h (cache + uc_ctor) obj in
      Done (obj, h)
    else
      let h := if has_flag (hload h (cache + uc_flags)) SLUB_CACHE_PERCPU
               then inc h (cache + uc_misses) 1 else h in
      let page := hload h (cache + uc_partial) in
      let* (page, h) := if page =? 0 then alloc_slub_page h cache else Done (page, h) in
      if page =? 0 then Done (0, h)
      else
        let (obj, h) := alloc_from_page h page in
        if obj =? 0 then Done (0, h)
        else
          let h := inc h (cache + uc_allocations) 1 in
          let h := inc h (cache + uc_active) 1 in
          let* h := move_if_full fuel h cache page in
          let* h := construct h (cache + uc_ctor) obj in
          Done (obj, h).

(** [free_to_page] and the moves between the lists it can cause. *)
Definition page_free (fuel : nat) (h : heap) (cache page obj : Z) : outcome heap :=
  let was_full := hload h (page + up_inuse) =? hload h (page + up_objects) in
  let h := free_to_page h page obj in
  let h := inc h (cache + uc_frees) 1 in
  let h := inc h (cache + uc_active) (-1) in
  let* h := if was_full && (hload h (page + up_inuse) <? hload h (page + up_objects)) then
              let* h := remove_page_from_list fuel h (cache + uc_full) page in
              Done (add_page_to_list h (cache + uc_partial) page)
            else Done h in
  if (hload h (page + up_inuse) =? 0) && (1 <? hload h (cache + uc_total_pages)) then
    let* h := remove_page_from_list fuel h (cache + uc_partial) page in
    free_slub_page h cache page
  else Done h.

Definition cache_free (fuel : nat) (h : heap) (s : slub) (cache obj : Z) : outcome heap :=
  if (cache =? 0) || (obj =? 0) then Done h
  else if negb (hload h (obj + uo_magic) =? SLUB_MAGIC) then Done h
  else
    let* h := construct h (cache + uc_dtor) obj in
    if has_flag (hload h (cache + uc_flags)) SLUB_CACHE_PERCPU
    then Done (inc (cpu_cache_free h s cache obj) (cache + uc_frees) 1)
    else
      let* page := find_slub_page fuel h (hload h (cache + uc_full)) obj in
      let* page := if page =? 0 then find_slub_page fuel h (hload h (cache + uc_partial)) obj
                   else Done page in
      if page =? 0 then Done h else page_free fuel h cache page obj.

Definition find_size_cache (s : slub) (size : Z) : Z :=
  match list_find (fun x => size <= x) slub_cache_sizes with
  | Some (i, _) => zget 0 (size_caches s) (Z.of_nat i)
  | None => 0
  end.

Definition slub_alloc (fuel : nat) (h : heap) (s : slub) (size : Z) : outcome (Z * heap) :=
  if size =? 0 then Done (0, h)
  else
    let cache := find_size_cache s size in
    if cache =? 0 then alloc h size else cache_alloc fuel h s cache.

Definition slub_free (fuel : nat) (h : heap) (s : slub) (obj : Z) : outcome heap :=
  if obj =? 0 then Done h
  else
    loop fuel
      (fun cache =>
         if cache =? 0 then let* h := free h obj in Done (inr h)
         else
           let* p := find_slub_page fuel h (hload h (cache + uc_partial)) obj in
           let* p := if p =? 0 then find_slub_page fuel h (hload h (cache + uc_full)) obj else Done p in
           if negb (p =? 0) then let* h := cache_free fuel h s cache obj in Done (inr h)
           else Done (inl (hload h (cache + uc_next)))) (cache_chain s).

(** Both loops of [drain_cpu_cache]. *)
Definition drain_batch (fuel : nat) (h : heap) (s : slub) (cache cc : Z) : outcome heap :=
  loop fuel
    (fun h =>
       if negb (0 <? hload h (cc + cc_count)) then Done (inr h)
       else
         let (obj, h) := pop_batch h cc in
         let* h := cache_free fuel h s cache obj in
         Done (inl h)) h.

Definition drain_cpu_cache (fuel : nat) (h : heap) (s : slub) (cache cpu : Z) : outcome heap :=
  if SLUB_MAX_CPUS <=? cpu then Done h
  else
    let cc := cpu_cache cache cpu in
    let* h := drain_batch fuel h s cache cc in
    loop fuel
      (fun h =>
         let obj := hload h (cc + cc_freelist) in
         if obj =? 0 then Done (inr h)
         else
           let h := hstore h (cc + cc_freelist) (hload h (obj + uo_next)) in
           let* h := cache_free fuel h s cache obj in
           Done (inl h)) h.

Definition flush_cpu_caches (fuel : nat) (h : heap) (s : slub) : outcome heap :=
  let* (h, _) := loop fuel
    (fun '(h, cache) =>
       if cache =? 0 then Done (inr (h, cache))
       else
         let* (h, _) := loop 33
           (fun '(h, cpu) =>
              if negb (cpu <? SLUB_MAX_CPUS) then Done (inr (h, cpu))
              else let* h := drain_cpu_cache fuel h s cache cpu in Done (inl (h, cpu + 1))) (h, 0) in
         Done (inl (h, hload h (cache + uc_next)))) (h, cache_chain s) in
  Done h.

(** Freeing every page of a list. *)
Definition free_pages (fuel : nat) (h : heap) (cache head : Z) : outcome heap :=
  let* (h, _) := loop fuel
    (fun '(h, page) =>
       if page =? 0 then Done (inr (h, page))
       else
         let next := hload h (page + up_next) in
         let* h := free_slub_page h cache page in
         Done (inl (h, next))) (h, head) in
  Done h.

Definition cache_destroy (fuel : nat) (h : heap) (s : slub) (cache : Z) : outcome (heap * slub) :=
  if cache =? 0 then Done (h, s)
  else
    let* h := flush_cpu_caches fuel h s in
    let* h := free_pages fuel h cache (hload h (cache + uc_partial)) in
    let* h := free_pages fuel h cache (hload h (cache + uc_full)) in
    let* (h, s) :=
      if cache_chain s =? cache
      then Done (h, mk_slub (hload h (cache + uc_next)) (size_caches s) (current_cpu s))
      else
        let* c := while fuel (fun c => negb (c =? 0) && negb (hload h (c + uc_next) =? cache))
                        (fun c => hload h (c + uc_next)) (cache_chain s) in
        Done (if c =? 0 then h else hstore h (c + uc_next) (hload h (cache + uc_next)), s) in
    let* h := free h cache in
    Done (h, s).
End Client.

(** Zeroing the per-CPU caches of a new cache. *)
Definition init_cpu_caches (h : heap) (cache : Z) : heap :=
  for_ SLUB_MAX_CPUS (fun i h =>
    let cc := cpu_cache cache i in
    let h := hstore h (cc + cc_freelist) 0 in
    let h := hstore h (cc + cc_page) 0 in
    let h := hstore h (cc + cc_count) 0 in
    let h := hstore h (cc + cc_limit) (SLUB_BATCH_SIZE / 2) in
    for_ SLUB_BATCH_SIZE (fun j h => hstore h (cc + cc_batch + 4 * j) 0) h) h.

(** [name] is the address of a C string; copying it is not bounded. *)
Definition cache_create (fuel : nat) (h : heap) (s : slub) (name size align flags ctor dtor : Z)
    : outcome (Z * heap * slub) :=
  let* (cache, h) := alloc h sizeof_slub_cache in
  if cache =? 0 then Done (0, h, s)
  else
    let* (_, m) := strcpy fuel (hmem h) (cache + uc_name) name in
    let h := set_mem h m in
    let h := hstore h (cache + uc_objsize) size in
    let sz := Z.land (u32 (size + align - 1)) (u32 (Z.lnot (align - 1))) in
    let sz := if sz <? sizeof_slub_object then sizeof_slub_object else sz in
    let h := hstore h (cache + uc_size) sz in
    let h := hstore h (cache + uc_align) align in
    let h := hstore h (cache + uc_flags) flags in
    let* order := calculate_order sz in
    let h := hstore h (cache + uc_order) order in
    let* n := calculate_objects_per_page sz order in
    let h := hstore h (cache + uc_per_page) n in
    let h := hstore h (cache + uc_partial) 0 in
    let h := hstore h (cache + uc_full) 0 in
    let h := hstore h (cache + uc_total_pages) 0 in
    let h := hstore h (cache + uc_active) 0 in
    let h := hstore h (cache + uc_total_objects) 0 in
    let h := hstore h (cache + uc_allocations) 0 in
    let h := hstore h (cache + uc_frees) 0 in
    let h := hstore h (cache + uc_hits) 0 in
    let h := hstore h (cache + uc_misses) 0 in
    let h := hstore h (cache + uc_ctor) ctor in
    let h := hstore h (cache + uc_dtor) dtor in
    let h := init_cpu_caches h cache in
    let h := hstore h (cache + uc_next) (cache_chain s) in
    Done (cache, h, mk_slub cache (size_caches s) (current_cpu s)).

(** The name of the cache for [size], built in the stack array at
    [cache_name].  [slub.cc] declares [itoa(value, str, base)] and calls it
    so, but the function it links with is [itoa(buf, n, base)] of [itoa.cc]. *)
Definition slub_name (h : heap) (cache_name size : Z) : outcome heap :=
  let* m := itoa (hmem h) size (cache_name + 5) 10 in
  let m := store8 m cache_name 115 in
  let m := store8 m (cache_name + 1) 108 in
  let m := store8 m (cache_name + 2) 117 in
  let m := store8 m (cache_name + 3) 98 in
  Done (set_mem h (store8 m (cache_name + 4) 45)).

Definition slub_init (fuel : nat) (h : heap) (cache_name : Z) : outcome (heap * slub) :=
  let* (_, h, s) := loop 17
    (fun '(i, h, s) =>
       if negb (i <? 16) then Done (inr (i, h, s))
       else
         let size := zget 0 slub_cache_sizes i in
         let* h := slub_name h cache_name size in
         let* (c, h, s) := cache_create fuel h s cache_name size SLUB_ALIGN SLUB_CACHE_PERCPU 0 0 in
         Done (inl (i + 1, h, mk_slub (cache_chain s) (zset (size_caches s) i c) (current_cpu s))))
    (0, h, mk_slub 0 (replicate 16 0) 0) in
  Done (h, s).
