(* ===== verification/SlubSpec.v ===== *)
(** What the SLUB allocator's parts do: the order of a cache's pages, the
    per-CPU caches as a stack over a list, the page lists, and the two things
    that go wrong: draining a per-CPU cache never ends, and the names of the
    size caches are written to low memory. *)

From Stdlib Require Import ZArith Lia.
From stdpp Require Import base list gmap option.
From S2P Require Import Prelude Memory DList Buddy BuddySpec Strings Slub.

(** [calculate_order] returns the least page order, at most 3, whose page
    holds 16 objects, and 3 if none does; dividing the page by the object
    size then gives objects that fit the page. *)
Theorem calculate_order_spec size :
  0 < size →
  ∃ k n, calculate_order size = Done k ∧ 0 <= k <= SLUB_MAX_ORDER ∧
    (∀ j, 0 <= j < k → PAGE_SIZE * 2 ^ j / size < SLUB_MIN_OBJECTS) ∧
    (k < SLUB_MAX_ORDER → SLUB_MIN_OBJECTS <= PAGE_SIZE * 2 ^ k / size) ∧
    calculate_objects_per_page size k = Done n ∧ n * size <= PAGE_SIZE * 2 ^ k.
Proof.
  intros Hs. unfold calculate_order, calculate_objects_per_page.
  rewrite (proj2 (Z.eqb_neq size 0)) by lia.
  assert (∀ j, j = 0 ∨ j = 1 ∨ j = 2 ∨ j = 3 → u32 (Z.shiftl PAGE_SIZE j) = PAGE_SIZE * 2 ^ j) as Hsh.
  { intros j [->|[->|[->| ->]]]; reflexivity. }
  assert (∀ k, 0 <= k <= 3 → u32 (Z.shiftl PAGE_SIZE k) / size * size <= PAGE_SIZE * 2 ^ k) as Hfit.
  { intros k Hk. rewrite Hsh by lia. rewrite Z.mul_comm. apply Z.mul_div_le. lia. }
  assert (∀ j, 0 <= j < 3 → j = 0 ∨ j = 1 ∨ j = 2) as Hj by lia.
  change (PAGE_SIZE / size) with (PAGE_SIZE * 2 ^ 0 / size).
  assert (∀ f order, order = 1 ∨ order = 2 ∨ order = 3 → loop (S f) (order_step size) order =
    if SLUB_MIN_OBJECTS <=? PAGE_SIZE * 2 ^ order / size then Done order else loop f (order_step size) (order + 1)) as Hstep.
  { intros f order Ho. cbn [loop]. unfold order_step at 1. rewrite Hsh by auto. unfold SLUB_MAX_ORDER.
    rewrite (proj2 (Z.leb_le order 3)) by lia. cbn [negb obind]. by case_if. }
  assert (loop 1 (order_step size) 4 = Done 3) as Hend by done.
  rewrite (Hstep 3%nat 1), (Hstep 2%nat (1 + 1)), (Hstep 1%nat (1 + 1 + 1)) by auto.
  change (1 + 1 + 1 + 1) with 4. rewrite Hend. change (1 + 1) with 2. change (2 + 1) with 3.
  unfold SLUB_MAX_ORDER.
  destruct (Z.leb_spec SLUB_MIN_OBJECTS (PAGE_SIZE * 2 ^ 0 / size)) as [H0|H0].
  { exists 0. eexists. split; [done|]. split; [lia|]. split; [lia|]. split; [done|]. split; [done|]. apply Hfit; lia. }
  destruct (Z.leb_spec SLUB_MIN_OBJECTS (PAGE_SIZE * 2 ^ 1 / size)) as [H1|H1]; cbn [obind].
  { exists 1. eexists. split; [done|]. split; [lia|]. split; [intros j ?; assert (j = 0) as -> by lia; done|].
    split; [done|]. split; [done|]. apply Hfit; lia. }
  destruct (Z.leb_spec SLUB_MIN_OBJECTS (PAGE_SIZE * 2 ^ 2 / size)) as [H2|H2]; cbn [obind].
  { exists 2. eexists. split; [done|]. split; [lia|].
    split; [intros j ?; assert (j = 0 ∨ j = 1) as [-> | ->] by lia; done|].
    split; [done|]. split; [done|]. apply Hfit; lia. }
  destruct (Z.leb_spec SLUB_MIN_OBJECTS (PAGE_SIZE * 2 ^ 3 / size)) as [H3|H3]; cbn [obind];
    (exists 3; eexists; split; [done|]; split; [lia|];
     split; [intros j Hj3; destruct (Hj j ltac:(lia)) as [-> | [-> | ->]]; done|];
     split; [lia|]; split; [done|]; apply Hfit; lia).
Qed.

Lemma calculate_order_spec_witness :
  ∃ k n, calculate_order 384 = Done k ∧ 0 <= k <= SLUB_MAX_ORDER ∧
    (∀ j, 0 <= j < k → PAGE_SIZE * 2 ^ j / 384 < SLUB_MIN_OBJECTS) ∧
    (k < SLUB_MAX_ORDER → SLUB_MIN_OBJECTS <= PAGE_SIZE * 2 ^ k / 384) ∧
    calculate_objects_per_page 384 k = Done n ∧ n * 384 <= PAGE_SIZE * 2 ^ k.
Proof. apply (calculate_order_spec 384). lia. Defined.

(** ** The per-CPU cache: a bounded stack over a list *)

(** [cpu_rep h cc b f]: the batch is [b], top first, and the overflow list [f]. *)
Record cpu_rep (h : heap) (cc : Z) (b f : list Z) : Prop := {
  cr_count : hload h (cc + cc_count) = zlen b;
  cr_bound : zlen b <= SLUB_BATCH_SIZE;
  cr_batch : ∀ i o, b !! i = Some o → hload h (cc + cc_batch + 4 * (zlen b - 1 - Z.of_nat i)) = o;
  cr_list : slist uo_next (hmem h) (hload h (cc + cc_freelist)) f;
  cr_apart : ∀ o, o ∈ f → o + uo_next < cc ∨ cc + sizeof_slub_cpu_cache <= o + uo_next;
}.

(** What the two operations do to the pair. *)
Definition cpu_put (o : Z) (bf : list Z * list Z) : list Z * list Z :=
  let '(b, f) := bf in if zlen b <? SLUB_BATCH_SIZE then (o :: b, f) else (b, o :: f).

Definition cpu_get (bf : list Z * list Z) : option (Z * (list Z * list Z)) :=
  match bf with
  | (o :: b, f) => Some (o, (b, f))
  | ([], o :: f) => Some (o, ([], f))
  | ([], []) => None
  end.

Lemma pop_batch_spec h cc o b f :
  cpu_rep h cc (o :: b) f → ∃ h', pop_batch h cc = (o, h') ∧ cpu_rep h' cc b f.
Proof.
  intros [Hc Hb Hbat Hl Ha]. rewrite zlen_cons in *. pose proof (zlen_nonneg b).
  unfold SLUB_BATCH_SIZE in *.
  unfold pop_batch. assert (hload (inc h (cc + cc_count) (-1)) (cc + cc_count) = zlen b) as E.
  { unfold inc, hload at 1. cbn [hstore set_mem hmem]. rewrite load_store_eq, Hc, u32_small; lia. }
  rewrite E. specialize (Hbat 0%nat o eq_refl) as Ho.
  assert (∀ a, a ≠ cc + cc_count → hload (inc h (cc + cc_count) (-1)) a = hload h a) as Hfr.
  { intros a Hne. unfold inc, hload at 1. cbn [hstore set_mem hmem]. by rewrite load_store_ne. }
  eexists. split; [f_equal; rewrite Hfr by (unfold cc_batch, cc_count; lia); rewrite <- Ho; f_equal; lia|].
  split.
  - exact E.
  - unfold SLUB_BATCH_SIZE. lia.
  - intros i x Hi. specialize (Hbat (S i) x Hi). pose proof (lookup_lt_Some _ _ _ Hi).
    rewrite Hfr by (unfold cc_batch, cc_count, zlen in *; lia). rewrite <- Hbat. f_equal. lia.
  - rewrite Hfr by (unfold cc_freelist, cc_count; lia). eapply slist_frame; [|exact Hl].
    intros x Hx. apply Hfr. specialize (Ha x Hx). unfold cc_count, sizeof_slub_cpu_cache in *. lia.
  - exact Ha.
Qed.

Lemma push_batch_spec h cc o b f :
  cpu_rep h cc b f → zlen b < SLUB_BATCH_SIZE → cpu_rep (push_batch h cc o) cc (o :: b) f.
Proof.
  intros [Hc Hb Hbat Hl Ha] Hlt. pose proof (zlen_nonneg b). unfold SLUB_BATCH_SIZE in *.
  unfold push_batch. rewrite Hc. set (h' := hstore _ _ _).
  assert (hload h' (cc + cc_count) = 1 + zlen b ∧ hload h' (cc + cc_batch + 4 * zlen b) = o) as [E1 E2].
  { unfold h', inc, hload. cbn [hstore set_mem hmem]. split; [|apply load_store_eq].
    rewrite load_store_ne by (unfold cc_batch, cc_count; lia). rewrite load_store_eq. unfold hload in Hc.
    rewrite Hc, u32_small; lia. }
  assert (∀ a, a ≠ cc + cc_count → a ≠ cc + cc_batch + 4 * zlen b → hload h' a = hload h a) as Hfr.
  { intros a H1 H2. unfold h', inc, hload. cbn [hstore set_mem hmem]. by rewrite !load_store_ne. }
  split; rewrite ?zlen_cons.
  - exact E1.
  - unfold SLUB_BATCH_SIZE. lia.
  - intros [|i] x Hi; simpl in Hi.
    + injection Hi as <-. rewrite <- E2. f_equal. lia.
    + specialize (Hbat i x Hi). pose proof (lookup_lt_Some _ _ _ Hi). rewrite <- Hbat.
      rewrite Hfr by (unfold cc_batch, cc_count, zlen in *; lia). f_equal. lia.
  - rewrite Hfr by (unfold cc_freelist, cc_count, cc_batch; lia). eapply slist_frame; [|exact Hl].
    intros x Hx. specialize (Ha x Hx).
    apply Hfr; unfold cc_count, cc_batch, sizeof_slub_cpu_cache in *; lia.
  - exact Ha.
Qed.

(** C29. A per-CPU cache is a stack of at most 16 objects over a list:
    [cpu_cache_alloc] takes the top of the stack, the head of the list when
    the stack is empty (and only then asks the pages for more), and
    [cpu_cache_free] pushes on the stack, on the list when the stack is full. *)
Theorem cpu_cache_refines fuel h s cache b f o :
  let cc := cpu_cache cache (cpu_of s) in
  cpu_rep h cc b f → (∀ x, x ∈ f → x ≠ 0) → o ≠ 0 → o ∉ f →
  (o + uo_next < cc ∨ cc + sizeof_slub_cpu_cache <= o + uo_next) →
  (∃ b' f', cpu_put o (b, f) = (b', f') ∧ cpu_rep (cpu_cache_free h s cache o) cc b' f') ∧
  match cpu_get (b, f) with
  | Some (x, (b', f')) => ∃ h', cpu_cache_alloc fuel h s cache = Done (x, h') ∧ cpu_rep h' cc b' f'
  | None => hload h (cc + cc_count) = 0 ∧ hload h (cc + cc_freelist) = 0
  end.
Proof.
  intros cc Hrep Hnz Ho Hof Hoa. split.
  - unfold cpu_put, cpu_cache_free. fold cc. rewrite (cr_count _ _ _ _ Hrep).
    destruct (Z.ltb_spec (zlen b) SLUB_BATCH_SIZE); (eexists _, _; split; [done|]); [by apply push_batch_spec|].
    destruct Hrep as [Hc Hb Hbat Hl Ha].
    set (h' := hstore _ _ _).
    assert (∀ a, a ≠ o + uo_next → a ≠ cc + cc_freelist → hload h' a = hload h a) as Hfr.
    { intros a H1 H2. unfold h', hload. cbn [hstore set_mem hmem]. by rewrite !load_store_ne. }
    pose proof (zlen_nonneg b). unfold sizeof_slub_cpu_cache, SLUB_BATCH_SIZE in *.
    split.
    + rewrite Hfr; [done|unfold cc_count; lia|unfold cc_count, cc_freelist; lia].
    + done.
    + intros i x Hi. pose proof (lookup_lt_Some _ _ _ Hi). rewrite <- (Hbat i x Hi). unfold zlen in *.
      apply Hfr; unfold cc_batch, cc_freelist; lia.
    + assert (hload h' (cc + cc_freelist) = o ∧ load (hmem h') (o + uo_next) = hload h (cc + cc_freelist)) as [E1 E2].
      { unfold h', hload. cbn [hstore set_mem hmem]. split; [apply load_store_eq|].
        rewrite load_store_ne by (unfold cc_freelist; lia). apply load_store_eq. }
      rewrite E1. split; [done|]. split; [done|]. rewrite E2. eapply slist_frame; [|exact Hl].
      intros x Hx. specialize (Ha x Hx). apply Hfr; [|unfold cc_freelist; lia].
      intros E. assert (x = o) as -> by lia. done.
    + intros x [->|Hx]%elem_of_cons; [done|by apply Ha].
  - unfold cpu_cache_alloc. fold cc. rewrite (cr_count _ _ _ _ Hrep).
    destruct b as [|x b]; cbn [cpu_get].
    + destruct f as [|x f].
      * split; [done|apply (cr_list _ _ _ _ Hrep)].
      * destruct Hrep as [Hc Hb Hbat (Hx & Hx0 & Hl) Ha]. simpl. rewrite Hx, (proj2 (Z.eqb_neq x 0) Hx0).
        cbn [negb]. eexists. split; [done|]. set (h' := hstore _ _ _).
        assert (∀ a, a ≠ cc + cc_freelist → hload h' a = hload h a) as Hfr.
        { intros a H1. unfold h', hload. cbn [hstore set_mem hmem]. by rewrite !load_store_ne. }
        split.
        -- rewrite Hfr by (unfold cc_count, cc_freelist; lia). done.
        -- done.
        -- by intros i y.
        -- assert (hload h' (cc + cc_freelist) = load (hmem h) (x + uo_next)) as ->.
           { unfold h', hload. cbn [hstore set_mem hmem]. apply load_store_eq. }
           eapply slist_frame; [|exact Hl]. intros y Hy. apply Hfr. specialize (Ha y ltac:(by right)).
           unfold cc_freelist, sizeof_slub_cpu_cache in *. lia.
        -- intros y Hy. apply Ha. by right.
    + rewrite zlen_cons. pose proof (zlen_nonneg b). rewrite (proj2 (Z.ltb_lt 0 (1 + zlen b))) by lia.
      destruct (pop_batch_spec _ _ _ _ _ Hrep) as (h' & -> & Hrep'). by exists h'.
Qed.

(** A cache at 0x1000 whose CPU 0 has the object 0x5000 in its batch. *)
Definition demo_cpu : heap :=
  mk_heap (list_to_map [(cpu_cache 0x1000 0 + cc_count, 1); (cpu_cache 0x1000 0 + cc_batch, 0x5000);
    (0x1000 + uc_flags, SLUB_CACHE_PERCPU); (0x5000 + uo_magic, SLUB_MAGIC)]) (mk_zone [] [] 0 0 0 0).
Definition demo_slub : slub := mk_slub 0x1000 [] 0.

Lemma demo_cpu_rep : cpu_rep demo_cpu (cpu_cache 0x1000 0) [0x5000] [].
Proof.
  split; try done.
  - intros [|i] o Hi; [by injection Hi as <-|by destruct i].
  - by intros o ?%not_elem_of_nil.
Qed.

Lemma cpu_cache_refines_witness :
  (∃ b' f', cpu_put 0x6000 ([0x5000], []) = (b', f') ∧
     cpu_rep (cpu_cache_free demo_cpu demo_slub 0x1000 0x6000) (cpu_cache 0x1000 (cpu_of demo_slub)) b' f') ∧
  ∃ h', cpu_cache_alloc 5 demo_cpu demo_slub 0x1000 = Done (0x5000, h') ∧
     cpu_rep h' (cpu_cache 0x1000 (cpu_of demo_slub)) [] [].
Proof.
  apply (cpu_cache_refines 5 demo_cpu demo_slub 0x1000 [0x5000] [] 0x6000);
    [exact demo_cpu_rep|by intros x ?%not_elem_of_nil|done|by intros ?%not_elem_of_nil|by right].
Defined.

(** ** Draining a per-CPU cache *)

(** The state the drain loop comes back to: the batch has [n] objects, the
    top one, [o], is marked, and the cache is a per-CPU cache without
    destructor. *)
Record draining (h : heap) (s : slub) (cache n o : Z) : Prop := {
  dr_count : hload h (cpu_cache cache (cpu_of s) + cc_count) = n;
  dr_bound : 0 < n <= SLUB_BATCH_SIZE;
  dr_top : hload h (cpu_cache cache (cpu_of s) + cc_batch + 4 * (n - 1)) = o;
  dr_obj : o ≠ 0 ∧ hload h (o + uo_magic) = SLUB_MAGIC;
  dr_flags : has_flag (hload h (cache + uc_flags)) SLUB_CACHE_PERCPU = true;
  dr_dtor : hload h (cache + uc_dtor) = 0;
  dr_cache : 0 < cache ∧ 0 <= current_cpu s;
  dr_apart : o + uo_magic < cache ∨ cache + sizeof_slub_cache <= o + uo_magic;
}.

Lemma cpu_of_range s : 0 <= current_cpu s → 0 <= cpu_of s < SLUB_MAX_CPUS.
Proof. intros. unfold cpu_of, SLUB_MAX_CPUS. case_if; lia. Qed.

(** One round of the drain loop puts the object back where it took it. *)
Lemma drain_round call fuel h s cache n o :
  draining h s cache n o →
  ∃ h', (let (obj, h) := pop_batch h (cpu_cache cache (cpu_of s)) in
         let* h := cache_free call fuel h s cache obj in Done (inl h)) = Done (inl h' : heap + heap) ∧
    draining h' s cache n o.
Proof.
  intros [Hn Hb Ht [Ho Hm] Hfl Hd [Hc Hcpu] Ha].
  pose proof (cpu_of_range s Hcpu) as Hcr. remember (cpu_cache cache (cpu_of s)) as cc eqn:Ecc.
  assert (cache + 60 <= cc ∧ cc + 80 <= cache + 2620) as [Hcc1 Hcc2].
  { rewrite Ecc. unfold cpu_cache, uc_cpus, sizeof_slub_cpu_cache, SLUB_MAX_CPUS in *. lia. }
  unfold SLUB_BATCH_SIZE, sizeof_slub_cache in *.
  unfold cc_count, cc_batch, uc_flags, uc_dtor, uc_frees, uo_magic in *.
  unfold pop_batch. set (h1 := inc h (cc + cc_count) (-1)).
  assert (hload h1 (cc + 8) = n - 1 ∧ ∀ a, a ≠ cc + 8 → hload h1 a = hload h a) as [E1 Hf1].
  { unfold h1, inc, hload, cc_count. cbn [hstore set_mem hmem]. split.
    - rewrite load_store_eq. unfold hload in Hn. rewrite Hn. apply u32_small. lia.
    - intros a Hne. by rewrite load_store_ne. }
  unfold cc_count. rewrite E1. change cc_batch with 16. rewrite Hf1, Ht by lia.
  unfold cache_free. rewrite (proj2 (Z.eqb_neq cache 0)), (proj2 (Z.eqb_neq o 0)) by lia. cbn [orb].
  change uo_magic with 4. rewrite Hf1, Hm by lia. change (negb (SLUB_MAGIC =? SLUB_MAGIC)) with false. cbv iota.
  unfold construct. change uc_dtor with 2660. rewrite Hf1, Hd by lia. change (negb (0 =? 0)) with false.
  cbv iota. cbn [obind]. change uc_flags with 48. rewrite Hf1, Hfl by lia. cbn [obind].
  unfold cpu_cache_free. rewrite <- Ecc. unfold cc_count. rewrite E1.
  rewrite (proj2 (Z.ltb_lt (n - 1) SLUB_BATCH_SIZE)) by (unfold SLUB_BATCH_SIZE; lia).
  set (h2 := push_batch h1 cc o). set (h' := inc h2 (cache + uc_frees) 1). exists h'. split; [done|].
  assert (hload h' (cc + 8) = n ∧ hload h' (cc + 16 + 4 * (n - 1)) = o ∧
    ∀ a, a ≠ cc + 8 → a ≠ cc + 16 + 4 * (n - 1) → a ≠ cache + 2644 → hload h' a = hload h a) as (F1 & F2 & F3).
  { unfold h', h2, push_batch, inc, cc_count, cc_batch, uc_frees. rewrite E1.
    unfold hload. cbn [hstore set_mem hmem].
    split; [|split].
    - rewrite !(load_store_ne _ _ (cc + 8)) by lia. rewrite load_store_eq. replace (n - 1 + 1) with n by lia.
      apply u32_small. lia.
    - rewrite load_store_ne by lia. apply load_store_eq.
    - intros a H1 H2 H3. rewrite !load_store_ne by done. by apply Hf1. }
  split; rewrite <- ?Ecc; unfold cc_count, cc_batch, uc_flags, uc_dtor, uo_magic, SLUB_BATCH_SIZE, sizeof_slub_cache;
    [done|lia|done| | | |done|lia].
  - split; [done|]. rewrite F3 by lia. done.
  - by rewrite F3 by lia.
  - by rewrite F3 by lia.
Qed.

Lemma drain_batch_diverges call fuel0 s cache n o : ∀ fuel h,
  draining h s cache n o →
  loop fuel
      (fun h =>
         if negb (0 <? hload h (cpu_cache cache (cpu_of s) + cc_count)) then Done (inr h)
         else
           let (obj, h) := pop_batch h (cpu_cache cache (cpu_of s)) in
           let* h := cache_free call fuel0 h s cache obj in
           Done (inl h)) h = OutOfFuel.
Proof.
  intros fuel h. apply (loop_diverges (fun h => draining h s cache n o)).
  intros h1 Hd. rewrite (dr_count _ _ _ _ _ Hd). pose proof (dr_bound _ _ _ _ _ Hd).
  rewrite (proj2 (Z.ltb_lt 0 n)) by lia. cbn [negb].
  destruct (drain_round call fuel0 _ _ _ _ _ Hd) as (h' & E & Hd'). by exists h'.
Qed.

(** Draining a per-CPU cache that holds an object never ends: the loop
    frees the object to the very cache it is draining.  So does every
    operation that flushes the per-CPU caches: [cache_destroy] of any cache
    runs out of every amount of fuel when the first cache of the chain has
    an object in its CPU's batch. *)
Theorem cache_destroy_diverges call fuel h s cache n o :
  draining h s (cache_chain s) n o → current_cpu s = 0 → cache ≠ 0 →
  cache_destroy call fuel h s cache = OutOfFuel.
Proof.
  intros Hd Hcpu Hc. unfold cache_destroy. rewrite (proj2 (Z.eqb_neq cache 0) Hc).
  unfold flush_cpu_caches. destruct fuel as [|fuel]; [done|]. cbn [loop].
  pose proof (dr_cache _ _ _ _ _ Hd) as [Hcc _].
  rewrite (proj2 (Z.eqb_neq (cache_chain s) 0)) by lia. cbn [loop].
  change (negb (0 <? SLUB_MAX_CPUS)) with false. cbv iota. unfold drain_cpu_cache.
  change (SLUB_MAX_CPUS <=? 0) with false. cbv iota. unfold drain_batch.
  assert (cpu_of s = 0) as E by (unfold cpu_of; by rewrite Hcpu).
  replace (cpu_cache (cache_chain s) 0) with (cpu_cache (cache_chain s) (cpu_of s)) by (by rewrite E).
  rewrite (drain_batch_diverges call (S fuel) s (cache_chain s) n o); [done|done].
Qed.

Lemma cache_destroy_diverges_witness :
  cache_destroy (fun _ _ h => Done h) 1000 demo_cpu demo_slub 0x1000 = OutOfFuel.
Proof.
  apply (cache_destroy_diverges (fun _ _ h => Done h) 1000 demo_cpu demo_slub 0x1000 1 0x5000);
    [split; (done || by right)|done|done].
Defined.

(** ** Page lists *)

Lemma last_elem (l : list Z) d : l ≠ [] → List.last l d ∈ l.
Proof.
  induction l as [|x l IH]; [done|]. intros _. destruct l as [|y l]; [by left|]. right. by apply IH.
Qed.

Lemma slist_unlink m p l1 x l2 :
  slist up_next m p (l1 ++ x :: l2) → NoDup (l1 ++ x :: l2) → l1 ≠ [] →
  slist up_next (store m (List.last l1 0 + up_next) (load m (x + up_next))) p (l1 ++ l2).
Proof.
  revert p. induction l1 as [|y l1 IH]; intros p Hl Hnd Hne; [done|]. cbn [app slist] in *.
  destruct Hl as (-> & Hy & Hl). split; [done|]. split; [done|].
  apply list.NoDup_cons in Hnd as [Hyn Hnd]. destruct l1 as [|z l1].
  - cbn [List.last app slist] in *. rewrite load_store_eq. destruct Hl as (_ & Hx & Hl).
    eapply slist_frame; [|exact Hl]. intros w Hw. apply load_store_ne.
    intros E. apply Hyn. right. by assert (y = w) as -> by lia.
  - change (List.last (y :: z :: l1) 0) with (List.last (z :: l1) 0).
    assert (List.last (z :: l1) 0 ∈ z :: l1) as Hin by by apply last_elem.
    rewrite load_store_ne; [by apply IH|].
    intros E. apply Hyn. assert (List.last (z :: l1) 0 = y) as Ey by lia. rewrite <- Ey.
    apply elem_of_app. by left.
Qed.

Lemma remove_walk fuel h l1 x l2 : ∀ p,
  slist up_next (hmem h) p (l1 ++ x :: l2) → NoDup (l1 ++ x :: l2) → l1 ≠ [] → (length l1 <= fuel)%nat →
  while fuel (fun c => negb (c =? 0) && negb (hload h (c + up_next) =? x))
      (fun c => hload h (c + up_next)) p = Done (List.last l1 0).
Proof.
  unfold while. revert fuel. induction l1 as [|y l1 IH]; intros [|fuel] p Hl Hnd Hne Hf; simpl in Hf; try lia; [done..|].
  cbn [app slist loop] in *. destruct Hl as (-> & Hy & Hl). rewrite (proj2 (Z.eqb_neq y 0) Hy).
  apply list.NoDup_cons in Hnd as [Hyn Hnd]. fold (hload h (y + up_next)) in Hl.
  destruct l1 as [|z l1]; cbn [app slist] in Hl; destruct Hl as (E & Hz & Hl).
  - rewrite E, Z.eqb_refl. done.
  - assert (z ≠ x) as Hzx.
    { intros ->. apply list.NoDup_cons in Hnd as [Hn _]. apply Hn. apply elem_of_app. right. by left. }
    rewrite E, (proj2 (Z.eqb_neq z x) Hzx). cbn [negb andb obind]. apply IH; [done|done|done|simpl in *; lia].
Qed.

(** [remove_page_from_list] takes a page out of a list wherever it is:
    the other pages stay in order, and only the head cell or the link of the
    page before it changes. *)
Theorem remove_page_from_list_spec fuel h list x l1 l2 :
  slist up_next (hmem h) (hload h list) (l1 ++ x :: l2) → NoDup (l1 ++ x :: l2) →
  (∀ y, y ∈ l1 ++ x :: l2 → y + up_next ≠ list) → (length l1 <= fuel)%nat →
  ∃ h', remove_page_from_list fuel h list x = Done h' ∧
    slist up_next (hmem h') (hload h' list) (l1 ++ l2) ∧
    (∀ a, a ≠ list → (∀ y, y ∈ l1 → a ≠ y + up_next) → hload h' a = hload h a).
Proof.
  intros Hl Hnd Hlist Hf. unfold remove_page_from_list. destruct l1 as [|y l1].
  - cbn [app slist] in *. destruct Hl as (E & Hx & Hl). rewrite E, Z.eqb_refl. eexists. split; [done|].
    unfold hload. cbn [hstore set_mem hmem]. rewrite load_store_eq. split.
    + eapply slist_frame; [|exact Hl]. intros w Hw. apply load_store_ne, not_eq_sym, Hlist. by right.
    + intros a Ha _. by rewrite load_store_ne.
  - assert (hload h list = y) as E by (cbn [app slist] in Hl; tauto).
    assert (y ≠ x) as Hyx.
    { intros ->. cbn [app] in Hnd. apply list.NoDup_cons in Hnd as [Hn _]. apply Hn, elem_of_app. right. by left. }
    rewrite E in *. rewrite (proj2 (Z.eqb_neq y x) Hyx).
    rewrite (remove_walk _ _ _ _ _ _ Hl Hnd) by done. cbn [obind].
    assert (List.last (y :: l1) 0 ∈ y :: l1) as Hin by by apply last_elem.
    assert (List.last (y :: l1) 0 ≠ 0) as Hnz.
    { apply slist_nonnull in Hl. rewrite list.Forall_forall in Hl. apply Hl, elem_of_app. by left. }
    rewrite (proj2 (Z.eqb_neq _ 0) Hnz). cbn [negb]. eexists. split; [done|].
    unfold hload. cbn [hstore set_mem hmem]. split.
    + rewrite load_store_ne by (apply Hlist, elem_of_app; by left). unfold hload in E. rewrite E.
      by apply slist_unlink.
    + intros a Ha Hay. apply load_store_ne. apply not_eq_sym. by apply Hay.
Qed.

Definition demo_pages : heap :=
  mk_heap (list_to_map [(0x100, 0x1000); (0x1000 + up_next, 0x2000); (0x2000 + up_next, 0x3000)]) (mk_zone [] [] 0 0 0 0).

Lemma remove_page_from_list_spec_witness :
  ∃ h', remove_page_from_list 3 demo_pages 0x100 0x2000 = Done h' ∧
    slist up_next (hmem h') (hload h' 0x100) ([0x1000] ++ [0x3000]) ∧
    (∀ a, a ≠ 0x100 → (∀ y, y ∈ [0x1000] → a ≠ y + up_next) → hload h' a = hload demo_pages a).
Proof.
  apply (remove_page_from_list_spec 3 demo_pages 0x100 0x2000 [0x1000] [0x3000]);
    [by vm_compute|apply (bool_decide_unpack _); by vm_compute| |simpl; lia].
  intros y Hy. repeat (apply elem_of_cons in Hy as [->|Hy]; [done|]). by apply not_elem_of_nil in Hy.
Defined.

(** ** The names of the size caches *)

(** The names of the size caches are never built: [itoa] receives the
    size where it expects the buffer, so it writes the decimal digits of the
    buffer's address at the address [size] (16, 32, ... 8192), and the name
    keeps whatever the stack held behind "slub-". *)
Theorem slub_name_writes_low_memory h cache_name size :
  0 <= size → size + 33 < cache_name → cache_name + 5 < 2 ^ 32 →
  ∃ h' s, slub_name h cache_name size = Done h' ∧
    cstr (hmem h') size s ∧ parse 10 s = cache_name + 5 ∧
    bytes (hmem h') cache_name [115; 108; 117; 98; 45] ∧
    ∀ i, 5 <= i → load8 (hmem h') (cache_name + i) = load8 (hmem h) (cache_name + i).
Proof.
  intros Hs Hn Hmax. unfold slub_name.
  destruct (itoa_ok (hmem h) size (cache_name + 5) 10) as (m & s & -> & Hc & Hp & _ & _ & Hlen & Ho); [lia|lia|].
  cbn [obind]. pose proof (zlen_nonneg s). eexists _, s. split; [done|]. cbn [set_mem hmem].
  split; [|split; [done|split]].
  - do 5 (apply cstr_store8; [lia|]). done.
  - rewrite bytes_lookup. intros i c Hi.
    do 5 (destruct i as [|i]; [simpl in Hi; injection Hi as <-; rewrite ?Z.add_0_r;
      repeat (rewrite load8_store8_ne by lia); apply load8_store8_eq|]). by destruct i.
  - intros i Hi. rewrite !load8_store8_ne by lia. apply Ho. lia.
Qed.

Lemma slub_name_writes_low_memory_witness :
  ∃ h' s, slub_name demo_pages 0x9000 16 = Done h' ∧
    cstr (hmem h') 16 s ∧ parse 10 s = 0x9000 + 5 ∧
    bytes (hmem h') 0x9000 [115; 108; 117; 98; 45] ∧
    ∀ i, 5 <= i → load8 (hmem h') (0x9000 + i) = load8 (hmem demo_pages) (0x9000 + i).
Proof. apply (slub_name_writes_low_memory demo_pages 0x9000 16); lia. Defined.
