(* ===== verification/KAlloc.v ===== *)
(** The kernel's [kmalloc] and [kfree] as the rest of the kernel sees them.

    [KAlloc] is what a client of [src/src/kernel/runtime/alloc.h] uses: the
    kernel memory, and the two calls.  [KAllocLaws] is the contract a client
    relies on: which blocks are live, that a new block is fresh, that nobody
    else's bytes change.  [KBudget] is what a client relies on that needs a
    number of requests served.  [Unified.v] gives the implementation. *)

From Stdlib Require Import ZArith Lia.
From stdpp Require Import base list gmap option sets.
From S2P Require Import Prelude Memory.

Class KAlloc (K : Type) := {
  kmem : K → mem;
  with_mem : K → mem → K;
  kmalloc : K → Z → outcome (Z * K);
  kfree : K → Z → outcome K;
}.

(** The slab caches behind [slab_allocator.cache_alloc] and [cache_free]. *)
Class SlabCaches (K : Type) := {
  kcache_create : K → list Z → Z → outcome (Z * K);
  kcache_alloc : K → Z → outcome (Z * K);
  kcache_free : K → Z → Z → outcome K;
}.

Section Fields.
Context {K : Type} `{KAlloc K}.

(** A field of a structure in kernel memory: word, 64-bit and byte access. *)
Definition kload (k : K) (a : Z) : Z := load (kmem k) a.
Definition kstore (k : K) (a v : Z) : K := with_mem k (store (kmem k) a v).
Definition kload8 (k : K) (a : Z) : Z := load8 (kmem k) a.
Definition kstore8 (k : K) (a v : Z) : K := with_mem k (store8 (kmem k) a v).
End Fields.

(** The word [a] lies in a block of the list. *)
Definition in_blocks (l : list (Z * Z)) (a : Z) : Prop :=
  ∃ p n, (p, n) ∈ l ∧ p <= a < p + n.

Definition block_disjoint (p n : Z) (l : list (Z * Z)) : Prop :=
  ∀ q m, (q, m) ∈ l → p + n <= q ∨ q + m <= p.

(** The words that [k'] may have changed are not words of live blocks. *)
Definition keeps {K} `{KAlloc K} (l : list (Z * Z)) (k k' : K) : Prop :=
  ∀ a, in_blocks l a → kload k' a = kload k a.

(** [fits n]: requests of [n] bytes are served with [n] bytes of the caller's own. *)
Class KAllocLaws (K : Type) `{KAlloc K} := {
  fits : Z → Prop;
  kalloc_ok : K → list (Z * Z) → Prop;
  kmem_with k m : kmem (with_mem k m) = m;
  with_with k m m' : with_mem (with_mem k m) m' = with_mem k m';
  kmalloc_fresh k l n :
    kalloc_ok k l → fits n →
    ∃ p k', kmalloc k n = Done (p, k') ∧ keeps l k k' ∧
      (p = 0 ∧ kalloc_ok k' l ∨
       0 < p ∧ (4 | p) ∧ p + n < 2 ^ 31 ∧ block_disjoint p n l ∧ kalloc_ok k' ((p, n) :: l));
  kwrite_own k l m :
    kalloc_ok k l → (∀ a, ¬ in_blocks l a → load m a = kload k a) → kalloc_ok (with_mem k m) l;
  live_bounds k l p n :
    kalloc_ok k l → (p, n) ∈ l → 0 < p ∧ (4 | p) ∧ p + n < 2 ^ 31;
}.

(** [kfree] of a live block returns and gives the block away. *)
Class KFreeLaws (K : Type) `{KAllocLaws K} := {
  kfree_live k l1 p n l2 :
    kalloc_ok k (l1 ++ (p, n) :: l2) →
    ∃ k', kfree k p = Done k' ∧ kalloc_ok k' (l1 ++ l2) ∧ keeps (l1 ++ l2) k k';
}.

(** What a client with a bounded number of requests relies on, whatever the
    allocator is.  [affords B k L n]: in the state [k] every request of at most
    [B] bytes returns, the next [n] are not refused, and of the pointers [L]
    that were handed out the last one may be given back.  An allocator whose
    [kfree] gives nothing back can promise this as well as one that does. *)
Class KBudget (K : Type) `{KAlloc K} := {
  affords : Z → K → list Z → Z → Prop;
  affords_kmalloc B k L n size :
    affords B k L n → 0 < size <= B →
    ∃ p k', kmalloc k size = Done (p, k') ∧
      (p = 0 ∧ n <= 0 ∧ affords B k' L n ∨ p ≠ 0 ∧ affords B k' (p :: L) (n - 1));
  affords_kfree B k p L n : affords B k (p :: L) n → ∃ k', kfree k p = Done k' ∧ affords B k' L n;
}.

#[export] Instance keeps_preorder {K} `{KAlloc K} l : PreOrder (keeps l).
Proof.
  split; [by intros k a|]. intros k1 k2 k3 H1 H2 a Ha. by rewrite H2, H1.
Qed.

Section Laws.
Context {K : Type} `{KAllocLaws K}.

Lemma kload_kstore k a b v : kload (kstore k a v) b = if decide (a = b) then v else kload k b.
Proof. unfold kload, kstore. rewrite kmem_with. apply load_store. Qed.

Lemma kload_kstore_eq k a v : kload (kstore k a v) a = v.
Proof. rewrite kload_kstore. by case_decide. Qed.

Lemma kload_kstore_ne k a b v : a ≠ b → kload (kstore k a v) b = kload k b.
Proof. intros. rewrite kload_kstore. by case_decide. Qed.

Lemma kstore_own k l a v : kalloc_ok k l → in_blocks l a → kalloc_ok (kstore k a v) l.
Proof.
  intros Hok Ha. apply kwrite_own; [done|]. intros b Hb. unfold kload. rewrite load_store_ne; [done|].
  by intros ->.
Qed.

Lemma kstore_keeps k l a v : ¬ in_blocks l a → keeps l k (kstore k a v).
Proof. intros Ha b Hb. apply kload_kstore_ne. by intros ->. Qed.

End Laws.

Lemma in_blocks_cons p n l a : in_blocks ((p, n) :: l) a ↔ p <= a < p + n ∨ in_blocks l a.
Proof.
  unfold in_blocks. split.
  - intros (q & m & [[= -> ->]|Hq]%elem_of_cons & Ha); [by left|right; by exists q, m].
  - intros [Ha|(q & m & Hq & Ha)]; [exists p, n|exists q, m]; split; try done; set_solver.
Qed.

Lemma disjoint_not_in p n l a : block_disjoint p n l → p <= a < p + n → ¬ in_blocks l a.
Proof. intros Hd Ha (q & m & Hq & Hr). destruct (Hd _ _ Hq); lia. Qed.

(** Loads of the stores in the goal, by deciding each address with [lia]. *)
Ltac kmem_step :=
  match goal with
  | |- context [kload (kstore ?k ?a ?v) ?b] =>
    first
    [ rewrite (kload_kstore_ne k a b v) by lia
    | replace (kload (kstore k a v) b) with v
        by (symmetry; replace b with a by lia; apply kload_kstore_eq) ]
  end.
Ltac kmem_simpl := repeat kmem_step.
