(* ===== verification/Bump.v ===== *)
(** A second implementation of the [kmalloc] contract, for concrete runs.

    The kernel's own allocator serves a page table (4096 bytes) from a
    4096-byte block whose first 20 bytes are the block's header, so it does
    not meet the contract for that size.  This allocator only ever moves a
    pointer up, meets the contract for every size, and is what the witnesses
    of the memory manager's theorems run on.  It models no code. *)

From Stdlib Require Import ZArith Lia.
From stdpp Require Import base list gmap option.
From S2P Require Import Prelude Memory KAlloc.

Record bump := mk_bump { bmem : mem; bnext : Z }.

Definition bump_size (n : Z) : Z := (n + 3) / 4 * 4.

#[export] Instance bump_kalloc : KAlloc bump := {
  kmem := bmem;
  with_mem b m := mk_bump m (bnext b);
  kmalloc b n :=
    if bnext b + bump_size n <? 2 ^ 31 then Done (bnext b, mk_bump (bmem b) (bnext b + bump_size n))
    else Done (0, b);
  kfree b p := Done b;
}.

Definition bump_ok (b : bump) (l : list (Z * Z)) : Prop :=
  0 < bnext b ∧ (4 | bnext b) ∧ bnext b < 2 ^ 31 ∧
  ∀ p n, (p, n) ∈ l → 0 < p ∧ (4 | p) ∧ p + n <= bnext b.

Lemma bump_size_ge n : n <= bump_size n ∧ (4 | bump_size n).
Proof.
  unfold bump_size. split; [|apply Z.divide_factor_r].
  pose proof (Z.div_mod (n + 3) 4 ltac:(lia)). pose proof (Z.mod_pos_bound (n + 3) 4 ltac:(lia)). lia.
Qed.

#[export, refine] Instance bump_laws : KAllocLaws bump := { fits n := 0 < n; kalloc_ok := bump_ok }.
Proof.
  - done.
  - done.
  - intros b l n (Hb & H4 & Hm & Hl) Hn. destruct (bump_size_ge n) as [Hge H4n].
    unfold kmalloc, bump_kalloc. destruct (Z.ltb_spec (bnext b + bump_size n) (2 ^ 31)).
    + exists (bnext b), (mk_bump (bmem b) (bnext b + bump_size n)). split; [done|]. split; [done|]. right.
      do 2 (split; [done|]). split; [lia|]. split.
      { intros q m Hq. destruct (Hl _ _ Hq) as (_ & _ & ?). right. lia. }
      split; [simpl; lia|]. split; [by apply Z.divide_add_r|]. split; [done|].
      intros q m [[= -> ->]|Hq]%elem_of_cons; [simpl; split; [done|split; [done|lia]]|].
      destruct (Hl _ _ Hq) as (? & ? & ?). simpl. split; [done|split; [done|lia]].
    + exists 0, b. split; [done|]. split; [done|]. by left.
  - done.
  - intros b l p n (Hb & _ & Hm & Hl) Hp. destruct (Hl _ _ Hp) as (? & ? & ?). split; [done|split; [done|lia]].
Defined.

#[export, refine] Instance bump_free_laws : KFreeLaws bump := {}.
Proof.
  intros b l1 p n l2 (Hb & H4 & Hm & Hl). exists b. split; [done|]. split; [|done].
  do 3 (split; [done|]). intros q m Hq. apply Hl. apply elem_of_app in Hq as [?|?]; apply elem_of_app; [by left|right; by right].
Defined.

(** Slab caches that are their object size. *)
#[export] Instance bump_caches : SlabCaches bump := {
  kcache_create b name size := Done (size, b);
  kcache_alloc b cache := kmalloc b cache;
  kcache_free b cache obj := Done b;
}.
