(* ===== verification/Stack.v ===== *)
(** The stack allocator: [src/src/kernel/runtime/stack.h] and [stack.cc].

    Frames and checkpoints are structures in memory that [kmalloc] returned;
    the fields of a [StackAllocator] object are the record [stack].  The
    operations work over any kernel state with the [KAlloc] interface. *)

From Stdlib Require Import ZArith Lia.
From stdpp Require Import base list gmap option.
From coqutil Require Import Datatypes.RecordSetters.
From S2P Require Import Prelude Memory KAlloc.
Import TriangleBracketNotations.

Definition STACK_MAGIC : Z := 0x57ACF12.
Definition DEFAULT_STACK_SIZE : Z := 64 * 1024.
Definition MIN_STACK_SIZE : Z := 4096.
Definition MAX_STACK_SIZE : Z := 1024 * 1024.
Definition STACK_ALIGNMENT : Z := 16.
Definition STACK_CANARY : Z := 0xDEADBEEF.

(** [struct stack_frame] *)
Definition sf_start : Z := 0.
Definition sf_current : Z := 4.
Definition sf_end : Z := 8.
Definition sf_size : Z := 12.
Definition sf_magic : Z := 16.
Definition sf_canary : Z := 20.
Definition sf_prev : Z := 24.
Definition sf_next : Z := 28.
Definition sizeof_stack_frame : Z := 32.

(** [struct stack_checkpoint] *)
Definition cp_saved_pos : Z := 0.
Definition cp_timestamp : Z := 4.
Definition cp_prev : Z := 8.
Definition sizeof_stack_checkpoint : Z := 12.

Record stack_stats := mk_stack_stats {
  total_allocations : Z;
  peak_usage : Z;
  current_usage : Z;
  stat_frame_count : Z;
  checkpoint_count : Z;
  overflow_checks : Z;
  underflow_checks : Z;
  corruption_detected : Z;
  total_allocated_bytes : Z;
  total_freed_bytes : Z;
}.

Definition no_stack_stats : stack_stats := mk_stack_stats 0 0 0 0 0 0 0 0 0 0.

Record stack := mk_stack {
  current_frame : Z;
  frame_list : Z;
  checkpoint_stack : Z;
  stats : stack_stats;
  total_capacity : Z;
  frame_count : Z;
  overflow_detection : bool;
  underflow_detection : bool;
  initialized : bool;
}.

(** A static [StackAllocator] before [init]. *)
Definition zero_stack : stack := mk_stack 0 0 0 no_stack_stats 0 0 false false false.

(** [(size + alignment - 1) & ~(alignment - 1)]; [align_pointer] is the same on addresses. *)
Definition align_size (size alignment : Z) : Z :=
  Z.land (u32 (size + alignment - 1)) (u32 (Z.lnot (u32 (alignment - 1)))).
Definition align_pointer (ptr alignment : Z) : Z := align_size ptr alignment.

(** The inline helpers of [stack.h]. *)
Definition align_ptr (ptr alignment : Z) : Z := align_size ptr alignment.
Definition align_size_up (size alignment : Z) : Z := align_size size alignment.
Definition is_aligned (ptr alignment : Z) : bool := Z.land ptr (u32 (alignment - 1)) =? 0.

Definition enable_overflow_detection (s : stack) : stack := s <| overflow_detection := true |>.
Definition disable_overflow_detection (s : stack) : stack := s <| overflow_detection := false |>.
Definition enable_underflow_detection (s : stack) : stack := s <| underflow_detection := true |>.
Definition disable_underflow_detection (s : stack) : stack := s <| underflow_detection := false |>.

(** [n > 0 ? n - 1 : 0] *)
Definition dec_to_zero (n : Z) : Z := if 0 <? n then n - 1 else 0.

Section Ops.
Context {K : Type} `{KAlloc K}.
Variable fuel : nat.

Definition allocate_frame (k : K) (size : Z) : outcome (Z * K) :=
  let* (memory, k) := kmalloc k (u32 (sizeof_stack_frame + size)) in
  if memory =? 0 then Done (0, k)
  else
    let frame := memory in
    let k := kstore k (frame + sf_start) (u32 (memory + sizeof_stack_frame)) in
    let k := kstore k (frame + sf_current) (kload k (frame + sf_start)) in
    let k := kstore k (frame + sf_end) (u32 (kload k (frame + sf_start) + size)) in
    let k := kstore k (frame + sf_size) size in
    let k := kstore k (frame + sf_magic) STACK_MAGIC in
    let k := kstore k (frame + sf_canary) STACK_CANARY in
    let k := kstore k (frame + sf_next) 0 in
    let k := kstore k (frame + sf_prev) 0 in
    Done (frame, k).

Definition deallocate_frame (k : K) (frame : Z) : outcome K :=
  if frame =? 0 then Done k
  else
    let k := kstore k (frame + sf_magic) 0 in
    let k := kstore k (frame + sf_canary) 0 in
    kfree k frame.

Definition stack_init (k : K) (s : stack) (initial_size : Z) : outcome (K * stack) :=
  if initialized s then Done (k, s)
  else
    let initial_size := if initial_size <? MIN_STACK_SIZE then MIN_STACK_SIZE else initial_size in
    let initial_size := if MAX_STACK_SIZE <? initial_size then MAX_STACK_SIZE else initial_size in
    let* (frame, k) := allocate_frame k initial_size in
    if frame =? 0 then Done (k, s <| current_frame := 0 |>)
    else Done (k, mk_stack frame frame 0 no_stack_stats initial_size 1 true true true).

Definition destroy (k : K) (s : stack) : outcome (K * stack) :=
  if negb (initialized s) then Done (k, s)
  else
    let* k := loop fuel (fun '(k, cp) =>
      if cp =? 0 then Done (inr k)
      else
        let next := kload k (cp + cp_prev) in
        let* k := kfree k cp in
        Done (inl (k, next))) (k, checkpoint_stack s) in
    let* k := loop fuel (fun '(k, frame) =>
      if frame =? 0 then Done (inr k)
      else
        let next := kload k (frame + sf_next) in
        let* k := deallocate_frame k frame in
        Done (inl (k, next))) (k, frame_list s) in
    Done (k, mk_stack 0 0 0 (stats s) 0 0 (overflow_detection s) (underflow_detection s) false).

Definition link_frame (k : K) (s : stack) (frame : Z) : K * stack :=
  if frame =? 0 then (k, s)
  else
    let k := kstore k (frame + sf_next) 0 in
    let k := kstore k (frame + sf_prev) (current_frame s) in
    let k := if negb (current_frame s =? 0) then kstore k (current_frame s + sf_next) frame else k in
    (k, if frame_list s =? 0 then s <| frame_list := frame |> else s).

Definition unlink_frame (k : K) (s : stack) (frame : Z) : K * stack :=
  if frame =? 0 then (k, s)
  else
    let (k, s) :=
      if negb (kload k (frame + sf_prev) =? 0)
      then (kstore k (kload k (frame + sf_prev) + sf_next) (kload k (frame + sf_next)), s)
      else (k, s <| frame_list := kload k (frame + sf_next) |>) in
    let k := if negb (kload k (frame + sf_next) =? 0)
             then kstore k (kload k (frame + sf_next) + sf_prev) (kload k (frame + sf_prev)) else k in
    let k := kstore k (frame + sf_next) 0 in
    (kstore k (frame + sf_prev) 0, s).

Definition grow (k : K) (s : stack) (additional_size : Z) : outcome (bool * K * stack) :=
  if negb (initialized s) then Done (false, k, s)
  else
    let doubled := u32 (kload k (current_frame s + sf_size) * 2) in
    let new_frame_size := if additional_size <? doubled then doubled else additional_size in
    if MAX_STACK_SIZE <? u32 (total_capacity s + new_frame_size) then Done (false, k, s)
    else
      let* (new_frame, k) := allocate_frame k new_frame_size in
      if new_frame =? 0 then Done (false, k, s)
      else
        let (k, s) := link_frame k s new_frame in
        Done (true, k, s <| current_frame := new_frame |>
                         <| total_capacity := u32 (total_capacity s + new_frame_size) |>
                         <| frame_count := u32 (frame_count s + 1) |>).

Definition get_used_bytes (k : K) (s : stack) : Z :=
  if negb (initialized s) then 0
  else u32 (kload k (current_frame s + sf_current) - kload k (current_frame s + sf_start)).

Definition get_free_bytes (k : K) (s : stack) : Z :=
  if negb (initialized s) then 0
  else u32 (kload k (current_frame s + sf_end) - kload k (current_frame s + sf_current)).

Definition get_top (k : K) (s : stack) : Z :=
  if initialized s then kload k (current_frame s + sf_current) else 0.

Definition get_total_bytes (k : K) (s : stack) : Z :=
  if initialized s then kload k (current_frame s + sf_size) else 0.

Definition shrink_to_fit (k : K) (s : stack) : outcome (bool * K * stack) :=
  if negb (initialized s) || (frame_count s <=? 1) then Done (false, k, s)
  else
    let* (k, s) := loop fuel (fun '(k, s) =>
      if (1 <? frame_count s) && (get_used_bytes k s =? 0) then
        let frame := current_frame s in
        let prev_frame := kload k (frame + sf_prev) in
        if prev_frame =? 0 then Done (inr (k, s))
        else
          let (k, s) := unlink_frame k s frame in
          let s := s <| total_capacity := u32 (total_capacity s - kload k (frame + sf_size)) |> in
          let* k := deallocate_frame k frame in
          Done (inl (k, s <| current_frame := prev_frame |>
                          <| frame_count := u32 (frame_count s - 1) |>))
      else Done (inr (k, s))) (k, s) in
    Done (true, k, s).

Definition update_peak_usage (s : stack) : stack :=
  if peak_usage (stats s) <? current_usage (stats s)
  then s <| stats -> peak_usage := current_usage (stats s) |> else s.

Definition detect_corruption (s : stack) : stack :=
  s <| stats -> corruption_detected ::= fun n => u32 (n + 1) |>.

(** The room test of [alloc]: the aligned top of the current frame, if [aligned_size] bytes fit. *)
Definition room (k : K) (s : stack) (aligned_size alignment : Z) : option Z :=
  let aligned_current := align_pointer (kload k (current_frame s + sf_current)) alignment in
  if kload k (current_frame s + sf_end) <? u32 (aligned_current + aligned_size) then None
  else Some aligned_current.

(** The rest of [alloc], once the aligned block starts at [p]. *)
Definition take (k : K) (s : stack) (p aligned_size : Z) : Z * K * stack :=
  let k := kstore k (current_frame s + sf_current) (u32 (p + aligned_size)) in
  let s := s <| stats -> total_allocations ::= fun n => u32 (n + 1) |>
             <| stats -> current_usage ::= fun n => u32 (n + aligned_size) |>
             <| stats -> total_allocated_bytes ::= fun n => u64 (n + aligned_size) |> in
  let s := update_peak_usage s in
  if overflow_detection s && negb (kload k (current_frame s + sf_canary) =? STACK_CANARY)
  then (0, k, detect_corruption s)
  else (p, k, s).

Definition stack_alloc (k : K) (s : stack) (size alignment : Z) : outcome (Z * K * stack) :=
  if negb (initialized s) || (size =? 0) then Done (0, k, s)
  else
    let s := if overflow_detection s then s <| stats -> overflow_checks ::= fun n => u32 (n + 1) |>
             else s in
    let aligned_size := align_size size alignment in
    match room k s aligned_size alignment with
    | Some p => Done (take k s p aligned_size)
    | None =>
      let* (grown, k, s) := grow k s (u32 (aligned_size * 2)) in
      if negb grown then Done (0, k, s)
      else match room k s aligned_size alignment with
           | Some p => Done (take k s p aligned_size)
           | None => Done (0, k, s)
           end
    end.

Definition stack_alloc_aligned (k : K) (s : stack) (size alignment : Z) : outcome (Z * K * stack) :=
  let alignment := if (alignment =? 0) || negb (Z.land alignment (u32 (alignment - 1)) =? 0)
                   then STACK_ALIGNMENT else alignment in
  stack_alloc k s size alignment.

Definition is_valid_ptr (k : K) (s : stack) (ptr : Z) : bool :=
  if negb (initialized s) || (ptr =? 0) then false
  else (kload k (current_frame s + sf_start) <=? ptr) && (ptr <=? kload k (current_frame s + sf_current)).

Definition validate_frame (k : K) (frame : Z) : bool :=
  negb (frame =? 0) && (kload k (frame + sf_magic) =? STACK_MAGIC)
  && (kload k (frame + sf_canary) =? STACK_CANARY)
  && (kload k (frame + sf_start) <=? kload k (frame + sf_current))
  && (kload k (frame + sf_current) <=? kload k (frame + sf_end)).

Definition check_integrity (k : K) (s : stack) : bool :=
  if negb (initialized s) then false else validate_frame k (current_frame s).

Definition free_to_checkpoint (k : K) (s : stack) (checkpoint : Z) : K * stack :=
  if negb (initialized s) || (checkpoint =? 0) then (k, s)
  else
    let saved_pos := kload k (checkpoint + cp_saved_pos) in
    if negb (is_valid_ptr k s saved_pos) then (k, s)
    else
      let freed_bytes := u32 (kload k (current_frame s + sf_current) - saved_pos) in
      let k := kstore k (current_frame s + sf_current) saved_pos in
      let s := s <| stats -> current_usage ::= fun n => if freed_bytes <? n then n - freed_bytes else 0 |>
                 <| stats -> total_freed_bytes ::= fun n => u64 (n + freed_bytes) |> in
      (k, if underflow_detection s
          then s <| stats -> underflow_checks ::= fun n => u32 (n + 1) |> else s).

Definition stack_reset (k : K) (s : stack) : outcome (K * stack) :=
  if negb (initialized s) then Done (k, s)
  else
    let k := kstore k (current_frame s + sf_current) (kload k (current_frame s + sf_start)) in
    let s := s <| stats -> total_freed_bytes ::= fun n => u64 (n + current_usage (stats s)) |>
               <| stats -> current_usage := 0 |> in
    let* k := loop fuel (fun '(k, cp) =>
      if cp =? 0 then Done (inr k)
      else
        let next := kload k (cp + cp_prev) in
        let* k := kfree k cp in
        Done (inl (k, next))) (k, checkpoint_stack s) in
    Done (k, s <| checkpoint_stack := 0 |>).

Definition create_checkpoint (k : K) (s : stack) : outcome (Z * K * stack) :=
  if negb (initialized s) then Done (0, k, s)
  else
    let* (cp, k) := kmalloc k sizeof_stack_checkpoint in
    if cp =? 0 then Done (0, k, s)
    else
      let k := kstore k (cp + cp_saved_pos) (kload k (current_frame s + sf_current)) in
      let k := kstore k (cp + cp_timestamp) 0 in
      let k := kstore k (cp + cp_prev) (checkpoint_stack s) in
      Done (cp, k, s <| checkpoint_stack := cp |>
                     <| stats -> checkpoint_count ::= fun n => u32 (n + 1) |>).

Definition drop_checkpoint (s : stack) : stack := s <| stats -> checkpoint_count ::= dec_to_zero |>.

Definition restore_checkpoint (k : K) (s : stack) (checkpoint : Z) : outcome (K * stack) :=
  if checkpoint =? 0 then Done (k, s)
  else
    let (k, s) := free_to_checkpoint k s checkpoint in
    let* (k, s, cp) := loop fuel (fun '(k, s, cp) =>
      if negb (cp =? 0) && negb (cp =? checkpoint) then
        let prev := kload k (cp + cp_prev) in
        let* k := kfree k cp in
        Done (inl (k, drop_checkpoint s, prev))
      else Done (inr (k, s, cp))) (k, s, checkpoint_stack s) in
    Done (k, if cp =? checkpoint
             then drop_checkpoint (s <| checkpoint_stack := kload k (cp + cp_prev) |>) else s).

Definition destroy_checkpoint (k : K) (s : stack) (checkpoint : Z) : outcome (K * stack) :=
  if checkpoint =? 0 then Done (k, s)
  else
    let* (cp, prev_cp) := loop fuel (fun '(cp, prev_cp) =>
      Done (if negb (cp =? 0) && negb (cp =? checkpoint) then inl (kload k (cp + cp_prev), cp)
            else inr (cp, prev_cp))) (checkpoint_stack s, 0) in
    if cp =? checkpoint then
      let (k, s) := if negb (prev_cp =? 0)
                    then (kstore k (prev_cp + cp_prev) (kload k (cp + cp_prev)), s)
                    else (k, s <| checkpoint_stack := kload k (cp + cp_prev) |>) in
      let* k := kfree k cp in
      Done (k, drop_checkpoint s)
    else Done (k, s).

(** ** [ScopedStackAllocator]: a checkpoint on construction, restored and
    destroyed on destruction. *)

Record scoped := mk_scoped { sc_checkpoint : Z; sc_active : bool }.

Definition scoped_new (k : K) (s : stack) : outcome (scoped * K * stack) :=
  let* (cp, k, s) := create_checkpoint k s in
  Done (mk_scoped cp (negb (cp =? 0)), k, s).

Definition scoped_delete (k : K) (s : stack) (sc : scoped) : outcome (K * stack) :=
  if sc_active sc && negb (sc_checkpoint sc =? 0) then
    let* (k, s) := restore_checkpoint k s (sc_checkpoint sc) in
    destroy_checkpoint k s (sc_checkpoint sc)
  else Done (k, s).

Definition scoped_alloc (k : K) (s : stack) (sc : scoped) (size alignment : Z) : outcome (Z * K * stack) :=
  if negb (sc_active sc) then Done (0, k, s) else stack_alloc k s size alignment.

Definition scoped_alloc_aligned (k : K) (s : stack) (sc : scoped) (size alignment : Z)
    : outcome (Z * K * stack) :=
  if negb (sc_active sc) then Done (0, k, s) else stack_alloc_aligned k s size alignment.

(** ** [ThreadLocalStackAllocator]: a [StackAllocator] allocated on first use.
    [tls] is the pointer and the fields of the object it points to. *)

Record tls := mk_tls { instance : Z; object : stack }.
Definition sizeof_StackAllocator : Z := 72.

Definition init_thread_local (k : K) (t : tls) : outcome (K * tls) :=
  if negb (instance t =? 0) then Done (k, t)
  else
    let* (p, k) := kmalloc k sizeof_StackAllocator in
    if p =? 0 then Done (k, t)
    else
      let* (k, s) := stack_init k zero_stack DEFAULT_STACK_SIZE in
      Done (k, mk_tls p s).

Definition destroy_thread_local (k : K) (t : tls) : outcome (K * tls) :=
  if instance t =? 0 then Done (k, t)
  else
    let* (k, s) := destroy k (object t) in
    let* k := kfree k (instance t) in
    Done (k, mk_tls 0 s).

(** [get_current], then [f] on the allocator it returns, [r0] if there is none. *)
Definition with_current {R} (r0 : R) (f : K → stack → outcome (R * K * stack)) (k : K) (t : tls)
    : outcome (R * K * tls) :=
  let* (k, t) := if instance t =? 0 then init_thread_local k t else Done (k, t) in
  if instance t =? 0 then Done (r0, k, t)
  else
    let* (r, k, s) := f k (object t) in
    Done (r, k, mk_tls (instance t) s).

Definition tls_alloc (k : K) (t : tls) (size alignment : Z) : outcome (Z * K * tls) :=
  with_current 0 (fun k s => stack_alloc k s size alignment) k t.

Definition tls_reset (k : K) (t : tls) : outcome (unit * K * tls) :=
  with_current tt (fun k s => let* (k, s) := stack_reset k s in Done (tt, k, s)) k t.

Definition tls_checkpoint (k : K) (t : tls) : outcome (Z * K * tls) :=
  with_current 0 create_checkpoint k t.

Definition tls_restore (k : K) (t : tls) (cp : Z) : outcome (unit * K * tls) :=
  with_current tt (fun k s => let* (k, s) := restore_checkpoint k s cp in Done (tt, k, s)) k t.

(** ** The entry points for C, on the global allocator and the thread's. *)

Definition init_stack_allocator (k : K) (s : stack) : outcome (K * stack) := stack_init k s DEFAULT_STACK_SIZE.
Definition c_stack_alloc (k : K) (s : stack) (size : Z) : outcome (Z * K * stack) :=
  stack_alloc k s size STACK_ALIGNMENT.
Definition c_stack_alloc_aligned (k : K) (s : stack) (size alignment : Z) : outcome (Z * K * stack) :=
  stack_alloc_aligned k s size alignment.
Definition c_stack_reset (k : K) (s : stack) : outcome (K * stack) := stack_reset k s.
Definition c_stack_checkpoint (k : K) (s : stack) : outcome (Z * K * stack) := create_checkpoint k s.
Definition c_stack_restore (k : K) (s : stack) (checkpoint : Z) : outcome (K * stack) :=
  restore_checkpoint k s checkpoint.
Definition init_thread_stack_allocator (k : K) (t : tls) : outcome (K * tls) := init_thread_local k t.
Definition destroy_thread_stack_allocator (k : K) (t : tls) : outcome (K * tls) := destroy_thread_local k t.
Definition tls_stack_alloc (k : K) (t : tls) (size : Z) : outcome (Z * K * tls) :=
  tls_alloc k t size STACK_ALIGNMENT.
Definition tls_stack_reset (k : K) (t : tls) : outcome (unit * K * tls) := tls_reset k t.

End Ops.

(** ** [StaticStackAllocator<SIZE>]: a bump allocator over a static buffer;
    pointers are offsets in the buffer. *)

Record static_stack := mk_static { top : Z; peak : Z }.

Definition static_alloc (SIZE : Z) (s : static_stack) (size alignment : Z) : option Z * static_stack :=
  let aligned_size := align_size size alignment in
  let new_top := align_size (u32 (top s + aligned_size)) alignment in
  if SIZE <? new_top then (None, s)
  else (Some (top s), mk_static new_top (if peak s <? new_top then new_top else peak s)).

Definition static_reset (s : static_stack) : static_stack := mk_static 0 (peak s).
Definition static_get_free (SIZE : Z) (s : static_stack) : Z := u32 (SIZE - top s).
