(* ===== verification/Unified.v ===== *)
(** The unified allocator: [src/src/kernel/runtime/unified_alloc.h] and
    [unified_alloc.cc], and the [kmalloc] family of [arch/x86/alloc.cc].

    [pool] is the kernel heap with the four heap allocators and the static
    fields of [UnifiedAllocator]; [kernel] adds the global stack allocator,
    whose frames come from [kmalloc] on the pool.  The code of
    [UnifiedAllocator::alloc] is written once over [HasPool]: on the pool
    alone, which is all [kmalloc] needs, and on the kernel. *)

From Stdlib Require Import ZArith Lia.
From stdpp Require Import base list gmap option.
From coqutil Require Import Datatypes.RecordSetters.
From S2P Require Import Prelude Memory Buddy Strings Slab Slob Slub KAlloc Stack.
Import TriangleBracketNotations.

Definition ALLOC_POLICY_BUDDY : Z := 0x01.
Definition ALLOC_POLICY_SLAB : Z := 0x02.
Definition ALLOC_POLICY_SLOB : Z := 0x04.
Definition ALLOC_POLICY_SLUB : Z := 0x08.
Definition ALLOC_POLICY_STACK : Z := 0x10.
Definition ALLOC_POLICY_AUTO : Z := 0x20.

Definition ALLOC_FLAG_KERNEL : Z := 0x01.
Definition ALLOC_FLAG_DMA : Z := 0x04.
Definition ALLOC_FLAG_ZERO : Z := 0x10.
Definition ALLOC_FLAG_TEMP : Z := 0x20.
Definition ALLOC_FLAG_SCOPED : Z := 0x40.

(** [enum alloc_type], in the order of its values. *)
Inductive alloc_type := ALLOC_TINY | ALLOC_SMALL | ALLOC_MEDIUM | ALLOC_LARGE | ALLOC_HUGE.

Inductive system_mode := SYS_MODE_EMBEDDED | SYS_MODE_DESKTOP | SYS_MODE_SERVER | SYS_MODE_REALTIME.

#[export] Instance system_mode_eq_dec : EqDecision system_mode.
Proof. solve_decision. Defined.

Record alloc_stats := mk_alloc_stats {
  total_allocations : Z;
  total_frees : Z;
  active_allocations : Z;
  bytes_allocated : Z;
  bytes_freed : Z;
  fragmentation_percent : Z;
  buddy_allocs : Z;
  slab_allocs : Z;
  slob_allocs : Z;
  slub_allocs : Z;
  stack_allocs : Z;
  cache_hits : Z;
  cache_misses : Z;
  policy_switches : Z;
}.

Definition no_stats : alloc_stats := mk_alloc_stats 0 0 0 0 0 0 0 0 0 0 0 0 0 0.

(** [struct allocation_metadata] *)
Definition am_size : Z := 0.
Definition am_flags : Z := 4.
Definition am_allocator : Z := 8.
Definition am_timestamp : Z := 12.
Definition am_ptr : Z := 16.
Definition sizeof_metadata : Z := 20.

Record unified := mk_unified {
  current_mode : system_mode;
  policy_mask : Z;
  debug_tracking : bool;
  ustats : alloc_stats;
  debug_table : Z;
  debug_table_size : Z;
  debug_entries : Z;
}.

(** The static object before [init]. *)
Definition zero_unified : unified := mk_unified SYS_MODE_EMBEDDED 0 false no_stats 0 0 0.

Definition init_policy (mode : system_mode) : Z :=
  match mode with
  | SYS_MODE_EMBEDDED => Z.lor (Z.lor ALLOC_POLICY_SLOB ALLOC_POLICY_BUDDY) ALLOC_POLICY_STACK
  | SYS_MODE_DESKTOP =>
    Z.lor (Z.lor (Z.lor ALLOC_POLICY_SLAB ALLOC_POLICY_BUDDY) ALLOC_POLICY_STACK) ALLOC_POLICY_AUTO
  | SYS_MODE_SERVER =>
    Z.lor (Z.lor (Z.lor ALLOC_POLICY_SLUB ALLOC_POLICY_BUDDY) ALLOC_POLICY_STACK) ALLOC_POLICY_AUTO
  | SYS_MODE_REALTIME => Z.lor (Z.lor ALLOC_POLICY_SLAB ALLOC_POLICY_BUDDY) ALLOC_POLICY_STACK
  end.

Definition unified_init (mode : system_mode) : unified :=
  mk_unified mode (init_policy mode) false no_stats 0 0 0.

Definition set_policy (u : unified) (new_policy_mask : Z) : unified :=
  u <| policy_mask := new_policy_mask |> <| ustats -> policy_switches ::= fun n => u32 (n + 1) |>.

Definition set_system_mode (u : unified) (mode : system_mode) : unified :=
  if decide (mode = current_mode u) then u else unified_init mode.

Definition get_alloc_type (size : Z) : alloc_type :=
  if size <? 64 then ALLOC_TINY
  else if size <? 512 then ALLOC_SMALL
  else if size <? 4096 then ALLOC_MEDIUM
  else if size <? 65536 then ALLOC_LARGE
  else ALLOC_HUGE.

(** [type <= ALLOC_SMALL], [type <= ALLOC_MEDIUM] *)
Definition at_most_small (t : alloc_type) : bool :=
  match t with ALLOC_TINY | ALLOC_SMALL => true | _ => false end.
Definition at_most_medium (t : alloc_type) : bool :=
  match t with ALLOC_TINY | ALLOC_SMALL | ALLOC_MEDIUM => true | _ => false end.

(** [flags & (TEMP | SCOPED) && (policy_mask & STACK)], and so on, in the order of the code. *)
Definition select_allocator (u : unified) (size flags : Z) : Z :=
  let type := get_alloc_type size in
  let policy := has_flag (policy_mask u) in
  if has_flag flags (Z.lor ALLOC_FLAG_TEMP ALLOC_FLAG_SCOPED) && policy ALLOC_POLICY_STACK
  then ALLOC_POLICY_STACK
  else if has_flag flags ALLOC_FLAG_DMA && negb (policy ALLOC_POLICY_BUDDY)
  then ALLOC_POLICY_BUDDY
  else match current_mode u with
  | SYS_MODE_EMBEDDED =>
    if at_most_small type && policy ALLOC_POLICY_SLOB then ALLOC_POLICY_SLOB else ALLOC_POLICY_BUDDY
  | SYS_MODE_DESKTOP =>
    if at_most_medium type && policy ALLOC_POLICY_SLAB then ALLOC_POLICY_SLAB else ALLOC_POLICY_BUDDY
  | SYS_MODE_SERVER =>
    if at_most_medium type && policy ALLOC_POLICY_SLUB then ALLOC_POLICY_SLUB else ALLOC_POLICY_BUDDY
  | SYS_MODE_REALTIME =>
    if at_most_small type && policy ALLOC_POLICY_SLAB then ALLOC_POLICY_SLAB else ALLOC_POLICY_BUDDY
  end.

Definition count_allocator (allocator : Z) (st : alloc_stats) : alloc_stats :=
  if allocator =? ALLOC_POLICY_BUDDY then st <| buddy_allocs ::= fun n => u32 (n + 1) |>
  else if allocator =? ALLOC_POLICY_SLAB then st <| slab_allocs ::= fun n => u32 (n + 1) |>
  else if allocator =? ALLOC_POLICY_SLOB then st <| slob_allocs ::= fun n => u32 (n + 1) |>
  else if allocator =? ALLOC_POLICY_SLUB then st <| slub_allocs ::= fun n => u32 (n + 1) |>
  else if allocator =? ALLOC_POLICY_STACK then st <| stack_allocs ::= fun n => u32 (n + 1) |>
  else st.

Definition update_stats (u : unified) (size allocator : Z) (is_alloc : bool) : unified :=
  let st := ustats u in
  u <| ustats :=
    if is_alloc then
      count_allocator allocator
        (st <| total_allocations ::= fun n => u32 (n + 1) |>
            <| active_allocations ::= fun n => u32 (n + 1) |>
            <| bytes_allocated ::= fun n => u32 (n + size) |>)
    else st <| total_frees ::= fun n => u32 (n + 1) |>
            <| active_allocations ::= fun n => u32 (n - 1) |>
            <| bytes_freed ::= fun n => u32 (n + size) |> |>.

(** ** The state *)

Record pool := mk_pool {
  p_heap : heap;
  p_slab : slab_allocator;
  p_slob : slob;
  p_slub : slub;
  p_uni : unified;
}.

(** The table entry [i], and the fields of one entry. *)
Definition entry (u : unified) (i : Z) : Z := debug_table u + i * sizeof_metadata.

Definition track_allocation (p : pool) (ptr size flags allocator : Z) : pool :=
  let u := p_uni p in
  if (debug_table u =? 0) || (debug_table_size u <=? debug_entries u) then p
  else
    let meta := entry u (debug_entries u) in
    let h := hstore (p_heap p) (meta + am_size) size in
    let h := hstore h (meta + am_flags) flags in
    let h := hstore h (meta + am_allocator) allocator in
    let h := hstore h (meta + am_timestamp) 0 in
    let h := hstore h (meta + am_ptr) ptr in
    p <| p_heap := h |> <| p_uni -> debug_entries ::= fun n => u32 (n + 1) |>.

(** The index of the first entry of [ptr], searched from [i] on. *)
Fixpoint find_entry (h : heap) (u : unified) (ptr i : Z) (n : nat) : option Z :=
  match n with
  | O => None
  | S n => if hload h (entry u i + am_ptr) =? ptr then Some i else find_entry h u ptr (i + 1) n
  end.

Definition find_allocation (p : pool) (ptr : Z) : Z :=
  let u := p_uni p in
  match find_entry (p_heap p) u ptr 0 (Z.to_nat (debug_entries u)) with
  | Some i => entry u i
  | None => 0
  end.

Definition copy_entry (h : heap) (dst src : Z) : heap :=
  for_ 5 (fun i h => hstore h (dst + 4 * i) (hload h (src + 4 * i))) h.

Definition untrack_allocation (p : pool) (ptr : Z) : pool :=
  let u := p_uni p in
  match find_entry (p_heap p) u ptr 0 (Z.to_nat (debug_entries u)) with
  | Some i =>
    p <| p_heap := copy_entry (p_heap p) (entry u i) (entry u (debug_entries u - 1)) |>
      <| p_uni -> debug_entries := debug_entries u - 1 |>
  | None => p
  end.

Definition enable_debug_tracking (p : pool) : outcome pool :=
  let* p :=
    if debug_table (p_uni p) =? 0 then
      let* (t, h) := Buddy.alloc (p_heap p) (1024 * sizeof_metadata) in
      Done (p <| p_heap := h |> <| p_uni -> debug_table_size := 1024 |> <| p_uni -> debug_table := t |>)
    else Done p in
  Done (p <| p_uni -> debug_tracking := true |>).

Definition disable_debug_tracking (p : pool) : pool := p <| p_uni -> debug_tracking := false |>.

(** What [alloc] needs of the state around the pool: the pool, and the stack
    allocator behind [ALLOC_POLICY_STACK]. *)
Class HasPool (S : Type) := {
  get_pool : S → pool;
  set_pool : S → pool → S;
  stack_hook : S → Z → outcome (Z * S);
}.

Section Allocator.
(** Calling a constructor or destructor on an object; fuel for the list walks. *)
Variable call : Z → Z → heap → outcome heap.
Variable fuel : nat.

(** [buddy_allocator.alloc(PAGE_SIZE << order)] *)
Definition alloc_pages (p : pool) (order : Z) : outcome (Z * pool) :=
  let* (ptr, h) := Buddy.alloc (p_heap p) (u32 (Z.shiftl PAGE_SIZE order)) in
  Done (ptr, p <| p_heap := h |>).

Definition buddy_fallback (p : pool) (size : Z) : outcome (Z * pool) :=
  let* order := Buddy.get_order size in alloc_pages p order.

Definition free_pages (p : pool) (ptr : Z) : outcome pool :=
  let* h := Buddy.free (p_heap p) ptr in Done (p <| p_heap := h |>).

Section Over.
Context {S : Type} `{HasPool S}.

Definition on_pool {R} (s : S) (r : outcome (R * pool)) : outcome (R * S) :=
  let* (x, p) := r in Done (x, set_pool s p).

Definition internal_alloc (s : S) (size preferred_allocator : Z) : outcome (Z * S) :=
  let p := get_pool s in
  let* (ptr, s) :=
    if preferred_allocator =? ALLOC_POLICY_SLOB then
      let* (ptr, h, sl) := Slob.slob_alloc fuel (p_heap p) (p_slob p) size in
      Done (ptr, set_pool s (p <| p_heap := h |> <| p_slob := sl |>))
    else if preferred_allocator =? ALLOC_POLICY_SLAB then
      let* (ptr, h) := Slab.kmem_cache_alloc call (p_heap p) (p_slab p) size in
      Done (ptr, set_pool s (p <| p_heap := h |>))
    else if preferred_allocator =? ALLOC_POLICY_SLUB then
      let* (ptr, h) := Slub.slub_alloc call fuel (p_heap p) (p_slub p) size in
      Done (ptr, set_pool s (p <| p_heap := h |>))
    else if preferred_allocator =? ALLOC_POLICY_STACK then stack_hook s size
    else on_pool s (buddy_fallback p size) in
  if (ptr =? 0) && negb (preferred_allocator =? ALLOC_POLICY_BUDDY)
  then on_pool s (buddy_fallback (get_pool s) size)
  else Done (ptr, s).

Definition alloc (s : S) (size flags : Z) : outcome (Z * S) :=
  if size =? 0 then Done (0, s)
  else
    let allocator := select_allocator (p_uni (get_pool s)) size flags in
    let* (ptr, s) := internal_alloc s size allocator in
    if ptr =? 0 then Done (ptr, s)
    else
      let p := get_pool s in
      let p := p <| p_uni := update_stats (p_uni p) size allocator true |> in
      let p := if debug_tracking (p_uni p) then track_allocation p ptr size flags allocator else p in
      let p := if has_flag flags ALLOC_FLAG_ZERO
               then p <| p_heap := set_mem (p_heap p) (memset (hmem (p_heap p)) ptr 0 (s32 size)) |>
               else p in
      Done (ptr, set_pool s p).
End Over.

(** The chain of [free]s without a hint stops after the first: it goes on
    only while [ptr] is null, and nothing changes [ptr]. *)
Definition internal_free (p : pool) (ptr allocator_hint : Z) : outcome pool :=
  if allocator_hint =? ALLOC_POLICY_SLOB then
    let* (h, sl) := Slob.slob_free fuel (p_heap p) (p_slob p) ptr in
    Done (p <| p_heap := h |> <| p_slob := sl |>)
  else if allocator_hint =? ALLOC_POLICY_SLAB then
    let* h := Slab.kmem_cache_free call fuel (p_heap p) (p_slab p) ptr in
    Done (p <| p_heap := h |>)
  else if allocator_hint =? ALLOC_POLICY_SLUB then
    let* h := Slub.slub_free call fuel (p_heap p) (p_slub p) ptr in
    Done (p <| p_heap := h |>)
  else
    let* (h, sl) := Slob.slob_free fuel (p_heap p) (p_slob p) ptr in
    let p := p <| p_heap := h |> <| p_slob := sl |> in
    if negb (ptr =? 0) then Done p
    else
      let* h := Slab.kmem_cache_free call fuel (p_heap p) (p_slab p) ptr in
      let p := p <| p_heap := h |> in
      if negb (ptr =? 0) then Done p
      else
        let* h := Slub.slub_free call fuel (p_heap p) (p_slub p) ptr in
        let p := p <| p_heap := h |> in
        if negb (ptr =? 0) then Done p
        else
          let* h := Buddy.free (p_heap p) ptr in
          Done (p <| p_heap := h |>).

Definition free (p : pool) (ptr : Z) : outcome pool :=
  if ptr =? 0 then Done p
  else
    let '(p, allocator_hint) :=
      if debug_tracking (p_uni p) then
        let meta := find_allocation p ptr in
        if meta =? 0 then (p, 0)
        else
          let allocator_hint := hload (p_heap p) (meta + am_allocator) in
          let size := hload (p_heap p) (meta + am_size) in
          let p := p <| p_uni := update_stats (p_uni p) size allocator_hint false |> in
          (untrack_allocation p ptr, allocator_hint)
      else (p, 0) in
    internal_free p ptr allocator_hint.

(** [kmalloc] and [kfree]: the pool is all they touch. *)
#[local] Instance pool_has_pool : HasPool pool := {
  get_pool p := p;
  set_pool _ p := p;
  stack_hook _ _ := Stuck;
}.

#[local] Instance pool_kalloc : KAlloc pool := {
  kmem p := hmem (p_heap p);
  with_mem p m := p <| p_heap := set_mem (p_heap p) m |>;
  kmalloc p size := alloc p size ALLOC_FLAG_KERNEL;
  kfree p ptr := free p ptr;
}.

(** ** The kernel: the pool and the global stack allocator *)

Record kernel := mk_kernel { k_pool : pool; k_stack : stack }.

#[local] Instance kernel_has_pool : HasPool kernel := {
  get_pool := k_pool;
  set_pool k p := mk_kernel p (k_stack k);
  stack_hook k size :=
    let* (ptr, p, s) := stack_alloc (k_pool k) (k_stack k) size STACK_ALIGNMENT in
    Done (ptr, mk_kernel p s);
}.

Definition kmalloc_flags (k : kernel) (size flags : Z) : outcome (Z * kernel) := alloc k size flags.
Definition kmalloc_temp (k : kernel) (size : Z) : outcome (Z * kernel) := alloc k size ALLOC_FLAG_TEMP.
Definition kmalloc_scoped (k : kernel) (size : Z) : outcome (Z * kernel) := alloc k size ALLOC_FLAG_SCOPED.
Definition ksbrk (p : pool) : outcome (Z * pool) := alloc_pages p 0.

Definition realloc (p : pool) (ptr new_size : Z) : outcome (Z * pool) :=
  if ptr =? 0 then alloc p new_size 0
  else if new_size =? 0 then let* p := free p ptr in Done (0, p)
  else
    let meta := find_allocation p ptr in
    let old_size := if negb (meta =? 0) then hload (p_heap p) (meta + am_size) else 0 in
    let* (new_ptr, p) := alloc p new_size 0 in
    if new_ptr =? 0 then Done (0, p)
    else
      let p :=
        if 0 <? old_size then
          let copy_size := if old_size <? new_size then old_size else new_size in
          p <| p_heap := set_mem (p_heap p) (memcpy (hmem (p_heap p)) new_ptr ptr (s32 copy_size)) |>
        else p in
      let* p := free p ptr in
      Done (new_ptr, p).

(** The overflow test divides by [count]. *)
Definition calloc (p : pool) (count size : Z) : outcome (Z * pool) :=
  let total_size := u32 (count * size) in
  if count =? 0 then Stuck
  else if negb (total_size / count =? size) then Done (0, p)
  else alloc p total_size ALLOC_FLAG_ZERO.

(** [stack_alloc], [stack_reset], [stack_checkpoint] and [stack_restore] of the global stack. *)
Definition kstack_alloc (k : kernel) (size : Z) : outcome (Z * kernel) :=
  let* (ptr, p, s) := stack_alloc (k_pool k) (k_stack k) size STACK_ALIGNMENT in
  Done (ptr, mk_kernel p s).
Definition kstack_reset (k : kernel) : outcome kernel :=
  let* (p, s) := stack_reset fuel (k_pool k) (k_stack k) in Done (mk_kernel p s).
Definition kstack_checkpoint (k : kernel) : outcome (Z * kernel) :=
  let* (cp, p, s) := create_checkpoint (k_pool k) (k_stack k) in Done (cp, mk_kernel p s).
Definition kstack_restore (k : kernel) (checkpoint : Z) : outcome kernel :=
  let* (p, s) := restore_checkpoint fuel (k_pool k) (k_stack k) checkpoint in Done (mk_kernel p s).

(** The allocators part of [VMM::init], from a memory the bootloader left:
    buddy, slab, SLOB, SLUB, stack, unified. *)
Definition init_allocators (m : mem) (slub_cache_name : Z) (mode : system_mode) : outcome kernel :=
  let* h := Buddy.init_buddy_allocator m in
  let* (h, sa) := Slab.slab_init h in
  let* (h, sl) := Slob.slob_init h in
  let* (h, su) := Slub.slub_init fuel h slub_cache_name in
  let* (p, s) := stack_init (mk_pool h sa sl su zero_unified) zero_stack DEFAULT_STACK_SIZE in
  Done (mk_kernel (p <| p_uni := unified_init mode |>) s).
End Allocator.

(** [is_power_of_two] and [next_power_of_two] of [unified_alloc.h]. *)
Definition is_power_of_two (n : Z) : bool := negb (n =? 0) && (Z.land n (u32 (n - 1)) =? 0).

(** Doubling in 32 bits: above 2^31 the power wraps to 0 and never reaches [n]. *)
Definition next_power_of_two (fuel : nat) (n : Z) : outcome Z :=
  if is_power_of_two n then Done n
  else while fuel (fun power => power <? n) (fun power => u32 (Z.shiftl power 1)) 1.
