(* ===== verification/UnifiedSpec.v ===== *)
(** The unified allocator's contract: which allocator serves a request, the
    [kmalloc] contract while the buddy allocator serves everything, what
    [kfree] does without a hint, [calloc]'s overflow test, and how many requests
    a pool affords. *)

From Stdlib Require Import ZArith Lia.
From stdpp Require Import base list gmap option sets.
From coqutil Require Import Datatypes.RecordSetters.
From S2P Require Import Prelude Memory DList Buddy BuddyPartition BuddyInv BuddySpec BuddyInit Slab Slob Slub KAlloc Stack Unified.
Import TriangleBracketNotations.

(** ** The buddy policy

    The state in which every request goes to the buddy allocator: before
    [UnifiedAllocator::init], when the policy mask is 0, and after
    [set_policy(ALLOC_POLICY_BUDDY | ALLOC_POLICY_STACK)]. *)
Definition buddy_policy (u : unified) : Prop :=
  debug_tracking u = false ∧ has_flag (policy_mask u) ALLOC_POLICY_SLAB = false ∧
  has_flag (policy_mask u) ALLOC_POLICY_SLOB = false ∧ has_flag (policy_mask u) ALLOC_POLICY_SLUB = false.

Lemma select_buddy u size : buddy_policy u → select_allocator u size ALLOC_FLAG_KERNEL = ALLOC_POLICY_BUDDY.
Proof.
  intros (_ & H1 & H2 & H3). unfold select_allocator.
  change (has_flag ALLOC_FLAG_KERNEL (Z.lor ALLOC_FLAG_TEMP ALLOC_FLAG_SCOPED)) with false.
  change (has_flag ALLOC_FLAG_KERNEL ALLOC_FLAG_DMA) with false. cbn [andb].
  rewrite H1, H2, H3, !andb_false_r. by destruct (current_mode u).
Qed.

Lemma buddy_policy_stats u size al b : buddy_policy u → buddy_policy (update_stats u size al b).
Proof. by destruct u. Qed.

(** A block of the buddy allocator big enough for [n] bytes behind its header. *)
Definition serves (A : gmap Z Z) (q n : Z) : Prop :=
  ∃ b j, q = b + sizeof_buddy_block ∧ A !! b = Some j ∧ n + sizeof_buddy_block <= bsize j.

Definition pool_ok (p : pool) (l : list (Z * Z)) : Prop :=
  buddy_policy (p_uni p) ∧ zend (p_heap p) < 2 ^ 31 ∧
  ∃ A, buddy_ok (p_heap p) A ∧ ∀ q n, (q, n) ∈ l → serves A q n.

(** The requests whose block has room for the header too. *)
Definition pool_fits (n : Z) : Prop :=
  0 < n < 2 ^ 32 ∧ ∃ k, Buddy.get_order n = Done k ∧ n + sizeof_buddy_block <= bsize k.

Lemma serves_area A q n a : serves A q n → q <= a < q + n → user_area A a.
Proof. intros (b & j & -> & HA & Hn) Ha. exists b, j. split; [done|lia]. Qed.

Lemma serves_insert A b j q n : A !! b = None → serves A q n → serves (<[b := j]> A) q n.
Proof.
  intros Hb (c & i & -> & HA & Hn). exists c, i. split; [done|]. split; [|done].
  rewrite lookup_insert_ne; [done|]. congruence.
Qed.

Lemma serves_bounds h A q n :
  buddy_ok h A → zend h < 2 ^ 31 → serves A q n → 0 < q ∧ (4 | q) ∧ q + n < 2 ^ 31.
Proof.
  intros Hok Hz (b & j & -> & HA & Hn).
  destruct (live_disjoint _ _ _ _ Hok HA) as (Hj & Hs & He & _).
  destruct Hok as [B Hwf]. destruct (wf_region _ _ _ _ Hwf) as (_ & H0 & _).
  apply (wf_live _ _ _ _ Hwf) in HA as [HB _].
  apply (wf_aligned _ _ _ _ _ _ _ Hwf) in HB as [i ->]. unfold sizeof_buddy_block in *.
  split; [lia|]. split; [exists (1024 * i + 5); lia|lia].
Qed.

Lemma serves_disjoint h A b j q n :
  buddy_ok h (<[b := j]> A) → A !! b = None → serves A q n →
  b + bsize j <= q ∨ q + n <= b.
Proof.
  intros Hok Hb (c & i & -> & HA & Hn).
  destruct (live_disjoint _ _ b j Hok) as (_ & _ & _ & _ & Hd); [by rewrite lookup_insert_eq|].
  assert (b ≠ c) as Hne by congruence.
  destruct (Hd c i) as [?|?]; [by rewrite lookup_insert_ne|done| |]; unfold sizeof_buddy_block in *; lia.
Qed.

Lemma bsize_order k : 0 <= k <= MAX_ORDER → Buddy.get_order (bsize k) = Done k.
Proof.
  intros Hk. assert (k = 0 ∨ k = 1 ∨ k = 2 ∨ k = 3 ∨ k = 4 ∨ k = 5 ∨ k = 6 ∨ k = 7 ∨ k = 8 ∨ k = 9 ∨
    k = 10 ∨ k = 11) as H by (unfold MAX_ORDER in Hk; lia).
  repeat (destruct H as [->|H]; [vm_compute; reflexivity|]). subst. vm_compute. reflexivity.
Qed.

(** The region has a place for a block of order [k]. *)
Definition pool_room (p : pool) (k : Z) : Prop := ∃ A q, buddy_ok (p_heap p) A ∧ room_at (p_heap p) A k q.

(** The fallback of [internal_alloc] rounds up to a whole block. *)
Lemma buddy_fallback_returns p A size :
  buddy_ok (p_heap p) A → 0 < size < 2 ^ 32 →
  ∃ k, Buddy.get_order size = Done k ∧ 0 <= k <= MAX_ORDER ∧
    (buddy_fallback p size = Done (0, p) ∧ ¬ pool_room p k ∨
     ∃ q h, buddy_fallback p size = Done (q, p <| p_heap := h |>) ∧ allocated (p_heap p) A k q h).
Proof.
  intros Hok Hs. destruct (get_order_returns size ltac:(lia)) as (k & E & Hk & _).
  exists k. split; [done|]. split; [done|]. unfold buddy_fallback, alloc_pages. rewrite E. cbn [obind].
  pose proof (bsize_mono k 11 Hk). pose proof (bsize_ge k ltac:(lia)).
  change (bsize 11) with 8388608 in *.
  replace (u32 (Z.shiftl PAGE_SIZE k)) with (bsize k)
    by (rewrite Z.shiftl_mul_pow2, u32_small by (unfold PAGE_SIZE, bsize in *; lia); done).
  destruct (alloc_returns (p_heap p) A (bsize k) Hok ltac:(lia)) as (k' & E' & Ha).
  rewrite bsize_order in E' by done. injection E' as <-.
  destruct Ha as [[Ea Hno]|(q & h & Ea & Hal)]; rewrite Ea; cbn [obind]; [left|right; by exists q, h].
  split; [by destruct p|]. intros (A' & q & Hok' & Hq). by apply (no_room _ A' k Hok' Hk) in Hq.
Qed.

Section Pool.
Variable call : Z → Z → heap → outcome heap.
Variable fuel : nat.
#[local] Instance the_pool : KAlloc pool := pool_kalloc call fuel.
#[local] Instance the_has_pool : HasPool pool := pool_has_pool.

(** [kmalloc] under the buddy policy, step by step. *)
Lemma kmalloc_buddy p size :
  buddy_policy (p_uni p) → 0 < size →
  kmalloc p size =
    let* (ptr, p) := buddy_fallback p size in
    Done (ptr, if ptr =? 0 then p
               else p <| p_uni := update_stats (p_uni p) size ALLOC_POLICY_BUDDY true |>).
Proof.
  intros Hp Hs. unfold kmalloc, the_pool, pool_kalloc, alloc, internal_alloc.
  rewrite (proj2 (Z.eqb_neq size 0)) by lia. cbn [get_pool pool_has_pool]. rewrite select_buddy by done.
  change (ALLOC_POLICY_BUDDY =? ALLOC_POLICY_SLOB) with false.
  change (ALLOC_POLICY_BUDDY =? ALLOC_POLICY_SLAB) with false.
  change (ALLOC_POLICY_BUDDY =? ALLOC_POLICY_SLUB) with false.
  change (ALLOC_POLICY_BUDDY =? ALLOC_POLICY_STACK) with false. cbn iota.
  change (has_flag ALLOC_FLAG_KERNEL ALLOC_FLAG_ZERO) with false.
  unfold buddy_fallback, alloc_pages, on_pool. destruct (Buddy.get_order size) as [k| |]; [|done..].
  cbn [obind]. destruct (Buddy.alloc (p_heap p) _) as [[q h]| |]; [|done..]. cbn [obind].
  change (ALLOC_POLICY_BUDDY =? ALLOC_POLICY_BUDDY) with true. rewrite andb_false_r. cbn [obind].
  destruct (q =? 0); [done|]. destruct Hp as [Ht _]. destruct p as [? ? ? ? []]. simpl in Ht. by subst.
Qed.

Lemma pool_kmalloc p l n :
  pool_ok p l → pool_fits n →
  ∃ k q p', Buddy.get_order n = Done k ∧ kmalloc p n = Done (q, p') ∧ keeps l p p' ∧
    (¬ pool_room p k ∧ q = 0 ∧ p' = p ∨
     pool_room p k ∧ 0 < q ∧ (4 | q) ∧ q + n < 2 ^ 31 ∧ block_disjoint q n l ∧ pool_ok p' ((q, n) :: l)).
Proof.
  intros (Hp & Hz & A & Hok & Hl) (Hn & k & Ek & Hk).
  rewrite kmalloc_buddy by (done || lia).
  destruct (buddy_fallback_returns p A n Hok Hn) as (k' & Ek' & _ & [[-> Hno]|(q & h & -> & Hal)]);
    cbn [obind].
  { exists k', 0, p. split; [done|]. split; [done|]. split; [done|]. by left. }
  assert (k' = k) as -> by congruence.
  destruct Hal as (b & Eq & Hq & HA & Hok' & Hst). pose proof Hst as (Es & Ee & Hag).
  rewrite (proj2 (Z.eqb_neq q 0)) by done.
  assert (serves (<[b := k]> A) q n) as Hsv.
  { exists b, k. split; [done|]. split; [apply lookup_insert_eq|done]. }
  destruct (serves_bounds h _ _ _ Hok' ltac:(lia) Hsv) as (Hq0 & Hq4 & Hqe).
  exists k. eexists q, _. split; [done|]. split; [done|]. split.
  { intros a (c & m & Hc & Ha). symmetry. apply Hag. eapply serves_area; [by apply Hl|done]. }
  right. split; [exists A, b; split; [done|by eapply new_block_room]|]. do 3 (split; [done|]). split.
  { intros c m Hc. destruct (serves_disjoint _ _ _ _ _ _ Hok' HA (Hl _ _ Hc));
      unfold sizeof_buddy_block in *; lia. }
  split; [by apply buddy_policy_stats|]. split; [change (zend h < 2 ^ 31); lia|]. exists (<[b := k]> A). split; [done|].
  intros c m [[= -> ->]|Hc]%elem_of_cons; [done|]. by apply serves_insert, Hl.
Qed.

Lemma pool_kmalloc_fresh p l n :
  pool_ok p l → pool_fits n →
  ∃ q p', kmalloc p n = Done (q, p') ∧ keeps l p p' ∧
    (q = 0 ∧ pool_ok p' l ∨
     0 < q ∧ (4 | q) ∧ q + n < 2 ^ 31 ∧ block_disjoint q n l ∧ pool_ok p' ((q, n) :: l)).
Proof.
  intros Hp Hn. destruct (pool_kmalloc p l n Hp Hn) as (k & q & p' & _ & E & Hk & [(_ & -> & ->)|(_ & H)]);
    eexists _, _; (split; [exact E|]); (split; [done|]); [by left|by right].
Qed.

(** The buddy policy implements the contract. *)
#[export, refine] Instance pool_laws : KAllocLaws pool := { fits := pool_fits; kalloc_ok := pool_ok }.
Proof.
  - done.
  - done.
  - exact pool_kmalloc_fresh.
  - intros p l m (Hp & Hz & A & Hok & Hl) Hm. split; [done|]. split; [done|]. exists A. split; [|done].
    eapply client_writes_ok; [exact Hok|]. split; [done|]. intros a Ha. apply Hm.
    intros (q & n & Hq & Hr). apply Ha. by eapply serves_area; [apply Hl|].
  - intros p l q n (Hp & Hz & A & Hok & Hl) Hq. by eapply serves_bounds; [|..|by apply Hl].
Defined.
End Pool.

(** C32. The [kmalloc] contract under the buddy policy, for the requests whose
    block has room for the allocator's 20-byte header too ([pool_fits]; 4096
    bytes, for example, have not).  [kmalloc] returns; the words of the live
    blocks keep their values; when the region has no aligned place of the order
    of the request the result is null and nothing changes, and otherwise it is
    a fresh, 4-aligned block of the requested size, disjoint from every live
    one. *)
Theorem kmalloc_spec call fuel p l n :
  pool_ok p l → pool_fits n →
  ∃ k q p', Buddy.get_order n = Done k ∧
    Unified.alloc call fuel p n ALLOC_FLAG_KERNEL (H := pool_has_pool) = Done (q, p') ∧
    @keeps _ (pool_kalloc call fuel) l p p' ∧
    (¬ pool_room p k ∧ q = 0 ∧ p' = p ∨
     pool_room p k ∧ 0 < q ∧ (4 | q) ∧ q + n < 2 ^ 31 ∧ block_disjoint q n l ∧ pool_ok p' ((q, n) :: l)).
Proof. apply pool_kmalloc. Qed.

(** The pool as [VMM::init] has it when the stack allocator asks for its
    first frame: the buddy allocator is up, the unified one is not. *)
Definition early_pool : pool :=
  mk_pool boot_heap (mk_slab_allocator 0 []) (mk_slob 0 0 0 0 75) (mk_slub 0 [] 0) zero_unified.

Lemma early_pool_ok : pool_ok early_pool [].
Proof.
  split; [done|]. split; [vm_compute; reflexivity|]. exists ∅. split; [exact boot_heap_ok|].
  intros q n Hq. by apply elem_of_nil in Hq.
Qed.

(** A client that calls no constructor. *)
Definition no_call : Z → Z → heap → outcome heap := fun _ _ _ => Stuck.

(** The first place of the boot heap is free, for any order. *)
Lemma early_room k : 0 <= k <= 11 → pool_room early_pool k.
Proof.
  intros Hk. exists ∅, (zstart boot_heap). split; [exact boot_heap_ok|]. pose proof (bsize_mono k 11 Hk).
  unfold room_at. change (zstart (p_heap early_pool)) with (zstart boot_heap).
  change (zend (p_heap early_pool)) with (zend boot_heap).
  split; [lia|]. split; [|split; [rewrite Z.sub_diag; apply Z.divide_0_r|done]].
  assert (zstart boot_heap + bsize 11 <= zend boot_heap) by (vm_compute; discriminate). lia.
Qed.

Lemma kmalloc_spec_witness :
  ∃ q p', Unified.alloc no_call 0 early_pool 65568 ALLOC_FLAG_KERNEL (H := pool_has_pool) = Done (q, p') ∧
    0 < q ∧ (4 | q) ∧ q + 65568 < 2 ^ 31 ∧ pool_ok p' [(q, 65568)].
Proof.
  destruct (kmalloc_spec no_call 0 early_pool [] 65568) as (k & q & p' & Ek & E & _ & Hq).
  - exact early_pool_ok.
  - split; [split; reflexivity|]. exists 5. split; [vm_compute; reflexivity|discriminate].
  - assert (k = 5) as -> by (vm_compute in Ek; by injection Ek).
    destruct Hq as [[Hno _]|(_ & H1 & H2 & H3 & _ & H4)]; [destruct (Hno (early_room 5 ltac:(lia)))|].
    exists q, p'. split; [exact E|]. split; [exact H1|]. split; [exact H2|]. split; [exact H3|exact H4].
Defined.

(** ** [kfree] *)

(** Without debug tracking [kfree] knows no allocator, and its chain of
    attempts ends with the first: a pointer whose header is not that of a SLOB
    block is not freed at all, whichever allocator it came from.  Every SLAB,
    SLUB, buddy and stack block that the kernel frees leaks. *)
Theorem kfree_frees_only_slob call fuel p ptr :
  debug_tracking (p_uni p) = false → hload (p_heap p) (u32 (ptr - sizeof_slob_block) + ob_magic) ≠ SLOB_MAGIC →
  Unified.free call fuel p ptr = Done p.
Proof.
  intros Ht Hm. unfold Unified.free. destruct (Z.eqb_spec ptr 0) as [|Hp]; [done|].
  rewrite Ht. unfold internal_free. cbn [ALLOC_POLICY_SLOB ALLOC_POLICY_SLAB ALLOC_POLICY_SLUB].
  change (0 =? ALLOC_POLICY_SLOB) with false. change (0 =? ALLOC_POLICY_SLAB) with false.
  change (0 =? ALLOC_POLICY_SLUB) with false. cbn iota.
  unfold slob_free. rewrite (proj2 (Z.eqb_neq ptr 0)), (proj2 (Z.eqb_neq _ SLOB_MAGIC)) by done.
  cbn. destruct p. reflexivity.
Qed.

(** A block of the buddy allocator has its order where a SLOB block has its
    magic number, so under the buddy policy [kfree] keeps everything, and that
    meets the contract too. *)
Lemma serves_no_slob h A q n :
  buddy_ok h A → serves A q n → zend h < 2 ^ 31 → hload h (u32 (q - sizeof_slob_block) + ob_magic) ≠ SLOB_MAGIC.
Proof.
  intros Hok (b & j & -> & HA & _) Hz. destruct (live_disjoint _ _ _ _ Hok HA) as (Hj & Hs & He & _).
  destruct Hok as [B Hwf]. destruct (wf_region _ _ _ _ Hwf) as (_ & H0 & _).
  apply (wf_live _ _ _ _ Hwf) in HA as [HB _].
  destruct (wf_hdr _ _ _ _ Hwf _ _ _ HB) as (_ & Ho & _). specialize (Ho ltac:(set_solver)).
  pose proof (bsize_ge j ltac:(lia)).
  rewrite u32_small by (unfold sizeof_buddy_block, sizeof_slob_block; lia).
  replace (b + sizeof_buddy_block - sizeof_slob_block + ob_magic) with (b + bb_order) by (unfold sizeof_buddy_block, sizeof_slob_block, ob_magic, bb_order; lia).
  unfold hload. rewrite Ho. unfold MAX_ORDER, SLOB_MAGIC in *. lia.
Qed.

#[export, refine] Instance pool_free_laws call fuel : @KFreeLaws pool _ (pool_laws call fuel) := {}.
Proof.
  intros p l1 q n l2 (Hp & Hz & A & Hok & Hl). exists p.
  assert (serves A q n) as Hs by (apply Hl, elem_of_app; right; by left).
  split; [|split; [|done]].
  - apply kfree_frees_only_slob; [apply Hp|]. by eapply serves_no_slob.
  - split; [done|]. split; [done|]. exists A. split; [done|]. intros c m Hc. apply Hl.
    apply elem_of_app in Hc as [?|?]; apply elem_of_app; [by left|right; by right].
Defined.

(** ** Requests of a page

    Requests that fit in a page with the header are served while there are
    free pages; since [kfree] gives none back, the pages count the calls. *)
Definition pool_affords (B : Z) (p : pool) (L : list Z) (n : Z) : Prop :=
  B + sizeof_buddy_block <= bsize 0 ∧ buddy_policy (p_uni p) ∧ zend (p_heap p) < 2 ^ 31 ∧
  ∃ A qs, buddy_ok (p_heap p) A ∧ (∀ q, q ∈ L → serves A q 0) ∧
    NoDup qs ∧ n <= zlen qs ∧ ∀ q, q ∈ qs → room_at (p_heap p) A 0 q.

Lemma page_order n : 0 < n → n <= bsize 0 → Buddy.get_order n = Done 0.
Proof.
  intros Hn Hb. change (bsize 0) with 4096 in Hb. destruct (get_order_returns n ltac:(lia)) as (k & E & Hk & _ & Hk2 & _).
  destruct (decide (k = 0)) as [->|Hne]; [done|]. specialize (Hk2 ltac:(lia)). pose proof (bsize_ge (k - 1) ltac:(lia)). lia.
Qed.

(** Places that are not the new block's stay free. *)
Lemma room_insert h h' A b q :
  room_at h A 0 b → room_at h A 0 q → q ≠ b → zstart h' = zstart h ∧ zend h' = zend h → room_at h' (<[b := 0]> A) 0 q.
Proof.
  intros (_ & _ & [i Hi] & _) (Hs & He & [j Hj] & Hd) Hne [Es Ee]. unfold room_at. rewrite Es, Ee.
  do 2 (split; [done|]). split; [by exists j|].
  intros c m [[<- <-]|[_ Hc]]%lookup_insert_Some; [|by apply Hd].
  change (bsize 0) with 4096 in *. lia.
Qed.

Section Budget.
Variable call : Z → Z → heap → outcome heap.
Variable fuel : nat.
#[local] Instance budget_pool : KAlloc pool := pool_kalloc call fuel.

Lemma pool_affords_kmalloc B p L n size :
  pool_affords B p L n → 0 < size <= B →
  ∃ q p', kmalloc p size = Done (q, p') ∧
    (q = 0 ∧ n <= 0 ∧ pool_affords B p' L n ∨ q ≠ 0 ∧ pool_affords B p' (q :: L) (n - 1)).
Proof.
  intros (HB & Hp & Hz & A & qs & Hok & HL & Hnd & Hn & Hqs) Hs. change (bsize 0) with 4096 in HB. unfold sizeof_buddy_block in HB.
  rewrite (kmalloc_buddy call fuel) by (done || lia).
  destruct (buddy_fallback_returns p A size Hok ltac:(lia)) as (k & Ek & _ & Hr).
  rewrite page_order in Ek by (change (bsize 0) with 4096; lia). injection Ek as <-.
  destruct Hr as [[-> Hno]|(q & h & -> & b & -> & Hq & HA & Hok' & Hst)]; cbn [obind].
  { exists 0, p. split; [done|]. left. split; [done|]. split; [|split; [done|split; [done|split; [done|by exists A, qs]]]].
    destruct qs as [|q qs]; [exact Hn|]. destruct Hno. exists A, q. split; [done|]. apply Hqs. by left. }
  rewrite (proj2 (Z.eqb_neq _ 0)) by done. eexists _, _. split; [done|]. right. split; [done|].
  pose proof (new_block_room _ _ _ _ _ HA Hok' Hst) as Hb. pose proof Hst as (Es & Ee & _).
  split; [done|]. split; [by apply buddy_policy_stats|]. split; [change (zend h < 2 ^ 31); by rewrite Ee|].
  exists (<[b := 0]> A), (filter (.≠ b) qs). split; [done|]. split; [|split; [by apply NoDup_filter|split]].
  - intros c [->|Hc]%elem_of_cons; [|by apply serves_insert, HL]. exists b, 0. split; [done|]. split; [apply lookup_insert_eq|done].
  - assert (qs ⊆+ b :: filter (.≠ b) qs) as Hsub%submseteq_length; [|cbn [length] in Hsub; unfold zlen in *; lia].
    apply NoDup_submseteq; [done|]. intros x Hx. destruct (decide (x = b)) as [->|Hne]; [by left|]. right. by apply list_elem_of_filter.
  - intros c [Hne Hc]%list_elem_of_filter. eapply room_insert; [exact Hb|by apply Hqs|done|by split].
Qed.

#[export, refine] Instance pool_budget : KBudget pool := { affords := pool_affords }.
Proof.
  - exact pool_affords_kmalloc.
  - intros B p q L n (HB & Hp & Hz & A & qs & Hok & HL & Hqs). exists p. split.
    + apply kfree_frees_only_slob; [apply Hp|]. eapply serves_no_slob; [exact Hok|apply HL; by left|done].
    + split; [done|]. split; [done|]. split; [done|]. exists A, qs. split; [done|]. split; [|done].
      intros c Hc. apply HL. by right.
Defined.
End Budget.

(** The boot heap has a thousand free pages. *)
Lemma early_affords B : B <= 4076 → pool_affords B early_pool [] 1000.
Proof.
  intros HB. split; [unfold sizeof_buddy_block; change (bsize 0) with 4096; lia|]. split; [done|]. split; [vm_compute; reflexivity|].
  exists ∅, (map (fun i => zstart boot_heap + 4096 * i) (seqZ 0 1000)). split; [exact boot_heap_ok|].
  split; [by intros q Hq%not_elem_of_nil|]. split; [|split].
  - apply NoDup_fmap_2; [|apply NoDup_seqZ]. intros i j. lia.
  - unfold zlen. rewrite length_map, length_seqZ. lia.
  - intros q Hq. apply list_elem_of_In, in_map_iff in Hq as (i & <- & Hi). apply list_elem_of_In, elem_of_seqZ in Hi.
    assert (zstart boot_heap + 4096 * 1000 <= zend boot_heap) by (vm_compute; discriminate).
    unfold room_at. change (bsize 0) with 4096. change (zstart (p_heap early_pool)) with (zstart boot_heap).
    change (zend (p_heap early_pool)) with (zend boot_heap).
    split; [lia|]. split; [lia|]. split; [exists i; lia|done].
Qed.

(** The 64 bytes DESKTOP mode served from the SLAB allocator. *)
Definition desktop : outcome kernel := init_allocators no_call 100 ∅ 0x200000 SYS_MODE_DESKTOP.
Definition desktop_run : outcome (Z * pool) :=
  let* k := desktop in Unified.alloc no_call 100 (k_pool k) 64 ALLOC_FLAG_KERNEL (H := pool_has_pool).
Definition desktop_pool : pool :=
  match desktop_run with Done (_, p) => p | _ => early_pool end.
Definition desktop_ptr : Z := match desktop_run with Done (q, _) => q | _ => 0 end.

Lemma kfree_frees_only_slob_witness :
  desktop_ptr ≠ 0 ∧ slab_allocs (ustats (p_uni desktop_pool)) = 1 ∧
  Unified.free no_call 100 desktop_pool desktop_ptr = Done desktop_pool.
Proof.
  split; [vm_compute; discriminate|]. split; [vm_compute; reflexivity|].
  apply (kfree_frees_only_slob no_call 100 desktop_pool desktop_ptr);
    [vm_compute; reflexivity|vm_compute; discriminate].
Defined.

(** ** [calloc] *)

(** The test [total / count != size] detects exactly the products that do not
    fit in 32 bits. *)
Lemma overflow_test count size :
  0 < count < 2 ^ 32 → 0 <= size < 2 ^ 32 →
  (u32 (count * size) / count =? size) = (count * size <? 2 ^ 32).
Proof.
  intros Hc Hs. destruct (Z.ltb_spec (count * size) (2 ^ 32)) as [Hlt|Hge].
  - rewrite u32_small by nia. apply Z.eqb_eq. rewrite Z.mul_comm. apply Z.div_mul. lia.
  - apply Z.eqb_neq. pose proof (u32_range (count * size)).
    intros E. pose proof (Z.mul_div_le (u32 (count * size)) count ltac:(lia)). rewrite E in *. lia.
Qed.

(** C17. [calloc(count, size)] divides by zero for [count = 0]; otherwise it
    returns null, allocating nothing, exactly when [count * size] overflows,
    and else allocates the whole product with the zero flag. *)
Theorem calloc_spec call fuel p count size :
  0 <= count < 2 ^ 32 → 0 <= size < 2 ^ 32 →
  Unified.calloc call fuel p count size =
    if count =? 0 then Stuck
    else if count * size <? 2 ^ 32
         then Unified.alloc call fuel p (count * size) ALLOC_FLAG_ZERO (H := pool_has_pool)
         else Done (0, p).
Proof.
  intros Hc Hs. unfold calloc. destruct (Z.eqb_spec count 0); [done|].
  rewrite overflow_test by lia. destruct (Z.ltb_spec (count * size) (2 ^ 32)); [|done].
  cbn [negb]. by rewrite u32_small by nia.
Qed.

Lemma calloc_spec_witness :
  Unified.calloc no_call 0 early_pool 0x10000 0x10000 = Done (0, early_pool).
Proof.
  apply (calloc_spec no_call 0 early_pool 0x10000 0x10000); (split; [discriminate|reflexivity]).
Defined.

(** ** The kernel's [kmalloc] is the pool's *)

Lemma select_not_stack u size flags :
  has_flag flags (Z.lor ALLOC_FLAG_TEMP ALLOC_FLAG_SCOPED) = false →
  (select_allocator u size flags =? ALLOC_POLICY_STACK) = false.
Proof.
  intros H. unfold select_allocator. rewrite H. cbn [andb].
  destruct (has_flag flags ALLOC_FLAG_DMA && _); [done|].
  destruct (current_mode u); by case_if.
Qed.

(** An allocator other than the stack one works on the pool alone. *)
Lemma internal_alloc_lift call fuel k size al :
  (al =? ALLOC_POLICY_STACK) = false →
  internal_alloc call fuel k size al (H := kernel_has_pool call fuel) =
    let* (ptr, p) := internal_alloc call fuel (k_pool k) size al (H := pool_has_pool) in
    Done (ptr, mk_kernel p (k_stack k)).
Proof.
  intros Hs. unfold internal_alloc, on_pool.
  cbn [get_pool set_pool stack_hook pool_has_pool kernel_has_pool]. rewrite Hs.
  destruct (al =? ALLOC_POLICY_SLOB).
  { destruct (slob_alloc _ _ _ _) as [[[ptr h] sl]| |]; [|done..]. cbn [obind k_pool].
    destruct (_ && _); [|done]. by destruct (buddy_fallback _ size) as [[]| |]. }
  destruct (al =? ALLOC_POLICY_SLAB).
  { destruct (kmem_cache_alloc _ _ _ _) as [[ptr h]| |]; [|done..]. cbn [obind k_pool].
    destruct (_ && _); [|done]. by destruct (buddy_fallback _ size) as [[]| |]. }
  destruct (al =? ALLOC_POLICY_SLUB).
  { destruct (slub_alloc _ _ _ _ _) as [[ptr h]| |]; [|done..]. cbn [obind k_pool].
    destruct (_ && _); [|done]. by destruct (buddy_fallback _ size) as [[]| |]. }
  destruct (buddy_fallback _ _) as [[ptr p]| |]; [|done..]. cbn [obind k_pool].
  destruct (_ && _); [|done]. by destruct (buddy_fallback _ size) as [[]| |].
Qed.

(** An allocation without the temporary or scoped flag never reaches the
    stack allocator: on the whole kernel it is the pool's allocation, and the
    stack allocator's state stays.  This is why the stack allocator may call
    [kmalloc] for its frames. *)
Theorem alloc_leaves_stack call fuel k size flags :
  has_flag flags (Z.lor ALLOC_FLAG_TEMP ALLOC_FLAG_SCOPED) = false →
  Unified.alloc call fuel k size flags (H := kernel_has_pool call fuel) =
    let* (ptr, p) := Unified.alloc call fuel (k_pool k) size flags (H := pool_has_pool) in
    Done (ptr, mk_kernel p (k_stack k)).
Proof.
  intros Hf. pose proof (select_not_stack (p_uni (k_pool k)) size flags Hf) as Hs.
  unfold Unified.alloc. cbn [get_pool set_pool pool_has_pool kernel_has_pool].
  destruct (size =? 0); [by destruct k|]. rewrite internal_alloc_lift by done.
  destruct (internal_alloc _ _ (k_pool k) _ _) as [[ptr p]| |]; [|done..]. cbn [obind k_pool].
  by destruct (ptr =? 0).
Qed.

Lemma alloc_leaves_stack_witness :
  Unified.alloc no_call 0 (mk_kernel early_pool zero_stack) 100 ALLOC_FLAG_KERNEL (H := kernel_has_pool no_call 0) =
    let* (ptr, p) := Unified.alloc no_call 0 early_pool 100 ALLOC_FLAG_KERNEL (H := pool_has_pool) in
    Done (ptr, mk_kernel p zero_stack).
Proof. apply (alloc_leaves_stack no_call 0 (mk_kernel early_pool zero_stack) 100). reflexivity. Defined.
