(* ===== verification/StackSpec.v ===== *)
(** The stack allocator's contract, over every implementation of the
    [kmalloc] contract: aligned, in-frame, never overlapping allocations,
    growth into fresh frames, null exactly when the stack cannot grow, and what restoring a checkpoint gives back. *)

From Stdlib Require Import ZArith Lia.
From stdpp Require Import base list gmap option sets.
From coqutil Require Import Datatypes.RecordSetters.
From S2P Require Import Prelude Memory KAlloc Stack Buddy BuddyInit Slab Slob Slub Unified UnifiedSpec.
Import TriangleBracketNotations.

(** ** Alignment *)

Lemma align_size_eq size a :
  0 <= a < 32 → align_size size (2 ^ a) = u32 (size + 2 ^ a - 1) / 2 ^ a * 2 ^ a.
Proof.
  intros Ha. unfold align_size. assert (0 < 2 ^ a < 2 ^ 32) by
    (split; [apply Z.pow_pos_nonneg; lia|apply Z.pow_lt_mono_r; lia]).
  rewrite (u32_small (2 ^ a - 1)) by lia. apply land_align; [lia|apply u32_range].
Qed.

(** Rounding up, when it does not leave 32 bits. *)
Lemma align_size_bounds size a :
  0 <= a <= 12 → 0 <= size < 2 ^ 31 →
  size <= align_size size (2 ^ a) < size + 2 ^ a ∧ (2 ^ a | align_size size (2 ^ a)) ∧ 2 ^ a <= 4096.
Proof.
  intros Ha Hs. rewrite align_size_eq by lia.
  assert (0 < 2 ^ a <= 2 ^ 12) by (split; [apply Z.pow_pos_nonneg; lia|apply Z.pow_le_mono_r; lia]).
  rewrite u32_small by lia. set (d := 2 ^ a) in *.
  pose proof (Z.div_mod (size + d - 1) d ltac:(lia)).
  pose proof (Z.mod_pos_bound (size + d - 1) d ltac:(lia)).
  split; [lia|]. split; [apply Z.divide_factor_r|lia].
Qed.

Section Spec.
Context {K : Type} `{KAllocLaws K}.

(** ** The invariant *)

Definition frame_ok (k : K) (f n : Z) : Prop :=
  kload k (f + sf_start) = f + sizeof_stack_frame ∧
  kload k (f + sf_end) = f + sizeof_stack_frame + n ∧
  kload k (f + sf_size) = n ∧ kload k (f + sf_magic) = STACK_MAGIC ∧
  kload k (f + sf_canary) = STACK_CANARY ∧
  f + sizeof_stack_frame <= kload k (f + sf_current) <= f + sizeof_stack_frame + n.

(** An initialised allocator whose current frame is a live block. *)
Definition stack_ok (k : K) (s : stack) (l : list (Z * Z)) : Prop :=
  initialized s = true ∧ 0 <= total_capacity s <= MAX_STACK_SIZE ∧
  ∃ n, 0 < n <= MAX_STACK_SIZE ∧ (current_frame s, sizeof_stack_frame + n) ∈ l ∧
       frame_ok k (current_frame s) n.

(** The words of a frame's header. *)
Definition in_header (f a : Z) : Prop := f <= a < f + sizeof_stack_frame.

(** Only words of [f]'s header change among the live ones. *)
Definition keeps_but (f : Z) (l : list (Z * Z)) (k k' : K) : Prop :=
  ∀ a, in_blocks l a → ¬ in_header f a → kload k' a = kload k a.

Lemma keeps_but_of_keeps f l k k' : keeps l k k' → keeps_but f l k k'.
Proof. intros Hk a Ha _. by apply Hk. Qed.

Lemma keeps_but_trans f l k1 k2 k3 : keeps_but f l k1 k2 → keeps_but f l k2 k3 → keeps_but f l k1 k3.
Proof. intros H1 H2 a Ha Hh. rewrite H2, H1; done. Qed.

Lemma keeps_but_header f l k a v : in_header f a → keeps_but f l k (kstore k a v).
Proof. intros Ha b _ Hb. apply kload_kstore_ne. by intros ->. Qed.

Lemma frame_ok_bounds k l f n :
  kalloc_ok k l → (f, sizeof_stack_frame + n) ∈ l → 0 < f ∧ f + sizeof_stack_frame + n < 2 ^ 31.
Proof. intros Hk Hf. destruct (live_bounds _ _ _ _ Hk Hf) as (? & _ & ?). lia. Qed.

Ltac offsets :=
  unfold sf_start, sf_current, sf_end, sf_size, sf_magic, sf_canary, sf_prev, sf_next,
    cp_saved_pos, cp_timestamp, cp_prev, sizeof_stack_frame, sizeof_stack_checkpoint in *.

(** ** Fresh frames *)

Lemma allocate_frame_spec k l n :
  kalloc_ok k l → fits (sizeof_stack_frame + n) → 0 < n <= MAX_STACK_SIZE →
  ∃ f k', allocate_frame k n = Done (f, k') ∧ keeps l k k' ∧
    (f = 0 ∧ kalloc_ok k' l ∨
     0 < f ∧ block_disjoint f (sizeof_stack_frame + n) l ∧
     kalloc_ok k' ((f, sizeof_stack_frame + n) :: l) ∧ frame_ok k' f n ∧
     kload k' (f + sf_current) = f + sizeof_stack_frame).
Proof.
  intros Hk Hf Hn. unfold allocate_frame.
  unfold MAX_STACK_SIZE in Hn. rewrite (u32_small (sizeof_stack_frame + n)) by (offsets; lia).
  destruct (kmalloc_fresh _ _ _ Hk Hf) as (f & k1 & -> & Hkp & [[-> Hk1]|(Hf0 & H4 & Hfe & Hd & Hk1)]);
    cbn [obind]; [by exists 0, k1; eauto|].
  rewrite (proj2 (Z.eqb_neq f 0)) by lia. cbn zeta.
  assert (kload (kstore k1 (f + sf_start) (u32 (f + sizeof_stack_frame))) (f + sf_start)
          = f + sizeof_stack_frame) as -> by (rewrite kload_kstore_eq, u32_small; offsets; lia).
  rewrite (kload_kstore_ne _ _ (f + sf_start)), kload_kstore_eq by (offsets; lia).
  rewrite !u32_small by (offsets; lia).
  eexists f, _. split; [done|]. split.
  { etransitivity; [exact Hkp|].
    repeat (etransitivity; [|apply kstore_keeps; eapply disjoint_not_in; [exact Hd|offsets; lia]]).
    reflexivity. }
  right. split; [done|]. split; [done|]. split.
  { repeat (apply kstore_own; [|apply in_blocks_cons; left; offsets; lia]). exact Hk1. }
  unfold frame_ok. offsets. kmem_simpl. repeat split; lia.
Qed.

Lemma frame_ok_store k f n a v :
  frame_ok k f n → a = f + sf_current ∨ a = f + sf_next ∨ a = f + sf_prev →
  (a = f + sf_current → f + sizeof_stack_frame <= v <= f + sizeof_stack_frame + n) →
  frame_ok (kstore k a v) f n.
Proof.
  intros (H1 & H2 & H3 & H4 & H5 & H6) Ha Hv. unfold frame_ok.
  destruct (decide (a = f + sf_current)) as [E|E].
  - specialize (Hv E). subst a. offsets. kmem_simpl. done.
  - offsets. rewrite !kload_kstore_ne by lia. done.
Qed.

Lemma frame_ok_other k k' l f n :
  keeps l k k' → (f, sizeof_stack_frame + n) ∈ l → 0 < n → frame_ok k f n → frame_ok k' f n.
Proof.
  intros Hk Hf Hn (H1 & H2 & H3 & H4 & H5 & H6). unfold frame_ok.
  rewrite !Hk by (eexists f, _; split; [exact Hf|offsets; lia]). done.
Qed.

(** [allocate_frame] answers null exactly when [kmalloc] does. *)
Lemma allocate_frame_null k n f k' :
  0 < n <= MAX_STACK_SIZE → allocate_frame k n = Done (f, k') →
  (f = 0 → ∃ k1, kmalloc k (sizeof_stack_frame + n) = Done (0, k1)) ∧ (f ≠ 0 → ∀ k1, kmalloc k (sizeof_stack_frame + n) ≠ Done (0, k1)).
Proof.
  intros Hn. unfold allocate_frame. unfold MAX_STACK_SIZE in Hn. rewrite u32_small by (offsets; lia).
  destruct (kmalloc k (sizeof_stack_frame + n)) as [[q k1]| |]; cbn [obind]; [|done..].
  destruct (Z.eqb_spec q 0) as [->|Hq]; intros [= <- <-]; split; try done; [by exists k1|congruence].
Qed.

(** ** Growing *)

(** The size of the frame [grow] asks for. *)
Definition grow_size (k : K) (s : stack) (add : Z) : Z :=
  Z.max add (2 * kload k (current_frame s + sf_size)).

(** If the capacity allows that frame, the allocator can serve it. *)
Definition grow_fits (k : K) (s : stack) (add : Z) : Prop :=
  total_capacity s + grow_size k s add <= MAX_STACK_SIZE → fits (sizeof_stack_frame + grow_size k s add).

(** Why the stack cannot grow: the frame is over the limit, or [kmalloc]
    refuses it. *)
Definition cannot_grow (k : K) (s : stack) (add : Z) : Prop :=
  MAX_STACK_SIZE < total_capacity s + grow_size k s add ∨
  ∃ k', kmalloc k (sizeof_stack_frame + grow_size k s add) = Done (0, k').

Lemma grow_spec k s l add :
  kalloc_ok k l → grow_fits k s add → stack_ok k s l → 0 < add <= 2 ^ 24 →
  (∃ k', grow k s add = Done (false, k', s) ∧ kalloc_ok k' l ∧ keeps l k k' ∧ cannot_grow k s add) ∨
  ∃ k' s' n, grow k s add = Done (true, k', s') ∧ ¬ cannot_grow k s add ∧ n = grow_size k s add ∧
    total_capacity s' = total_capacity s + n ∧
    kalloc_ok k' ((current_frame s', sizeof_stack_frame + n) :: l) ∧
    block_disjoint (current_frame s') (sizeof_stack_frame + n) l ∧
    stack_ok k' s' ((current_frame s', sizeof_stack_frame + n) :: l) ∧
    frame_ok k' (current_frame s') n ∧ add <= n ∧ stats s' = stats s ∧
    overflow_detection s' = overflow_detection s ∧
    get_top k' s' = current_frame s' + sizeof_stack_frame ∧ keeps_but (current_frame s) l k k'.
Proof.
  intros Hk Hfit (Hi & Hc & n & Hn & Hf & Hfr) Hadd. unfold grow, cannot_grow. rewrite Hi. cbn [negb].
  destruct (frame_ok_bounds _ _ _ _ Hk Hf) as [Hf0 Hfe].
  pose proof Hfr as (_ & _ & Hsz & _). unfold grow_fits, grow_size in *. rewrite Hsz in Hfit |- *. unfold MAX_STACK_SIZE in *.
  rewrite (u32_small (n * 2)) by lia.
  set (m := if add <? n * 2 then n * 2 else add).
  assert (add <= m <= 2 ^ 24 ∧ n * 2 <= m ∧ Z.max add (2 * n) = m) as Hm by (subst m; case_if; lia).
  replace (Z.max add (2 * n)) with m in * by lia.
  rewrite !u32_small by lia. case_match eqn:Hlim; zify_bool; [left; exists k; repeat split; (done || by left)|].
  destruct (allocate_frame_spec k l m Hk) as (f & k1 & Ef & Hkp & Hcase);
    [apply Hfit; lia|unfold MAX_STACK_SIZE; lia|]. rewrite Ef. cbn [obind].
  destruct (allocate_frame_null k m f k1 ltac:(unfold MAX_STACK_SIZE; lia) Ef) as [Hnull Hsome].
  destruct Hcase as [[-> Hk1]|(Hf1 & Hd & Hk1 & Hfr1 & Ht1)]; [left; exists k1; repeat split; (done || (right; by apply Hnull))|right].
  assert (¬ (1024 * 1024 < total_capacity s + m ∨ ∃ k', kmalloc k (sizeof_stack_frame + m) = Done (0, k'))) as Hcan
    by (intros [?|[k' Ek']]; [lia|by apply (Hsome ltac:(lia) k')]).
  rewrite (proj2 (Z.eqb_neq f 0)) by lia. unfold link_frame. rewrite (proj2 (Z.eqb_neq f 0)) by lia.
  rewrite (proj2 (Z.eqb_neq (current_frame s) 0)) by lia. cbn [negb].
  set (k2 := kstore (kstore k1 (f + sf_next) 0) (f + sf_prev) (current_frame s)).
  set (k3 := kstore k2 (current_frame s + sf_next) f).
  set (s1 := if frame_list s =? 0 then _ else _). destruct (Hd _ _ Hf) as [Hdis|Hdis].
  all: assert (frame_ok k3 f m ∧ kload k3 (f + sf_current) = f + sizeof_stack_frame) as [Hfr3 Ht3] by
    (split; [unfold frame_ok, k3, k2 in *; offsets; rewrite !kload_kstore_ne by lia; done|
             unfold k3, k2; offsets; rewrite !kload_kstore_ne by lia; done]).
  all: exists k3; eexists _, m; split; [done|]; cbn [current_frame apply_update].
  all: assert (kalloc_ok k3 ((f, sizeof_stack_frame + m) :: l)) as Hk3 by
    (unfold k3, k2; repeat apply kstore_own; [exact Hk1|..];
     [apply in_blocks_cons; left; offsets; lia..|
      apply in_blocks_cons; right; eexists _, _; split; [exact Hf|offsets; lia]]).
  all: split; [exact Hcan|]; split; [done|]; split;
     [change (u32 (total_capacity s1 + m) = total_capacity s + m);
      replace (total_capacity s1) with (total_capacity s) by (subst s1; by destruct (frame_list s =? 0)); rewrite u32_small; lia|].
  all: split; [exact Hk3|]; split; [exact Hd|].
  all: split; [split; [subst s1; by destruct (frame_list s =? 0)|]; split;
     [change (0 <= u32 (total_capacity s1 + m) <= MAX_STACK_SIZE);
      replace (total_capacity s1) with (total_capacity s) by (subst s1; by destruct (frame_list s =? 0));
      unfold MAX_STACK_SIZE; rewrite u32_small; lia|];
     exists m; split; [unfold MAX_STACK_SIZE; lia|]; split; [apply elem_of_cons; by left|exact Hfr3]|].
  all: split; [exact Hfr3|]; split; [lia|]; split; [subst s1; by destruct (frame_list s =? 0)|];
    split; [subst s1; by destruct (frame_list s =? 0)|].
  all: split; [unfold get_top;
     match goal with |- (if ?b then _ else _) = _ =>
       replace b with true by (subst s1; by destruct (frame_list s =? 0)) end; exact Ht3|].
  all: eapply keeps_but_trans; [by apply keeps_but_of_keeps|]; unfold k3, k2;
    eapply keeps_but_trans; [|apply keeps_but_header; unfold in_header; offsets; lia];
    apply keeps_but_of_keeps;
    repeat (etransitivity; [|apply kstore_keeps; eapply disjoint_not_in; [exact Hd|offsets; lia]]);
    reflexivity.
Qed.

(** ** Taking bytes of the current frame *)

(** The allocator's frame bookkeeping, without its statistics. *)
Definition same_frame (s s' : stack) : Prop :=
  initialized s' = initialized s ∧ total_capacity s' = total_capacity s ∧ current_frame s' = current_frame s.

Lemma same_frame_ok k s s' l : same_frame s s' → stack_ok k s l → stack_ok k s' l.
Proof. intros (E1 & E2 & E3) Hs. unfold stack_ok. by rewrite E1, E2, E3. Qed.

(** What [take] returns: the canary holds, so the block is handed out. *)
Lemma take_spec k s l n p asz :
  kalloc_ok k l → stack_ok k s l → (current_frame s, sizeof_stack_frame + n) ∈ l → 0 < n →
  frame_ok k (current_frame s) n → 0 < asz →
  get_top k s <= p → p + asz <= current_frame s + sizeof_stack_frame + n →
  ∃ k' s', take k s p asz = (p, k', s') ∧ same_frame s s' ∧ kalloc_ok k' l ∧ stack_ok k' s' l ∧
    frame_ok k' (current_frame s) n ∧ get_top k' s' = p + asz ∧ keeps_but (current_frame s) l k k'.
Proof.
  intros Hk Hs Hf Hn Hfr Ha Hp He. destruct (frame_ok_bounds _ _ _ _ Hk Hf) as [Hf0 Hfe].
  pose proof Hs as (Hi & Hc & _). pose proof Hfr as (_ & _ & _ & _ & Hcan & Hcur).
  unfold get_top in *. rewrite Hi in *. unfold take.
  rewrite u32_small by (offsets; lia). set (f := current_frame s) in *.
  set (k' := kstore k (f + sf_current) (p + asz)).
  assert (frame_ok k' f n) as Hfr' by (apply frame_ok_store; [done|by left|intros _; lia]).
  set (s0 := update_peak_usage _).
  assert (same_frame s s0) as Hsf by (subst s0; unfold update_peak_usage; case_if; done).
  pose proof Hsf as (E1 & E2 & E3).
  replace (current_frame s0) with f by done.
  pose proof Hfr' as (_ & _ & _ & _ & -> & _). rewrite Z.eqb_refl, andb_false_r.
  exists k', s0. split; [done|]. split; [done|].
  split; [apply kstore_own; [done|]; exists f, (sizeof_stack_frame + n); split; [done|offsets; lia]|].
  split. { split; [congruence|]. rewrite E2. split; [done|]. rewrite E3. exists n.
    destruct Hs as (_ & _ & n' & Hn' & _ & Hfr2). split; [|done].
    destruct Hfr as (_ & _ & Hsz & _), Hfr2 as (_ & _ & Hsz2 & _). fold f in Hsz2. lia. }
  split; [done|]. rewrite E1, Hi, E3. fold f. split; [apply kload_kstore_eq|].
  apply keeps_but_header. unfold in_header. offsets. lia.
Qed.

(** The room test, on addresses that do not wrap. *)
Lemma room_spec k s l n a asz :
  kalloc_ok k l → (current_frame s, sizeof_stack_frame + n) ∈ l → 0 < n →
  frame_ok k (current_frame s) n → 0 <= a <= 12 → 0 <= asz <= 2 ^ 24 →
  let p := align_pointer (kload k (current_frame s + sf_current)) (2 ^ a) in
  kload k (current_frame s + sf_current) <= p ∧ (2 ^ a | p) ∧
  p < kload k (current_frame s + sf_current) + 2 ^ a ∧ 2 ^ a <= 4096 ∧
  room k s asz (2 ^ a) =
    if p + asz <=? current_frame s + sizeof_stack_frame + n then Some p else None.
Proof.
  intros Hk Hf Hn Hfr Ha Hz p. destruct (frame_ok_bounds _ _ _ _ Hk Hf) as [Hf0 Hfe].
  destruct Hfr as (_ & He & _ & _ & _ & Hc).
  destruct (align_size_bounds (kload k (current_frame s + sf_current)) a Ha) as (Hr & Hd & Hm); [offsets; lia|].
  change (align_size (kload k (current_frame s + sf_current)) (2 ^ a)) with p in *.
  do 3 (split; [done || lia|]). split; [done|]. unfold room. fold p. rewrite He, u32_small by (offsets; lia).
  destruct (Z.ltb_spec (current_frame s + sizeof_stack_frame + n) (p + asz)),
    (Z.leb_spec (p + asz) (current_frame s + sizeof_stack_frame + n)); done || lia.
Qed.

(** The result of [alloc] when it is not null: aligned, and its bytes end at
    the top, inside the current frame. *)
Definition served_at (size al p : Z) (k' : K) (s' : stack) : Prop :=
  0 < p ∧ (al | p) ∧ p + size <= get_top k' s' ∧ get_top k' s' <= kload k' (current_frame s' + sf_end).

(** The aligned block fits between the top and the end of the current frame. *)
Definition fits_here (k : K) (s : stack) (size al : Z) : Prop :=
  align_pointer (get_top k s) al + align_size size al <= kload k (current_frame s + sf_end).

Lemma stack_alloc_fast k s l n a size p :
  kalloc_ok k l → stack_ok k s l → (current_frame s, sizeof_stack_frame + n) ∈ l → 0 < n →
  frame_ok k (current_frame s) n → 0 <= a <= 12 → 0 < size <= MAX_STACK_SIZE →
  room k s (align_size size (2 ^ a)) (2 ^ a) = Some p →
  ∃ k' s', take k s p (align_size size (2 ^ a)) = (p, k', s') ∧ same_frame s s' ∧ kalloc_ok k' l ∧
    stack_ok k' s' l ∧ keeps_but (current_frame s) l k k' ∧ (2 ^ a | p) ∧ get_top k s <= p ∧
    p + size <= get_top k' s' ∧ get_top k' s' <= kload k' (current_frame s' + sf_end).
Proof.
  intros Hk Hs Hf Hn Hfr Ha Hsz Hr. unfold MAX_STACK_SIZE in Hsz.
  destruct (align_size_bounds size a Ha ltac:(lia)) as (Hup & _ & H12).
  destruct (room_spec k s l n a (align_size size (2 ^ a)) Hk Hf Hn Hfr Ha ltac:(lia))
    as (Hc & Hd & _ & _ & Hroom). rewrite Hr in Hroom.
  destruct (Z.leb_spec (align_pointer (kload k (current_frame s + sf_current)) (2 ^ a)
    + align_size size (2 ^ a)) (current_frame s + sizeof_stack_frame + n)) as [Hle|]; [|done].
  injection Hroom as Ep; rewrite <- Ep in *. pose proof Hs as (Hi & _).
  destruct (take_spec k s l n p (align_size size (2 ^ a)) Hk Hs Hf Hn Hfr ltac:(lia))
    as (k' & s' & E & Hsf & Hk' & Hs' & Hfr' & Ht & Hkp); [unfold get_top; by rewrite Hi|done|].
  exists k', s'. do 5 (split; [done|]). split; [done|]. split; [unfold get_top; by rewrite Hi|].
  rewrite Ht. split; [lia|]. pose proof Hsf as (_ & _ & ->).
  destruct Hfr' as (_ & -> & _). lia.
Qed.

(** The allocation from a frame that has just been added. *)
Lemma stack_alloc_grown k s l a size k' s' m (l' := (current_frame s', sizeof_stack_frame + m) :: l) :
  0 <= a <= 12 → 0 < size <= MAX_STACK_SIZE → kalloc_ok k' l' → stack_ok k' s' l' → frame_ok k' (current_frame s') m →
  block_disjoint (current_frame s') (sizeof_stack_frame + m) l → align_size size (2 ^ a) * 2 <= m →
  get_top k' s' = current_frame s' + sizeof_stack_frame → keeps_but (current_frame s) l k k' →
  ∃ p k2 s2, room k' s' (align_size size (2 ^ a)) (2 ^ a) = Some p ∧ take k' s' p (align_size size (2 ^ a)) = (p, k2, s2) ∧
    kalloc_ok k2 l' ∧ stack_ok k2 s2 l' ∧ keeps_but (current_frame s) l k k2 ∧ served_at size (2 ^ a) p k2 s2 ∧
    current_frame s2 = current_frame s' ∧ total_capacity s2 = total_capacity s' ∧ current_frame s' + sizeof_stack_frame <= p.
Proof.
  intros Ha Hsz Hk' Hs' Hfr' Hd Hm Ht Hkp. pose proof Hsz as Hsz'. unfold MAX_STACK_SIZE in Hsz'.
  destruct (align_size_bounds size a Ha ltac:(lia)) as (Hup & [i Hi2] & H12).
  assert ((current_frame s', sizeof_stack_frame + m) ∈ l') as Hin by (apply elem_of_cons; by left).
  destruct (room_spec k' s' l' m a (align_size size (2 ^ a)) Hk' Hin ltac:(lia) Hfr' Ha ltac:(lia))
    as (_ & _ & Hlt & _ & Hroom').
  assert (kload k' (current_frame s' + sf_current) = current_frame s' + sizeof_stack_frame) as Et
    by (unfold get_top in Ht; pose proof Hs' as (Hi' & _); by rewrite Hi' in Ht).
  assert (2 ^ a <= align_size size (2 ^ a)) by (apply Z.divide_pos_le; [lia|by exists i]).
  rewrite (proj2 (Z.leb_le _ _)) in Hroom' by lia.
  destruct (stack_alloc_fast k' s' l' m a size _ Hk' Hs' Hin ltac:(lia) Hfr' Ha Hsz Hroom')
    as (k2 & s2 & E2 & (_ & Ec2 & Ef2) & Hk2 & Hs2 & Hkp2 & Hd2 & Hge & Hp & Htop).
  eexists _, k2, s2. split; [exact Hroom'|]. split; [exact E2|]. do 2 (split; [done|]). split.
  { intros w Hw Hh. rewrite Hkp2, Hkp; [done..|apply in_blocks_cons; by right|].
    destruct Hw as (q & c & Hq & Hr). unfold in_header. intros Hx.
    destruct (Hd _ _ Hq); lia. }
  destruct (frame_ok_bounds _ _ _ _ Hk' Hin) as [Hf0 _]. rewrite Ht in Hge. unfold sizeof_stack_frame in *.
  split; [split; [lia|done]|]. by split.
Qed.

(** C33. [StackAllocator::alloc], for every size up to the largest stack, every
    alignment that is a power of two up to 4096, and an allocator below that
    serves the frame the stack would grow into if the limit allows it or
    answers null: it returns, the invariant holds, and among the live bytes
    only header words of the old frame change.  When the aligned block fits in
    the current frame the pointer is in it, at or above the old top.  When not,
    and the limit and [kmalloc] allow the next frame, the pointer is in that
    frame, which is disjoint from every live block and of the size asked for,
    at least twice the old frame's.  Either way it is aligned and its bytes end
    at the new top, inside the current frame.  It is null exactly when the
    block does not fit and the next frame is over the limit or refused. *)
Theorem stack_alloc_spec k s l a size :
  kalloc_ok k l → stack_ok k s l → grow_fits k s (align_size size (2 ^ a) * 2) →
  0 <= a <= 12 → 0 < size <= MAX_STACK_SIZE →
  let add := align_size size (2 ^ a) * 2 in
  ∃ p k' s' l', stack_alloc k s size (2 ^ a) = Done (p, k', s') ∧ kalloc_ok k' l' ∧ stack_ok k' s' l' ∧
    keeps_but (current_frame s) l k k' ∧
    (fits_here k s size (2 ^ a) ∧ served_at size (2 ^ a) p k' s' ∧ l' = l ∧ current_frame s' = current_frame s ∧ get_top k s <= p
     ∨ ¬ fits_here k s size (2 ^ a) ∧ ¬ cannot_grow k s add ∧ served_at size (2 ^ a) p k' s' ∧
       (let n := grow_size k s add in
        l' = (current_frame s', sizeof_stack_frame + n) :: l ∧ block_disjoint (current_frame s') (sizeof_stack_frame + n) l ∧
        current_frame s' + sizeof_stack_frame <= p ∧ total_capacity s' = total_capacity s + n)
     ∨ ¬ fits_here k s size (2 ^ a) ∧ cannot_grow k s add ∧ p = 0 ∧ l' = l ∧ current_frame s' = current_frame s).
Proof.
  intros Hk Hs Hfit Ha Hsz add. pose proof Hs as (Hi & _ & n & Hn & Hf & Hfr).
  pose proof Hsz as Hsz'. unfold MAX_STACK_SIZE in Hsz'.
  destruct (align_size_bounds size a Ha ltac:(lia)) as (Hup & Hdiv & H12).
  unfold stack_alloc. rewrite Hi, (proj2 (Z.eqb_neq size 0)) by lia. cbn [negb orb].
  set (s0 := if overflow_detection s then _ else s).
  assert (same_frame s s0) as Hsf by (subst s0; by destruct (overflow_detection s)).
  pose proof Hsf as (_ & Ec & Ef). pose proof (same_frame_ok _ _ _ _ Hsf Hs) as Hs0.
  assert (grow_fits k s0 (align_size size (2 ^ a) * 2)) as Hfit0
    by (unfold grow_fits, grow_size in *; by rewrite Ec, Ef).
  destruct (room_spec k s0 l n a (align_size size (2 ^ a)) Hk ltac:(by rewrite Ef) ltac:(lia)
    ltac:(by rewrite Ef) Ha ltac:(lia)) as (_ & _ & _ & _ & Hroom).
  assert (get_top k s = kload k (current_frame s0 + sf_current)) as Etop by (unfold get_top; by rewrite Hi, Ef).
  assert (fits_here k s size (2 ^ a) ↔
    align_pointer (kload k (current_frame s0 + sf_current)) (2 ^ a) + align_size size (2 ^ a) <= current_frame s0 + sizeof_stack_frame + n) as Hfits
    by (unfold fits_here; rewrite Etop; destruct Hfr as (_ & -> & _); by rewrite Ef).
  assert (grow_size k s0 add = grow_size k s add ∧ (cannot_grow k s0 add ↔ cannot_grow k s add)) as [Egs Ecg]
    by (unfold cannot_grow, grow_size; by rewrite Ec, Ef).
  destruct (room k s0 _ _) as [p|] eqn:Er.
  - destruct (stack_alloc_fast k s0 l n a size p Hk Hs0 ltac:(by rewrite Ef) ltac:(lia) ltac:(by rewrite Ef)
      Ha Hsz Er) as (k' & s' & -> & (_ & _ & Ef') & Hk' & Hs' & Hkp & Hd & Hge & Hp & Ht).
    rewrite Ef in Hkp. exists p, k', s', l. do 4 (split; [done|]). left. split.
    { apply Hfits. destruct (Z.leb_spec (align_pointer (kload k (current_frame s0 + sf_current)) (2 ^ a) + align_size size (2 ^ a))
        (current_frame s0 + sizeof_stack_frame + n)); [done|]. congruence. }
    assert (get_top k s0 = get_top k s) as Etop0 by (unfold get_top; destruct Hsf as (-> & _ & ->); done).
    rewrite Etop0 in Hge. split; [split; [|done]|split; [done|split; [congruence|done]]].
    destruct (frame_ok_bounds _ _ _ _ Hk Hf) as [Hf0 _]. rewrite Etop, Ef in Hge. destruct Hfr as (_ & _ & _ & _ & _ & Hcur).
    unfold sizeof_stack_frame in *. lia.
  - assert (¬ fits_here k s size (2 ^ a)) as Hnf.
    { intros F%Hfits. rewrite (proj2 (Z.leb_le _ _) F) in Hroom. congruence. }
    rewrite u32_small by lia. fold add.
    destruct (grow_spec k s0 l add Hk Hfit0 Hs0 ltac:(unfold add; lia))
      as [(k' & -> & Hk' & Hkp & Hcan)|(k' & s' & m & -> & Hcan & Em & Et & Hk' & Hd & Hs' & Hfr' & Hm & _ & _ & Ht & Hkp)];
      cbn [obind negb].
    + exists 0, k', s0, l. split; [done|]. split; [done|]. split.
      { destruct Hs0 as (? & ? & m & ? & ? & ?). do 2 (split; [done|]). exists m. do 2 (split; [done|]).
        eapply frame_ok_other; [done..|lia|done]. }
      split; [by apply keeps_but_of_keeps|]. right. right. split; [done|]. split; [by apply Ecg|]. done.
    + rewrite Ef in Hkp. rewrite Egs in Em.
      destruct (stack_alloc_grown k s l a size k' s' m Ha Hsz Hk' Hs' Hfr' Hd Hm Ht Hkp)
        as (p & k2 & s2 & -> & -> & Hk2 & Hs2 & Hkp2 & Hserved & Ef2 & Ec2 & Hp).
      exists p, k2, s2, ((current_frame s', sizeof_stack_frame + m) :: l). do 4 (split; [done|]). right. left.
      split; [done|]. split; [by rewrite <- Ecg|]. split; [done|]. cbv zeta. rewrite <- Em, Ef2, Ec2, Et, Ec. done.
Qed.

(** ** Initialisation *)

Definition init_size (size : Z) : Z := Z.min (Z.max size MIN_STACK_SIZE) MAX_STACK_SIZE.

Lemma stack_init_spec k s l size :
  kalloc_ok k l → fits (sizeof_stack_frame + init_size size) → initialized s = false →
  ∃ k' s', stack_init k s size = Done (k', s') ∧
    (initialized s' = false ∧ kalloc_ok k' l ∨
     let l' := (current_frame s', sizeof_stack_frame + init_size size) :: l in
          kalloc_ok k' l' ∧ stack_ok k' s' l' ∧ get_top k' s' = current_frame s' + sizeof_stack_frame).
Proof.
  intros Hk Hfit Hi. unfold stack_init. rewrite Hi.
  set (n0 := if size <? MIN_STACK_SIZE then _ else _). set (n := if MAX_STACK_SIZE <? n0 then _ else _).
  assert (0 < n <= MAX_STACK_SIZE ∧ n = init_size size) as [Hn En].
  { subst n n0. unfold init_size, MIN_STACK_SIZE, MAX_STACK_SIZE.
    destruct (Z.ltb_spec size 4096); [|destruct (Z.ltb_spec (1024 * 1024) size)];
      repeat case_if; lia. }
  rewrite <- En in *. destruct (allocate_frame_spec k l n Hk Hfit Hn) as (f & k1 & -> & _ & [[-> Hk1]|Hfr]); cbn [obind].
  { do 2 eexists. split; [done|]. left. split; [|done]. by destruct s. }
  destruct Hfr as (Hf & _ & Hk1 & Hfr & Ht). rewrite (proj2 (Z.eqb_neq f 0)) by lia.
  do 2 eexists. split; [done|]. right. cbv zeta. split; [done|]. split; [|done].
  split; [done|]. split; [simpl; lia|]. exists n. split; [done|]. split; [apply elem_of_cons; by left|done].
Qed.

(** ** Checkpoints *)

(** Restoring the newest checkpoint, when the saved position is in the current frame. *)
Lemma restore_newest fuel k s cp q :
  initialized s = true → cp ≠ 0 → checkpoint_stack s = cp → kload k (cp + cp_saved_pos) = q → q ≠ 0 →
  kload k (current_frame s + sf_start) <= q <= kload k (current_frame s + sf_current) →
  cp + cp_prev ≠ current_frame s + sf_current → (0 < fuel)%nat →
  ∃ k' s', restore_checkpoint fuel k s cp = Done (k', s') ∧ k' = kstore k (current_frame s + sf_current) q ∧
    current_frame s' = current_frame s ∧ initialized s' = true ∧
    checkpoint_stack s' = kload k (cp + cp_prev) ∧ get_top k' s' = q.
Proof.
  intros Hi Hcp Hst Hq Hq0 Hin Hne Hfuel. unfold restore_checkpoint. rewrite (proj2 (Z.eqb_neq cp 0)) by done.
  unfold free_to_checkpoint. rewrite Hi, (proj2 (Z.eqb_neq cp 0)), Hq by done. cbn [negb orb].
  unfold is_valid_ptr. rewrite Hi, (proj2 (Z.eqb_neq q 0)) by done. cbn [negb orb].
  rewrite (proj2 (Z.leb_le (kload k (current_frame s + sf_start)) q)) by lia.
  rewrite (proj2 (Z.leb_le q (kload k (current_frame s + sf_current)))) by lia. cbn [negb andb].
  set (k1 := kstore k _ q). set (s1 := if underflow_detection _ then _ else _).
  assert (checkpoint_stack s1 = cp ∧ current_frame s1 = current_frame s ∧ initialized s1 = true)
    as (E1 & E2 & E3) by (subst s1; case_if; done).
  destruct fuel as [|fuel]; [lia|]. cbn [loop]. rewrite E1, Z.eqb_refl, (proj2 (Z.eqb_neq cp 0)) by done.
  cbn [negb andb obind]. do 2 eexists. rewrite Z.eqb_refl. split; [done|]. split; [done|].
  split; [exact E2|]. split; [exact E3|]. split.
  - change (checkpoint_stack _) with (kload k1 (cp + cp_prev)). apply kload_kstore_ne. congruence.
  - unfold get_top. change (initialized (drop_checkpoint _)) with (initialized s1). rewrite E3.
    change (current_frame (drop_checkpoint _)) with (current_frame s1). rewrite E2. apply kload_kstore_eq.
Qed.

(** A checkpoint rewinds the allocations that follow it.  Let
    [create_checkpoint] return [cp], and let any later state still have the
    same current frame, [cp] as its newest checkpoint and a top that has not
    sunk, with no live byte outside the frame's header changed, as [alloc]
    leaves them.  Then [restore_checkpoint(cp)] returns with the top and the
    newest checkpoint that [create_checkpoint] had found. *)
Theorem checkpoint_roundtrip fuel k s l cp k1 s1 k2 s2 :
  kalloc_ok k l → fits sizeof_stack_checkpoint → stack_ok k s l → (0 < fuel)%nat →
  create_checkpoint k s = Done (cp, k1, s1) → cp ≠ 0 →
  initialized s2 = true → current_frame s2 = current_frame s1 → checkpoint_stack s2 = cp →
  keeps_but (current_frame s1) ((cp, sizeof_stack_checkpoint) :: l) k1 k2 →
  kload k2 (current_frame s2 + sf_start) = kload k1 (current_frame s1 + sf_start) →
  get_top k1 s1 <= get_top k2 s2 →
  ∃ k3 s3, restore_checkpoint fuel k2 s2 cp = Done (k3, s3) ∧ get_top k3 s3 = get_top k s ∧
    current_frame s3 = current_frame s ∧ checkpoint_stack s3 = checkpoint_stack s.
Proof.
  intros Hk Hfit Hs Hfuel Hc Hcp Hi2 Hf2 Hst2 Hkp2 Hstart Htop.
  pose proof Hs as (Hi & _ & n & Hn & Hf & Hfr). unfold create_checkpoint in Hc. rewrite Hi in Hc.
  cbn [negb] in Hc.
  destruct (kmalloc_fresh _ _ _ Hk Hfit) as (p & k' & E & Hkp & Hp). rewrite E in Hc. cbn [obind] in Hc.
  destruct (Z.eqb_spec p 0); [by injection Hc as <- _ _|]. injection Hc as <- <- <-.
  destruct Hp as [[? _]|(Hp0 & _ & _ & Hd & _)]; [done|].
  change (current_frame s2 = current_frame s) in Hf2.
  pose proof (frame_ok_other _ _ _ _ _ Hkp Hf ltac:(lia) Hfr) as Hfr'.
  destruct (frame_ok_bounds _ _ _ _ Hk Hf) as [Hf0 _].
  destruct Hfr as (_ & _ & _ & _ & _ & Hcur), Hfr' as (Hst' & _ & _ & _ & _ & Hcur').
  set (top := kload k' (current_frame s + sf_current)) in *.
  set (k1' := kstore (kstore (kstore k' _ top) _ 0) _ (checkpoint_stack s)) in *.
  change (keeps_but (current_frame s) ((p, sizeof_stack_checkpoint) :: l) k1' k2) in Hkp2.
  change (kload k2 (current_frame s2 + sf_start) = kload k1' (current_frame s + sf_start)) in Hstart.
  change ((if initialized s then kload k1' (current_frame s + sf_current) else 0) <= get_top k2 s2) in Htop.
  assert (get_top k s = top) as Etop.
  { unfold get_top. rewrite Hi. symmetry. apply Hkp. eexists _, _. split; [exact Hf|offsets; lia]. }
  assert (∀ o v, kload k1' (p + o) = v → 0 <= o < sizeof_stack_checkpoint → kload k2 (p + o) = v) as Hcpw.
  { intros o v Hv Ho. rewrite <- Hv. apply Hkp2; [apply in_blocks_cons; left; lia|].
    unfold in_header. destruct (Hd _ _ Hf); offsets; lia. }
  assert (∀ a, in_header (current_frame s) a → kload k1' a = kload k' a) as Hhd.
  { intros a Ha. unfold in_header in Ha. destruct (Hd _ _ Hf); unfold k1'; offsets; by rewrite !kload_kstore_ne by lia. }
  destruct (restore_newest fuel k2 s2 p top Hi2 Hcp Hst2) as (k3 & s3 & E3 & _ & Hf3 & _ & Hst3 & Ht3);
    [apply Hcpw; [unfold k1'; offsets; kmem_simpl; done|offsets; lia]|offsets; lia| | |done|].
  - rewrite Hstart. rewrite Hhd, Hst' by (unfold in_header; offsets; lia).
    unfold get_top in Htop. rewrite Hi2, Hi, Hhd in Htop by (unfold in_header; offsets; lia).
    fold top in Htop. offsets. lia.
  - rewrite Hf2. destruct (Hd _ _ Hf); offsets; lia.
  - exists k3, s3. split; [done|]. split; [by rewrite Etop|]. split; [by rewrite Hf3, Hf2|].
    rewrite Hst3. apply Hcpw; [unfold k1'; offsets; kmem_simpl; done|offsets; lia].
Qed.
End Spec.

(** ** The kernel's own [kmalloc]

    The stack allocator on the pool at the point of [VMM::init] where it is
    initialised: the buddy policy serves its frames. *)
#[local] Instance the_pool : KAlloc pool := pool_kalloc no_call 0.
#[local] Instance the_laws : KAllocLaws pool := pool_laws no_call 0.

Definition early_stack : outcome (pool * stack) := stack_init early_pool zero_stack DEFAULT_STACK_SIZE.
Definition early_p : pool := match early_stack with Done (p, _) => p | _ => early_pool end.
Definition early_s : stack := match early_stack with Done (_, s) => s | _ => zero_stack end.
Definition early_l : list (Z * Z) := [(current_frame early_s, sizeof_stack_frame + DEFAULT_STACK_SIZE)].

Lemma early_ok : @kalloc_ok _ _ the_laws early_p early_l ∧ stack_ok early_p early_s early_l.
Proof.
  assert (@fits _ _ the_laws (sizeof_stack_frame + init_size DEFAULT_STACK_SIZE)) as Hfit.
  { split; [done|]. exists 5. split; [vm_compute; reflexivity|done]. }
  assert (@kalloc_ok _ _ the_laws early_pool []) as Hk by exact early_pool_ok.
  destruct (stack_init_spec early_pool zero_stack [] DEFAULT_STACK_SIZE Hk Hfit eq_refl)
    as (p & s & E & Hc).
  assert (early_stack = Done (p, s)) as E' by exact E.
  assert (p = early_p ∧ s = early_s) as [-> ->] by (unfold early_p, early_s; by rewrite E').
  destruct Hc as [[Hi _]|(Hk' & Hs & _)]; [|by split].
  assert (initialized early_s = true) as Ht by (vm_compute; reflexivity). congruence.
Qed.

Lemma early_fits : fits_here early_p early_s 100 (2 ^ 4).
Proof. unfold fits_here. apply Z.leb_le. vm_compute. reflexivity. Qed.

Lemma stack_alloc_spec_witness :
  ∃ p k' s', stack_alloc early_p early_s 100 (2 ^ 4) = Done (p, k', s') ∧ stack_ok k' s' early_l ∧
    (16 | p) ∧ get_top early_p early_s <= p ∧ p + 100 <= get_top k' s'.
Proof.
  destruct (stack_alloc_spec early_p early_s early_l 4 100) as (p & k' & s' & l' & E & _ & Hs & _ & Hc).
  - apply early_ok.
  - apply early_ok.
  - intros _. split; [split; vm_compute; reflexivity|]. exists 6. split; [vm_compute; reflexivity|vm_compute; done].
  - split; done.
  - split; done.
  - destruct Hc as [(_ & (_ & Hd & Hp & _) & El & _ & Ht)|[(Hn & _)|(Hn & _)]]; [|destruct (Hn early_fits)..].
    rewrite El in Hs. exists p, k', s'. split; [exact E|]. split; [exact Hs|]. split; [exact Hd|]. split; [exact Ht|exact Hp].
Defined.

(** A checkpoint of the fresh stack, and 100 bytes allocated after it. *)
Definition cp_run : outcome (Z * pool * stack) := create_checkpoint early_p early_s.
Definition cp_ptr : Z := match cp_run with Done (cp, _, _) => cp | _ => 0 end.
Definition cp_p : pool := match cp_run with Done (_, p, _) => p | _ => early_pool end.
Definition cp_s : stack := match cp_run with Done (_, _, s) => s | _ => zero_stack end.
Definition later_run : outcome (Z * pool * stack) := stack_alloc cp_p cp_s 100 STACK_ALIGNMENT.
Definition later_p : pool := match later_run with Done (_, p, _) => p | _ => early_pool end.
Definition later_s : stack := match later_run with Done (_, _, s) => s | _ => zero_stack end.

Lemma later_keeps l : keeps_but (current_frame cp_s) l cp_p later_p.
Proof.
  assert (later_p = kstore cp_p (current_frame cp_s + sf_current) (get_top later_p later_s)) as ->
    by (vm_compute; reflexivity).
  apply keeps_but_header. unfold in_header, sf_current, sizeof_stack_frame. lia.
Qed.

Lemma checkpoint_roundtrip_witness :
  ∃ k3 s3, restore_checkpoint 1 later_p later_s cp_ptr = Done (k3, s3) ∧
    get_top k3 s3 = get_top early_p early_s ∧ current_frame s3 = current_frame early_s ∧
    checkpoint_stack s3 = checkpoint_stack early_s.
Proof.
  destruct early_ok as [Hk Hs].
  apply (checkpoint_roundtrip 1 early_p early_s early_l cp_ptr cp_p cp_s later_p later_s Hk).
  - split; [split; reflexivity|]. exists 0. split; [vm_compute; reflexivity|done].
  - exact Hs.
  - lia.
  - vm_compute; reflexivity.
  - vm_compute; discriminate.
  - vm_compute; reflexivity.
  - vm_compute; reflexivity.
  - vm_compute; reflexivity.
  - apply later_keeps.
  - vm_compute; reflexivity.
  - vm_compute; discriminate.
Defined.

(** ** Two defects, on the kernel's own stack *)

(** The room test wraps: a request of almost 4 GB fits, and takes the top
    below the start of its frame. *)
Definition huge_alloc : outcome (bool * bool) :=
  let* (p, k, s) := stack_alloc early_p early_s 0xFFFFF000 STACK_ALIGNMENT in
  Done (negb (p =? 0), get_top k s <? kload k (current_frame s + sf_start)).

(** A request of 0xFFFFF000 bytes does not fail: the sum of the room test
    wraps around, the pointer is not null, and the stack's top ends up below
    the start of its frame. *)
Theorem stack_alloc_wraps : huge_alloc = Done (true, true).
Proof. vm_compute. reflexivity. Qed.

(** A checkpoint, an allocation that grows the stack, and the checkpoint restored. *)
Definition restore_after_growth : outcome (Z * Z) :=
  let* (cp, k, s) := create_checkpoint early_p early_s in
  let* (_, k, s) := stack_alloc k s 100000 STACK_ALIGNMENT in
  let before := get_top k s in
  let* (k, s) := restore_checkpoint 10 k s cp in
  Done (before, get_top k s).

(** Restoring a checkpoint taken before the stack grew gives nothing back. *)
Lemma restore_after_growth_keeps :
  ∃ t, restore_after_growth = Done (t, t).
Proof. eexists. vm_compute. reflexivity. Qed.
