(* ===== verification/Mm.v ===== *)
(** The state of the memory manager: the static fields of [VMM],
    [SwapManager] and [COWManager] ([src/src/kernel/arch/x86/vmm.h], [swap.h],
    [cow.h]) over a kernel allocator.

    Page directories, page tables, swap devices, LRU nodes and COW pages are
    structures in kernel memory; this record holds the rest. *)

From Stdlib Require Import ZArith Lia.
From stdpp Require Import base list gmap option.
From coqutil Require Import Datatypes.RecordSetters.
From S2P Require Import Prelude Memory KAlloc.
Import TriangleBracketNotations.

(** [class SwapManager], private fields. *)
Record swap_manager := mk_swap {
  swap_devices : Z;
  total_swap_pages : Z;
  used_swap_pages : Z;
  lru_head : Z;
  lru_tail : Z;
  lru_count : Z;
  access_counter : Z;
  swap_in_count : Z;
  swap_out_count : Z;
  reclaim_attempts : Z;
}.

(** [class COWManager], private fields, and the three caches of [cow.cc]. *)
Record cow_manager := mk_cow {
  cow_pages : Z;
  cow_mappings : Z;
  total_cow_pages : Z;
  total_cow_mappings : Z;
  cow_page_cache : Z;
  cow_mapping_cache : Z;
  vma_cache : Z;
}.

(** [cr3] is the control register: the physical address of the loaded directory. *)
Record mm (K : Type) := mk_mm {
  kal : K;
  frame_bitmap : list Z;
  frame_count : Z;
  frames_used : Z;
  kernel_directory : Z;
  current_directory : Z;
  cr3 : Z;
  swapm : swap_manager;
  cow : cow_manager;
}.
Arguments mk_mm {K}.
Arguments kal {K}.
Arguments frame_bitmap {K}.
Arguments frame_count {K}.
Arguments frames_used {K}.
Arguments kernel_directory {K}.
Arguments current_directory {K}.
Arguments cr3 {K}.
Arguments swapm {K}.
Arguments cow {K}.

Section Fields.
Context {K : Type} `{KAlloc K}.

Definition set_kal (s : mm K) (k : K) : mm K := s <| kal := k |>.
Definition mload (s : mm K) (a : Z) : Z := kload (kal s) a.
Definition mstore (s : mm K) (a v : Z) : mm K := set_kal s (kstore (kal s) a v).

(** [kmalloc] and [kfree] from the memory manager. *)
Definition mm_alloc (s : mm K) (size : Z) : outcome (Z * mm K) :=
  let* (p, k) := kmalloc (kal s) size in Done (p, set_kal s k).
Definition mm_free (s : mm K) (p : Z) : outcome (mm K) :=
  let* k := kfree (kal s) p in Done (set_kal s k).
End Fields.
