(* ===== verification/Vmm.v ===== *)
(** The virtual memory manager, the part that allocates no frame:
    [src/src/kernel/arch/x86/vmm.h] and [vmm.cc].

    A page table entry is a 32-bit word: [present], [writable] and [user] are
    bits 0 to 2, [frame] bits 12 to 31.  A directory is 1024 entries, 1024
    table pointers, its physical address and its list of swapped pages. *)

From Stdlib Require Import ZArith Lia.
From stdpp Require Import base list gmap option.
From coqutil Require Import Datatypes.RecordSetters.
From S2P Require Import Prelude Memory KAlloc Mm.
Import TriangleBracketNotations.

Definition PHYS_MEM_START : Z := 0x100000.
Definition FRAME_SIZE : Z := 4096.
Definition MAX_FRAMES : Z := 0x100000.
Definition KERN_HEAP : Z := 0x00200000.
Definition KERN_HEAP_LIM : Z := 0x00800000.
Definition USER_OFFSET : Z := 0x40000000.
Definition USER_STACK : Z := 0xE0000000.
Definition PG_PRESENT : Z := 1.
Definition PG_WRITE : Z := 2.
Definition PG_USER : Z := 4.

Definition VADDR_PD_OFFSET (addr : Z) : Z := Z.shiftr (Z.land addr 0xFFC00000) 22.
Definition VADDR_PT_OFFSET (addr : Z) : Z := Z.shiftr (Z.land addr 0x003FF000) 12.
Definition VADDR_PG_OFFSET (addr : Z) : Z := Z.land addr 0x00000FFF.

(** [struct page_directory]: the entry, table pointer and the two other fields. *)
Definition pd_entry (pd i : Z) : Z := pd + 4 * i.
Definition pd_table (pd i : Z) : Z := pd + 4096 + 4 * i.
Definition pd_physical : Z := 8192.
Definition pd_swapped : Z := 8196.
Definition sizeof_page_directory : Z := 8200.

(** [struct swapped_page_entry] *)
Definition sw_vaddr : Z := 0.
Definition sw_entry : Z := 4.
Definition sw_next : Z := 8.
Definition sizeof_swapped_page : Z := 12.

(** Bit fields of an entry. *)
Definition pte_bit (w i : Z) : bool := Z.testbit w i.
Definition pte_set (w i : Z) (b : bool) : Z :=
  if b then Z.lor w (Z.shiftl 1 i) else Z.ldiff w (Z.shiftl 1 i).
Definition pte_present (w : Z) : bool := pte_bit w 0.
Definition pte_writable (w : Z) : bool := pte_bit w 1.
Definition pte_user (w : Z) : bool := pte_bit w 2.
Definition pte_frame (w : Z) : Z := Z.land (Z.shiftr w 12) 0xFFFFF.
Definition pte_set_frame (w f : Z) : Z := Z.lor (Z.land w 0xFFF) (Z.shiftl (Z.land f 0xFFFFF) 12).

(** [present], [writable], [user] and [frame] assigned in that order. *)
Definition pte_assign (w : Z) (present writable user : bool) (frame : Z) : Z :=
  pte_set_frame (pte_set (pte_set (pte_set w 0 present) 1 writable) 2 user) frame.

(** ** The frame bitmap *)

(** The first clear bit of a word, searched from bit [i] on. *)
Fixpoint first_clear (w i : Z) (n : nat) : option Z :=
  match n with
  | O => None
  | S n => if Z.testbit w i then first_clear w (i + 1) n else Some i
  end.

(** The first word that is not full and its first clear bit, from word [i] on. *)
Fixpoint scan_bitmap (words : list Z) (i : Z) : option (Z * Z) :=
  match words with
  | [] => None
  | w :: words =>
    match (if negb (w =? 0xFFFFFFFF) then first_clear w 0 32 else None) with
    | Some bit => Some (i, bit)
    | None => scan_bitmap words (i + 1)
    end
  end.

(** The bitmap that [VMM::init] leaves: all clear, then the frames below
    [PHYS_MEM_START] set, word by word. *)
Definition init_bitmap (static_frame_bitmap : list Z) : list Z :=
  for_ (PHYS_MEM_START / FRAME_SIZE / 32) (fun i l => zset l i 0xFFFFFFFF)
       (map (fun _ => 0) static_frame_bitmap).

Section Vmm.
Context {K : Type} `{KAlloc K}.
Variable fuel : nat.

Definition word_of (s : mm K) (i : Z) : Z := zget 0 (frame_bitmap s) i.

(** The search of [alloc_frame]: the frame it takes, if a word has a clear bit. *)
Definition take_frame (s : mm K) : option (Z * mm K) :=
  match scan_bitmap (frame_bitmap s) 0 with
  | Some (bitmap_idx, bit) =>
    let frame_idx := bitmap_idx * 32 + bit in
    Some (u32 (frame_idx * FRAME_SIZE),
          s <| frame_bitmap := zset (frame_bitmap s) bitmap_idx
                                 (Z.lor (word_of s bitmap_idx) (Z.shiftl 1 bit)) |>
            <| frames_used ::= fun n => u32 (n + 1) |>)
  | None => None
  end.

Definition free_frame (s : mm K) (frame_addr : Z) : mm K :=
  let frame_idx := frame_addr / FRAME_SIZE in
  let bitmap_idx := frame_idx / 32 in
  let bit := frame_idx mod 32 in
  if frame_idx <? MAX_FRAMES then
    s <| frame_bitmap := zset (frame_bitmap s) bitmap_idx
                           (Z.ldiff (word_of s bitmap_idx) (Z.shiftl 1 bit)) |>
      <| frames_used ::= fun n => u32 (n - 1) |>
  else s.

(** ** Page tables *)

(** [get_page_table(pd, virtual_addr, 0)] *)
Definition find_page_table (s : mm K) (pd virtual_addr : Z) : Z :=
  let table_idx := VADDR_PD_OFFSET virtual_addr in
  if negb (pte_present (mload s (pd_entry pd table_idx))) then 0
  else mload s (pd_table pd table_idx).

(** The address of an entry of a table. *)
Definition pte_addr (table virtual_addr : Z) : Z := table + 4 * VADDR_PT_OFFSET virtual_addr.

Definition unmap_page (s : mm K) (pd virtual_addr : Z) : mm K :=
  let table := find_page_table s pd virtual_addr in
  if table =? 0 then s
  else
    let e := pte_addr table virtual_addr in
    if pte_present (mload s e) then
      let s := free_frame s (Z.shiftl (pte_frame (mload s e)) 12) in
      mstore s e (pte_set (mload s e) 0 false)
    else s.

Definition get_physical_addr (s : mm K) (pd virtual_addr : Z) : Z :=
  let table := find_page_table s pd virtual_addr in
  if table =? 0 then 0
  else
    let e := mload s (pte_addr table virtual_addr) in
    if negb (pte_present e) then 0
    else u32 (Z.shiftl (pte_frame e) 12 + VADDR_PG_OFFSET virtual_addr).

Definition switch_page_directory (s : mm K) (pd : Z) : mm K :=
  s <| current_directory := pd |> <| cr3 := mload s (pd + pd_physical) |>.

(** ** The list of swapped pages of a directory *)

Definition add_swapped_page (s : mm K) (pd virtual_addr swap_entry : Z) : outcome (Z * mm K) :=
  let* (entry, s) := mm_alloc s sizeof_swapped_page in
  if entry =? 0 then Done (-1, s)
  else
    let s := mstore s (entry + sw_vaddr) virtual_addr in
    let s := mstore s (entry + sw_entry) swap_entry in
    let s := mstore s (entry + sw_next) (mload s (pd + pd_swapped)) in
    Done (0, mstore s (pd + pd_swapped) entry).

Definition get_swap_entry (s : mm K) (pd virtual_addr : Z) : outcome Z :=
  loop fuel (fun entry =>
    Done (if entry =? 0 then inr 0
          else if mload s (entry + sw_vaddr) =? virtual_addr then inr (mload s (entry + sw_entry))
          else inl (mload s (entry + sw_next)))) (mload s (pd + pd_swapped)).

(** The cursor is the address of the pointer to the current entry. *)
Definition remove_swapped_page (s : mm K) (pd virtual_addr : Z) : outcome (mm K) :=
  loop fuel (fun '(s, cursor) =>
    let entry := mload s cursor in
    if entry =? 0 then Done (inr s)
    else if mload s (entry + sw_vaddr) =? virtual_addr then
      let to_remove := entry in
      let s := mstore s cursor (mload s (entry + sw_next)) in
      let* s := mm_free s to_remove in
      Done (inr s)
    else Done (inl (s, entry + sw_next))) (s, pd + pd_swapped).

End Vmm.
