(* ===== verification/Swap.v ===== *)
(** The swap manager: [src/src/kernel/arch/x86/swap.h] and [swap.cc], the part
    that allocates no frame.  [swap_in_page] is in [Paging.v], and the
    functions that use the page replacement manager are in [Fault.v]. *)

From Stdlib Require Import ZArith Lia.
From stdpp Require Import base list gmap option.
From coqutil Require Import Datatypes.RecordSetters.
From S2P Require Import Prelude Memory Strings KAlloc Mm Vmm.
Import TriangleBracketNotations.

Definition SWAP_FLAG_LOCKED : Z := 0x80000000.
Definition SWAP_TYPE_FILE : Z := 0.

Definition MEMORY_PRESSURE_NONE : Z := 0.
Definition MEMORY_PRESSURE_LOW : Z := 1.
Definition MEMORY_PRESSURE_MEDIUM : Z := 2.
Definition MEMORY_PRESSURE_HIGH : Z := 3.
Definition MEMORY_PRESSURE_CRITICAL : Z := 4.

Definition SWAP_THRESHOLD_LOW : Z := 80.
Definition SWAP_THRESHOLD_MEDIUM : Z := 90.
Definition SWAP_THRESHOLD_HIGH : Z := 95.
Definition SWAP_THRESHOLD_CRITICAL : Z := 98.

(** [struct swap_device] *)
Definition sd_type : Z := 0.
Definition sd_flags : Z := 4.
Definition sd_pages : Z := 8.
Definition sd_inuse : Z := 12.
Definition sd_prio : Z := 16.
Definition sd_path : Z := 20.
Definition sd_bitmap : Z := 24.
Definition sd_bitmap_size : Z := 28.
Definition sd_next : Z := 32.
Definition sd_read_page : Z := 36.
Definition sd_write_page : Z := 40.
Definition sd_activate : Z := 44.
Definition sd_deactivate : Z := 48.
Definition sizeof_swap_device : Z := 52.

(** [struct page_lru] *)
Definition lru_vaddr : Z := 0.
Definition lru_time : Z := 4.
Definition lru_flags : Z := 8.
Definition lru_next : Z := 12.
Definition lru_prev : Z := 16.
Definition sizeof_page_lru : Z := 20.

Record memory_stats := mk_memory_stats {
  total_pages : Z;
  free_pages : Z;
  used_pages : Z;
  cached_pages : Z;
  swap_total : Z;
  swap_free : Z;
  swap_used : Z;
  pressure_level : Z;
}.

Definition zero_swap : swap_manager := mk_swap 0 0 0 0 0 0 0 0 0 0.

Section Swap.
Context {K : Type} `{KAlloc K}.
Variable fuel : nat.
(** Where the linker put [swap_file_read_page], [swap_file_write_page],
    [swap_file_activate] and [swap_file_deactivate]. *)
Variables file_read file_write file_activate file_deactivate : Z.

Definition set_swapm (s : mm K) (f : swap_manager → swap_manager) : mm K := s <| swapm ::= f |>.
Definition madd (s : mm K) (a d : Z) : mm K := mstore s a (u32 (mload s a + d)).

(** ** Swap files *)

Definition swap_file_read_page (dev offset buffer : Z) : Z := -1.
Definition swap_file_write_page (dev offset buffer : Z) : Z := -1.

Definition swap_file_activate (s : mm K) (dev : Z) : outcome (Z * mm K) :=
  let s := mstore s (dev + sd_pages) 65536 in
  let s := mstore s (dev + sd_bitmap_size) (u32 (mload s (dev + sd_pages) + 31) / 32) in
  let* (bitmap, s) := mm_alloc s (u32 (mload s (dev + sd_bitmap_size) * 4)) in
  let s := mstore s (dev + sd_bitmap) bitmap in
  if bitmap =? 0 then Done (-1, s)
  else Done (0, for_ (mload s (dev + sd_bitmap_size)) (fun i s => mstore s (bitmap + 4 * i) 0) s).

Definition swap_file_deactivate (s : mm K) (dev : Z) : outcome (Z * mm K) :=
  let bitmap := mload s (dev + sd_bitmap) in
  if negb (bitmap =? 0) then
    let* s := mm_free s bitmap in
    Done (0, mstore s (dev + sd_bitmap) 0)
  else Done (0, s).

(** Calls through the function pointers of a device. *)
Definition call_read_page (s : mm K) (dev offset buffer : Z) : outcome Z :=
  if mload s (dev + sd_read_page) =? file_read then Done (swap_file_read_page dev offset buffer) else Stuck.
Definition call_write_page (s : mm K) (dev offset buffer : Z) : outcome Z :=
  if mload s (dev + sd_write_page) =? file_write then Done (swap_file_write_page dev offset buffer) else Stuck.
Definition call_activate (s : mm K) (dev : Z) : outcome (Z * mm K) :=
  if mload s (dev + sd_activate) =? file_activate then swap_file_activate s dev else Stuck.
Definition call_deactivate (s : mm K) (dev : Z) : outcome (Z * mm K) :=
  if mload s (dev + sd_deactivate) =? file_deactivate then swap_file_deactivate s dev else Stuck.

(** ** Devices *)

Definition find_swap_device (s : mm K) (path : Z) : outcome Z :=
  loop fuel (fun dev =>
    if dev =? 0 then Done (inr 0)
    else
      let* c := strcmp fuel (kmem (kal s)) (mload s (dev + sd_path)) path in
      Done (if c =? 0 then inr dev else inl (mload s (dev + sd_next)))) (swap_devices (swapm s)).

Definition add_swap_device (s : mm K) (path type priority : Z) : outcome (Z * mm K) :=
  let* found := find_swap_device s path in
  if negb (found =? 0) then Done (-1, s)
  else
    let* (dev, s) := mm_alloc s sizeof_swap_device in
    if dev =? 0 then Done (-1, s)
    else
      let s := mstore s (dev + sd_type) type in
      let s := mstore s (dev + sd_flags) 0 in
      let s := mstore s (dev + sd_pages) 0 in
      let s := mstore s (dev + sd_inuse) 0 in
      let s := mstore s (dev + sd_prio) priority in
      let* len := strlen fuel (kmem (kal s)) path in
      let* (p, s) := mm_alloc s (u32 (len + 1)) in
      let s := mstore s (dev + sd_path) p in
      if p =? 0 then let* s := mm_free s dev in Done (-1, s)
      else
        let* (_, m) := strcpy fuel (kmem (kal s)) p path in
        let s := set_kal s (with_mem (kal s) m) in
        let s := mstore s (dev + sd_bitmap) 0 in
        let s := mstore s (dev + sd_bitmap_size) 0 in
        if negb (type =? SWAP_TYPE_FILE) then
          let* s := mm_free s (mload s (dev + sd_path)) in
          let* s := mm_free s dev in
          Done (-1, s)
        else
          let s := mstore s (dev + sd_read_page) file_read in
          let s := mstore s (dev + sd_write_page) file_write in
          let s := mstore s (dev + sd_activate) file_activate in
          let s := mstore s (dev + sd_deactivate) file_deactivate in
          let* (r, s) := call_activate s dev in
          if negb (r =? 0) then
            let* s := mm_free s (mload s (dev + sd_path)) in
            let* s := mm_free s dev in
            Done (-1, s)
          else
            let s := mstore s (dev + sd_next) (swap_devices (swapm s)) in
            Done (0, s <| swapm -> swap_devices := dev |>
                       <| swapm -> total_swap_pages ::= fun n => u32 (n + mload s (dev + sd_pages)) |>).

Definition remove_swap_device (s : mm K) (path : Z) : outcome (Z * mm K) :=
  let* dev := find_swap_device s path in
  if dev =? 0 then Done (-1, s)
  else if 0 <? mload s (dev + sd_inuse) then Done (-1, s)
  else
    let* (r, s) := call_deactivate s dev in
    if negb (r =? 0) then Done (-1, s)
    else
      let* s :=
        if swap_devices (swapm s) =? dev
        then Done (s <| swapm -> swap_devices := mload s (dev + sd_next) |>)
        else
          let* prev := while fuel (fun prev => negb (mload s (prev + sd_next) =? dev))
                         (fun prev => mload s (prev + sd_next)) (swap_devices (swapm s)) in
          Done (mstore s (prev + sd_next) (mload s (dev + sd_next))) in
      let s := s <| swapm -> total_swap_pages ::= fun n => u32 (n - mload s (dev + sd_pages)) |> in
      let* s := mm_free s (mload s (dev + sd_bitmap)) in
      let* s := mm_free s (mload s (dev + sd_path)) in
      let* s := mm_free s dev in
      Done (0, s).

(** ** Slots *)

(** The words of a device's bitmap. *)
Definition device_words (s : mm K) (dev : Z) : list Z :=
  map (fun i => mload s (mload s (dev + sd_bitmap) + 4 * Z.of_nat i))
      (seq 0 (Z.to_nat (mload s (dev + sd_bitmap_size)))).

(** The device and the offset of the first free slot. *)
Definition allocate_swap_entry (s : mm K) : outcome (option (Z * Z) * mm K) :=
  loop fuel (fun dev =>
    Done (if dev =? 0 then inr (None, s)
          else
            match (if mload s (dev + sd_inuse) <? mload s (dev + sd_pages)
                   then scan_bitmap (device_words s dev) 0 else None) with
            | Some (i, bit) =>
              let w := mload s (dev + sd_bitmap) + 4 * i in
              inr (Some (dev, i * 32 + bit), mstore s w (Z.lor (mload s w) (Z.shiftl 1 bit)))
            | None => inl (mload s (dev + sd_next))
            end)) (swap_devices (swapm s)).

(** [for (i = 0; i < dev_id && dev; i++) dev = dev->next], [dev_id] below 256. *)
Definition nth_device (s : mm K) (dev_id : Z) : Z :=
  for_ dev_id (fun _ dev => if dev =? 0 then 0 else mload s (dev + sd_next)) (swap_devices (swapm s)).

Definition free_swap_entry (s : mm K) (entry : Z) : mm K :=
  let dev_id := Z.land (Z.shiftr entry 24) 0xFF in
  let offset := Z.land entry 0xFFFFFF in
  let dev := nth_device s dev_id in
  if negb (dev =? 0) && (offset <? mload s (dev + sd_pages)) then
    let w := mload s (dev + sd_bitmap) + 4 * (offset / 32) in
    mstore s w (Z.ldiff (mload s w) (Z.shiftl 1 (offset mod 32)))
  else s.

(** [dev - swap_devices]: a pointer difference, undefined when it is no
    multiple of the size of a device. *)
Definition device_index (s : mm K) (dev : Z) : outcome Z :=
  let d := dev - swap_devices (swapm s) in
  if d mod sizeof_swap_device =? 0 then Done (d / sizeof_swap_device) else Stuck.

Definition swap_entry_id (s : mm K) (dev offset : Z) : outcome Z :=
  let* i := device_index s dev in Done (u32 (Z.lor (Z.shiftl i 24) offset)).

(** ** The LRU list *)

Definition find_victim_page (s : mm K) : outcome Z :=
  if lru_tail (swapm s) =? 0 then Done 0
  else loop fuel (fun victim =>
    Done (if victim =? 0 then inr (lru_tail (swapm s))
          else if negb (has_flag (mload s (victim + lru_flags)) SWAP_FLAG_LOCKED) then inr victim
          else inl (mload s (victim + lru_prev)))) (lru_tail (swapm s)).

Definition push_lru (s : mm K) (page : Z) : mm K :=
  let s := mstore s (page + lru_prev) 0 in
  let s := mstore s (page + lru_next) (lru_head (swapm s)) in
  let s := if negb (lru_head (swapm s) =? 0) then mstore s (lru_head (swapm s) + lru_prev) page else s in
  let s := s <| swapm -> lru_head := page |> in
  if lru_tail (swapm s) =? 0 then s <| swapm -> lru_tail := page |> else s.

Definition add_to_lru (s : mm K) (virtual_addr : Z) : outcome (mm K) :=
  let* (page, s) := mm_alloc s sizeof_page_lru in
  if page =? 0 then Done s
  else
    let s := mstore s (page + lru_vaddr) virtual_addr in
    let s := s <| swapm -> access_counter ::= fun n => u32 (n + 1) |> in
    let s := mstore s (page + lru_time) (access_counter (swapm s)) in
    let s := mstore s (page + lru_flags) 0 in
    let s := push_lru s page in
    Done (s <| swapm -> lru_count ::= fun n => u32 (n + 1) |>).

(** The first node of [virtual_addr], 0 if none has it. *)
Definition find_lru (s : mm K) (virtual_addr : Z) : outcome Z :=
  loop fuel (fun page =>
    Done (if page =? 0 then inr 0
          else if mload s (page + lru_vaddr) =? virtual_addr then inr page
          else inl (mload s (page + lru_next)))) (lru_head (swapm s)).

Definition unlink_neighbours (s : mm K) (page : Z) : mm K :=
  let s := if negb (mload s (page + lru_prev) =? 0)
           then mstore s (mload s (page + lru_prev) + lru_next) (mload s (page + lru_next)) else s in
  if negb (mload s (page + lru_next) =? 0)
  then mstore s (mload s (page + lru_next) + lru_prev) (mload s (page + lru_prev)) else s.

Definition update_page_access (s : mm K) (virtual_addr : Z) : outcome (mm K) :=
  let* page := find_lru s virtual_addr in
  if page =? 0 then add_to_lru s virtual_addr
  else
    let s := s <| swapm -> access_counter ::= fun n => u32 (n + 1) |> in
    let s := mstore s (page + lru_time) (access_counter (swapm s)) in
    if page =? lru_head (swapm s) then Done s
    else
      let s := unlink_neighbours s page in
      let s := if page =? lru_tail (swapm s)
               then s <| swapm -> lru_tail := mload s (page + lru_prev) |> else s in
      Done (push_lru s page).

Definition remove_from_lru (s : mm K) (virtual_addr : Z) : outcome (mm K) :=
  let* page := find_lru s virtual_addr in
  if page =? 0 then Done s
  else
    let s := unlink_neighbours s page in
    let s := if page =? lru_head (swapm s)
             then s <| swapm -> lru_head := mload s (page + lru_next) |> else s in
    let s := if page =? lru_tail (swapm s)
             then s <| swapm -> lru_tail := mload s (page + lru_prev) |> else s in
    let* s := mm_free s page in
    Done (s <| swapm -> lru_count ::= fun n => u32 (n - 1) |>).

(** ** Swapping out *)

Definition swap_out_page (s : mm K) (virtual_addr : Z) : outcome (Z * mm K) :=
  let* (slot, s) := allocate_swap_entry s in
  match slot with
  | None => Done (0, s)
  | Some (dev, offset) =>
    let physical_addr := get_physical_addr s (current_directory s) virtual_addr in
    if physical_addr =? 0 then Done (0, s)
    else
      let* r := call_write_page s dev offset physical_addr in
      if negb (r =? 0) then
        let* e := swap_entry_id s dev offset in
        Done (0, free_swap_entry s e)
      else
        let* e := swap_entry_id s dev offset in
        let* (_, s) := add_swapped_page s (current_directory s) virtual_addr e in
        let s := unmap_page s (current_directory s) virtual_addr in
        let* s := remove_from_lru s virtual_addr in
        let s := s <| swapm -> swap_out_count ::= fun n => u32 (n + 1) |>
                   <| swapm -> used_swap_pages ::= fun n => u32 (n + 1) |> in
        Done (e, madd s (dev + sd_inuse) 1)
  end.

Definition reclaim_pages (s : mm K) (target_pages : Z) : outcome (Z * mm K) :=
  let s := s <| swapm -> reclaim_attempts ::= fun n => u32 (n + 1) |> in
  loop fuel (fun '(reclaimed, s) =>
    if (reclaimed <? target_pages) && (0 <? lru_count (swapm s)) then
      let* victim := find_victim_page s in
      if victim =? 0 then Done (inr (reclaimed, s))
      else
        let* (swap_entry, s) := swap_out_page s (mload s (victim + lru_vaddr)) in
        Done (if negb (swap_entry =? 0) then inl (reclaimed + 1, s) else inr (reclaimed, s))
    else Done (inr (reclaimed, s))) (0, s).

(** ** Memory pressure

    [check_memory_pressure] fills a [memory_stats], and filling one calls
    [check_memory_pressure]: [depth] bounds the recursion of the two. *)
Definition get_memory_stats_with (pressure : mm K → outcome Z) (s : mm K) : outcome memory_stats :=
  let total := frame_count s in
  let used := frames_used s in
  let swap_total := total_swap_pages (swapm s) in
  let swap_used := used_swap_pages (swapm s) in
  let* level := pressure s in
  Done (mk_memory_stats total (u32 (total - used)) used 0 swap_total (u32 (swap_total - swap_used)) swap_used level).

Definition pressure_of (st : memory_stats) : outcome Z :=
  if free_pages st =? 0 then Done MEMORY_PRESSURE_CRITICAL
  else if total_pages st =? 0 then Stuck
  else
    let usage_percent := u32 (used_pages st * 100) / total_pages st in
    Done (if SWAP_THRESHOLD_CRITICAL <=? usage_percent then MEMORY_PRESSURE_CRITICAL
          else if SWAP_THRESHOLD_HIGH <=? usage_percent then MEMORY_PRESSURE_HIGH
          else if SWAP_THRESHOLD_MEDIUM <=? usage_percent then MEMORY_PRESSURE_MEDIUM
          else if SWAP_THRESHOLD_LOW <=? usage_percent then MEMORY_PRESSURE_LOW
          else MEMORY_PRESSURE_NONE).

Fixpoint check_memory_pressure (depth : nat) (s : mm K) : outcome Z :=
  match depth with
  | O => OutOfFuel
  | S d => let* st := get_memory_stats_with (check_memory_pressure d) s in pressure_of st
  end.

Definition get_memory_stats (depth : nat) (s : mm K) : outcome memory_stats :=
  get_memory_stats_with (check_memory_pressure depth) s.

End Swap.
