(* ===== verification/SwapSpec.v ===== *)
(** The swap manager's list of pages ([swap.cc]: [update_page_access],
    [add_to_lru], [remove_from_lru], [find_victim_page]) keeps the pages in the
    order of their last access, and its victim is the page whose last access is
    the oldest. *)

From Stdlib Require Import ZArith Lia.
From stdpp Require Import base list gmap option sets.
From coqutil Require Import Datatypes.RecordSetters.
From S2P Require Import Prelude Memory DList KAlloc Bump Mm Vmm Swap.
Import TriangleBracketNotations.

Ltac lru_words := unfold lru_vaddr, lru_time, lru_flags, lru_next, lru_prev, sizeof_page_lru in *.

Lemma lru_np : lru_next ≠ lru_prev.
Proof. done. Qed.

(** ** The specification *)

Inductive lru_op := Touch (va : Z) | Drop (va : Z).

Definition forget (va : Z) (l : list Z) : list Z := List.filter (fun x => negb (x =? va)) l.

(** The pages [l], the last accessed first, after an operation.  An access puts
    its page in front; only while there is no memory for a node is a page that
    is not on the list yet not remembered. *)
Definition after (no_memory : bool) (l : list Z) (op : lru_op) : list Z :=
  match op with
  | Touch va => if no_memory && negb (bool_decide (va ∈ l)) then l else va :: forget va l
  | Drop va => forget va l
  end.

Lemma forget_absent va l : va ∉ l → forget va l = l.
Proof.
  induction l as [|x l IH]; [done|]. intros [Hx Hl]%not_elem_of_cons. unfold forget. cbn [List.filter].
  rewrite (proj2 (Z.eqb_neq x va)) by congruence. cbn [negb]. f_equal. by apply IH.
Qed.

Lemma forget_split va l1 l2 : NoDup (l1 ++ va :: l2) → forget va (l1 ++ va :: l2) = l1 ++ l2.
Proof.
  intros (_ & Hd & [Hn _]%list.NoDup_cons)%list.NoDup_app. unfold forget. rewrite List.filter_app. cbn [List.filter].
  rewrite Z.eqb_refl. cbn [negb]. change (forget va l1 ++ forget va l2 = l1 ++ l2).
  rewrite !forget_absent; [done|done|]. intros Hv. apply (Hd va Hv). by left.
Qed.

(** [kmalloc] has no memory for a node. *)
Definition no_node {K} `{KAlloc K} (s : mm K) : bool :=
  match kmalloc (kal s) sizeof_page_lru with Done (p, _) => p =? 0 | _ => false end.

Definition run_op {K} `{KAlloc K} (fuel : nat) (s : mm K) (op : lru_op) : outcome (mm K) :=
  match op with Touch va => update_page_access fuel s va | Drop va => remove_from_lru fuel s va end.

Fixpoint run {K} `{KAlloc K} (fuel : nat) (s : mm K) (ops : list lru_op) : outcome (mm K) :=
  match ops with [] => Done s | op :: ops => let* s := run_op fuel s op in run fuel s ops end.

(** The pages by recency after a history: the states of the run only say
    whether there was memory for a node. *)
Fixpoint recency {K} `{KAlloc K} (fuel : nat) (s : mm K) (l : list Z) (ops : list lru_op) : list Z :=
  match ops with
  | [] => l
  | op :: ops =>
    match run_op fuel s op with
    | Done s' => recency fuel s' (after (no_node s) l op) ops
    | _ => after (no_node s) l op
    end
  end.

Section Lru.
Context {K : Type} `{KFreeLaws K}.
Implicit Types (s : mm K).
(** Live blocks that are not the list's. *)
Context (others : list (Z * Z)).

(** ** The list in memory *)

Definition pages s (ns : list Z) : list Z := map (fun p => mload s (p + lru_vaddr)) ns.

(** The block of a node. *)
Definition own (l : list (Z * Z)) (p : Z) : Prop := (p, sizeof_page_lru) ∈ l ∧ block_disjoint p sizeof_page_lru others.

Definition apart (p q : Z) : Prop := p ≠ q → p + sizeof_page_lru <= q ∨ q + sizeof_page_lru <= p.

Record lru_ok s (ns : list Z) (l : list (Z * Z)) : Prop := {
  lk_live : kalloc_ok (kal s) l;
  lk_others b : b ∈ others → b ∈ l;
  lk_own p : p ∈ ns → own l p;
  lk_apart p q : p ∈ ns → q ∈ ns → apart p q;
  lk_list : dlist lru_next lru_prev (kmem (kal s)) (lru_head (swapm s)) ns;
  lk_tail : lru_tail (swapm s) = List.last ns 0;
  lk_pages : NoDup (pages s ns);
  lk_unlocked p : p ∈ ns → has_flag (mload s (p + lru_flags)) SWAP_FLAG_LOCKED = false;
}.

Lemma apart_off p y o :
  p ≠ y → apart p y → 0 <= o < sizeof_page_lru → p + o ≠ y + lru_next ∧ p + o ≠ y + lru_prev.
Proof. intros Hne Ha Ho. destruct (Ha Hne); lru_words; lia. Qed.

(** A field that is no link is apart from all links. *)
Lemma lk_off s ns l p o :
  lru_ok s ns l → p ∈ ns → o = lru_vaddr ∨ o = lru_time ∨ o = lru_flags →
  ∀ y, y ∈ ns → p + o ≠ y + lru_next ∧ p + o ≠ y + lru_prev.
Proof.
  intros Hok Hp Ho y Hy. destruct (decide (p = y)) as [->|Hne]; [lru_words; lia|].
  apply apart_off; [done|by eapply lk_apart|lru_words; lia].
Qed.

Lemma find_lru_spec fuel s ns l va :
  lru_ok s ns l → (length ns < fuel)%nat →
  (va ∉ pages s ns ∧ find_lru fuel s va = Done 0) ∨
  ∃ l1 p l2, ns = l1 ++ p :: l2 ∧ mload s (p + lru_vaddr) = va ∧ p ≠ 0 ∧ find_lru fuel s va = Done p.
Proof.
  intros Hok Hf. destruct (lk_list _ _ _ Hok) as (Hh & Hs & _). unfold find_lru. rewrite Hh. clear Hok Hh.
  revert Hs fuel Hf. generalize 0 at 1. induction ns as [|x ns IH]; intros prev Hs fuel Hf;
    (destruct fuel as [|fuel]; [cbn in Hf; lia|]); cbn [loop hd].
  - left. split; [set_solver|done].
  - destruct Hs as (Hx & _ & Hn & Hs). rewrite (proj2 (Z.eqb_neq x 0)) by done.
    destruct (Z.eqb_spec (mload s (x + lru_vaddr)) va) as [E|Hne].
    { right. by exists [], x, ns. }
    change (mload s (x + lru_next)) with (load (kmem (kal s)) (x + lru_next)). rewrite Hn.
    destruct (IH x Hs fuel) as [[Hni E]|(l1 & p & l2 & -> & E1 & E2 & E3)]; [cbn in Hf; lia| |].
    + left. split; [|done]. cbn [pages map]. intros [->|?]%elem_of_cons; done.
    + right. by exists (x :: l1), p, l2.
Qed.

(** [s'] is [s] with other words in the nodes of [l]. *)
Record writes (l : list (Z * Z)) s s' : Prop := {
  wr_rest : s' = set_kal s (kal s');
  wr_live : kalloc_ok (kal s') l;
  wr_keeps : keeps others (kal s) (kal s');
}.

Lemma writes_refl l s : kalloc_ok (kal s) l → writes l s s.
Proof. split; [by destruct s|done|done]. Qed.

Lemma writes_store l s s' p o v : writes l s s' → own l p → 0 <= o < sizeof_page_lru → writes l s (mstore s' (p + o) v).
Proof.
  intros [E Hl Hk] [Hin Hd] Ho. split; [rewrite E; by destruct s| |].
  - apply kstore_own; [done|]. exists p, sizeof_page_lru. split; [done|lia].
  - etransitivity; [exact Hk|]. apply kstore_keeps. eapply disjoint_not_in; [exact Hd|lia].
Qed.

Lemma kmem_mstore s a v : kmem (kal (mstore s a v)) = store (kmem (kal s)) a v.
Proof. apply kmem_with. Qed.

(** Taking a node out of the links. *)
Lemma unlink_is_remove s h p :
  kmem (kal (unlink_neighbours s p)) = fst (dl_remove lru_next lru_prev (kmem (kal s)) h p).
Proof.
  unfold unlink_neighbours, dl_remove, mload, kload. destruct (negb (load (kmem (kal s)) (p + lru_prev) =? 0)).
  - rewrite !kmem_mstore. destruct (negb (_ =? 0)); [by rewrite !kmem_mstore|by rewrite kmem_mstore].
  - destruct (negb (_ =? 0)); [by rewrite !kmem_mstore|done].
Qed.

Lemma unlink_swapm s p : swapm (unlink_neighbours s p) = swapm s.
Proof.
  unfold unlink_neighbours. destruct (negb (mload s (p + lru_prev) =? 0)); by destruct (negb (_ =? 0)).
Qed.

Lemma unlink_node_spec s l1 p l2 l :
  lru_ok s (l1 ++ p :: l2) l → let s' := unlink_neighbours s p in
  writes l s s' ∧ dlist lru_next lru_prev (kmem (kal s')) (hd 0 (l1 ++ l2)) (l1 ++ l2) ∧
  mload s' (p + lru_next) = hd 0 l2 ∧ mload s' (p + lru_prev) = List.last l1 0 ∧
  (∀ a, (∀ y, y ∈ l1 ++ l2 → a ≠ y + lru_next ∧ a ≠ y + lru_prev) → mload s' a = mload s a).
Proof.
  intros Hok. cbv zeta. pose proof (lk_list _ _ _ Hok) as Hd. pose proof Hd as (_ & Hs & Hnd & _).
  apply dseg_app in Hs as [_ (_ & Hp & Hn & _)].
  destruct (dl_remove_dlist _ _ lru_np _ _ _ _ _ Hd) as (m' & E & Hd' & Hfr).
  pose proof (unlink_is_remove s (lru_head (swapm s)) p) as Em. rewrite E in Em. cbn [fst] in Em.
  assert (∀ a, (∀ y, y ∈ l1 ++ l2 → a ≠ y + lru_next ∧ a ≠ y + lru_prev) → mload (unlink_neighbours s p) a = mload s a) as Hfr'.
  { intros a Ha. unfold mload, kload. rewrite Em. by apply Hfr. }
  assert (p ∉ l1 ++ l2) as Hpl.
  { apply list.NoDup_app in Hnd as (_ & Hd2 & [Hn2 _]%list.NoDup_cons). intros [Hx|Hx]%elem_of_app; [|done].
    apply (Hd2 p Hx). by left. }
  assert (∀ o, o = lru_next ∨ o = lru_prev → ∀ y, y ∈ l1 ++ l2 → p + o ≠ y + lru_next ∧ p + o ≠ y + lru_prev) as Hoff.
  { intros o Ho y Hy. apply apart_off; [by intros ->|eapply lk_apart; [exact Hok|set_solver..]|lru_words; lia]. }
  assert (∀ y, y = 0 ∨ y ∈ l1 ++ l2 → y ≠ 0 → own l y) as Hown.
  { intros y [->|Hy] Hy0; [done|]. eapply lk_own; [exact Hok|set_solver]. }
  assert (hd 0 l2 = 0 ∨ hd 0 l2 ∈ l1 ++ l2) as Hh2 by (destruct l2; [by left|right; set_solver]).
  assert (List.last l1 0 = 0 ∨ List.last l1 0 ∈ l1 ++ l2) as Hl1.
  { destruct (decide (l1 = [])) as [->|Hne]; [by left|right]. apply elem_of_app. left. by apply (last_in_app lru_next lru_prev lru_np). }
  split; [|split; [by rewrite Em|split; [|split; [|exact Hfr']]]].
  2,3: rewrite Hfr' by auto; done.
  unfold unlink_neighbours. pose proof (writes_refl l s (lk_live _ _ _ Hok)) as W.
  change (mload s (p + lru_prev)) with (load (kmem (kal s)) (p + lru_prev)).
  change (mload s (p + lru_next)) with (load (kmem (kal s)) (p + lru_next)). rewrite Hp, Hn.
  set (s1 := if negb (List.last l1 0 =? 0) then _ else s).
  assert (writes l s s1 ∧ mload s1 (p + lru_next) = hd 0 l2) as [W1 E1].
  { subst s1. destruct (Z.eqb_spec (List.last l1 0) 0) as [E0|E0]; cbn [negb]; [by split|].
    split; [apply writes_store; auto; lru_words; lia|]. destruct Hl1 as [?|Hl1]; [done|].
    unfold mload. cbn [kal mstore set_kal]. etransitivity; [apply kload_kstore_ne, not_eq_sym, (Hoff lru_next); auto|exact Hn]. }
  rewrite E1. destruct (Z.eqb_spec (hd 0 l2) 0); cbn [negb]; [done|]. apply writes_store; auto. lru_words; lia.
Qed.

(** Putting a node in front. *)
Lemma push_is_push s p :
  kmem (kal (push_lru s p)) = dl_push lru_next lru_prev (kmem (kal s)) (lru_head (swapm s)) p.
Proof.
  unfold push_lru, dl_push. cbv zeta. set (s2 := mstore (mstore s _ _) _ _).
  assert (kmem (kal s2) = store (store (kmem (kal s)) (p + lru_next) (lru_head (swapm s))) (p + lru_prev) 0) as E2.
  { subst s2. rewrite !kmem_mstore. unfold store. apply insert_insert_ne. lru_words. lia. }
  assert (lru_head (swapm s2) = lru_head (swapm s)) as Eh by done.
  transitivity (kmem (kal (if negb (lru_head (swapm s2) =? 0) then mstore s2 (lru_head (swapm s2) + lru_prev) p else s2))).
  { by destruct (lru_tail _ =? 0). }
  rewrite Eh. destruct (lru_head (swapm s) =? 0); cbn [negb]; [done|]. by rewrite kmem_mstore, E2.
Qed.

(** Nothing but kernel memory and the list's own fields has changed. *)
Definition only_lru s s' : Prop :=
  ∃ k h t n c, s' = s <| kal := k |> <| swapm -> lru_head := h |> <| swapm -> lru_tail := t |>
                      <| swapm -> lru_count := n |> <| swapm -> access_counter := c |>.

#[local] Instance only_lru_preorder : PreOrder only_lru.
Proof.
  split.
  - intros [k ? ? ? ? ? ? [? ? ? h t n c ? ? ?] ?]. by exists k, h, t, n, c.
  - intros s1 s2 s3 (k & h & t & n & c & ->) (k' & h' & t' & n' & c' & ->). by exists k', h', t', n', c'.
Qed.

Lemma writes_only_lru l s s' : writes l s s' → only_lru s s'.
Proof.
  intros [-> _ _]. destruct s as [k ? ? ? ? ? ? [? ? ? h t n c ? ? ?] ?]. by exists (kal s'), h, t, n, c.
Qed.

Lemma push_spec s ns p l :
  kalloc_ok (kal s) l → dlist lru_next lru_prev (kmem (kal s)) (lru_head (swapm s)) ns → own l p → p ≠ 0 → p ∉ ns →
  (∀ y, y ∈ ns → own l y ∧ apart p y) → let s' := push_lru s p in
  kalloc_ok (kal s') l ∧ keeps others (kal s) (kal s') ∧ only_lru s s' ∧
  dlist lru_next lru_prev (kmem (kal s')) (lru_head (swapm s')) (p :: ns) ∧
  lru_tail (swapm s') = (if lru_tail (swapm s) =? 0 then p else lru_tail (swapm s)) ∧
  lru_count (swapm s') = lru_count (swapm s) ∧
  (∀ a, (∀ y, y ∈ p :: ns → a ≠ y + lru_next ∧ a ≠ y + lru_prev) → mload s' a = mload s a).
Proof.
  intros Hk Hd Hp Hp0 Hpn Hns. cbv zeta. pose proof (push_is_push s p) as Em.
  pose proof Hd as (Hh & _). assert (lru_head (swapm s) = 0 ∨ lru_head (swapm s) ∈ ns) as Hhead.
  { rewrite Hh. destruct ns; [by left|right; by left]. }
  set (s2 := mstore (mstore s (p + lru_prev) 0) (p + lru_next) (lru_head (swapm s))).
  set (s3 := if negb (lru_head (swapm s) =? 0) then mstore s2 (lru_head (swapm s) + lru_prev) p else s2).
  assert (writes l s s3) as W.
  { assert (writes l s s2) as W2 by (do 2 (apply writes_store; [|done|lru_words; lia]); by apply writes_refl).
    subst s3. destruct (Z.eqb_spec (lru_head (swapm s)) 0); cbn [negb]; [done|]. destruct Hhead as [?|Hhead]; [done|].
    apply writes_store; [done|by apply Hns|lru_words; lia]. }
  assert (push_lru s p = (if lru_tail (swapm s) =? 0 then s3 <| swapm -> lru_head := p |> <| swapm -> lru_tail := p |>
                          else s3 <| swapm -> lru_head := p |>)) as E.
  { transitivity (let s4 := s3 <| swapm -> lru_head := p |> in
                  if lru_tail (swapm s4) =? 0 then s4 <| swapm -> lru_tail := p |> else s4); [reflexivity|].
    cbv zeta. subst s3. by destruct (negb (lru_head (swapm s) =? 0)). }
  assert (swapm s3 = swapm s) as Esw by (subst s3; by destruct (negb (lru_head (swapm s) =? 0))).
  assert (kal (push_lru s p) = kal s3) as Ek by (rewrite E; by destruct (lru_tail (swapm s) =? 0)).
  assert (lru_head (swapm (push_lru s p)) = p) as Ehd by (rewrite E; by destruct (lru_tail (swapm s) =? 0)).
  assert (∀ y, y ∈ ns → link_sep lru_next lru_prev p y) as Hsep.
  { intros y Hy Hne. destruct (proj2 (Hns y Hy) Hne); lru_words; lia. }
  rewrite Ehd. split; [rewrite Ek; apply (wr_live _ _ _ W)|]. split; [rewrite Ek; apply (wr_keeps _ _ _ W)|]. split.
  { etransitivity; [by eapply writes_only_lru|]. rewrite E. destruct s3 as [k ? ? ? ? ? ? [? ? ? h t n c ? ? ?] ?].
    destruct (lru_tail (swapm s) =? 0); [by exists k, p, p, n, c|by exists k, p, t, n, c]. }
  split; [rewrite Em; by apply (dl_push_dlist _ _ lru_np)|]. split.
  { rewrite E. destruct (lru_tail (swapm s) =? 0); [done|]. change (lru_tail (swapm s3) = lru_tail (swapm s)). by rewrite Esw. }
  split.
  { rewrite E. transitivity (lru_count (swapm s3)); [by destruct (lru_tail (swapm s) =? 0)|by rewrite Esw]. }
  intros a Ha. unfold mload, kload. rewrite Em. destruct (Ha p) as [? ?]; [by left|].
  apply dl_push_other'; [done|done|]. destruct Hhead as [?|Hhead]; [by left|right]. apply Ha. by right.
Qed.

(** ** Well-formed lists *)

Lemma pages_frame s s' ns :
  (∀ p, p ∈ ns → mload s' (p + lru_vaddr) = mload s (p + lru_vaddr)) → pages s' ns = pages s ns.
Proof. intros Hv. unfold pages. apply map_ext_in. intros p Hp%list_elem_of_In. by apply Hv. Qed.

(** Writes elsewhere and other blocks leave the list alone. *)
Lemma lru_ok_frame s s' ns l l' :
  lru_ok s ns l → kalloc_ok (kal s') l' → (∀ b, b ∈ others → b ∈ l') → (∀ p, p ∈ ns → own l' p) →
  lru_head (swapm s') = lru_head (swapm s) → lru_tail (swapm s') = lru_tail (swapm s) →
  (∀ p o, p ∈ ns → o = lru_vaddr ∨ o = lru_flags ∨ o = lru_next ∨ o = lru_prev → mload s' (p + o) = mload s (p + o)) →
  lru_ok s' ns l' ∧ pages s' ns = pages s ns.
Proof.
  intros Hok Hk Ho Hown Hh Ht Hm. assert (pages s' ns = pages s ns) as E by (apply pages_frame; intros p Hp; apply Hm; auto).
  split; [|done]. split; [done|done|done|by eapply lk_apart| |rewrite Ht; apply (lk_tail _ _ _ Hok)|rewrite E; apply (lk_pages _ _ _ Hok)|].
  - rewrite Hh. eapply dlist_frame; [exact lru_np| |apply (lk_list _ _ _ Hok)]. intros x Hx. split; apply (Hm x); auto.
  - intros p Hp. rewrite Hm by auto. by apply (lk_unlocked _ _ _ Hok).
Qed.

Lemma lru_nonnull s ns l p : lru_ok s ns l → p ∈ ns → p ≠ 0.
Proof. intros Hok. destruct (lk_list _ _ _ Hok) as (_ & Hs & _). exact (dseg_nonnull _ _ lru_np _ _ _ _ Hs p). Qed.

(** Unlinking with the head and the tail moved. *)
Definition detach s p : mm K :=
  let s := unlink_neighbours s p in
  let s := if p =? lru_head (swapm s) then s <| swapm -> lru_head := mload s (p + lru_next) |> else s in
  if p =? lru_tail (swapm s) then s <| swapm -> lru_tail := mload s (p + lru_prev) |> else s.

Lemma last_app_cons {A} (l1 : list A) x l2 d : List.last (l1 ++ x :: l2) d = List.last (x :: l2) x.
Proof.
  induction l1 as [|y l1 IH]; [apply (last_default)|]. rewrite <- IH. by destruct l1.
Qed.

(** The head, the tail and the memory after it. *)
Lemma detach_fields s l1 p l2 l :
  lru_ok s (l1 ++ p :: l2) l →
  kal (detach s p) = kal (unlink_neighbours s p) ∧ lru_head (swapm (detach s p)) = hd 0 (l1 ++ l2) ∧
  lru_tail (swapm (detach s p)) = List.last (l1 ++ l2) 0 ∧ lru_count (swapm (detach s p)) = lru_count (swapm s) ∧
  only_lru (unlink_neighbours s p) (detach s p).
Proof.
  intros Hok. destruct (unlink_node_spec s l1 p l2 l Hok) as (_ & _ & Hn & Hp & _). unfold detach. cbv zeta.
  set (s1 := unlink_neighbours s p) in *. assert (swapm s1 = swapm s) as Esw by apply unlink_swapm.
  rewrite Esw, Hn. destruct (lk_list _ _ _ Hok) as (Hh & _ & Hnd & _).
  assert (p ∉ l1 ∧ p ∉ l2) as [Hp1 Hp2].
  { apply list.NoDup_app in Hnd as (_ & Hd2 & [Hn2 _]%list.NoDup_cons). split; [|done]. intros Hx. apply (Hd2 p Hx). by left. }
  set (s2 := if p =? lru_head (swapm s) then _ else s1).
  assert (kal s2 = kal s1 ∧ lru_head (swapm s2) = hd 0 (l1 ++ l2) ∧ lru_tail (swapm s2) = lru_tail (swapm s) ∧
    lru_count (swapm s2) = lru_count (swapm s) ∧ only_lru s1 s2) as (Ek2 & Eh2 & Et2 & Ec2 & O2).
  { subst s2. rewrite Hh. destruct (Z.eqb_spec p (hd 0 (l1 ++ p :: l2))) as [E|E].
    - assert (l1 = []) as ->. { destruct l1 as [|x l1]; [done|]. cbn in E. subst. destruct Hp1. by left. }
      rewrite <- Esw. destruct s1 as [k ? ? ? ? ? ? [? ? ? h t n c ? ? ?] ?]. split; [done|]. split; [done|]. split; [done|]. split; [done|].
      by exists k, (hd 0 l2), t, n, c.
    - rewrite Esw, Hh. split; [done|]. split; [by destruct l1|]. split; [done|]. split; [done|reflexivity]. }
  set (s3 := if p =? lru_tail (swapm s2) then _ else s2).
  assert (kal s3 = kal s1 ∧ lru_head (swapm s3) = hd 0 (l1 ++ l2) ∧ lru_tail (swapm s3) = List.last (l1 ++ l2) 0 ∧
    lru_count (swapm s3) = lru_count (swapm s) ∧ only_lru s2 s3) as (Ek3 & Eh3 & Et3 & Ec3 & O3).
  { subst s3. rewrite Et2, (lk_tail _ _ _ Hok), last_app_cons.
    assert (mload s2 (p + lru_prev) = List.last l1 0) as -> by (unfold mload; rewrite Ek2; exact Hp).
    destruct (Z.eqb_spec p (List.last (p :: l2) p)) as [E|E].
    - assert (l2 = []) as ->.
      { destruct l2 as [|x l2]; [done|]. destruct Hp2. rewrite E at 1.
        change (List.last (x :: l2) p ∈ x :: l2). by apply (last_in_app lru_next lru_prev lru_np). }
      rewrite app_nil_r in *. destruct s2 as [k ? ? ? ? ? ? [? ? ? h t n c ? ? ?] ?].
      split; [done|]. split; [done|]. split; [done|]. split; [done|]. by exists k, h, (List.last l1 0), n, c.
    - rewrite Et2, (lk_tail _ _ _ Hok), last_app_cons. split; [done|]. split; [done|]. split; [|split; [done|reflexivity]].
      destruct l2 as [|x l2]; [done|]. change (List.last (x :: l2) p = List.last (l1 ++ x :: l2) 0). rewrite last_app_cons. apply last_default. }
  do 4 (split; [done|]). by transitivity s2.
Qed.

Lemma detach_ok s l1 p l2 l :
  lru_ok s (l1 ++ p :: l2) l → let s' := detach s p in
  lru_ok s' (l1 ++ l2) l ∧ only_lru s s' ∧ keeps others (kal s) (kal s') ∧ lru_count (swapm s') = lru_count (swapm s) ∧
  pages s' (l1 ++ l2) = pages s (l1 ++ l2) ∧ (∀ o, o = lru_vaddr ∨ o = lru_flags → mload s' (p + o) = mload s (p + o)).
Proof.
  intros Hok. cbv zeta. destruct (unlink_node_spec s l1 p l2 l Hok) as (W & Hd & _ & _ & Hfr).
  destruct (detach_fields s l1 p l2 l Hok) as (Ek3 & Eh3 & Et3 & Ec3 & O3).
  set (s1 := unlink_neighbours s p) in *. set (s3 := detach s p) in *.
  assert (∀ x, x ∈ l1 ++ l2 → x ∈ l1 ++ p :: l2) as Hsub by set_solver.
  assert (∀ a, mload s3 a = mload s1 a) as Em by (intros a; unfold mload; by rewrite Ek3).
  assert (∀ q o, q ∈ l1 ++ p :: l2 → o = lru_vaddr ∨ o = lru_flags → mload s3 (q + o) = mload s (q + o)) as Hfields.
  { intros q o Hq Hqo. rewrite Em. apply Hfr. intros y Hy. eapply lk_off; [exact Hok|done| |by apply Hsub]. tauto. }
  assert (pages s3 (l1 ++ l2) = pages s (l1 ++ l2)) as Epg by (apply pages_frame; intros q Hq; apply Hfields; auto).
  split; [split|].
  - rewrite Ek3. apply (wr_live _ _ _ W).
  - apply (lk_others _ _ _ Hok).
  - intros q Hq. apply (lk_own _ _ _ Hok); auto.
  - intros q y Hq Hy. apply (lk_apart _ _ _ Hok); auto.
  - by rewrite Ek3, Eh3.
  - done.
  - rewrite Epg. eapply sublist_NoDup; [apply (lk_pages _ _ _ Hok)|]. unfold pages. rewrite !map_app.
    apply sublist_app; [done|]. by apply sublist_cons.
  - intros q Hq. rewrite Hfields by auto. apply (lk_unlocked _ _ _ Hok); auto.
  - split; [etransitivity; [by eapply writes_only_lru|done]|].
    split; [rewrite Ek3; apply (wr_keeps _ _ _ W)|]. split; [done|]. split; [done|].
    intros o Ho. apply Hfields; [set_solver|done].
Qed.

(** A node that is not in the list goes in front. *)
Lemma attach_ok s ns p l :
  lru_ok s ns l → own l p → p ≠ 0 → p ∉ ns → (∀ y, y ∈ ns → apart p y) →
  mload s (p + lru_vaddr) ∉ pages s ns → has_flag (mload s (p + lru_flags)) SWAP_FLAG_LOCKED = false →
  let s' := push_lru s p in
  lru_ok s' (p :: ns) l ∧ only_lru s s' ∧ keeps others (kal s) (kal s') ∧ lru_count (swapm s') = lru_count (swapm s) ∧
  pages s' (p :: ns) = mload s (p + lru_vaddr) :: pages s ns.
Proof.
  intros Hok Hp Hp0 Hpn Hap Hpg Hfl. cbv zeta.
  destruct (push_spec s ns p l (lk_live _ _ _ Hok) (lk_list _ _ _ Hok) Hp Hp0 Hpn) as (Hk & Hkp & Ho & Hd & Ht & Hc & Hfr).
  { intros y Hy. split; [by apply (lk_own _ _ _ Hok)|by apply Hap]. }
  assert (∀ q y, q ∈ p :: ns → y ∈ p :: ns → apart q y) as Hapart.
  { intros q y [->|Hq]%elem_of_cons [->|Hy]%elem_of_cons; [by intros []|by apply Hap| |by apply (lk_apart _ _ _ Hok)].
    intros Hne. destruct (Hap q Hq ltac:(done)); lia. }
  assert (∀ q o, q ∈ p :: ns → o = lru_vaddr ∨ o = lru_flags → mload (push_lru s p) (q + o) = mload s (q + o)) as Hfields.
  { intros q o Hq Hqo. apply Hfr. intros y Hy. destruct (decide (q = y)) as [->|Hne]; [lru_words; lia|].
    apply apart_off; [done|by apply Hapart|lru_words; lia]. }
  assert (pages (push_lru s p) (p :: ns) = mload s (p + lru_vaddr) :: pages s ns) as Epg.
  { rewrite (pages_frame s) by (intros q Hq; apply Hfields; auto). done. }
  split; [split|done].
  - done.
  - apply (lk_others _ _ _ Hok).
  - intros q [->|Hq]%elem_of_cons; [done|by apply (lk_own _ _ _ Hok)].
  - exact Hapart.
  - done.
  - rewrite Ht, (lk_tail _ _ _ Hok). destruct ns as [|x ns]; [done|].
    rewrite (proj2 (Z.eqb_neq (List.last (x :: ns) 0) 0)); [done|].
    eapply lru_nonnull; [exact Hok|]. by apply (last_in_app lru_next lru_prev lru_np).
  - rewrite Epg. constructor; [done|apply (lk_pages _ _ _ Hok)].
  - intros q Hq. rewrite Hfields by auto. apply elem_of_cons in Hq as [->|Hq]; [done|by apply (lk_unlocked _ _ _ Hok)].
Qed.

(** ** Accesses and removals *)

Definition counted s (ns : list Z) : Prop := lru_count (swapm s) = u32 (Z.of_nat (length ns)).

(** A step to a list that is well formed, with nothing else changed. *)
Definition step s s' (ns : list Z) (l : list (Z * Z)) : Prop :=
  lru_ok s' ns l ∧ only_lru s s' ∧ keeps others (kal s) (kal s').

Lemma step_trans s1 s2 s3 ns l ns' l' : step s1 s2 ns l → step s2 s3 ns' l' → step s1 s3 ns' l'.
Proof. intros (_ & O1 & K1) (Hok & O2 & K2). split; [done|]. split; by etransitivity. Qed.

Lemma step_store s ns l p o v :
  lru_ok s ns l → own l p → 0 <= o < sizeof_page_lru → o = lru_time ∨ p ∉ ns → (∀ y, y ∈ ns → apart p y) →
  step s (mstore s (p + o) v) ns l ∧ pages (mstore s (p + o) v) ns = pages s ns.
Proof.
  intros Hok Hp Ho Hor Hap.
  pose proof (writes_store l s s p o v (writes_refl l s (lk_live _ _ _ Hok)) Hp Ho) as W.
  destruct (lru_ok_frame s (mstore s (p + o) v) ns l l Hok (wr_live _ _ _ W) (lk_others _ _ _ Hok) (lk_own _ _ _ Hok)) as [Hok' Hpg];
    [done|done| |].
  - intros y o' Hy Ho'. apply kload_kstore_ne. destruct (decide (p = y)) as [->|Hne].
    + destruct Hor as [->|?]; [lru_words; lia|done].
    + destruct (Hap y Hy Hne); lru_words; lia.
  - split; [|done]. split; [done|]. split; [by eapply writes_only_lru|apply (wr_keeps _ _ _ W)].
Qed.

Lemma step_counter s ns l c :
  lru_ok s ns l → step s (s <| swapm -> access_counter := c |>) ns l ∧ pages (s <| swapm -> access_counter := c |>) ns = pages s ns.
Proof.
  intros Hok. assert (lru_ok (s <| swapm -> access_counter := c |>) ns l ∧ pages (s <| swapm -> access_counter := c |>) ns = pages s ns)
    as [Hok' Hpg] by (eapply lru_ok_frame; [exact Hok|apply Hok|apply Hok|apply Hok|done..]).
  split; [|done]. split; [done|]. split; [|by intros a _].
  destruct s as [k ? ? ? ? ? ? [? ? ? h t n c' ? ? ?] ?]. by exists k, h, t, n, c.
Qed.

Lemma step_count s s' ns l n : step s s' ns l → step s (s' <| swapm -> lru_count := n |>) ns l.
Proof.
  intros (Hok & O & Kp). split; [|split; [|done]].
  - eapply lru_ok_frame; [exact Hok|apply Hok|apply Hok|apply Hok|done..].
  - etransitivity; [exact O|]. destruct s' as [k ? ? ? ? ? ? [? ? ? h t n' c ? ? ?] ?]. by exists k, h, t, n, c.
Qed.

(** An access to a page that has a node. *)
Lemma touch_found s l1 p l2 l va :
  lru_ok s (l1 ++ p :: l2) l → mload s (p + lru_vaddr) = va →
  let s1 := s <| swapm -> access_counter ::= fun n => u32 (n + 1) |> in
  let s2 := mstore s1 (p + lru_time) (access_counter (swapm s1)) in
  let s3 := if p =? lru_head (swapm s2) then s2
            else
              let s := unlink_neighbours s2 p in
              push_lru (if p =? lru_tail (swapm s) then s <| swapm -> lru_tail := mload s (p + lru_prev) |> else s) p in
  step s s3 (p :: l1 ++ l2) l ∧ pages s3 (p :: l1 ++ l2) = va :: forget va (pages s (l1 ++ p :: l2)) ∧
  lru_count (swapm s3) = lru_count (swapm s).
Proof.
  intros Hok Hva. cbv zeta. destruct (step_counter s _ l (u32 (access_counter (swapm s) + 1)) Hok) as [S1 P1].
  change (s <| swapm -> access_counter ::= fun n => u32 (n + 1) |>) with (s <| swapm -> access_counter := u32 (access_counter (swapm s) + 1) |>).
  set (s1 := s <| swapm -> access_counter := _ |>) in *.
  destruct (step_store s1 _ l p lru_time (access_counter (swapm s1)) (proj1 S1)) as [S2 P2];
    [apply (lk_own _ _ _ Hok); set_solver|lru_words; lia|by left|intros y Hy; apply (lk_apart _ _ _ Hok); [set_solver|done]|].
  set (s2 := mstore s1 (p + lru_time) _) in *. pose proof (step_trans _ _ _ _ _ _ _ S1 S2) as S. pose proof (proj1 S2) as Hok2.
  assert (pages s2 (l1 ++ p :: l2) = pages s (l1 ++ p :: l2)) as P by (by rewrite P2).
  assert (forget va (pages s (l1 ++ p :: l2)) = pages s2 (l1 ++ l2)) as ->.
  { pose proof (lk_pages _ _ _ Hok2) as Hnd. rewrite <- P. unfold pages in *. rewrite !map_app in *. cbn [map] in *.
    assert (mload s2 (p + lru_vaddr) = va) as E by (rewrite <- Hva; apply kload_kstore_ne; lru_words; lia).
    rewrite E in *. by apply forget_split. }
  destruct (lk_list _ _ _ Hok2) as (Hh & _ & Hnd & _).
  assert (p ∉ l1 ++ l2) as Hpl.
  { apply list.NoDup_app in Hnd as (_ & Hd2 & [Hn2 _]%list.NoDup_cons). intros [Hx|Hx]%elem_of_app; [|done]. apply (Hd2 p Hx). by left. }
  assert (mload s2 (p + lru_vaddr) = va) as Hva2 by (rewrite <- Hva; apply kload_kstore_ne; lru_words; lia).
  rewrite Hh. destruct (Z.eqb_spec p (hd 0 (l1 ++ p :: l2))) as [E|E].
  - assert (l1 = []) as ->. { destruct l1 as [|x l1]; [done|]. cbn in E. subst. destruct Hpl. by left. }
    cbn [app] in *. split; [done|]. split; [cbn [pages map]; by rewrite Hva2|done].
  - set (s3 := if p =? lru_tail _ then _ else _).
    assert (s3 = detach s2 p) as ->.
    { subst s3. unfold detach. by rewrite !unlink_swapm, Hh, (proj2 (Z.eqb_neq _ _) E), unlink_swapm. }
    destruct (detach_ok s2 l1 p l2 l Hok2) as (Hok3 & O3 & K3 & C3 & P3 & F3).
    assert (∀ y, y ∈ l1 ++ l2 → y ∈ l1 ++ p :: l2) as Hsub by set_solver.
    destruct (attach_ok (detach s2 p) (l1 ++ l2) p l Hok3) as (Hok4 & O4 & K4 & C4 & P4).
    + apply (lk_own _ _ _ Hok2). set_solver.
    + eapply lru_nonnull; [exact Hok2|set_solver].
    + done.
    + intros y Hy. apply (lk_apart _ _ _ Hok2); [set_solver|auto].
    + rewrite F3, P3, Hva2 by auto. pose proof (lk_pages _ _ _ Hok2) as Hndp. unfold pages in *. rewrite map_app in *. cbn [map] in Hndp.
      rewrite Hva2 in Hndp. apply list.NoDup_app in Hndp as (_ & Hd2 & [Hn2 _]%list.NoDup_cons).
      intros [Hx|Hx]%elem_of_app; [|done]. apply (Hd2 va Hx). by left.
    + rewrite F3 by auto. apply (lk_unlocked _ _ _ Hok2). set_solver.
    + split; [|split; [by rewrite P4, F3, P3, Hva2 by auto|by rewrite C4, C3]].
      eapply step_trans; [exact S|]. split; [done|]. split; by etransitivity.
Qed.

(** Another allocator state that keeps the live blocks. *)
Lemma step_keeps s ns l m k l' :
  lru_ok s ns l → (∀ b, b ∈ others → b ∈ m) → (∀ p, p ∈ ns → (p, sizeof_page_lru) ∈ m) → keeps m (kal s) k →
  kalloc_ok k l' → (∀ b, b ∈ m → b ∈ l') →
  step s (set_kal s k) ns l' ∧ pages (set_kal s k) ns = pages s ns.
Proof.
  intros Hok Hoth Hns Hk Hl Hsub.
  assert (lru_ok (set_kal s k) ns l' ∧ pages (set_kal s k) ns = pages s ns) as [Hok' Hpg].
  { eapply lru_ok_frame; [exact Hok|done|auto| |done|done|].
    - intros p Hp. destruct (lk_own _ _ _ Hok p Hp). split; auto.
    - intros p o Hp Ho. apply Hk. exists p, sizeof_page_lru. split; [auto|]. lru_words. lia. }
  split; [|done]. split; [done|]. split.
  - destruct s as [k' ? ? ? ? ? ? [? ? ? h t n c ? ? ?] ?]. by exists k, h, t, n, c.
  - intros a (q & n & Hq & Ha). apply Hk. exists q, n. split; [auto|done].
Qed.

(** An access to a page that has none. *)
Lemma add_to_lru_spec s ns l va :
  lru_ok s ns l → fits sizeof_page_lru → counted s ns → va ∉ pages s ns →
  ∃ s' ns' l', add_to_lru s va = Done s' ∧ step s s' ns' l' ∧ counted s' ns' ∧
    (no_node s = false ∧ pages s' ns' = va :: pages s ns ∧ length ns' = S (length ns) ∨
     no_node s = true ∧ pages s' ns' = pages s ns ∧ length ns' = length ns).
Proof.
  intros Hok Hfit Hc Hva. unfold add_to_lru, mm_alloc, no_node.
  destruct (kmalloc_fresh _ _ _ (lk_live _ _ _ Hok) Hfit) as (p & k & -> & Hkp & Hcase). cbn [obind].
  pose proof (lk_others _ _ _ Hok) as Hoth.
  assert (∀ q, q ∈ ns → (q, sizeof_page_lru) ∈ l) as Hns by (intros q Hq; apply (lk_own _ _ _ Hok q Hq)).
  destruct Hcase as [[-> Hk]|(Hp0 & _ & _ & Hdis & Hk)].
  { destruct (step_keeps s ns l l k l Hok Hoth Hns Hkp Hk) as [S P]; [done|]. exists (set_kal s k), ns, l. split; [done|]. split; [done|]. split; [done|]. by right. }
  rewrite (proj2 (Z.eqb_neq p 0)) by lia. set (l' := (p, sizeof_page_lru) :: l) in *.
  destruct (step_keeps s ns l l k l' Hok Hoth Hns Hkp Hk) as [S1 P1]; [intros b Hb; apply elem_of_cons; by right|].
  set (s1 := set_kal s k) in *. pose proof (proj1 S1) as Hok1.
  assert (∀ y, y ∈ ns → apart p y) as Hap.
  { intros y Hy _. destruct (lk_own _ _ _ Hok y Hy) as [Hin _]. apply (Hdis _ _ Hin). }
  assert (p ∉ ns) as Hpn.
  { intros Hin. destruct (Hdis p sizeof_page_lru); [by apply (lk_own _ _ _ Hok p)|lru_words; lia..]. }
  assert (own l' p) as Hown.
  { split; [by left|]. intros q n Hq. by apply Hdis, (lk_others _ _ _ Hok). }
  destruct (step_store s1 ns l' p lru_vaddr va Hok1 Hown) as [S2 P2]; [lru_words; lia|by right|done|].
  set (s2 := mstore s1 (p + lru_vaddr) va) in *.
  destruct (step_counter s2 ns l' (u32 (access_counter (swapm s2) + 1)) (proj1 S2)) as [S3 P3].
  change (s2 <| swapm -> access_counter ::= fun n => u32 (n + 1) |>) with (s2 <| swapm -> access_counter := u32 (access_counter (swapm s2) + 1) |>).
  set (s3 := s2 <| swapm -> access_counter := _ |>) in *.
  destruct (step_store s3 ns l' p lru_time (access_counter (swapm s3)) (proj1 S3) Hown) as [S4 P4]; [lru_words; lia|by right|done|].
  set (s4 := mstore s3 (p + lru_time) _) in *.
  destruct (step_store s4 ns l' p lru_flags 0 (proj1 S4) Hown) as [S5 P5]; [lru_words; lia|by right|done|].
  set (s5 := mstore s4 (p + lru_flags) 0) in *.
  pose proof (step_trans _ _ _ _ _ _ _ S1 (step_trans _ _ _ _ _ _ _ S2 (step_trans _ _ _ _ _ _ _ S3 (step_trans _ _ _ _ _ _ _ S4 S5)))) as S.
  assert (pages s5 ns = pages s ns) as P by congruence.
  assert (mload s5 (p + lru_vaddr) = va ∧ mload s5 (p + lru_flags) = 0) as [Ev Ef].
  { split; [|apply kload_kstore_eq]. transitivity (mload s3 (p + lru_vaddr)).
    - unfold s5, s4, mload. cbn [kal mstore set_kal]. transitivity (mload s4 (p + lru_vaddr)); apply kload_kstore_ne; lru_words; lia.
    - apply kload_kstore_eq. }
  destruct (attach_ok s5 ns p l' (proj1 S5) Hown) as (Hok6 & O6 & K6 & C6 & P6);
    [lia|done|done|by rewrite Ev, P|by rewrite Ef|].
  eexists _, (p :: ns), l'. split; [done|].
  split; [apply step_count; eapply step_trans; [exact S|by split]|]. split.
  - unfold counted in *. change (u32 (lru_count (swapm (push_lru s5 p)) + 1) = u32 (Z.of_nat (length (p :: ns)))).
    rewrite C6. change (lru_count (swapm s5)) with (lru_count (swapm s)). rewrite Hc. unfold u32. rewrite Zplus_mod_idemp_l. f_equal. cbn [length]. lia.
  - left. split; [done|]. split; [|done]. change (pages (push_lru s5 p) (p :: ns) = va :: pages s ns). by rewrite P6, Ev, P.
Qed.

(** Giving up a page. *)
Lemma remove_from_lru_spec fuel s ns l va :
  lru_ok s ns l → counted s ns → (length ns < fuel)%nat →
  ∃ s' ns' l', remove_from_lru fuel s va = Done s' ∧ step s s' ns' l' ∧ counted s' ns' ∧
    pages s' ns' = forget va (pages s ns) ∧ (length ns' <= length ns)%nat.
Proof.
  intros Hok Hc Hf. unfold remove_from_lru.
  destruct (find_lru_spec fuel s ns l va Hok Hf) as [[Hni ->]|(l1 & p & l2 & -> & Hva & Hp0 & ->)]; cbn [obind].
  { exists s, ns, l. split; [done|]. split; [split; [done|split; [reflexivity|done]]|]. by rewrite forget_absent. }
  rewrite (proj2 (Z.eqb_neq p 0)) by done.
  destruct (detach_ok s l1 p l2 l Hok) as (Hok1 & O1 & K1 & C1 & P1 & _). unfold detach in *. cbv zeta in *.
  set (s1 := if p =? lru_tail _ then _ else _) in *.
  destruct (lk_own _ _ _ Hok p) as [Hin Hdis]; [set_solver|].
  apply list_elem_of_split in Hin as (la & lb & ->).
  destruct (kfree_live (kal s1) la p sizeof_page_lru lb (lk_live _ _ _ Hok1)) as (k & Ek & Hk & Hkp).
  unfold mm_free. rewrite Ek. cbn [obind].
  assert (∀ b, b ∈ la ++ (p, sizeof_page_lru) :: lb → b ≠ (p, sizeof_page_lru) → b ∈ la ++ lb) as Hrest.
  { intros b [?|[->|?]%elem_of_cons]%elem_of_app Hne; [apply elem_of_app; by left|done|apply elem_of_app; by right]. }
  assert (∀ q, q ∈ l1 ++ l2 → q ≠ p) as Hqp.
  { destruct (lk_list _ _ _ Hok) as (_ & _ & Hnd & _). intros q Hq ->.
    apply list.NoDup_app in Hnd as (_ & Hd2 & [Hn2 _]%list.NoDup_cons).
    apply elem_of_app in Hq as [Hq|Hq]; [apply (Hd2 p Hq); by left|done]. }
  destruct (step_keeps s1 (l1 ++ l2) _ (la ++ lb) k (la ++ lb) Hok1) as [S2 P2]; [| |done|done|done|].
  { intros b Hb. apply Hrest; [by apply (lk_others _ _ _ Hok)|]. intros ->. destruct (Hdis _ _ Hb); lru_words; lia. }
  { intros q Hq. apply Hrest; [apply (lk_own _ _ _ Hok1 q Hq)|]. intros [= ->]. by apply (Hqp p Hq). }
  eexists _, (l1 ++ l2), (la ++ lb). split; [done|]. split; [|split; [|split]].
  - apply step_count. eapply step_trans; [|exact S2]. by split.
  - unfold counted in *. change (u32 (lru_count (swapm s1) - 1) = u32 (Z.of_nat (length (l1 ++ l2)))).
    rewrite C1, Hc. unfold u32. rewrite Zminus_mod_idemp_l. f_equal. rewrite !length_app. cbn [length]. lia.
  - change (pages (set_kal s1 k) (l1 ++ l2) = forget va (pages s (l1 ++ p :: l2))). rewrite P2, P1.
    pose proof (lk_pages _ _ _ Hok) as Hnd. unfold pages in *. rewrite !map_app in *. cbn [map] in *. rewrite Hva in *.
    by rewrite forget_split.
  - rewrite !length_app. cbn [length]. lia.
Qed.
Lemma update_page_access_spec fuel s ns l va :
  lru_ok s ns l → counted s ns → fits sizeof_page_lru → (length ns < fuel)%nat →
  ∃ s' ns' l', update_page_access fuel s va = Done s' ∧ step s s' ns' l' ∧ counted s' ns' ∧ (length ns' <= S (length ns))%nat ∧
    pages s' ns' = after (no_node s) (pages s ns) (Touch va).
Proof.
  intros Hok Hc Hfit Hf. unfold update_page_access.
  destruct (find_lru_spec fuel s ns l va Hok Hf) as [[Hni ->]|(l1 & p & l2 & -> & Hva & Hp0 & ->)]; cbn [obind].
  - cbn [Z.eqb]. destruct (add_to_lru_spec s ns l va Hok Hfit Hc Hni) as (s' & ns' & l' & E & S & C & Hcase).
    exists s', ns', l'. split; [done|]. split; [done|]. split; [done|].
    cbn [after]. rewrite bool_decide_eq_false_2 by done.
    destruct Hcase as [(-> & P & L)|(-> & P & L)]; (split; [lia|]); cbn [andb negb]; [by rewrite forget_absent|done].
  - rewrite (proj2 (Z.eqb_neq p 0)) by done. destruct (touch_found s l1 p l2 l va Hok Hva) as (S & P & C). cbv zeta in *.
    eexists _, (p :: l1 ++ l2), l. split; [|split; [exact S|split; [|split]]].
    + by destruct (p =? lru_head _).
    + unfold counted in *. rewrite C, Hc. do 2 f_equal. rewrite !length_app. cbn [length]. rewrite length_app. lia.
    + cbn [length]. rewrite !length_app. cbn [length]. lia.
    + cbn [after]. rewrite bool_decide_eq_true_2, andb_false_r by (unfold pages; rewrite map_app; set_solver). exact P.
Qed.

(** The oldest node is the victim. *)
Lemma find_victim_spec fuel s ns l :
  lru_ok s ns l → (0 < fuel)%nat → find_victim_page fuel s = Done (List.last ns 0).
Proof.
  intros Hok Hf. unfold find_victim_page. rewrite (lk_tail _ _ _ Hok). destruct fuel as [|fuel]; [lia|].
  destruct (decide (ns = [])) as [->|Hne]; [done|].
  assert (List.last ns 0 ∈ ns) as Hin by (by apply (last_in_app lru_next lru_prev lru_np)).
  rewrite (proj2 (Z.eqb_neq _ 0)) by (by eapply lru_nonnull). cbn [loop].
  rewrite (proj2 (Z.eqb_neq _ 0)) by (by eapply lru_nonnull). by rewrite (lk_unlocked _ _ _ Hok).
Qed.

Lemma run_spec fuel s ns l ops :
  lru_ok s ns l → counted s ns → fits sizeof_page_lru → (length ns + length ops < fuel)%nat →
  ∃ s' ns' l', run fuel s ops = Done s' ∧ step s s' ns' l' ∧ counted s' ns' ∧
    pages s' ns' = recency fuel s (pages s ns) ops.
Proof.
  intros Hok Hc Hfit. revert s ns l Hok Hc. induction ops as [|op ops IH]; intros s ns l Hok Hc Hf; cbn [run recency length] in *.
  { exists s, ns, l. split; [done|]. split; [split; [done|split; [reflexivity|done]]|]. by split. }
  assert (∃ s1 ns1 l1, run_op fuel s op = Done s1 ∧ step s s1 ns1 l1 ∧ counted s1 ns1 ∧ (length ns1 <= S (length ns))%nat ∧
    pages s1 ns1 = after (no_node s) (pages s ns) op) as (s1 & ns1 & l1 & -> & S1 & C1 & L1 & R1).
  { destruct op as [va|va].
    - destruct (update_page_access_spec fuel s ns l va Hok Hc Hfit) as (s1 & ns1 & l1 & E & S1 & C1 & L1 & P); [lia|].
      by exists s1, ns1, l1.
    - destruct (remove_from_lru_spec fuel s ns l va Hok Hc) as (s1 & ns1 & l1 & E & S1 & C1 & P & L1); [lia|].
      exists s1, ns1, l1. do 3 (split; [done|]). by split; [lia|]. }
  cbn [obind]. destruct (IH s1 ns1 l1 (proj1 S1) C1) as (s2 & ns2 & l2 & E2 & S2 & C2 & R2); [lia|].
  exists s2, ns2, l2. split; [done|]. split; [by eapply step_trans|]. split; [done|]. by rewrite <- R1.
Qed.

(** C35. The swap manager's list is a list of pages by recency.  Take a list
    without locked pages ([lru_ok]; no code locks one) and any sequence of
    [update_page_access] and [remove_from_lru] calls, over an allocator that
    keeps its contract.  Every call returns, the list stays well formed and
    counted, its pages are those of the specification [recency], where an
    access puts its page in front unless [kmalloc] has no memory for the node
    of a new page, and nothing outside the list's own fields and nodes changes.
    Then [find_victim_page] finds the page whose last access is the oldest, and
    null only when the list is empty. *)
Theorem swap_lru_refines fuel s ns l ops :
  lru_ok s ns l → counted s ns → fits sizeof_page_lru → (length ns + length ops < fuel)%nat →
  ∃ s' ns' l', run fuel s ops = Done s' ∧ lru_ok s' ns' l' ∧ counted s' ns' ∧
    pages s' ns' = recency fuel s (pages s ns) ops ∧ only_lru s s' ∧ keeps others (kal s) (kal s') ∧
    ∃ v, find_victim_page fuel s' = Done v ∧
      (pages s' ns' = [] ∧ v = 0 ∨ v ≠ 0 ∧ ∃ newer, pages s' ns' = newer ++ [mload s' (v + lru_vaddr)]).
Proof.
  intros Hok Hc Hfit Hf. destruct (run_spec fuel s ns l ops Hok Hc Hfit Hf) as (s' & ns' & l' & E & (Hok' & O & Kp) & C & R).
  exists s', ns', l'. do 6 (split; [done|]). exists (List.last ns' 0).
  split; [by eapply find_victim_spec; [|lia]|]. destruct ns' as [|p ns' _] using rev_ind; [by left|right].
  rewrite last_last. split; [eapply lru_nonnull; [exact Hok'|set_solver]|].
  exists (pages s' ns'). unfold pages. by rewrite map_app.
Qed.

End Lru.

(** ** A list of two pages *)

Definition no_pages : mm bump := mk_mm (mk_bump ∅ 4096) [] 0 0 0 0 0 zero_swap (mk_cow 0 0 0 0 0 0 0).
Definition some_accesses : list lru_op := [Touch 0x1000; Touch 0x2000; Touch 0x3000; Touch 0x1000; Drop 0x2000].

Lemma no_pages_ok : lru_ok [] no_pages [] [].
Proof.
  split; try (intros x Hx; by apply elem_of_nil in Hx).
  - split; [done|]. split; [by exists 1024|]. split; [done|]. intros p n Hp. by apply elem_of_nil in Hp.
  - intros p q Hp. by apply elem_of_nil in Hp.
  - apply dlist_intro; [reflexivity|exact I|constructor|intros x y Hx; by apply elem_of_nil in Hx].
  - reflexivity.
  - constructor.
Qed.

Lemma swap_lru_refines_witness :
  ∃ s' ns' l' v, run 10 no_pages some_accesses = Done s' ∧ lru_ok [] s' ns' l' ∧ find_victim_page 10 s' = Done v ∧
    pages s' ns' = [0x1000; 0x3000].
Proof.
  destruct (swap_lru_refines [] 10 no_pages [] [] some_accesses) as (s' & ns' & l' & E & Hok & _ & R & _ & _ & v & Ev & _).
  - exact no_pages_ok.
  - reflexivity.
  - reflexivity.
  - apply Nat.ltb_lt. vm_compute. reflexivity.
  - exists s', ns', l', v. split; [exact E|]. split; [exact Hok|]. split; [exact Ev|]. rewrite R. vm_compute. reflexivity.
Defined.

(** Page [0x3000] is the victim, and [0x1000] behind it is newer. *)
Example victim_is_oldest :
  match (let* s := run 10 no_pages some_accesses in
         let* v := find_victim_page 10 s in Done (mload s (v + lru_vaddr), mload s (mload s (v + lru_prev) + lru_vaddr), lru_count (swapm s))) with
  | Done r => r | _ => (0, 0, 0)
  end = (0x3000, 0x1000, 2).
Proof. vm_compute. reflexivity. Qed.
