(* ===== verification/Paging.v ===== *)
(** The virtual memory manager, the part that allocates frames:
    [src/src/kernel/arch/x86/vmm.cc], with [SwapManager::swap_in_page].

    [alloc_frame] calls the swap manager when the bitmap is full, and the
    swap manager's reclaim needs no frame, so [Swap.v] comes before. *)

From Stdlib Require Import ZArith Lia.
From stdpp Require Import base list gmap option.
From coqutil Require Import Datatypes.RecordSetters.
From S2P Require Import Prelude Memory KAlloc Mm Vmm Swap.
Import TriangleBracketNotations.

Section Paging.
Context {K : Type} `{KAlloc K}.
Variable fuel : nat.
Variables file_read file_write : Z.

(** Each retry of [alloc_frame] takes one unit of [depth]. *)
Fixpoint alloc_frame_at (depth : nat) (s : mm K) : outcome (Z * mm K) :=
  match take_frame s with
  | Some (frame, s) => Done (frame, s)
  | None =>
    let* pressure := check_memory_pressure fuel s in
    if MEMORY_PRESSURE_MEDIUM <=? pressure then
      let pages_to_reclaim := if pressure =? MEMORY_PRESSURE_CRITICAL then 64 else 16 in
      let* (reclaimed, s) := reclaim_pages fuel file_write s pages_to_reclaim in
      if 0 <? s32 reclaimed then
        match depth with O => OutOfFuel | S d => alloc_frame_at d s end
      else Done (0, s)
    else Done (0, s)
  end.

Definition alloc_frame (s : mm K) : outcome (Z * mm K) := alloc_frame_at fuel s.

(** ** Page tables *)

(** A fresh table: not present, writable, not user, frame 0; the other bits
    keep what the memory held. *)
Definition clear_table (s : mm K) (table : Z) : mm K :=
  for_ 1024 (fun i s => let e := table + 4 * i in mstore s e (pte_assign (mload s e) false true false 0)) s.

Definition get_page_table (s : mm K) (pd virtual_addr : Z) (create : bool) : outcome (Z * mm K) :=
  let table_idx := VADDR_PD_OFFSET virtual_addr in
  if negb (pte_present (mload s (pd_entry pd table_idx))) then
    if negb create then Done (0, s)
    else
      let* (phys_addr, s) := alloc_frame s in
      if phys_addr =? 0 then Done (0, s)
      else
        let* (table, s) := mm_alloc s 4096 in
        let s := mstore s (pd_table pd table_idx) table in
        if table =? 0 then Done (0, free_frame s phys_addr)
        else
          let s := clear_table s table in
          let e := pd_entry pd table_idx in
          let s := mstore s e (pte_assign (mload s e) true true false (Z.shiftr phys_addr 12)) in
          Done (mload s (pd_table pd table_idx), s)
  else Done (mload s (pd_table pd table_idx), s).

Definition map_page (s : mm K) (pd virtual_addr physical_addr flags : Z) : outcome (Z * mm K) :=
  let* (table, s) := get_page_table s pd virtual_addr true in
  if table =? 0 then Done (-1, s)
  else
    let e := pte_addr table virtual_addr in
    Done (0, mstore s e (pte_assign (mload s e) (has_flag flags PG_PRESENT) (has_flag flags PG_WRITE)
                           (has_flag flags PG_USER) (Z.shiftr physical_addr 12))).

(** ** Directories *)

Definition create_page_directory (s : mm K) : outcome (Z * mm K) :=
  let* (pd, s) := mm_alloc s sizeof_page_directory in
  if pd =? 0 then Done (0, s)
  else
    let s := for_ 1024 (fun i s =>
      let e := pd_entry pd i in
      let s := mstore s e (pte_assign (mload s e) false true false 0) in
      mstore s (pd_table pd i) 0) s in
    let s := mstore s (pd + pd_swapped) 0 in
    let* (phys_addr, s) := alloc_frame s in
    Done (pd, mstore s (pd + pd_physical) phys_addr).

Definition free_present (s : mm K) (table j : Z) : mm K :=
  let e := mload s (table + 4 * j) in
  if pte_present e then free_frame s (Z.shiftl (pte_frame e) 12) else s.

Definition destroy_table (s : mm K) (pd i : Z) : outcome (mm K) :=
  let table := mload s (pd_table pd i) in
  if pte_present (mload s (pd_entry pd i)) && negb (table =? 0) then
    mm_free (for_ 1024 (fun j s => free_present s table j) s) table
  else Done s.

Definition destroy_page_directory (s : mm K) (pd : Z) : outcome (mm K) :=
  if pd =? 0 then Done s
  else
    let* s := ofor 1024 (fun i s => destroy_table s pd i) s in
    let* s := loop fuel (fun '(s, swapped) =>
      if swapped =? 0 then Done (inr s)
      else
        let next := mload s (swapped + sw_next) in
        let s := free_swap_entry s (mload s (swapped + sw_entry)) in
        let* s := mm_free s swapped in
        Done (inl (s, next))) (s, mload s (pd + pd_swapped)) in
    let s := if negb (mload s (pd + pd_physical) =? 0)
             then free_frame s (mload s (pd + pd_physical)) else s in
    mm_free s pd.

(** [pd0_add_page] and [pd_add_page] *)
Definition pd_add_page (s : mm K) (v_addr p_addr flags pd : Z) : outcome (mm K) :=
  if pd =? 0 then Done s
  else let* (_, s) := map_page s pd v_addr p_addr flags in Done s.
Definition pd0_add_page (s : mm K) (v_addr p_addr flags : Z) : outcome (mm K) :=
  pd_add_page s v_addr p_addr flags (kernel_directory s).

(** ** Swapping in *)

Definition swap_in_page (s : mm K) (virtual_addr swap_entry : Z) : outcome (Z * mm K) :=
  let dev_id := Z.land (Z.shiftr swap_entry 24) 0xFF in
  let offset := Z.land swap_entry 0xFFFFFF in
  let dev := nth_device s dev_id in
  if dev =? 0 then Done (-1, s)
  else
    let* (frame, s) := alloc_frame s in
    if frame =? 0 then Done (-1, s)
    else
      let* r := call_read_page file_read s dev offset frame in
      if negb (r =? 0) then Done (-1, free_frame s frame)
      else
        let* (r, s) := map_page s (current_directory s) virtual_addr frame
                         (Z.lor (Z.lor PG_PRESENT PG_WRITE) PG_USER) in
        if negb (r =? 0) then Done (-1, free_frame s frame)
        else
          let s := free_swap_entry s swap_entry in
          let* s := add_to_lru s virtual_addr in
          let s := s <| swapm -> swap_in_count ::= fun n => u32 (n + 1) |>
                     <| swapm -> used_swap_pages ::= fun n => u32 (n - 1) |> in
          Done (0, madd s (dev + sd_inuse) (-1)).

End Paging.
