(* ===== verification/VmmSpec.v ===== *)
(** The virtual memory manager's contract: frames are handed out lowest
    first, and a page directory in memory is a map from virtual pages that
    [map_page] updates, [unmap_page] deletes from and [get_physical_addr]
    reads. *)

From Stdlib Require Import ZArith Lia.
From stdpp Require Import base list gmap option sets.
From coqutil Require Import Datatypes.RecordSetters.
From S2P Require Import Prelude Memory KAlloc Bump Mm Vmm Swap Paging.
Import TriangleBracketNotations.

(** ** The frame bitmap *)

Definition used (s : list Z) (f : Z) : bool := Z.testbit (zget 0 s (f / 32)) (f mod 32).

Definition words_ok (l : list Z) : Prop := Forall (fun w => 0 <= w < 2 ^ 32) l.

Lemma first_clear_spec w n i :
  match first_clear w i n with
  | Some b => i <= b < i + Z.of_nat n ∧ Z.testbit w b = false ∧ ∀ j, i <= j < b → Z.testbit w j = true
  | None => ∀ j, i <= j < i + Z.of_nat n → Z.testbit w j = true
  end.
Proof.
  revert i. induction n as [|n IH]; intros i; cbn [first_clear]; [lia|].
  destruct (Z.testbit w i) eqn:E.
  - specialize (IH (i + 1)). destruct (first_clear w (i + 1) n) as [b|].
    + destruct IH as (Hb & Hc & Hl). split; [lia|]. split; [done|]. intros j Hj.
      destruct (decide (j = i)) as [->|]; [done|]. apply Hl. lia.
    + intros j Hj. destruct (decide (j = i)) as [->|]; [done|]. apply IH. lia.
  - split; [lia|]. split; [done|]. intros j Hj. lia.
Qed.

(** A full word has no clear bit, and any other 32-bit word has one. *)
Lemma full_word w : 0 <= w < 2 ^ 32 → (∀ j, 0 <= j < 32 → Z.testbit w j = true) → w = 0xFFFFFFFF.
Proof.
  intros Hw H. change 0xFFFFFFFF with (Z.ones 32). apply Z.bits_inj'. intros j Hj.
  rewrite Z.testbit_ones_nonneg by lia. destruct (Z.ltb_spec j 32).
  - apply H. lia.
  - destruct (decide (w = 0)) as [->|]; [apply Z.bits_0|].
    apply Z.bits_above_log2; [lia|]. apply Z.lt_le_trans with 32; [|lia]. apply Z.log2_lt_pow2; lia.
Qed.

Lemma word_search w :
  0 <= w < 2 ^ 32 →
  match (if negb (w =? 0xFFFFFFFF) then first_clear w 0 32 else None) with
  | Some b => 0 <= b < 32 ∧ Z.testbit w b = false ∧ ∀ j, 0 <= j < b → Z.testbit w j = true
  | None => ∀ j, 0 <= j < 32 → Z.testbit w j = true
  end.
Proof.
  intros Hw. destruct (Z.eqb_spec w 0xFFFFFFFF) as [->|Hne]; cbn [negb].
  - intros j Hj. change 0xFFFFFFFF with (Z.ones 32). rewrite Z.testbit_ones_nonneg by lia. apply Z.ltb_lt. lia.
  - pose proof (first_clear_spec w 32 0) as H. destruct (first_clear w 0 32); [exact H|].
    by destruct Hne; apply full_word.
Qed.

(** The scan finds the least frame that is not used. *)
Lemma scan_bitmap_spec words i :
  words_ok words → 0 <= i →
  match scan_bitmap words i with
  | Some (k, bit) => ∃ f, 0 <= f < 32 * Z.of_nat (length words) ∧ k = i + f / 32 ∧ bit = f mod 32 ∧
      used words f = false ∧ ∀ g, 0 <= g < f → used words g = true
  | None => ∀ g, 0 <= g < 32 * Z.of_nat (length words) → used words g = true
  end.
Proof.
  intros Hw. revert i. induction Hw as [|w words Hw1 Hw IH]; intros i Hi; cbn [scan_bitmap]; [simpl; lia|].
  assert (∀ g, 0 <= g < 32 → used (w :: words) g = Z.testbit w g) as Hhd.
  { intros g Hg. unfold used. rewrite Z.div_small, Z.mod_small by lia. by rewrite zget_cons. }
  assert (∀ g, 32 <= g → used (w :: words) g = used words (g - 32)) as Htl.
  { intros g Hg. unfold used. rewrite zget_cons. pose proof (Z.div_le_lower_bound g 32 1).
    rewrite decide_False by lia. replace (g / 32 - 1) with ((g - 32) / 32).
    - f_equal. replace (g - 32) with (g + (-1) * 32) by lia. by rewrite Z.mod_add by lia.
    - replace (g - 32) with (g + (-1) * 32) by lia. rewrite Z.div_add by lia. lia. }
  pose proof (word_search w Hw1) as Hs. destruct (if negb _ then _ else _) as [b|].
  - destruct Hs as (Hb & Hc & Hl). exists b. rewrite Z.div_small, Z.mod_small by lia. simpl length.
    split; [lia|]. split; [lia|]. split; [done|]. split; [by rewrite Hhd|].
    intros g Hg. rewrite Hhd by lia. by apply Hl.
  - specialize (IH (i + 1) ltac:(lia)). destruct (scan_bitmap words (i + 1)) as [[k b]|].
    + destruct IH as (f & Hf & -> & -> & Hc & Hl). exists (f + 32). simpl length.
      split; [lia|]. replace (f + 32) with (f + 1 * 32) by lia.
      rewrite Z.div_add, Z.mod_add by lia. split; [lia|]. split; [done|]. split.
      { rewrite Htl by lia. by replace (f + 1 * 32 - 32) with f by lia. }
      intros g Hg. destruct (decide (g < 32)); [rewrite Hhd by lia; apply Hs; lia|].
      rewrite Htl by lia. apply Hl. lia.
    + intros g Hg. simpl length in Hg. destruct (decide (g < 32)); [rewrite Hhd by lia; apply Hs; lia|].
      rewrite Htl by lia. apply IH. lia.
Qed.

Lemma used_zset words f g v :
  0 <= f < 32 * Z.of_nat (length words) → 0 <= g →
  used (zset words (f / 32) v) g =
    if decide (f / 32 = g / 32) then Z.testbit v (g mod 32) else used words g.
Proof.
  intros Hf Hg. unfold used. rewrite zget_zset; [by case_decide|].
  split; [apply Z.div_pos; lia|]. apply Z.div_lt_upper_bound; lia.
Qed.

Lemma same_word f g : f / 32 = g / 32 → (g mod 32 =? f mod 32) = bool_decide (g = f).
Proof.
  intros E. pose proof (Z.div_mod f 32 ltac:(lia)). pose proof (Z.div_mod g 32 ltac:(lia)).
  destruct (Z.eqb_spec (g mod 32) (f mod 32)); symmetry; [apply bool_decide_eq_true|apply bool_decide_eq_false]; lia.
Qed.

Lemma used_set words f g :
  0 <= f < 32 * Z.of_nat (length words) → 0 <= g →
  used (zset words (f / 32) (Z.lor (zget 0 words (f / 32)) (Z.shiftl 1 (f mod 32)))) g =
    bool_decide (g = f) || used words g.
Proof.
  intros Hf Hg. rewrite used_zset by done. pose proof (Z.mod_pos_bound f 32 ltac:(lia)).
  case_decide as E.
  - rewrite testbit_clear_set by lia. rewrite same_word by done. unfold used. by rewrite E.
  - rewrite bool_decide_eq_false_2; [done|]. by intros ->.
Qed.

Lemma used_clear words f g :
  0 <= f < 32 * Z.of_nat (length words) → 0 <= g →
  used (zset words (f / 32) (Z.ldiff (zget 0 words (f / 32)) (Z.shiftl 1 (f mod 32)))) g =
    negb (bool_decide (g = f)) && used words g.
Proof.
  intros Hf Hg. rewrite used_zset by done. pose proof (Z.mod_pos_bound f 32 ltac:(lia)).
  case_decide as E.
  - rewrite testbit_ldiff_bit by lia. rewrite same_word by done. unfold used. by rewrite E.
  - rewrite bool_decide_eq_false_2; [done|]. by intros ->.
Qed.

(** The bitmap of the whole physical memory. *)
Definition bitmap_ok (words : list Z) : Prop :=
  Z.of_nat (length words) = MAX_FRAMES / 32 ∧ words_ok words.

Lemma words_ok_zset words i v : words_ok words → 0 <= v < 2 ^ 32 → words_ok (zset words i v).
Proof.
  intros Hw Hv. unfold zset. case_decide; [|done]. by apply Forall_insert.
Qed.

Lemma zget_words words i : words_ok words → 0 <= zget 0 words i < 2 ^ 32.
Proof.
  intros Hw. unfold zget. case_decide; [|lia]. rewrite nth_lookup.
  destruct (words !! Z.to_nat i) as [w|] eqn:E; [|simpl; lia].
  by apply (Forall_lookup_1 _ _ _ _ Hw E).
Qed.

Lemma lor_bit_range w b : 0 <= w < 2 ^ 32 → 0 <= b < 32 → 0 <= Z.lor w (Z.shiftl 1 b) < 2 ^ 32.
Proof.
  intros Hw Hb. rewrite Z.shiftl_1_l. assert (0 < 2 ^ b < 2 ^ 32)
    by (split; [apply Z.pow_pos_nonneg|apply Z.pow_lt_mono_r]; lia).
  split; [apply Z.lor_nonneg; lia|].
  destruct (decide (Z.lor w (2 ^ b) = 0)) as [->|]; [lia|].
  pose proof (proj2 (Z.lor_nonneg w (2 ^ b)) ltac:(lia)).
  apply Z.log2_lt_pow2; [lia|]. rewrite Z.log2_lor by lia. rewrite Z.log2_pow2 by lia.
  apply Z.max_lub_lt; [|lia]. destruct (decide (w = 0)) as [->|]; [done|]. apply Z.log2_lt_pow2; lia.
Qed.

Lemma ldiff_bit_range w b : 0 <= w < 2 ^ 32 → 0 <= Z.ldiff w b < 2 ^ 32.
Proof.
  intros Hw. assert (Z.ldiff w b = u32 (Z.ldiff w b)) as ->; [|apply u32_range].
  unfold u32. rewrite <- Z.land_ones by lia. apply Z.bits_inj'. intros j Hj.
  rewrite Z.land_spec, Z.testbit_ones_nonneg, Z.ldiff_spec by lia. destruct (Z.ltb_spec j 32); [by rewrite andb_true_r|].
  rewrite <- (u32_small w) by done. unfold u32. by rewrite Z.mod_pow2_bits_high by lia.
Qed.

(** ** Entries *)

Lemma pte_set_bit w i b j : 0 <= i → Z.testbit (pte_set w i b) j = if j =? i then b else Z.testbit w j.
Proof.
  intros Hi. unfold pte_set. destruct b.
  - rewrite testbit_clear_set by done. by destruct (j =? i).
  - rewrite testbit_ldiff_bit by done. by destruct (j =? i).
Qed.

Lemma pte_set_frame_low w f j : 0 <= j < 12 → Z.testbit (pte_set_frame w f) j = Z.testbit w j.
Proof.
  intros Hj. unfold pte_set_frame. rewrite Z.lor_spec, Z.land_spec, Z.shiftl_spec_low by lia.
  change 0xFFF with (Z.ones 12). rewrite Z.testbit_ones_nonneg by lia.
  rewrite (proj2 (Z.ltb_lt _ _)) by lia. by rewrite andb_true_r, orb_false_r.
Qed.

Lemma pte_frame_set w f : 0 <= f < 2 ^ 20 → pte_frame (pte_set_frame w f) = f.
Proof.
  intros Hf. unfold pte_frame, pte_set_frame. apply Z.bits_inj'. intros j Hj.
  change 0xFFFFF with (Z.ones 20). change 0xFFF with (Z.ones 12).
  rewrite Z.land_spec, Z.shiftr_spec, Z.lor_spec, Z.land_spec, Z.shiftl_spec, Z.land_spec by lia.
  rewrite !Z.testbit_ones_nonneg by lia. replace (j + 12 - 12) with j by lia.
  rewrite (proj2 (Z.ltb_ge (j + 12) 12)) by lia. rewrite andb_false_r. cbn [orb].
  destruct (Z.ltb_spec j 20); [by rewrite !andb_true_r|]. rewrite !andb_false_r.
  rewrite <- (Z.mod_small f (2 ^ 20)) by done. by rewrite Z.mod_pow2_bits_high by lia.
Qed.

(** The entry that [pte_assign] makes: its four fields are as assigned. *)
Lemma pte_assign_spec w p wr u f :
  0 <= f < 2 ^ 20 →
  pte_present (pte_assign w p wr u f) = p ∧ pte_writable (pte_assign w p wr u f) = wr ∧
  pte_user (pte_assign w p wr u f) = u ∧ pte_frame (pte_assign w p wr u f) = f.
Proof.
  intros Hf. unfold pte_assign, pte_present, pte_writable, pte_user, pte_bit.
  rewrite pte_frame_set by done. rewrite !pte_set_frame_low by lia. by rewrite !pte_set_bit by lia.
Qed.

Lemma pte_frame_range w : 0 <= pte_frame w < 2 ^ 20.
Proof. unfold pte_frame. change 0xFFFFF with (Z.ones 20). rewrite Z.land_ones by lia. apply Z.mod_pos_bound. lia. Qed.

(** ** Address arithmetic *)

Lemma pd_offset_eq va : 0 <= va < 2 ^ 32 → VADDR_PD_OFFSET va = va / 2 ^ 22.
Proof.
  intros Hv. unfold VADDR_PD_OFFSET. change 0xFFC00000 with (u32 (Z.lnot (2 ^ 22 - 1))).
  rewrite land_align by lia. rewrite Z.shiftr_div_pow2 by lia. by rewrite Z.div_mul by lia.
Qed.

Lemma pt_offset_eq va : 0 <= va < 2 ^ 32 → VADDR_PT_OFFSET va = va / 2 ^ 12 mod 2 ^ 10.
Proof.
  intros Hv. unfold VADDR_PT_OFFSET. rewrite <- (Z.shiftr_div_pow2 va 12), <- Z.land_ones by lia.
  rewrite Z.shiftr_land. done.
Qed.

Lemma pg_offset_eq va : VADDR_PG_OFFSET va = va mod 2 ^ 12.
Proof. unfold VADDR_PG_OFFSET. change 0xFFF with (Z.ones 12). by rewrite Z.land_ones by lia. Qed.

(** The virtual page of an address. *)
Definition vpage (va : Z) : Z := va / 2 ^ 12.

Lemma offsets_range va :
  0 <= va < 2 ^ 32 → 0 <= VADDR_PD_OFFSET va < 1024 ∧ 0 <= VADDR_PT_OFFSET va < 1024.
Proof.
  intros Hv. rewrite pd_offset_eq, pt_offset_eq by done. split; [|apply Z.mod_pos_bound; lia].
  split; [apply Z.div_pos; lia|apply Z.div_lt_upper_bound; lia].
Qed.

(** Directory and table index determine the page. *)
Lemma offsets_inj va va' :
  0 <= va < 2 ^ 32 → 0 <= va' < 2 ^ 32 →
  VADDR_PD_OFFSET va = VADDR_PD_OFFSET va' → VADDR_PT_OFFSET va = VADDR_PT_OFFSET va' → vpage va = vpage va'.
Proof.
  intros Hv Hv'. rewrite !pd_offset_eq, !pt_offset_eq by done. unfold vpage.
  change (2 ^ 22) with (2 ^ 12 * 2 ^ 10). rewrite <- !Z.div_div by lia. intros E1 E2.
  rewrite (Z.div_mod (va / 2 ^ 12) (2 ^ 10)), (Z.div_mod (va' / 2 ^ 12) (2 ^ 10)) by lia. congruence.
Qed.

Lemma vpage_offsets va va' :
  0 <= va < 2 ^ 32 → 0 <= va' < 2 ^ 32 → vpage va = vpage va' →
  VADDR_PD_OFFSET va = VADDR_PD_OFFSET va' ∧ VADDR_PT_OFFSET va = VADDR_PT_OFFSET va'.
Proof.
  intros Hv Hv'. rewrite !pd_offset_eq, !pt_offset_eq by done. unfold vpage.
  change (2 ^ 22) with (2 ^ 12 * 2 ^ 10). rewrite <- !Z.div_div by lia. by intros ->.
Qed.

Ltac pd_words :=
  unfold pd_entry, pd_table, pte_addr, pd_physical, pd_swapped, sizeof_page_directory in *.

Section Spec.
Context {K : Type} `{KAllocLaws K}.

Lemma mload_mstore (s : mm K) a b v : mload (mstore s a v) b = if decide (a = b) then v else mload s b.
Proof. apply kload_kstore. Qed.
Lemma mload_mstore_eq (s : mm K) a v : mload (mstore s a v) a = v.
Proof. apply kload_kstore_eq. Qed.
Lemma mload_mstore_ne (s : mm K) a b v : a ≠ b → mload (mstore s a v) b = mload s b.
Proof. apply kload_kstore_ne. Qed.

Lemma set_kal_id (s : mm K) : set_kal s (kal s) = s.
Proof. by destruct s. Qed.
Lemma set_kal_twice (s : mm K) k k' : set_kal (set_kal s k) k' = set_kal s k'.
Proof. by destruct s. Qed.

(** ** Frames *)

Lemma new_bitmap (s : mm K) b g :
  frame_bitmap (s <| frame_bitmap := b |> <| frames_used ::= g |>) = b.
Proof. reflexivity. Qed.

(** What [alloc_frame] promises while a frame is free. *)
Definition frame_taken (s : mm K) (f : Z) (s' : mm K) : Prop :=
  0 <= f < MAX_FRAMES ∧ used (frame_bitmap s) f = false ∧
  (∀ g, 0 <= g < f → used (frame_bitmap s) g = true) ∧
  bitmap_ok (frame_bitmap s') ∧ frames_used s' = u32 (frames_used s + 1) ∧
  (∀ g, 0 <= g → used (frame_bitmap s') g = bool_decide (g = f) || used (frame_bitmap s) g) ∧
  s' = s <| frame_bitmap := frame_bitmap s' |> <| frames_used := frames_used s' |>.

Lemma take_frame_spec (s : mm K) :
  bitmap_ok (frame_bitmap s) →
  match take_frame s with
  | Some (a, s') => ∃ f, a = f * FRAME_SIZE ∧ frame_taken s f s'
  | None => ∀ g, 0 <= g < MAX_FRAMES → used (frame_bitmap s) g = true
  end.
Proof.
  intros [Hl Hw]. unfold take_frame. pose proof (scan_bitmap_spec (frame_bitmap s) 0 Hw ltac:(lia)) as Hs.
  rewrite Hl in Hs. change (32 * (MAX_FRAMES / 32)) with MAX_FRAMES in Hs.
  destruct (scan_bitmap (frame_bitmap s) 0) as [[k b]|]; [|done].
  destruct Hs as (f & Hf & -> & -> & Hc & Hmin). exists f.
  replace ((0 + f / 32) * 32 + f mod 32) with f by (pose proof (Z.div_mod f 32); lia).
  rewrite u32_small by (unfold MAX_FRAMES, FRAME_SIZE in *; lia). split; [done|].
  assert (0 <= f < 32 * Z.of_nat (length (frame_bitmap s))) as Hf' by (rewrite Hl; done).
  split; [done|]. split; [done|]. split; [done|]. split.
  { rewrite new_bitmap. split; [by rewrite zset_length|]. apply words_ok_zset; [done|].
    apply lor_bit_range; [by apply zget_words|apply Z.mod_pos_bound; lia]. }
  split; [done|]. split; [|done]. intros g Hg. rewrite new_bitmap. by apply used_set.
Qed.

(** While some frame is free, [alloc_frame] returns the address of the
    lowest one, marks it used, counts it, and changes nothing else. *)
Theorem alloc_frame_spec fuel file_write (s : mm K) g :
  bitmap_ok (frame_bitmap s) → 0 <= g < MAX_FRAMES → used (frame_bitmap s) g = false →
  ∃ f s', alloc_frame fuel file_write s = Done (f * FRAME_SIZE, s') ∧ f <= g ∧ frame_taken s f s'.
Proof.
  intros Hb Hg Hu. pose proof (take_frame_spec s Hb) as Ht. unfold alloc_frame.
  destruct fuel; cbn [alloc_frame_at]; (destruct (take_frame s) as [[a s']|]; [|by rewrite Ht in Hu]);
    destruct Ht as (f & -> & Ht); exists f, s'; (split; [done|]; split; [|done]);
    destruct (decide (f <= g)); [done| |done|]; destruct Ht as (_ & _ & Hmin & _);
    rewrite Hmin in Hu by lia; done.
Qed.

(** [free_frame] clears the frame's bit and uncounts it, freed before or not. *)
Lemma free_frame_spec (s : mm K) f o :
  bitmap_ok (frame_bitmap s) → 0 <= f < MAX_FRAMES → 0 <= o < FRAME_SIZE →
  let s' := free_frame s (f * FRAME_SIZE + o) in
  bitmap_ok (frame_bitmap s') ∧ frames_used s' = u32 (frames_used s - 1) ∧
  (∀ g, 0 <= g → used (frame_bitmap s') g = negb (bool_decide (g = f)) && used (frame_bitmap s) g) ∧
  s' = s <| frame_bitmap := frame_bitmap s' |> <| frames_used := frames_used s' |>.
Proof.
  intros [Hl Hw] Hf Ho. unfold free_frame.
  replace ((f * FRAME_SIZE + o) / FRAME_SIZE) with f
    by (unfold FRAME_SIZE in *; rewrite Z.div_add_l by lia; rewrite Z.div_small by lia; lia).
  rewrite (proj2 (Z.ltb_lt _ _)) by lia. cbn zeta.
  assert (0 <= f < 32 * Z.of_nat (length (frame_bitmap s))) as Hf' by (rewrite Hl; done).
  split.
  { rewrite new_bitmap. split; [by rewrite zset_length|]. apply words_ok_zset; [done|].
    by apply ldiff_bit_range, zget_words. }
  split; [done|]. split; [|done]. intros g Hg. rewrite new_bitmap. by apply used_clear.
Qed.

(** ** Directories as maps *)

(** The frame, [writable] and [user] of the page of [va], if it is present. *)
Definition decode (e : Z) : option (Z * bool * bool) :=
  if pte_present e then Some (pte_frame e, pte_writable e, pte_user e) else None.

Definition translate (s : mm K) (pd va : Z) : option (Z * bool * bool) :=
  let table := find_page_table s pd va in
  if table =? 0 then None else decode (mload s (pte_addr table va)).

Definition present (s : mm K) (pd i : Z) : Prop := pte_present (mload s (pd_entry pd i)) = true.
Definition table_of (s : mm K) (pd i : Z) : Z := mload s (pd_table pd i).

(** The directory and its tables are live blocks, disjoint from each other. *)
Record pd_ok (s : mm K) (pd : Z) (l : list (Z * Z)) : Prop := {
  pd_block : (pd, sizeof_page_directory) ∈ l;
  pd_tables i : 0 <= i < 1024 → present s pd i →
    table_of s pd i ≠ 0 ∧ (table_of s pd i, 4096) ∈ l ∧
    (pd + sizeof_page_directory <= table_of s pd i ∨ table_of s pd i + 4096 <= pd);
  pd_disjoint i j : 0 <= i < 1024 → 0 <= j < 1024 → i ≠ j → present s pd i → present s pd j →
    table_of s pd i + 4096 <= table_of s pd j ∨ table_of s pd j + 4096 <= table_of s pd i;
}.

(** The words a walk of the directory reads. *)
Lemma translate_eq (s : mm K) pd va :
  translate s pd va =
    if pte_present (mload s (pd_entry pd (VADDR_PD_OFFSET va))) then
      if table_of s pd (VADDR_PD_OFFSET va) =? 0 then None
      else decode (mload s (pte_addr (table_of s pd (VADDR_PD_OFFSET va)) va))
    else None.
Proof.
  unfold translate, find_page_table, table_of. destruct (pte_present _); [|done]. done.
Qed.

(** Writing an entry of a present table changes the translation of its page only. *)
Lemma write_pte_sub (s : mm K) pd L l va w :
  kalloc_ok (kal s) L → (∀ b, b ∈ l → b ∈ L) → pd_ok s pd l → 0 <= va < 2 ^ 32 → present s pd (VADDR_PD_OFFSET va) →
  let s' := mstore s (pte_addr (table_of s pd (VADDR_PD_OFFSET va)) va) w in
  kalloc_ok (kal s') L ∧ pd_ok s' pd l ∧
  ∀ va', 0 <= va' < 2 ^ 32 →
    translate s' pd va' = if decide (vpage va' = vpage va) then decode w else translate s pd va'.
Proof.
  intros Hk Hsub Hpd Hva Hp s'. destruct (offsets_range va Hva) as [Hi Hj].
  destruct (pd_tables _ _ _ Hpd _ Hi Hp) as (Ht0 & Ht & Hdis).
  set (t := table_of s pd (VADDR_PD_OFFSET va)) in *.
  assert (∀ a, pd <= a < pd + sizeof_page_directory → mload s' a = mload s a) as Hout.
  { intros a Ha. apply mload_mstore_ne. pd_words. lia. }
  assert (∀ i, 0 <= i < 1024 → mload s' (pd_entry pd i) = mload s (pd_entry pd i)) as He
    by (intros; apply Hout; pd_words; lia).
  assert (∀ i, 0 <= i < 1024 → table_of s' pd i = table_of s pd i) as Hto
    by (intros; apply Hout; pd_words; lia).
  split; [|split].
  - apply kstore_own; [done|]. exists t, 4096. split; [by apply Hsub|]. pd_words. lia.
  - split; [apply Hpd|..]; unfold present.
    + intros i Hii. rewrite He, Hto by done. by apply Hpd.
    + intros i j Hii Hjj. rewrite !He, !Hto by done. by apply Hpd.
  - intros va' Hva'. destruct (offsets_range va' Hva') as [Hi' Hj'].
    rewrite !translate_eq, He, Hto by done.
    destruct (decide (VADDR_PD_OFFSET va' = VADDR_PD_OFFSET va)) as [E|E].
    + rewrite E. fold t. rewrite Hp, (proj2 (Z.eqb_neq t 0)) by done. case_decide as Ev.
      * apply vpage_offsets in Ev as [_ Ev]; [|done..]. unfold s', pte_addr. by rewrite Ev, mload_mstore_eq.
      * unfold s'. rewrite mload_mstore_ne; [done|]. unfold pte_addr. intros Eo. apply Ev.
        apply offsets_inj; [done..|lia].
    + rewrite decide_False by (intros Ev; apply vpage_offsets in Ev as [Ev _]; done).
      destruct (pte_present (mload s (pd_entry pd (VADDR_PD_OFFSET va')))) eqn:Ep; [|done].
      destruct (Z.eqb_spec (table_of s pd (VADDR_PD_OFFSET va')) 0); [done|]. unfold s'.
      rewrite mload_mstore_ne; [done|].
      pose proof (pd_disjoint _ _ _ Hpd _ _ Hi Hi' ltac:(congruence) Hp Ep) as Hdd. fold t in Hdd.
      pd_words. lia.
Qed.

Lemma write_pte (s : mm K) pd l va w :
  kalloc_ok (kal s) l → pd_ok s pd l → 0 <= va < 2 ^ 32 → present s pd (VADDR_PD_OFFSET va) →
  let s' := mstore s (pte_addr (table_of s pd (VADDR_PD_OFFSET va)) va) w in
  kalloc_ok (kal s') l ∧ pd_ok s' pd l ∧
  ∀ va', 0 <= va' < 2 ^ 32 →
    translate s' pd va' = if decide (vpage va' = vpage va) then decode w else translate s pd va'.
Proof. intros Hk. by apply write_pte_sub. Qed.

(** [get_physical_addr] is the translation: the frame's address plus the
    offset in the page, 0 for a page that is not present. *)
Theorem get_physical_addr_spec (s : mm K) pd va :
  0 <= va < 2 ^ 32 →
  get_physical_addr s pd va =
    match translate s pd va with Some (f, _, _) => f * FRAME_SIZE + va mod FRAME_SIZE | None => 0 end.
Proof.
  intros Hva. unfold get_physical_addr, translate, decode.
  destruct (find_page_table s pd va =? 0); [done|].
  destruct (pte_present _); [|done]. cbn [negb]. rewrite pg_offset_eq, Z.shiftl_mul_pow2 by lia.
  set (f := pte_frame _). pose proof (pte_frame_range (mload s (pte_addr (find_page_table s pd va) va))).
  fold f in H1. pose proof (Z.mod_pos_bound va (2 ^ 12) ltac:(lia)).
  rewrite u32_small; [done|]. unfold FRAME_SIZE. lia.
Qed.
(** ** Creating a table *)

(** Two states whose directory entries and present tables agree translate alike. *)
Lemma pd_words_agree (s s' : mm K) pd l :
  pd_ok s pd l →
  (∀ i, 0 <= i < 1024 → mload s' (pd_entry pd i) = mload s (pd_entry pd i)) →
  (∀ i, 0 <= i < 1024 → present s pd i → table_of s' pd i = table_of s pd i) →
  (∀ i a, 0 <= i < 1024 → present s pd i → table_of s pd i <= a < table_of s pd i + 4096 →
     mload s' a = mload s a) →
  pd_ok s' pd l ∧ ∀ va, 0 <= va < 2 ^ 32 → translate s' pd va = translate s pd va.
Proof.
  intros Hpd He Hto Ht. split.
  - split; [apply Hpd|..]; unfold present.
    + intros i Hi. rewrite He by done. intros Hp. rewrite Hto by done. by apply Hpd.
    + intros i j Hi Hj. rewrite !He by done. intros Hij Hpi Hpj. rewrite !Hto by done. by apply Hpd.
  - intros va Hva. destruct (offsets_range va Hva) as [Hi Hj]. rewrite !translate_eq, He by done.
    destruct (pte_present (mload s (pd_entry pd (VADDR_PD_OFFSET va)))) eqn:Ep; [|done].
    rewrite Hto by done. rewrite (Ht _ _ Hi Ep); [done|]. pd_words. lia.
Qed.

Lemma clear_table_spec (s : mm K) t l :
  kalloc_ok (kal s) l → (t, 4096) ∈ l →
  ∃ k', clear_table s t = set_kal s k' ∧ kalloc_ok k' l ∧
    (∀ a, a < t ∨ t + 4096 <= a → kload k' a = mload s a) ∧
    ∀ i, 0 <= i < 1024 → pte_present (kload k' (t + 4 * i)) = false.
Proof.
  intros Hk Ht. unfold clear_table.
  apply (for_inv (fun n s' => ∃ k', s' = set_kal s k' ∧ kalloc_ok k' l ∧
    (∀ a, a < t ∨ t + 4096 <= a → kload k' a = mload s a) ∧
    ∀ i, 0 <= i < n → pte_present (kload k' (t + 4 * i)) = false)); [lia| |].
  - exists (kal s). rewrite set_kal_id. split; [done|]. split; [done|]. split; [done|lia].
  - intros j s' Hj (k' & -> & Hk' & Ho & Hc). set (e := t + 4 * j).
    exists (kstore k' e (pte_assign (kload k' e) false true false 0)). split; [by destruct s|].
    split; [apply kstore_own; [done|]; exists t, 4096; split; [done|lia]|]. split.
    + intros a Ha. rewrite kload_kstore_ne by lia. by apply Ho.
    + intros i Hi. rewrite kload_kstore. case_decide as E; [by apply pte_assign_spec|].
      apply Hc. lia.
Qed.

(** The directory gets the fresh, empty table [t] at [idx]. *)
Lemma install_table (s s' : mm K) pd l idx t w :
  pd_ok s pd l → 0 <= idx < 1024 → ¬ present s pd idx → t ≠ 0 →
  block_disjoint t 4096 l → (∀ i, 0 <= i < 1024 → pte_present (mload s' (t + 4 * i)) = false) →
  mload s' (pd_table pd idx) = t → mload s' (pd_entry pd idx) = w → pte_present w = true →
  (∀ a, in_blocks l a → a ≠ pd_table pd idx → a ≠ pd_entry pd idx → mload s' a = mload s a) →
  pd_ok s' pd ((t, 4096) :: l) ∧ ∀ va, 0 <= va < 2 ^ 32 → translate s' pd va = translate s pd va.
Proof.
  intros Hpd Hidx Hnp Ht0 Hd Hempty Ht Hw Hwp Hsame.
  pose proof (Hd _ _ (pd_block _ _ _ Hpd)) as Hdpd.
  assert (∀ a, pd <= a < pd + sizeof_page_directory → in_blocks l a) as Hinpd
    by (intros a Ha; eexists _, _; split; [apply Hpd|done]).
  assert (∀ i, 0 <= i < 1024 → i ≠ idx →
    mload s' (pd_entry pd i) = mload s (pd_entry pd i) ∧ table_of s' pd i = table_of s pd i) as Hoth.
  { intros i Hi Hne. split; apply Hsame; try (apply Hinpd); pd_words; lia. }
  assert (∀ i, 0 <= i < 1024 → present s pd i → i ≠ idx) as Hni by (intros i _ Hp ->; done).
  assert (∀ i, 0 <= i < 1024 → i ≠ idx → present s pd i → t + 4096 <= table_of s pd i ∨ table_of s pd i + 4096 <= t) as Hdt.
  { intros i Hi Hne Hp. destruct (pd_tables _ _ _ Hpd i Hi Hp) as (_ & Hin & _).
    by destruct (Hd _ _ Hin) as [?|?]; [left|right]. }
  split; [split|].
  - apply elem_of_cons. right. apply Hpd.
  - intros i Hi Hp. destruct (decide (i = idx)) as [->|Hne].
    + change (table_of s' pd idx) with (mload s' (pd_table pd idx)). rewrite Ht. split; [done|].
      split; [apply elem_of_cons; by left|]. destruct Hdpd; [by right|by left].
    + destruct (Hoth i Hi Hne) as [Ee Et]. unfold present in Hp. rewrite Ee in Hp. rewrite Et.
      destruct (pd_tables _ _ _ Hpd i Hi Hp) as (? & ? & ?). split; [done|].
      split; [apply elem_of_cons; by right|done].
  - assert (∀ i, 0 <= i < 1024 → i ≠ idx → present s' pd i → present s pd i ∧ table_of s' pd i = table_of s pd i) as Hback.
    { intros i Hi Hne Hp. destruct (Hoth i Hi Hne) as [Ee Et]. unfold present in Hp. by rewrite Ee in Hp. }
    assert (table_of s' pd idx = t) as Ett by done.
    intros i j Hi Hj Hij Hpi Hpj.
    destruct (decide (i = idx)) as [->|Hni']; [|destruct (decide (j = idx)) as [->|Hnj]].
    + destruct (Hback j Hj ltac:(done) Hpj) as [Hpj' ->]. rewrite Ett. by apply Hdt.
    + destruct (Hback i Hi ltac:(done) Hpi) as [Hpi' ->]. rewrite Ett.
      destruct (Hdt i Hi Hni' Hpi'); lia.
    + destruct (Hback i Hi ltac:(done) Hpi) as [Hpi' ->], (Hback j Hj ltac:(done) Hpj) as [Hpj' ->].
      by apply (pd_disjoint _ _ _ Hpd).
  - intros va Hva. destruct (offsets_range va Hva) as [Hi Hj]. rewrite !translate_eq.
    destruct (decide (VADDR_PD_OFFSET va = idx)) as [E|Hne].
    + rewrite E, Hw, Hwp. change (table_of s' pd idx) with (mload s' (pd_table pd idx)).
      rewrite Ht, (proj2 (Z.eqb_neq t 0)) by done. unfold present in Hnp.
      destruct (pte_present (mload s (pd_entry pd idx))); [done|]. unfold decode, pte_addr. by rewrite Hempty.
    + destruct (Hoth _ Hi Hne) as [-> ->].
      destruct (pte_present (mload s (pd_entry pd (VADDR_PD_OFFSET va)))) eqn:Ep; [|done].
      destruct (pd_tables _ _ _ Hpd _ Hi Ep) as (Hn0 & Hin & Hdis). rewrite (proj2 (Z.eqb_neq _ 0)) by done.
      rewrite Hsame; [done|eexists _, _; split; [exact Hin|pd_words; lia]|pd_words; lia..].
Qed.

Lemma frame_taken_kal (s s' : mm K) f : frame_taken s f s' → kal s' = kal s.
Proof. intros (_ & _ & _ & _ & _ & _ & ->). by destruct s. Qed.

Lemma same_kal_translate (s s' : mm K) pd va : kal s' = kal s → translate s' pd va = translate s pd va.
Proof. intros E. unfold translate, find_page_table, mload. by rewrite E. Qed.

Lemma same_kal_pd_ok (s s' : mm K) pd l : kal s' = kal s → pd_ok s pd l → pd_ok s' pd l.
Proof.
  intros E [Hb Ht Hd]. split; unfold present, table_of, mload in *; rewrite ?E; done.
Qed.

Lemma alloc_frame_free fuel fw (s : mm K) g :
  bitmap_ok (frame_bitmap s) → 0 <= g < MAX_FRAMES → used (frame_bitmap s) g = false →
  ∃ f s1, alloc_frame fuel fw s = Done (f * FRAME_SIZE, s1) ∧ frame_taken s f s1.
Proof.
  intros Hb Hg Hu. pose proof (take_frame_spec s Hb) as Ht. unfold alloc_frame.
  destruct fuel; cbn [alloc_frame_at];
    (destruct (take_frame s) as [[a s']|]; [|by rewrite Ht in Hu]);
    destruct Ht as (f & -> & Ht); by exists f, s'.
Qed.

(** The word of a table that is absent may be written. *)
Lemma absent_table_word (s s2 : mm K) pd l idx :
  pd_ok s pd l → 0 <= idx < 1024 → ¬ present s pd idx →
  (∀ a, in_blocks l a → a ≠ pd_table pd idx → mload s2 a = mload s a) →
  pd_ok s2 pd l ∧ ∀ va, 0 <= va < 2 ^ 32 → translate s2 pd va = translate s pd va.
Proof.
  intros Hpd Hidx Hnp Hs2. pose proof (pd_block _ _ _ Hpd) as Hblk. apply pd_words_agree; [done|..].
  - intros i Hi. apply Hs2; [eexists _, _; split; [exact Hblk|pd_words; lia]|pd_words; lia].
  - intros i Hi Hp. apply Hs2; [eexists _, _; split; [exact Hblk|pd_words; lia]|].
    intros Eo. assert (i = idx) as -> by (pd_words; lia). done.
  - intros i a Hi Hp Ha. destruct (pd_tables _ _ _ Hpd i Hi Hp) as (_ & Hin & Hdis).
    apply Hs2; [eexists _, _; by split|pd_words; lia].
Qed.

(** [get_page_table(pd, va, 1)] finds or makes a table: there is one already, or
    the frame it gets is not frame 0, which the code takes for none, and
    [kmalloc] gives it memory. *)
Definition table_served (s : mm K) pd va : Prop :=
  present s pd (VADDR_PD_OFFSET va) ∨
  used (frame_bitmap s) 0 = true ∧ ∃ p k, kmalloc (kal s) 4096 = Done (p, k) ∧ p ≠ 0.

(** What [get_page_table(pd, va, 1)] promises: a present table for [va], and
    every translation as before; or null, and that only when no table is
    served. *)
Lemma get_page_table_spec fuel fw (s : mm K) pd l va :
  kalloc_ok (kal s) l → pd_ok s pd l → 0 <= va < 2 ^ 32 → bitmap_ok (frame_bitmap s) →
  present s pd (VADDR_PD_OFFSET va) ∨
    fits 4096 ∧ (∃ g, 0 <= g < MAX_FRAMES ∧ used (frame_bitmap s) g = false) →
  ∃ t s' l', get_page_table fuel fw s pd va true = Done (t, s') ∧ kalloc_ok (kal s') l' ∧
    (∀ b, b ∈ l → b ∈ l') ∧ pd_ok s' pd l' ∧
    (∀ va', 0 <= va' < 2 ^ 32 → translate s' pd va' = translate s pd va') ∧
    (¬ table_served s pd va ∧ t = 0 ∨
     table_served s pd va ∧ t ≠ 0 ∧ present s' pd (VADDR_PD_OFFSET va) ∧ t = table_of s' pd (VADDR_PD_OFFSET va)).
Proof.
  intros Hk Hpd Hva Hb Hor. destruct (offsets_range va Hva) as [Hidx _].
  unfold get_page_table. set (idx := VADDR_PD_OFFSET va) in *. unfold present in Hor.
  destruct (pte_present (mload s (pd_entry pd idx))) eqn:Ep; cbn [negb].
  { exists (table_of s pd idx), s, l. do 5 (split; [done|]).
    destruct (pd_tables _ _ _ Hpd idx Hidx Ep) as [? _]. right. split; [by left|done]. }
  destruct Hor as [?|(Hfit & g & Hg & Hu)]; [done|].
  destruct (alloc_frame_free fuel fw s g Hb Hg Hu) as (f & s1 & -> & Hf). cbn [obind]. pose proof (frame_taken_kal _ _ _ Hf) as E1.
  destruct (Z.eqb_spec (f * FRAME_SIZE) 0).
  { exists 0, s1, l. rewrite E1. do 3 (split; [done|]). split; [by apply (same_kal_pd_ok s)|].
    split; [intros va' _; by apply same_kal_translate|]. left. split; [|done].
    intros [Hp|[Hu0 _]]; [unfold present in Hp; fold idx in Hp; congruence|]. destruct Hf as (_ & Hfree & _).
    assert (f = 0) as -> by (unfold FRAME_SIZE in *; lia). congruence. }
  unfold mm_alloc. rewrite E1.
  destruct (kmalloc_fresh _ _ _ Hk Hfit) as (t & k2 & Ekm & Hkp & Hcase). rewrite Ekm. cbn [obind].
  set (s2 := mstore (set_kal s1 k2) (pd_table pd idx) t).
  pose proof (pd_block _ _ _ Hpd) as Hblk.
  assert (in_blocks l (pd_table pd idx) ∧ in_blocks l (pd_entry pd idx)) as [Hin1 Hin2]
    by (split; eexists _, _; (split; [exact Hblk|pd_words; lia])).
  assert (∀ a, in_blocks l a → a ≠ pd_table pd idx → mload s2 a = mload s a) as Hs2.
  { intros a Ha Hne. unfold s2. rewrite mload_mstore_ne by done. by apply Hkp. }
  destruct Hcase as [[-> Hk2]|(Ht0 & _ & _ & Hd & Hk2)].
  { assert (kal (free_frame s2 (f * FRAME_SIZE)) = kal s2) as E2 by (unfold free_frame; case_if; done).
    destruct (absent_table_word s s2 pd l idx Hpd Hidx ltac:(unfold present; congruence) Hs2) as [Hpd2 Htr2].
    exists 0, (free_frame s2 (f * FRAME_SIZE)), l. rewrite E2. split; [done|].
    split; [by apply kstore_own|]. split; [done|]. split; [by apply (same_kal_pd_ok s2)|].
    split; [intros va' Hva'; rewrite (same_kal_translate s2) by done; by apply Htr2|]. left. split; [|done].
    intros [Hp|(_ & p & k & E & Hne)]; [unfold present in Hp; fold idx in Hp; congruence|]. rewrite Ekm in E. by injection E as <-. }
  rewrite (proj2 (Z.eqb_neq t 0)) by lia. pose proof (Hd _ _ Hblk) as Hdpd.
  destruct (clear_table_spec s2 t ((t, 4096) :: l)) as (k3 & -> & Hk3 & Ho3 & Hc3);
    [apply kstore_own; [exact Hk2|apply in_blocks_cons; by right]|apply elem_of_cons; by left|].
  set (s3 := set_kal s2 k3). set (w := pte_assign _ _ _ _ _). set (s4 := mstore s3 (pd_entry pd idx) w).
  assert (pte_present w = true) as Hw.
  { apply pte_assign_spec. rewrite Z.shiftr_div_pow2 by lia. unfold FRAME_SIZE. change (2 ^ 12) with 4096.
    rewrite Z.div_mul by lia. by destruct Hf. }
  assert (∀ a, a < t ∨ t + 4096 <= a → a ≠ pd_entry pd idx → mload s4 a = mload s2 a) as Hs4.
  { intros a Ha Hne. unfold s4. rewrite mload_mstore_ne by congruence. by apply Ho3. }
  assert (mload s4 (pd_table pd idx) = t) as Et.
  { rewrite Hs4 by (pd_words; lia). apply mload_mstore_eq. }
  destruct (install_table s s4 pd l idx t w Hpd Hidx) as [Hpd4 Htr4];
    [unfold present; congruence|lia|done| |done|apply mload_mstore_eq|done| |].
  - intros i Hi. unfold s4. rewrite mload_mstore_ne by (pd_words; lia). by apply Hc3.
  - intros a Ha Hne1 Hne2. rewrite Hs4, Hs2; try done.
    destruct Ha as (q & m & Hq & Ha). destruct (Hd _ _ Hq); lia.
  - exists t, s4, ((t, 4096) :: l). rewrite Et. split; [done|].
    split; [apply kstore_own; [exact Hk3|apply in_blocks_cons; by right]|].
    split; [intros b Hbl; apply elem_of_cons; by right|]. split; [done|]. split; [done|]. right. split.
    { right. split; [|exists t, k2; split; [done|lia]]. apply not_false_iff_true. intros Hu0.
      destruct Hf as (Hf0 & _ & Hleast & _). assert (f = 0) as -> by (destruct (decide (f = 0)); [done|]; specialize (Hleast 0 ltac:(lia)); congruence).
      unfold FRAME_SIZE in *. lia. }
    split; [lia|]. split; [|done]. unfold present, s4. by rewrite mload_mstore_eq.
Qed.

Lemma map_page_returns fuel fw (s : mm K) pd l va pa flags :
  kalloc_ok (kal s) l → pd_ok s pd l → 0 <= va < 2 ^ 32 → 0 <= pa < 2 ^ 32 → bitmap_ok (frame_bitmap s) →
  present s pd (VADDR_PD_OFFSET va) ∨
    fits 4096 ∧ (∃ g, 0 <= g < MAX_FRAMES ∧ used (frame_bitmap s) g = false) →
  ∃ r s' l', map_page fuel fw s pd va pa flags = Done (r, s') ∧ kalloc_ok (kal s') l' ∧
    (∀ b, b ∈ l → b ∈ l') ∧ pd_ok s' pd l' ∧
    (¬ table_served s pd va ∧ r = -1 ∧ (∀ va', 0 <= va' < 2 ^ 32 → translate s' pd va' = translate s pd va') ∨
     table_served s pd va ∧ r = 0 ∧ ∀ va', 0 <= va' < 2 ^ 32 →
       translate s' pd va' =
         if decide (vpage va' = vpage va)
         then if has_flag flags PG_PRESENT
              then Some (pa / FRAME_SIZE, has_flag flags PG_WRITE, has_flag flags PG_USER) else None
         else translate s pd va').
Proof.
  intros Hk Hpd Hva Hpa Hb Hor. unfold map_page.
  destruct (get_page_table_spec fuel fw s pd l va Hk Hpd Hva Hb Hor)
    as (t & s1 & l1 & -> & Hk1 & Hl1 & Hpd1 & Htr1 & Ht). cbn [obind].
  destruct Ht as [[Hns ->]|(Hsv & Ht0 & Hp & Et)]; [exists (-1), s1, l1; do 4 (split; [done|]); by left|].
  rewrite (proj2 (Z.eqb_neq t 0)) by done. rewrite Et.
  set (e := pte_addr _ va). set (w := pte_assign _ _ _ _ _).
  destruct (write_pte s1 pd l1 va w Hk1 Hpd1 Hva Hp) as (Hk2 & Hpd2 & Htr2). fold e in Hk2, Hpd2, Htr2.
  exists 0, (mstore s1 e w), l1. do 4 (split; [done|]). right. do 2 (split; [done|]). intros va' Hva'.
  rewrite Htr2 by done. case_decide; [|by apply Htr1]. unfold decode, w.
  destruct (pte_assign_spec (mload s1 e) (has_flag flags PG_PRESENT) (has_flag flags PG_WRITE)
    (has_flag flags PG_USER) (Z.shiftr pa 12)) as (-> & -> & -> & ->).
  - rewrite Z.shiftr_div_pow2 by lia. split; [apply Z.div_pos; lia|apply Z.div_lt_upper_bound; lia].
  - by rewrite Z.shiftr_div_pow2 by lia.
Qed.

(** C7. [map_page] on a directory whose blocks are live.  When the table of the
    address is there, or a frame is free and the allocator's contract covers
    requests of 4096 bytes, it returns.  It succeeds exactly when the table is
    there or [table_served] says it can be made, and then the translation of
    the page is the frame and the flags given, or none without [PG_PRESENT],
    and that of every other page is as before; otherwise it returns -1 and no
    translation changed.  The directory stays well formed, its new table
    included. *)
Theorem map_page_spec fuel fw (s : mm K) pd l va pa flags :
  kalloc_ok (kal s) l → pd_ok s pd l → 0 <= va < 2 ^ 32 → 0 <= pa < 2 ^ 32 → bitmap_ok (frame_bitmap s) →
  present s pd (VADDR_PD_OFFSET va) ∨
    fits 4096 ∧ (∃ g, 0 <= g < MAX_FRAMES ∧ used (frame_bitmap s) g = false) →
  ∃ r s' l', map_page fuel fw s pd va pa flags = Done (r, s') ∧ kalloc_ok (kal s') l' ∧
    (∀ b, b ∈ l → b ∈ l') ∧ pd_ok s' pd l' ∧
    (¬ table_served s pd va ∧ r = -1 ∧ (∀ va', 0 <= va' < 2 ^ 32 → translate s' pd va' = translate s pd va') ∨
     table_served s pd va ∧ r = 0 ∧ ∀ va', 0 <= va' < 2 ^ 32 →
       translate s' pd va' =
         if decide (vpage va' = vpage va)
         then if has_flag flags PG_PRESENT
              then Some (pa / FRAME_SIZE, has_flag flags PG_WRITE, has_flag flags PG_USER) else None
         else translate s pd va').
Proof. apply map_page_returns. Qed.

(** The words behind a translation. *)
Lemma translate_some (s : mm K) pd va f wr us :
  translate s pd va = Some (f, wr, us) →
  let t := table_of s pd (VADDR_PD_OFFSET va) in
  present s pd (VADDR_PD_OFFSET va) ∧ t ≠ 0 ∧ find_page_table s pd va = t ∧
  pte_present (mload s (pte_addr t va)) = true ∧ pte_frame (mload s (pte_addr t va)) = f ∧ 0 <= f < MAX_FRAMES.
Proof.
  intros Etr t. rewrite translate_eq in Etr. unfold present, find_page_table. fold t in Etr.
  destruct (pte_present (mload s (pd_entry pd (VADDR_PD_OFFSET va)))) eqn:Ep; [|done].
  destruct (Z.eqb_spec t 0) as [|Ht0]; [done|].
  unfold decode in Etr. destruct (pte_present (mload s (pte_addr t va))) eqn:Epte; [|done].
  injection Etr as <- _ _. pose proof (pte_frame_range (mload s (pte_addr t va))). do 5 (split; [done|]). done.
Qed.

(** Unmapping a mapped page: its frame is freed, its entry not present. *)
Lemma unmap_page_mapped (s : mm K) pd va f wr us :
  translate s pd va = Some (f, wr, us) →
  let e := pte_addr (table_of s pd (VADDR_PD_OFFSET va)) va in
  unmap_page s pd va = free_frame (mstore s e (pte_set (mload s e) 0 false)) (f * FRAME_SIZE).
Proof.
  intros Etr e. destruct (translate_some s pd va f wr us Etr) as (_ & Ht0 & Et & Epte & Ef & _).
  unfold unmap_page. rewrite Et, (proj2 (Z.eqb_neq _ 0)) by done. fold e in Epte, Ef. fold e. rewrite Epte, Ef.
  rewrite Z.shiftl_mul_pow2 by lia. change (f * 2 ^ 12) with (f * FRAME_SIZE).
  unfold free_frame. case_if; [|done]. by destruct s.
Qed.

(** C8. [unmap_page] deletes the page from the directory: it translates to
    nothing, every other page translates as before, and the frame it had is
    marked free and uncounted; a page that is not present is left alone. *)
Theorem unmap_page_spec (s : mm K) pd l va :
  kalloc_ok (kal s) l → pd_ok s pd l → 0 <= va < 2 ^ 32 → bitmap_ok (frame_bitmap s) →
  let s' := unmap_page s pd va in
  kalloc_ok (kal s') l ∧ pd_ok s' pd l ∧
  (∀ va', 0 <= va' < 2 ^ 32 →
    translate s' pd va' = if decide (vpage va' = vpage va) then None else translate s pd va') ∧
  match translate s pd va with
  | Some (f, _, _) =>
    frames_used s' = u32 (frames_used s - 1) ∧
    ∀ g, 0 <= g → used (frame_bitmap s') g = negb (bool_decide (g = f)) && used (frame_bitmap s) g
  | None => s' = s
  end.
Proof.
  intros Hk Hpd Hva Hb s'. destruct (offsets_range va Hva) as [Hi _].
  assert (∀ va', 0 <= va' < 2 ^ 32 → vpage va' = vpage va → translate s pd va' = translate s pd va) as Hpage.
  { intros va' Hva' E. apply vpage_offsets in E as [E1 E2]; [|done..].
    rewrite !translate_eq. unfold pte_addr. by rewrite E1, E2. }
  assert (translate s pd va = None → s' = s) as Hnone.
  { subst s'. unfold unmap_page, translate, decode. destruct (find_page_table s pd va =? 0); [done|].
    by destruct (pte_present (mload s (pte_addr (find_page_table s pd va) va))). }
  destruct (translate s pd va) as [[[f wr] us]|] eqn:Etr.
  2:{ specialize (Hnone eq_refl). rewrite Hnone. do 2 (split; [done|]). split; [|done].
      intros va' Hva'. case_decide as E; [|done]. by rewrite Hpage. }
  clear Hnone. destruct (translate_some s pd va f wr us Etr) as (Ep & _ & _ & _ & _ & Hfr).
  pose proof (unmap_page_mapped s pd va f wr us Etr) as Es'. cbn zeta in Es'. fold s' in Es'.
  set (t := table_of s pd (VADDR_PD_OFFSET va)) in *. set (e := pte_addr t va) in *. set (w := pte_set (mload s e) 0 false) in *.
  destruct (write_pte s pd l va w Hk Hpd Hva Ep) as (Hk2 & Hpd2 & Htr2). fold t e in Hk2, Hpd2, Htr2.
  destruct (free_frame_spec (mstore s e w) f 0 Hb) as (_ & Hc & Hu & Heq); [exact Hfr|done|].
  rewrite Z.add_0_r, <- Es' in Hc, Hu, Heq.
  assert (kal s' = kal (mstore s e w)) as Ek by (rewrite Heq; by destruct s).
  rewrite Ek. split; [done|]. split; [by apply (same_kal_pd_ok (mstore s e w))|]. split; [|done].
  intros va' Hva'. rewrite (same_kal_translate (mstore s e w) s') by done. rewrite Htr2 by done.
  case_decide; [|done]. unfold decode, w, pte_present, pte_bit. by rewrite pte_set_bit by lia.
Qed.
(** ** A full memory *)

(** The memory pressure is never known: [check_memory_pressure] fills in
    the memory statistics, whose last field is [check_memory_pressure]; the
    two call each other without end, from every state. *)
Theorem memory_pressure_diverges (s : mm K) depth :
  check_memory_pressure depth s = OutOfFuel ∧ get_memory_stats depth s = OutOfFuel.
Proof.
  assert (∀ d, check_memory_pressure d s = OutOfFuel) as Hc.
  { induction d as [|d IH]; [done|]. cbn [check_memory_pressure]. unfold get_memory_stats_with. by rewrite IH. }
  split; [done|]. unfold get_memory_stats, get_memory_stats_with. by rewrite Hc.
Qed.

(** C34. So when every frame is used, [alloc_frame] reclaims nothing and does
    not fail either: it asks for the memory pressure and never returns. *)
Theorem alloc_frame_full_diverges fuel file_write (s : mm K) :
  bitmap_ok (frame_bitmap s) → (∀ g, 0 <= g < MAX_FRAMES → used (frame_bitmap s) g = true) →
  alloc_frame fuel file_write s = OutOfFuel.
Proof.
  intros Hb Hfull. pose proof (take_frame_spec s Hb) as Ht. unfold alloc_frame.
  destruct (take_frame s) as [[a s']|] eqn:E.
  { destruct Ht as (f & _ & Hf & Hu & _). by rewrite Hfull in Hu. }
  assert (∀ d, check_memory_pressure d s = OutOfFuel) as Hc.
  { induction d as [|d IH]; [done|]. cbn [check_memory_pressure]. unfold get_memory_stats_with. by rewrite IH. }
  destruct fuel; cbn [alloc_frame_at]; by rewrite E, Hc.
Qed.

(** ** A new directory *)

(** [create_page_directory] returns a directory that translates nothing. *)
Lemma create_page_directory_returns fuel fw (s : mm K) l :
  kalloc_ok (kal s) l → fits sizeof_page_directory → bitmap_ok (frame_bitmap s) →
  (∃ g, 0 <= g < MAX_FRAMES ∧ used (frame_bitmap s) g = false) →
  ∃ pd s', create_page_directory fuel fw s = Done (pd, s') ∧
    (pd = 0 ∨ let l' := (pd, sizeof_page_directory) :: l in
       kalloc_ok (kal s') l' ∧ pd_ok s' pd l' ∧ bitmap_ok (frame_bitmap s') ∧
       ∀ va, 0 <= va < 2 ^ 32 → translate s' pd va = None).
Proof.
  intros Hk Hfit Hb (g & Hg & Hu). unfold create_page_directory, mm_alloc.
  destruct (kmalloc_fresh _ _ _ Hk Hfit) as (pd & k1 & -> & _ & Hcase). cbn [obind].
  destruct Hcase as [[-> _]|(Hpd0 & _ & _ & _ & Hk1)]; [by eexists 0, _; split; [done|left]|].
  rewrite (proj2 (Z.eqb_neq pd 0)) by lia. set (l' := (pd, sizeof_page_directory) :: l) in *.
  set (body := fun i s => _).
  assert (∃ k2, for_ 1024 body (set_kal s k1) = set_kal s k2 ∧ kalloc_ok k2 l' ∧
    ∀ i, 0 <= i < 1024 → pte_present (kload k2 (pd_entry pd i)) = false) as (k2 & -> & Hk2 & He).
  { apply (for_inv (fun n s' => ∃ k', s' = set_kal s k' ∧ kalloc_ok k' l' ∧
      ∀ i, 0 <= i < n → pte_present (kload k' (pd_entry pd i)) = false)); [lia| |].
    - exists k1. split; [done|]. split; [done|lia].
    - intros j s' Hj (k' & -> & Hk' & Hc). unfold body. set (e := pd_entry pd j).
      exists (kstore (kstore k' e (pte_assign (kload k' e) false true false 0)) (pd_table pd j) 0).
      split; [by destruct s|]. split.
      + repeat apply kstore_own; [exact Hk'|..]; apply in_blocks_cons; left; unfold e; pd_words; lia.
      + intros i Hi. unfold e. rewrite kload_kstore_ne by (pd_words; lia). rewrite kload_kstore.
        case_decide as E; [by apply pte_assign_spec|]. apply Hc. pd_words. lia. }
  set (s3 := mstore (set_kal s k2) (pd + pd_swapped) 0).
  pose proof (take_frame_spec s3 Hb) as Ht.
  assert (∃ f s4, alloc_frame fuel fw s3 = Done (f * FRAME_SIZE, s4) ∧ frame_taken s3 f s4) as (f & s4 & -> & Hf).
  { unfold alloc_frame. destruct fuel; cbn [alloc_frame_at];
      (destruct (take_frame s3) as [[a s']|]; [|by rewrite Ht in Hu]);
      destruct Ht as (f & -> & Ht); by exists f, s'. }
  cbn [obind]. set (s5 := mstore s4 _ _). exists pd, s5. split; [done|]. right.
  assert (∀ i, 0 <= i < 1024 → pte_present (mload s5 (pd_entry pd i)) = false) as He5.
  { intros i Hi. unfold s5. rewrite mload_mstore_ne by (pd_words; lia). unfold mload.
    rewrite (frame_taken_kal _ _ _ Hf). unfold s3.
    change (kload _ _) with (mload (mstore (set_kal s k2) (pd + pd_swapped) 0) (pd_entry pd i)).
    rewrite mload_mstore_ne by (pd_words; lia). by apply He. }
  split; [|split; [|split]].
  - apply kstore_own; [|apply in_blocks_cons; left; pd_words; lia]. rewrite (frame_taken_kal _ _ _ Hf).
    apply kstore_own; [exact Hk2|apply in_blocks_cons; left; pd_words; lia].
  - split; [apply elem_of_cons; by left|..]; unfold present.
    + intros i Hi. by rewrite He5.
    + intros i j Hi Hj _. by rewrite He5.
  - by destruct Hf as (_ & _ & _ & ? & _).
  - intros va Hva. destruct (offsets_range va Hva) as [Hi _]. rewrite translate_eq. by rewrite He5.
Qed.
End Spec.

(** ** Concrete runs

    A machine whose bitmap is the one [VMM::init] leaves, with one directory. *)
Definition no_swap : swap_manager := mk_swap 0 0 0 0 0 0 0 0 0 0.
Definition no_cow : cow_manager := mk_cow 0 0 0 0 0 0 0.
Definition boot_bitmap : list Z := init_bitmap (replicate (Z.to_nat (MAX_FRAMES / 32)) 0).
Definition bare_mm : mm bump :=
  mk_mm (mk_bump ∅ 0x1000000) boot_bitmap MAX_FRAMES (PHYS_MEM_START / FRAME_SIZE) 0 0 0 no_swap no_cow.

Definition words_okb (l : list Z) : bool := forallb (fun w => (0 <=? w) && (w <? 2 ^ 32)) l.

#[local] Opaque boot_bitmap.

Lemma bitmap_okb l :
  (Z.of_nat (length l) =? MAX_FRAMES / 32) && words_okb l = true → bitmap_ok l.
Proof.
  intros H. zify_bool. split; [done|]. apply list.Forall_forall. intros w Hw.
  unfold words_okb in *. rewrite forallb_forall in *. apply list_elem_of_In in Hw.
  specialize (H0 w Hw). zify_bool. lia.
Qed.

Lemma boot_bitmap_ok : bitmap_ok (frame_bitmap bare_mm).
Proof. apply bitmap_okb. vm_compute. reflexivity. Qed.

Lemma bare_ok : kalloc_ok (kal bare_mm) [].
Proof. split; [done|]. split; [by exists 0x400000|]. split; [done|]. intros p n Hp. by apply elem_of_nil in Hp. Qed.

Lemma boot_frame_free : 0 <= 256 < MAX_FRAMES ∧ used (frame_bitmap bare_mm) 256 = false.
Proof. split; [done|]. vm_compute. reflexivity. Qed.

Lemma alloc_frame_spec_witness :
  ∃ f s', alloc_frame 0 0 bare_mm = Done (f * FRAME_SIZE, s') ∧ f <= 256 ∧ frame_taken bare_mm f s'.
Proof. apply (alloc_frame_spec 0 0 bare_mm 256); [exact boot_bitmap_ok|apply boot_frame_free..]. Defined.

(** A directory made by [create_page_directory]. *)
Definition made_run : outcome (Z * mm bump) := create_page_directory 0 0 bare_mm.
Definition made_pd : Z := match made_run with Done (pd, _) => pd | _ => 0 end.
Definition made_mm : mm bump := match made_run with Done (_, s) => s | _ => bare_mm end.
Definition made_l : list (Z * Z) := [(made_pd, sizeof_page_directory)].

Lemma made_ok : kalloc_ok (kal made_mm) made_l ∧ pd_ok made_mm made_pd made_l ∧ bitmap_ok (frame_bitmap made_mm).
Proof.
  destruct (create_page_directory_returns 0 0 bare_mm []) as (pd & s & E & Hc);
    [exact bare_ok|cbn; reflexivity|exact boot_bitmap_ok|exists 256; exact boot_frame_free|].
  assert (made_run = Done (pd, s)) as E' by exact E.
  assert (pd = made_pd ∧ s = made_mm) as [-> ->] by (unfold made_pd, made_mm; rewrite E'; split; reflexivity).
  destruct Hc as [Hpd|(Hk & Hpd & Hb & _)]; [|exact (conj Hk (conj Hpd Hb))].
  assert (made_pd ≠ 0) as Hne by (vm_compute; discriminate). contradiction.
Qed.

#[local] Opaque made_run.

Lemma made_frame_free : 0 <= 257 < MAX_FRAMES ∧ used (frame_bitmap made_mm) 257 = false.
Proof. split; [done|]. vm_compute. reflexivity. Qed.

Lemma made_served : table_served made_mm made_pd 0x40001234.
Proof.
  right. split; [vm_compute; reflexivity|].
  assert (match kmalloc (kal made_mm) 4096 with Done (p, _) => p =? 0 | _ => true end = false) as H by (vm_compute; reflexivity).
  destruct (kmalloc (kal made_mm) 4096) as [[p k]| |]; [|done..]. exists p, k. split; [done|]. by apply Z.eqb_neq.
Qed.

Lemma map_page_spec_witness :
  ∃ s' l', map_page 0 0 made_mm made_pd 0x40001234 0x300000 7 = Done (0, s') ∧ kalloc_ok (kal s') l' ∧
    pd_ok s' made_pd l' ∧
    ∀ va', 0 <= va' < 2 ^ 32 →
      translate s' made_pd va' =
        if decide (vpage va' = vpage 0x40001234) then Some (0x300000 / FRAME_SIZE, true, true)
        else translate made_mm made_pd va'.
Proof.
  destruct (map_page_spec 0 0 made_mm made_pd made_l 0x40001234 0x300000 7)
    as (r & s' & l' & E & Hk & _ & Hpd & Hr); [apply made_ok|apply made_ok|split; done|split; done|apply made_ok| |].
  - right. split; [done|]. exists 257. exact made_frame_free.
  - destruct Hr as [[Hn _]|(_ & -> & Hr)]; [destruct (Hn made_served)|]. exists s', l'.
    split; [exact E|]. split; [exact Hk|]. split; [exact Hpd|exact Hr].
Defined.

(** The same page, mapped. *)
Definition mapped_run : outcome (Z * mm bump) := map_page 0 0 made_mm made_pd 0x40001234 0x300000 7.
Definition mapped_mm : mm bump := match mapped_run with Done (_, s) => s | _ => made_mm end.

Lemma mapped_ok : ∃ l, kalloc_ok (kal mapped_mm) l ∧ pd_ok mapped_mm made_pd l.
Proof.
  destruct (map_page_returns 0 0 made_mm made_pd made_l 0x40001234 0x300000 7)
    as (r & s & l & E & Hk & _ & Hpd & _);
    [apply made_ok|apply made_ok|split; done|split; done|apply made_ok| |].
  - right. split; [done|]. exists 257. exact made_frame_free.
  - exists l. unfold mapped_mm. change (mapped_run = Done (r, s)) in E. rewrite E.
    exact (conj Hk Hpd).
Qed.

#[local] Opaque mapped_run.

Lemma get_physical_addr_spec_witness :
  get_physical_addr mapped_mm made_pd 0x40001234 = 0x300234 ∧
  get_physical_addr mapped_mm made_pd 0x40001234 =
    match translate mapped_mm made_pd 0x40001234 with
    | Some (f, _, _) => f * FRAME_SIZE + 0x40001234 mod FRAME_SIZE | None => 0 end.
Proof.
  split; [vm_compute; reflexivity|]. apply (get_physical_addr_spec mapped_mm made_pd 0x40001234). done.
Defined.

Lemma unmap_page_spec_witness :
  translate mapped_mm made_pd 0x40001234 = Some (0x300, true, true) ∧
  ∃ l, let s' := unmap_page mapped_mm made_pd 0x40001234 in
  kalloc_ok (kal s') l ∧ pd_ok s' made_pd l ∧
  (∀ va', 0 <= va' < 2 ^ 32 →
    translate s' made_pd va' =
      if decide (vpage va' = vpage 0x40001234) then None else translate mapped_mm made_pd va') ∧
  match translate mapped_mm made_pd 0x40001234 with
  | Some (f, _, _) =>
    frames_used s' = u32 (frames_used mapped_mm - 1) ∧
    ∀ g, 0 <= g → used (frame_bitmap s') g = negb (bool_decide (g = f)) && used (frame_bitmap mapped_mm) g
  | None => s' = mapped_mm
  end.
Proof.
  split; [vm_compute; reflexivity|]. destruct mapped_ok as (l & Hk & Hpd). exists l.
  apply (unmap_page_spec mapped_mm made_pd l 0x40001234 Hk Hpd); [done|].
  apply bitmap_okb. vm_compute. reflexivity.
Defined.

(** Every frame used. *)
Definition full_mm : mm bump := bare_mm <| frame_bitmap ::= map (fun _ => 0xFFFFFFFF) |>.

Lemma alloc_frame_full_diverges_witness : alloc_frame 3 0 full_mm = OutOfFuel.
Proof.
  apply (alloc_frame_full_diverges 3 0 full_mm); [apply bitmap_okb; vm_compute; reflexivity|].
  intros g Hg. unfold used. pose proof (Z.mod_pos_bound g 32 ltac:(lia)).
  assert (zget 0 (frame_bitmap full_mm) (g / 32) = Z.ones 32) as ->; [|apply Z.ones_spec_low; lia].
  change (frame_bitmap full_mm) with (map (fun _ : Z => 0xFFFFFFFF) boot_bitmap).
  change MAX_FRAMES with (32 * 32768) in Hg.
  assert (0 <= g / 32 < 32768) by (split; [apply Z.div_pos; lia|apply Z.div_lt_upper_bound; lia]).
  unfold zget. rewrite decide_True by lia. rewrite nth_lookup, list_lookup_fmap.
  destruct (lookup_lt_is_Some_2 boot_bitmap (Z.to_nat (g / 32))) as [w ->]; [|done].
  destruct boot_bitmap_ok as [Hl _]. change (MAX_FRAMES / 32) with 32768 in Hl.
  change (frame_bitmap bare_mm) with boot_bitmap in Hl. lia.
Defined.
