(* ===== verification/Cow.v ===== *)
(** The copy-on-write manager: [src/src/kernel/arch/x86/cow.h] and [cow.cc].

    COW pages and mappings are objects of slab caches; the manager's fields
    are the record [cow_manager] of [Mm.v].  Writing [CR3] is an assignment to
    the field [cr3]; printing is left out. *)

From Stdlib Require Import ZArith Lia.
From stdpp Require Import base list gmap option.
From coqutil Require Import Datatypes.RecordSetters.
From S2P Require Import Prelude Memory KAlloc Mm Vmm Paging.
Import TriangleBracketNotations.

Definition COW_MAGIC : Z := 0xC0BABE1.
Definition MAX_COW_REFS : Z := 65536.

(** [struct cow_page] *)
Definition cw_physical : Z := 0.
Definition cw_refs : Z := 4.
Definition cw_magic : Z := 8.
Definition cw_next : Z := 12.
Definition cw_prev : Z := 16.
Definition sizeof_cow_page : Z := 20.

(** [struct cow_mapping] *)
Definition cm_vaddr : Z := 0.
Definition cm_size : Z := 4.
Definition cm_flags : Z := 8.
Definition cm_owner : Z := 12.
Definition cm_page : Z := 16.
Definition cm_next : Z := 20.
Definition sizeof_cow_mapping : Z := 24.

(** [struct vm_area] *)
Definition vma_start : Z := 0.
Definition vma_end : Z := 4.
Definition vma_flags : Z := 8.
Definition vma_pgoff : Z := 12.
Definition vma_next : Z := 16.
Definition vma_prev : Z := 20.
Definition vma_pd : Z := 24.
Definition sizeof_vm_area : Z := 28.

(** The names of the three caches, as character codes. *)
Definition cow_pages_name : list Z := [99; 111; 119; 95; 112; 97; 103; 101; 115].
Definition cow_mappings_name : list Z := [99; 111; 119; 95; 109; 97; 112; 112; 105; 110; 103; 115].
Definition vm_areas_name : list Z := [118; 109; 95; 97; 114; 101; 97; 115].

Section Cow.
Context {K : Type} `{KAlloc K} `{SlabCaches K}.
Variable fuel : nat.
Variable file_write : Z.

Definition load_cr3 (s : mm K) (pd : Z) : mm K := s <| cr3 := mload s (pd + pd_physical) |>.

Definition mm_cache_create (s : mm K) (name : list Z) (size : Z) : outcome (Z * mm K) :=
  let* (c, k) := kcache_create (kal s) name size in Done (c, set_kal s k).
Definition mm_cache_alloc (s : mm K) (cache : Z) : outcome (Z * mm K) :=
  let* (p, k) := kcache_alloc (kal s) cache in Done (p, set_kal s k).
Definition mm_cache_free (s : mm K) (cache obj : Z) : outcome (mm K) :=
  let* k := kcache_free (kal s) cache obj in Done (set_kal s k).

Definition cow_init (s : mm K) : outcome (mm K) :=
  let* (c1, s) := mm_cache_create s cow_pages_name sizeof_cow_page in
  let* (c2, s) := mm_cache_create s cow_mappings_name sizeof_cow_mapping in
  let* (c3, s) := mm_cache_create s vm_areas_name sizeof_vm_area in
  Done (s <| cow := mk_cow 0 0 0 0 c1 c2 c3 |>).

(** ** COW pages *)

Definition find_cow_page (s : mm K) (physical_addr : Z) : outcome Z :=
  loop fuel (fun page =>
    Done (if page =? 0 then inr 0
          else if (mload s (page + cw_physical) =? physical_addr) && (mload s (page + cw_magic) =? COW_MAGIC)
          then inr page else inl (mload s (page + cw_next)))) (cow_pages (cow s)).

Definition alloc_cow_page (s : mm K) (physical_addr : Z) : outcome (Z * mm K) :=
  let* (page, s) := mm_cache_alloc s (cow_page_cache (cow s)) in
  if page =? 0 then Done (0, s)
  else
    let s := mstore s (page + cw_physical) physical_addr in
    let s := mstore s (page + cw_refs) 1 in
    let s := mstore s (page + cw_magic) COW_MAGIC in
    let s := mstore s (page + cw_next) (cow_pages (cow s)) in
    let s := mstore s (page + cw_prev) 0 in
    let s := if negb (cow_pages (cow s) =? 0) then mstore s (cow_pages (cow s) + cw_prev) page else s in
    Done (page, s <| cow -> cow_pages := page |> <| cow -> total_cow_pages ::= fun n => u32 (n + 1) |>).

Definition free_cow_page (s : mm K) (page : Z) : outcome (mm K) :=
  if (page =? 0) || negb (mload s (page + cw_magic) =? COW_MAGIC) then Done s
  else
    let s := if negb (mload s (page + cw_prev) =? 0)
             then mstore s (mload s (page + cw_prev) + cw_next) (mload s (page + cw_next))
             else s <| cow -> cow_pages := mload s (page + cw_next) |> in
    let s := if negb (mload s (page + cw_next) =? 0)
             then mstore s (mload s (page + cw_next) + cw_prev) (mload s (page + cw_prev)) else s in
    let* s := mm_cache_free s (cow_page_cache (cow s)) page in
    Done (s <| cow -> total_cow_pages ::= fun n => u32 (n - 1) |>).

Definition inc_cow_ref (s : mm K) (page : Z) : mm K :=
  if negb (page =? 0) && (mload s (page + cw_magic) =? COW_MAGIC) && (mload s (page + cw_refs) <? MAX_COW_REFS)
  then mstore s (page + cw_refs) (u32 (mload s (page + cw_refs) + 1)) else s.

Definition dec_cow_ref (s : mm K) (page : Z) : outcome (mm K) :=
  if (page =? 0) || negb (mload s (page + cw_magic) =? COW_MAGIC) then Done s
  else
    let s := if 0 <? mload s (page + cw_refs)
             then mstore s (page + cw_refs) (mload s (page + cw_refs) - 1) else s in
    if mload s (page + cw_refs) =? 0
    then free_cow_page (free_frame s (mload s (page + cw_physical))) page
    else Done s.

(** ** Faults *)

(** Making the page writable in place. *)
Definition set_writable (s : mm K) (pd virtual_addr : Z) : option (mm K) :=
  let table := find_page_table s pd virtual_addr in
  if table =? 0 then None
  else let e := pte_addr table virtual_addr in Some (mstore s e (pte_set (mload s e) 1 true)).

(** [for (i = 0; i < 4096; i++) new[i] = old[i];] *)
Definition copy_page (s : mm K) (new_physical old_physical : Z) : mm K :=
  set_kal s (for_ 4096 (fun i k => kstore8 k (new_physical + i) (kload8 k (old_physical + i))) (kal s)).

Definition break_cow (s : mm K) (pd virtual_addr : Z) : outcome (Z * mm K) :=
  let old_physical := get_physical_addr s pd virtual_addr in
  if old_physical =? 0 then Done (-1, s)
  else
    let* cow_page := find_cow_page s old_physical in
    if cow_page =? 0 then
      match set_writable s pd virtual_addr with
      | Some s => Done (0, load_cr3 s pd)
      | None => Done (-1, s)
      end
    else if mload s (cow_page + cw_refs) =? 1 then
      match set_writable s pd virtual_addr with
      | Some s => let* s := dec_cow_ref s cow_page in Done (0, load_cr3 s pd)
      | None => Done (-1, s)
      end
    else
      let* (new_physical, s) := alloc_frame fuel file_write s in
      if new_physical =? 0 then Done (-1, s)
      else
        let s := copy_page s new_physical old_physical in
        let s := unmap_page s pd virtual_addr in
        let* (result, s) := map_page fuel file_write s pd virtual_addr new_physical
                              (Z.lor (Z.lor PG_PRESENT PG_WRITE) PG_USER) in
        if result =? 0 then let* s := dec_cow_ref s cow_page in Done (result, load_cr3 s pd)
        else Done (result, free_frame s new_physical).

Definition handle_cow_fault (s : mm K) (pd virtual_addr error_code : Z) : outcome (Z * mm K) :=
  if negb (has_flag error_code 0x2) then Done (-1, s)
  else
    let page_addr := Z.land virtual_addr 0xFFFFF000 in
    let physical_addr := get_physical_addr s pd page_addr in
    if physical_addr =? 0 then Done (-1, s)
    else
      let* cow_page := find_cow_page s physical_addr in
      if (cow_page =? 0) || (mload s (cow_page + cw_refs) <=? 1) then
        match set_writable s pd page_addr with
        | Some s => Done (0, load_cr3 s pd)
        | None => Done (-1, s)
        end
      else break_cow s pd page_addr.

(** ** Ranges: [for (addr = start; addr < end; addr += 4096)], in 32 bits *)

(** The page of [addr], shared: [inr] when the loop returns. *)
Definition cow_copy_page (s : mm K) (dst_pd src_pd addr : Z) : outcome (mm K + Z * mm K) :=
  let physical_addr := get_physical_addr s src_pd addr in
  let src_table := find_page_table s src_pd addr in
  let e := pte_addr src_table addr in
  if (physical_addr =? 0) || (src_table =? 0) || negb (pte_present (mload s e)) then Done (inl s)
  else
    let flags := Z.lor PG_PRESENT (if pte_user (mload s e) then PG_USER else 0) in
    let* (ok, s) :=
      if pte_writable (mload s e) then
        let s := mstore s e (pte_set (mload s e) 1 false) in
        let* cow_page := find_cow_page s physical_addr in
        let* (cow_page, s) := if cow_page =? 0 then alloc_cow_page s physical_addr else Done (cow_page, s) in
        if cow_page =? 0 then Done (false, s) else Done (true, inc_cow_ref s cow_page)
      else Done (true, s) in
    if negb ok then Done (inr (-1, s))
    else
      let* (result, s) := map_page fuel file_write s dst_pd addr physical_addr flags in
      Done (if negb (result =? 0) then inr (result, s) else inl s).

Definition cow_copy_page_range (s : mm K) (dst_pd src_pd start_addr end_addr : Z) : outcome (Z * mm K) :=
  loop fuel (fun '(addr, s) =>
    if negb (addr <? end_addr) then Done (inr (0, load_cr3 s src_pd))
    else
      let* r := cow_copy_page s dst_pd src_pd addr in
      Done (match r with
            | inl s => inl (u32 (addr + 4096), s)
            | inr r => inr r
            end)) (start_addr, s).

Definition cow_free_page_range (s : mm K) (pd start_addr end_addr : Z) : outcome (mm K) :=
  loop fuel (fun '(addr, s) =>
    if negb (addr <? end_addr) then Done (inr s)
    else
      let physical_addr := get_physical_addr s pd addr in
      let* s :=
        if physical_addr =? 0 then Done s
        else
          let* cow_page := find_cow_page s physical_addr in
          let* s := if negb (cow_page =? 0) then dec_cow_ref s cow_page else Done s in
          Done (unmap_page s pd addr) in
      Done (inl (u32 (addr + 4096), s))) (start_addr, s).

Definition map_pages (s : mm K) (pd start_addr end_addr flags : Z) : outcome (Z * mm K) :=
  loop fuel (fun '(addr, s) =>
    if negb (addr <? end_addr) then Done (inr (0, s))
    else
      let* (frame, s) := alloc_frame fuel file_write s in
      if frame =? 0 then Done (inr (-1, s))
      else
        let* (result, s) := map_page fuel file_write s pd addr frame flags in
        Done (if negb (result =? 0) then inr (result, free_frame s frame)
              else inl (u32 (addr + 4096), s))) (start_addr, s).

Definition unmap_pages (s : mm K) (pd start_addr end_addr : Z) : outcome (Z * mm K) :=
  loop fuel (fun '(addr, s) =>
    Done (if negb (addr <? end_addr) then inr (0, s)
          else inl (u32 (addr + 4096), unmap_page s pd addr))) (start_addr, s).

(** ** Virtual memory areas *)

Definition create_vma (s : mm K) (start end_ flags : Z) : outcome (Z * mm K) :=
  let* (vma, s) := mm_cache_alloc s (vma_cache (cow s)) in
  if vma =? 0 then Done (0, s)
  else
    let s := mstore s (vma + vma_start) start in
    let s := mstore s (vma + vma_end) end_ in
    let s := mstore s (vma + vma_flags) flags in
    let s := mstore s (vma + vma_pgoff) 0 in
    let s := mstore s (vma + vma_next) 0 in
    let s := mstore s (vma + vma_prev) 0 in
    Done (vma, mstore s (vma + vma_pd) 0).

Definition destroy_vma (s : mm K) (vma : Z) : outcome (mm K) :=
  if vma =? 0 then Done s else mm_cache_free s (vma_cache (cow s)) vma.

(** ** Mappings *)

Definition create_cow_mapping (s : mm K) (virtual_addr size flags pd page : Z) : outcome (Z * mm K) :=
  let* (mapping, s) := mm_cache_alloc s (cow_mapping_cache (cow s)) in
  if mapping =? 0 then Done (0, s)
  else
    let s := mstore s (mapping + cm_vaddr) virtual_addr in
    let s := mstore s (mapping + cm_size) size in
    let s := mstore s (mapping + cm_flags) flags in
    let s := mstore s (mapping + cm_owner) pd in
    let s := mstore s (mapping + cm_page) page in
    let s := mstore s (mapping + cm_next) (cow_mappings (cow s)) in
    Done (mapping, s <| cow -> cow_mappings := mapping |>
                     <| cow -> total_cow_mappings ::= fun n => u32 (n + 1) |>).

Definition destroy_cow_mapping (s : mm K) (mapping : Z) : outcome (mm K) :=
  if mapping =? 0 then Done s
  else
    let* s :=
      if cow_mappings (cow s) =? mapping
      then Done (s <| cow -> cow_mappings := mload s (mapping + cm_next) |>)
      else
        let* curr := while fuel (fun c => negb (c =? 0) && negb (mload s (c + cm_next) =? mapping))
                       (fun c => mload s (c + cm_next)) (cow_mappings (cow s)) in
        Done (if negb (curr =? 0) then mstore s (curr + cm_next) (mload s (mapping + cm_next)) else s) in
    let* s := mm_cache_free s (cow_mapping_cache (cow s)) mapping in
    Done (s <| cow -> total_cow_mappings ::= fun n => u32 (n - 1) |>).

Definition find_cow_mapping (s : mm K) (pd virtual_addr : Z) : outcome Z :=
  loop fuel (fun m =>
    Done (if m =? 0 then inr 0
          else if (mload s (m + cm_owner) =? pd) && (mload s (m + cm_vaddr) <=? virtual_addr)
                  && (virtual_addr <? u32 (mload s (m + cm_vaddr) + mload s (m + cm_size)))
          then inr m else inl (mload s (m + cm_next)))) (cow_mappings (cow s)).

Definition cleanup_process_cow (s : mm K) (pd : Z) : outcome (mm K) :=
  loop fuel (fun '(s, mapping) =>
    if mapping =? 0 then Done (inr s)
    else
      let next := mload s (mapping + cm_next) in
      let* s :=
        if mload s (mapping + cm_owner) =? pd then
          let* s := if negb (mload s (mapping + cm_page) =? 0)
                    then dec_cow_ref s (mload s (mapping + cm_page)) else Done s in
          destroy_cow_mapping s mapping
        else Done s in
      Done (inl (s, next))) (s, cow_mappings (cow s)).

Definition optimize_cow_pages (s : mm K) : outcome (mm K) :=
  loop fuel (fun '(s, page) =>
    if page =? 0 then Done (inr s)
    else
      let next := mload s (page + cw_next) in
      let* s :=
        if mload s (page + cw_refs) =? 0
        then free_cow_page (free_frame s (mload s (page + cw_physical))) page else Done s in
      Done (inl (s, next))) (s, cow_pages (cow s)).

Definition validate_cow_integrity (s : mm K) : outcome Z :=
  loop fuel (fun '(errors, page) =>
    Done (if page =? 0 then inr (s32 errors)
          else
            let errors := if negb (mload s (page + cw_magic) =? COW_MAGIC) then u32 (errors + 1) else errors in
            let errors := if MAX_COW_REFS <? mload s (page + cw_refs) then u32 (errors + 1) else errors in
            inl (errors, mload s (page + cw_next)))) (0, cow_pages (cow s)).

(** ** The C interface *)

Definition cow_fork_mm (s : mm K) (child_pd parent_pd : Z) : outcome (Z * mm K) :=
  cow_copy_page_range s child_pd parent_pd USER_OFFSET USER_STACK.
Definition cow_handle_page_fault (s : mm K) (fault_addr error_code : Z) : outcome (Z * mm K) :=
  handle_cow_fault s (current_directory s) fault_addr error_code.

End Cow.
