(* ===== verification/PageReplacement.v ===== *)
(** The page replacement manager:
    [src/src/kernel/arch/x86/page_replacement.h] and [page_replacement.cc].

    The fields of [PageReplacementManager] are a record; page descriptors are
    structures in kernel memory whose [next]/[prev] links serve both the page
    list and the LRU or FIFO list.  The process id that [add_page] stores
    ([arch.pcurrent]'s, or 0) is an argument, and printing is left out. *)

From Stdlib Require Import ZArith Lia.
From stdpp Require Import base list gmap option.
From coqutil Require Import Datatypes.RecordSetters.
From S2P Require Import Prelude Memory KAlloc.
Import TriangleBracketNotations.

Inductive algorithm := PR_LRU | PR_FIFO | PR_CLOCK | PR_LRU_ENHANCED.
Definition PR_ALGORITHM_COUNT : Z := 4.

#[export] Instance algorithm_eq_dec : EqDecision algorithm.
Proof. solve_decision. Defined.

Definition algorithm_of (z : Z) : algorithm :=
  if z =? 0 then PR_LRU else if z =? 1 then PR_FIFO else if z =? 2 then PR_CLOCK else PR_LRU_ENHANCED.
Definition algorithm_index (a : algorithm) : Z :=
  match a with PR_LRU => 0 | PR_FIFO => 1 | PR_CLOCK => 2 | PR_LRU_ENHANCED => 3 end.

Definition PR_FLAG_ACCESSED : Z := 0x01.
Definition PR_FLAG_DIRTY : Z := 0x02.
Definition PR_FLAG_LOCKED : Z := 0x08.

(** [struct page_descriptor]; the union starts at [pg_union]. *)
Definition pg_vaddr : Z := 0.
Definition pg_paddr : Z := 4.
Definition pg_flags : Z := 8.
Definition pg_count : Z := 12.
Definition pg_last : Z := 16.
Definition pg_created : Z := 24.
Definition pg_pid : Z := 32.
Definition pg_next : Z := 36.
Definition pg_prev : Z := 40.
Definition pg_union : Z := 44.
Definition pg_reference : Z := 48.
Definition sizeof_page_descriptor : Z := 52.

Record replacement_stats := mk_rstats {
  total_replacements : Z;
  page_faults : Z;
  hits : Z;
  misses : Z;
  dirty_writebacks : Z;
  total_access_time : Z;
  algorithm_switches : Z;
}.
Definition zero_stats : replacement_stats := mk_rstats 0 0 0 0 0 0 0.

(** [class PageReplacementManager], over a kernel allocator [rkal]. *)
Record repl (K : Type) := mk_repl {
  rkal : K;
  current_algorithm : algorithm;
  page_list_head : Z;
  page_list_tail : Z;
  total_pages : Z;
  time_counter : Z;
  stats : list replacement_stats;
  current_stats : replacement_stats;
  pr_lru_head : Z;
  pr_lru_tail : Z;
  fifo_head : Z;
  fifo_tail : Z;
  clock_hand : Z;
  clock_size : Z;
}.
Arguments mk_repl {K}.
Arguments rkal {K}.
Arguments current_algorithm {K}.
Arguments page_list_head {K}.
Arguments page_list_tail {K}.
Arguments total_pages {K}.
Arguments time_counter {K}.
Arguments stats {K}.
Arguments current_stats {K}.
Arguments pr_lru_head {K}.
Arguments pr_lru_tail {K}.
Arguments fifo_head {K}.
Arguments fifo_tail {K}.
Arguments clock_hand {K}.
Arguments clock_size {K}.

Section PageReplacement.
Context {K : Type} `{KAlloc K}.
Variable fuel : nat.

Definition rload (s : repl K) (a : Z) : Z := kload (rkal s) a.
Definition rstore (s : repl K) (a v : Z) : repl K := s <| rkal := kstore (rkal s) a v |>.
Definition rload64 (s : repl K) (a : Z) : Z := load64 (kmem (rkal s)) a.
Definition rstore64 (s : repl K) (a v : Z) : repl K :=
  s <| rkal := with_mem (rkal s) (store64 (kmem (rkal s)) a v) |>.

(** [access_counter++]; [get_system_time] is the same. *)
Definition tick (s : repl K) : Z * repl K :=
  (time_counter s, s <| time_counter ::= fun n => u64 (n + 1) |>).
Definition get_system_time := tick.

Definition pr_init (s : repl K) : repl K :=
  mk_repl (rkal s) PR_LRU 0 0 0 0 (replicate 4 zero_stats) zero_stats 0 0 0 0 0 0.

(** ** LRU and FIFO lists *)

Definition lru_add_page (s : repl K) (page : Z) : repl K :=
  let '(position, s) := tick s in
  let s := rstore s (page + pg_union) (u32 position) in
  if negb (pr_lru_head s =? 0) then
    let s := rstore s (pr_lru_head s + pg_prev) page in
    let s := rstore s (page + pg_next) (pr_lru_head s) in
    s <| pr_lru_head := page |>
  else s <| pr_lru_head := page |> <| pr_lru_tail := page |>.

Definition lru_remove_page (s : repl K) (page : Z) : repl K :=
  let s := if negb (rload s (page + pg_prev) =? 0)
           then rstore s (rload s (page + pg_prev) + pg_next) (rload s (page + pg_next))
           else s <| pr_lru_head := rload s (page + pg_next) |> in
  if negb (rload s (page + pg_next) =? 0)
  then rstore s (rload s (page + pg_next) + pg_prev) (rload s (page + pg_prev))
  else s <| pr_lru_tail := rload s (page + pg_prev) |>.

Definition lru_update_access (s : repl K) (page : Z) : repl K := lru_add_page (lru_remove_page s page) page.

Definition fifo_add_page (s : repl K) (page : Z) : repl K :=
  let '(position, s) := tick s in
  let s := rstore s (page + pg_union) (u32 position) in
  if negb (fifo_head s =? 0) then
    let s := rstore s (fifo_head s + pg_prev) page in
    let s := rstore s (page + pg_next) (fifo_head s) in
    s <| fifo_head := page |>
  else s <| fifo_head := page |> <| fifo_tail := page |>.

Definition fifo_remove_page (s : repl K) (page : Z) : repl K :=
  let s := if negb (rload s (page + pg_prev) =? 0)
           then rstore s (rload s (page + pg_prev) + pg_next) (rload s (page + pg_next))
           else s <| fifo_head := rload s (page + pg_next) |> in
  if negb (rload s (page + pg_next) =? 0)
  then rstore s (rload s (page + pg_next) + pg_prev) (rload s (page + pg_prev))
  else s <| fifo_tail := rload s (page + pg_prev) |>.

(** From the tail back to the first page that is not locked. *)
Definition skip_locked (s : repl K) (victim : Z) : outcome Z :=
  while fuel (fun v => negb (v =? 0) && has_flag (rload s (v + pg_flags)) PR_FLAG_LOCKED)
    (fun v => rload s (v + pg_prev)) victim.

Definition lru_find_victim (s : repl K) : outcome Z :=
  if pr_lru_tail s =? 0 then Done 0 else skip_locked s (pr_lru_tail s).
Definition fifo_find_victim (s : repl K) : outcome Z :=
  if fifo_tail s =? 0 then Done 0 else skip_locked s (fifo_tail s).

(** ** The clock *)

(** [clock_hand->next ? clock_hand->next : page_list_head] *)
Definition clock_next (s : repl K) (page : Z) : Z :=
  if negb (rload s (page + pg_next) =? 0) then rload s (page + pg_next) else page_list_head s.

Definition clock_add_page (s : repl K) (page : Z) : repl K :=
  let s := rstore s (page + pg_reference) 1 in
  let s := rstore s (page + pg_union) 0 in
  let s := s <| clock_size ::= fun n => u32 (n + 1) |> in
  if clock_hand s =? 0 then s <| clock_hand := page |> else s.

Definition clock_remove_page (s : repl K) (page : Z) : repl K :=
  let s := if clock_hand s =? page then
             let s := s <| clock_hand := clock_next s page |> in
             if clock_hand s =? page then s <| clock_hand := 0 |> else s
           else s in
  s <| clock_size ::= fun n => u32 (n - 1) |>.

Definition clock_update_access (s : repl K) (page : Z) : repl K := rstore s (page + pg_reference) 1.

(** One turn of the loop at the page under the hand: the victim, or the
    page loses its reference bit; the hand moves on either way. *)
Definition clock_step (s : repl K) : option Z * repl K :=
  let page := clock_hand s in
  if negb (has_flag (rload s (page + pg_flags)) PR_FLAG_LOCKED) then
    if rload s (page + pg_reference) =? 0
    then (Some page, s <| clock_hand := clock_next s page |>)
    else
      let s := rstore s (page + pg_reference) 0 in
      let s := rstore s (page + pg_union) (u32 (rload s (page + pg_union) + 1)) in
      (None, s <| clock_hand := clock_next s page |>)
  else (None, s <| clock_hand := clock_next s page |>).

Definition clock_find_victim (s : repl K) : outcome (Z * repl K) :=
  if clock_size s =? 0 then Done (0, s)
  else
    let s := if clock_hand s =? 0 then s <| clock_hand := page_list_head s |> else s in
    let start := clock_hand s in
    loop fuel (fun s =>
      let '(victim, s) := clock_step s in
      Done (match victim with
            | Some v => inr (v, s)
            | None => if negb (clock_hand s =? start) then inl s else inr (clock_hand s, s)
            end)) s.

(** ** Enhanced LRU *)

Definition calculate_page_score (s : repl K) (page : Z) : Z * repl K :=
  let '(current_time, s) := get_system_time s in
  let age := u32 (current_time - rload64 s (page + pg_last)) in
  let score := Z.shiftr age 10 in
  let score := if 0 <? rload s (page + pg_count) then u32 (score + 1000 / rload s (page + pg_count))
               else u32 (score + 1000) in
  let score := if has_flag (rload s (page + pg_flags)) PR_FLAG_DIRTY then u32 (score + 500) else score in
  let score := if has_flag (rload s (page + pg_flags)) PR_FLAG_ACCESSED then u32 (score - 100) else score in
  (score, s).

Definition lru_enhanced_find_victim (s : repl K) : outcome (Z * repl K) :=
  loop fuel (fun '(s, page, best_score, best_victim) =>
    if page =? 0 then Done (inr (best_victim, s))
    else
      let '(s, best_score, best_victim) :=
        if negb (has_flag (rload s (page + pg_flags)) PR_FLAG_LOCKED) then
          let '(score, s) := calculate_page_score s page in
          if score <? best_score then (s, score, page) else (s, best_score, best_victim)
        else (s, best_score, best_victim) in
      Done (inl (s, rload s (page + pg_next), best_score, best_victim)))
    (s, page_list_head s, 0xFFFFFFFF, 0).

(** ** The manager's operations *)

Definition find_page (s : repl K) (virtual_addr : Z) : outcome Z :=
  loop fuel (fun page =>
    Done (if page =? 0 then inr 0
          else if rload s (page + pg_vaddr) =? virtual_addr then inr page
          else inl (rload s (page + pg_next)))) (page_list_head s).

(** The three [switch]es on the algorithm. *)
Definition alg_add_page (a : algorithm) (s : repl K) (page : Z) : repl K :=
  match a with
  | PR_LRU | PR_LRU_ENHANCED => lru_add_page s page
  | PR_FIFO => fifo_add_page s page
  | PR_CLOCK => clock_add_page s page
  end.
Definition alg_remove_page (a : algorithm) (s : repl K) (page : Z) : repl K :=
  match a with
  | PR_LRU | PR_LRU_ENHANCED => lru_remove_page s page
  | PR_FIFO => fifo_remove_page s page
  | PR_CLOCK => clock_remove_page s page
  end.
Definition alg_update_access (a : algorithm) (s : repl K) (page : Z) : repl K :=
  match a with
  | PR_LRU | PR_LRU_ENHANCED => lru_update_access s page
  | PR_CLOCK => clock_update_access s page
  | PR_FIFO => s
  end.

(** The algorithm whose list a page is taken from when the algorithm changes. *)
Definition previous_algorithm (s : repl K) : algorithm :=
  let current := algorithm_index (current_algorithm s) in
  if 0 <? algorithm_switches (zget zero_stats (stats s) current)
  then algorithm_of ((current + PR_ALGORITHM_COUNT - 1) mod PR_ALGORITHM_COUNT)
  else current_algorithm s.

Definition set_algorithm (s : repl K) (algorithm : Z) : outcome (repl K) :=
  if PR_ALGORITHM_COUNT <=? algorithm then Done s
  else
    let s := s <| stats ::= fun l => zset l (algorithm_index (current_algorithm s)) (current_stats s) |> in
    let s := s <| current_stats -> algorithm_switches ::= fun n => u32 (n + 1) |> in
    let s := s <| current_algorithm := algorithm_of algorithm |> in
    loop fuel (fun '(s, page) =>
      Done (if page =? 0 then inr s
            else
              let next := rload s (page + pg_next) in
              let s := alg_remove_page (previous_algorithm s) s page in
              inl (alg_add_page (current_algorithm s) s page, next))) (s, page_list_head s).

Definition find_victim_page (s : repl K) : outcome (Z * repl K) :=
  if total_pages s =? 0 then Done (0, s)
  else
    let '(start_time, s) := get_system_time s in
    let* (victim, s) :=
      match current_algorithm s with
      | PR_LRU => let* v := lru_find_victim s in Done (v, s)
      | PR_FIFO => let* v := fifo_find_victim s in Done (v, s)
      | PR_CLOCK => clock_find_victim s
      | PR_LRU_ENHANCED => lru_enhanced_find_victim s
      end in
    if victim =? 0 then Done (victim, s)
    else
      let s := s <| current_stats -> total_replacements ::= fun n => u32 (n + 1) |> in
      let '(now, s) := get_system_time s in
      let s := s <| current_stats -> total_access_time ::= fun n => u64 (n + (now - start_time)) |> in
      Done (victim,
            if has_flag (rload s (victim + pg_flags)) PR_FLAG_DIRTY
            then s <| current_stats -> dirty_writebacks ::= fun n => u32 (n + 1) |> else s).

(** A new descriptor, every field set. *)
Definition init_descriptor (s : repl K) (page virtual_addr physical_addr flags pid : Z) : repl K :=
  let s := rstore s (page + pg_vaddr) virtual_addr in
  let s := rstore s (page + pg_paddr) physical_addr in
  let s := rstore s (page + pg_flags) flags in
  let s := rstore s (page + pg_count) 1 in
  let '(now, s) := get_system_time s in
  let s := rstore64 s (page + pg_last) now in
  let s := rstore64 s (page + pg_created) (rload64 s (page + pg_last)) in
  let s := rstore s (page + pg_pid) pid in
  let s := rstore s (page + pg_next) 0 in
  let s := rstore s (page + pg_prev) 0 in
  let s := rstore s (page + pg_union) 0 in
  rstore s (page + pg_reference) 1.

(** Linking it at the tail of the page list. *)
Definition append_page (s : repl K) (page : Z) : repl K :=
  if negb (page_list_tail s =? 0) then
    let s := rstore s (page_list_tail s + pg_next) page in
    let s := rstore s (page + pg_prev) (page_list_tail s) in
    s <| page_list_tail := page |>
  else s <| page_list_head := page |> <| page_list_tail := page |>.

Definition add_page (s : repl K) (virtual_addr physical_addr flags pid : Z) : outcome (repl K) :=
  let* (page, k) := kmalloc (rkal s) sizeof_page_descriptor in
  let s := s <| rkal := k |> in
  if page =? 0 then Done s
  else
    let s := init_descriptor s page virtual_addr physical_addr flags pid in
    let s := append_page s page in
    let s := alg_add_page (current_algorithm s) s page in
    Done (s <| total_pages ::= fun n => u32 (n + 1) |>).

(** Taking it out of the page list. *)
Definition unlink_page (s : repl K) (page : Z) : repl K :=
  let s := if negb (rload s (page + pg_prev) =? 0)
           then rstore s (rload s (page + pg_prev) + pg_next) (rload s (page + pg_next))
           else s <| page_list_head := rload s (page + pg_next) |> in
  if negb (rload s (page + pg_next) =? 0)
  then rstore s (rload s (page + pg_next) + pg_prev) (rload s (page + pg_prev))
  else s <| page_list_tail := rload s (page + pg_prev) |>.

Definition remove_page (s : repl K) (virtual_addr : Z) : outcome (repl K) :=
  let* page := find_page s virtual_addr in
  if page =? 0 then Done s
  else
    let s := alg_remove_page (current_algorithm s) s page in
    let s := unlink_page s page in
    let* k := kfree (rkal s) page in
    Done (s <| rkal := k |> <| total_pages ::= fun n => u32 (n - 1) |>).

Definition update_page_access (s : repl K) (virtual_addr : Z) : outcome (repl K) :=
  let* page := find_page s virtual_addr in
  if page =? 0 then Done (s <| current_stats -> misses ::= fun n => u32 (n + 1) |>)
  else
    let s := s <| current_stats -> hits ::= fun n => u32 (n + 1) |> in
    let s := rstore s (page + pg_count) (u32 (rload s (page + pg_count) + 1)) in
    let '(now, s) := get_system_time s in
    let s := rstore64 s (page + pg_last) now in
    let s := rstore s (page + pg_flags) (Z.lor (rload s (page + pg_flags)) PR_FLAG_ACCESSED) in
    Done (alg_update_access (current_algorithm s) s page).

Definition mark_page_dirty (s : repl K) (virtual_addr : Z) : outcome (repl K) :=
  let* page := find_page s virtual_addr in
  Done (if negb (page =? 0)
        then rstore s (page + pg_flags) (Z.lor (rload s (page + pg_flags)) PR_FLAG_DIRTY) else s).

Definition mark_page_clean (s : repl K) (virtual_addr : Z) : outcome (repl K) :=
  let* page := find_page s virtual_addr in
  Done (if negb (page =? 0)
        then rstore s (page + pg_flags) (Z.ldiff (rload s (page + pg_flags)) PR_FLAG_DIRTY) else s).

Definition get_replacement_stats (s : repl K) : replacement_stats := current_stats s.
Definition reset_stats (s : repl K) : repl K := s <| current_stats := zero_stats |>.

(** The share of the frames in use, in percent, in 32 bits. *)
Definition get_memory_pressure (frames_used frame_count : Z) : Z :=
  if frame_count =? 0 then 0 else u32 (frames_used * 100) / frame_count.

Definition set_memory_pressure_algorithm (s : repl K) (frames_used frame_count : Z) : outcome (Z * repl K) :=
  let pressure := get_memory_pressure frames_used frame_count in
  let choose a r := let* s := set_algorithm s (algorithm_index a) in Done (r, s) in
  if pressure <? 50 then choose PR_LRU 0
  else if pressure <? 80 then choose PR_LRU_ENHANCED 1
  else if pressure <? 95 then choose PR_CLOCK 2
  else choose PR_FIFO 3.

(** ** The C interface *)

Definition set_page_replacement_algorithm (s : repl K) (algorithm : Z) : outcome (Z * repl K) :=
  if PR_ALGORITHM_COUNT <=? algorithm then Done (-1, s)
  else let* s := set_algorithm s algorithm in Done (0, s).
Definition get_victim_page_for_replacement := find_victim_page.
Definition notify_page_access := update_page_access.
Definition notify_page_modified := mark_page_dirty.

End PageReplacement.
