(* ===== verification/PageReplacementSpec.v ===== *)
(** The page replacement manager's contract.

    Under [PR_CLOCK] the descriptors form one list, [add_page] appends to it
    and [clock_find_victim] is the second-chance algorithm on it.  Under
    [PR_LRU] the page list and the LRU list share their links, and two pages
    are enough to close a cycle. *)

From Stdlib Require Import ZArith Lia.
From stdpp Require Import base list gmap option sets.
From coqutil Require Import Datatypes.RecordSetters.
From S2P Require Import Prelude Memory DList KAlloc Bump PageReplacement.
Import TriangleBracketNotations.

Ltac pg_words :=
  unfold pg_vaddr, pg_paddr, pg_flags, pg_count, pg_last, pg_created, pg_pid, pg_next, pg_prev, pg_union,
    pg_reference, sizeof_page_descriptor in *.

Lemma pg_np : pg_next ≠ pg_prev.
Proof. done. Qed.

Section Spec.
Context {K : Type} `{KAllocLaws K}.

Lemma rload_rstore_eq (s : repl K) a v : rload (rstore s a v) a = v.
Proof. apply kload_kstore_eq. Qed.
Lemma rload_rstore_ne (s : repl K) a b v : a ≠ b → rload (rstore s a v) b = rload s b.
Proof. apply kload_kstore_ne. Qed.

(** ** The clock *)

Definition locked (s : repl K) (p : Z) : bool := has_flag (rload s (p + pg_flags)) PR_FLAG_LOCKED.

(** A page the second-chance algorithm may take now. *)
Definition evictable (s : repl K) (p : Z) : bool := negb (locked s p) && (rload s (p + pg_reference) =? 0).

(** The descriptors [ps], in list order, are live blocks apart from each other,
    and the hand is on one of them. *)
Record clock_ok (s : repl K) (ps : list Z) (l : list (Z * Z)) : Prop := {
  clock_live : kalloc_ok (rkal s) l;
  clock_blocks p : p ∈ ps → (p, sizeof_page_descriptor) ∈ l;
  clock_apart p q : p ∈ ps → q ∈ ps → p ≠ q → p + sizeof_page_descriptor <= q ∨ q + sizeof_page_descriptor <= p;
  clock_list : dlist pg_next pg_prev (kmem (rkal s)) (page_list_head s) ps;
  clock_tail : page_list_tail s = List.last ps 0;
  clock_on : clock_hand s = 0 ∧ ps = [] ∨ clock_hand s ∈ ps;
  clock_count : clock_size s = u32 (Z.of_nat (length ps));
}.

Lemma dseg_next m p0 a p b after :
  dseg pg_next pg_prev m p0 (a ++ p :: b) after → p ≠ 0 ∧ load m (p + pg_next) = hd after b.
Proof. intros [_ Hs]%dseg_app. cbn [dseg] in Hs. tauto. Qed.

Lemma hd_app_cons {A} (d x : A) l l' : hd d ((x :: l) ++ l') = x.
Proof. done. Qed.

(** The hand goes round: after [p] comes the next page of the rotation. *)
Lemma clock_next_rot (s : repl K) ps l a b d p rest :
  clock_ok s ps l → ps = a ++ b → b ++ a = d ++ p :: rest → clock_next s p = hd (hd 0 (b ++ a)) rest.
Proof.
  intros Hok Hps Hrot. destruct (clock_list _ _ _ Hok) as (Hh & Hs & _ & _).
  assert (∀ x, x ∈ ps → x ≠ 0) as Hnz by exact (dseg_nonnull _ _ pg_np _ _ _ _ Hs).
  assert (∀ u v, ps = u ++ p :: v → clock_next s p = hd (hd 0 ps) v) as Hnext.
  { intros u v E. pose proof Hs as Hs'. rewrite E in Hs'. apply dseg_next in Hs' as [_ Hn].
    unfold clock_next. change (rload s (p + pg_next)) with (load (kmem (rkal s)) (p + pg_next)). rewrite Hn.
    destruct v as [|y v]; [cbn [hd]; simpl; by rewrite Hh|]. cbn [hd].
    rewrite (proj2 (Z.eqb_neq y 0)); [done|]. apply Hnz. rewrite E. set_solver. }
  pose proof Hrot as E. apply app_eq_app in E as (k & [[Eb Ek]|[Ed Ea]]).
  - destruct k as [|x k]; cbn [app] in Ek.
    + rewrite app_nil_r in Eb. subst b. rewrite (Hnext [] (rest ++ d)) by (by rewrite Hps, <- Ek).
      rewrite Hps, <- Ek. destruct rest as [|y r]; [|done]. by destruct d.
    + injection Ek as <- ->. subst b. rewrite (Hnext (a ++ d) k) by (rewrite Hps; by rewrite <- !app_assoc).
      destruct k; [|done]. rewrite Hps. destruct a as [|y a]; [|done]. cbn [app hd]. by rewrite app_nil_r.
  - subst a. rewrite (Hnext k (rest ++ b)) by (rewrite Hps; by rewrite <- app_assoc).
    rewrite Hps. destruct rest as [|y r]; [|done]. cbn [app hd]. destruct b; [|done].
    rewrite app_nil_r. by destruct k.
Qed.

(** What the hand leaves behind: the unlocked pages it passed lost their
    reference bit, and nothing else changed but their pass counters. *)
Definition swept (s : repl K) (passed : list Z) (s' : repl K) : Prop :=
  s' = s <| rkal := rkal s' |> <| clock_hand := clock_hand s' |> ∧
  (∀ p, p ∈ passed → locked s p = false → rload s' (p + pg_reference) = 0) ∧
  (∀ a, (∀ p, p ∈ passed → locked s p = false → a ≠ p + pg_reference ∧ a ≠ p + pg_union) → rload s' a = rload s a).

Lemma swept_frame (s s' : repl K) passed ps l a :
  clock_ok s ps l → swept s passed s' → (∀ p, p ∈ passed → p ∈ ps) →
  (∀ p, p ∈ ps → a ≠ p + pg_reference ∧ a ≠ p + pg_union) → rload s' a = rload s a.
Proof. intros Hok (_ & _ & Hsame) Hsub Ha. apply Hsame. intros p Hp _. auto. Qed.

Lemma clock_field (s : repl K) ps l q o :
  clock_ok s ps l → q ∈ ps → 0 <= o < pg_union →
  ∀ p, p ∈ ps → q + o ≠ p + pg_reference ∧ q + o ≠ p + pg_union.
Proof.
  intros Hok Hq Ho p Hp. destruct (decide (q = p)) as [->|Hne]; [pg_words; lia|].
  destruct (clock_apart _ _ _ Hok q p Hq Hp Hne); pg_words; lia.
Qed.

Lemma swept_ok (s s' : repl K) passed ps l :
  clock_ok s ps l → swept s passed s' → (∀ p, p ∈ passed → p ∈ ps) →
  kalloc_ok (rkal s') l → clock_hand s' ∈ ps → clock_ok s' ps l.
Proof.
  intros Hok Hsw Hsub Hk Hh. pose proof Hsw as (Es & _ & _).
  assert (page_list_head s' = page_list_head s ∧ page_list_tail s' = page_list_tail s ∧ clock_size s' = clock_size s)
    as (E1 & E2 & E3) by (rewrite Es; by destruct s).
  destruct Hok as [H1 H2 H3 H4 H5 H6 H7] eqn:Eok. split; rewrite ?E1, ?E2, ?E3; try done; [|by right].
  eapply dlist_frame; [exact pg_np| |exact H4]. intros x Hx.
  split; apply (swept_frame s s' passed ps l _ Hok Hsw Hsub); intros; eapply clock_field; try done; pg_words; lia.
Qed.

(** One turn at the page [p] of the rotation. *)
Lemma clock_step_spec (s s' : repl K) ps l a b d p rest :
  clock_ok s ps l → ps = a ++ b → b ++ a = d ++ p :: rest → swept s d s' → kalloc_ok (rkal s') l →
  clock_hand s' = p →
  ∃ s2, clock_step s' = (if evictable s p then Some p else None, s2) ∧
    clock_hand s2 = hd (hd 0 (b ++ a)) rest ∧ kalloc_ok (rkal s2) l ∧
    swept s (if evictable s p then d else d ++ [p]) s2.
Proof.
  intros Hok Hps Hrot Hsw Hk Hh.
  assert (∀ x, x ∈ b ++ a ↔ x ∈ ps) as Hin by (intros; rewrite Hps; set_solver).
  assert (p ∈ ps) as Hp by (apply Hin; rewrite Hrot; set_solver).
  assert (∀ x, x ∈ d → x ∈ ps) as Hd by (intros x Hx; apply Hin; rewrite Hrot; set_solver).
  assert (p ∉ d) as Hpd.
  { destruct (clock_list _ _ _ Hok) as (_ & _ & Hnd & _). rewrite Hps in Hnd.
    intros Hin2. assert (NoDup (b ++ a)) as Hnd2 by (by rewrite (Permutation_app_comm b a)).
    rewrite Hrot in Hnd2. apply NoDup_app in Hnd2 as (_ & Hnd2 & _). apply (Hnd2 p Hin2). set_solver. }
  pose proof (swept_ok s s' d ps l Hok Hsw Hd Hk ltac:(by rewrite Hh)) as Hok'.
  assert (rload s' (p + pg_flags) = rload s (p + pg_flags)) as Ef.
  { apply (swept_frame s s' d ps l _ Hok Hsw Hd). eapply clock_field; [done|done|pg_words; lia]. }
  assert (rload s' (p + pg_reference) = rload s (p + pg_reference)) as Er.
  { apply Hsw. intros q Hq _. assert (p ≠ q) as Hne by congruence.
    destruct (clock_apart _ _ _ Hok p q Hp (Hd q Hq) Hne); pg_words; lia. }
  pose proof (clock_next_rot s' ps l a b d p rest Hok' Hps Hrot) as Hnext.
  destruct Hsw as (Es & Hz & Hsame).
  unfold clock_step. rewrite Hh, Ef, Er. unfold evictable, locked.
  destruct (has_flag (rload s (p + pg_flags)) PR_FLAG_LOCKED) eqn:El; cbn [negb andb].
  - eexists. split; [done|]. split; [exact Hnext|]. split; [done|]. split; [rewrite Es; by destruct s|]. split.
    + intros q Hq Hl. apply elem_of_app in Hq as [Hq|Hq]; [by apply Hz|].
      apply list_elem_of_singleton in Hq as ->. unfold locked in Hl. congruence.
    + intros w Hw. apply Hsame. intros q Hq. apply Hw. set_solver.
  - destruct (Z.eqb_spec (rload s (p + pg_reference)) 0).
    + eexists. split; [done|]. split; [exact Hnext|]. split; [done|]. split; [rewrite Es; by destruct s|].
      split; done.
    + set (s1 := rstore s' (p + pg_reference) 0). set (s2 := rstore s1 _ _).
      assert (in_blocks l (p + pg_reference) ∧ in_blocks l (p + pg_union)) as [Hi1 Hi2]
        by (split; exists p, sizeof_page_descriptor; (split; [by apply (clock_blocks _ _ _ Hok)|pg_words; lia])).
      assert (∀ w, w ≠ p + pg_reference → w ≠ p + pg_union → rload s2 w = rload s' w) as Ho.
      { intros w H1 H2. unfold s2, s1. rewrite !rload_rstore_ne by congruence. done. }
      eexists. split; [done|]. split; [|split; [|split; [|split]]].
      * change (clock_next s2 p = hd (hd 0 (b ++ a)) rest). rewrite <- Hnext. unfold clock_next.
        rewrite Ho by (pg_words; lia). done.
      * change (kalloc_ok (rkal s2) l). by do 2 (apply kstore_own; [|done]).
      * unfold s2, s1. rewrite Es. by destruct s.
      * intros q Hq Hl. change (rload s2 (q + pg_reference) = 0).
        apply elem_of_app in Hq as [Hq|Hq].
        { assert (p ≠ q) as Hne by congruence.
          rewrite Ho by (destruct (clock_apart _ _ _ Hok p q Hp (Hd q Hq) Hne); pg_words; lia). by apply Hz. }
        apply list_elem_of_singleton in Hq as ->. unfold s2. rewrite rload_rstore_ne by (pg_words; lia).
        apply rload_rstore_eq.
      * intros w Hw. change (rload s2 w = rload s w). destruct (Hw p ltac:(set_solver) El) as [H1 H2].
        rewrite Ho by done. apply Hsame. intros q Hq. apply Hw. set_solver.
Qed.

(** The loop of [clock_find_victim]. *)
Definition clock_turn (start : Z) (s : repl K) : outcome (repl K + Z * repl K) :=
  let '(victim, s) := clock_step s in
  Done (match victim with
        | Some v => inr (v, s)
        | None => if negb (clock_hand s =? start) then inl s else inr (clock_hand s, s)
        end).

Lemma clock_loop (s : repl K) ps l a b rest :
  clock_ok s ps l → ps = a ++ b → NoDup (b ++ a) →
  ∀ d p s' fuel, b ++ a = d ++ p :: rest → swept s d s' → kalloc_ok (rkal s') l → clock_hand s' = p →
    Forall (fun q => evictable s q = false) d → (length rest < fuel)%nat →
  ∃ passed v s2, loop fuel (clock_turn (hd 0 (b ++ a))) s' = Done (v, s2) ∧ clock_ok s2 ps l ∧ swept s passed s2 ∧
    Forall (fun q => evictable s q = false) passed ∧
    ((∃ rest, b ++ a = passed ++ v :: rest ∧ evictable s v = true ∧ clock_hand s2 = hd (hd 0 (b ++ a)) rest) ∨
     passed = b ++ a ∧ v = hd 0 (b ++ a) ∧ clock_hand s2 = v).
Proof.
  intros Hok Hps Hnd. assert (∀ x, x ∈ b ++ a ↔ x ∈ ps) as Hin by (intros; rewrite Hps; set_solver).
  induction rest as [|y rest IH]; intros d p s' [|fuel] Hrot Hsw Hk Hh Hd Hf; try (simpl in Hf; lia);
    destruct (clock_step_spec s s' ps l a b d p _ Hok Hps Hrot Hsw Hk Hh) as (s2 & Est & Hh2 & Hk2 & Hsw2);
    cbn [loop]; unfold clock_turn at 1; rewrite Est; cbn [obind]; destruct (evictable s p) eqn:Ee.
  1,3: exists d, p, s2; split; [done|]; split; [|split; [done|split; [done|left; eauto]]];
    apply (swept_ok s s2 d ps l Hok Hsw2); [intros x Hx; apply Hin; rewrite Hrot; set_solver|done|];
    rewrite Hh2; apply Hin; destruct d; rewrite Hrot; set_solver.
  - cbn [hd] in Hh2. rewrite Hh2, Z.eqb_refl. cbn [negb obind]. exists (d ++ [p]), (hd 0 (b ++ a)), s2.
    split; [done|]. split; [|split; [done|split; [|by right]]].
    + apply (swept_ok s s2 (d ++ [p]) ps l Hok Hsw2); [intros x Hx; apply Hin; rewrite Hrot; set_solver|done|].
      rewrite Hh2. apply Hin. destruct d; rewrite Hrot; set_solver.
    + apply Forall_app. by repeat constructor.
  - cbn [hd] in Hh2. assert (y ≠ hd 0 (b ++ a)) as Hy.
    { intros E. rewrite Hrot in E, Hnd. destruct d as [|z d]; cbn [app hd] in E, Hnd;
        apply list.NoDup_cons in Hnd as [Hnin _]; apply Hnin; rewrite <- E; set_solver. }
    rewrite Hh2, (proj2 (Z.eqb_neq y _)) by done. cbn [negb obind].
    apply (IH (d ++ [p]) y s2 fuel); [by rewrite <- app_assoc|done|done|done| |simpl in Hf; lia].
    apply Forall_app. by repeat constructor.
Qed.

(** C36. [clock_find_victim] is the second-chance algorithm on the ring of
    descriptors that starts at the hand, and it returns with fuel for one
    round: it takes the first page that is unlocked and has no reference bit,
    after clearing the bit of the unlocked pages before it, and leaves the hand
    on the page behind.  When there is no such page it comes back to the page
    it started at and returns that one, locked or not. *)
Theorem clock_find_victim_spec fuel (s : repl K) ps l a b :
  clock_ok s ps l → ps = a ++ b → b ≠ [] → clock_hand s = hd 0 b → clock_size s ≠ 0 → (length ps <= fuel)%nat →
  ∃ passed v s', clock_find_victim fuel s = Done (v, s') ∧ clock_ok s' ps l ∧ swept s passed s' ∧
    Forall (fun p => evictable s p = false) passed ∧
    ((∃ rest, b ++ a = passed ++ v :: rest ∧ evictable s v = true ∧ clock_hand s' = hd (hd 0 (b ++ a)) rest) ∨
     passed = b ++ a ∧ v = hd 0 (b ++ a) ∧ clock_hand s' = v).
Proof.
  intros Hok Hps Hb Hh Hn Hf. destruct (clock_list _ _ _ Hok) as (_ & Hs & Hnd & _).
  destruct b as [|h b]; [done|]. cbn [hd] in Hh.
  assert (h ≠ 0) as Hh0 by (apply (dseg_nonnull _ _ pg_np _ _ _ _ Hs h); rewrite Hps; set_solver).
  unfold clock_find_victim. rewrite (proj2 (Z.eqb_neq _ _) Hn), Hh, (proj2 (Z.eqb_neq h 0)), Hh by done.
  apply (clock_loop s ps l a (h :: b) (b ++ a) Hok Hps) with (d := []) (p := h).
  - by rewrite (Permutation_app_comm (h :: b) a), <- Hps.
  - done.
  - split; [by destruct s|]. split; [set_solver|done].
  - apply Hok.
  - done.
  - constructor.
  - rewrite Hps in Hf. rewrite length_app in *. simpl in Hf. lia.
Qed.

(** ** New descriptors *)

Lemma rstore64_eq (s : repl K) a v : rstore64 s a v = rstore (rstore s a (u32 v)) (a + 4) (u32 (Z.shiftr v 32)).
Proof.
  unfold rstore at 1. change (rkal (rstore s a (u32 v))) with (kstore (rkal s) a (u32 v)).
  unfold kstore. rewrite kmem_with, with_with. by destruct s.
Qed.

Lemma rkal_rstore (s : repl K) l a v : kalloc_ok (rkal s) l → in_blocks l a → kalloc_ok (rkal (rstore s a v)) l.
Proof. intros. by apply kstore_own. Qed.

Lemma rload_clock (s : repl K) g a : rload (s <| time_counter ::= g |>) a = rload s a.
Proof. done. Qed.

(** A field of a descriptor after stores to its fields. *)
Ltac rload_fields :=
  repeat (first [rewrite rload_rstore_eq; reflexivity | rewrite rload_clock
                |rewrite rload_rstore_ne by (pg_words; lia)]).

(** [s'] is [s] but for kernel memory inside the block [(p, 52)] and the clock. *)
Definition same_outside (s : repl K) (p : Z) (l : list (Z * Z)) (s' : repl K) : Prop :=
  s' = s <| rkal := rkal s' |> <| time_counter := time_counter s' |> ∧ kalloc_ok (rkal s') l ∧
  ∀ x, x < p ∨ p + sizeof_page_descriptor <= x → rload s' x = rload s x.

Lemma same_outside_rstore (s s' : repl K) p l a v :
  (p, sizeof_page_descriptor) ∈ l → p <= a < p + sizeof_page_descriptor →
  same_outside s p l s' → same_outside s p l (rstore s' a v).
Proof.
  intros Hp Ha (E & Hk & Ho). split; [rewrite E; by destruct s|]. split.
  - apply rkal_rstore; [done|]. by exists p, sizeof_page_descriptor.
  - intros x Hx. rewrite rload_rstore_ne by lia. by apply Ho.
Qed.

Lemma init_descriptor_spec (s : repl K) p l v a f pid :
  kalloc_ok (rkal s) l → (p, sizeof_page_descriptor) ∈ l →
  let s' := init_descriptor s p v a f pid in
  same_outside s p l s' ∧ rload s' (p + pg_vaddr) = v ∧ rload s' (p + pg_flags) = f ∧
  rload s' (p + pg_next) = 0 ∧ rload s' (p + pg_prev) = 0.
Proof.
  intros Hk Hp. unfold init_descriptor, get_system_time, tick. cbn beta iota zeta. rewrite !rstore64_eq.
  split.
  - repeat (apply same_outside_rstore; [exact Hp|pg_words; lia|]).
    set (s1 := rstore (rstore (rstore (rstore s _ _) _ _) _ _) _ _).
    assert (same_outside s p l s1) as (E & Hk1 & Ho).
    { unfold s1. repeat (apply same_outside_rstore; [exact Hp|pg_words; lia|]).
      split; [by destruct s|done]. }
    split; [rewrite E; by destruct s|]. done.
  - split; [|split; [|split]]; rload_fields.
Qed.

(** The words of another descriptor are not those of [p]. *)
Lemma apart_word p q o o' :
  p + sizeof_page_descriptor <= q ∨ q + sizeof_page_descriptor <= p →
  0 <= o < sizeof_page_descriptor → 0 <= o' < sizeof_page_descriptor → p + o ≠ q + o'.
Proof. lia. Qed.

Lemma append_page_fields (s : repl K) p :
  page_list_tail s ≠ 0 →
  append_page s p = (rstore (rstore s (page_list_tail s + pg_next) p) (p + pg_prev) (page_list_tail s)) <| page_list_tail := p |>.
Proof. intros Ht. unfold append_page. by rewrite (proj2 (Z.eqb_neq _ 0)) by done. Qed.

Lemma append_page_dlist (s : repl K) ps l p :
  clock_ok s ps l → 0 < p → (p, sizeof_page_descriptor) ∈ l →
  (∀ q, q ∈ ps → p + sizeof_page_descriptor <= q ∨ q + sizeof_page_descriptor <= p) →
  rload s (p + pg_next) = 0 → rload s (p + pg_prev) = 0 →
  let s' := append_page s p in
  kalloc_ok (rkal s') l ∧ page_list_tail s' = p ∧ clock_hand s' = clock_hand s ∧ clock_size s' = clock_size s ∧
  dlist pg_next pg_prev (kmem (rkal s')) (page_list_head s') (ps ++ [p]) ∧
  (∀ x, x ≠ p + pg_prev → (ps ≠ [] → x ≠ List.last ps 0 + pg_next) → rload s' x = rload s x).
Proof.
  intros [Hk Hb Hap Hl Ht Ho Hc] Hp Hin Hd Hn Hpv s'. assert (Hp0 : p ≠ 0) by lia.
  destruct Hl as (Hh & Hs & Hnd & Hsep). destruct (decide (ps = [])) as [->|Hne].
  - assert (s' = s <| page_list_head := p |> <| page_list_tail := p |>) as ->
      by (unfold s', append_page; by rewrite Ht).
    split; [done|]. do 3 (split; [done|]). split; [|done]. apply dlist_intro; [done| |apply NoDup_singleton|].
    + split; [done|]. by repeat split.
    + intros x y ->%list_elem_of_singleton ->%list_elem_of_singleton. done.
  - destruct (dseg_last_nonnull _ _ pg_np _ _ _ _ Hne Hs) as [Hc0 Hcin]. set (c := List.last ps 0) in *.
    unfold s'. rewrite append_page_fields by (by rewrite Ht). rewrite Ht. clear s'.
    set (s1 := rstore s (c + pg_next) p). set (s2 := rstore s1 (p + pg_prev) c).
    assert (∀ x, x ≠ p + pg_prev → x ≠ c + pg_next → rload s2 x = rload s x) as Hoth.
    { intros x H1 H2. unfold s2, s1. by rewrite !rload_rstore_ne by done. }
    pose proof (Hd c Hcin) as Hdc.
    split.
    { apply rkal_rstore; [apply rkal_rstore; [done|]|].
      - exists c, sizeof_page_descriptor. split; [by apply Hb|pg_words; lia].
      - exists p, sizeof_page_descriptor. split; [done|pg_words; lia]. }
    do 3 (split; [done|]). split; [|intros x H1 H2; by apply Hoth, H2].
    apply (dl_append_dlist _ _ pg_np (kmem (rkal s))); try done.
    + intros Hps. destruct (Hd p Hps); pg_words; lia.
    + intros y Hy Hne'. destruct (Hd y Hy); pg_words; lia.
    + change (rload s2 (p + pg_next) = 0). rewrite Hoth; [done|pg_words; lia|apply apart_word; pg_words; lia].
    + change (rload s2 (p + pg_prev) = c). apply rload_rstore_eq.
    + change (rload s2 (c + pg_next) = p). unfold s2. rewrite rload_rstore_ne by (pg_words; lia). apply rload_rstore_eq.
    + intros y Hy. change (rload s2 (y + pg_prev) = rload s (y + pg_prev)). pose proof (Hd y Hy).
      apply Hoth; [pg_words; lia|]. destruct (decide (y = c)) as [->|Hyc]; [pg_words; lia|].
      destruct (Hap y c Hy Hcin Hyc); pg_words; lia.
    + intros y Hy Hyc. change (rload s2 (y + pg_next) = rload s (y + pg_next)). pose proof (Hd y Hy).
      apply Hoth; [pg_words; lia|]. destruct (Hap y c Hy Hcin Hyc); pg_words; lia.
Qed.

Lemma clock_add_page_spec (s : repl K) p l :
  kalloc_ok (rkal s) l → (p, sizeof_page_descriptor) ∈ l →
  let s' := clock_add_page s p in
  kalloc_ok (rkal s') l ∧ rload s' (p + pg_reference) = 1 ∧
  (∀ x, x ≠ p + pg_reference → x ≠ p + pg_union → rload s' x = rload s x) ∧
  page_list_head s' = page_list_head s ∧ page_list_tail s' = page_list_tail s ∧
  current_algorithm s' = current_algorithm s ∧ clock_size s' = u32 (clock_size s + 1) ∧
  clock_hand s' = if clock_hand s =? 0 then p else clock_hand s.
Proof.
  intros Hk Hp s'. set (s1 := rstore (rstore s (p + pg_reference) 1) (p + pg_union) 0).
  assert (rkal s' = rkal s1) as E by (unfold s', clock_add_page; by case_if).
  assert (∀ x, rload s' x = rload s1 x) as El by (intros x; unfold rload; by rewrite E).
  split; [|split; [|split]].
  - rewrite E. by repeat (apply rkal_rstore; [|exists p, sizeof_page_descriptor; split; [done|pg_words; lia]]).
  - rewrite El. unfold s1. rewrite rload_rstore_ne by (pg_words; lia). apply rload_rstore_eq.
  - intros x H1 H2. rewrite El. unfold s1. by rewrite !rload_rstore_ne.
  - unfold s', clock_add_page. change (clock_hand (_ <| clock_size ::= _ |>)) with (clock_hand s). by case_if.
Qed.

(** Appending a descriptor and putting it on the clock. *)
Lemma append_clock (s : repl K) ps l p :
  clock_ok s ps l → 0 < p → (p, sizeof_page_descriptor) ∈ l →
  (∀ q, q ∈ ps → p + sizeof_page_descriptor <= q ∨ q + sizeof_page_descriptor <= p) →
  rload s (p + pg_next) = 0 → rload s (p + pg_prev) = 0 →
  let s' := clock_add_page (append_page s p) p in
  clock_ok s' (ps ++ [p]) l ∧ rload s' (p + pg_reference) = 1 ∧
  (∀ o, 0 <= o < pg_prev → rload s' (p + o) = rload s (p + o)) ∧
  (∀ q o, q ∈ ps → 0 <= o < pg_next → rload s' (q + o) = rload s (q + o)).
Proof.
  intros Hok Hp0 Hpin Hdp Hn Hpv.
  destruct (append_page_dlist s ps l p Hok Hp0 Hpin Hdp Hn Hpv) as (Hk3 & Ht3 & Hh3 & Hc3 & Hl3 & Ho3).
  set (s3 := append_page s p) in *.
  destruct (clock_add_page_spec s3 p l Hk3 Hpin) as (Hk4 & Hr4 & Ho4 & (E1 & E2 & _ & E4 & E5)).
  set (s4 := clock_add_page s3 p) in *. split; [split|split; [done|split]].
  - done.
  - intros q [Hq|Hq%list_elem_of_singleton]%elem_of_app; [|by subst q]. by apply (clock_blocks _ _ _ Hok).
  - intros q q' [Hq|Hq%list_elem_of_singleton]%elem_of_app [Hq'|Hq'%list_elem_of_singleton]%elem_of_app Hne;
      try subst q; try subst q'; [by apply (clock_apart _ _ _ Hok)|destruct (Hdp q Hq); lia|by apply Hdp|done].
  - rewrite E1. eapply dlist_frame; [exact pg_np| |exact Hl3]. intros x Hx.
    assert (x = p ∨ p + sizeof_page_descriptor <= x ∨ x + sizeof_page_descriptor <= p) as Hxp
      by (apply elem_of_app in Hx as [Hx|Hx%list_elem_of_singleton]; [right; by apply Hdp|by left]).
    split; apply Ho4; pg_words; lia.
  - by rewrite E2, Ht3, List.last_last.
  - right. rewrite E5, Hh3.
    destruct (clock_on _ _ _ Hok) as [[-> _]|Hin]; [apply elem_of_app; right; by apply list_elem_of_singleton|].
    destruct (clock_hand s =? 0); apply elem_of_app; [right; by apply list_elem_of_singleton|by left].
  - rewrite E4, Hc3, (clock_count _ _ _ Hok).
    unfold u32. rewrite Zplus_mod_idemp_l. f_equal. rewrite length_app. simpl. lia.
  - intros o Hof. rewrite Ho4, Ho3; [done| |..]; try (pg_words; lia).
    intros Hne. destruct (Hdp (List.last ps 0)); [by apply (last_in_app pg_next pg_prev)|pg_words; lia..].
  - intros q o Hq Hof. pose proof (Hdp q Hq). rewrite Ho4, Ho3; [done|pg_words; lia| |pg_words; lia..].
    intros Hne. destruct (decide (q = List.last ps 0)) as [<-|Hq2]; [pg_words; lia|].
    destruct (clock_apart _ _ _ Hok q (List.last ps 0) Hq); [by apply (last_in_app pg_next pg_prev)|done|pg_words; lia..].
Qed.

(** Under [PR_CLOCK] [add_page] puts the new descriptor at the end of the
    list, with its reference bit set, or changes nothing when memory is short. *)
Theorem add_page_clock (s : repl K) ps l v a f pid :
  clock_ok s ps l → fits sizeof_page_descriptor → current_algorithm s = PR_CLOCK →
  ∃ s', add_page s v a f pid = Done s' ∧ current_algorithm s' = PR_CLOCK ∧
    (clock_ok s' ps l ∨
     ∃ p, clock_ok s' (ps ++ [p]) ((p, sizeof_page_descriptor) :: l) ∧
       rload s' (p + pg_vaddr) = v ∧ rload s' (p + pg_flags) = f ∧ rload s' (p + pg_reference) = 1 ∧
       ∀ q o, q ∈ ps → 0 <= o < pg_next → rload s' (q + o) = rload s (q + o)).
Proof.
  intros Hok Hfit Halg. unfold add_page.
  destruct (kmalloc_fresh _ _ _ (clock_live _ _ _ Hok) Hfit) as (p & k1 & -> & Hkp & Hcase). cbn [obind].
  set (s1 := s <| rkal := k1 |>).
  assert (∀ x, (∃ q o, q ∈ ps ∧ 0 <= o < sizeof_page_descriptor ∧ x = q + o) → rload s1 x = rload s x) as Hs1.
  { intros x (q & o & Hq & Hof & ->). apply Hkp. eexists q, _. split; [by apply (clock_blocks _ _ _ Hok)|lia]. }
  assert (∀ l', kalloc_ok k1 l' → (∀ b, b ∈ l → b ∈ l') → clock_ok s1 ps l') as Hok1.
  { intros l' Hl' Hsub. destruct Hok as [_ H2 H3 H4 H5 H6 H7]. split; try done; [intros q Hq; by apply Hsub, H2|].
    eapply dlist_frame; [exact pg_np| |exact H4]. intros x Hx.
    split; apply Hs1; exists x; [exists pg_next|exists pg_prev]; (split; [done|pg_words; lia]). }
  destruct Hcase as [[-> Hk1]|(Hp0 & _ & _ & Hd & Hk1)].
  { exists s1. split; [done|]. split; [done|]. left. by apply Hok1. }
  rewrite (proj2 (Z.eqb_neq p 0)) by lia. set (l' := (p, sizeof_page_descriptor) :: l) in *.
  specialize (Hok1 l' Hk1 ltac:(set_solver)).
  assert (∀ q, q ∈ ps → p + sizeof_page_descriptor <= q ∨ q + sizeof_page_descriptor <= p) as Hdp.
  { intros q Hq. apply (Hd q). by apply (clock_blocks _ _ _ Hok). }
  assert ((p, sizeof_page_descriptor) ∈ l') as Hpin by (unfold l'; set_solver).
  destruct (init_descriptor_spec s1 p l' v a f pid Hk1 Hpin) as ((Es2 & Hk2 & Ho2) & Hv & Hf & Hn & Hpv).
  set (s2 := init_descriptor s1 p v a f pid) in *.
  assert (clock_ok s2 ps l') as Hok2.
  { destruct Hok1 as [_ H2 H3 H4 H5 H6 H7]. rewrite Es2. split; try done.
    eapply dlist_frame; [exact pg_np| |exact H4]. intros x Hx.
    split; apply Ho2; destruct (Hdp x Hx); pg_words; lia. }
  assert (current_algorithm (append_page s2 p) = PR_CLOCK) as Ea.
  { transitivity (current_algorithm s2); [by unfold append_page; case_if|by rewrite Es2]. }
  destruct (append_clock s2 ps l' p Hok2 Hp0 Hpin Hdp Hn Hpv) as (Hok4 & Hr4 & Hpf & Hqf).
  rewrite Ea. cbn [alg_add_page]. set (s4 := clock_add_page (append_page s2 p) p) in *.
  eexists. split; [done|]. split.
  { change (current_algorithm s4 = PR_CLOCK). rewrite <- Ea. unfold s4, clock_add_page. by case_if. }
  right. exists p. split; [by destruct Hok4|].
  change (rload s4 (p + pg_vaddr) = v ∧ rload s4 (p + pg_flags) = f ∧ rload s4 (p + pg_reference) = 1 ∧
    ∀ q o, q ∈ ps → 0 <= o < pg_next → rload s4 (q + o) = rload s (q + o)).
  rewrite !Hpf by (pg_words; lia). do 3 (split; [done|]).
  intros q o Hq Hof. rewrite Hqf by done. pose proof (Hdp q Hq). rewrite Ho2 by (pg_words; lia).
  apply Hs1. exists q, o. split; [done|pg_words; lia].
Qed.

(** ** Two pages under LRU *)

(** What [add_page] leaves of a descriptor [p] under [PR_LRU]. *)
Record one_page (s : repl K) (p v : Z) (l : list (Z * Z)) : Prop := {
  one_nonnull : p ≠ 0;
  one_live : kalloc_ok (rkal s) l;
  one_block : (p, sizeof_page_descriptor) ∈ l;
  one_alg : current_algorithm s = PR_LRU;
  one_list : page_list_head s = p ∧ page_list_tail s = p ∧ pr_lru_head s = p;
  one_vaddr : rload s (p + pg_vaddr) = v;
}.

(** The manager [init] leaves. *)
Definition empty_lru (s : repl K) : Prop :=
  current_algorithm s = PR_LRU ∧ page_list_tail s = 0 ∧ pr_lru_head s = 0 ∧ total_pages s = 0.

Lemma add_first_page (s : repl K) l v a f pid :
  kalloc_ok (rkal s) l → fits sizeof_page_descriptor → empty_lru s →
  ∃ s1, add_page s v a f pid = Done s1 ∧
    (total_pages s1 = 0 ∧ kalloc_ok (rkal s1) l ∧ empty_lru s1 ∨
     total_pages s1 = 1 ∧ ∃ p, one_page s1 p v ((p, sizeof_page_descriptor) :: l)).
Proof.
  intros Hk Hfit (Ha & Ht & Hlh & Htot). unfold add_page.
  destruct (kmalloc_fresh _ _ _ Hk Hfit) as (p & k1 & -> & _ & [[-> Hk1]|(Hp0 & _ & _ & _ & Hk1)]); cbn [obind].
  { eexists. split; [done|]. left. done. }
  rewrite (proj2 (Z.eqb_neq p 0)) by lia. set (s1 := s <| rkal := k1 |>). set (l' := _ :: l) in *.
  assert ((p, sizeof_page_descriptor) ∈ l') as Hpin by (unfold l'; set_solver).
  destruct (init_descriptor_spec s1 p l' v a f pid Hk1 Hpin) as ((Es2 & Hk2 & _) & Hv & _).
  set (s2 := init_descriptor s1 p v a f pid) in *.
  assert (page_list_tail s2 = 0 ∧ pr_lru_head s2 = 0 ∧ current_algorithm s2 = PR_LRU ∧ total_pages s2 = 0)
    as (Et & El & Ea & Etot) by (rewrite Es2; done).
  assert (append_page s2 p = s2 <| page_list_head := p |> <| page_list_tail := p |>) as ->
    by (unfold append_page; by rewrite Et).
  assert (current_algorithm (s2 <| page_list_head := p |> <| page_list_tail := p |>) = PR_LRU) as -> by exact Ea.
  cbn [alg_add_page]. unfold lru_add_page, tick. cbn beta iota zeta. set (s4 := rstore _ (p + pg_union) _).
  assert (pr_lru_head s4 = 0) as -> by exact El. cbn [Z.eqb negb].
  eexists. split; [done|]. right. split.
  { change (u32 (total_pages s2 + 1) = 1). by rewrite Etot. }
  exists p. split; [lia| |done|exact Ea|done|].
  - change (kalloc_ok (rkal s4) l'). apply rkal_rstore; [exact Hk2|].
    exists p, sizeof_page_descriptor. split; [done|pg_words; lia].
  - change (rload s4 (p + pg_vaddr) = v). unfold s4. rewrite rload_rstore_ne by (pg_words; lia). exact Hv.
Qed.

Lemma add_second_page (s1 : repl K) l p1 v1 v a f pid :
  one_page s1 p1 v1 l → fits sizeof_page_descriptor →
  ∃ s2, add_page s1 v a f pid = Done s2 ∧
    (total_pages s2 = total_pages s1 ∨
     ∃ p2, p2 ≠ 0 ∧ page_list_head s2 = p1 ∧
       rload s2 (p1 + pg_vaddr) = v1 ∧ rload s2 (p1 + pg_next) = p2 ∧
       rload s2 (p2 + pg_vaddr) = v ∧ rload s2 (p2 + pg_next) = p1).
Proof.
  intros [Hp1 Hk Hb Ha (Hh & Ht & Hlh) Hv1] Hfit. unfold add_page.
  destruct (kmalloc_fresh _ _ _ Hk Hfit) as (p & k1 & -> & Hkp & [[-> _]|(Hp0 & _ & _ & Hd & Hk1)]); cbn [obind].
  { eexists. split; [done|]. by left. }
  rewrite (proj2 (Z.eqb_neq p 0)) by lia. set (sa := s1 <| rkal := k1 |>). set (l' := _ :: l) in *.
  assert ((p, sizeof_page_descriptor) ∈ l') as Hpin by (unfold l'; set_solver).
  destruct (init_descriptor_spec sa p l' v a f pid Hk1 Hpin) as ((Es2 & Hk2 & Ho2) & Hv & _).
  set (s2 := init_descriptor sa p v a f pid) in *. pose proof (Hd _ _ Hb) as Hdis.
  assert (page_list_tail s2 = p1 ∧ page_list_head s2 = p1 ∧ pr_lru_head s2 = p1 ∧ current_algorithm s2 = PR_LRU)
    as (Et & Eh & El & Ea) by (rewrite Es2; done).
  assert (rload s2 (p1 + pg_vaddr) = v1) as Ev1.
  { rewrite Ho2 by (pg_words; lia). transitivity (rload s1 (p1 + pg_vaddr)); [|done].
    apply Hkp. exists p1, sizeof_page_descriptor. split; [done|pg_words; lia]. }
  rewrite append_page_fields by (by rewrite Et). rewrite Et.
  set (s3 := rstore (rstore s2 _ _) _ _).
  assert (current_algorithm (s3 <| page_list_tail := p |>) = PR_LRU) as -> by exact Ea.
  cbn [alg_add_page]. unfold lru_add_page, tick. cbn beta iota zeta.
  set (s4 := rstore _ (p + pg_union) _).
  assert (pr_lru_head s4 = p1) as -> by exact El. rewrite (proj2 (Z.eqb_neq p1 0)) by done. cbn [negb].
  set (s5 := rstore s4 (p1 + pg_prev) p). assert (pr_lru_head s5 = p1) as -> by exact El.
  eexists. split; [done|]. right. exists p. split; [lia|]. split; [exact Eh|].
  set (s6 := rstore s5 (p + pg_next) p1).
  change (rload s6 (p1 + pg_vaddr) = v1 ∧ rload s6 (p1 + pg_next) = p ∧ rload s6 (p + pg_vaddr) = v ∧ rload s6 (p + pg_next) = p1).
  assert (∀ x, rload s4 x = if decide (x = p + pg_union) then u32 (time_counter s2) else rload s3 x) as E4.
  { intros x. unfold s4. case_decide as E; [by rewrite E, rload_rstore_eq|]. by rewrite rload_rstore_ne by congruence. }
  unfold s6, s5. split; [|split; [|split]].
  - rewrite !rload_rstore_ne, E4, decide_False by (pg_words; lia). unfold s3. by rewrite !rload_rstore_ne by (pg_words; lia).
  - rewrite !rload_rstore_ne, E4, decide_False by (pg_words; lia). unfold s3.
    rewrite rload_rstore_ne by (pg_words; lia). apply rload_rstore_eq.
  - rewrite !rload_rstore_ne, E4, decide_False by (pg_words; lia). unfold s3. by rewrite !rload_rstore_ne by (pg_words; lia).
  - apply rload_rstore_eq.
Qed.

(** Under [PR_LRU], which [init] selects, the page list and the LRU list
    are linked through the same two fields: after two pages were added the
    list is a cycle, so looking up any other page never returns, whatever the
    fuel. *)
Theorem lru_two_pages_diverge fuel (s0 s1 s2 : repl K) l v1 a1 f1 pid1 v2 a2 f2 pid2 v :
  kalloc_ok (rkal s0) l → fits sizeof_page_descriptor →
  add_page (pr_init s0) v1 a1 f1 pid1 = Done s1 → add_page s1 v2 a2 f2 pid2 = Done s2 →
  total_pages s2 = 2 → v ≠ v1 → v ≠ v2 →
  update_page_access fuel s2 v = OutOfFuel ∧ remove_page fuel s2 v = OutOfFuel.
Proof.
  intros Hk Hfit E1 E2 Ht Hv1 Hv2.
  destruct (add_first_page (pr_init s0) l v1 a1 f1 pid1 Hk Hfit) as (s1' & E1' & Hc); [done|]. rewrite E1 in E1'. injection E1' as <-.
  destruct Hc as [(_ & Hk1 & Es1)|(Ht1 & p1 & H1)].
  { destruct (add_first_page s1 l v2 a2 f2 pid2 Hk1 Hfit Es1) as (s2' & E2' & Hc).
    rewrite E2 in E2'. injection E2' as <-. destruct Hc as [[? _]|[? _]]; lia. }
  destruct (add_second_page s1 _ p1 v1 v2 a2 f2 pid2 H1 Hfit) as (s2' & E2' & Hc). rewrite E2 in E2'. injection E2' as <-.
  destruct Hc as [?|(p2 & Hp2 & Hh & Hva1 & Hn1 & Hva2 & Hn2)]; [lia|].
  assert (find_page fuel s2 v = OutOfFuel) as Hfind; [|unfold update_page_access, remove_page; by rewrite Hfind].
  unfold find_page. rewrite Hh. apply (loop_diverges (fun p => p = p1 ∨ p = p2)); [|by left].
  pose proof (one_nonnull _ _ _ _ H1). intros p [-> | ->].
  - rewrite (proj2 (Z.eqb_neq p1 0)), Hva1, (proj2 (Z.eqb_neq v1 v)), Hn1 by done. eauto.
  - rewrite (proj2 (Z.eqb_neq p2 0)), Hva2, (proj2 (Z.eqb_neq v2 v)), Hn2 by done. eauto.
Qed.

End Spec.

(** ** Concrete runs *)

Definition bare_repl : repl bump := pr_init (mk_repl (mk_bump ∅ 0x1000) PR_LRU 0 0 0 0 [] zero_stats 0 0 0 0 0 0).

(** The clock, chosen while there is no page, and three pages. *)
Definition clock_run : outcome (repl bump) :=
  let* s := set_algorithm 1 bare_repl 2 in
  let* s := add_page s 0x40000000 0x300000 0 1 in
  let* s := add_page s 0x40001000 0x301000 PR_FLAG_LOCKED 1 in
  add_page s 0x40002000 0x302000 0 1.
Definition clock_mm : repl bump := match clock_run with Done s => s | _ => bare_repl end.

(** Each page added while the allocator answers grows the list. *)
Lemma add_page_grows {K} `{KAllocLaws K} (s s' : repl K) ps l v a f pid :
  clock_ok s ps l → fits sizeof_page_descriptor → current_algorithm s = PR_CLOCK →
  add_page s v a f pid = Done s' → clock_size s' ≠ clock_size s →
  current_algorithm s' = PR_CLOCK ∧ ∃ p l', clock_ok s' (ps ++ [p]) l'.
Proof.
  intros Hok Hfit Ha E Hne. destruct (add_page_clock s ps l v a f pid Hok Hfit Ha) as (s2 & E2 & Ha2 & Hc).
  rewrite E in E2. injection E2 as <-. split; [done|].
  destruct Hc as [Hok'|(p & Hok' & _)]; [|eauto].
  destruct Hne. by rewrite (clock_count _ _ _ Hok'), (clock_count _ _ _ Hok).
Qed.

Definition clock_mm0 : repl bump := match set_algorithm 1 bare_repl 2 with Done s => s | _ => bare_repl end.
Definition clock_mm1 : repl bump :=
  match add_page clock_mm0 0x40000000 0x300000 0 1 with Done s => s | _ => bare_repl end.
Definition clock_mm2 : repl bump :=
  match add_page clock_mm1 0x40001000 0x301000 PR_FLAG_LOCKED 1 with Done s => s | _ => bare_repl end.

Lemma clock_mm0_ok : clock_ok clock_mm0 [] [].
Proof.
  split.
  - split; [done|]. split; [by exists 0x400|]. split; [done|]. intros p n Hp. by apply elem_of_nil in Hp.
  - intros p Hp. by apply elem_of_nil in Hp.
  - intros p q Hp. by apply elem_of_nil in Hp.
  - apply dlist_intro; [reflexivity|exact I|constructor|intros x y Hx; by apply elem_of_nil in Hx].
  - reflexivity.
  - left. split; reflexivity.
  - reflexivity.
Qed.

Lemma clock_mm_ok : ∃ ps l, clock_ok clock_mm ps l ∧ length ps = 3%nat.
Proof.
  assert (add_page clock_mm0 0x40000000 0x300000 0 1 = Done clock_mm1) as E1 by (vm_compute; reflexivity).
  assert (add_page clock_mm1 0x40001000 0x301000 PR_FLAG_LOCKED 1 = Done clock_mm2) as E2 by (vm_compute; reflexivity).
  assert (add_page clock_mm2 0x40002000 0x302000 0 1 = Done clock_mm) as E3 by (vm_compute; reflexivity).
  assert (fits sizeof_page_descriptor) as Hfit by (vm_compute; reflexivity).
  assert (clock_size clock_mm1 ≠ clock_size clock_mm0 ∧ clock_size clock_mm2 ≠ clock_size clock_mm1 ∧
    clock_size clock_mm ≠ clock_size clock_mm2) as (N1 & N2 & N3) by (vm_compute; repeat split; discriminate).
  destruct (add_page_grows _ _ _ _ _ _ _ _ clock_mm0_ok Hfit eq_refl E1 N1) as (Ha1 & p1 & l1 & H1).
  destruct (add_page_grows _ _ _ _ _ _ _ _ H1 Hfit Ha1 E2 N2) as (Ha2 & p2 & l2 & H2).
  destruct (add_page_grows _ _ _ _ _ _ _ _ H2 Hfit Ha2 E3 N3) as (_ & p3 & l3 & H3).
  exists (([p1] ++ [p2]) ++ [p3]), l3. exact (conj H3 eq_refl).
Qed.

Lemma clock_find_victim_spec_witness :
  ∃ ps l, clock_ok clock_mm ps l ∧ ∃ passed v s',
    clock_find_victim 3 clock_mm = Done (v, s') ∧ clock_ok s' ps l ∧ swept clock_mm passed s' ∧
    Forall (fun p => evictable clock_mm p = false) passed ∧
    ((∃ rest, ps ++ [] = passed ++ v :: rest ∧ evictable clock_mm v = true ∧ clock_hand s' = hd (hd 0 (ps ++ [])) rest) ∨
     passed = ps ++ [] ∧ v = hd 0 (ps ++ []) ∧ clock_hand s' = v).
Proof.
  destruct clock_mm_ok as (ps & l & Hok & Hl). exists ps, l. split; [exact Hok|].
  apply (clock_find_victim_spec 3 clock_mm ps l [] ps Hok).
  - reflexivity.
  - intros ->. discriminate.
  - transitivity (page_list_head clock_mm); [vm_compute; reflexivity|]. apply (clock_list _ _ _ Hok).
  - vm_compute. discriminate.
  - rewrite Hl. constructor.
Defined.

(** The page that is hot is the victim of enhanced LRU: of two unlocked clean
    pages read at the same time, the lower score is that of the page with the
    higher access count. *)
Example enhanced_evicts_hot :
  let s0 := match (let* s := set_algorithm 1 bare_repl 3 in add_page s 0x40000000 0x300000 0 1) with
            | Done s => s | _ => bare_repl end in
  let cold := page_list_head s0 in
  let hot := rstore s0 (cold + pg_count) 1000 in
  (fst (calculate_page_score s0 cold), fst (calculate_page_score hot cold)) = (1000, 1).
Proof. vm_compute. reflexivity. Qed.

Definition lru_run1 : outcome (repl bump) := add_page bare_repl 0x40000000 0x300000 0 1.
Definition lru_mm1 : repl bump := match lru_run1 with Done s => s | _ => bare_repl end.
Definition lru_run2 : outcome (repl bump) := add_page lru_mm1 0x40001000 0x301000 0 1.
Definition lru_mm2 : repl bump := match lru_run2 with Done s => s | _ => bare_repl end.

Lemma lru_two_pages_diverge_witness :
  total_pages lru_mm2 = 2 ∧ update_page_access 100 lru_mm2 0x40002000 = OutOfFuel ∧
  remove_page 100 lru_mm2 0x40002000 = OutOfFuel.
Proof.
  split; [vm_compute; reflexivity|].
  apply (lru_two_pages_diverge 100 bare_repl lru_mm1 lru_mm2 [] 0x40000000 0x300000 0 1 0x40001000 0x301000 0 1).
  - split; [done|]. split; [by exists 0x400|]. split; [done|]. intros p n Hp. by apply elem_of_nil in Hp.
  - done.
  - vm_compute. reflexivity.
  - vm_compute. reflexivity.
  - vm_compute. reflexivity.
  - discriminate.
  - discriminate.
Defined.
