(* ===== verification/CowSpec.v ===== *)
(** The copy-on-write manager's contract: what a write fault on a shared page
    does, to the faulting directory and to the frame the others still map. *)

From Stdlib Require Import ZArith Lia.
From stdpp Require Import base list gmap option sets.
From coqutil Require Import Datatypes.RecordSetters.
From S2P Require Import Prelude Memory KAlloc Bump Mm Vmm Swap Paging VmmSpec Cow.
Import TriangleBracketNotations.

Definition mload8 {K} `{KAlloc K} (s : mm K) (a : Z) : Z := kload8 (kal s) a.

Section Spec.
Context {K : Type} `{KAllocLaws K} `{!SlabCaches K}.

(** ** Finding a page *)

Lemma find_cow_page_found fuel (s : mm K) phys c :
  find_cow_page fuel s phys = Done c → c ≠ 0 →
  mload s (c + cw_physical) = phys ∧ mload s (c + cw_magic) = COW_MAGIC.
Proof.
  intros E Hc. unfold find_cow_page in E.
  refine (loop_inv (fun _ => True) (fun c => c ≠ 0 → mload s (c + cw_physical) = phys ∧ mload s (c + cw_magic) = COW_MAGIC)
    _ _ _ _ _ I E Hc).
  intros p _. destruct (Z.eqb_spec p 0); [done|].
  destruct (Z.eqb_spec (mload s (p + cw_physical)) phys); [|done].
  destruct (Z.eqb_spec (mload s (p + cw_magic)) COW_MAGIC); done.
Qed.

(** ** Copying a frame *)

(** The bytes of a frame. *)
Definition frame_word (f a : Z) : Prop := f * FRAME_SIZE <= a < f * FRAME_SIZE + FRAME_SIZE.

Lemma frame_byte_word f i : 0 <= i < FRAME_SIZE → frame_word f (f * FRAME_SIZE + i - (f * FRAME_SIZE + i) mod 4).
Proof.
  intros Hi. unfold frame_word, FRAME_SIZE in *. pose proof (Z.mod_pos_bound (f * 4096 + i) 4 ltac:(lia)).
  assert ((f * 4096 + i) mod 4 = i mod 4) as ->.
  { replace (f * 4096 + i) with (i + f * 1024 * 4) by lia. apply Z.mod_add. lia. }
  pose proof (Z.mod_le i 4). pose proof (Z.mod_pos_bound i 4). lia.
Qed.

(** The copy changes the words of the new frame only, and it is a copy. *)
Lemma copy_page_spec (s : mm K) l f g :
  kalloc_ok (kal s) ((g * FRAME_SIZE, FRAME_SIZE) :: l) → f ≠ g →
  ∃ k, copy_page s (g * FRAME_SIZE) (f * FRAME_SIZE) = set_kal s k ∧
    kalloc_ok k ((g * FRAME_SIZE, FRAME_SIZE) :: l) ∧ (∀ a, ¬ frame_word g a → kload k a = mload s a) ∧
    ∀ i, 0 <= i < FRAME_SIZE → kload8 k (g * FRAME_SIZE + i) = mload8 s (f * FRAME_SIZE + i).
Proof.
  intros Hk Hne. unfold copy_page. set (ng := g * FRAME_SIZE) in *. set (nf := f * FRAME_SIZE).
  assert (∀ i, 0 <= i < FRAME_SIZE → frame_word g (ng + i - (ng + i) mod 4)) as Hw
    by (intros; by apply frame_byte_word).
  eexists. split; [reflexivity|].
  destruct (for_inv (fun n k => kalloc_ok k ((ng, FRAME_SIZE) :: l) ∧
      (∀ a, ¬ frame_word g a → kload k a = mload s a) ∧
      ∀ i, 0 <= i < n → kload8 k (ng + i) = mload8 s (nf + i))
    (fun i k => kstore8 k (ng + i) (kload8 k (nf + i))) 4096 (kal s)) as (Hk' & Ho & Hc); [done|..].
  - split; [done|]. split; [done|lia].
  - intros j k Hj (Hk' & Ho & Hc). specialize (Hw j Hj). split; [|split].
    + apply kwrite_own; [done|]. intros a Ha. unfold kload. rewrite load_store8_ne; [done|].
      intros <-. apply Ha. apply in_blocks_cons. left. exact Hw.
    + intros a Ha. unfold kload, kstore8. rewrite kmem_with, load_store8_ne; [by apply Ho|]. by intros <-.
    + intros i Hi. unfold kload8, kstore8. rewrite kmem_with.
      destruct (decide (i = j)) as [->|Hij].
      * rewrite load8_store8_eq, u8_small by apply load8_range. unfold mload8, kload8, load8. f_equal. f_equal.
        apply Ho. intros Hf. pose proof (frame_byte_word f j Hj). unfold frame_word, nf, FRAME_SIZE in *. lia.
      * rewrite load8_store8_ne by lia. apply Hc. lia.
  - done.
Qed.

(** ** Write faults *)

Lemma alloc_frame_lowest fuel fw (s : mm K) g :
  bitmap_ok (frame_bitmap s) → 0 <= g < MAX_FRAMES → used (frame_bitmap s) g = false →
  (∀ h, 0 <= h < g → used (frame_bitmap s) h = true) →
  ∃ s', alloc_frame fuel fw s = Done (g * FRAME_SIZE, s') ∧ frame_taken s g s'.
Proof.
  intros Hb Hg Hu Hmin. pose proof (take_frame_spec s Hb) as Ht.
  destruct (take_frame s) as [[a s']|] eqn:E; [|by rewrite Ht in Hu].
  destruct Ht as (h & -> & Ht). pose proof Ht as (Hh & Hhu & Hhm & _).
  assert (h = g) as ->.
  { destruct (decide (h < g)); [by rewrite Hmin in Hhu by lia|].
    destruct (decide (g < h)); [by rewrite Hhm in Hu by lia|lia]. }
  exists s'. split; [|done]. unfold alloc_frame. destruct fuel; cbn [alloc_frame_at]; by rewrite E.
Qed.

(** A state that agrees on the words of the directory's blocks. *)
Lemma pd_blocks_agree (s s' : mm K) pd l :
  pd_ok s pd l → (∀ a, in_blocks l a → mload s' a = mload s a) →
  pd_ok s' pd l ∧ ∀ va, 0 <= va < 2 ^ 32 → translate s' pd va = translate s pd va.
Proof.
  intros Hpd Ha.
  assert (∀ a, pd <= a < pd + sizeof_page_directory → mload s' a = mload s a) as Hin
    by (intros a Hin; apply Ha; eexists _, _; split; [apply (pd_block _ _ _ Hpd)|done]).
  apply pd_words_agree; [done|..].
  - intros i Hi. apply Hin. pd_words. lia.
  - intros i Hi _. apply Hin. pd_words. lia.
  - intros i a Hi Hp Hw. apply Ha. destruct (pd_tables _ _ _ Hpd i Hi Hp) as (_ & Ht & _). by eexists _, _.
Qed.

(** Mapping a page whose table exists is one store. *)
Lemma map_page_present fuel fw (s : mm K) pd va pa flags :
  present s pd (VADDR_PD_OFFSET va) → table_of s pd (VADDR_PD_OFFSET va) ≠ 0 →
  let e := pte_addr (table_of s pd (VADDR_PD_OFFSET va)) va in
  map_page fuel fw s pd va pa flags =
    Done (0, mstore s e (pte_assign (mload s e) (has_flag flags PG_PRESENT) (has_flag flags PG_WRITE)
                           (has_flag flags PG_USER) (Z.shiftr pa 12))).
Proof.
  intros Hp Ht e. unfold map_page, get_page_table. unfold present in Hp. rewrite Hp. cbn [negb obind].
  change (mload s (pd_table pd (VADDR_PD_OFFSET va))) with (table_of s pd (VADDR_PD_OFFSET va)).
  by rewrite (proj2 (Z.eqb_neq _ 0)) by done.
Qed.

(** Giving a mapped page a new frame, the way [break_cow] does. *)
Lemma remap_page fuel fw (s : mm K) L l pd va f g wr us :
  kalloc_ok (kal s) L → (∀ b, b ∈ l → b ∈ L) → pd_ok s pd l → 0 <= va < 2 ^ 32 → bitmap_ok (frame_bitmap s) →
  translate s pd va = Some (f, wr, us) → 0 <= g < MAX_FRAMES →
  ∃ s' e, map_page fuel fw (unmap_page s pd va) pd va (g * FRAME_SIZE) 7 = Done (0, s') ∧
    kalloc_ok (kal s') L ∧ pd_ok s' pd l ∧
    (∀ va', 0 <= va' < 2 ^ 32 →
      translate s' pd va' = if decide (vpage va' = vpage va) then Some (g, true, true) else translate s pd va') ∧
    (∃ t, (t, 4096) ∈ l ∧ t <= e < t + 4096) ∧
    (∀ a, a ≠ e → mload s' a = mload s a) ∧ (∀ b, b - b mod 4 ≠ e → mload8 s' b = mload8 s b) ∧
    bitmap_ok (frame_bitmap s') ∧
    (∀ h, 0 <= h → used (frame_bitmap s') h = negb (bool_decide (h = f)) && used (frame_bitmap s) h) ∧
    cow s' = cow s.
Proof.
  intros Hk Hsub Hpd Hva Hb Etr Hg. destruct (translate_some s pd va f wr us Etr) as (Hp & Ht0 & _ & _ & _ & Hf).
  destruct (offsets_range va Hva) as [Hi Hj].
  destruct (pd_tables _ _ _ Hpd _ Hi Hp) as (_ & Htin & _).
  rewrite (unmap_page_mapped s pd va f wr us Etr). cbn zeta.
  set (t := table_of s pd (VADDR_PD_OFFSET va)) in *. set (e := pte_addr t va).
  set (w := pte_set (mload s e) 0 false). set (sA := mstore s e w). set (sB := free_frame sA (f * FRAME_SIZE)).
  destruct (write_pte_sub s pd L l va w Hk Hsub Hpd Hva Hp) as (HkA & HpdA & HtrA). fold t e sA in HkA, HpdA, HtrA.
  destruct (free_frame_spec sA f 0 Hb Hf) as (HbB & _ & HuB & EB); [done|].
  rewrite Z.add_0_r in HbB, HuB, EB. fold sB in HbB, HuB, EB.
  assert (kal sB = kal sA ∧ cow sB = cow s) as [Ek Ecow] by (rewrite EB; by destruct s).
  assert (∀ a, pd <= a < pd + sizeof_page_directory → mload sB a = mload s a) as HpdB.
  { intros a Ha. unfold mload. rewrite Ek. apply kload_kstore_ne.
    destruct (pd_tables _ _ _ Hpd _ Hi Hp) as (_ & _ & Hdis). fold t in Hdis. unfold e. pd_words. lia. }
  assert (table_of sB pd (VADDR_PD_OFFSET va) = t) as EtB by (apply HpdB; pd_words; lia).
  assert (present sB pd (VADDR_PD_OFFSET va)) as HpB by (unfold present; rewrite HpdB; [done|pd_words; lia]).
  rewrite map_page_present, EtB by (rewrite ?EtB; done). fold e. cbn zeta. set (w1 := pte_assign _ _ _ _ _).
  destruct (write_pte_sub sB pd L l va w1) as (HkC & HpdC & HtrC);
    [by rewrite Ek|done|by apply (same_kal_pd_ok sA)|done|done|]. rewrite EtB in HkC, HpdC, HtrC. fold e in HkC, HpdC, HtrC.
  exists (mstore sB e w1), e. split; [done|]. split; [done|]. split; [done|].
  assert (∃ t, (t, 4096) ∈ l ∧ t <= e < t + 4096) as Hin by (exists t; split; [done|unfold e; pd_words; lia]).
  split; [|split; [done|split; [|split; [|split; [done|split; [done|done]]]]]].
  - intros va' Hva'. rewrite HtrC by done. case_decide as Ev.
    + unfold decode, w1.
      assert (0 <= Z.shiftr (g * FRAME_SIZE) 12 < 2 ^ 20 ∧ Z.shiftr (g * FRAME_SIZE) 12 = g) as [Hr Eg].
      { rewrite Z.shiftr_div_pow2 by lia. unfold FRAME_SIZE. change (2 ^ 12) with 4096. rewrite Z.div_mul by lia. done. }
      destruct (pte_assign_spec (mload sB e) (has_flag 7 PG_PRESENT) (has_flag 7 PG_WRITE) (has_flag 7 PG_USER) _ Hr)
        as (-> & -> & -> & ->). by rewrite Eg.
    + rewrite (same_kal_translate sA) by done. rewrite HtrA by done. by rewrite decide_False by done.
  - intros a Ha. rewrite mload_mstore_ne by congruence. unfold mload. rewrite Ek. by apply kload_kstore_ne.
  - intros b Hbw. unfold mload8, kload8. change (kmem (kal (mstore sB e w1))) with (kmem (kstore (kal sB) e w1)).
    rewrite Ek. change (kal sA) with (kstore (kal s) e w). unfold kstore. rewrite !kmem_with.
    by rewrite !load8_store_ne by congruence.
Qed.

(** The page of an address. *)
Lemma page_of va :
  0 <= va < 2 ^ 32 →
  let page := Z.land va 0xFFFFF000 in 0 <= page < 2 ^ 32 ∧ vpage page = vpage va ∧ page mod FRAME_SIZE = 0.
Proof.
  intros Hva page. assert (page = va / 2 ^ 12 * 2 ^ 12) as ->.
  { unfold page. change 0xFFFFF000 with (u32 (Z.lnot (2 ^ 12 - 1))). by rewrite land_align by lia. }
  unfold vpage, FRAME_SIZE. change (2 ^ 12) with 4096. pose proof (Z.div_mod va 4096 ltac:(lia)).
  pose proof (Z.mod_pos_bound va 4096 ltac:(lia)). rewrite Z.div_mul, Z.mod_mul by lia.
  split; [|done]. split; [|lia]. apply Z.mul_nonneg_nonneg; [apply Z.div_pos; lia|lia].
Qed.

Lemma translate_page (s : mm K) pd va va' :
  0 <= va < 2 ^ 32 → 0 <= va' < 2 ^ 32 → vpage va' = vpage va → translate s pd va' = translate s pd va.
Proof.
  intros Hva Hva' E. apply vpage_offsets in E as [E1 E2]; [|done..].
  rewrite !translate_eq. unfold pte_addr. by rewrite E1, E2.
Qed.

(** Dropping one reference of several. *)
Lemma dec_cow_ref_shared (s : mm K) c :
  c ≠ 0 → mload s (c + cw_magic) = COW_MAGIC → 2 <= mload s (c + cw_refs) →
  dec_cow_ref s c = Done (mstore s (c + cw_refs) (mload s (c + cw_refs) - 1)).
Proof.
  intros Hc Hm Hr. unfold dec_cow_ref. rewrite (proj2 (Z.eqb_neq c 0)), Hm, Z.eqb_refl by done. cbn [orb negb].
  rewrite (proj2 (Z.ltb_lt 0 _)) by lia. rewrite mload_mstore_eq. by rewrite (proj2 (Z.eqb_neq _ 0)) by lia.
Qed.

(** The state a write fault finds: page [va] maps frame [f] shared by the
    COW page [c], and [g] is the lowest free frame.  The frame [g] and the
    descriptor [c] are memory apart from the directory's. *)
Record shared_page (fuel : nat) (s : mm K) (pd va f g c : Z) (l : list (Z * Z)) : Prop := {
  sp_live : kalloc_ok (kal s) ((g * FRAME_SIZE, FRAME_SIZE) :: (c, sizeof_cow_page) :: l);
  sp_frame : block_disjoint (g * FRAME_SIZE) FRAME_SIZE ((c, sizeof_cow_page) :: l);
  sp_cow : block_disjoint c sizeof_cow_page l;
  sp_pd : pd_ok s pd l;
  sp_bitmap : bitmap_ok (frame_bitmap s);
  sp_mapped : ∃ wr us, translate s pd va = Some (f, wr, us);
  sp_used : 0 < f ∧ used (frame_bitmap s) f = true;
  sp_free : 0 < g < MAX_FRAMES ∧ used (frame_bitmap s) g = false;
  sp_lowest : ∀ h, 0 <= h < g → used (frame_bitmap s) h = true;
  sp_found : find_cow_page fuel s (f * FRAME_SIZE) = Done c ∧ c ≠ 0;
  sp_shared : 2 <= mload s (c + cw_refs);
}.

(** What the fault leaves. *)
Record private_copy (s : mm K) (pd va f g c : Z) (s' : mm K) : Prop := {
  pc_translate va' : 0 <= va' < 2 ^ 32 →
    translate s' pd va' = if decide (vpage va' = vpage va) then Some (g, true, true) else translate s pd va';
  pc_content i : 0 <= i < FRAME_SIZE → mload8 s' (g * FRAME_SIZE + i) = mload8 s (f * FRAME_SIZE + i);
  pc_refs : mload s' (c + cw_refs) = mload s (c + cw_refs) - 1;
  pc_new : used (frame_bitmap s') g = true;
  pc_old : used (frame_bitmap s') f = false;
}.

Lemma break_cow_shared fuel fw (s : mm K) pd va f g c l :
  0 <= va < 2 ^ 32 → va mod FRAME_SIZE = 0 → shared_page fuel s pd va f g c l →
  ∃ s', break_cow fuel fw s pd va = Done (0, s') ∧ private_copy s pd va f g c s'.
Proof.
  intros Hva Hal [Hk Hdf Hdc Hpd Hb (wr & us & Etr) [Hf0 Hfu] [Hg Hgu] Hlow [Hfind Hc0] Hsh].
  destruct (find_cow_page_found _ _ _ _ Hfind Hc0) as [_ Hmagic].
  assert (f ≠ g) as Hfg by congruence.
  unfold break_cow. rewrite get_physical_addr_spec, Etr, Hal, Z.add_0_r by done.
  rewrite (proj2 (Z.eqb_neq (f * FRAME_SIZE) 0)) by (unfold FRAME_SIZE; lia). rewrite Hfind. cbn [obind].
  rewrite (proj2 (Z.eqb_neq c 0)), (proj2 (Z.eqb_neq (mload s (c + cw_refs)) 1)) by lia.
  destruct (alloc_frame_lowest fuel fw s g Hb ltac:(lia) Hgu Hlow) as (s1 & -> & Ht1). cbn [obind].
  rewrite (proj2 (Z.eqb_neq (g * FRAME_SIZE) 0)) by (unfold FRAME_SIZE; lia).
  pose proof (frame_taken_kal _ _ _ Ht1) as E1. destruct Ht1 as (_ & _ & _ & Hb1 & _ & Hu1 & Es1).
  destruct (copy_page_spec s1 ((c, sizeof_cow_page) :: l) f g ltac:(by rewrite E1) Hfg) as (k2 & -> & Hk2 & Ho2 & Hc2).
  set (s2 := set_kal s1 k2).
  assert (∀ a, in_blocks ((c, sizeof_cow_page) :: l) a → mload s2 a = mload s a) as Hs2.
  { intros a (q & m & Hq & Ha). transitivity (mload s1 a); [|unfold mload; by rewrite E1].
    apply Ho2. unfold frame_word. destruct (Hdf _ _ Hq); lia. }
  destruct (pd_blocks_agree s s2 pd l Hpd) as [Hpd2 Htr2]; [intros a Ha; apply Hs2, in_blocks_cons; by right|].
  cbn zeta. change (Z.lor (Z.lor PG_PRESENT PG_WRITE) PG_USER) with 7.
  destruct (remap_page fuel fw s2 _ l pd va f g wr us Hk2 ltac:(set_solver) Hpd2 Hva Hb1 ltac:(by rewrite Htr2) ltac:(lia))
    as (s3 & e & -> & Hk3 & Hpd3 & Htr3 & (t & Ht & He) & Ho3 & Hb3 & _ & Hu3 & _). cbn [obind Z.eqb].
  assert (∀ a, c <= a < c + sizeof_cow_page → mload s3 a = mload s a) as Hcow.
  { intros a Ha. rewrite Ho3 by (destruct (Hdc _ _ Ht); lia). apply Hs2, in_blocks_cons. by left. }
  rewrite dec_cow_ref_shared; [|done|rewrite Hcow; [done|..]|rewrite Hcow; [done|..]];
    try (unfold cw_magic, cw_refs, sizeof_cow_page; lia).
  cbn [obind]. set (r := mload s3 (c + cw_refs) - 1). set (s4 := mstore s3 (c + cw_refs) r).
  destruct (pd_blocks_agree s3 s4 pd l Hpd3) as [_ Htr4].
  { intros a Ha. apply mload_mstore_ne. intros <-. apply (disjoint_not_in _ _ _ (c + cw_refs) Hdc); [|done].
    unfold cw_refs, sizeof_cow_page. lia. }
  exists (load_cr3 s4 pd). split; [done|]. split.
  - intros va' Hva'. rewrite (same_kal_translate s4) by done. rewrite Htr4, Htr3 by done. case_decide; [done|].
    by apply Htr2.
  - intros i Hi. pose proof (frame_byte_word g i Hi) as Hw. unfold frame_word in Hw.
    change (kload8 (kal s4) (g * FRAME_SIZE + i) = mload8 s (f * FRAME_SIZE + i)).
    transitivity (mload8 s3 (g * FRAME_SIZE + i)).
    { unfold s4, mstore, mload8, kload8. change (kal (set_kal s3 ?k)) with k. unfold kstore. rewrite kmem_with.
      apply load8_store_ne. destruct (Hdf c sizeof_cow_page ltac:(set_solver)); unfold cw_refs, sizeof_cow_page in *; lia. }
    rewrite Hb3 by (destruct (Hdf t 4096 ltac:(set_solver)); lia).
    transitivity (mload8 s1 (f * FRAME_SIZE + i)); [by apply Hc2|]. unfold mload8. by rewrite E1.
  - change (mload s4 (c + cw_refs) = mload s (c + cw_refs) - 1). unfold s4. rewrite mload_mstore_eq. unfold r.
    rewrite Hcow; [done|]. unfold cw_refs, sizeof_cow_page. lia.
  - change (used (frame_bitmap s3) g = true). rewrite Hu3 by lia. change (frame_bitmap s2) with (frame_bitmap s1).
    rewrite Hu1 by lia. rewrite bool_decide_eq_false_2, bool_decide_eq_true_2 by congruence. done.
  - change (used (frame_bitmap s3) f = false). rewrite Hu3 by lia. by rewrite bool_decide_eq_true_2.
Qed.

(** C37. A write fault on a page shared copy-on-write returns 0 and gives the
    faulting directory a private copy: the page maps a fresh frame with the
    same bytes, writable, every other page as before, and the COW page has one
    reference less.  But the old frame, which the remaining references still
    map, is marked free: [unmap_page] frees the frame of the page it unmaps,
    so the next [alloc_frame] may hand it out again. *)
Theorem cow_fault_frees_shared_frame fuel fw (s : mm K) pd va f g c l error_code :
  0 <= va < 2 ^ 32 → has_flag error_code 2 = true → shared_page fuel s pd va f g c l →
  ∃ s', handle_cow_fault fuel fw s pd va error_code = Done (0, s') ∧ private_copy s pd va f g c s'.
Proof.
  intros Hva Herr Hsp. destruct (page_of va Hva) as (Hp & Hpg & Hp0).
  set (page := Z.land va 0xFFFFF000) in *.
  pose proof (translate_page s pd va page Hva Hp Hpg) as Etr.
  assert (shared_page fuel s pd page f g c l) as Hsp'.
  { destruct Hsp as [? ? ? ? ? Hm ? ? ? ? ?]. split; try done. by rewrite Etr. }
  destruct (break_cow_shared fuel fw s pd page f g c l Hp Hp0 Hsp') as (s' & E & [H1 H2 H3 H4 H5]).
  exists s'. split; [|split; try done; intros va' Hva'; by rewrite H1, Hpg].
  destruct Hsp' as [_ _ _ _ _ (wr & us & Em) [Hf _] _ _ [Hfind Hc] Hsh].
  unfold handle_cow_fault. rewrite Herr. cbn [negb]. fold page.
  rewrite get_physical_addr_spec, Em, Hp0, Z.add_0_r by done.
  rewrite (proj2 (Z.eqb_neq (f * FRAME_SIZE) 0)) by (unfold FRAME_SIZE; lia). rewrite Hfind. cbn [obind].
  rewrite (proj2 (Z.eqb_neq c 0)), (proj2 (Z.leb_gt _ 1)) by lia. exact E.
Qed.
End Spec.

(** ** Concrete runs

    A parent that maps one page, forked once: both map frame 258 read-only. *)

Definition fork_va : Z := 0x40000000.

Definition fork_run : outcome (Z * Z * mm bump) :=
  let* s := cow_init bare_mm in
  let* (parent, s) := create_page_directory 0 0 s in
  let* (child, s) := create_page_directory 0 0 s in
  let* (frame, s) := alloc_frame 0 0 s in
  let* (_, s) := map_page 0 0 s parent fork_va frame 7 in
  let* (_, s) := cow_copy_page_range 8 0 s child parent fork_va (fork_va + 4096) in
  Done (parent, child, s).
#[local] Opaque fork_run.

Definition fork_parent : Z := match fork_run with Done (p, _, _) => p | _ => 0 end.
Definition fork_child : Z := match fork_run with Done (_, c, _) => c | _ => 0 end.
Definition fork_mm : mm bump := match fork_run with Done (_, _, s) => s | _ => bare_mm end.
Definition fork_cow : Z := cow_pages (cow fork_mm).
Definition fork_table : Z := table_of fork_mm fork_child 256.
Definition fork_l : list (Z * Z) := [(fork_child, sizeof_page_directory); (fork_table, 4096)].

(** A directory with one table. *)
Definition one_tableb (s : mm bump) (pd k : Z) : bool :=
  forallb (fun i => (i =? k) || negb (pte_present (mload s (pd_entry pd i)))) (map Z.of_nat (seq 0 1024)).

Lemma pd_ok_one (s : mm bump) pd k l :
  (pd, sizeof_page_directory) ∈ l → one_tableb s pd k = true →
  table_of s pd k ≠ 0 → (table_of s pd k, 4096) ∈ l →
  pd + sizeof_page_directory <= table_of s pd k ∨ table_of s pd k + 4096 <= pd → pd_ok s pd l.
Proof.
  intros Hpd Hone Ht0 Ht Hd.
  assert (∀ i, 0 <= i < 1024 → present s pd i → i = k) as Hk.
  { intros i Hi Hp. unfold one_tableb in Hone. rewrite forallb_forall in Hone. specialize (Hone i).
    unfold present in Hp. rewrite Hp in Hone. cbn [negb] in Hone. rewrite orb_false_r in Hone.
    apply Z.eqb_eq, Hone. apply in_map_iff. exists (Z.to_nat i). split; [lia|]. apply in_seq. lia. }
  split; [done|..].
  - intros i Hi Hp. by rewrite (Hk i Hi Hp).
  - intros i j Hi Hj Hij Hpi Hpj. destruct Hij. by rewrite (Hk i Hi Hpi), (Hk j Hj Hpj).
Qed.

(** The blocks of a list lie below the pointer of the allocator. *)
Definition bump_okb (b : bump) (l : list (Z * Z)) : bool :=
  (0 <? bnext b) && (bnext b mod 4 =? 0) && (bnext b <? 2 ^ 31) &&
  forallb (fun '(p, n) => (0 <? p) && (p mod 4 =? 0) && (p + n <=? bnext b)) l.

Lemma bump_okb_ok b l : bump_okb b l = true → bump_ok b l.
Proof.
  unfold bump_okb, bump_ok. intros H. zify_bool. split; [done|].
  split; [apply Z.mod_divide; lia|]. split; [done|]. intros p n Hp.
  rewrite forallb_forall in *. apply list_elem_of_In in Hp.
  match goal with H : ∀ x, In x l → _ |- _ => specialize (H _ Hp) end. cbn in *. zify_bool.
  split; [done|]. split; [apply Z.mod_divide; lia|done].
Qed.

(** Disjointness, and a prefix of used frames, by computation. *)
Definition disjointb (p n : Z) (l : list (Z * Z)) : bool :=
  forallb (fun '(q, m) => (p + n <=? q) || (q + m <=? p)) l.

Lemma disjointb_ok p n l : disjointb p n l = true → block_disjoint p n l.
Proof.
  unfold disjointb. intros H q m Hq. rewrite forallb_forall in H. apply list_elem_of_In in Hq.
  specialize (H _ Hq). cbn in H. apply orb_true_iff in H as [H|H]; zify_bool; auto.
Qed.

Lemma used_prefix words (n : nat) :
  forallb (fun h => used words (Z.of_nat h)) (seq 0 n) = true → ∀ h, 0 <= h < Z.of_nat n → used words h = true.
Proof.
  intros H h Hh. rewrite forallb_forall in H. specialize (H (Z.to_nat h)). rewrite Z2Nat.id in H by lia.
  apply H, in_seq. lia.
Qed.

Lemma fork_shared : shared_page 8 fork_mm fork_child fork_va 258 261 fork_cow fork_l.
Proof.
  split.
  - apply bump_okb_ok. vm_compute. reflexivity.
  - apply disjointb_ok. vm_compute. reflexivity.
  - apply disjointb_ok. vm_compute. reflexivity.
  - apply (pd_ok_one fork_mm fork_child 256 fork_l).
    + apply elem_of_cons. left. reflexivity.
    + vm_compute. reflexivity.
    + vm_compute. discriminate.
    + apply elem_of_cons. right. apply elem_of_cons. left. reflexivity.
    + left. vm_compute. discriminate.
  - apply bitmap_okb. vm_compute. reflexivity.
  - exists false, true. vm_compute. reflexivity.
  - split; [done|]. vm_compute. reflexivity.
  - split; [done|]. vm_compute. reflexivity.
  - apply (used_prefix _ 261). vm_compute. reflexivity.
  - split; [vm_compute; reflexivity|]. vm_compute. discriminate.
  - vm_compute. discriminate.
Qed.

Lemma cow_fault_frees_shared_frame_witness :
  ∃ s', handle_cow_fault 8 0 fork_mm fork_child 0x40000123 2 = Done (0, s') ∧
    private_copy fork_mm fork_child 0x40000123 258 261 fork_cow s'.
Proof.
  apply (cow_fault_frees_shared_frame 8 0 fork_mm fork_child 0x40000123 258 261 fork_cow fork_l).
  - split; reflexivity || discriminate.
  - reflexivity.
  - destruct fork_shared as [H1 H2 H3 H4 H5 H6 H7 H8 H9 H10 H11].
    split; [exact H1|exact H2|exact H3|exact H4|exact H5| |exact H7|exact H8|exact H9|exact H10|exact H11].
    exists false, true. vm_compute. reflexivity.
Defined.

(** A second fork of the same page is not counted: three directories map the
    frame and the COW page has two references.  After the first child's fault
    one is left, so the second child's fault makes the frame writable in
    place, and its parent still maps it. *)
Example second_fork_not_counted :
  (let* (child2, s) := create_page_directory 0 0 fork_mm in
   let* (_, s) := cow_copy_page_range 8 0 s child2 fork_parent fork_va (fork_va + 4096) in
   let refs := mload s (fork_cow + cw_refs) in
   let* (_, s) := handle_cow_fault 8 0 s fork_child fork_va 2 in
   let* (_, s) := handle_cow_fault 8 0 s child2 fork_va 2 in
   Done (refs, translate s fork_parent fork_va, translate s fork_child fork_va, translate s child2 fork_va))
  = Done (2, Some (258, false, true), Some (263, true, true), Some (258, true, true)).
Proof. vm_compute. reflexivity. Qed.
