(* ===== verification/Keyboard.v ===== *)
(** The keyboard driver: [src/src/kernel/arch/x86/keyboard.h] and
    [keyboard.cc].

    The driver's fields are a record.  What a port read returns is an argument:
    an interrupt is the status and data bytes it reads, and [read_line], which
    halts until an interrupt when no character waits, takes the list of
    interrupts to come.  Characters are their codes; printing is left out. *)

From Stdlib Require Import ZArith Lia.
From stdpp Require Import base list option.
From coqutil Require Import Datatypes.RecordSetters.
From S2P Require Import Prelude.
Import TriangleBracketNotations.

Definition KEYBOARD_STATUS_OUT_BUFFER_FULL : Z := 0x01.
Definition KEYBOARD_STATUS_IN_BUFFER_FULL : Z := 0x02.
Definition KEY_CTRL : Z := 0x1D.
Definition KEY_LSHIFT : Z := 0x2A.
Definition KEY_RSHIFT : Z := 0x36.
Definition KEY_ALT : Z := 0x38.
Definition KEY_CAPS : Z := 0x3A.
Definition KEYBOARD_BUFFER_SIZE : Z := 256.

Definition scancode_to_char : list Z :=
  [0; 0; 49; 50; 51; 52; 53; 54; 55; 56; 57; 48; 45; 61; 8; 9;
   113; 119; 101; 114; 116; 121; 117; 105; 111; 112; 91; 93; 13; 0; 97; 115;
   100; 102; 103; 104; 106; 107; 108; 59; 39; 96; 0; 92; 122; 120; 99; 118;
   98; 110; 109; 44; 46; 47; 0; 42; 0; 32; 0; 0; 0; 0; 0; 0;
   0; 0; 0; 0; 0; 0; 0; 0; 0; 0; 0; 0; 0; 0; 0; 0;
   0; 0; 0; 0; 0; 0; 0; 0; 0; 0; 0; 0; 0; 0; 0; 0;
   0; 0; 0; 0; 0; 0; 0; 0; 0; 0; 0; 0; 0; 0; 0; 0;
   0; 0; 0; 0; 0; 0; 0; 0; 0; 0; 0; 0; 0; 0; 0; 0].

Definition scancode_to_char_shift : list Z :=
  [0; 0; 33; 64; 35; 36; 37; 94; 38; 42; 40; 41; 95; 43; 8; 9;
   81; 87; 69; 82; 84; 89; 85; 73; 79; 80; 123; 125; 13; 0; 65; 83;
   68; 70; 71; 72; 74; 75; 76; 58; 34; 126; 0; 124; 90; 88; 67; 86;
   66; 78; 77; 60; 62; 63; 0; 42; 0; 32; 0; 0; 0; 0; 0; 0;
   0; 0; 0; 0; 0; 0; 0; 0; 0; 0; 0; 0; 0; 0; 0; 0;
   0; 0; 0; 0; 0; 0; 0; 0; 0; 0; 0; 0; 0; 0; 0; 0;
   0; 0; 0; 0; 0; 0; 0; 0; 0; 0; 0; 0; 0; 0; 0; 0;
   0; 0; 0; 0; 0; 0; 0; 0; 0; 0; 0; 0; 0; 0; 0; 0].

(** [struct keyboard_state] *)
Record keyboard_state := mk_kstate {
  shift_pressed : bool;
  ctrl_pressed : bool;
  alt_pressed : bool;
  caps_lock : bool;
}.

(** [class Keyboard] *)
Record keyboard := mk_keyboard {
  input_buffer : list Z;
  buffer_head : Z;
  buffer_tail : Z;
  buffer_count : Z;
  kstate : keyboard_state;
}.

Definition update_key_state (k : keyboard) (scancode : Z) (pressed : bool) : keyboard :=
  if (scancode =? KEY_LSHIFT) || (scancode =? KEY_RSHIFT) then k <| kstate -> shift_pressed := pressed |>
  else if scancode =? KEY_CTRL then k <| kstate -> ctrl_pressed := pressed |>
  else if scancode =? KEY_ALT then k <| kstate -> alt_pressed := pressed |>
  else if scancode =? KEY_CAPS then if pressed then k <| kstate -> caps_lock ::= negb |> else k
  else k.

Definition scancode_to_ascii (scancode : Z) (shift : bool) : Z :=
  if 128 <=? scancode then 0
  else if shift then zget 0 scancode_to_char_shift scancode
  else zget 0 scancode_to_char scancode.

Definition add_to_buffer (k : keyboard) (c : Z) : keyboard :=
  if buffer_count k <? KEYBOARD_BUFFER_SIZE - 1 then
    k <| input_buffer ::= fun l => zset l (buffer_head k) c |>
      <| buffer_head := (buffer_head k + 1) mod KEYBOARD_BUFFER_SIZE |>
      <| buffer_count ::= fun n => n + 1 |>
  else k.

Definition get_from_buffer (k : keyboard) : Z * keyboard :=
  if buffer_count k =? 0 then (0, k)
  else (zget 0 (input_buffer k) (buffer_tail k),
        k <| buffer_tail := (buffer_tail k + 1) mod KEYBOARD_BUFFER_SIZE |>
          <| buffer_count ::= fun n => n - 1 |>).

Definition get_char := get_from_buffer.
Definition char_available (k : keyboard) : bool := 0 <? buffer_count k.

(** An interrupt: what [read_status] and then [read_data] return. *)
Definition handle_interrupt (k : keyboard) (status data : Z) : keyboard :=
  if negb (has_flag status KEYBOARD_STATUS_OUT_BUFFER_FULL) then k
  else
    let key_released := has_flag data 0x80 in
    let key := Z.land data 0x7F in
    let k := update_key_state k key (negb key_released) in
    if negb key_released then
      let c := scancode_to_ascii key (shift_pressed (kstate k) || caps_lock (kstate k)) in
      if negb (c =? 0) then add_to_buffer k c else k
    else k.

Definition key_pressed (k : keyboard) (scancode : Z) : bool :=
  if (scancode =? KEY_LSHIFT) || (scancode =? KEY_RSHIFT) then shift_pressed (kstate k)
  else if scancode =? KEY_CTRL then ctrl_pressed (kstate k)
  else if scancode =? KEY_ALT then alt_pressed (kstate k)
  else if scancode =? KEY_CAPS then caps_lock (kstate k)
  else false.

Definition clear_buffer (k : keyboard) : keyboard :=
  k <| buffer_head := 0 |> <| buffer_tail := 0 |> <| buffer_count := 0 |>.

(** The statuses read until the controller's output buffer is empty; out of
    statuses, it is still draining. *)
Fixpoint drain (statuses : list Z) : outcome (list Z) :=
  match statuses with
  | [] => OutOfFuel
  | status :: rest =>
    if has_flag status KEYBOARD_STATUS_OUT_BUFFER_FULL then drain rest else Done rest
  end.

Definition init (k : keyboard) (statuses : list Z) : outcome keyboard :=
  let k := clear_buffer k in
  let k := k <| kstate := mk_kstate false false false false |> in
  let* _ := drain statuses in Done k.

(** [write_command] and [write_data]: the port and the byte written once the
    input buffer is free. *)
Fixpoint wait_input (statuses : list Z) : outcome (list Z) :=
  match statuses with
  | [] => OutOfFuel
  | status :: rest =>
    if has_flag status KEYBOARD_STATUS_IN_BUFFER_FULL then wait_input rest else Done rest
  end.
Definition write_command (statuses : list Z) (command : Z) : outcome (Z * Z) :=
  let* _ := wait_input statuses in Done (0x64, command).
Definition write_data (statuses : list Z) (data : Z) : outcome (Z * Z) :=
  let* _ := wait_input statuses in Done (0x60, data).

(** [while (!char_available()) hlt;]: every [hlt] ends with an interrupt. *)
Fixpoint wait_char (k : keyboard) (interrupts : list (Z * Z)) : outcome (keyboard * list (Z * Z)) :=
  if char_available k then Done (k, interrupts)
  else
    match interrupts with
    | [] => OutOfFuel
    | (status, data) :: rest => wait_char (handle_interrupt k status data) rest
    end.

(** One turn of the loop of [read_line]. *)
Definition read_line_step (max_len : Z) (st : keyboard * list (Z * Z) * list Z * Z)
  : outcome (keyboard * list (Z * Z) * list Z * Z + Z * list Z * keyboard) :=
  let '(k, interrupts, buffer, pos) := st in
  if negb (pos <? max_len - 1) then Done (inr (pos, zset buffer pos 0, k))
  else
    let* (k, interrupts) := wait_char k interrupts in
    let '(c, k) := get_char k in
    Done (if (c =? 10) || (c =? 13) then inr (pos, zset buffer pos 0, k)
          else if (c =? 8) || (c =? 127) then
            if 0 <? pos then inl (k, interrupts, buffer, pos - 1) else inl (k, interrupts, buffer, pos)
          else if (32 <=? c) && (c <? 127) then inl (k, interrupts, zset buffer pos c, pos + 1)
          else inl (k, interrupts, buffer, pos)).

(** [read_line(buffer, max_len)]: the length, the buffer, the driver. *)
Definition read_line (fuel : nat) (k : keyboard) (interrupts : list (Z * Z)) (buffer : list Z) (max_len : Z)
  : outcome (Z * list Z * keyboard) :=
  loop fuel (read_line_step max_len) (k, interrupts, buffer, 0).
