(* ===== verification/KeyboardSpec.v ===== *)
(** The keyboard driver's contract: the ring buffer is a first-in first-out
    queue of at most 255 characters, and [read_line] is line editing on the
    characters typed. *)

From Stdlib Require Import ZArith Lia Ascii String.
From stdpp Require Import base list option.
From coqutil Require Import Datatypes.RecordSetters.
From S2P Require Import Prelude Keyboard.
Import TriangleBracketNotations.

(** ** The abstract keyboard: a queue and the modifier keys *)

(** The modifiers after a key event: the shift keys, control and alt while they
    are down, caps lock from one press to the next. *)
Definition modify '(mk_kstate shift ctrl alt caps) (key : Z) (pressed : bool) : keyboard_state :=
  let key_is k := bool_decide (key = k) in
  mk_kstate (if key_is 0x2A || key_is 0x36 then pressed else shift) (if key_is 0x1D then pressed else ctrl)
    (if key_is 0x38 then pressed else alt) (if key_is 0x3A && pressed then negb caps else caps).

(** The layout of a US keyboard: the rows of keys, each from the code of its
    first key on, without and with shift.  The driver's tables spell it out. *)
Definition chars (s : string) : list Z := map (fun a => Z.of_N (N_of_ascii a)) (list_ascii_of_string s).

Definition rows (upper : bool) : list (Z * list Z) :=
  if upper then
    [(0x02, chars "!@#$%^&*()_+" ++ [8; 9]); (0x10, chars "QWERTYUIOP{}" ++ [13]); (0x1E, chars "ASDFGHJKL:" ++ [34] ++ chars "~");
     (0x2B, chars "|ZXCVBNM<>?"); (0x37, chars "*"); (0x39, chars " ")]
  else
    [(0x02, chars "1234567890-=" ++ [8; 9]); (0x10, chars "qwertyuiop[]" ++ [13]); (0x1E, chars "asdfghjkl;'`");
     (0x2B, chars "\zxcvbnm,./"); (0x37, chars "*"); (0x39, chars " ")].

(** The character of a key, 0 if it has none. *)
Definition key_char (key : Z) (upper : bool) : Z :=
  match List.find (fun '(first, row) => (first <=? key) && (key <? first + zlen row)) (rows upper) with
  | Some (first, row) => zget 0 row (key - first)
  | None => 0
  end.

Lemma scancode_typed key upper : 0 <= key < 128 → scancode_to_ascii key upper = key_char key upper.
Proof.
  intros Hk. assert (Forall (fun key => scancode_to_ascii key upper = key_char key upper) (seqZ 0 128)) as F.
  { apply (bool_decide_unpack _). by destruct upper; vm_compute. }
  rewrite list.Forall_forall in F. apply F, elem_of_seqZ. lia.
Qed.

(** The character a key event types, and the modifiers after it. *)
Definition key_event (st : keyboard_state) (status data : Z) : option Z * keyboard_state :=
  if negb (has_flag status KEYBOARD_STATUS_OUT_BUFFER_FULL) then (None, st)
  else
    let released := has_flag data 0x80 in
    let key := Z.land data 0x7F in
    let st := modify st key (negb released) in
    let c := key_char key (shift_pressed st || caps_lock st) in
    (if negb released && negb (c =? 0) then Some c else None, st).

(** A queue of capacity 255 drops what does not fit. *)
Definition push (q : list Z) (c : Z) : list Z := if (length q <? 255)%nat then q ++ [c] else q.
Definition push_opt (q : list Z) (o : option Z) : list Z := match o with Some c => push q c | None => q end.

(** The operations other parts of the kernel use. *)
Inductive kb_op := Interrupt (status data : Z) | GetChar | Clear.

Definition abs_op (s : list Z * keyboard_state) (o : kb_op) : Z * (list Z * keyboard_state) :=
  let '(q, st) := s in
  match o with
  | Interrupt status data => let '(c, st) := key_event st status data in (0, (push_opt q c, st))
  | GetChar => match q with [] => (0, (q, st)) | c :: q => (c, (q, st)) end
  | Clear => (0, ([], st))
  end.
Definition kb_do (k : keyboard) (o : kb_op) : Z * keyboard :=
  match o with
  | Interrupt status data => (0, handle_interrupt k status data)
  | GetChar => get_char k
  | Clear => (0, clear_buffer k)
  end.

(** The characters returned along a sequence of operations. *)
Fixpoint run_ops {S} (step : S → kb_op → Z * S) (s : S) (ops : list kb_op) : list Z * S :=
  match ops with
  | [] => ([], s)
  | o :: ops => let '(c, s) := step s o in let '(cs, s) := run_ops step s ops in (c :: cs, s)
  end.

(** ** The ring buffer is the queue *)

Record kb_ok (k : keyboard) : Prop := {
  kb_length : length (input_buffer k) = 256%nat;
  kb_tail : 0 <= buffer_tail k < 256;
  kb_count : 0 <= buffer_count k <= 255;
  kb_head : buffer_head k = (buffer_tail k + buffer_count k) mod 256;
}.

Definition queue_from (buf : list Z) (tail : Z) (n : nat) : list Z :=
  map (fun i => zget 0 buf ((tail + Z.of_nat i) mod 256)) (seq 0 n).
Definition queue (k : keyboard) : list Z :=
  queue_from (input_buffer k) (buffer_tail k) (Z.to_nat (buffer_count k)).

Lemma queue_from_length buf tail n : length (queue_from buf tail n) = n.
Proof. unfold queue_from. by rewrite length_map, length_seq. Qed.

Lemma queue_length k : kb_ok k → Z.of_nat (length (queue k)) = buffer_count k.
Proof. intros Hk. unfold queue. rewrite queue_from_length. pose proof (kb_count _ Hk). lia. Qed.

Lemma queue_from_cons buf tail n :
  0 <= tail < 256 →
  queue_from buf tail (S n) = zget 0 buf tail :: queue_from buf ((tail + 1) mod 256) n.
Proof.
  intros Ht. unfold queue_from. cbn [seq map]. f_equal; [f_equal; rewrite Z.add_0_r; by apply Z.mod_small|].
  rewrite <- seq_shift, map_map. apply map_ext. intros i. f_equal. rewrite Zplus_mod_idemp_l. f_equal. lia.
Qed.

Lemma queue_from_snoc buf tail n : queue_from buf tail (S n) = queue_from buf tail n ++ [zget 0 buf ((tail + Z.of_nat n) mod 256)].
Proof. unfold queue_from. by rewrite seq_S, map_app. Qed.

(** Writing at the head leaves the waiting characters. *)
Lemma queue_from_zset buf tail n c :
  0 <= tail < 256 → (n <= 255)%nat → length buf = 256%nat →
  queue_from (zset buf ((tail + Z.of_nat n) mod 256) c) tail n = queue_from buf tail n.
Proof.
  intros Ht Hn Hl. unfold queue_from. apply map_ext_in. intros i Hi%in_seq. apply zget_zset_ne.
  intros E. pose proof (Z.div_mod (tail + Z.of_nat n) 256 ltac:(lia)). pose proof (Z.div_mod (tail + Z.of_nat i) 256 ltac:(lia)). lia.
Qed.

Lemma add_to_buffer_spec k c :
  kb_ok k → kb_ok (add_to_buffer k c) ∧ queue (add_to_buffer k c) = push (queue k) c ∧
  kstate (add_to_buffer k c) = kstate k.
Proof.
  intros Hk. pose proof Hk as [Hl Ht Hc Hh]. unfold add_to_buffer, push. pose proof (queue_length k Hk) as Hq.
  change (KEYBOARD_BUFFER_SIZE - 1) with 255. destruct (Z.ltb_spec (buffer_count k) 255).
  - rewrite (proj2 (Nat.ltb_lt _ _)) by lia. split; [|split; [|done]].
    + split; destruct k; cbn in *; unfold constant; rewrite ?zset_length; [done|done|lia|]. rewrite Hh. change KEYBOARD_BUFFER_SIZE with 256.
      rewrite Zplus_mod_idemp_l. f_equal. lia.
    + destruct k as [buf hd tl cnt st]. unfold queue. cbn in *. unfold constant in *. replace (Z.to_nat (cnt + 1)) with (S (Z.to_nat cnt)) by lia.
      rewrite queue_from_snoc, Z2Nat.id, Hh by lia.
      replace cnt with (Z.of_nat (Z.to_nat cnt)) at 1 by lia.
      rewrite queue_from_zset by lia. f_equal. f_equal. apply zget_zset_eq. rewrite Hl.
      apply Z.mod_pos_bound. lia.
  - rewrite (proj2 (Nat.ltb_ge _ _)) by lia. done.
Qed.

Lemma get_char_spec k :
  kb_ok k →
  match queue k with
  | [] => get_char k = (0, k)
  | c :: q => ∃ k', get_char k = (c, k') ∧ kb_ok k' ∧ queue k' = q ∧ kstate k' = kstate k
  end.
Proof.
  intros Hk. pose proof Hk as [Hl Ht Hc Hh]. pose proof (queue_length k Hk) as Hq. unfold get_char, get_from_buffer.
  destruct (Z.eqb_spec (buffer_count k) 0) as [E|E].
  - destruct (queue k); [done|]. simpl in Hq. lia.
  - destruct (queue k) as [|c q] eqn:Eq; [simpl in Hq; lia|]. unfold queue in Eq.
    destruct (Z.to_nat (buffer_count k)) as [|n] eqn:En; [lia|]. rewrite queue_from_cons in Eq by done.
    injection Eq as <- Eq. eexists. split; [done|]. destruct k as [buf hd tl cnt st]. cbn in *. unfold constant in *.
    split; [split; cbn; unfold constant|split; [|done]].
    + done.
    + apply Z.mod_pos_bound. lia.
    + lia.
    + rewrite Hh. change KEYBOARD_BUFFER_SIZE with 256. rewrite Zplus_mod_idemp_l. f_equal. lia.
    + unfold queue. cbn. unfold constant. change KEYBOARD_BUFFER_SIZE with 256.
      replace (Z.to_nat (cnt - 1)) with n by lia. exact Eq.
Qed.

Lemma update_key_state_spec k key pressed :
  kstate (update_key_state k key pressed) = modify (kstate k) key pressed ∧
  input_buffer (update_key_state k key pressed) = input_buffer k ∧
  buffer_head (update_key_state k key pressed) = buffer_head k ∧
  buffer_tail (update_key_state k key pressed) = buffer_tail k ∧
  buffer_count (update_key_state k key pressed) = buffer_count k.
Proof.
  unfold modify, update_key_state, KEY_LSHIFT, KEY_RSHIFT, KEY_CTRL, KEY_ALT, KEY_CAPS. destruct k as [l h t n [shift ctrl alt caps]].
  assert (∀ x, bool_decide (key = x) = (key =? x)) as E
    by (intros x; case_bool_decide; symmetry; [by apply Z.eqb_eq|by apply Z.eqb_neq]).
  cbn [kstate]. cbv zeta beta. rewrite !E. clear E.
  destruct (Z.eqb_spec key 0x2A), (Z.eqb_spec key 0x36), (Z.eqb_spec key 0x1D), (Z.eqb_spec key 0x38), (Z.eqb_spec key 0x3A);
    subst; try done; by destruct pressed.
Qed.

Lemma handle_interrupt_spec k status data :
  kb_ok k → let k' := handle_interrupt k status data in
  kb_ok k' ∧ queue k' = push_opt (queue k) (key_event (kstate k) status data).1 ∧
  kstate k' = (key_event (kstate k) status data).2.
Proof.
  intros Hk. unfold handle_interrupt, key_event. destruct (negb (has_flag status _)); [done|].
  set (key := Z.land data 0x7F). set (pr := negb (has_flag data 0x80)).
  destruct (update_key_state_spec k key pr) as (E1 & E2 & E3 & E4 & E5).
  set (k1 := update_key_state k key pr) in *.
  assert (kb_ok k1 ∧ queue k1 = queue k) as [Hk1 Hq1].
  { split; [destruct Hk; split; by rewrite ?E2, ?E3, ?E4, ?E5|unfold queue; by rewrite E2, E4, E5]. }
  rewrite <- E1. destruct pr; cbn [andb fst snd push_opt]; [|done].
  rewrite <- scancode_typed by (unfold key; change 0x7F with (Z.ones 7); rewrite Z.land_ones by lia; by apply Z.mod_pos_bound).
  destruct (negb (scancode_to_ascii _ _ =? 0)); cbn [push_opt]; [|done].
  destruct (add_to_buffer_spec k1 (scancode_to_ascii key (shift_pressed (kstate k1) || caps_lock (kstate k1))) Hk1)
    as (? & -> & ->). by rewrite Hq1.
Qed.

(** C23. The driver refines a first-in first-out queue of 255 characters with
    the modifier keys and the layout of a US keyboard: over any sequence of interrupts, [get_char] and
    [clear_buffer], it returns what the queue returns, and a character typed
    into a full queue is dropped.  The state stays well formed. *)
Theorem keyboard_refines_queue k ops :
  kb_ok k →
  let '(cs, k') := run_ops kb_do k ops in
  let '(cs_abs, s') := run_ops abs_op (queue k, kstate k) ops in
  cs = cs_abs ∧ kb_ok k' ∧ s' = (queue k', kstate k').
Proof.
  revert k. induction ops as [|o ops IH]; intros k Hk; [done|]. cbn [run_ops].
  assert (∃ c k1, kb_do k o = (c, k1) ∧ abs_op (queue k, kstate k) o = (c, (queue k1, kstate k1)) ∧ kb_ok k1)
    as (c & k1 & -> & -> & Hk1).
  { destruct o as [status data| |]; cbn [kb_do abs_op].
    - destruct (handle_interrupt_spec k status data Hk) as (Hk1 & Hq1 & Hs1).
      destruct (key_event (kstate k) status data) as [c st]. eexists _, _. split; [done|].
      cbn in Hq1, Hs1. by rewrite Hq1, Hs1.
    - pose proof (get_char_spec k Hk) as Hg. destruct (queue k) as [|c q] eqn:Eq.
      + exists 0, k. by rewrite Hg, Eq.
      + destruct Hg as (k1 & -> & Hk1 & Hq1 & Hs1). exists c, k1. by rewrite Hq1, Hs1.
    - eexists _, _. split; [done|]. split; [done|]. destruct Hk. split; [done|cbn; unfold constant; lia|cbn; unfold constant; lia|done]. }
  specialize (IH k1 Hk1). destruct (run_ops kb_do k1 ops) as [cs k'].
  destruct (run_ops abs_op (queue k1, kstate k1) ops) as [cs' s']. destruct IH as (-> & ? & ->). done.
Qed.

(** ** Reading a line *)

(** The characters that a sequence of interrupts types. *)
Fixpoint typed (st : keyboard_state) (interrupts : list (Z * Z)) : list Z :=
  match interrupts with
  | [] => []
  | (status, data) :: rest =>
    let '(c, st) := key_event st status data in
    match c with Some c => c :: typed st rest | None => typed st rest end
  end.

(** Line editing with room for [cap] characters: the line and what is left of
    the input, or [None] when the input ends first. *)
Fixpoint edit (cap : nat) (line cs : list Z) : option (list Z * list Z) :=
  if (cap <=? length line)%nat then Some (line, cs)
  else
    match cs with
    | [] => None
    | c :: cs =>
      if (c =? 10) || (c =? 13) then Some (line, cs)
      else if (c =? 8) || (c =? 127) then edit cap (removelast line) cs
      else if (32 <=? c) && (c <? 127) then edit cap (line ++ [c]) cs
      else edit cap line cs
    end.

Lemma wait_char_spec k ints c cs :
  kb_ok k → queue k ++ typed (kstate k) ints = c :: cs →
  ∃ k' ints', wait_char k ints = Done (k', ints') ∧ kb_ok k' ∧ queue k' ≠ [] ∧
    queue k' ++ typed (kstate k') ints' = c :: cs.
Proof.
  revert k. induction ints as [|[status data] ints IH]; intros k Hk Hcs; cbn [wait_char];
    unfold char_available; pose proof (queue_length k Hk) as Hq;
    (destruct (Z.ltb_spec 0 (buffer_count k)); [exists k; eexists; do 2 (split; [done|]);
       split; [by destruct (queue k); [simpl in Hq; lia|]|exact Hcs]|]);
    assert (queue k = []) as Eq by (destruct (queue k); [done|simpl in Hq; pose proof (kb_count _ Hk); lia]).
  - by rewrite Eq in Hcs.
  - destruct (handle_interrupt_spec k status data Hk) as (Hk1 & Hq1 & Hs1). apply IH; [done|].
    rewrite Hq1, Hs1. rewrite Eq in *. cbn [app typed] in Hcs. destruct (key_event (kstate k) status data) as [[d|] st]; done.
Qed.

(** The part of the buffer that holds the line. *)
Definition holds (buffer line : list Z) : Prop := take (length line) buffer = line.

Lemma holds_snoc buffer line c :
  (length line < length buffer)%nat → holds buffer line → holds (zset buffer (Z.of_nat (length line)) c) (line ++ [c]).
Proof.
  unfold holds. intros Hl Hh. unfold zset. rewrite decide_True by lia. rewrite Nat2Z.id, length_app. cbn [length].
  rewrite Nat.add_1_r. rewrite (take_S_r _ _ c); [|by apply list_lookup_insert_eq].
  by rewrite take_insert_ge, Hh by lia.
Qed.

Lemma holds_removelast buffer line : holds buffer line → holds buffer (removelast line).
Proof.
  unfold holds. intros Hh. destruct (list.last line) eqn:E.
  - apply last_Some in E as (l & ->). rewrite removelast_last in *. rewrite length_app in Hh. cbn in Hh.
    apply (f_equal (take (length l))) in Hh. rewrite take_take, take_app_length in Hh.
    by rewrite Nat.min_l in Hh by lia.
  - apply last_None in E as ->. done.
Qed.

Lemma holds_end buffer line :
  holds buffer line → (length line < length buffer)%nat →
  holds (zset buffer (Z.of_nat (length line)) 0) line ∧ zget 0 (zset buffer (Z.of_nat (length line)) 0) (Z.of_nat (length line)) = 0.
Proof.
  unfold holds. intros Hh Hl. split; [|apply zget_zset_eq; lia].
  unfold zset. rewrite decide_True by lia. by rewrite Nat2Z.id, take_insert_ge.
Qed.

Lemma edit_full cap line cs : (cap <= length line)%nat → edit cap line cs = Some (line, cs).
Proof. intros H. destruct cs; cbn [edit]; by rewrite (proj2 (Nat.leb_le _ _)). Qed.

(** The loop of [read_line], from any line already in the buffer. *)
Lemma read_line_loop max_len cs :
  1 <= max_len →
  ∀ fuel k ints buffer line line' rest,
    kb_ok k → queue k ++ typed (kstate k) ints = cs → edit (Z.to_nat (max_len - 1)) line cs = Some (line', rest) →
    (Z.of_nat (length line) <= max_len - 1) → max_len <= Z.of_nat (length buffer) → holds buffer line →
    (length cs < fuel)%nat →
    ∃ buffer' k' ints', loop fuel (read_line_step max_len) (k, ints, buffer, Z.of_nat (length line))
      = Done (Z.of_nat (length line'), buffer', k') ∧
      holds buffer' line' ∧ zget 0 buffer' (Z.of_nat (length line')) = 0 ∧ kb_ok k' ∧
      queue k' ++ typed (kstate k') ints' = rest.
Proof.
  intros Hm. induction cs as [|c cs IH]; intros [|fuel] k ints buffer line line' rest Hk Hcs Hed Hlen Hbuf Hh Hf;
    try (cbn in Hf; lia); cbn [loop]; unfold read_line_step at 1;
    destruct (Z.ltb_spec (Z.of_nat (length line)) (max_len - 1)) as [Hlt|Hge]; cbn [negb].
  - cbn [edit] in Hed. rewrite (proj2 (Nat.leb_gt _ _)) in Hed by lia. done.
  - rewrite edit_full in Hed by lia. injection Hed as <- <-. cbn [obind].
    destruct (holds_end buffer line Hh ltac:(lia)). eexists _, k, ints. done.
  - cbn [edit] in Hed. rewrite (proj2 (Nat.leb_gt _ _)) in Hed by lia.
    destruct (wait_char_spec k ints c cs Hk Hcs) as (k1 & ints1 & -> & Hk1 & Hne & Hcs1). cbn [obind].
    pose proof (get_char_spec k1 Hk1) as Hg. destruct (queue k1) as [|d q] eqn:Eq1; [done|].
    destruct Hg as (k2 & -> & Hk2 & Hq2 & Hs2). cbn [app] in Hcs1. injection Hcs1 as -> Hcs2.
    rewrite <- Hq2, <- Hs2 in Hcs2. cbn [obind]. cbn in Hf.
    destruct ((c =? 10) || (c =? 13)).
    { injection Hed as <- <-. destruct (holds_end buffer line Hh ltac:(lia)). eexists _, k2, ints1. done. }
    destruct ((c =? 8) || (c =? 127)).
    { destruct (Z.ltb_spec 0 (Z.of_nat (length line))).
      - destruct (exists_last (l := line)) as (l & x & El); [by intros ->|]. subst line.
        rewrite removelast_last in Hed. rewrite length_app in *. cbn [length] in *.
        replace (Z.of_nat (length l + 1) - 1) with (Z.of_nat (length l)) by lia.
        apply IH; try done; try lia. apply holds_removelast in Hh. by rewrite removelast_last in Hh.
      - destruct line; [|simpl in *; lia]. apply IH; try done. lia. }
    destruct ((32 <=? c) && (c <? 127)); [|apply IH; try done; lia].
    replace (Z.of_nat (length line) + 1) with (Z.of_nat (length (line ++ [c]))) by (rewrite length_app; simpl; lia).
    apply IH; try done; try (rewrite length_app; simpl; lia); [by rewrite zset_length|apply holds_snoc; [lia|done]|lia].
  - rewrite edit_full in Hed by lia. injection Hed as <- <-. cbn [obind].
    destruct (holds_end buffer line Hh ltac:(lia)). eexists _, k, ints. done.
Qed.

(** [read_line] is line editing: on the characters waiting in the queue
    followed by those the coming interrupts type, it returns the line that
    [edit] gives, in the buffer with a terminator, and leaves the characters
    after it.  It returns as soon as a line ends or the buffer is full. *)
Theorem read_line_spec fuel k ints buffer max_len line rest :
  kb_ok k → 1 <= max_len <= Z.of_nat (length buffer) →
  edit (Z.to_nat (max_len - 1)) [] (queue k ++ typed (kstate k) ints) = Some (line, rest) →
  (length (queue k ++ typed (kstate k) ints) < fuel)%nat →
  ∃ buffer' k' ints', read_line fuel k ints buffer max_len = Done (Z.of_nat (length line), buffer', k') ∧
    holds buffer' line ∧ zget 0 buffer' (Z.of_nat (length line)) = 0 ∧ kb_ok k' ∧
    queue k' ++ typed (kstate k') ints' = rest.
Proof.
  intros Hk Hm Hed Hf. unfold read_line.
  apply (read_line_loop max_len _ ltac:(lia) fuel k ints buffer [] line rest Hk eq_refl Hed); [simpl; lia|lia|done|done].
Qed.

(** ** Concrete runs *)

Definition fresh_keyboard : keyboard :=
  mk_keyboard (replicate 256 0) 0 0 0 (mk_kstate false false false false).

Lemma fresh_ok : kb_ok fresh_keyboard.
Proof. split; vm_compute; intuition discriminate. Qed.

(** Shift, [h], shift released, [i], backspace, [i], enter: the line "Hi". *)
Definition demo_keys : list (Z * Z) :=
  [(1, 0x2A); (1, 0x23); (1, 0xAA); (1, 0x17); (1, 0x0E); (1, 0x17); (1, 0x1C)].

Definition demo_ops : list kb_op := map (fun '(s, d) => Interrupt s d) demo_keys ++ [GetChar; GetChar; Clear; GetChar].

Lemma keyboard_refines_queue_witness :
  let '(cs, k') := run_ops kb_do fresh_keyboard demo_ops in
  let '(cs_abs, s') := run_ops abs_op (queue fresh_keyboard, kstate fresh_keyboard) demo_ops in
  cs = cs_abs ∧ kb_ok k' ∧ s' = (queue k', kstate k').
Proof. exact (keyboard_refines_queue fresh_keyboard demo_ops fresh_ok). Defined.

Lemma read_line_spec_witness :
  ∃ buffer' k' ints', read_line 20 fresh_keyboard demo_keys (replicate 16 7) 16 = Done (2, buffer', k') ∧
    holds buffer' [72; 105] ∧ zget 0 buffer' 2 = 0 ∧ kb_ok k' ∧ queue k' ++ typed (kstate k') ints' = [].
Proof.
  apply (read_line_spec 20 fresh_keyboard demo_keys (replicate 16 7) 16 [72; 105] []).
  - exact fresh_ok.
  - split; vm_compute; discriminate.
  - vm_compute. reflexivity.
  - vm_compute. repeat constructor.
Defined.
