(* ===== verification/Pit.v ===== *)
(** The programmable interval timer: [src/src/kernel/arch/x86/pit.h] and
    [pit.cc].

    Port writes are the list of (port, byte) pairs [init] sends.  [sleep]
    halts until the next timer interrupt, which is [tick].  A division by zero
    is a processor fault, [Stuck]. *)

From Stdlib Require Import ZArith Lia.
From stdpp Require Import base list option.
From coqutil Require Import Datatypes.RecordSetters.
From S2P Require Import Prelude.
Import TriangleBracketNotations.

Definition PIT_CHANNEL0 : Z := 0x40.
Definition PIT_COMMAND : Z := 0x43.
Definition PIT_BASE_FREQ : Z := 1193182.
Definition PIT_DEFAULT_FREQ : Z := 100.

(** [class PIT] *)
Record pit := mk_pit { system_ticks : Z; timer_frequency : Z }.

(** The divisor, kept within 16 bits. *)
Definition pit_divisor (frequency : Z) : Z :=
  let divisor := PIT_BASE_FREQ / frequency in
  let divisor := if 65535 <? divisor then 65535 else divisor in
  if divisor <? 1 then 1 else divisor.

Definition pit_init (frequency : Z) : outcome (pit * list (Z * Z)) :=
  if frequency =? 0 then Stuck
  else
    let divisor := pit_divisor frequency in
    Done (mk_pit 0 frequency,
          [(PIT_COMMAND, 0x36); (PIT_CHANNEL0, u8 (Z.land divisor 0xFF));
           (PIT_CHANNEL0, u8 (Z.land (Z.shiftr divisor 8) 0xFF))]).

Definition tick (p : pit) : pit := p <| system_ticks ::= fun n => u64 (n + 1) |>.
Definition get_ticks (p : pit) : Z := system_ticks p.
Definition get_frequency (p : pit) : Z := timer_frequency p.

Definition get_uptime_ms (p : pit) : outcome Z :=
  if timer_frequency p =? 0 then Stuck else Done (u64 (system_ticks p * 1000) / timer_frequency p).

(** The ticks [sleep] adds to the present: the product is 32 bits wide. *)
Definition sleep_ticks (p : pit) (ms : Z) : Z := u32 (ms * timer_frequency p) / 1000.

Definition sleep (fuel : nat) (p : pit) (ms : Z) : outcome pit :=
  let target := u64 (system_ticks p + sleep_ticks p ms) in
  while fuel (fun p => system_ticks p <? target) tick p.

(** For every frequency but 0, [init] programs channel 0 with a divisor
    between 1 and 65535, low byte first, that is [1193182 / frequency] whenever
    that fits; frequency 0 is a division fault. *)
Theorem pit_init_spec frequency :
  0 <= frequency < 2 ^ 32 →
  match pit_init frequency with
  | Done (p, writes) =>
    0 < frequency ∧ p = mk_pit 0 frequency ∧
    ∃ lo hi, writes = [(0x43, 0x36); (0x40, lo); (0x40, hi)] ∧ 0 <= lo < 256 ∧ 0 <= hi < 256 ∧
      1 <= lo + 256 * hi <= 65535 ∧
      (19 <= frequency <= PIT_BASE_FREQ → lo + 256 * hi = PIT_BASE_FREQ / frequency) ∧
      (frequency < 19 → lo + 256 * hi = 65535)
  | Stuck => frequency = 0
  | OutOfFuel => False
  end.
Proof.
  intros Hf. unfold pit_init. destruct (Z.eqb_spec frequency 0); [done|].
  split; [lia|]. split; [done|]. set (d := pit_divisor frequency).
  assert (1 <= d <= 65535 ∧ (19 <= frequency <= PIT_BASE_FREQ → d = PIT_BASE_FREQ / frequency) ∧ (frequency < 19 → d = 65535))
    as (Hd & Hd2 & Hd3).
  { unfold d, pit_divisor. split.
    { destruct (Z.ltb_spec 65535 (PIT_BASE_FREQ / frequency)); [done|].
      destruct (Z.ltb_spec (PIT_BASE_FREQ / frequency) 1); lia. }
    split; intros Hr.
    - assert (1 <= PIT_BASE_FREQ / frequency <= 65535).
      { split; [apply Z.div_le_lower_bound; unfold PIT_BASE_FREQ in *; lia|]. apply Z.lt_succ_r, Z.div_lt_upper_bound; unfold PIT_BASE_FREQ in *; lia. }
      rewrite (proj2 (Z.ltb_ge 65535 _)) by lia. by rewrite (proj2 (Z.ltb_ge _ 1)) by lia.
    - assert (65535 < PIT_BASE_FREQ / frequency).
      { apply Z.lt_le_trans with (PIT_BASE_FREQ / 18); [done|]. apply Z.div_le_compat_l; unfold PIT_BASE_FREQ; lia. }
      by rewrite (proj2 (Z.ltb_lt 65535 _)) by lia. }
  change 0xFF with (Z.ones 8). rewrite !Z.land_ones, Z.shiftr_div_pow2 by lia. change (2 ^ 8) with 256.
  pose proof (Z.mod_pos_bound d 256 ltac:(lia)). pose proof (Z.mod_pos_bound (d / 256) 256 ltac:(lia)).
  assert (0 <= d / 256 < 256) by (split; [apply Z.div_pos; lia|apply Z.div_lt_upper_bound; lia]).
  rewrite !u8_small by done. rewrite (Z.mod_small (d / 256)) by done.
  pose proof (Z.div_mod d 256 ltac:(lia)).
  exists (d mod 256), (d / 256). split; [done|]. split; [done|]. split; [done|].
  assert (d mod 256 + 256 * (d / 256) = d) as -> by lia. done.
Qed.

(** C38. [sleep] returns, after exactly [sleep_ticks] timer interrupts while
    the tick counter does not wrap.  The count is
    [(ms * frequency mod 2^32) / 1000]: it is the time asked for only while
    the product fits 32 bits. *)
Theorem sleep_spec fuel p ms :
  0 <= system_ticks p → 0 <= ms < 2 ^ 32 → 0 <= timer_frequency p < 2 ^ 32 →
  system_ticks p + sleep_ticks p ms < 2 ^ 64 → (Z.to_nat (sleep_ticks p ms) < fuel)%nat →
  sleep fuel p ms = Done (mk_pit (system_ticks p + sleep_ticks p ms) (timer_frequency p)) ∧
  (ms * timer_frequency p < 2 ^ 32 → sleep_ticks p ms = ms * timer_frequency p / 1000).
Proof.
  intros Ht Hms Hfr Hno Hf. split; [|intros; unfold sleep_ticks; rewrite u32_small; [done|nia]].
  unfold sleep. assert (0 <= sleep_ticks p ms) as Hs
    by (unfold sleep_ticks; apply Z.div_pos; [apply u32_range|lia]).
  rewrite (u64_small (system_ticks p + sleep_ticks p ms)) by lia. set (target := system_ticks p + sleep_ticks p ms) in *.
  destruct (while_total (fun q => system_ticks q <= target ∧ 0 <= system_ticks q ∧ timer_frequency q = timer_frequency p)
    (fun q => Z.to_nat (target - system_ticks q)) (fun q => system_ticks q <? target) tick) with (fuel := fuel) (s := p)
    as (q & -> & (Hq & _ & Hfq) & Hend).
  - intros q (Hq & Hq0 & Hfq) Hlt. zify_bool.
    assert (system_ticks (tick q) = system_ticks q + 1) as E.
    { unfold tick. cbn. change (u64 (system_ticks q + 1) = system_ticks q + 1). apply u64_small. lia. }
    rewrite E. split; [split; [lia|split; [lia|done]]|lia].
  - unfold target. lia.
  - unfold target. lia.
  - zify_bool. destruct q as [t f]. cbn in *. f_equal. f_equal; [lia|done].
Qed.

(** A sleep of 42949673 ms at 100 Hz, almost twelve hours, is no sleep. *)
Example sleep_wraps p : timer_frequency p = 100 → sleep_ticks p 42949673 = 0.
Proof. unfold sleep_ticks. intros ->. reflexivity. Qed.

(** [get_uptime_ms] is the milliseconds of the ticks so far until the
    product wraps, and a division fault before [init] set a frequency. *)
Theorem get_uptime_ms_spec p :
  0 <= system_ticks p → system_ticks p * 1000 < 2 ^ 64 →
  get_uptime_ms p = if timer_frequency p =? 0 then Stuck else Done (system_ticks p * 1000 / timer_frequency p).
Proof. intros H1 H2. unfold get_uptime_ms. case_if; [done|]. rewrite u64_small; [done|lia]. Qed.

Lemma sleep_spec_witness :
  sleep 100 (mk_pit 7 100) 250 = Done (mk_pit (7 + sleep_ticks (mk_pit 7 100) 250) 100) ∧
  (250 * 100 < 2 ^ 32 → sleep_ticks (mk_pit 7 100) 250 = 250 * 100 / 1000).
Proof.
  apply (sleep_spec 100 (mk_pit 7 100) 250); [discriminate|split; [discriminate|reflexivity]|
    split; [discriminate|reflexivity]|reflexivity|vm_compute; repeat constructor].
Defined.

Lemma pit_init_spec_witness :
  match pit_init 100 with
  | Done (p, writes) =>
    0 < 100 ∧ p = mk_pit 0 100 ∧
    ∃ lo hi, writes = [(0x43, 0x36); (0x40, lo); (0x40, hi)] ∧ 0 <= lo < 256 ∧ 0 <= hi < 256 ∧
      1 <= lo + 256 * hi <= 65535 ∧
      (19 <= 100 <= PIT_BASE_FREQ → lo + 256 * hi = PIT_BASE_FREQ / 100) ∧
      (100 < 19 → lo + 256 * hi = 65535)
  | Stuck => 100 = 0
  | OutOfFuel => False
  end.
Proof. apply (pit_init_spec 100). split; [discriminate|reflexivity]. Defined.
