(* ===== verification/FileTree.v ===== *)
(** Files and the file tree: [src/src/kernel/core/file.h] and [file.cc].

    Every [File] object is an entry of a store, a map from its address to its
    fields; a name is the list of its characters.  Using an object that is
    null or deleted is [Stuck].  [new] takes the next address that was never
    used: object memory does not run out in this model.  The virtual
    operations of other classes are not here. *)

From Stdlib Require Import ZArith Lia.
From stdpp Require Import base list gmap option.
From coqutil Require Import Datatypes.RecordSetters.
From S2P Require Import Prelude.
Import TriangleBracketNotations.

Inductive file_type := TYPE_FILE | TYPE_DIRECTORY | TYPE_DEVICE | TYPE_PROCESS | TYPE_LINK.

#[export] Instance file_type_eq_dec : EqDecision file_type.
Proof. solve_decision. Defined.

(** [class File]; [map_memory] is [fmap], null is 0. *)
Record file := mk_file {
  fname : list Z;
  fsize : Z;
  ftype : file_type;
  finode : Z;
  flink : Z;
  fmaster : Z;
  fparent : Z;
  fchild : Z;
  fnext : Z;
  fprec : Z;
  fmap : Z;
}.

(** The objects, the next address and [File::inode_system]. *)
Record ftree := mk_ftree {
  files : gmap Z file;
  next_obj : Z;
  inode_system : Z;
}.

Definition getf (t : ftree) (p : Z) : outcome file := of_option (files t !! p).

(** [p->field = ...] *)
Definition updf (t : ftree) (p : Z) (g : file → file) : outcome ftree :=
  let* f := getf t p in Done (t <| files ::= fun m => <[p := g f]> m |>).

(** The setters. *)
Definition setSize (t : ftree) (p v : Z) : outcome ftree := updf t p (fun f => f <| fsize := v |>).
Definition setType (t : ftree) (p : Z) (v : file_type) : outcome ftree := updf t p (fun f => f <| ftype := v |>).
Definition setParent (t : ftree) (p n : Z) : outcome ftree := updf t p (fun f => f <| fparent := n |>).
Definition setLink (t : ftree) (p n : Z) : outcome ftree := updf t p (fun f => f <| flink := n |>).
Definition setChild (t : ftree) (p n : Z) : outcome ftree := updf t p (fun f => f <| fchild := n |>).
Definition setNext (t : ftree) (p n : Z) : outcome ftree := updf t p (fun f => f <| fnext := n |>).
Definition setPrec (t : ftree) (p n : Z) : outcome ftree := updf t p (fun f => f <| fprec := n |>).

(** ** Names *)

Definition CHAR_REPLACEMENT : Z := 95.
Definition strreplace (s : list Z) (a to : Z) : list Z := map (fun c => if c =? a then to else c) s.

(** The characters [/ \ ? : > < *] and the double quote. *)
Definition invalidChars : list Z := [47; 92; 63; 58; 62; 60; 42; 34].
Definition checkName (s : list Z) : list Z := foldl (fun s c => strreplace s c CHAR_REPLACEMENT) s invalidChars.

Definition setName (t : ftree) (p : Z) (n : list Z) : outcome ftree :=
  updf t p (fun f => f <| fname := checkName n |>).

(** ** Return codes: an enum of negative numbers returned as [u32] *)
Definition RETURN_OK : Z := 0.
Definition NOT_DEFINED : Z := u32 (-1).
Definition PARAM_NULL : Z := u32 (-3).
Definition ERROR_PARAM : Z := u32 (-4).

(** ** Objects *)

(** [new File(n, t)]; [master] is [arch.pcurrent]. *)
Definition new_file (t : ftree) (master : Z) (n : list Z) (ty : file_type) : Z * ftree :=
  let p := next_obj t in
  (p, mk_ftree (<[p := mk_file (checkName n) 0 ty (inode_system t) 0 master 0 0 0 0 0]> (files t))
        (p + 1) (u32 (inode_system t + 1))).

Definition addChild (t : ftree) (p n : Z) : outcome (Z * ftree) :=
  if n =? 0 then Done (PARAM_NULL, t)
  else
    let* t := setParent t n p in
    let* t := setPrec t n 0 in
    let* f := getf t p in
    let* t := setNext t n (fchild f) in
    let* t := if negb (fchild f =? 0) then setPrec t (fchild f) n else Done t in
    let* t := setChild t p n in
    Done (RETURN_OK, t).

Definition createChild (t : ftree) (master p : Z) (n : list Z) (ty : file_type) : outcome (Z * ftree) :=
  let '(newFile, t) := new_file t master n ty in
  let* (_, t) := addChild t p newFile in Done (newFile, t).

(** The part of [~File] that takes the object out of its directory. *)
Definition unlink (t : ftree) (p : Z) : outcome ftree :=
  let* f := getf t p in
  if fprec f =? 0 then
    let* t := setChild t (fparent f) (fnext f) in
    if negb (fnext f =? 0) then setPrec t (fnext f) 0 else Done t
  else if fnext f =? 0 then setNext t (fprec f) 0
  else
    let* t := setNext t (fprec f) (fnext f) in
    setPrec t (fnext f) (fprec f).

Definition forget (t : ftree) (p : Z) : ftree := t <| files ::= base.delete p |>.

(** [delete p]: the children go with it. *)
Fixpoint delete_file (fuel : nat) (t : ftree) (p : Z) : outcome ftree :=
  match fuel with
  | O => OutOfFuel
  | S fuel =>
    if p =? 0 then Done t
    else
      let* t := unlink t p in
      let* f := getf t p in
      let* t := loop (S fuel) (fun '(t, n) =>
        if n =? 0 then Done (inr t)
        else
          let* c := getf t n in
          let* t := delete_file fuel t n in
          Done (inl (t, fnext c))) (t, fchild f) in
      Done (forget t p)
  end.

(** [File::remove] *)
Definition remove (fuel : nat) (t : ftree) (p : Z) : outcome (Z * ftree) :=
  let* t := delete_file fuel t p in Done (NOT_DEFINED, t).

(** [strcmp(a, b) == 0] *)
Definition same_name (a b : list Z) : bool := bool_decide (a = b).

Definition find (fuel : nat) (t : ftree) (p : Z) (n : list Z) : outcome Z :=
  let* f := getf t p in
  loop fuel (fun fp =>
    if fp =? 0 then Done (inr 0)
    else
      let* c := getf t fp in
      Done (if same_name (fname c) n then inr fp else inl (fnext c))) (fchild f).

(** [struct stat_fs], the fields that are not constant. *)
Record stat_fs := mk_stat { st_mode : file_type; st_size : Z; st_blocks : Z }.
Definition stat (t : ftree) (p : Z) : outcome stat_fs :=
  let* f := getf t p in Done (mk_stat (ftype f) (fsize f) (u32 (fsize f + 4095) / 4096)).
