(* ===== verification/Filesystem.v ===== *)
(** The file system: path resolution, links, drivers and mounts
    ([src/src/kernel/core/filesystem.h] and [filesystem.cc]).

    A path is the list of its characters; [beg_p] and [end_p] are positions in
    it, and reading at the end gives the terminator.  A component whose end
    lies before its beginning makes the code copy a negative number of bytes,
    which is [Stuck].  [scan] and a driver's [mount] are virtual calls. *)

From Stdlib Require Import ZArith Lia.
From stdpp Require Import base list gmap option.
From coqutil Require Import Datatypes.RecordSetters.
From S2P Require Import Prelude FileTree.
Import TriangleBracketNotations.

Definition kMaxDrivers : Z := 8.
Definition kMaxMounts : Z := 8.

(** [struct MountInfo] *)
Record mount_info := mk_mount { mpath : list Z; mdriver : Z; mdevice : Z; mount_point : Z }.

(** [class Filesystem]: the drivers and mounts in use, and the file tree. *)
Record filesystem := mk_fs {
  tree : ftree;
  drivers : list Z;
  mounts : list mount_info;
  root : Z;
  dev : Z;
  var : Z;
}.

Definition SLASH : Z := 47.
Definition DOT : Z := 46.

(** The characters of the names [init] creates. *)
Definition name_root : list Z := [47].
Definition name_dev : list Z := [100; 101; 118].
Definition name_proc : list Z := [112; 114; 111; 99].
Definition name_mnt : list Z := [109; 110; 116].
Definition name_sys : list Z := [115; 121; 115].
Definition name_env : list Z := [101; 110; 118].
Definition name_usr : list Z := [117; 115; 114].
Definition name_mods : list Z := [109; 111; 100; 115].
Definition name_sockets : list Z := [115; 111; 99; 107; 101; 116; 115].

Definition char_at (p : list Z) (i : Z) : Z := zget 0 p i.

(** The loops that skip slashes and that look for the end of a component. *)
Definition skip_slashes (p : list Z) (i : Z) : outcome Z :=
  while (S (length p)) (fun i => char_at p i =? SLASH) (fun i => i + 1) i.
Definition find_end (p : list Z) (i : Z) : outcome Z :=
  while (S (length p)) (fun i => negb (char_at p i =? 0) && negb (char_at p i =? SLASH)) (fun i => i + 1) i.

(** The copy of a component: [end_p - beg_p] bytes from [beg_p]. *)
Definition component (p : list Z) (beg_p end_p : Z) : outcome (list Z) :=
  if end_p <? beg_p then Stuck
  else Done (take (Z.to_nat (end_p - beg_p)) (drop (Z.to_nat beg_p) p)).

(** [found->getType() == TYPE_LINK && found->getLink() ? found->getLink() : found] *)
Definition follow (t : ftree) (found : Z) : outcome Z :=
  let* f := getf t found in
  Done (if bool_decide (ftype f = TYPE_LINK) && negb (flink f =? 0) then flink f else found).

Section Filesystem.
Variable fuel : nat.
Variable scan : ftree → Z → outcome ftree.

(** One component of [Filesystem::path]. *)
Definition path_step (p : list Z) (st : ftree * Z * Z * Z) : outcome (ftree * Z * Z * Z + Z * ftree) :=
  let '(t, fp, beg_p, end_p) := st in
  if char_at p beg_p =? 0 then Done (inr (fp, t))
  else
    let* f := getf t fp in
    if negb (bool_decide (ftype f = TYPE_DIRECTORY)) then Done (inr (0, t))
    else
      let* end_p := find_end p end_p in
      let* name := component p beg_p end_p in
      let* (next, t) :=
        if bool_decide (name = [DOT; DOT]) then Done (Some (fparent f), t)
        else if bool_decide (name = [DOT]) then Done (Some fp, t)
        else
          let* t := scan t fp in
          let* found := find fuel t fp name in
          if found =? 0 then Done (None, t) else let* fp := follow t found in Done (Some fp, t) in
      match next with
      | None => Done (inr (0, t))
      | Some fp => let* beg_p := skip_slashes p end_p in Done (inl (t, fp, beg_p, end_p + 1))
      end.

(** [Filesystem::path]; [pcurrent] is the current directory of the current
    process, or nothing when there is none. *)
Definition path (s : filesystem) (pcurrent : option Z) (p : list Z) : outcome (Z * filesystem) :=
  let fp := match pcurrent with
            | Some cdir => if negb (char_at p 0 =? SLASH) then cdir else root s
            | None => root s
            end in
  let* beg_p := skip_slashes p 0 in
  let* (fp, t) := loop fuel (path_step p) (tree s, fp, beg_p, 1) in
  Done (fp, s <| tree := t |>).

(** [Filesystem::path_parent]: the directory, and the name it lacks. *)
Definition path_parent (s : filesystem) (p : list Z) : outcome (Z * option (list Z)) :=
  let t := tree s in
  let* beg_p := skip_slashes p 0 in
  loop fuel (fun '(fp, beg_p, end_p) =>
    if char_at p beg_p =? 0 then Done (inr (fp, None))
    else
      let* f := getf t fp in
      if negb (bool_decide (ftype f = TYPE_DIRECTORY)) then Done (inr (0, None))
      else
        let* end_p := find_end p end_p in
        let* name := component p beg_p end_p in
        let* r :=
          if bool_decide (name = [DOT; DOT]) then Done (Some (fparent f))
          else if bool_decide (name = [DOT]) then Done (Some fp)
          else
            let* found := find fuel t fp name in
            if found =? 0 then Done None else let* fp := follow t found in Done (Some fp) in
        match r with
        | None => Done (inr (fp, Some name))
        | Some fp => let* beg_p := skip_slashes p end_p in Done (inl (fp, beg_p, end_p + 1))
        end) (root s, beg_p, 1).

Definition set_tree (s : filesystem) (t : ftree) : filesystem := s <| tree := t |>.

(** ** The tree the kernel starts with *)

Definition fs_init (s : filesystem) (master : Z) : outcome filesystem :=
  let '(r, t) := new_file (tree s) master name_root TYPE_DIRECTORY in
  let* (d, t) := createChild t master r name_dev TYPE_DIRECTORY in
  let* (_, t) := createChild t master r name_proc TYPE_DIRECTORY in
  let* (_, t) := createChild t master r name_mnt TYPE_DIRECTORY in
  let* (sysd, t) := createChild t master r name_sys TYPE_DIRECTORY in
  let* (v, t) := createChild t master sysd name_env TYPE_DIRECTORY in
  let* (_, t) := createChild t master sysd name_usr TYPE_DIRECTORY in
  let* (_, t) := createChild t master sysd name_mods TYPE_DIRECTORY in
  let* (_, t) := createChild t master sysd name_sockets TYPE_DIRECTORY in
  Done (s <| tree := t |> <| root := r |> <| dev := d |> <| var := v |>).

Definition mknod (s : filesystem) (master : Z) (name : list Z) : outcome filesystem :=
  if dev s =? 0 then Done s
  else let* (_, t) := createChild (tree s) master (dev s) name TYPE_DEVICE in Done (set_tree s t).

Definition pivot_root (s : filesystem) (master targetdir : Z) : outcome (Z * filesystem) :=
  if targetdir =? 0 then Done (root s, s)
  else
    let '(newRoot, t) := new_file (tree s) master name_root TYPE_DIRECTORY in
    let* f := getf t targetdir in
    loop fuel (fun '(t, child) =>
      if child =? 0 then Done (inr (newRoot, set_tree s t))
      else
        let* (_, t) := addChild t newRoot child in
        let* c := getf t child in
        Done (inl (t, fnext c))) (t, fchild f).

(** [link]: with no name left to create, [nname] is never written. *)
Definition link (s : filesystem) (pcurrent : option Z) (master : Z) (fname newf : list Z) : outcome (Z * filesystem) :=
  let* (tolink, s) := path s pcurrent fname in
  if tolink =? 0 then Done (u32 (-1), s)
  else
    let* (parent, nname) := path_parent s newf in
    let* nname := of_option nname in
    let '(linkFile, t) := new_file (tree s) master nname TYPE_LINK in
    let* t := setLink t linkFile tolink in
    let* (_, t) := addChild t parent linkFile in
    Done (RETURN_OK, set_tree s t).

Definition addFile (s : filesystem) (pcurrent : option Z) (dir : list Z) (fp : Z) : outcome (Z * filesystem) :=
  let* (parent, s) := path s pcurrent dir in
  if parent =? 0 then Done (ERROR_PARAM, s)
  else let* (r, t) := addChild (tree s) parent fp in Done (r, set_tree s t).

(** ** Drivers and mounts *)

Variable driver_name : Z → list Z.
Variable driver_mount : Z → Z → Z → ftree → outcome (Z * ftree).

Definition driver_count (s : filesystem) : Z := Z.of_nat (length (drivers s)).
Definition mount_count (s : filesystem) : Z := Z.of_nat (length (mounts s)).

Definition register_driver (s : filesystem) (driver : Z) : bool * filesystem :=
  if (driver =? 0) || (kMaxDrivers <=? driver_count s) then (false, s)
  else (true, s <| drivers ::= fun l => l ++ [driver] |>).

Definition find_driver (s : filesystem) (name : list Z) : Z :=
  default 0 (List.find (fun d => bool_decide (driver_name d = name)) (drivers s)).

Definition mount (s : filesystem) (pcurrent : option Z) (device : Z) (mount_path fs_name : list Z)
  : outcome (bool * filesystem) :=
  if device =? 0 then Done (false, s)
  else if kMaxMounts <=? mount_count s then Done (false, s)
  else
    let driver := find_driver s fs_name in
    if driver =? 0 then Done (false, s)
    else
      let* (mp, s) := path s pcurrent mount_path in
      if mp =? 0 then Done (false, s)
      else
        let* f := getf (tree s) mp in
        if negb (bool_decide (ftype f = TYPE_DIRECTORY)) then Done (false, s)
        else
          let* (final_mp, t) := driver_mount driver mp device (tree s) in
          let s := set_tree s t in
          if final_mp =? 0 then Done (false, s)
          else
            let s := s <| mounts ::= fun l => l ++ [mk_mount (take 127 mount_path) driver device final_mp] |> in
            Done (true, if bool_decide (mount_path = name_root) then s <| root := final_mp |> else s).

End Filesystem.
