(* ===== verification/FileTreeSpec.v ===== *)
(** The file tree's contract: the children of a directory are a list that
    [addChild] pushes to, [find] searches and deletion removes from. *)

From Stdlib Require Import ZArith Lia.
From stdpp Require Import base list gmap option sets.
From coqutil Require Import Datatypes.RecordSetters.
From S2P Require Import Prelude Memory DList FileTree.
Import TriangleBracketNotations.

(** ** Objects *)

Lemma getf_updf_eq t p g f : getf t p = Done f → updf t p g = Done (t <| files ::= fun m => <[p := g f]> m |>).
Proof. intros E. unfold updf. by rewrite E. Qed.

Lemma getf_set t m p : getf (t <| files := m |>) p = of_option (m !! p).
Proof. done. Qed.

Lemma getf_insert_eq t p f : getf (t <| files ::= fun m => <[p := f]> m |>) p = Done f.
Proof. unfold getf. cbn. change (of_option (<[p := f]> (files t) !! p) = Done f). by rewrite lookup_insert_eq. Qed.

Lemma getf_insert_ne t p q f : p ≠ q → getf (t <| files ::= fun m => <[p := f]> m |>) q = getf t q.
Proof.
  intros Hne. unfold getf. change (of_option (<[p := f]> (files t) !! q) = of_option (files t !! q)).
  by rewrite lookup_insert_ne.
Qed.

(** One setter: the object it changes, and that it changes no other. *)
Lemma updf_spec t p g f :
  getf t p = Done f →
  ∃ t', updf t p g = Done t' ∧ getf t' p = Done (g f) ∧ (∀ q, q ≠ p → getf t' q = getf t q) ∧
    next_obj t' = next_obj t ∧ inode_system t' = inode_system t.
Proof.
  intros E. rewrite (getf_updf_eq t p g f E). eexists. split; [done|]. split; [apply getf_insert_eq|].
  split; [|done]. intros q Hq. by apply getf_insert_ne.
Qed.

(** ** Directories *)

(** The siblings [l] of [d], from one whose predecessor is [prev]. *)
Fixpoint siblings (t : ftree) (d prev : Z) (l : list Z) : Prop :=
  match l with
  | [] => True
  | x :: l' => x ≠ 0 ∧ (∃ f, getf t x = Done f ∧ fparent f = d ∧ fprec f = prev ∧ fnext f = hd 0 l') ∧ siblings t d x l'
  end.

Definition dir_ok (t : ftree) (d : Z) (l : list Z) : Prop :=
  (∃ f, getf t d = Done f ∧ fchild f = hd 0 l) ∧ siblings t d 0 l ∧ NoDup l ∧ d ∉ l ∧ d ≠ 0.

Lemma siblings_frame t t' d prev l :
  (∀ x, x ∈ l → getf t' x = getf t x) → siblings t d prev l → siblings t' d prev l.
Proof.
  revert prev. induction l as [|x l IH]; intros prev Hag; [done|]. intros (Hx & (f & Ef & Hf) & Hl).
  split; [done|]. split; [exists f; split; [by rewrite Hag by set_solver|done]|]. apply IH; [|done]. set_solver.
Qed.

Lemma siblings_live t d prev l x : siblings t d prev l → x ∈ l → x ≠ 0 ∧ ∃ f, getf t x = Done f ∧ fparent f = d.
Proof.
  revert prev. induction l as [|y l IH]; intros prev; [set_solver|]. intros (Hy & (f & Ef & Hp & _) & Hl).
  intros [->|Hx]%elem_of_cons; [eauto|by eapply IH].
Qed.

Lemma siblings_app t d prev l1 l2 :
  siblings t d prev (l1 ++ l2) →
  siblings t d (List.last l1 prev) l2.
Proof.
  revert prev. induction l1 as [|x l1 IH]; intros prev; [done|]. intros (_ & _ & Hl). specialize (IH _ Hl).
  destruct l1 as [|z l1]; [done|]. change (List.last (x :: z :: l1) prev) with (List.last (z :: l1) prev).
  by rewrite (last_default z l1 prev x).
Qed.

(** The first file of [l] with the name [n]. *)
Definition first_named (t : ftree) (n : list Z) (l : list Z) : Z :=
  default 0 (List.find (fun x => match getf t x with Done f => same_name (fname f) n | _ => false end) l).

(** [find] returns the first child with that name, and 0 when there is none. *)
Theorem find_spec fuel t d l n :
  dir_ok t d l → (length l < fuel)%nat → find fuel t d n = Done (first_named t n l).
Proof.
  intros ((f & Ef & Hc) & Hs & _) Hf. unfold find, first_named. rewrite Ef. cbn [obind]. rewrite Hc.
  clear Ef Hc f. assert (∃ prev, siblings t d prev l) as [prev Hs'] by eauto. clear Hs. revert fuel prev Hf Hs'. induction l as [|x l IH]; intros [|fuel] prev Hf Hs; try (simpl in Hf; lia);
    cbn [loop hd List.find]; [reflexivity|].
  destruct Hs as (Hx & (f & Ef & _ & _ & Hn) & Hs). rewrite (proj2 (Z.eqb_neq x 0)) by done. rewrite Ef. cbn [obind].
  destruct (same_name (fname f) n); [done|]. rewrite Hn. apply (IH fuel x); [simpl in Hf; lia|done].
Qed.

(** [addChild] pushes the file in front of the children. *)
Lemma addChild_spec t d l n fn :
  dir_ok t d l → getf t n = Done fn → n ≠ 0 → n ≠ d → n ∉ l →
  ∃ t', addChild t d n = Done (RETURN_OK, t') ∧ dir_ok t' d (n :: l) ∧ next_obj t' = next_obj t ∧
    (∀ x, x ≠ d → x ≠ n → x ∉ l → getf t' x = getf t x) ∧ ∃ fn', getf t' n = Done fn' ∧ fname fn' = fname fn.
Proof.
  intros ((fd & Ed & Hc) & Hs & Hnd & Hdl & Hd0) En Hn0 Hnd' Hnl. unfold addChild. rewrite (proj2 (Z.eqb_neq n 0)) by done.
  unfold setParent, setPrec, setNext, setChild.
  destruct (updf_spec t n (fun f => f <| fparent := d |>) fn En) as (t1 & -> & E1 & O1 & N1 & _). cbn [obind].
  destruct (updf_spec t1 n (fun f => f <| fprec := 0 |>) _ E1) as (t2 & -> & E2 & O2 & N2 & _). cbn [obind].
  assert (getf t2 d = Done fd) as -> by (rewrite O2, O1 by done; done). cbn [obind].
  destruct (updf_spec t2 n (fun f => f <| fnext := fchild fd |>) _ E2) as (t3 & -> & E3 & O3 & N3 & _). cbn [obind].
  assert (∃ t4, (if negb (fchild fd =? 0) then updf t3 (fchild fd) (fun f => f <| fprec := n |>) else Done t3) = Done t4 ∧
    siblings t4 d n l ∧ getf t4 n = getf t3 n ∧ getf t4 d = Done fd ∧ next_obj t4 = next_obj t3 ∧
    (∀ x, x ≠ d → x ≠ n → x ∉ l → getf t4 x = getf t x)) as (t4 & -> & Hs4 & E4 & Ed4 & N4 & O4).
  { assert (∀ x, x ≠ n → getf t3 x = getf t x) as O3' by (intros x Hx; by rewrite O3, O2, O1).
    assert (siblings t3 d 0 l) as Hs3 by (apply (siblings_frame t); [intros x Hx; apply O3'; by intros ->|done]).
    rewrite Hc. destruct l as [|x l]; cbn [hd].
    - exists t3. split; [done|]. split; [done|]. split; [done|]. split; [by rewrite O3'|]. split; [done|]. intros. by apply O3'.
    - destruct Hs3 as (Hx0 & (fx & Ex & Hp & _ & Hnx) & Hs3). rewrite (proj2 (Z.eqb_neq x 0)) by done. cbn [negb].
      destruct (updf_spec t3 x (fun f => f <| fprec := n |>) fx Ex) as (t4 & -> & Ex4 & O4 & N4 & _).
      apply list.NoDup_cons in Hnd as [Hxl Hnd].
      exists t4. split; [done|]. split; [|split; [|split; [|split; [done|]]]].
      + split; [done|]. split; [exists (fx <| fprec := n |>); done|].
        apply (siblings_frame t3); [|done]. intros y Hy. apply O4. by intros ->.
      + apply O4. intros ->. set_solver.
      + rewrite O4 by (intros ->; set_solver). by rewrite O3'.
      + intros y Hy1 Hy2 Hy3. rewrite O4 by (intros ->; set_solver). by apply O3'. }
  cbn [obind]. destruct (updf_spec t4 d (fun f => f <| fchild := n |>) fd Ed4) as (t5 & -> & E5 & O5 & N5 & _). cbn [obind].
  exists t5. split; [done|]. split; [split; [|split; [|split; [|split]]]|split; [|split]].
  - exists (fd <| fchild := n |>). done.
  - split; [done|]. split.
    + eexists. split; [rewrite O5 by done; rewrite E4; exact E3|]. split; [done|]. split; [done|]. exact Hc.
    + apply (siblings_frame t4); [|done]. intros x Hx. apply O5. by intros ->.
  - constructor; done.
  - set_solver.
  - done.
  - congruence.
  - intros x H1 H2 H3. rewrite O5 by done. by apply O4.
  - rewrite O5, E4, E3 by done. by eexists.
Qed.

(** ** What relinking leaves alone *)

(** Everything about a file but its links. *)
Definition content (f : file) : list Z * Z * file_type * Z := (fname f, fsize f, ftype f, finode f).

(** The same objects with the same content. *)
Record same_objects (t t' : ftree) : Prop := {
  so_content x f : getf t x = Done f → ∃ f', getf t' x = Done f' ∧ content f' = content f;
  so_none x : files t !! x = None → files t' !! x = None;
  so_next : next_obj t' = next_obj t;
}.

#[export] Instance same_objects_preorder : PreOrder same_objects.
Proof.
  split; [intros t; split; eauto|]. intros t1 t2 t3 [C1 N1 E1] [C2 N2 E2]. split; [|auto|congruence].
  intros x f Ef. destruct (C1 x f Ef) as (f' & Ef' & Hc). destruct (C2 x f' Ef') as (f'' & Ef'' & Hc').
  exists f''. split; [done|congruence].
Qed.

Lemma updf_same t p g t' : updf t p g = Done t' → (∀ f, content (g f) = content f) → same_objects t t'.
Proof.
  intros E Hg. destruct (getf t p) as [fp| |] eqn:Ep; [|unfold updf in E; by rewrite Ep in E..].
  destruct (updf_spec t p g fp Ep) as (t2 & E2 & Hp & Ho & Hn & _). rewrite E in E2. injection E2 as <-. split; [| |done].
  - intros x f Ef. destruct (decide (x = p)) as [->|Hne]; [|exists f; by rewrite Ho].
    exists (g fp). split; [done|]. rewrite Hg. by rewrite Ep in Ef; injection Ef as ->.
  - intros x Hx. assert (x ≠ p) as Hne by (intros ->; unfold getf in Ep; by rewrite Hx in Ep).
    specialize (Ho x Hne). unfold getf in Ho. rewrite Hx in Ho. by destruct (files t' !! x).
Qed.

Lemma addChild_same t d n r t' : addChild t d n = Done (r, t') → same_objects t t'.
Proof.
  unfold addChild. destruct (n =? 0); [intros [= _ <-]; reflexivity|].
  intros (t1 & E1 & (t2 & E2 & (f & Ef & (t3 & E3 & (t4 & E4 & (t5 & E5 & [= _ <-])%obind_Done)%obind_Done)%obind_Done)%obind_Done)%obind_Done)%obind_Done.
  etrans; [by eapply updf_same|]. etrans; [by eapply updf_same|]. etrans; [by eapply updf_same|].
  etrans; [|by eapply updf_same]. destruct (negb _); [by eapply updf_same|by injection E4 as ->].
Qed.

(** ** Deleting *)

(** [~File] of an object that is in no directory writes through the null
    parent: that is every process, for none is linked into the tree. *)
Lemma delete_orphan fuel t p f :
  getf t p = Done f → p ≠ 0 → fprec f = 0 → fparent f = 0 → files t !! 0 = None →
  delete_file (S fuel) t p = Stuck.
Proof.
  intros Ef Hp Hprec Hpar H0. cbn [delete_file]. rewrite (proj2 (Z.eqb_neq p 0)) by done.
  unfold unlink. rewrite Ef. cbn [obind]. rewrite Hprec, Hpar. cbn [Z.eqb].
  unfold setChild, updf, getf. by rewrite H0.
Qed.

(** The links of a directory around a removed child. *)
Lemma siblings_relink t t' d prev l1 x l2 :
  siblings t d prev (l1 ++ x :: l2) → NoDup (l1 ++ x :: l2) →
  (∀ y, y ∈ l1 → y ≠ List.last l1 0 → getf t' y = getf t y) →
  (l1 ≠ [] → ∃ f, getf t (List.last l1 0) = Done f ∧ getf t' (List.last l1 0) = Done (f <| fnext := hd 0 l2 |>)) →
  (∀ y, y ∈ l2 → y ≠ hd 0 l2 → getf t' y = getf t y) →
  (l2 ≠ [] → ∃ f, getf t (hd 0 l2) = Done f ∧ getf t' (hd 0 l2) = Done (f <| fprec := List.last l1 prev |>)) →
  siblings t' d prev (l1 ++ l2).
Proof.
  intros Hs Hnd H1 HL H2 HH.
  assert (∀ p, siblings t d p l2 → NoDup l2 → (l2 ≠ [] → ∃ f, getf t (hd 0 l2) = Done f ∧ getf t' (hd 0 l2) = Done (f <| fprec := List.last l1 prev |>)) →
    siblings t' d (List.last l1 prev) l2) as Htail.
  { intros p Hs2 Hnd2 HH'. destruct l2 as [|y l2]; [done|]. destruct Hs2 as (Hy & (f & Ef & Hp & _ & Hn) & Hs2).
    destruct (HH' ltac:(done)) as (f' & Ef' & E'). cbn [hd] in *. rewrite Ef in Ef'. injection Ef' as <-.
    split; [done|]. split; [by eexists|]. apply (siblings_frame t); [|done]. intros z Hz. apply H2; [set_solver|].
    intros ->. by apply list.NoDup_cons in Hnd2 as [? _]. }
  pose proof (siblings_app t d prev l1 (x :: l2) Hs) as (_ & _ & Hs2).
  pose proof Hnd as (_ & _ & [_ Hnd2]%list.NoDup_cons)%list.NoDup_app.
  specialize (Htail x Hs2 Hnd2 HH). clear HH H2 Hs2 Hnd2.
  revert prev Hs Htail. induction l1 as [|y l1 IH]; intros prev Hs Htail; [done|].
  destruct Hs as (Hy & (f & Ef & Hp & Hpr & Hn) & Hs). apply list.NoDup_cons in Hnd as [Hyl Hnd].
  destruct l1 as [|z l1].
  - destruct (HL ltac:(done)) as (f' & Ef' & E'). cbn [List.last] in *. rewrite Ef in Ef'. injection Ef' as <-.
    split; [done|]. split; [by eexists|done].
  - change (List.last (y :: z :: l1) 0) with (List.last (z :: l1) 0) in *.
    change (List.last (y :: z :: l1) prev) with (List.last (z :: l1) prev) in Htail.
    rewrite (last_default z l1 prev y) in Htail.
    assert (List.last (z :: l1) 0 ∈ z :: l1) as Hlast.
    { clear. generalize 0 as k. induction l1 as [|w l1 IH] in z |- *; intros k; [by left|]. right. apply IH. }
    split; [done|]. split; [exists f; split; [rewrite H1; [done|by left|intros ->; apply Hyl; set_solver]|done]|].
    apply (IH Hnd); [|intros _; by apply HL|done|done]. intros w Hw. apply H1. by right.
Qed.

(** What there is around a child. *)
Lemma child_links t d l1 x l2 :
  dir_ok t d (l1 ++ x :: l2) →
  (∃ f, getf t x = Done f ∧ fparent f = d ∧ fprec f = List.last l1 0 ∧ fnext f = hd 0 l2) ∧
  x ≠ d ∧ x ∉ l1 ∧ x ∉ l2 ∧ NoDup (l1 ++ l2) ∧ (∀ y, y ∈ l1 → y ∉ l2) ∧ (∀ y, y ∈ l1 ++ l2 → y ≠ d) ∧
  (l2 ≠ [] → hd 0 l2 ∈ l2 ∧ hd 0 l2 ≠ 0 ∧ ∃ g, getf t (hd 0 l2) = Done g) ∧
  (l1 ≠ [] → List.last l1 0 ∈ l1 ∧ List.last l1 0 ≠ 0 ∧ ∃ g, getf t (List.last l1 0) = Done g).
Proof.
  intros (_ & Hs & Hnd & Hd & Hd0).
  pose proof (siblings_app t d 0 l1 (x :: l2) Hs) as (_ & (f & Ef & Hpar & Hprec & Hnext) & Hs2).
  apply list.NoDup_app in Hnd as (Hnd1 & Hdis & [Hx2 Hnd2]%list.NoDup_cons).
  split; [by exists f|]. split; [intros ->; apply Hd, elem_of_app; right; by left|].
  split; [intros Hx; apply (Hdis x Hx); by left|]. split; [done|]. split; [|split; [|split; [|split]]].
  - apply list.NoDup_app. split; [done|]. split; [|done]. intros y Hy Hy2. apply (Hdis y Hy). by right.
  - intros y Hy Hy2. apply (Hdis y Hy). by right.
  - intros y Hy ->. apply Hd. set_solver.
  - intros Hne. destruct l2 as [|y l2]; [done|]. destruct (siblings_live t d x (y :: l2) y Hs2) as (? & g & ? & _); [by left|].
    split; [by left|]. split; [done|]. by exists g.
  - intros Hne. assert (List.last l1 0 ∈ l1) as Hin.
    { destruct l1 as [|w l1]; [done|]. clear. generalize 0 as k. induction l1 as [|v l1 IH] in w |- *; intros k; [by left|]. right. apply IH. }
    split; [done|]. destruct (siblings_live t d 0 _ (List.last l1 0) Hs) as (? & g & ? & _); [set_solver|]. eauto.
Qed.

(** Taking the first child out of its directory, and a later one. *)
Lemma unlink_first t d x l2 :
  dir_ok t d (x :: l2) →
  ∃ t', unlink t x = Done t' ∧ dir_ok t' d l2 ∧ getf t' x = getf t x ∧ next_obj t' = next_obj t ∧
    (∀ y, y ≠ d → y ∉ x :: l2 → getf t' y = getf t y).
Proof.
  intros Hdir. destruct (child_links t d [] x l2 Hdir) as ((f & Ef & Hpar & Hprec & Hnext) & Hxd & _ & Hx2 & Hnd' & _ & Hned & Hhd & _).
  destruct Hdir as ((fd & Ed & Hc) & Hs & Hnd & Hd & Hd0). cbn [app] in *.
  unfold unlink, setChild, setPrec, setNext. rewrite Ef. cbn [obind]. rewrite Hprec, Hnext, Hpar. cbn [List.last Z.eqb].
  destruct (updf_spec t d (fun f => f <| fchild := hd 0 l2 |>) fd Ed) as (t1 & -> & E1 & O1 & N1 & _). cbn [obind].
  destruct (decide (l2 = [])) as [->|Hl2].
  { exists t1. split; [done|]. split; [|split; [by rewrite O1|split; [done|intros; by apply O1]]].
    split; [by eexists|]. split; [done|]. split; [constructor|]. split; [apply not_elem_of_nil|done]. }
  destruct (Hhd Hl2) as (Hin & Hn0 & g & Eg). set (n := hd 0 l2) in *. rewrite (proj2 (Z.eqb_neq n 0)) by done. cbn [negb].
  assert (n ≠ d ∧ n ≠ x) as [Hnd3 Hnx] by (split; [auto|congruence]).
  destruct (updf_spec t1 n (fun f => f <| fprec := 0 |>) g ltac:(by rewrite O1)) as (t2 & -> & E2 & O2 & N2 & _).
  exists t2. split; [done|]. split; [split; [|split; [|split; [done|split; [intros ?; by apply (Hned d)|done]]]]|split; [|split; [congruence|]]].
  - eexists. split; [by rewrite O2|done].
  - apply (siblings_relink t t2 d 0 [] x l2 Hs Hnd); [intros y Hy; by apply elem_of_nil in Hy|done| |].
    + intros y Hy Hyn. rewrite O2 by done. apply O1. auto.
    + intros _. exists g. done.
  - by rewrite O2, O1 by congruence.
  - intros y H1 H2. rewrite O2 by (intros ->; apply H2; by right). by apply O1.
Qed.

Lemma unlink_later t d l1 x l2 :
  l1 ≠ [] → dir_ok t d (l1 ++ x :: l2) →
  ∃ t', unlink t x = Done t' ∧ dir_ok t' d (l1 ++ l2) ∧ getf t' x = getf t x ∧ next_obj t' = next_obj t ∧
    (∀ y, y ≠ d → y ∉ l1 ++ x :: l2 → getf t' y = getf t y).
Proof.
  intros Hl1 Hdir. destruct (child_links t d l1 x l2 Hdir) as ((f & Ef & Hpar & Hprec & Hnext) & Hxd & Hx1 & Hx2 & Hnd' & Hdis & Hned & Hhd & Hlast).
  destruct Hdir as ((fd & Ed & Hc) & Hs & Hnd & Hd & Hd0).
  destruct (Hlast Hl1) as (Hin1 & Hp0 & gp & Egp). unfold unlink, setChild, setPrec, setNext. rewrite Ef. cbn [obind].
  rewrite Hprec, Hnext, Hpar. set (p := List.last l1 0) in *. rewrite (proj2 (Z.eqb_neq p 0)) by done.
  assert (p ≠ d ∧ p ≠ x) as [Hpd Hpx] by (split; [apply Hned, elem_of_app; by left|by intros ->]).
  assert (hd 0 (l1 ++ l2) = hd 0 (l1 ++ x :: l2)) as Ehd by (by destruct l1).
  assert (d ∉ l1 ++ l2) as Hd' by (intros ?; by apply (Hned d)).
  destruct (updf_spec t p (fun f => f <| fnext := hd 0 l2 |>) gp Egp) as (t1 & E1 & G1 & O1 & N1 & _).
  destruct (decide (l2 = [])) as [->|Hl2].
  { cbn [hd Z.eqb] in *. rewrite E1. exists t1. split; [done|].
    split; [split; [|split; [|split; [done|split; done]]]|split; [by rewrite O1|split; [done|]]].
    - exists fd. rewrite O1 by done. by rewrite Ehd.
    - apply (siblings_relink t t1 d 0 l1 x [] Hs Hnd); [|eauto|intros y Hy; by apply elem_of_nil in Hy|done]. intros y Hy Hyp. by apply O1.
    - intros y H1 H2. apply O1. set_solver. }
  destruct (Hhd Hl2) as (Hin & Hn0 & g & Eg). set (n := hd 0 l2) in *. rewrite (proj2 (Z.eqb_neq n 0)), E1 by done. cbn [obind].
  assert (n ≠ p) as Hnp by (intros E; apply (Hdis p Hin1); congruence).
  assert (n ≠ d ∧ n ≠ x) as [Hnd3 Hnx] by (split; [apply Hned, elem_of_app; by right|congruence]).
  destruct (updf_spec t1 n (fun f => f <| fprec := p |>) g ltac:(by rewrite O1)) as (t2 & -> & E2 & O2 & N2 & _).
  exists t2. split; [done|]. split; [split; [|split; [|split; [done|split; done]]]|split; [|split; [congruence|]]].
  - exists fd. rewrite O2, O1 by congruence. by rewrite Ehd.
  - apply (siblings_relink t t2 d 0 l1 x l2 Hs Hnd).
    + intros y Hy Hyp. rewrite O2 by (intros ->; by apply (Hdis n Hy)). by apply O1.
    + intros _. exists gp. split; [done|]. by rewrite O2.
    + intros y Hy Hyn. rewrite O2 by done. apply O1. intros ->. by apply (Hdis p Hin1).
    + intros _. by exists g.
  - by rewrite O2, O1 by congruence.
  - intros y H1 H2. rewrite O2, O1; [done|set_solver..].
Qed.

Lemma unlink_spec t d l1 x l2 :
  dir_ok t d (l1 ++ x :: l2) →
  ∃ t', unlink t x = Done t' ∧ dir_ok t' d (l1 ++ l2) ∧ getf t' x = getf t x ∧ next_obj t' = next_obj t ∧
    (∀ y, y ≠ d → y ∉ l1 ++ x :: l2 → getf t' y = getf t y).
Proof. destruct l1 as [|y l1]; [apply unlink_first|by apply unlink_later]. Qed.
