(* ===== verification/FilesystemSpec.v ===== *)
(** Path resolution's contract: on a path whose components are separated by
    single slashes, [path] walks the tree one component at a time.  A doubled
    slash breaks it, and [pivot_root] moves one child. *)

From Stdlib Require Import ZArith Lia.
From stdpp Require Import base list gmap option sets.
From coqutil Require Import Datatypes.RecordSetters.
From S2P Require Import Prelude FileTree FileTreeSpec Filesystem.
Import TriangleBracketNotations.

(** ** The walk *)

(** The file that the components reach from [fp]: [..] is the parent (null
    above the root, and using null is [Stuck]), [.] the directory itself, any
    other name a child, or the file a link child points to; 0 when a component
    is missing or is looked up in a file that is no directory. *)
Fixpoint walk (fuel : nat) (t : ftree) (fp : Z) (names : list (list Z)) : outcome Z :=
  match names with
  | [] => Done fp
  | name :: names =>
    let* f := getf t fp in
    if negb (bool_decide (ftype f = TYPE_DIRECTORY)) then Done 0
    else if bool_decide (name = [DOT; DOT]) then walk fuel t (fparent f) names
    else if bool_decide (name = [DOT]) then walk fuel t fp names
    else
      let* found := find fuel t fp name in
      if found =? 0 then Done 0
      else let* next := follow t found in walk fuel t next names
  end.

(** A component: at least one character, no slash and no terminator. *)
Definition plain (name : list Z) : Prop := name ≠ [] ∧ Forall (fun c => c ≠ 0 ∧ c ≠ SLASH) name.

(** The components, each after a slash. *)
Definition render (names : list (list Z)) : list Z := concat (map (fun name => SLASH :: name) names).

(** ** Scanning a path *)

Lemma char_at_app pre q : char_at (pre ++ q) (Z.of_nat (length pre)) = hd 0 q.
Proof.
  unfold char_at, zget. rewrite decide_True by lia. rewrite Nat2Z.id, app_nth2, Nat.sub_diag by lia. by destruct q.
Qed.

Lemma find_end_spec pre name rest :
  Forall (fun c => c ≠ 0 ∧ c ≠ SLASH) name → hd 0 rest = 0 ∨ hd 0 rest = SLASH →
  find_end (pre ++ name ++ rest) (Z.of_nat (length pre)) = Done (Z.of_nat (length (pre ++ name))).
Proof.
  intros Hname Hrest. unfold find_end, while.
  assert (length name < S (length (pre ++ name ++ rest)))%nat as Hfuel by (rewrite !length_app; lia).
  revert Hfuel. generalize (S (length (pre ++ name ++ rest))) as fuel. revert pre.
  induction Hname as [|c name [H1 H2] Hname IH]; intros pre [|fuel] Hl; try (simpl in Hl; lia); cbn [loop];
    rewrite char_at_app.
  - cbn [app]. rewrite app_nil_r. destruct Hrest as [-> | ->]; done.
  - cbn [app hd]. rewrite (proj2 (Z.eqb_neq c 0)), (proj2 (Z.eqb_neq c SLASH)) by done. cbn [negb andb obind].
    specialize (IH (pre ++ [c]) fuel ltac:(simpl in Hl; lia)). rewrite <- !app_assoc in IH. cbn [app] in IH.
    rewrite (length_app pre [c]) in IH. cbn [length] in IH. rewrite Nat2Z.inj_add in IH. exact IH.
Qed.

Lemma skip_slashes_none p i : char_at p i ≠ SLASH → skip_slashes p i = Done i.
Proof.
  intros H. unfold skip_slashes, while. cbn [loop]. by rewrite (proj2 (Z.eqb_neq _ _) H).
Qed.

Lemma skip_slashes_one pre q :
  hd 0 q ≠ SLASH → skip_slashes (pre ++ SLASH :: q) (Z.of_nat (length pre)) = Done (Z.of_nat (length (pre ++ [SLASH]))).
Proof.
  intros Hq. unfold skip_slashes, while. rewrite length_app. cbn [length]. rewrite Nat.add_succ_r. cbn [loop].
  rewrite char_at_app. cbn [hd]. rewrite Z.eqb_refl. cbn [obind].
  replace (pre ++ SLASH :: q) with ((pre ++ [SLASH]) ++ q) by (by rewrite <- app_assoc).
  replace (Z.of_nat (length pre) + 1) with (Z.of_nat (length (pre ++ [SLASH]))) by (rewrite length_app; simpl; lia).
  rewrite char_at_app. by rewrite (proj2 (Z.eqb_neq _ _) Hq).
Qed.

Lemma component_spec pre name rest :
  component (pre ++ name ++ rest) (Z.of_nat (length pre)) (Z.of_nat (length (pre ++ name))) = Done name.
Proof.
  unfold component. rewrite length_app. rewrite (proj2 (Z.ltb_ge _ _)) by lia. rewrite Nat2Z.id.
  replace (Z.to_nat (Z.of_nat (length pre + length name) - Z.of_nat (length pre))) with (length name) by lia.
  by rewrite drop_app_length, take_app_length.
Qed.

Lemma render_hd names : names = [] ∧ render names = [] ∨ hd 0 (render names) = SLASH ∧ render names ≠ [].
Proof. destruct names; [by left|by right]. Qed.

Lemma plain_hd name : plain name → hd 0 name ≠ SLASH ∧ hd 0 name ≠ 0.
Proof. intros [Hn Hf]. destruct name as [|c name]; [done|]. by inversion Hf as [|? ? []]. Qed.

(** ** Resolution *)

(** The class's own [scan] does nothing. *)
Definition no_scan (t : ftree) (fp : Z) : outcome ftree := Done t.

(** What follows the slash before the first component. *)
Definition render_tail (names : list (list Z)) : list Z :=
  match names with [] => [] | name :: names => name ++ render names end.

Lemma path_loop fuel t names :
  Forall plain names →
  ∀ pre fp end_p n, (names ≠ [] → end_p = Z.of_nat (length pre)) → (length names < n)%nat →
    loop n (path_step fuel no_scan (pre ++ render_tail names)) (t, fp, Z.of_nat (length pre), end_p) =
    let* r := walk fuel t fp names in Done (r, t).
Proof.
  intros Hp. induction Hp as [|name names Hname Hp IH]; intros pre fp end_p [|n] Hend Hn; try (simpl in Hn; lia);
    cbn [loop]; unfold path_step at 1; rewrite char_at_app; cbn [render_tail].
  { done. }
  destruct (plain_hd name Hname) as [Hns Hn0]. specialize (Hend ltac:(done)). subst end_p.
  assert (hd 0 (name ++ render names) = hd 0 name) as -> by (destruct Hname as [? _]; by destruct name).
  rewrite (proj2 (Z.eqb_neq _ 0)) by done. cbn [walk].
  destruct (getf t fp) as [f| |]; cbn [obind]; [|done..].
  destruct (negb (bool_decide (ftype f = TYPE_DIRECTORY))); [done|].
  rewrite find_end_spec by (apply Hname || (destruct (render_hd names) as [[_ ->]|[-> _]]; auto)). cbn [obind].
  rewrite component_spec. cbn [obind].
  assert (∀ fp', (let* beg_p := skip_slashes (pre ++ name ++ render names) (Z.of_nat (length (pre ++ name))) in
      loop n (path_step fuel no_scan (pre ++ name ++ render names)) (t, fp', beg_p, Z.of_nat (length (pre ++ name)) + 1)) =
    let* r := walk fuel t fp' names in Done (r, t)) as Hnext.
  { intros fp'. simpl in Hn. destruct names as [|name' names].
    - change (render []) with (@nil Z). rewrite app_nil_r. rewrite skip_slashes_none.
      + cbn [obind]. specialize (IH (pre ++ name) fp' (Z.of_nat (length (pre ++ name)) + 1) n ltac:(done) ltac:(simpl; lia)).
        cbn [render_tail] in IH. by rewrite app_nil_r in IH.
      + rewrite <- (app_nil_r (pre ++ name)) at 1. by rewrite char_at_app.
    - change (render (name' :: names)) with (SLASH :: render_tail (name' :: names)). rewrite !app_assoc.
      rewrite skip_slashes_one by (apply Forall_cons in Hp as [Hp' _]; destruct (plain_hd name' Hp') as [? _];
        destruct Hp' as [? _]; by destruct name'). cbn [obind].
      specialize (IH ((pre ++ name) ++ [SLASH]) fp' (Z.of_nat (length (pre ++ name)) + 1) n).
      rewrite <- (app_assoc (pre ++ name)) in IH. cbn [app] in IH. rewrite IH; [done|intros _; rewrite !length_app; simpl; lia|simpl in *; lia]. }
  destruct (bool_decide (name = [DOT; DOT])); cbn [obind].
  { rewrite <- Hnext. by destruct (skip_slashes _ _). }
  destruct (bool_decide (name = [DOT])); cbn [obind].
  { rewrite <- Hnext. by destruct (skip_slashes _ _). }
  unfold no_scan at 1. cbn [obind]. destruct (find fuel t fp name) as [found| |]; cbn [obind]; [|done..].
  destruct (found =? 0); [done|]. destruct (follow t found) as [fp'| |]; cbn [obind]; [|done..].
  rewrite <- Hnext. by destruct (skip_slashes _ _).
Qed.

(** An absolute path starts at the root. *)
Lemma start_root (s : filesystem) (pcurrent : option Z) q :
  match pcurrent with
  | Some cdir => if negb (char_at (SLASH :: q) 0 =? SLASH) then cdir else root s
  | None => root s
  end = root s.
Proof. by destruct pcurrent. Qed.

(** C19. On a path [/a/b/c] of one or more components, whatever the current
    directory, [path] returns what the walk of the components from the root
    returns and leaves the tree alone. *)
Theorem path_spec fuel (s : filesystem) pcurrent names :
  names ≠ [] → Forall plain names → (length names < fuel)%nat →
  path fuel no_scan s pcurrent (render names) =
    let* r := walk fuel (tree s) (root s) names in Done (r, s).
Proof.
  intros Hne Hp Hf. unfold path. destruct names as [|name names]; [done|].
  change (render (name :: names)) with (SLASH :: render_tail (name :: names)). rewrite start_root.
  assert (skip_slashes (SLASH :: render_tail (name :: names)) 0 = Done 1) as ->.
  { apply (skip_slashes_one []). apply Forall_cons in Hp as [Hp' _].
    destruct (plain_hd name Hp') as [? _]. destruct Hp' as [? _]. by destruct name. }
  cbn [obind].
  pose proof (path_loop fuel (tree s) (name :: names) Hp ([] ++ [SLASH]) (root s) 1 fuel ltac:(done) Hf) as Hl.
  rewrite <- app_assoc in Hl. cbn [app] in Hl. change (Z.of_nat (length [SLASH])) with 1 in Hl. rewrite Hl.
  destruct (walk fuel (tree s) (root s) (name :: names)); cbn [obind]; [|done..]. by destruct s.
Qed.

(** A path that starts with two slashes: the first component would end before
    it begins, and the code copies that many bytes. *)
Lemma double_slash_stuck fuel (s : filesystem) pcurrent name f :
  plain name → getf (tree s) (root s) = Done f → ftype f = TYPE_DIRECTORY →
  path (S fuel) no_scan s pcurrent (SLASH :: SLASH :: name) = Stuck.
Proof.
  intros Hname Ef Hdir. destruct (plain_hd name Hname) as [H1 H2]. unfold path.
  assert (char_at (SLASH :: SLASH :: name) 2 = hd 0 name) as Ehd by apply (char_at_app [SLASH; SLASH] name).
  assert (skip_slashes (SLASH :: SLASH :: name) 0 = Done 2) as Hskip.
  { unfold skip_slashes, while. cbn [length loop]. change (char_at (SLASH :: SLASH :: name) 0) with SLASH.
    rewrite Z.eqb_refl. cbn [obind]. change (char_at (SLASH :: SLASH :: name) (0 + 1)) with SLASH.
    rewrite Z.eqb_refl. cbn [obind].
    change (0 + 1 + 1) with 2. by rewrite Ehd, (proj2 (Z.eqb_neq _ _) H1). }
  rewrite start_root, Hskip. cbn [obind].
  cbn [loop]. unfold path_step at 1. rewrite Ehd, (proj2 (Z.eqb_neq _ _) H2), Ef. cbn [obind].
  rewrite Hdir, bool_decide_eq_true_2 by done. cbn [negb].
  assert (find_end (SLASH :: SLASH :: name) 1 = Done 1) as -> by (unfold find_end, while; cbn [length loop]; reflexivity).
  done.
Qed.

(** ** Changing the root *)

(** [addChild] of a file that is in another directory: only what a move needs. *)
Lemma move_child t p n fp fn :
  getf t p = Done fp → getf t n = Done fn → n ≠ 0 → n ≠ p → fchild fp = 0 →
  ∃ t', addChild t p n = Done (RETURN_OK, t') ∧
    getf t' p = Done (fp <| fchild := n |>) ∧
    getf t' n = Done (fn <| fparent := p |> <| fprec := 0 |> <| fnext := 0 |>) ∧
    ∀ q, q ≠ p → q ≠ n → getf t' q = getf t q.
Proof.
  intros Ep En Hn Hnp Hc. unfold addChild, setParent, setPrec, setNext, setChild.
  rewrite (proj2 (Z.eqb_neq n 0)) by done.
  destruct (updf_spec t n (fun f => f <| fparent := p |>) fn En) as (t1 & -> & E1 & O1 & _). cbn [obind].
  destruct (updf_spec t1 n (fun f => f <| fprec := 0 |>) _ E1) as (t2 & -> & E2 & O2 & _). cbn [obind].
  assert (getf t2 p = Done fp) as -> by (by rewrite O2, O1 by done). cbn [obind]. rewrite Hc.
  destruct (updf_spec t2 n (fun f => f <| fnext := 0 |>) _ E2) as (t3 & -> & E3 & O3 & _). cbn [obind Z.eqb negb].
  destruct (updf_spec t3 p (fun f => f <| fchild := n |>) fp) as (t4 & -> & E4 & O4 & _); [by rewrite O3, O2, O1 by done|].
  cbn [obind]. exists t4. split; [done|]. split; [done|]. split; [by rewrite O4|].
  intros q H1 H2. by rewrite O4, O3, O2, O1.
Qed.

(** [pivot_root] moves the first child of the target and no other: adding
    it to the new root clears its [next], which is where the loop goes on.  The
    target still points to that child, and the children after it are reachable
    from neither directory. *)
Theorem pivot_root_moves_one fuel (s : filesystem) master d x l :
  dir_ok (tree s) d (x :: l) → next_obj (tree s) ≠ 0 → next_obj (tree s) ∉ d :: x :: l → (2 <= fuel)%nat →
  ∃ s', pivot_root fuel s master d = Done (next_obj (tree s), s') ∧
    dir_ok (tree s') (next_obj (tree s)) [x] ∧
    (∃ f, getf (tree s') d = Done f ∧ fchild f = x) ∧
    (∀ y, y ∈ l → getf (tree s') y = getf (tree s) y).
Proof.
  intros ((fd & Ed & Hc) & (Hx0 & (fx & Ex & _) & _) & Hnd & Hd & Hd0) Hr0 Hr Hf. set (r := next_obj (tree s)) in *.
  apply list.NoDup_cons in Hnd as [Hxl _].
  assert (r ≠ d ∧ r ≠ x ∧ r ∉ l) as (Hrd & Hrx & Hrl) by set_solver. assert (d ≠ x ∧ d ∉ l) as [Hdx Hdl] by set_solver.
  unfold pivot_root. rewrite (proj2 (Z.eqb_neq d 0)) by done. cbn [new_file]. fold r.
  set (fr := mk_file (checkName name_root) _ _ _ _ _ _ _ _ _ _). set (t0 := mk_ftree _ _ _).
  assert (∀ q, q ≠ r → getf t0 q = getf (tree s) q) as O0 by (intros q Hq; unfold getf, t0; cbn; by rewrite lookup_insert_ne).
  assert (getf t0 r = Done fr) as E0 by (unfold getf, t0; cbn; by rewrite lookup_insert_eq).
  rewrite O0, Ed by done. cbn [obind]. rewrite Hc. cbn [hd]. destruct fuel as [|[|fuel]]; [lia|lia|]. cbn [loop].
  rewrite (proj2 (Z.eqb_neq x 0)) by done.
  destruct (move_child t0 r x fr fx E0) as (t1 & -> & E1 & Ex1 & O1); [by rewrite O0|done|done|done|].
  cbn [obind]. rewrite Ex1. cbn [obind]. change (fnext (fx <| fparent := r |> <| fprec := 0 |> <| fnext := 0 |>)) with 0.
  cbn [Z.eqb obind]. exists (set_tree s t1). split; [done|]. change (tree (set_tree s t1)) with t1. split; [|split].
  - split; [by eexists|]. split; [|split; [apply NoDup_singleton|split; [set_solver|done]]].
    split; [done|]. split; [by eexists|done].
  - exists fd. rewrite O1, O0 by done. done.
  - intros y Hy. rewrite O1, O0; [done|by intros ->|by intros ->|by intros ->].
Qed.

(** ** Concrete runs: the tree [init] makes *)

Definition empty_fs : filesystem := mk_fs (mk_ftree ∅ 0x1000 0) [] [] 0 0 0.
Definition boot_fs : filesystem := match fs_init empty_fs 0 with Done s => s | _ => empty_fs end.
Definition sys_env : list (list Z) := [name_sys; name_env].

Lemma path_spec_witness :
  path 20 no_scan boot_fs None (render sys_env) =
    let* r := walk 20 (tree boot_fs) (root boot_fs) sys_env in Done (r, boot_fs).
Proof.
  apply (path_spec 20 boot_fs None sys_env).
  - discriminate.
  - unfold sys_env, plain. repeat constructor; discriminate.
  - vm_compute. repeat constructor.
Defined.

(** [/sys/env] is the directory [var]; [/sys//env] is stuck. *)
Example path_sys_env : path 20 no_scan boot_fs None (render sys_env) = Done (var boot_fs, boot_fs).
Proof. vm_compute. reflexivity. Qed.
Example path_doubled :
  path 20 no_scan boot_fs None (SLASH :: name_sys ++ [SLASH; SLASH] ++ name_env) = Stuck.
Proof. vm_compute. reflexivity. Qed.
