(* ===== verification/Process.v ===== *)
(** Processes: [src/src/kernel/core/process.h] and [process.cc], with
    [signal.h], [arch/x86/archprocess.h] and [runtime/buffer.cc].

    A process is a [File] object of the tree of [FileTree.v] and, under the
    same address, an entry of a second store with the fields [Process] adds.
    The state of the kernel around them is the record [world], whose scheduler
    fields are those of [Architecture] ([arch/x86/architecture.h]).  What the
    constructor leaves uninitialised is a parameter. *)

From Stdlib Require Import ZArith Lia.
From stdpp Require Import base list gmap option.
From coqutil Require Import Datatypes.RecordSetters.
From S2P Require Import Prelude Memory KAlloc Mm Vmm Swap Paging Cow FileTree Filesystem Pit.
Import TriangleBracketNotations.

Definition CONFIG_MAX_FILE : Z := 32.

(** States.  [ZOMBIE] and [CHILD] are the constants of [api/dev/proc.h]. *)
Definition PROC_STATE_RUN : Z := 0.
Definition PROC_STATE_ZOMBIE : Z := 1.
Definition ZOMBIE : Z := PROC_STATE_ZOMBIE.
Definition CHILD : Z := PROC_STATE_RUN.
Definition RUNNING : Z := 1.
Definition SLEEPING : Z := 2.
Definition READY : Z := 4.

(** ** Signals: a mask of 32 bits, signal [sig] at bit [sig - 1] *)
Definition SIGCHLD : Z := 17.
Definition set_signal (mask sig : Z) : Z := Z.lor mask (u32 (Z.shiftl 1 (sig - 1))).
Definition clear_signal (mask sig : Z) : Z := Z.ldiff mask (u32 (Z.shiftl 1 (sig - 1))).
Definition is_signal (mask sig : Z) : bool := has_flag mask (u32 (Z.shiftl 1 (sig - 1))).

(** ** [class Buffer]: nothing is ever stored *)
Record buffer := mk_buffer { bsize : Z; bmap : Z }.
Definition new_buffer : buffer := mk_buffer 0 0.
Definition buffer_add (b : buffer) (c : list Z) (s : Z) : buffer := b.
Definition buffer_get (b : buffer) (s : Z) : Z * buffer := (0, b).
Definition buffer_clear (b : buffer) : buffer := b.
Definition buffer_isEmpty (b : buffer) : Z := 1.

(** ** Contexts *)

(** The registers of [struct process_st]. *)
Record registers := mk_regs {
  r_eax : Z; r_ecx : Z; r_edx : Z; r_ebx : Z; r_esp : Z; r_ebp : Z; r_esi : Z; r_edi : Z;
  r_eip : Z; r_eflags : Z; r_cs : Z; r_ss : Z; r_ds : Z; r_es : Z; r_fs : Z; r_gs : Z; r_cr3 : Z;
}.
Definition zero_regs : registers := mk_regs 0 0 0 0 0 0 0 0 0 0 0 0 0 0 0 0 0.

(** [struct process_st], the fields the kernel uses. *)
Record process_st := mk_info { regs : registers; ipd : Z; e_heap : Z; signal : Z; vinfo : Z }.
Definition zero_info : process_st := mk_info zero_regs 0 0 0 0.

(** [struct openfile] and [struct proc_info]. *)
Record openfile := mk_open { omode : Z; optr : Z; ofp : Z }.
Definition no_file : openfile := mk_open 0 0 0.
Record proc_info := mk_pinfo { pi_name : list Z; pi_pid : Z; pi_tid : Z; pi_state : Z; pi_vmem : Z; pi_pmem : Z }.

(** [class Process], the fields it adds to [File]. *)
Record process := mk_process {
  pid : Z;
  state : Z;
  pparent : Z;
  pnext : Z;
  openfp : list openfile;
  info : process_st;
  cdir : Z;
  ipc : buffer;
  total_runtime : Z;
  last_scheduled : Z;
  time_slice : Z;
}.

Record world (K : Type) := mk_world {
  wmm : mm K;
  wfs : filesystem;
  procs : gmap Z process;
  proc_pid : Z;
  plist : Z;
  pcurrent : Z;
  firstProc : Z;
  idle_process : Z;
  ticks_since_switch : Z;
  ticks_per_quantum : Z;
  total_ticks : Z;
  scheduler_ready : bool;
  interrupts : bool;
  wpit : pit;
  timer_interrupt_count : Z;
}.
Arguments mk_world {K}.
Arguments wmm {K}.
Arguments wfs {K}.
Arguments procs {K}.
Arguments proc_pid {K}.
Arguments plist {K}.
Arguments pcurrent {K}.
Arguments firstProc {K}.
Arguments idle_process {K}.
Arguments ticks_since_switch {K}.
Arguments ticks_per_quantum {K}.
Arguments total_ticks {K}.
Arguments scheduler_ready {K}.
Arguments interrupts {K}.
Arguments wpit {K}.
Arguments timer_interrupt_count {K}.

Section Process.
Context {K : Type}.

Definition getp (w : world K) (p : Z) : outcome process := of_option (procs w !! p).
Definition updp (w : world K) (p : Z) (g : process → process) : outcome (world K) :=
  let* pr := getp w p in Done (w <| procs ::= fun m => <[p := g pr]> m |>).

(** Getters and setters. *)
Definition getState (w : world K) (p : Z) : outcome Z := let* pr := getp w p in Done (state pr).
Definition getPNext (w : world K) (p : Z) : outcome Z := let* pr := getp w p in Done (pnext pr).
Definition getPParent (w : world K) (p : Z) : outcome Z := let* pr := getp w p in Done (pparent pr).
Definition getPInfo (w : world K) (p : Z) : outcome process_st := let* pr := getp w p in Done (info pr).
Definition getPid (w : world K) (p : Z) : outcome Z := let* pr := getp w p in Done (pid pr).
Definition get_total_runtime (w : world K) (p : Z) : outcome Z := let* pr := getp w p in Done (total_runtime pr).
Definition get_time_slice_count (w : world K) (p : Z) : outcome Z := let* pr := getp w p in Done (time_slice pr).
Definition getCurrentDir (w : world K) (p : Z) : outcome Z := let* pr := getp w p in Done (cdir pr).
Definition setState (w : world K) (p st : Z) : outcome (world K) := updp w p (fun pr => pr <| state := st |>).
Definition setPid (w : world K) (p v : Z) : outcome (world K) := updp w p (fun pr => pr <| pid := v |>).
Definition setPNext (w : world K) (p n : Z) : outcome (world K) := updp w p (fun pr => pr <| pnext := n |>).
Definition setPParent (w : world K) (p n : Z) : outcome (world K) := updp w p (fun pr => pr <| pparent := n |>).
Definition setCurrentDir (w : world K) (p f : Z) : outcome (world K) := updp w p (fun pr => pr <| cdir := f |>).
Definition setInfo (w : world K) (p : Z) (i : process_st) : outcome (world K) := updp w p (fun pr => pr <| info := i |>).

Definition sendSignal (w : world K) (p sig : Z) : outcome (world K) :=
  updp w p (fun pr => pr <| info -> signal ::= fun m => set_signal m sig |>).

Definition get_system_ticks (w : world K) : Z := Pit.get_ticks (wpit w).

(** ** Construction *)

Variable raw_info : Z → process_st.

(** [new Process(n)] *)
Definition new_process (w : world K) (n : list Z) : Z * world K :=
  let '(p, t) := new_file (tree (wfs w)) (pcurrent w) n TYPE_PROCESS in
  let pr := mk_process (proc_pid w) SLEEPING 0 0 (replicate 32 no_file) (raw_info p) 0 new_buffer 0 0 0 in
  (p, w <| wfs ::= fun f => set_tree f t |> <| procs ::= fun m => <[p := pr]> m |>
        <| proc_pid ::= fun n => u32 (n + 1) |>).

(** ** Open files *)

Definition getFile (w : world K) (p fd : Z) : outcome Z :=
  if CONFIG_MAX_FILE <=? fd then Done 0
  else let* pr := getp w p in Done (ofp (zget no_file (openfp pr) fd)).

Definition getFileInfo (w : world K) (p fd : Z) : outcome (option openfile) :=
  if CONFIG_MAX_FILE <=? fd then Done None
  else let* pr := getp w p in Done (Some (zget no_file (openfp pr) fd)).

Definition deleteFile (w : world K) (p fd : Z) : outcome (world K) :=
  if CONFIG_MAX_FILE <=? fd then Done w
  else updp w p (fun pr => pr <| openfp ::= fun l => zset l fd no_file |>).

Definition setFile (w : world K) (p fd f mode ptr : Z) : outcome (world K) :=
  if fd <? CONFIG_MAX_FILE then updp w p (fun pr => pr <| openfp ::= fun l => zset l fd (mk_open mode ptr f) |>)
  else Done w.

(** The first free descriptor. *)
Definition free_fd (l : list openfile) : option nat := fst <$> list_find (fun o => ofp o = 0) l.

Definition addFile_to (w : world K) (p f m : Z) : outcome (Z * world K) :=
  let* pr := getp w p in
  match (if f =? 0 then None else free_fd (openfp pr)) with
  | Some i => let* w := updp w p (fun pr => pr <| openfp ::= fun l => zset l (Z.of_nat i) (mk_open m 0 f) |>) in
              Done (Z.of_nat i, w)
  | None => Done (u32 (-1), w)
  end.

(** ** The file operations of a process *)

Definition process_open (flag : Z) : Z := RETURN_OK.
Definition process_close : Z := RETURN_OK.

(** [read] waits until the buffer is not empty. *)
Definition process_read (fuel : nat) (w : world K) (p sizee : Z) : outcome (Z * world K) :=
  let* pr := getp w p in
  let* _ := while fuel (fun b => negb (buffer_isEmpty b =? 0)) (fun b => b) (ipc pr) in
  let '(ret, b) := buffer_get (ipc pr) sizee in
  let* w := updp w p (fun pr => pr <| ipc := b |>) in
  Done (ret, w <| interrupts := false |>).

Definition process_write (w : world K) (p : Z) (data : list Z) (sizee : Z) : outcome (Z * world K) :=
  let* w := updp w p (fun pr => pr <| ipc ::= fun b => buffer_add b data sizee |>) in Done (sizee, w).

Definition API_PROC_GET_PID : Z := 0x5200.
Definition API_PROC_GET_INFO : Z := 0x5201.

(** [reset_pinfo]: the name field keeps the first 32 characters. *)
Definition reset_pinfo (w : world K) (p : Z) : outcome proc_info :=
  let* f := getf (tree (wfs w)) p in
  let* pr := getp w p in
  Done (mk_pinfo (take 32 (fname f)) (pid pr) 0 (state pr) (10 * 1024 * 1024) (10 * 1024 * 1024)).

(** [ioctl]: the result, and what [GET_INFO] copies to the buffer. *)
Definition process_ioctl (w : world K) (p id : Z) : outcome (Z * option proc_info) :=
  if id =? API_PROC_GET_PID then let* pr := getp w p in Done (pid pr, None)
  else if id =? API_PROC_GET_INFO then let* i := reset_pinfo w p in Done (0, Some i)
  else Done (NOT_DEFINED, None).

(** ** Scheduling *)

(** The loop of [schedule]: the next process that is neither [ZOMBIE] nor
    [SLEEPING], or [None] after [max_attempts] steps. *)
Definition max_attempts : Z := 100.

Definition schedule_step (w : world K) (st : Z * Z) : outcome (Z * Z + option Z) :=
  let '(n, attempts) := st in
  let* pn := getPNext w n in
  let n := if negb (pn =? 0) then pn else plist w in
  let attempts := attempts + 1 in
  if max_attempts <? attempts then Done (inr None)
  else if n =? 0 then Done (inr (Some n))
  else
    let* st := getState w n in
    Done (if (st =? ZOMBIE) || (st =? SLEEPING) then inl (n, attempts) else inr (Some n)).

Definition schedule_fuel : nat := 101.

Definition schedule (w : world K) (this : Z) : outcome (Z * world K) :=
  let* me := getp w this in
  if pnext me =? 0 then Done (this, w)
  else
    let* found := loop schedule_fuel (schedule_step w) (this, 0) in
    match found with
    | None => Done (this, w)
    | Some n =>
      if (n =? 0) || (n =? this) then Done (this, w)
      else
        let current_ticks := get_system_ticks w in
        let* w :=
          if state me =? RUNNING then
            updp w this (fun pr => pr <| total_runtime ::= fun t => u64 (t + u64 (current_ticks - last_scheduled pr)) |>
                                      <| state := READY |>)
          else Done w in
        let* w := updp w n (fun pr => pr <| state := RUNNING |> <| last_scheduled := current_ticks |>
                                         <| time_slice ::= fun t => u32 (t + 1) |>) in
        Done (n, w)
    end.

Definition exit (w : world K) (p : Z) : outcome (world K) :=
  let* w := setState w p ZOMBIE in
  let* parent := getPParent w p in
  if negb (parent =? 0) then sendSignal w parent SIGCHLD else Done w.

End Process.
