(* ===== verification/Arch.v ===== *)
(** The scheduler and the processor context:
    [src/src/kernel/arch/x86/architecture.h] and [architecture.cc], with
    [timer.cc] and the life of a process in [core/process.cc] ([fork],
    [create], [wait], the destructor).

    The run queue is a ring of processes through [pnext]; [plist] is its head
    and [firstProc] its tail.  The interrupt frame is a record.  Interrupts
    are a flag; [hlt], port output and printing are left out. *)

From Stdlib Require Import ZArith Lia.
From stdpp Require Import base list gmap option.
From coqutil Require Import Datatypes.RecordSetters.
From S2P Require Import Prelude Memory KAlloc Mm Vmm Swap Paging Cow FileTree Filesystem Pit Process.
Import TriangleBracketNotations.

(** [struct InterruptFrame] *)
Record frame := mk_frame {
  f_gs : Z; f_fs : Z; f_es : Z; f_ds : Z; f_edi : Z; f_esi : Z; f_ebp : Z; f_esp : Z; f_ebx : Z;
  f_edx : Z; f_ecx : Z; f_eax : Z; f_eip : Z; f_cs : Z; f_eflags : Z; f_useresp : Z; f_ss : Z;
}.

(** The names "idle" and "forked_process". *)
Definition name_idle : list Z := [105; 100; 108; 101].
Definition name_forked : list Z := [102; 111; 114; 107; 101; 100; 95; 112; 114; 111; 99; 101; 115; 115].
Definition default_tty : list Z := [47; 100; 101; 118; 47; 116; 116; 121].

(** The ticks of a 20 ms quantum, at least one. *)
Definition quantum (pit_frequency_hz : Z) : Z :=
  let hz := if pit_frequency_hz =? 0 then PIT_DEFAULT_FREQ else pit_frequency_hz in
  let ticks := u32 (hz * 20) / 1000 in
  if ticks =? 0 then 1 else ticks.

Section Arch.
Context {K : Type} `{KAlloc K} `{SlabCaches K}.
Variable fuel : nat.
Variable file_write : Z.
Variable raw_info : Z → process_st.
Variable idle_thread : Z.
Variable scan : ftree → Z → outcome ftree.

Definition enable_interrupt (w : world K) : world K := w <| interrupts := true |>.
Definition disable_interrupt (w : world K) : world K := w <| interrupts := false |>.
Definition get_current_page_directory (w : world K) : Z := current_directory (wmm w).

Definition configure_scheduler (w : world K) (pit_frequency_hz : Z) : world K :=
  w <| ticks_per_quantum := quantum pit_frequency_hz |> <| scheduler_ready := true |>.

(** [Architecture::init], after [vmm.init()]. *)
Definition arch_init (w : world K) : world K :=
  let w := w <| plist := 0 |> <| pcurrent := 0 |> <| firstProc := 0 |> <| idle_process := 0 |>
             <| ticks_since_switch := 0 |> <| ticks_per_quantum := 1 |> <| total_ticks := 0 |>
             <| scheduler_ready := false |> in
  configure_scheduler w PIT_DEFAULT_FREQ.

(** ** The run queue *)

(** The part of [enqueue_process] that links the process. *)
Definition link_process (w : world K) (proc : Z) : outcome (world K) :=
  if plist w =? 0 then
    let w := w <| plist := proc |> <| firstProc := proc |> in
    setPNext w proc proc
  else
    let* w := setPNext w proc (plist w) in
    let* w := setPNext w (firstProc w) proc in
    Done (w <| firstProc := proc |>).

Definition enqueue_process (w : world K) (proc : Z) (make_current : bool) : outcome (world K) :=
  if proc =? 0 then Done w
  else
    let* w := link_process w proc in
    if make_current || (pcurrent w =? 0) then
      let* w :=
        if negb (pcurrent w =? 0) && negb (pcurrent w =? proc) then
          let* st := getState w (pcurrent w) in
          if st =? RUNNING then setState w (pcurrent w) READY else Done w
        else Done w in
      let w := w <| pcurrent := proc |> in
      let* w := updp w proc (fun pr => pr <| state := RUNNING |> <| last_scheduled := get_system_ticks w |>
                                          <| time_slice := 0 |>) in
      Done (w <| ticks_since_switch := 0 |>)
    else setState w proc READY.

Definition ensure_idle_process (w : world K) : outcome (world K) :=
  if negb (idle_process w =? 0) then Done w
  else
    let '(idle, w) := new_process raw_info w name_idle in
    let w := w <| idle_process := idle |> in
    let* w := setInfo w idle zero_info in
    let* (stack, m) := mm_alloc (wmm w) 4096 in
    let w := w <| wmm := m |> in
    if stack =? 0 then Done w
    else
      let stack_top := stack + 4096 in
      let cd := current_directory (wmm w) in
      let cr3 := if negb (cd =? 0) then mload (wmm w) (cd + pd_physical) else 0 in
      let r := mk_regs 0 0 0 0 stack_top stack_top 0 0 idle_thread 0x202 0x08 0x10 0x10 0x10 0x10 0x10 cr3 in
      let* w := setInfo w idle (mk_info r cd 0 0 stack) in
      let* w := setPParent w idle 0 in
      let* w := setState w idle READY in
      let* w := updp w idle (fun pr => pr <| last_scheduled := get_system_ticks w |> <| time_slice := 0 |>
                                          <| total_runtime := 0 |>) in
      let w := disable_interrupt w in
      let* w := enqueue_process w idle false in
      Done (enable_interrupt w).

Definition addProcess (w : world K) (p : Z) : outcome (world K) :=
  if p =? 0 then Done w
  else
    let w := disable_interrupt w in
    let list_was_empty := plist w =? 0 in
    let* w := enqueue_process w p list_was_empty in
    let w := enable_interrupt w in
    let w := if list_was_empty then w <| scheduler_ready := true |> else w in
    if idle_process w =? 0 then ensure_idle_process w else Done w.

(** [do ... while (cursor != nullptr && cursor != plist)] *)
Definition change_process_father (w : world K) (child new_father : Z) : outcome (world K) :=
  if child =? 0 then Done w
  else
    let w := disable_interrupt w in
    let* w :=
      if plist w =? 0 then Done w
      else
        loop fuel (fun '(w, cursor) =>
          let* parent := getPParent w cursor in
          let* w := if parent =? child then setPParent w cursor new_father else Done w in
          let* cursor := getPNext w cursor in
          Done (if negb (cursor =? 0) && negb (cursor =? plist w) then inl (w, cursor) else inr w))
          (w, plist w) in
    Done (enable_interrupt w).

(** The tail of the ring, from [tail] on. *)
Definition find_tail (w : world K) (tail : Z) : outcome Z :=
  loop fuel (fun tail =>
    let* n := getPNext w tail in
    Done (if negb (n =? plist w) then inl n else inr tail)) tail.

Definition find_previous (w : world K) (target : Z) : outcome Z :=
  if (plist w =? 0) || (target =? 0) then Done 0
  else
    loop fuel (fun '(cursor, prev) =>
      if cursor =? target then
        if negb (prev =? 0) then Done (inr prev)
        else let* tail := find_tail w cursor in Done (inr tail)
      else
        let* n := getPNext w cursor in
        Done (if negb (n =? 0) && negb (n =? plist w) then inl (n, cursor) else inr 0)) (plist w, 0).

Definition remove_process (w : world K) (proc : Z) : outcome (world K) :=
  if (plist w =? 0) || (proc =? 0) then Done w
  else
    let* next := getPNext w proc in
    if (proc =? plist w) && (next =? proc) then
      let w := w <| plist := 0 |> <| firstProc := 0 |> in
      let w := if pcurrent w =? proc then w <| pcurrent := 0 |> else w in
      setPNext w proc 0
    else
      let* prev := find_previous w proc in
      if prev =? 0 then Done w
      else
        let* w := setPNext w prev next in
        let w := if plist w =? proc then w <| plist := next |> else w in
        let w := if firstProc w =? proc then w <| firstProc := prev |> else w in
        let w := if pcurrent w =? proc then w <| pcurrent := next |> else w in
        setPNext w proc 0.

(** ** Destruction *)

(** [delete p]: [~Process], then [~File]. *)
Definition delete_process (w : world K) (p : Z) : outcome (world K) :=
  if p =? 0 then Done w
  else
    let* pr := getp w p in
    let* w :=
      if negb (ipd (info pr) =? 0) then
        let* m := cleanup_process_cow fuel (wmm w) (ipd (info pr)) in
        let* m := destroy_page_directory fuel m (ipd (info pr)) in
        Done (w <| wmm := m |>)
      else Done w in
    let* w := if negb (bmap (ipc pr) =? 0)
              then let* m := mm_free (wmm w) (bmap (ipc pr)) in Done (w <| wmm := m |>) else Done w in
    let* w := change_process_father w p (pparent pr) in
    let* t := delete_file fuel (tree (wfs w)) p in
    Done (w <| wfs ::= fun f => set_tree f t |> <| procs ::= base.delete p |>).

(** [Process::remove]. *)
Definition process_remove (w : world K) (p : Z) : outcome (Z * world K) :=
  let* w := delete_process w p in Done (RETURN_OK, w).

Definition destroy_process (w : world K) (proc : Z) : outcome (world K) :=
  if (proc =? 0) || (proc =? idle_process w) then Done w
  else
    let w := disable_interrupt w in
    let* w := remove_process w proc in
    delete_process (enable_interrupt w) proc.

(** The first loop of [destroy_all_zombie]: zombies move to the pending list. *)
Definition collect_zombies (w : world K) : outcome (world K * Z) :=
  loop fuel (fun '(w, cursor, pending_cleanup) =>
    let* next := getPNext w cursor in
    let* st := getState w cursor in
    let* r :=
      if negb (cursor =? idle_process w) && (st =? ZOMBIE) then
        let* w := remove_process w cursor in
        let* w := setPNext w cursor pending_cleanup in
        Done (w, cursor, plist w =? 0)
      else Done (w, pending_cleanup, false) in
    let '(w, pending_cleanup, stop) := r in
    Done (if stop then inr (w, pending_cleanup)
          else if negb (next =? 0) && negb (next =? plist w) then inl (w, next, pending_cleanup)
          else inr (w, pending_cleanup))) (w, plist w, 0).

Definition destroy_all_zombie (w : world K) : outcome (world K) :=
  let w := disable_interrupt w in
  if plist w =? 0 then Done (enable_interrupt w)
  else
    let* (w, pending_cleanup) := collect_zombies w in
    let w := enable_interrupt w in
    loop fuel (fun '(w, pending_cleanup) =>
      if pending_cleanup =? 0 then Done (inr w)
      else
        let victim := pending_cleanup in
        let* next := getPNext w victim in
        let* w := setPNext w victim 0 in
        let* w := delete_process w victim in
        Done (inl (w, next))) (w, pending_cleanup).

(** ** Contexts *)

Definition save_process_context (w : world K) (proc : Z) (f : frame) : outcome (world K) :=
  if proc =? 0 then Done w
  else
    let* i := getPInfo w proc in
    let cd := current_directory (wmm w) in
    let r := mk_regs (f_eax f) (f_ecx f) (f_edx f) (f_ebx f) (f_esp f) (f_ebp f) (f_esi f) (f_edi f)
               (f_eip f) (f_eflags f) (Z.land (f_cs f) 0xFFFF) 0x10 (Z.land (f_ds f) 0xFFFF)
               (Z.land (f_es f) 0xFFFF) (Z.land (f_fs f) 0xFFFF) (Z.land (f_gs f) 0xFFFF)
               (if negb (cd =? 0) then mload (wmm w) (cd + pd_physical) else r_cr3 (regs i)) in
    setInfo w proc (i <| regs := r |>).

(** [a ? a : b] *)
Definition or_else (a b : Z) : Z := if negb (a =? 0) then a else b.

Definition load_frame (r : registers) : frame :=
  let data_selector := or_else (r_ds r) 0x10 in
  mk_frame (or_else (r_gs r) data_selector) (or_else (r_fs r) data_selector) (or_else (r_es r) data_selector)
    data_selector (r_edi r) (r_esi r) (r_ebp r) (r_esp r) (r_ebx r) (r_edx r) (r_ecx r) (r_eax r) (r_eip r)
    (or_else (r_cs r) 0x08) (Z.lor (or_else (r_eflags r) 0x202) 0x200) (r_esp r) (or_else (r_ss r) data_selector).

Definition load_process_context (w : world K) (proc : Z) (f : frame) : outcome (world K * frame) :=
  if proc =? 0 then Done (w, f)
  else
    let* i := getPInfo w proc in
    let f := load_frame (regs i) in
    Done (if negb (ipd i =? 0) && negb (ipd i =? current_directory (wmm w))
          then w <| wmm := switch_page_directory (wmm w) (ipd i) |> else w, f).

Definition handle_timer_interrupt (w : world K) (f : frame) : outcome (world K * frame) :=
  let w := w <| total_ticks ::= fun n => u64 (n + 1) |> in
  if negb (scheduler_ready w) || (pcurrent w =? 0) then Done (w, f)
  else
    let* w := save_process_context w (pcurrent w) f in
    let w := w <| ticks_since_switch ::= fun n => u32 (n + 1) |> in
    let* st := getState w (pcurrent w) in
    if negb (negb (st =? RUNNING) || (ticks_per_quantum w <=? ticks_since_switch w)) then Done (w, f)
    else
      let w := w <| ticks_since_switch := 0 |> in
      let* (next, w) := schedule w (pcurrent w) in
      if next =? 0 then load_process_context w (pcurrent w) f
      else
        let w := w <| pcurrent := next |> in
        load_process_context w (pcurrent w) f.

(** [isr_timer_int] of [timer.cc] *)
Definition isr_timer_int (w : world K) (f : frame) : outcome (world K * frame) :=
  let w := w <| timer_interrupt_count ::= fun n => u32 (n + 1) |> in
  let w := w <| wpit ::= Pit.tick |> in
  handle_timer_interrupt w f.

(** ** The life of a process *)

Definition createProc (w : world K) (i : process_st) : Z * process_st :=
  let r := mk_regs 0 0 0 0 0 0 0 0 0 0x202 0x08 0x10 0x10 0x10 0x10 0x10 0 in
  let pd := if ipd i =? 0 then current_directory (wmm w) else ipd i in
  let r := if negb (pd =? 0) then r <| r_cr3 := mload (wmm w) (pd + pd_physical) |> else r in
  (1, i <| regs := r |> <| ipd := pd |>).

(** [arch.createProc(&info, ...)], then into the run queue or a zombie. *)
Definition start_process (w : world K) (p : Z) : outcome (Z * world K) :=
  let* i := getPInfo w p in
  let '(ret, i) := createProc w i in
  let* w := setInfo w p i in
  if ret =? 1 then
    let* w := setState w p READY in
    let* w := addProcess w p in
    Done (ret, w)
  else let* w := setState w p ZOMBIE in Done (ret, w).

(** The result of [fork] is an [int]: -1 when it fails. *)
Definition fork (w : world K) (this : Z) : outcome (Z * world K) :=
  let '(child, w) := new_process raw_info w name_forked in
  let* w := setPParent w child this in
  let* w := setState w child CHILD in
  let* me := getp w this in
  let* w := setCurrentDir w child (cdir me) in
  let* w := updp w child (fun pr => pr <| openfp := map (fun o => if ofp o =? 0 then no_file else o) (openfp me) |>) in
  let* (child_pd, m) := create_page_directory fuel file_write (wmm w) in
  let w := w <| wmm := m |> in
  if child_pd =? 0 then let* w := delete_process w child in Done (-1, w)
  else
    let* (r, m) := cow_fork_mm fuel file_write (wmm w) child_pd (get_current_page_directory w) in
    let w := w <| wmm := m |> in
    if negb (r =? 0) then
      let* m := destroy_page_directory fuel (wmm w) child_pd in
      let* w := delete_process (w <| wmm := m |>) child in
      Done (-1, w)
    else
      let* w := updp w child (fun pr => pr <| info -> ipd := child_pd |>) in
      let* (ret, w) := start_process w child in
      if ret =? 1 then
        let* w := if negb (pparent me =? 0) then sendSignal w (pparent me) SIGCHLD else Done w in
        let* cpid := getPid w child in
        Done (s32 cpid, w)
      else Done (0, w).

(** [getFileInfo(i)] of the parent into [openfp[i]], for the three first files. *)
Definition inherit_files (w : world K) (p parent : Z) : outcome (world K) :=
  ofor 3 (fun i w =>
    let* o := getFileInfo w parent i in
    let* o := of_option o in
    updp w p (fun pr => pr <| openfp ::= fun l => zset l i o |>)) w.

Definition open_tty (w : world K) (p : Z) : outcome (world K) :=
  ofor 3 (fun i w =>
    let pcur := if pcurrent w =? 0 then None else cdir <$> (procs w !! pcurrent w) in
    let* (f, fs) := path fuel scan (wfs w) pcur default_tty in
    let* (_, w) := addFile_to (w <| wfs := fs |>) p f 0 in
    Done w) w.

Definition create (w : world K) (p : Z) : outcome (Z * world K) :=
  let* (_, w) := start_process w p in
  let* parent := getPParent w p in
  let* w :=
    if negb (parent =? 0) then
      let* w := inherit_files w p parent in
      let* (_, w) := addFile_to w p p 0 in Done w
    else open_tty w p in
  Done (RETURN_OK, w).

(** [wait]: while no child has sent [SIGCHLD] it goes round, [OutOfFuel]. *)
Definition wait (w : world K) (p : Z) : outcome (Z * world K) :=
  let w := enable_interrupt w in
  let* i := getPInfo w p in
  if negb (is_signal (signal i) SIGCHLD) then OutOfFuel
  else
    let* w := setInfo w p (i <| signal ::= fun m => clear_signal m SIGCHLD |>) in
    let* w := destroy_all_zombie w in
    Done (1, disable_interrupt w).

End Arch.
