(* ===== verification/ArchSpec.v ===== *)
(** The scheduler's contract: the run queue is a ring, [schedule] takes the
    next runnable process of it, the timer gives every process of the ring the
    processor in turn, and a context that is saved is loaded again. *)

From Stdlib Require Import ZArith Lia.
From stdpp Require Import base list gmap option sets.
From coqutil Require Import Datatypes.RecordSetters.
From S2P Require Import Prelude Memory KAlloc Bump Mm Vmm Swap Paging VmmSpec Cow FileTree FileTreeSpec Filesystem FilesystemSpec Pit Process Arch.
Import TriangleBracketNotations.

(** ** Contexts *)

(** The frame a process resumes with: the registers it was interrupted with;
    a selector is its low 16 bits, or a default when they are 0; interrupts are
    on; the stack is [esp]. *)
Definition resumed (f : frame) : frame :=
  let ds := or_else (Z.land (f_ds f) 0xFFFF) 0x10 in
  mk_frame (or_else (Z.land (f_gs f) 0xFFFF) ds) (or_else (Z.land (f_fs f) 0xFFFF) ds)
    (or_else (Z.land (f_es f) 0xFFFF) ds) ds (f_edi f) (f_esi f) (f_ebp f) (f_esp f) (f_ebx f) (f_edx f)
    (f_ecx f) (f_eax f) (f_eip f) (or_else (Z.land (f_cs f) 0xFFFF) 0x08)
    (Z.lor (or_else (f_eflags f) 0x202) 0x200) (f_esp f) 0x10.

(** The first match of a list with one more element. *)
Lemma find_snoc {A} (f : A → bool) l x :
  List.find f (l ++ [x]) = match List.find f l with Some y => Some y | None => if f x then Some x else None end.
Proof. induction l as [|y l IH]; [done|]. cbn. by destruct (f y). Qed.

(** A process that loses the processor at tick [now], and one that gets it. *)
Definition preempted (now : Z) (pr : process) : process :=
  if state pr =? RUNNING
  then pr <| total_runtime := u64 (total_runtime pr + u64 (now - last_scheduled pr)) |> <| state := READY |>
  else pr.
Definition dispatched (now : Z) (pr : process) : process :=
  pr <| state := RUNNING |> <| last_scheduled := now |> <| time_slice ::= fun t => u32 (t + 1) |>.

Section Spec.
Context {K : Type} {ka : KAlloc K} {sc : SlabCaches K}.
Implicit Types (w : world K).

(** ** The process store *)

Lemma getp_updp_eq w p g pr :
  getp w p = Done pr → updp w p g = Done (w <| procs ::= fun m => <[p := g pr]> m |>).
Proof. intros E. unfold updp. by rewrite E. Qed.

Lemma getp_insert_eq w p pr : getp (w <| procs ::= fun m => <[p := pr]> m |>) p = Done pr.
Proof. unfold getp. change (of_option (<[p := pr]> (procs w) !! p) = Done pr). by rewrite lookup_insert_eq. Qed.

Lemma getp_insert_ne w p q pr : p ≠ q → getp (w <| procs ::= fun m => <[p := pr]> m |>) q = getp w q.
Proof. intros. unfold getp. change (of_option (<[p := pr]> (procs w) !! q) = of_option (procs w !! q)). by rewrite lookup_insert_ne. Qed.

(** Everything but the processes is the same. *)
Definition same_kernel w w' : Prop := w' = w <| procs := procs w' |>.

#[export] Instance same_kernel_preorder : PreOrder same_kernel.
Proof.
  split; [intros w; by destruct w|]. intros w1 w2 w3 H1 H2. unfold same_kernel in *.
  rewrite H2, H1. by destruct w1.
Qed.

Lemma updp_spec w p g pr :
  getp w p = Done pr →
  ∃ w', updp w p g = Done w' ∧ getp w' p = Done (g pr) ∧ (∀ q, q ≠ p → getp w' q = getp w q) ∧ same_kernel w w'.
Proof.
  intros E. rewrite (getp_updp_eq w p g pr E). eexists. split; [done|]. split; [apply getp_insert_eq|].
  split; [intros q Hq; by apply getp_insert_ne|]. by destruct w.
Qed.

(** C11. What [save_process_context] stores of an interrupted process,
    [load_process_context] puts back into the frame: all eight general
    registers, the instruction pointer and the flags with interrupts on. *)
Theorem context_roundtrip w p f f0 pr :
  getp w p = Done pr → p ≠ 0 →
  ∃ w1, save_process_context w p f = Done w1 ∧ same_kernel w w1 ∧
    (∀ q, q ≠ p → getp w1 q = getp w q) ∧
    ∃ w2, load_process_context w1 p f0 = Done (w2, resumed f) ∧ procs w2 = procs w1.
Proof.
  intros E Hp. unfold save_process_context. rewrite (proj2 (Z.eqb_neq p 0)) by done.
  unfold getPInfo at 1. rewrite E. cbn [obind]. unfold setInfo. set (i := (info pr) <| regs := _ |>).
  destruct (updp_spec w p (fun pr => pr <| info := i |>) pr E) as (w1 & -> & E1 & O1 & S1).
  exists w1. split; [done|]. split; [done|]. split; [done|].
  unfold load_process_context, getPInfo. rewrite (proj2 (Z.eqb_neq p 0)), E1 by done. cbn [obind].
  eexists. split; [reflexivity|]. by case_if.
Qed.

(** ** The ring *)

Record ring w (ps : list Z) : Prop := {
  ring_head : plist w = hd 0 ps;
  ring_tail : firstProc w = List.last ps 0;
  ring_nodup : NoDup ps;
  ring_next a p b : ps = a ++ p :: b → p ≠ 0 ∧ ∃ pr, getp w p = Done pr ∧ pnext pr = hd (hd 0 ps) b;
}.

Definition runnable w (p : Z) : bool :=
  match getp w p with Done pr => negb ((state pr =? ZOMBIE) || (state pr =? SLEEPING)) | _ => false end.

Lemma ring_in w ps p : ring w ps → p ∈ ps → p ≠ 0 ∧ ∃ pr, getp w p = Done pr ∧ pnext pr ∈ ps ∧ pnext pr ≠ 0.
Proof.
  intros Hr Hp. apply list_elem_of_split in Hp as (a & b & E).
  destruct (ring_next _ _ Hr a p b E) as (Hp0 & pr & Ep & Hn). split; [done|]. exists pr. split; [done|].
  assert (pnext pr ∈ ps) as Hin.
  { rewrite Hn. destruct b as [|y b]; [|rewrite E; set_solver]. destruct a; rewrite E; set_solver. }
  split; [done|]. apply list_elem_of_split in Hin as (a' & b' & E'). by destruct (ring_next _ _ Hr a' _ b' E').
Qed.

(** A state that has the same links has the same ring. *)
Lemma ring_frame w w' ps :
  plist w' = plist w → firstProc w' = firstProc w →
  (∀ p pr, p ∈ ps → getp w p = Done pr → ∃ pr', getp w' p = Done pr' ∧ pnext pr' = pnext pr) →
  ring w ps → ring w' ps.
Proof.
  intros H1 H2 Hp [Rh Rt Rn Rx]. split; [congruence|congruence|done|]. intros a p b E.
  destruct (Rx a p b E) as (Hp0 & pr & Ep & Hn). split; [done|].
  destruct (Hp p pr) as (pr' & Ep' & Hn'); [rewrite E; set_solver|done|]. exists pr'. by rewrite Hn'.
Qed.

(** ** Choosing the next process *)

(** One step of the loop, from a process of the ring. *)
Lemma schedule_step_ring w ps x k pr :
  ring w ps → x ∈ ps → getp w x = Done pr → k < max_attempts →
  schedule_step w (x, k) =
    Done (if runnable w (pnext pr) then inr (Some (pnext pr)) else inl (pnext pr, k + 1)).
Proof.
  intros Hr Hx Ex Hk. destruct (ring_in w ps x Hr Hx) as (_ & pr' & Ex' & Hin & Hn0). rewrite Ex in Ex'. injection Ex' as <-.
  destruct (ring_in w ps _ Hr Hin) as (_ & q & Eq & _).
  unfold schedule_step, getPNext. rewrite Ex. cbn [obind]. rewrite (proj2 (Z.eqb_neq (pnext pr) 0)) by done. cbn [negb].
  rewrite (proj2 (Z.ltb_ge max_attempts (k + 1))) by lia. rewrite (proj2 (Z.eqb_neq (pnext pr) 0)) by done.
  unfold getState, runnable. rewrite Eq. cbn [obind]. by destruct ((state q =? ZOMBIE) || (state q =? SLEEPING)).
Qed.

(** Along the ring from [x]: the first runnable process of what comes next, if
    there is one within the attempts. *)
Lemma schedule_loop_found w ps n l :
  ring w ps →
  ∀ x k fuel, x ∈ ps → (∀ a p b, x :: l = a ++ p :: b → b ≠ [] → ∃ pr, getp w p = Done pr ∧ pnext pr = hd 0 b) →
    List.find (runnable w) l = Some n → k + Z.of_nat (length l) <= max_attempts → (length l <= fuel)%nat →
    loop fuel (schedule_step w) (x, k) = Done (Some n).
Proof.
  intros Hr. induction l as [|y l IH]; intros x k [|fuel] Hx Hch Hfind Hk Hf; try done; [simpl in Hf; lia|].
  destruct (Hch [] x (y :: l) eq_refl) as (pr & Ex & Hn); [done|]. cbn [hd] in Hn.
  cbn [loop]. rewrite (schedule_step_ring w ps x k pr Hr Hx Ex) by (simpl in Hk; lia). rewrite Hn.
  cbn [List.find] in Hfind. destruct (runnable w y); cbn [obind]; [by injection Hfind as <-|].
  destruct (ring_in w ps x Hr Hx) as (_ & pr' & Ex' & Hin & _). rewrite Ex in Ex'. injection Ex' as <-. rewrite Hn in Hin.
  apply IH; [done| |done|simpl in Hk; lia|simpl in Hf; lia].
  intros a p b E Hb. apply (Hch (x :: a) p b); [by rewrite E|done].
Qed.

(** With no runnable process the attempts run out. *)
Lemma schedule_loop_none w ps :
  ring w ps → (∀ p, p ∈ ps → runnable w p = false) →
  ∀ fuel x k, x ∈ ps → 0 <= k <= max_attempts → max_attempts - k < Z.of_nat fuel →
    loop fuel (schedule_step w) (x, k) = Done None.
Proof.
  intros Hr Hnone fuel. induction fuel as [|fuel IH]; intros x k Hx Hk Hf; [lia|]. cbn [loop].
  destruct (ring_in w ps x Hr Hx) as (_ & pr & Ex & Hin & Hn0).
  destruct (decide (k < max_attempts)).
  - rewrite (schedule_step_ring w ps x k pr Hr Hx Ex) by done. rewrite Hnone by done. cbn [obind]. apply IH; [done|lia|lia].
  - unfold schedule_step, getPNext. rewrite Ex. cbn [obind]. by rewrite (proj2 (Z.ltb_lt max_attempts (k + 1))) by lia.
Qed.

(** The processes after [p] in the ring, [p] last, follow each other. *)
Lemma ring_chain w ps a p b :
  ring w ps → ps = a ++ p :: b →
  ∀ a' q b', p :: (b ++ a ++ [p]) = a' ++ q :: b' → b' ≠ [] → ∃ pr, getp w q = Done pr ∧ pnext pr = hd 0 b'.
Proof.
  intros Hr E a' q b' E' Hb'.
  assert ((p :: b) ++ (a ++ [p]) = a' ++ q :: b') as E2 by (by rewrite <- E').
  apply app_eq_app in E2 as (k & [[E3 E4]|[E3 E4]]).
  - destruct k as [|z k]; cbn [app] in E4.
    + destruct a as [|y a]; cbn [app] in E4; [by injection E4 as -> ->|].
      injection E4 as -> ->. destruct (ring_next _ _ Hr [] y (a ++ p :: b)) as (_ & pr & Ep & Hn); [done|].
      exists pr. split; [done|]. rewrite Hn. by destruct a.
    + injection E4 as -> ->. rewrite E3 in E. destruct (ring_next _ _ Hr (a ++ a') z k) as (_ & pr & Ep & Hn).
      { by rewrite E, <- app_assoc. }
      exists pr. split; [done|]. rewrite Hn, E. destruct k as [|y k]; [|done]. cbn [app hd].
      destruct a as [|y a]; [|done]. cbn [app hd]. destruct a' as [|x a']; cbn [app] in *; by injection E3.
  - assert (∃ k', a = k ++ q :: k' ∧ b' = k' ++ [p]) as (k' & -> & ->).
    { destruct b' as [|y b' _] using rev_ind; [done|]. rewrite app_comm_cons, app_assoc in E4.
      apply app_inj_tail in E4 as [-> ->]. by exists b'. }
    rewrite <- app_assoc in E. cbn [app] in E. destruct (ring_next _ _ Hr k q (k' ++ p :: b) E) as (_ & pr & Ep & Hn).
    exists pr. split; [done|]. rewrite Hn. by destruct k'.
Qed.

Lemma schedule_found w ps a p b :
  ring w ps → ps = a ++ p :: b → (length ps <= 100)%nat →
  loop schedule_fuel (schedule_step w) (p, 0) = Done (List.find (runnable w) (b ++ a ++ [p])).
Proof.
  intros Hr E Hl. assert (length (b ++ a ++ [p]) = length ps) as El by (rewrite E, !length_app; simpl; lia).
  assert (p ∈ ps) as Hp by (rewrite E; set_solver).
  destruct (List.find (runnable w) (b ++ a ++ [p])) as [n|] eqn:Ef.
  - apply (schedule_loop_found w ps n (b ++ a ++ [p]) Hr); [done|by eapply ring_chain|done| |].
    + rewrite El. unfold max_attempts. lia.
    + rewrite El. unfold schedule_fuel. lia.
  - apply (schedule_loop_none w ps Hr); [|done|done|done].
    intros x Hx. pose proof (find_none _ _ Ef x) as Hn. apply Hn, list_elem_of_In. rewrite E in Hx. set_solver.
Qed.

Lemma preempt_spec w p pr now :
  getp w p = Done pr →
  ∃ w', (if state pr =? RUNNING then
           updp w p (fun pr => pr <| total_runtime ::= fun t => u64 (t + u64 (now - last_scheduled pr)) |> <| state := READY |>)
         else Done w) = Done w' ∧
    getp w' p = Done (preempted now pr) ∧ (∀ q, q ≠ p → getp w' q = getp w q) ∧ same_kernel w w'.
Proof. intros E. unfold preempted. destruct (state pr =? RUNNING).
  - exact (updp_spec w p (fun pr => pr <| total_runtime ::= fun t => u64 (t + u64 (now - last_scheduled pr)) |>
                                       <| state := READY |>) pr E).
  - by exists w.
Qed.

(** A candidate is taken ... *)
Lemma schedule_takes w a this b me n :
  ring w (a ++ this :: b) → (length (a ++ this :: b) <= 100)%nat → getp w this = Done me →
  List.find (runnable w) (b ++ a) = Some n →
  let now := get_system_ticks w in
  ∃ w' pn, schedule w this = Done (n, w') ∧ ring w' (a ++ this :: b) ∧ same_kernel w w' ∧ n ≠ this ∧
    (∀ q, q ≠ this → q ≠ n → getp w' q = getp w q) ∧ getp w' this = Done (preempted now me) ∧
    getp w n = Done pn ∧ getp w' n = Done (dispatched now pn).
Proof.
  intros Hr Hl Eme Ef now. set (ps := a ++ this :: b) in *.
  assert (this ∈ ps) as Hthis by (unfold ps; set_solver).
  destruct (ring_in w ps this Hr Hthis) as (_ & me' & Eme' & _ & Hn0). rewrite Eme in Eme'. injection Eme' as <-.
  pose proof (schedule_found w ps a this b Hr eq_refl Hl) as Hloop. rewrite app_assoc, find_snoc, Ef in Hloop.
  unfold schedule. rewrite Eme. cbn [obind]. rewrite (proj2 (Z.eqb_neq (pnext me) 0)) by done. rewrite Hloop. cbn [obind].
  apply find_some in Ef as [Hin _]. apply list_elem_of_In in Hin.
  assert (n ∈ ps ∧ n ≠ this) as [Hm Hne].
  { pose proof (ring_nodup _ _ Hr) as Hnd. unfold ps in *. apply NoDup_app in Hnd as (_ & Hd & Hnd).
    apply NoDup_cons in Hnd as [Hnb _]. split; [set_solver|]. intros ->. apply elem_of_app in Hin as [|]; [done|].
    apply (Hd this); [done|set_solver]. }
  destruct (ring_in w ps n Hr Hm) as (Hm0 & pm & Em & _).
  rewrite (proj2 (Z.eqb_neq n 0)), (proj2 (Z.eqb_neq n this)) by done. cbn [orb].
  change (get_system_ticks w) with now. destruct (preempt_spec w this me now Eme) as (w1 & -> & E1 & O1 & S1).
  cbn [obind]. assert (getp w1 n = Done pm) as Em1 by (by rewrite O1).
  destruct (updp_spec w1 n (dispatched now) pm Em1) as (w2 & Ew2 & E2 & O2 & S2).
  unfold dispatched in Ew2 at 1. rewrite Ew2. cbn [obind]. exists w2, pm. split; [done|].
  assert (same_kernel w w2) as S by (by transitivity w1).
  split; [|split; [done|]; split; [done|]; split; [intros q ? ?; by rewrite O2, O1|]; split; [by rewrite O2, E1|done]].
  revert Hr. apply ring_frame; [by rewrite S|by rewrite S|]. intros q pr _ Eq. destruct (decide (q = n)) as [->|Hqm].
  - eexists. split; [exact E2|]. rewrite Em in Eq. by injection Eq as <-.
  - rewrite O2 by done. destruct (decide (q = this)) as [->|]; [|rewrite O1 by done; by exists pr].
    eexists. split; [exact E1|]. rewrite Eme in Eq. injection Eq as <-. unfold preempted. by case_match.
Qed.

(** ... and without one nothing changes. *)
Lemma schedule_stays w a this b :
  ring w (a ++ this :: b) → (length (a ++ this :: b) <= 100)%nat → List.find (runnable w) (b ++ a) = None →
  schedule w this = Done (this, w).
Proof.
  intros Hr Hl Ef. set (ps := a ++ this :: b) in *.
  destruct (ring_in w ps this Hr) as (Hp & me & Eme & _ & Hn0); [unfold ps; set_solver|].
  pose proof (schedule_found w ps a this b Hr eq_refl Hl) as Hloop. rewrite app_assoc, find_snoc, Ef in Hloop.
  unfold schedule. rewrite Eme. cbn [obind]. rewrite (proj2 (Z.eqb_neq (pnext me) 0)) by done. rewrite Hloop. cbn [obind].
  destruct (runnable w this); [|done]. by rewrite Z.eqb_refl, orb_true_r.
Qed.

(** C10. [schedule] takes the first process after the running one, round the
    ring, that is neither sleeping nor a zombie, and stays with the running one
    when there is none: the process taken is [RUNNING] and its slice counted, the
    running one is put back to [READY] with its runtime counted, and the ring and
    everything else stay as they are. *)
Theorem schedule_spec w a this b me :
  ring w (a ++ this :: b) → (length (a ++ this :: b) <= 100)%nat → getp w this = Done me →
  let n := default this (List.find (runnable w) (b ++ a)) in
  let now := get_system_ticks w in
  ∃ w', schedule w this = Done (n, w') ∧ ring w' (a ++ this :: b) ∧ same_kernel w w' ∧
    (∀ q, q ≠ this → q ≠ n → getp w' q = getp w q) ∧
    if n =? this then w' = w
    else
      getp w' this = Done (preempted now me) ∧ ∃ pn, getp w n = Done pn ∧ getp w' n = Done (dispatched now pn).
Proof.
  intros Hr Hl Eme n now. subst n. destruct (List.find (runnable w) (b ++ a)) as [n|] eqn:Ef; cbn [default id].
  - destruct (schedule_takes w a this b me n Hr Hl Eme Ef) as (w' & pn & E & R & S & Hne & O & E1 & E2 & E3).
    exists w'. rewrite (proj2 (Z.eqb_neq n this)) by done. do 5 (split; [done|]). by exists pn.
  - exists w. rewrite Z.eqb_refl. split; [by apply (schedule_stays w a this b)|]. done.
Qed.

(** ** Round robin *)

(** The part of the state the scheduler decides with. *)
Definition sched_view w :=
  (plist w, firstProc w, procs w, (pcurrent w, scheduler_ready w, ticks_since_switch w, ticks_per_quantum w)).

(** Process [i] of the ring [ps] has had [s] ticks of its quantum of [q]; it is
    [RUNNING] and all the others are [READY]. *)
Record fair (ps : list Z) (q : Z) w (i : nat) (s : Z) : Prop := {
  fair_ring : ring w ps;
  fair_length : (length ps <= 100)%nat;
  fair_cur : ps !! i = Some (pcurrent w);
  fair_running : getState w (pcurrent w) = Done RUNNING;
  fair_ready p : p ∈ ps → p ≠ pcurrent w → getState w p = Done READY;
  fair_on : scheduler_ready w = true;
  fair_since : ticks_since_switch w = s;
  fair_quantum : ticks_per_quantum w = q;
}.

Lemma getState_eq w w' p : procs w' = procs w → getState w' p = getState w p.
Proof. intros E. unfold getState, getp. by rewrite E. Qed.

(** What the scheduler does not look at. *)
Lemma fair_view ps q w w' i s : sched_view w' = sched_view w → fair ps q w i s → fair ps q w' i s.
Proof.
  unfold sched_view. intros E [Hr Hl Hc Hrun Hre Hon Hs Hq]. injection E as E1 E2 E3 E4 E5 E6 E7.
  split; rewrite ?E4, ?E5, ?E6, ?E7; [|done|done| | |done|done|done].
  - revert Hr. apply ring_frame; [done|done|]. intros p pr _ Ep. exists pr. unfold getp in *. by rewrite E3.
  - by rewrite (getState_eq w w') by done.
  - intros p ? ?. rewrite (getState_eq w w') by done. by apply Hre.
Qed.

(** The ticks of the quantum. *)
Lemma fair_ticks ps q w i s g :
  fair ps q w i s → fair ps q (w <| ticks_since_switch ::= g |>) i (g s).
Proof.
  intros [Hr Hl Hc Hrun Hre Hon Hs Hq]. split; try done; [|by rewrite <- Hs].
  revert Hr. apply ring_frame; [done|done|]. intros p pr _ Ep. by exists pr.
Qed.

Lemma fair_updp ps q w i s p pr g :
  getp w p = Done pr → (∀ x, pnext (g x) = pnext x ∧ state (g x) = state x) → fair ps q w i s →
  ∃ w', updp w p g = Done w' ∧ fair ps q w' i s ∧ same_kernel w w' ∧ getp w' p = Done (g pr).
Proof.
  intros E Hg [Hr Hl Hc Hrun Hre Hon Hs Hq]. destruct (updp_spec w p g pr E) as (w' & -> & E' & O' & S).
  exists w'. split; [done|]. split; [|done].
  assert (∀ x, getState w' x = getState w x) as Est.
  { intros x. unfold getState. destruct (decide (x = p)) as [->|]; [|by rewrite O'].
    rewrite E', E. cbn [obind]. by destruct (Hg pr) as [_ ->]. }
  assert (pcurrent w' = pcurrent w) as Ec by (by rewrite S).
  split; rewrite ?Ec, ?Est; [|done|done|done| |by rewrite S|by rewrite S|by rewrite S].
  - revert Hr. apply ring_frame; [by rewrite S|by rewrite S|]. intros x prx _ Ex.
    destruct (decide (x = p)) as [->|]; [|rewrite O' by done; by exists prx].
    exists (g pr). split; [done|]. rewrite E in Ex. injection Ex as <-. by apply Hg.
  - intros x ? ?. rewrite Est. by apply Hre.
Qed.

Lemma save_context_fair ps q w i s f :
  fair ps q w i s → ∃ w', save_process_context w (pcurrent w) f = Done w' ∧ fair ps q w' i s ∧ same_kernel w w'.
Proof.
  intros F. pose proof (fair_ring _ _ _ _ _ F) as Hr. destruct (ring_in w ps (pcurrent w) Hr) as (Hc0 & pr & Epr & _).
  { eapply list_elem_of_lookup_2, fair_cur. exact F. }
  unfold save_process_context. rewrite (proj2 (Z.eqb_neq (pcurrent w) 0)) by done.
  unfold getPInfo. rewrite Epr. cbn [obind]. unfold setInfo.
  edestruct (fair_updp ps q w i s (pcurrent w) pr) as (w' & E & F' & S & _); [done| |done|exists w'; done]. by intros x.
Qed.

Lemma load_context_fair ps q w i s f :
  fair ps q w i s → ∃ w' f', load_process_context w (pcurrent w) f = Done (w', f') ∧ fair ps q w' i s.
Proof.
  intros F. pose proof (fair_ring _ _ _ _ _ F) as Hr. destruct (ring_in w ps (pcurrent w) Hr) as (Hc0 & pr & Epr & _).
  { eapply list_elem_of_lookup_2, fair_cur. exact F. }
  unfold load_process_context. rewrite (proj2 (Z.eqb_neq (pcurrent w) 0)) by done.
  unfold getPInfo. rewrite Epr. cbn [obind]. eexists _, _. split; [done|]. case_match; [|done]. by eapply fair_view; [|exact F].
Qed.

(** The process after number [i] of a ring of [n]. *)
Lemma next_of_ring (ps : list Z) i x :
  ps !! i = Some x → hd x (drop (S i) ps ++ take i ps) = ps !!! (S i `mod` length ps)%nat.
Proof.
  intros Hi. pose proof (lookup_lt_Some _ _ _ Hi) as Hl.
  destruct (decide (S i = length ps)) as [E|E].
  - rewrite drop_ge by lia. rewrite E, Nat.Div0.mod_same. destruct ps as [|y ps]; [simpl in Hl; lia|].
    destruct i; cbn [app take hd]; [|done]. by injection Hi as ->.
  - rewrite Nat.mod_small by lia. destruct (lookup_lt_is_Some_2 ps (S i)) as [y Ey]; [lia|].
    rewrite (drop_S _ _ _ Ey). cbn [app hd]. symmetry. by apply list_lookup_total_correct.
Qed.

(** When everyone else is [READY], the first candidate is taken. *)
Lemma schedule_fair ps q w i s :
  fair ps q w i s → ∃ n w', schedule w (pcurrent w) = Done (n, w') ∧ n ≠ 0 ∧
    fair ps q (w' <| pcurrent := n |>) (S i `mod` length ps) s.
Proof.
  intros F. destruct F as [Hr Hl Hc Hrun Hre Hon Hs Hq].
  pose proof (next_of_ring ps i (pcurrent w) Hc) as Hnext.
  assert (ps !! (S i `mod` length ps)%nat = Some (ps !!! (S i `mod` length ps)%nat)) as Hlk.
  { apply list_lookup_lookup_total_lt, Nat.mod_upper_bound. apply lookup_lt_Some in Hc. lia. }
  pose proof (take_drop_middle ps i (pcurrent w) Hc) as Eps.
  destruct (ring_in w ps (pcurrent w) Hr) as (Hc0 & me & Eme & _); [by eapply list_elem_of_lookup_2|].
  assert (Hl' := Hl). assert (Hr' := Hr). rewrite <- Eps in Hr', Hl'.
  destruct (drop (S i) ps ++ take i ps) as [|n l] eqn:El; cbn [hd] in Hnext.
  - pose proof (schedule_stays w _ _ _ Hr' Hl') as E. rewrite El in E. specialize (E eq_refl).
    exists (pcurrent w), w. split; [done|]. split; [done|]. rewrite <- Hnext in Hlk.
    apply fair_view with w; [by destruct w|]. by split.
  - assert (n ∈ ps ∧ n ≠ pcurrent w) as [Hn Hne].
    { split; [rewrite Hnext; by eapply list_elem_of_lookup_2|]. pose proof (ring_nodup _ _ Hr') as Hnd.
      assert (n ∈ drop (S i) ps ++ take i ps) as Hin by (rewrite El; set_solver).
      apply NoDup_app in Hnd as (_ & Hd & Hnd). apply NoDup_cons in Hnd as [Hnb _]. intros ->.
      apply elem_of_app in Hin as [|]; [done|]. apply (Hd (pcurrent w)); [done|set_solver]. }
    assert (List.find (runnable w) (drop (S i) ps ++ take i ps) = Some n) as Ef.
    { rewrite El. cbn [List.find]. unfold runnable. specialize (Hre n Hn Hne). unfold getState in Hre.
      destruct (getp w n) as [pn| |]; cbn [obind] in Hre; try done. by injection Hre as ->. }
    destruct (schedule_takes w _ _ _ me n Hr' Hl' Eme Ef) as (w' & pn & -> & R & S & _ & O & E1 & E2 & E3).
    exists n, w'. rewrite Eps in R. split; [done|]. split; [by destruct (ring_in w ps n Hr Hn)|].
    assert (∀ x, getState (w' <| pcurrent := n |>) x = getState w' x) as Egs by (intros x; by apply getState_eq).
    split; change (pcurrent (w' <| pcurrent := n |>)) with n; rewrite ?Egs;
      [|done|by rewrite <- Hnext in Hlk| | |by rewrite S|by rewrite S|by rewrite S].
    + revert R. apply ring_frame; [done|done|]. intros p pr _ Ep. by exists pr.
    + unfold getState. by rewrite E3.
    + intros p Hp Hpn. rewrite Egs. destruct (decide (p = pcurrent w)) as [->|Hpc].
      * unfold getState in Hrun |- *. rewrite Eme in Hrun. cbn [obind] in Hrun. injection Hrun as Hst.
        rewrite E1. unfold preempted. by rewrite Hst.
      * unfold getState. rewrite O by done. by apply Hre.
Qed.

(** One timer interrupt: a tick more, or the next process. *)
Lemma timer_fair ps q w i s f :
  fair ps q w i s → 0 <= s → s + 1 < 2 ^ 32 →
  ∃ w' f', isr_timer_int w f = Done (w', f') ∧
    if q <=? s + 1 then fair ps q w' (S i `mod` length ps) 0 else fair ps q w' i (s + 1).
Proof.
  intros F H0 Hs. unfold isr_timer_int, handle_timer_interrupt.
  set (w1 := (w <| timer_interrupt_count ::= _ |> <| wpit ::= _ |>) <| total_ticks ::= _ |>).
  assert (fair ps q w1 i s) as F1 by (apply (fair_view ps q w); [done|exact F]).
  pose proof (ring_in w1 ps (pcurrent w1) (fair_ring _ _ _ _ _ F1)) as (Hc0 & _).
  { eapply list_elem_of_lookup_2, fair_cur. exact F1. }
  rewrite (fair_on _ _ _ _ _ F1), (proj2 (Z.eqb_neq (pcurrent w1) 0)) by done. cbn [negb orb].
  destruct (save_context_fair _ _ _ _ _ f F1) as (w2 & E2 & F2 & S2). rewrite E2. cbn [obind].
  pose proof (fair_ticks _ _ _ _ _ (fun n => u32 (n + 1)) F2) as F3. cbv beta in F3. rewrite (u32_small (s + 1)) in F3 by lia.
  set (w3 := w2 <| ticks_since_switch ::= _ |>) in *.
  rewrite (fair_running _ _ _ _ _ F3), (fair_quantum _ _ _ _ _ F3), (fair_since _ _ _ _ _ F3). cbn [obind].
  change (RUNNING =? RUNNING) with true. cbn [negb orb]. destruct (q <=? s + 1); cbn [negb].
  2: { exists w3, f. done. }
  set (w4 := w3 <| ticks_since_switch := 0 |>).
  assert (fair ps q w4 i 0) as F4 by exact (fair_ticks _ _ _ _ _ (fun _ => 0) F3).
  destruct (schedule_fair _ _ _ _ _ F4) as (n & w5 & -> & Hn & F5). cbn [obind].
  rewrite (proj2 (Z.eqb_neq n 0)) by done.
  destruct (load_context_fair _ _ _ _ _ f F5) as (w6 & f6 & -> & F6). by exists w6, f6.
Qed.

(** The machine through the timer interrupts that come with the frames [fs]. *)
Fixpoint timer_run w (fs : list frame) : outcome (world K) :=
  match fs with
  | [] => Done w
  | f :: fs => let* (w', _) := isr_timer_int w f in timer_run w' fs
  end.

Lemma timer_run_app w fs gs : timer_run w (fs ++ gs) = let* w' := timer_run w fs in timer_run w' gs.
Proof. revert w. induction fs as [|f fs IH]; intros w; [done|]. cbn. by destruct (isr_timer_int w f) as [[w' ?]| |]; cbn. Qed.

(** The rest of a quantum. *)
Lemma quantum_fair ps q fs : 0 < q < 2 ^ 32 →
  ∀ w i s, fair ps q w i s → 0 <= s → s + Z.of_nat (length fs) = q → fs ≠ [] →
  ∃ w', timer_run w fs = Done w' ∧ fair ps q w' (S i `mod` length ps) 0.
Proof.
  intros Hq. induction fs as [|f fs IH]; intros w i s F Hs Hl Hne; [done|]. cbn [timer_run]. rewrite length_cons in Hl.
  destruct (timer_fair ps q w i s f F Hs) as (w' & f' & -> & F'); [lia|]. cbn [obind].
  destruct fs as [|g fs]; cbn [length] in Hl.
  - rewrite (proj2 (Z.leb_le q (s + 1))) in F' by lia. by exists w'.
  - rewrite (proj2 (Z.leb_gt q (s + 1))) in F' by lia. apply (IH w' i (s + 1)); [done|lia|cbn [length]; lia|done].
Qed.

(** [k] quanta. *)
Lemma quanta_fair ps q k : 0 < q < 2 ^ 32 →
  ∀ w i fs, fair ps q w i 0 → length fs = (k * Z.to_nat q)%nat →
  ∃ w', timer_run w fs = Done w' ∧ fair ps q w' ((i + k) `mod` length ps) 0.
Proof.
  intros Hq. induction k as [|k IH]; intros w i fs F Hl.
  - apply nil_length_inv in Hl as ->. exists w. rewrite Nat.add_0_r. rewrite Nat.mod_small; [done|].
    eapply lookup_lt_Some, fair_cur. exact F.
  - rewrite <- (take_drop (Z.to_nat q) fs), timer_run_app.
    destruct (quantum_fair ps q (take (Z.to_nat q) fs) Hq w i 0 F) as (w1 & -> & F1); [lia| | |].
    { rewrite length_take. lia. }
    { intros E. apply (f_equal length) in E. rewrite length_take in E. cbn [length] in E. lia. }
    destruct (IH w1 _ (drop (Z.to_nat q) fs) F1) as (w2 & E2 & F2); [rewrite length_drop; lia|].
    cbn [obind]. exists w2. split; [done|]. rewrite Nat.Div0.add_mod_idemp_l in F2. by rewrite Nat.add_succ_r.
Qed.

(** C9. No process of the run queue starves: with all of them ready, whatever
    frames the timer interrupts come with, each one is the running process
    after less than one round of quanta, and the queue is then as fair as
    before, so that it comes round again. *)
Theorem every_process_runs ps q w i p :
  fair ps q w i 0 → 0 < q < 2 ^ 32 → p ∈ ps →
  ∃ k, (k < length ps)%nat ∧ ∀ fs, length fs = (k * Z.to_nat q)%nat →
    ∃ w', timer_run w fs = Done w' ∧ pcurrent w' = p ∧ getState w' p = Done RUNNING ∧
      fair ps q w' ((i + k) `mod` length ps) 0.
Proof.
  intros F Hq Hp. apply list_elem_of_lookup_1 in Hp as [j Hj]. pose proof (lookup_lt_Some _ _ _ Hj) as Hjl.
  pose proof (lookup_lt_Some _ _ _ (fair_cur _ _ _ _ _ F)) as Hil.
  exists ((j + (length ps - i)) `mod` length ps)%nat. split; [apply Nat.mod_upper_bound; lia|]. intros fs Hl.
  destruct (quanta_fair ps q _ Hq w i fs F Hl) as (w' & E & F'). exists w'. split; [done|].
  assert ((i + (j + (length ps - i)) `mod` length ps) `mod` length ps = j)%nat as Ej.
  { rewrite Nat.Div0.add_mod_idemp_r. replace (i + (j + (length ps - i)))%nat with (j + 1 * length ps)%nat by lia.
    rewrite Nat.Div0.mod_add. by apply Nat.mod_small. }
  pose proof (fair_cur _ _ _ _ _ F') as Hc. rewrite Ej, Hj in Hc. injection Hc as ->. split; [done|].
  split; [by apply (fair_running _ _ _ _ _ F')|done].
Qed.

(** ** Into and out of the run queue *)

Lemma last_snoc {A} (l : list A) x d : List.last (l ++ [x]) d = x.
Proof. apply last_last. Qed.

Lemma ring_updp w ps p g pr :
  getp w p = Done pr → (∀ x, pnext (g x) = pnext x) → ring w ps →
  ∃ w', updp w p g = Done w' ∧ ring w' ps ∧ getp w' p = Done (g pr) ∧ (∀ q, q ≠ p → getp w' q = getp w q) ∧
    same_kernel w w'.
Proof.
  intros E Hg Hr. destruct (updp_spec w p g pr E) as (w' & -> & E' & O' & S). exists w'. split; [done|].
  split; [|done]. revert Hr. apply ring_frame; [by rewrite S|by rewrite S|]. intros x prx _ Ex.
  destruct (decide (x = p)) as [->|]; [|rewrite O' by done; by exists prx]. exists (g pr).
  rewrite E in Ex. by injection Ex as <-.
Qed.

(** [w'] differs from [w] at most in the links of the processes and the heads
    of the queue. *)
Definition unlink_all (m : gmap Z process) : gmap Z process := (fun pr => pr <| pnext := 0 |>) <$> m.
Definition relinked w w' : Prop :=
  w' = w <| procs := procs w' |> <| plist := plist w' |> <| firstProc := firstProc w' |> <| pcurrent := pcurrent w' |>
  ∧ unlink_all (procs w') = unlink_all (procs w).

#[export] Instance relinked_preorder : PreOrder relinked.
Proof.
  split; [intros w; split; [by destruct w|done]|]. intros w1 w2 w3 [H1 G1] [H2 G2]. split; [|congruence].
  rewrite H2, H1. by destruct w1.
Qed.

Lemma relinked_next w p n w' : updp w p (fun pr => pr <| pnext := n |>) = Done w' → relinked w w'.
Proof.
  unfold updp, getp. destruct (procs w !! p) as [pr|] eqn:E; [|done]. intros [= <-]. split; [by destruct w|].
  cbn. unfold unlink_all. rewrite fmap_insert. apply insert_id. by rewrite lookup_fmap, E.
Qed.

Lemma relinked_heads w w' :
  w' = w <| plist := plist w' |> <| firstProc := firstProc w' |> <| pcurrent := pcurrent w' |> → relinked w w'.
Proof. intros ->. split; by destruct w. Qed.

Lemma relinked_state w w' : relinked w w' → state <$> procs w' = state <$> procs w.
Proof.
  intros [_ E]. apply (f_equal (λ m : gmap Z process, state <$> m)) in E. unfold unlink_all in E. by rewrite <- !map_fmap_compose in E.
Qed.

Lemma relinked_parent w w' : relinked w w' → pparent <$> procs w' = pparent <$> procs w.
Proof.
  intros [_ E]. apply (f_equal (λ m : gmap Z process, pparent <$> m)) in E. unfold unlink_all in E. by rewrite <- !map_fmap_compose in E.
Qed.

(** [link_process]: the process becomes the tail of the ring. *)
Lemma link_process_ring w ps p pr :
  ring w ps → p ∉ ps → p ≠ 0 → getp w p = Done pr →
  ∃ w', link_process w p = Done w' ∧ ring w' (ps ++ [p]) ∧ (∀ q, getState w' q = getState w q) ∧
    pcurrent w' = pcurrent w ∧ relinked w w'.
Proof.
  intros Hr Hp Hp0 Epr. unfold link_process, setPNext. destruct ps as [|h ps].
  - rewrite (ring_head _ _ Hr). change (hd 0 [] =? 0) with true. cbv zeta.
    set (w0 := w <| plist := p |> <| firstProc := p |>).
    destruct (updp_spec w0 p (fun pr => pr <| pnext := p |>) pr Epr) as (w' & Eu & E' & O' & S). rewrite Eu. exists w'.
    split; [done|]. split; [|split; [|split; [by rewrite S|]]].
    + split; [by rewrite S|by rewrite S|apply NoDup_singleton|]. intros a x b E.
      destruct a as [|? a]; [|by destruct a]. injection E as <- <-. split; [done|]. by eexists.
    + intros q. unfold getState. destruct (decide (q = p)) as [->|]; [|by rewrite O'].
      rewrite E'. by rewrite Epr.
    + transitivity w0; [apply relinked_heads; by destruct w|by eapply relinked_next].
  - rewrite (ring_head _ _ Hr). destruct (ring_in w (h :: ps) h Hr) as (Hh & _); [set_solver|]. cbn [hd].
    rewrite (proj2 (Z.eqb_neq h 0)) by done.
    destruct (updp_spec w p (fun pr => pr <| pnext := h |>) pr Epr) as (w1 & Eu1 & E1 & O1 & S1). rewrite Eu1. cbn [obind].
    assert (firstProc w1 = List.last (h :: ps) 0) as Eft by (rewrite S1; apply (ring_tail _ _ Hr)).
    destruct (exists_last (l := h :: ps)) as (l & t & El); [done|]. rewrite El, last_snoc in Eft.
    assert (t ∈ h :: ps) as Ht by (rewrite El; set_solver).
    destruct (ring_in w _ t Hr Ht) as (Ht0 & pt & Et & _). rewrite Eft.
    assert (getp w1 t = Done pt) as Et1 by (rewrite O1; [done|congruence]).
    destruct (updp_spec w1 t (fun pr => pr <| pnext := p |>) pt Et1) as (w2 & Eu2 & E2 & O2 & S2). rewrite Eu2. cbn [obind].
    eexists. split; [done|].
    assert (∀ q, getState w2 q = getState w q) as Est.
    { intros q. unfold getState. destruct (decide (q = t)) as [->|Hq]; [by rewrite E2, Et|]. rewrite O2 by done.
      destruct (decide (q = p)) as [->|]; [by rewrite E1, Epr|by rewrite O1]. }
    split; [|split; [done|split; [by rewrite S2, S1|]]].
    2: { transitivity w1; [by eapply relinked_next|]. transitivity w2; [by eapply relinked_next|].
         apply relinked_heads. by destruct w2. }
    split; [by cbn; rewrite S2, S1; apply (ring_head _ _ Hr)|by rewrite last_snoc| |].
    { apply NoDup_app. split; [apply (ring_nodup _ _ Hr)|]. split; [set_solver|apply NoDup_singleton]. }
    intros a x b E. change (getp (w2 <| firstProc := p |>)) with (getp w2).
    destruct b as [|y b _] using rev_ind.
    + apply app_inj_tail in E as [<- <-]. split; [done|]. exists (pr <| pnext := h |>).
      split; [rewrite O2, E1; [done|congruence]|done].
    + rewrite app_comm_cons, app_assoc in E. apply app_inj_tail in E as [E <-].
      destruct (ring_next _ _ Hr a x b E) as (Hx0 & px & Ex & Hn). split; [done|].
      assert (x ≠ p) as Hxp by (intros ->; apply Hp; rewrite E; set_solver).
      destruct b as [|y b].
      * rewrite El in E. apply app_inj_tail in E as [_ <-]. by eexists.
      * exists px. split; [|done]. rewrite O2, O1; [done|done|]. intros ->.
        pose proof (ring_nodup _ _ Hr) as Hnd. rewrite El in Hnd. rewrite El in E.
        destruct (exists_last (l := y :: b)) as (b' & z & Eb); [done|]. rewrite Eb in E.
        rewrite app_comm_cons, app_assoc in E. apply app_inj_tail in E as [-> ->].
        apply NoDup_app in Hnd as (_ & Hd & _). apply (Hd z); set_solver.
Qed.

Lemma ring_pcurrent w ps p : ring w ps → ring (w <| pcurrent := p |>) ps.
Proof. apply ring_frame; [done|done|]. intros q pr _ E. by exists pr. Qed.

(** A process in the queue, made current or ready. *)
Lemma enqueue_process_ring w ps p pr make_current :
  ring w ps → p ∉ ps → p ≠ 0 → getp w p = Done pr → (pcurrent w = 0 ∨ pcurrent w ∈ ps) →
  ∃ w', enqueue_process w p make_current = Done w' ∧ ring w' (ps ++ [p]) ∧
    let current := make_current || (pcurrent w =? 0) in
    pcurrent w' = (if current then p else pcurrent w) ∧
    getState w' p = Done (if current then RUNNING else READY).
Proof.
  intros Hr Hp Hp0 Epr Hc. unfold enqueue_process. rewrite (proj2 (Z.eqb_neq p 0)) by done.
  destruct (link_process_ring w ps p pr Hr Hp Hp0 Epr) as (w1 & -> & R1 & Est & Ec & _). cbn [obind]. rewrite Ec.
  destruct (ring_in w1 _ p R1) as (_ & p1 & E1 & _); [set_solver|]. unfold setState.
  destruct (make_current || (pcurrent w =? 0)) eqn:Em.
  - assert (∃ w2, (if negb (pcurrent w =? 0) && negb (pcurrent w =? p)
       then let* st := getState w1 (pcurrent w) in
            if st =? RUNNING then updp w1 (pcurrent w) (fun pr => pr <| state := READY |>) else Done w1
       else Done w1) = Done w2 ∧ ring w2 (ps ++ [p]) ∧ ∃ p2, getp w2 p = Done p2) as (w2 & -> & R2 & p2 & E2).
    { destruct (negb (pcurrent w =? 0) && negb (pcurrent w =? p)) eqn:Eb; [|by exists w1; eauto].
      apply andb_prop in Eb as [Eb1 Eb2]. apply negb_true_iff, Z.eqb_neq in Eb1, Eb2.
      destruct (ring_in w1 _ (pcurrent w) R1) as (_ & pc & Epc & _); [destruct Hc; set_solver|].
      unfold getState at 1. rewrite Epc. cbn [obind]. destruct (state pc =? RUNNING); [|by exists w1; eauto].
      destruct (ring_updp w1 (ps ++ [p]) (pcurrent w) (fun pr => pr <| state := READY |>) pc Epc) as (w2 & -> & R2 & _ & O2 & _); [done|done|].
      exists w2. split; [done|]. split; [done|]. exists p1. by rewrite O2. }
    cbn [obind]. set (w3 := w2 <| pcurrent := p |>).
    edestruct (ring_updp w3 (ps ++ [p]) p) as (w4 & -> & R4 & E4 & _ & S4); [exact E2| |by apply ring_pcurrent|].
    { by intros x. }
    cbn [obind]. eexists. split; [done|]. split; [|split].
    + revert R4. apply ring_frame; [done|done|]. intros q prq _ Eq. by exists prq.
    + change (pcurrent w4 = p). by rewrite S4.
    + change (getState w4 p = Done RUNNING). unfold getState. by rewrite E4.
  - destruct (ring_updp w1 (ps ++ [p]) p (fun pr => pr <| state := READY |>) p1 E1) as (w2 & -> & R2 & E2 & _ & S2); [done|done|].
    exists w2. split; [done|]. split; [done|]. split; [by rewrite S2|]. unfold getState. by rewrite E2.
Qed.

(** *** [find_previous] *)

Variable fuel : nat.

(** What follows a process that is not the last is not the head. *)
Lemma ring_next_not_head w ps a x y b : ring w ps → ps = a ++ x :: y :: b → y ≠ hd 0 ps ∧ x ≠ y.
Proof.
  intros Hr E. pose proof (ring_nodup _ _ Hr) as Hnd. rewrite E in Hnd |- *.
  apply NoDup_app in Hnd as (_ & Hd & Hxy). apply NoDup_cons in Hxy as [Hx _]. split; [|set_solver].
  destruct a as [|z a]; cbn [app hd]; [set_solver|]. intros ->. apply (Hd z); set_solver.
Qed.

Lemma find_tail_ring w ps :
  ring w ps → ∀ fl b a x, ps = a ++ x :: b → (length b < fl)%nat →
  loop fl (fun tail => let* n := getPNext w tail in Done (if negb (n =? plist w) then inl n else inr tail)) x
    = Done (List.last ps 0).
Proof.
  intros Hr fl. induction fl as [|fl IH]; intros b a x E Hl; [lia|]. cbn [loop].
  destruct (ring_next _ _ Hr a x b E) as (_ & pr & Epr & Hn). unfold getPNext at 1. rewrite Epr. cbn [obind].
  rewrite Hn. destruct b as [|y b]; cbn [hd].
  - rewrite (ring_head _ _ Hr), Z.eqb_refl. cbn [negb obind]. by rewrite E, last_snoc.
  - destruct (ring_next_not_head w ps a x y b Hr E) as [Hh _]. rewrite (proj2 (Z.eqb_neq y (plist w))).
    { cbn [negb obind]. apply (IH b (a ++ [x])); [by rewrite <- app_assoc|simpl in Hl; lia]. }
    by rewrite (ring_head _ _ Hr).
Qed.

Lemma find_previous_loop w ps p b :
  ring w ps → (length ps < fuel)%nat →
  ∀ a2 a1 fl, ps = a1 ++ a2 ++ p :: b → (length a2 < fl)%nat →
  loop fl (fun '(cursor, prev) =>
      if cursor =? p then
        if negb (prev =? 0) then Done (inr prev)
        else let* tail := find_tail fuel w cursor in Done (inr tail)
      else
        let* n := getPNext w cursor in
        Done (if negb (n =? 0) && negb (n =? plist w) then inl (n, cursor) else inr 0)) (hd p a2, List.last a1 0)
    = Done (List.last (a1 ++ a2) (List.last ps 0)).
Proof.
  intros Hr Hf a2. induction a2 as [|y a2 IH]; intros a1 [|fl] E Hl; try (simpl in Hl; lia); cbn [loop hd app].
  - rewrite Z.eqb_refl, app_nil_r. destruct a1 as [|z a1 _] using rev_ind; cbn [List.last].
    + rewrite Z.eqb_refl. cbn [negb]. unfold find_tail. rewrite (find_tail_ring w ps Hr fuel b [] p); [done|done|].
      rewrite E, !length_app in Hf. simpl in Hf. lia.
    + rewrite !last_snoc. rewrite <- app_assoc in E. destruct (ring_next _ _ Hr _ _ _ E) as (Hz & _).
      by rewrite (proj2 (Z.eqb_neq z 0)).
  - assert (y ≠ p) as Hyp.
    { pose proof (ring_nodup _ _ Hr) as Hnd. rewrite E in Hnd. apply NoDup_app in Hnd as (_ & _ & Hnd).
      cbn [app] in Hnd. apply NoDup_cons in Hnd as [Hy _]. set_solver. }
    rewrite (proj2 (Z.eqb_neq y p)) by done. cbn [app] in E.
    destruct (ring_next _ _ Hr _ _ _ E) as (_ & pr & Epr & Hn). unfold getPNext at 1. rewrite Epr. cbn [obind].
    assert (pnext pr = hd p a2) as -> by (rewrite Hn; by destruct a2).
    assert (∃ l, ps = a1 ++ y :: hd p a2 :: l) as [l El] by (rewrite E; destruct a2; eauto).
    destruct (ring_next_not_head w ps a1 y _ l Hr El) as [Hh _].
    destruct (ring_in w ps (hd p a2) Hr) as (Hn0 & _); [rewrite El; set_solver|].
    rewrite (proj2 (Z.eqb_neq (hd p a2) 0)), (proj2 (Z.eqb_neq (hd p a2) (plist w))) by (rewrite ?(ring_head _ _ Hr); done).
    cbn [negb andb].
    pose proof (IH (a1 ++ [y]) fl) as IH'. rewrite last_snoc in IH'. cbn [obind]. rewrite IH'.
    + by rewrite <- app_assoc.
    + by rewrite <- app_assoc.
    + simpl in Hl. lia.
Qed.

Lemma find_previous_ring w a p b :
  ring w (a ++ p :: b) → (length (a ++ p :: b) < fuel)%nat →
  find_previous fuel w p = Done (List.last a (List.last (p :: b) 0)).
Proof.
  intros Hr Hl. set (ps := a ++ p :: b) in *. assert (p ≠ 0) as Hp0 by (by destruct (ring_next _ _ Hr a p b eq_refl)).
  assert (plist w = hd p a) as Epl by (rewrite (ring_head _ _ Hr); unfold ps; by destruct a).
  unfold find_previous. rewrite (proj2 (Z.eqb_neq p 0)) by done.
  rewrite (proj2 (Z.eqb_neq (plist w) 0)).
  2: { rewrite Epl. destruct a as [|z a]; [done|]. by destruct (ring_next _ _ Hr [] z (a ++ p :: b)). }
  cbn [orb]. rewrite Epl at 1. etransitivity; [apply (find_previous_loop w ps p b Hr Hl a [] fuel eq_refl)|].
  { unfold ps in Hl. rewrite length_app in Hl. lia. }
  cbn [app]. f_equal. unfold ps. destruct a as [|z a _] using rev_ind; [done|]. by rewrite !last_snoc.
Qed.

(** The last of a list without duplicates has nothing after it. *)
Lemma last_alone {A} (a b : list A) x d : NoDup (a ++ x :: b) → List.last (a ++ x :: b) d = x → b = [].
Proof.
  intros Hnd E. destruct b as [|y b _] using rev_ind; [done|]. rewrite app_comm_cons, app_assoc, last_snoc in E. subst y.
  rewrite app_comm_cons, app_assoc in Hnd. apply NoDup_app in Hnd as (_ & Hd & _). destruct (Hd x); set_solver.
Qed.

(** The links of a ring without one of its processes: only its predecessor's
    changes. *)
Lemma unlinked_next w w' a p b prev pv :
  ring w (a ++ p :: b) → a ++ b ≠ [] → prev = List.last a (List.last b 0) →
  getp w' prev = Done (pv <| pnext := hd 0 (b ++ a) |>) →
  (∀ q, q ≠ prev → q ≠ p → getp w' q = getp w q) →
  ∀ a' q b', a ++ b = a' ++ q :: b' → q ≠ 0 ∧ ∃ pr, getp w' q = Done pr ∧ pnext pr = hd (hd 0 (a ++ b)) b'.
Proof.
  intros Hr Hne Hprev Epv' O a' q b' E. pose proof (ring_nodup _ _ Hr) as Hnd.
  apply NoDup_app in Hnd as (Hna & Hd & Hpb). apply NoDup_cons in Hpb as [Hpb Hnb].
  assert (q ∈ a ++ b) as Hq by (rewrite E; set_solver).
  assert (q ≠ p) as Hqp by (intros ->; apply elem_of_app in Hq as [Hq|]; [apply (Hd p Hq); set_solver|done]).
  split; [by destruct (ring_in w _ q Hr) as [? _]; [set_solver|]|].
  assert ((∃ k, a = a' ++ q :: k ∧ b' = k ++ b) ∨ (∃ k, a' = a ++ k ∧ b = k ++ q :: b')) as [(k & Ea & ->)|(k & -> & Eb)].
  { apply app_eq_app in E as (k & [[Ea Eb]|[Ea Eb]]); [|right; by exists k]. destruct k as [|z k]; cbn [app] in Eb.
    - right. exists []. by rewrite app_nil_r in Ea |- *.
    - left. injection Eb as <- ->. by exists k. }
  - destruct (ring_next _ _ Hr a' q (k ++ p :: b)) as (_ & pr & Epr & Hn); [by rewrite Ea, <- app_assoc|].
    destruct (decide (q = prev)) as [->|Hqv].
    + eexists. split; [exact Epv'|]. cbn. rewrite Ea in Hna, Hprev. symmetry in Hprev. apply last_alone in Hprev as ->; [|done].
      rewrite Ea. by destruct b, a'.
    + exists pr. rewrite O by done. split; [done|]. rewrite Hn. destruct k as [|z k]; [|done].
      rewrite Ea, last_snoc in Hprev. done.
  - destruct (ring_next _ _ Hr (a ++ p :: k) q b') as (_ & pr & Epr & Hn); [by rewrite Eb, <- app_assoc|].
    destruct (decide (q = prev)) as [->|Hqv].
    + eexists. split; [exact Epv'|]. cbn. destruct a as [|z a _] using rev_ind.
      * rewrite Eb in Hnb, Hprev. cbn [List.last] in Hprev. symmetry in Hprev. apply last_alone in Hprev as ->; [|done].
        rewrite Eb, app_nil_r. by destruct k.
      * rewrite last_snoc in Hprev. destruct (Hd z); [set_solver|]. rewrite Eb, Hprev. set_solver.
    + exists pr. rewrite O by done. split; [done|]. rewrite Hn. destruct b' as [|z b']; [|done].
      destruct a as [|z a]; [|done]. cbn [List.last] in Hprev. rewrite Eb, last_snoc in Hprev. done.
Qed.

(** The heads of the queue once [p] is out of it. *)
Definition moved_heads w p prev next : world K :=
  let w := if plist w =? p then w <| plist := next |> else w in
  let w := if firstProc w =? p then w <| firstProc := prev |> else w in
  if pcurrent w =? p then w <| pcurrent := next |> else w.

Lemma moved_heads_eq w p prev next :
  let w' := moved_heads w p prev next in
  procs w' = procs w ∧ pcurrent w' = (if pcurrent w =? p then next else pcurrent w) ∧
  plist w' = (if plist w =? p then next else plist w) ∧ firstProc w' = (if firstProc w =? p then prev else firstProc w).
Proof.
  destruct w as [? ? ? ? pl pc fp ? ? ? ? ? ? ? ?]. unfold moved_heads. cbn.
  destruct (pl =? p); cbn; destruct (fp =? p); cbn; by destruct (pc =? p).
Qed.

Lemma moved_heads_relinked w p prev next : relinked w (moved_heads w p prev next).
Proof.
  apply relinked_heads. destruct w as [? ? ? ? pl pc fp ? ? ? ? ? ? ? ?]. unfold moved_heads. cbn.
  destruct (pl =? p); cbn; destruct (fp =? p); cbn; by destruct (pc =? p).
Qed.

(** The predecessor of [p] round the list, and the ends of the list without
    [p]. *)
Lemma previous_in (a b : list Z) p :
  a ++ b ≠ [] → p ∉ a → p ∉ b →
  let prev := List.last a (List.last (p :: b) 0) in
  prev = List.last a (List.last b 0) ∧ prev ∈ a ++ b ∧ prev ≠ p ∧
  (if hd p a =? p then hd 0 (b ++ a) else hd p a) = hd 0 (a ++ b) ∧
  (if List.last b (List.last (p :: b) 0) =? p then prev else List.last b (List.last (p :: b) 0)) = List.last (a ++ b) 0.
Proof.
  intros Hab Hpa Hpb prev.
  assert (prev = List.last a (List.last b 0)) as Eprev.
  { unfold prev. destruct a as [|z a _] using rev_ind; [by destruct b|by rewrite !last_snoc]. }
  assert (prev ∈ a ++ b) as Hprev.
  { rewrite Eprev. destruct a as [|z a _] using rev_ind; [|rewrite last_snoc; set_solver].
    destruct b as [|y b _] using rev_ind; [done|]. cbn [List.last]. rewrite last_snoc. set_solver. }
  split; [done|]. split; [done|]. split; [intros E; rewrite E in Hprev; set_solver|]. split.
  - destruct a as [|z a]; [rewrite Z.eqb_refl, app_nil_r; done|]. cbn [hd app]. rewrite (proj2 (Z.eqb_neq z p)); set_solver.
  - rewrite Eprev. destruct b as [|y b _] using rev_ind; [by rewrite Z.eqb_refl, app_nil_r|].
    rewrite !last_snoc, app_assoc, last_snoc. rewrite (proj2 (Z.eqb_neq y p)); set_solver.
Qed.

(** The only process of the queue leaves it empty. *)
Lemma remove_only w p pr :
  ring w [p] → getp w p = Done pr →
  ∃ w', remove_process fuel w p = Done w' ∧ ring w' [] ∧
    pcurrent w' = (if pcurrent w =? p then 0 else pcurrent w) ∧ (∀ q, getState w' q = getState w q) ∧
    relinked w w'.
Proof.
  intros Hr Epr. destruct (ring_next _ _ Hr [] p [] eq_refl) as (Hp0 & pr' & Epr' & Hn). rewrite Epr in Epr'. injection Epr' as <-.
  pose proof (ring_head _ _ Hr) as Epl. cbn [hd] in Epl, Hn. unfold remove_process, setPNext, getPNext.
  rewrite Epl, (proj2 (Z.eqb_neq p 0)), Epr by done. cbn [orb obind]. rewrite Hn, Z.eqb_refl. cbn [andb].
  set (w0 := if pcurrent _ =? p then _ else _).
  assert (procs w0 = procs w ∧ pcurrent w0 = (if pcurrent w =? p then 0 else pcurrent w) ∧ plist w0 = 0 ∧ firstProc w0 = 0)
    as (Ep & Ec & El & Ef) by (unfold w0; destruct w; cbn; case_match; done).
  assert (relinked w w0) as Erl.
  { apply relinked_heads. unfold w0. destruct w. cbn. by destruct (_ =? p). }
  destruct (updp_spec w0 p (fun x => x <| pnext := 0 |>) pr) as (w' & Eu & E' & O' & S).
  { unfold getp in *. by rewrite Ep. }
  rewrite Eu. exists w'. split; [done|].
  split; [|split; [by rewrite S|split; [|transitivity w0; [done|by eapply relinked_next]]]].
  - split; [by rewrite S|by rewrite S|constructor|by intros [|? ?]].
  - intros q. unfold getState. destruct (decide (q = p)) as [->|]; [by rewrite E', Epr|]. rewrite O' by done.
    unfold getp. by rewrite Ep.
Qed.

(** [remove_process] closes the ring over the process, whose successor is
    current if it was. *)
Lemma remove_process_ring w a p b pr :
  ring w (a ++ p :: b) → (length (a ++ p :: b) < fuel)%nat → getp w p = Done pr →
  ∃ w', remove_process fuel w p = Done w' ∧ ring w' (a ++ b) ∧
    pcurrent w' = (if pcurrent w =? p then hd 0 (b ++ a) else pcurrent w) ∧
    (∀ q, getState w' q = getState w q) ∧ relinked w w'.
Proof.
  intros Hr Hl Epr. destruct (decide (a ++ b = [])) as [Hab|Hab].
  { apply app_eq_nil in Hab as [-> ->]. by apply (remove_only w p pr). }
  destruct (ring_next _ _ Hr a p b eq_refl) as (Hp0 & pr' & Epr' & Hn). rewrite Epr in Epr'. injection Epr' as <-.
  assert (plist w = hd p a) as Epl by (rewrite (ring_head _ _ Hr); by destruct a).
  assert (plist w ≠ 0) as Hpl0.
  { rewrite Epl. destruct a as [|z a]; [done|]. by destruct (ring_next _ _ Hr [] z (a ++ p :: b)). }
  pose proof (ring_nodup _ _ Hr) as Hnd. apply NoDup_app in Hnd as (Hna & Hd & Hpb).
  apply NoDup_cons in Hpb as [Hpb Hnb]. assert (p ∉ a) as Hpa by (intros Hpa; apply (Hd p Hpa); set_solver).
  destruct (previous_in a b p Hab Hpa Hpb) as (Eprev & Hprev & Hvp & Eh & Et).
  unfold remove_process, setPNext. rewrite (proj2 (Z.eqb_neq p 0)), (proj2 (Z.eqb_neq (plist w) 0)) by done. cbn [orb].
  unfold getPNext. rewrite Epr. cbn [obind].
  assert ((p =? plist w) && (pnext pr =? p) = false) as ->.
  { apply andb_false_iff. rewrite Epl, Hn, !Z.eqb_neq. destruct a as [|z a]; [right|left; set_solver].
    destruct b as [|y b]; [done|]. set_solver. }
  rewrite (find_previous_ring w a p b Hr Hl). cbn [obind].
  assert (pnext pr = hd 0 (b ++ a)) as -> by (rewrite Hn; destruct b, a; done).
  set (prev := List.last a (List.last (p :: b) 0)) in *.
  destruct (ring_in w _ prev Hr) as (Hv0 & pv & Epv & _); [set_solver|]. rewrite (proj2 (Z.eqb_neq prev 0)) by done.
  destruct (updp_spec w prev (fun x => x <| pnext := hd 0 (b ++ a) |>) pv Epv) as (w1 & Eu1 & E1 & O1 & S1). rewrite Eu1. cbn [obind].
  match goal with |- context [updp ?t p _] => change t with (moved_heads w1 p prev (hd 0 (b ++ a))) end.
  destruct (moved_heads_eq w1 p prev (hd 0 (b ++ a))) as (Ep2 & Ec2 & El2 & Ef2).
  assert (relinked w1 (moved_heads w1 p prev (hd 0 (b ++ a)))) as Erl.
  { apply moved_heads_relinked. }
  set (w2 := moved_heads w1 p prev (hd 0 (b ++ a))) in *. clearbody w2.
  assert (pcurrent w1 = pcurrent w ∧ plist w1 = hd p a ∧ firstProc w1 = List.last b (List.last (p :: b) 0)) as (C1 & C2 & C3).
  { rewrite S1. split; [done|]. split; [done|]. change (firstProc w = List.last b (List.last (p :: b) 0)).
    rewrite (ring_tail _ _ Hr). destruct b as [|y b _] using rev_ind; [apply last_snoc|].
    by rewrite app_comm_cons, app_assoc, !last_snoc. }
  rewrite C1 in Ec2. rewrite C2, Eh in El2. rewrite C3, Et in Ef2.
  assert (∀ q, getp w2 q = getp w1 q) as Eg by (intros q; unfold getp; by rewrite Ep2).
  destruct (updp_spec w2 p (fun x => x <| pnext := 0 |>) pr) as (w3 & Eu3 & E3 & O3 & S3); [by rewrite Eg, O1|].
  rewrite Eu3. exists w3. split; [done|]. split; [|split; [by rewrite S3|split]].
  3: { transitivity w1; [by eapply relinked_next|]. transitivity w2; [done|by eapply relinked_next]. }
  - split; [by rewrite S3|by rewrite S3|apply NoDup_app; split_and!; [done| |done]; intros q Hq Hqb; apply (Hd q Hq); set_solver|].
    apply (unlinked_next w w3 a p b prev pv Hr Hab Eprev); [by rewrite O3, Eg|].
    intros q ? ?. by rewrite O3, Eg, O1.
  - intros q. unfold getState. destruct (decide (q = p)) as [->|]; [by rewrite E3, Epr|]. rewrite O3, Eg by done.
    destruct (decide (q = prev)) as [->|]; [by rewrite E1, Epv|by rewrite O1].
Qed.

(** ** The end of a process *)

Lemma updp_inv w p g w' : updp w p g = Done w' → ∃ pr, getp w p = Done pr.
Proof. unfold updp. destruct (getp w p) as [pr| |]; [by exists pr|done|done]. Qed.

(** [exit]: the process is marked, and a signal goes to its father. *)
Lemma exit_ring w ps p w' :
  ring w ps → exit w p = Done w' →
  ring w' ps ∧ getState w' p = Done ZOMBIE ∧ (∀ q, q ≠ p → getState w' q = getState w q).
Proof.
  intros Hr. unfold exit, setState, sendSignal, getPParent. intros E.
  destruct (updp w p _) as [w1| |] eqn:E1; try done. cbn [obind] in E. destruct (updp_inv _ _ _ _ E1) as [pr Epr].
  destruct (ring_updp w ps p (fun pr => pr <| state := ZOMBIE |>) pr Epr) as (w1' & E1' & R1 & G1 & O1 & _); [done|done|].
  rewrite E1 in E1'. injection E1' as <-. rewrite G1 in E. cbn [obind] in E.
  assert (getState w1 p = Done ZOMBIE ∧ (∀ q, q ≠ p → getState w1 q = getState w q)) as [S1 S2].
  { unfold getState. split; [by rewrite G1|]. intros q ?. by rewrite O1. }
  destruct (negb _) in E; [|by injection E as <-]. destruct (updp_inv _ _ _ _ E) as [pp Epp].
  set (f := pparent _) in *. set (g := fun pr : process => pr <| info -> signal ::= fun m => set_signal m SIGCHLD |>) in E.
  destruct (ring_updp w1 ps f g pp Epp) as (w2 & E2 & R2 & G2 & O2 & _); [done|done|].
  rewrite E in E2. injection E2 as <-. split; [done|].
  assert (∀ q, getState w' q = getState w1 q) as S3.
  { intros q. unfold getState. destruct (decide (q = f)) as [->|]; [by rewrite G2, Epp|by rewrite O2]. }
  rewrite S3. split; [done|]. intros q ?. rewrite S3. by apply S2.
Qed.

Lemma find_ext {A} (f g : A → bool) l : (∀ x, x ∈ l → f x = g x) → List.find f l = List.find g l.
Proof.
  induction l as [|x l IH]; intros E; [done|]. cbn. rewrite (E x) by set_solver. destruct (g x); [done|].
  apply IH. intros y Hy. apply E. set_solver.
Qed.

(** [ZOMBIE] and [RUNNING] are the same number, so a process that has
    exited and is still the current one is put back to [READY] by the switch
    away from it, and is a candidate again: it never gets to be reaped. *)
Theorem exit_not_final w a this b n w1 :
  ring w (a ++ this :: b) → (length (a ++ this :: b) <= 100)%nat →
  List.find (runnable w) (b ++ a) = Some n → exit w this = Done w1 →
  ∃ w2, schedule w1 this = Done (n, w2) ∧ getState w2 this = Done READY ∧ runnable w2 this = true.
Proof.
  intros Hr Hl Ef Ex. destruct (exit_ring _ _ _ _ Hr Ex) as (R1 & S1 & S2).
  destruct (ring_in _ _ this R1) as (_ & me & Eme & _); [set_solver|].
  assert (this ∉ b ++ a) as Hnot.
  { pose proof (ring_nodup _ _ Hr) as Hnd. apply NoDup_app in Hnd as (_ & Hd & Hnd). apply NoDup_cons in Hnd as [Hnb _].
    intros Hin. apply elem_of_app in Hin as [|Hin]; [done|]. apply (Hd this Hin). set_solver. }
  assert (List.find (runnable w1) (b ++ a) = Some n) as Ef1.
  { rewrite <- Ef. apply find_ext. intros q Hq. assert (q ≠ this) as Hne by congruence. specialize (S2 q Hne).
    destruct (ring_in _ _ q Hr) as (_ & p0 & Ep0 & _); [set_solver|].
    destruct (ring_in _ _ q R1) as (_ & p1 & Ep1 & _); [set_solver|].
    unfold getState in S2. unfold runnable. rewrite Ep0, Ep1 in S2 |- *. cbn [obind] in S2. by injection S2 as ->. }
  destruct (schedule_takes w1 a this b me n R1 Hl Eme Ef1) as (w2 & pn & E & _ & _ & _ & _ & E2 & _).
  unfold getState in S1. rewrite Eme in S1. injection S1 as Hst.
  exists w2. split; [done|]. unfold getState, runnable. rewrite E2. unfold preempted. by rewrite Hst.
Qed.

(** What the removal and the reparenting do to the file tree: nothing. *)
Lemma updp_wfs w p g w' : updp w p g = Done w' → wfs w' = wfs w.
Proof. unfold updp. destruct (getp w p); try done. by injection 1 as <-. Qed.

Lemma change_process_father_wfs w p g w' : change_process_father fuel w p g = Done w' → wfs w' = wfs w.
Proof.
  unfold change_process_father, setPParent. case_match; [by injection 1 as <-|]. case_match; [by injection 1 as <-|].
  match goal with |- context [loop fuel ?b ?s] => destruct (loop fuel b s) as [w1| |] eqn:E end; try done.
  injection 1 as <-. change (wfs w1 = wfs w). revert E.
  apply (loop_inv (fun s => wfs (fst s) = wfs w) (fun w' => wfs w' = wfs w)); [|done].
  intros [w0 c] I. cbn [fst] in I. destruct (getPParent w0 c) as [pa| |]; try done. cbn [obind].
  assert (∀ w2, (if pa =? p then updp w0 c (fun pr => pr <| pparent := g |>) else Done w0) = Done w2 → wfs w2 = wfs w) as Hw.
  { intros w2. case_match; [|by injection 1 as <-]. intros E. by rewrite (updp_wfs _ _ _ _ E). }
  destruct (if pa =? p then _ else _) as [w2| |]; try done. cbn [obind]. specialize (Hw w2 eq_refl).
  destruct (getPNext w2 c) as [n| |]; try done. cbn [obind]. by destruct (_ && _).
Qed.

Lemma remove_process_wfs w p w' : remove_process fuel w p = Done w' → wfs w' = wfs w.
Proof.
  unfold remove_process, setPNext. case_match; [by injection 1 as <-|]. destruct (getPNext w p) as [n| |]; try done. cbn [obind].
  case_match.
  - intros E. rewrite (updp_wfs _ _ _ _ E). by case_match.
  - destruct (find_previous fuel w p) as [pv| |]; try done. cbn [obind]. case_match; [by injection 1 as <-|].
    destruct (updp w pv _) as [w1| |] eqn:E1; try done. cbn [obind]. intros E. rewrite (updp_wfs _ _ _ _ E).
    rewrite <- (updp_wfs _ _ _ _ E1). clear. repeat case_match; done.
Qed.

(** Destroying a process that is in no directory of the file tree never
    comes back: [~File] writes through the null parent.  [new Process] puts a
    process in no directory and nothing in the kernel adds it to one. *)
Theorem destroy_process_stuck w p f w' :
  getf (tree (wfs w)) p = Done f → p ≠ 0 → p ≠ idle_process w → fprec f = 0 → fparent f = 0 →
  files (tree (wfs w)) !! 0 = None → destroy_process fuel w p ≠ Done w'.
Proof.
  intros Ef Hp Hidle Hprec Hpar H0. unfold destroy_process.
  rewrite (proj2 (Z.eqb_neq p 0)), (proj2 (Z.eqb_neq p (idle_process w))) by done. cbn [orb].
  destruct (remove_process fuel _ p) as [w1| |] eqn:E1; try done. cbn [obind]. apply remove_process_wfs in E1.
  unfold delete_process. rewrite (proj2 (Z.eqb_neq p 0)) by done.
  set (w2 := enable_interrupt w1). assert (wfs w2 = wfs w) as E2 by exact E1. clearbody w2. clear E1 w1.
  destruct (getp w2 p) as [pr| |]; try done. cbn [obind].
  destruct (if negb (ipd (info pr) =? 0) then _ else _) as [w3| |] eqn:E3; try done. cbn [obind].
  assert (wfs w3 = wfs w) as F3.
  { rewrite <- E2. destruct (negb _) in E3; [|by injection E3 as <-].
    destruct (cleanup_process_cow _ _ _) as [m| |]; try done. cbn [obind] in E3.
    destruct (destroy_page_directory _ _ _) as [m'| |]; try done. by injection E3 as <-. }
  destruct (if negb (bmap (ipc pr) =? 0) then _ else _) as [w4| |] eqn:E4; try done. cbn [obind].
  assert (wfs w4 = wfs w) as F4.
  { rewrite <- F3. destruct (negb _) in E4; [|by injection E4 as <-].
    destruct (mm_free _ _) as [m| |]; try done. by injection E4 as <-. }
  destruct (change_process_father fuel w4 p (pparent pr)) as [w5| |] eqn:E5; try done. cbn [obind].
  apply change_process_father_wfs in E5. rewrite E5, F4.
  destruct fuel as [|fl]; [done|]. by rewrite (delete_orphan fl (tree (wfs w)) p f).
Qed.

End Spec.

(** ** A run queue *)

(** Booleans for the rings of concrete states. *)
Section Decide.
Context {K : Type} `{KAlloc K}.

Fixpoint links_okb (w : world K) (h : Z) (l : list Z) : bool :=
  match l with
  | [] => true
  | p :: l =>
    negb (p =? 0) && match getp w p with Done pr => pnext pr =? hd h l | _ => false end && links_okb w h l
  end.

Lemma ring_ok w ps :
  (plist w =? hd 0 ps) && (firstProc w =? List.last ps 0) && bool_decide (NoDup ps) && links_okb w (hd 0 ps) ps = true →
  ring w ps.
Proof.
  intros E. repeat (apply andb_prop in E as [E ?]). split; [by apply Z.eqb_eq|by apply Z.eqb_eq|by eapply bool_decide_eq_true_1|].
  intros a p b Eps. set (h := hd 0 ps) in *. clearbody h. subst ps.
  match goal with L : links_okb _ _ _ = true |- _ => revert L end. clear. induction a as [|x a IH]; cbn; intros L.
  - apply andb_prop in L as [L _]. apply andb_prop in L as [L1 L2]. split; [by apply negb_true_iff, Z.eqb_neq in L1|].
    destruct (getp w p) as [pr| |]; [|done|done]. exists pr. split; [done|]. by apply Z.eqb_eq.
  - apply andb_prop in L as [_ L]. by apply IH.
Qed.

Lemma ready_ok (w : world K) ps :
  forallb (fun p => (p =? pcurrent w) || match getState w p with Done st => st =? READY | _ => false end) ps = true →
  ∀ p, p ∈ ps → p ≠ pcurrent w → getState w p = Done READY.
Proof.
  intros E p Hp Hne. rewrite forallb_forall in E. specialize (E p). rewrite <- list_elem_of_In in E. specialize (E Hp).
  rewrite (proj2 (Z.eqb_neq p (pcurrent w))) in E by done. cbn [orb] in E.
  destruct (getState w p) as [st| |]; [|done|done]. by apply Z.eqb_eq in E as ->.
Qed.

End Decide.

(** Three processes made at boot and put into the queue, the idle process
    coming in behind the first. *)
Definition raw (_ : Z) : process_st := zero_info.
Definition boot_world : world bump :=
  arch_init (mk_world bare_mm boot_fs ∅ 1 0 0 0 0 0 0 0 false true (mk_pit 0 100) 0).
Definition add_new (w : world bump) (n : list Z) : outcome (world bump) :=
  let '(p, w) := new_process raw w n in addProcess raw 0xC0001000 w p.
Definition queue_run : outcome (world bump) :=
  let* w := add_new boot_world [97] in
  let* w := add_new w [98] in
  add_new w [99].
Definition queue_world : world bump := match queue_run with Done w => w | _ => boot_world end.
Definition queue : list Z := [4105; 4106; 4107; 4108].

Lemma queue_ring : ring queue_world queue.
Proof. apply ring_ok. vm_compute. reflexivity. Qed.

Lemma queue_fair : fair queue 2 queue_world 0 0.
Proof.
  split; [apply queue_ring|cbn; lia|vm_compute; reflexivity|vm_compute; reflexivity|apply ready_ok; vm_compute; reflexivity
         |vm_compute; reflexivity|vm_compute; reflexivity|vm_compute; reflexivity].
Qed.

Definition queue_proc (p : Z) : process :=
  match getp queue_world p with Done pr => pr | _ => mk_process 0 0 0 0 [] zero_info 0 new_buffer 0 0 0 end.

Lemma schedule_spec_witness :
  ∃ w', schedule queue_world 4105 = Done (4106, w') ∧ getState w' 4105 = Done READY ∧ getState w' 4106 = Done RUNNING.
Proof.
  assert (getp queue_world 4105 = Done (queue_proc 4105)) as E by (vm_compute; reflexivity).
  assert (List.find (runnable queue_world) ([4106; 4107; 4108] ++ []) = Some 4106) as Ef by (vm_compute; reflexivity).
  destruct (schedule_spec queue_world [] 4105 [4106; 4107; 4108] (queue_proc 4105) queue_ring) as (w' & Hw');
    [cbn; lia|exact E|].
  rewrite Ef in Hw'. change (default 4105 (Some 4106)) with 4106 in Hw'. change (4106 =? 4105) with false in Hw'.
  destruct Hw' as (Es & _ & _ & _ & Et & pn & _ & En). exists w'. split; [exact Es|]. unfold getState. rewrite Et, En.
  split; [vm_compute; reflexivity|reflexivity].
Defined.

Definition zero_frame : frame := mk_frame 0 0 0 0 0 0 0 0 0 0 0 0 0 0 0 0 0.

Lemma every_process_runs_witness :
  ∃ k w', (k < 4)%nat ∧ timer_run queue_world (replicate (k * 2) zero_frame) = Done w' ∧ pcurrent w' = 4108 ∧
    getState w' 4108 = Done RUNNING.
Proof.
  destruct (every_process_runs queue 2 queue_world 0 4108 queue_fair) as (k & Hk & Hrun); [lia|unfold queue; set_solver|].
  destruct (Hrun (replicate (k * 2) zero_frame)) as (w' & E & C & S & _); [by rewrite length_replicate|].
  exists k, w'. split; [exact Hk|]. split; [exact E|]. split; [exact C|exact S].
Defined.

Lemma context_roundtrip_witness :
  ∃ w1, save_process_context queue_world 4107 (zero_frame <| f_eax := 7 |> <| f_eip := 0xC0100000 |>) = Done w1 ∧
    ∃ w2, load_process_context w1 4107 zero_frame =
      Done (w2, mk_frame 0x10 0x10 0x10 0x10 0 0 0 0 0 0 0 7 0xC0100000 0x08 0x202 0 0x10).
Proof.
  assert (getp queue_world 4107 = Done (queue_proc 4107)) as E by (vm_compute; reflexivity).
  destruct (context_roundtrip queue_world 4107 (zero_frame <| f_eax := 7 |> <| f_eip := 0xC0100000 |>) zero_frame (queue_proc 4107) E)
    as (w1 & E1 & _ & _ & w2 & E2 & _); [lia|].
  exists w1. split; [exact E1|]. exists w2. exact E2.
Defined.

Lemma remove_process_ring_witness :
  ∃ w', remove_process 20 queue_world 4105 = Done w' ∧ ring w' [4106; 4107; 4108] ∧ pcurrent w' = 4106.
Proof.
  assert (getp queue_world 4105 = Done (queue_proc 4105)) as E by (vm_compute; reflexivity).
  destruct (remove_process_ring 20 queue_world [] 4105 [4106; 4107; 4108] (queue_proc 4105) queue_ring) as (w' & E1 & R & C & _);
    [cbn; lia|exact E|].
  exists w'. split; [exact E1|]. split; [exact R|]. rewrite C. vm_compute. reflexivity.
Defined.

Definition exited : world bump := match exit queue_world 4105 with Done w => w | _ => queue_world end.

Lemma exited_eq : exit queue_world 4105 = Done exited.
Proof. apply is_done_eq. vm_compute. reflexivity. Qed.

Lemma exit_not_final_witness :
  ∃ w2, schedule exited 4105 = Done (4106, w2) ∧ getState w2 4105 = Done READY.
Proof.
  destruct (exit_not_final queue_world [] 4105 [4106; 4107; 4108] 4106 exited queue_ring) as (w2 & E & S & _);
    [cbn; lia|vm_compute; reflexivity|exact exited_eq|].
  exists w2. split; [exact E|exact S].
Defined.

(** A father that waits is the running process, and [RUNNING] is [ZOMBIE]: the
    first loop of [destroy_all_zombie] takes the father out of the queue, and
    stops at the new head, with the dead child still in the queue. *)
Definition reaping : outcome (world bump * Z) :=
  let* w := setPParent queue_world 4107 4105 in
  let* w := exit w 4107 in
  collect_zombies 20 w.
Definition reaped : world bump * Z := match reaping with Done r => r | _ => (queue_world, 0) end.

Example wait_reaps_caller :
  reaping = Done reaped ∧ snd reaped = 4105 ∧ getPNext (fst reaped) 4105 = Done 0 ∧
  ring (fst reaped) [4106; 4107; 4108] ∧ pcurrent (fst reaped) = 4106.
Proof.
  split; [apply is_done_eq; vm_compute; reflexivity|]. do 2 (split; [vm_compute; reflexivity|]).
  split; [apply ring_ok; vm_compute; reflexivity|vm_compute; reflexivity].
Qed.

Lemma destroy_process_stuck_witness : match destroy_process 20 queue_world 4107 with Done _ => False | _ => True end.
Proof.
  assert (∃ f, getf (tree (wfs queue_world)) 4107 = Done f ∧ fprec f = 0 ∧ fparent f = 0) as (f & E & E1 & E2).
  { eexists. split; [vm_compute; reflexivity|]. split; reflexivity. }
  destruct (destroy_process 20 queue_world 4107) as [w'| |] eqn:Ed; [|exact I|exact I]. revert Ed.
  apply (destroy_process_stuck 20 queue_world 4107 f w'); [exact E|lia|vm_compute; congruence|exact E1|exact E2|vm_compute; reflexivity].
Defined.
