(* ===== verification/SchedSpec.v ===== *)
(** The scheduler refines an abstract one.  The abstract scheduler has the run
    queue as a list, the running process, the states of the processes and the
    ticks of the quantum; its operations are one line each.  Any history of
    timer interrupts, processes added and removed, exits and changes of state
    runs to its end on the kernel's ring of processes, and ends in a state the
    abstract scheduler ends in. *)

From Stdlib Require Import ZArith Lia.
From stdpp Require Import base list gmap option sets.
From coqutil Require Import Datatypes.RecordSetters.
From S2P Require Import Prelude Memory KAlloc Bump Mm Vmm Swap Paging VmmSpec Cow FileTree FileTreeSpec Filesystem FilesystemSpec Pit Process Arch ArchSpec.
Import TriangleBracketNotations.

(** ** The abstract scheduler *)

Record rq := mk_rq {
  q_list : list Z;
  q_cur : Z;
  q_state : gmap Z Z;
  q_ticks : Z;
  q_quantum : Z;
  q_on : bool;
}.

(** What a process of state [s] is to the scheduler: [ZOMBIE] is the number of
    [RUNNING], so neither is a candidate. *)
Definition can_run (st : gmap Z Z) (p : Z) : bool :=
  match st !! p with Some s => negb ((s =? ZOMBIE) || (s =? SLEEPING)) | None => false end.

(** The list from behind [p] on, and up to [p]. *)
Fixpoint after (p : Z) (l : list Z) : list Z :=
  match l with [] => [] | x :: l => if x =? p then l else after p l end.
Fixpoint before (p : Z) (l : list Z) : list Z :=
  match l with [] => [] | x :: l => if x =? p then [] else x :: before p l end.
Definition round (p : Z) (l : list Z) : list Z := after p l ++ before p l.

Definition is_running (st : gmap Z Z) (p : Z) : bool :=
  match st !! p with Some s => s =? RUNNING | None => false end.

(** The process that loses the processor. *)
Definition yields (st : gmap Z Z) (p : Z) : gmap Z Z :=
  if is_running st p then <[p := READY]> st else st.

Definition q_switch (a : rq) : rq :=
  match List.find (can_run (q_state a)) (round (q_cur a) (q_list a)) with
  | Some n => mk_rq (q_list a) n (<[n := RUNNING]> (yields (q_state a) (q_cur a))) (q_ticks a) (q_quantum a) (q_on a)
  | None => a
  end.

Definition q_set_ticks (a : rq) (n : Z) : rq :=
  mk_rq (q_list a) (q_cur a) (q_state a) n (q_quantum a) (q_on a).
Definition q_set_state (a : rq) (p s : Z) : rq :=
  mk_rq (q_list a) (q_cur a) (<[p := s]> (q_state a)) (q_ticks a) (q_quantum a) (q_on a).

Definition q_tick (a : rq) : rq :=
  if negb (q_on a) || (q_cur a =? 0) then a
  else
    let t := u32 (q_ticks a + 1) in
    if is_running (q_state a) (q_cur a) && (t <? q_quantum a) then q_set_ticks a t
    else q_switch (q_set_ticks a 0).

(** A process joins the end of the queue; in an empty queue it runs. *)
Definition q_add (a : rq) (p : Z) : rq :=
  match q_list a with
  | [] => mk_rq [p] p (<[p := RUNNING]> (q_state a)) 0 (q_quantum a) true
  | l => mk_rq (l ++ [p]) (q_cur a) (<[p := READY]> (q_state a)) (q_ticks a) (q_quantum a) (q_on a)
  end.

(** A process leaves; the next one round the queue runs if it ran. *)
Definition q_remove (a : rq) (p : Z) : rq :=
  mk_rq (before p (q_list a) ++ after p (q_list a))
    (if q_cur a =? p then hd 0 (round p (q_list a)) else q_cur a)
    (q_state a) (q_ticks a) (q_quantum a) (q_on a).

Inductive sched_op :=
| Tick (f : frame)
| Add (p : Z)
| Remove (p : Z)
| Exit (p : Z)
| SetState (p s : Z).

Definition q_op (a : rq) (o : sched_op) : rq :=
  match o with
  | Tick _ => q_tick a
  | Add p => q_add a p
  | Remove p => q_remove a p
  | Exit p => q_set_state a p ZOMBIE
  | SetState p s => q_set_state a p s
  end.

(** What may happen next: processes exist, join once, and are at most the 100
    the search of [schedule] goes through. *)
Definition q_allowed (a : rq) (o : sched_op) : Prop :=
  match o with
  | Tick _ => True
  | Add p => p ≠ 0 ∧ p ∉ q_list a ∧ is_Some (q_state a !! p) ∧ (length (q_list a) < 100)%nat
  | Remove p => p ∈ q_list a
  | Exit p | SetState p _ => is_Some (q_state a !! p)
  end.

Fixpoint q_history (a : rq) (os : list sched_op) : Prop :=
  match os with [] => True | o :: os => q_allowed a o ∧ q_history (q_op a o) os end.

#[export] Instance q_allowed_dec a o : Decision (q_allowed a o).
Proof. destruct o; cbn; apply _. Defined.
#[export] Instance q_history_dec a os : Decision (q_history a os).
Proof. revert a. induction os as [|o os IH]; intros a; cbn; apply _. Defined.

Lemma after_at a p b : p ∉ a → after p (a ++ p :: b) = b.
Proof.
  induction a as [|x a IH]; intros Hp; cbn; [by rewrite Z.eqb_refl|].
  rewrite (proj2 (Z.eqb_neq x p)) by set_solver. apply IH. set_solver.
Qed.

Lemma before_at a p b : p ∉ a → before p (a ++ p :: b) = a.
Proof.
  induction a as [|x a IH]; intros Hp; cbn; [by rewrite Z.eqb_refl|].
  rewrite (proj2 (Z.eqb_neq x p)) by set_solver. f_equal. apply IH. set_solver.
Qed.

Section Sched.
Context {K : Type} {ka : KAlloc K} {sc : SlabCaches K}.
Implicit Types (w : world K).
Variable fuel : nat.
Variable raw_info : Z → process_st.
Variable idle_thread : Z.

(** ** The refinement relation *)

(** Fathers exist: [exit] sends them a signal. *)
Definition fathers_known (m : gmap Z Z) : Prop := ∀ p f, m !! p = Some f → f = 0 ∨ is_Some (m !! f).

Record refines w (a : rq) : Prop := {
  rf_ring : ring w (q_list a);
  rf_length : (length (q_list a) <= 100)%nat;
  rf_cur : pcurrent w = q_cur a;
  rf_in : q_cur a = 0 ∧ q_list a = [] ∨ q_cur a ∈ q_list a;
  rf_state : state <$> procs w = q_state a;
  rf_fathers : fathers_known (pparent <$> procs w);
  rf_ticks : ticks_since_switch w = q_ticks a;
  rf_quantum : ticks_per_quantum w = q_quantum a;
  rf_on : scheduler_ready w = q_on a;
  rf_idle : idle_process w ≠ 0;
}.

(** The kernel's operation. *)
Definition run_sched w (o : sched_op) : outcome (world K) :=
  match o with
  | Tick f => let* (w, _) := isr_timer_int w f in Done w
  | Add p => addProcess raw_info idle_thread w p
  | Remove p => remove_process fuel w p
  | Exit p => exit w p
  | SetState p s => setState w p s
  end.

Fixpoint run_history w (os : list sched_op) : outcome (world K) :=
  match os with [] => Done w | o :: os => let* w := run_sched w o in run_history w os end.

Lemma state_getp w st p : state <$> procs w = st → st !! p = match getp w p with Done pr => Some (state pr) | _ => None end.
Proof. intros <-. unfold getp. rewrite lookup_fmap. by destruct (procs w !! p). Qed.

Lemma known_getp w a p : refines w a → is_Some (q_state a !! p) → ∃ pr, getp w p = Done pr ∧ q_state a !! p = Some (state pr).
Proof.
  intros R [s Hs]. pose proof (state_getp w _ p (rf_state _ _ R)) as E. rewrite Hs in E |- *.
  destruct (getp w p) as [pr| |]; [|done..]. exists pr. by split.
Qed.

Lemma runnable_can_run w a p : refines w a → runnable w p = can_run (q_state a) p.
Proof.
  intros R. unfold runnable, can_run. rewrite (state_getp w _ p (rf_state _ _ R)). by destruct (getp w p).
Qed.

(** What the relation does not look at. *)
Lemma refines_view w w' a :
  sched_view w' = sched_view w → idle_process w' = idle_process w → refines w a → refines w' a.
Proof.
  unfold sched_view. intros E Ei [Hr Hl Hc Hin Hst Hf Ht Hq Hon Hid]. injection E as E1 E2 E3 E4 E5 E6 E7.
  split; rewrite ?E3, ?E4, ?E5, ?E6, ?E7, ?Ei; try done.
  revert Hr. apply ring_frame; [done|done|]. intros p pr _ Ep. exists pr. unfold getp in *. by rewrite E3.
Qed.

(** A change of one process that keeps its links. *)
Lemma refines_updp w a p g pr :
  refines w a → getp w p = Done pr → (∀ x, pnext (g x) = pnext x ∧ pparent (g x) = pparent x) →
  ∃ w', updp w p g = Done w' ∧ refines w' (q_set_state a p (state (g pr))) ∧ getp w' p = Done (g pr) ∧
    same_kernel w w' ∧ (∀ q, q ≠ p → getp w' q = getp w q).
Proof.
  intros [Hr Hl Hc Hin Hst Hf Ht Hq Hon Hid] E Hg.
  destruct (ring_updp w (q_list a) p g pr E) as (w' & Eu & R & E' & O & S); [intros x; by destruct (Hg x)|exact Hr|].
  exists w'. split; [done|]. split; [|done].
  assert (procs w' = <[p := g pr]> (procs w)) as Ep.
  { unfold updp in Eu. rewrite E in Eu. injection Eu as <-. by destruct w. }
  assert (procs w !! p = Some pr) as El by (unfold getp in E; by destruct (procs w !! p); simplify_eq/=).
  assert (pcurrent w' = pcurrent w ∧ ticks_since_switch w' = ticks_since_switch w ∧ ticks_per_quantum w' = ticks_per_quantum w
    ∧ scheduler_ready w' = scheduler_ready w ∧ idle_process w' = idle_process w) as (E1 & E2 & E3 & E4 & E5) by (by rewrite S).
  split; cbn [q_list q_cur q_state q_ticks q_quantum q_on q_set_state]; rewrite ?E1, ?E2, ?E3, ?E4, ?E5; try done.
  - by rewrite Ep, fmap_insert, Hst.
  - rewrite Ep, fmap_insert, insert_id; [done|]. rewrite lookup_fmap, El. cbn. by destruct (Hg pr) as [_ ->].
Qed.

Lemma set_same_state a p s : q_state a !! p = Some s → q_set_state a p s = a.
Proof. intros E. unfold q_set_state. rewrite insert_id by done. by destruct a. Qed.

(** ... and its state. *)
Lemma refines_updp_same w a p g pr :
  refines w a → getp w p = Done pr →
  (∀ x, pnext (g x) = pnext x ∧ pparent (g x) = pparent x ∧ state (g x) = state x) →
  ∃ w', updp w p g = Done w' ∧ refines w' a.
Proof.
  intros R E Hg. destruct (refines_updp w a p g pr R E) as (w' & Eu & R' & _); [intros x; by destruct (Hg x) as (? & ? & ?)|].
  exists w'. split; [done|]. rewrite set_same_state in R'; [done|].
  rewrite (state_getp w _ p (rf_state _ _ R)), E. f_equal. by destruct (Hg pr) as (_ & _ & ->).
Qed.
(** A change of the processes, the heads of the queue and the current process. *)
Lemma refines_change w w' a l st :
  refines w a →
  w' = w <| procs := procs w' |> <| plist := plist w' |> <| firstProc := firstProc w' |> <| pcurrent := pcurrent w' |> →
  ring w' l → (length l <= 100)%nat → (pcurrent w' = 0 ∧ l = [] ∨ pcurrent w' ∈ l) →
  state <$> procs w' = st → pparent <$> procs w' = pparent <$> procs w →
  refines w' (mk_rq l (pcurrent w') st (q_ticks a) (q_quantum a) (q_on a)).
Proof.
  intros [Hr Hl Hc Hin Hst Hf Ht Hq Hon Hid] E R L I S P.
  assert (ticks_since_switch w' = ticks_since_switch w ∧ ticks_per_quantum w' = ticks_per_quantum w
    ∧ scheduler_ready w' = scheduler_ready w ∧ idle_process w' = idle_process w) as (E2 & E3 & E4 & E5)
    by (rewrite E; done).
  split; cbn [q_list q_cur q_state q_ticks q_quantum q_on]; rewrite ?E2, ?E3, ?E4, ?E5; try done.
  by rewrite P.
Qed.

Lemma refines_relinked w w' a l :
  refines w a → relinked w w' → ring w' l → (length l <= 100)%nat → (pcurrent w' = 0 ∧ l = [] ∨ pcurrent w' ∈ l) →
  refines w' (mk_rq l (pcurrent w') (q_state a) (q_ticks a) (q_quantum a) (q_on a)).
Proof.
  intros R Hrl Hr L I. apply (refines_change w w' a l _ R (proj1 Hrl) Hr L I); [|by apply relinked_parent].
  rewrite (relinked_state _ _ Hrl). apply (rf_state _ _ R).
Qed.

Lemma refines_position w a p :
  refines w a → p ∈ q_list a →
  ∃ l1 l2, q_list a = l1 ++ p :: l2 ∧ before p (q_list a) = l1 ∧ after p (q_list a) = l2 ∧ p ≠ 0 ∧
    ∃ pr, getp w p = Done pr.
Proof.
  intros R Hp. destruct (ring_in w _ p (rf_ring _ _ R) Hp) as (Hp0 & pr & Epr & _).
  pose proof (ring_nodup _ _ (rf_ring _ _ R)) as Hnd. apply list_elem_of_split in Hp as (l1 & l2 & E).
  rewrite E in Hnd |- *. apply NoDup_app in Hnd as (_ & Hd & _).
  assert (p ∉ l1) by (intros Hp; apply (Hd p Hp); set_solver).
  exists l1, l2. split; [done|]. split; [by apply before_at|]. split; [by apply after_at|]. eauto.
Qed.

Lemma refines_ticks w a n : refines w a → refines (w <| ticks_since_switch := n |>) (q_set_ticks a n).
Proof.
  intros [Hr Hl Hc Hin Hst Hf Ht Hq Hon Hid]. split; try done.
  revert Hr. apply ring_frame; [done|done|]. intros p pr _ Ep. by exists pr.
Qed.

(** ** One operation *)

(** The states after [schedule] took [n] in the place of [this]. *)
Lemma switched_states w w' st this n me pn now :
  state <$> procs w = st → this ≠ n → getp w this = Done me →
  (∀ q, q ≠ this → q ≠ n → getp w' q = getp w q) →
  getp w' this = Done (preempted now me) → getp w' n = Done (dispatched now pn) →
  state <$> procs w' = <[n := RUNNING]> (yields st this).
Proof.
  intros Hst Hne Eme O E1 E2. apply map_eq. intros q. rewrite (state_getp w' _ q eq_refl), lookup_insert.
  pose proof (state_getp w st this Hst) as Ht. rewrite Eme in Ht. unfold yields.
  case_decide as Hqn; [subst q; by rewrite E2|].
  destruct (decide (q = this)) as [->|Hqt].
  - rewrite E1. unfold preempted, is_running. rewrite Ht. destruct (state me =? RUNNING); [|by rewrite Ht].
    by rewrite lookup_insert_eq.
  - rewrite O by done. rewrite <- (state_getp w st q Hst). case_match; [|done]. by rewrite lookup_insert_ne.
Qed.

Lemma parent_getp w p : (pparent <$> procs w) !! p = match getp w p with Done pr => Some (pparent pr) | _ => None end.
Proof. unfold getp. rewrite lookup_fmap. by destruct (procs w !! p). Qed.

Lemma switched_parents w w' this n me pn now :
  this ≠ n → getp w this = Done me → getp w n = Done pn →
  (∀ q, q ≠ this → q ≠ n → getp w' q = getp w q) →
  getp w' this = Done (preempted now me) → getp w' n = Done (dispatched now pn) →
  pparent <$> procs w' = pparent <$> procs w.
Proof.
  intros Hne Eme Epn O E1 E2. apply map_eq. intros q. rewrite !parent_getp.
  destruct (decide (q = n)) as [->|]; [by rewrite E2, Epn|].
  destruct (decide (q = this)) as [->|]; [|by rewrite O]. rewrite E1, Eme. unfold preempted. by case_match.
Qed.

Lemma refines_switch w a :
  refines w a → q_cur a ∈ q_list a →
  ∃ n w', schedule w (q_cur a) = Done (n, w') ∧ n ≠ 0 ∧ refines (w' <| pcurrent := n |>) (q_switch a).
Proof.
  intros R Hin. destruct (refines_position w a _ R Hin) as (l1 & l2 & El & Eb & Ea & Hc0 & me & Eme).
  pose proof (rf_ring _ _ R) as Hr. pose proof (rf_length _ _ R) as Hlen. unfold q_switch, round. rewrite Ea, Eb, El in *.
  assert (List.find (runnable w) (l2 ++ l1) = List.find (can_run (q_state a)) (l2 ++ l1)) as Ef.
  { apply find_ext. intros x _. by apply runnable_can_run. }
  destruct (List.find (can_run (q_state a)) (l2 ++ l1)) as [n|] eqn:E.
  - destruct (schedule_takes w l1 _ l2 me n Hr Hlen Eme Ef) as (w' & pn & Es & R' & S & Hne & O & E1 & E2 & E3).
    exists n, w'. split; [done|].
    assert (n ∈ l1 ++ q_cur a :: l2) as Hn by (apply find_some in E as [E%list_elem_of_In _]; set_solver).
    split; [by destruct (ring_in w _ n Hr Hn)|].
    replace (mk_rq _ n _ _ _ _) with (mk_rq (q_list a) (pcurrent (w' <| pcurrent := n |>)) (<[n:=RUNNING]> (yields (q_state a) (q_cur a)))
      (q_ticks a) (q_quantum a) (q_on a)) by (by rewrite El).
    apply (refines_change w); [done|by rewrite S; destruct w|rewrite El; by apply ring_pcurrent|by rewrite El|right; by rewrite El| |].
    + by apply (switched_states w w' _ (q_cur a) n me pn (get_system_ticks w)); [apply (rf_state _ _ R)|..].
    + by apply (switched_parents w w' (q_cur a) n me pn (get_system_ticks w)).
  - exists (q_cur a), w. split; [by apply (schedule_stays w l1 _ l2)|]. split; [done|].
    apply (refines_view w); [|done|done]. unfold sched_view. by rewrite <- (rf_cur _ _ R).
Qed.
(** The first process of an empty queue starts the scheduler. *)
Lemma refines_started w a :
  refines w a →
  refines ((enable_interrupt (w <| ticks_since_switch := 0 |>)) <| scheduler_ready := true |>)
    (mk_rq (q_list a) (q_cur a) (q_state a) 0 (q_quantum a) true).
Proof.
  intros [Hr Hl Hc Hin Hst Hf Ht Hq Hon Hid]. split; try done.
  revert Hr. apply ring_frame; [done|done|]. intros p pr _ Ep. by exists pr.
Qed.

Lemma load_context_refines w a p f pr :
  refines w a → getp w p = Done pr → p ≠ 0 →
  ∃ w' f', load_process_context w p f = Done (w', f') ∧ refines w' a.
Proof.
  intros R E Hp. unfold load_process_context. rewrite (proj2 (Z.eqb_neq p 0)) by done.
  unfold getPInfo. rewrite E. cbn [obind]. eexists _, _. split; [done|]. case_match; [|done].
  by apply (refines_view w).
Qed.

Lemma save_context_refines w a p f pr :
  refines w a → getp w p = Done pr → p ≠ 0 → ∃ w', save_process_context w p f = Done w' ∧ refines w' a.
Proof.
  intros R E Hp. unfold save_process_context. rewrite (proj2 (Z.eqb_neq p 0)) by done.
  unfold getPInfo. rewrite E. cbn [obind]. unfold setInfo.
  edestruct (refines_updp_same w a p) as (w' & Eu & R'); [done|exact E| |by exists w']. by intros x.
Qed.

Lemma tick_refines w a f :
  refines w a → ∃ w' f', isr_timer_int w f = Done (w', f') ∧ refines w' (q_tick a).
Proof.
  intros R. unfold isr_timer_int, handle_timer_interrupt, q_tick.
  set (w1 := (w <| timer_interrupt_count ::= _ |> <| wpit ::= _ |>) <| total_ticks ::= _ |>).
  assert (refines w1 a) as R1 by (by apply (refines_view w)). clearbody w1. clear dependent w.
  rewrite (rf_on _ _ R1), (rf_cur _ _ R1).
  destruct (negb (q_on a) || (q_cur a =? 0)) eqn:Eoff; [by exists w1, f|].
  apply orb_false_iff in Eoff as [_ Hc0%Z.eqb_neq].
  assert (q_cur a ∈ q_list a) as Hin by (by destruct (rf_in _ _ R1) as [[? _]|]).
  destruct (ring_in w1 _ _ (rf_ring _ _ R1) Hin) as (_ & pr & Epr & _).
  destruct (save_context_refines w1 a _ f pr R1 Epr Hc0) as (w2 & -> & R2). cbn [obind].
  pose proof (refines_ticks w2 a (u32 (q_ticks a + 1)) R2) as R3. rewrite <- (rf_ticks _ _ R2) in R3 at 1.
  change (w2 <| ticks_since_switch := u32 (ticks_since_switch w2 + 1) |>)
    with (w2 <| ticks_since_switch ::= fun n => u32 (n + 1) |>) in R3.
  set (w3 := w2 <| ticks_since_switch ::= _ |>) in *. clearbody w3. clear dependent w1 w2.
  rewrite (rf_cur _ _ R3), (rf_ticks _ _ R3), (rf_quantum _ _ R3). cbn [q_set_ticks q_cur q_ticks q_quantum].
  destruct (ring_in w3 _ _ (rf_ring _ _ R3) Hin) as (_ & pr3 & Epr3 & _). cbn [q_set_ticks q_list] in *.
  unfold getState. rewrite Epr3. cbn [obind].
  pose proof (state_getp w3 _ (q_cur a) (rf_state _ _ R3)) as Est. rewrite Epr3 in Est. cbn [q_set_ticks q_state] in Est.
  assert (is_running (q_state a) (q_cur a) = (state pr3 =? RUNNING)) as -> by (unfold is_running; by rewrite Est).
  rewrite negb_orb, negb_involutive, <- Z.ltb_antisym.
  destruct ((state pr3 =? RUNNING) && (u32 (q_ticks a + 1) <? q_quantum a)); [by exists w3, f|].
  pose proof (refines_ticks w3 _ 0 R3) as R4.
  change (q_set_ticks (q_set_ticks a _) 0) with (q_set_ticks a 0) in R4.
  set (w4 := w3 <| ticks_since_switch := 0 |>) in *. clearbody w4. clear dependent w3.
  rewrite (rf_cur _ _ R4).
  destruct (refines_switch w4 _ R4 Hin) as (n & w5 & -> & Hn0 & R5). cbn [obind].
  rewrite (proj2 (Z.eqb_neq n 0)) by done.
  assert (n ∈ q_list (q_switch (q_set_ticks a 0))) as Hn.
  { pose proof (rf_cur _ _ R5) as Ec. change (n = q_cur (q_switch (q_set_ticks a 0))) in Ec.
    destruct (rf_in _ _ R5) as [[? _]|]; congruence. }
  destruct (ring_in _ _ _ (rf_ring _ _ R5) Hn) as (_ & prn & Epn & _).
  by apply (load_context_refines _ _ _ f prn R5 Epn).
Qed.

Lemma queue_empty w a : refines w a → (plist w =? 0) = bool_decide (q_list a = []).
Proof.
  intros R. rewrite (ring_head _ _ (rf_ring _ _ R)). destruct (q_list a) as [|h l] eqn:E; [done|].
  destruct (ring_in w (h :: l) h) as (Hh & _); [rewrite <- E; apply (rf_ring _ _ R)|set_solver|].
  cbn [hd]. rewrite (proj2 (Z.eqb_neq h 0)) by done. by rewrite bool_decide_eq_false_2.
Qed.

(** Linking, and the new process made current if there is none. *)
Lemma link_refines w a p cur :
  refines w a → q_allowed a (Add p) → (cur = p ∨ cur = q_cur a ∧ q_list a ≠ []) →
  ∃ w', link_process w p = Done w' ∧ pcurrent w' = q_cur a ∧
    refines (w' <| pcurrent := cur |>) (mk_rq (q_list a ++ [p]) cur (q_state a) (q_ticks a) (q_quantum a) (q_on a)).
Proof.
  intros R (Hp0 & Hp & Hk & Hl) Hcur. destruct (known_getp w a p R Hk) as (pr & Epr & _).
  destruct (link_process_ring w _ p pr (rf_ring _ _ R) Hp Hp0 Epr) as (w' & -> & R' & _ & Ec & Hrl).
  exists w'. split; [done|]. split; [by rewrite Ec, (rf_cur _ _ R)|].
  match goal with |- refines ?x _ => set (w2 := x) end.
  assert (pcurrent w2 = cur) as Ec2 by done. rewrite <- Ec2.
  apply (refines_relinked w w2 a (q_list a ++ [p]) R); [|by apply ring_pcurrent|rewrite length_app; cbn; lia|].
  - transitivity w'; [done|]. apply relinked_heads. by destruct w'.
  - right. rewrite Ec2. destruct Hcur as [->|[-> ?]]; [set_solver|].
    destruct (rf_in _ _ R) as [[_ ?]|]; [done|set_solver].
Qed.

Lemma add_refines w a p :
  refines w a → q_allowed a (Add p) → ∃ w', addProcess raw_info idle_thread w p = Done w' ∧ refines w' (q_add a p).
Proof.
  intros R Hal. pose proof Hal as (Hp0 & Hp & _). unfold addProcess. rewrite (proj2 (Z.eqb_neq p 0)) by done.
  set (w0 := disable_interrupt w). assert (refines w0 a) as R0 by (by apply (refines_view w)).
  rewrite (queue_empty w0 a R0). unfold enqueue_process. rewrite (proj2 (Z.eqb_neq p 0)) by done.
  clearbody w0. clear dependent w. unfold q_add. destruct (q_list a) as [|h l] eqn:El.
  - destruct (link_refines w0 a p p R0 Hal) as (w1 & -> & Ec & R1); [by left|]. rewrite El in R1.
    assert (q_cur a = 0) as Ec0 by (destruct (rf_in _ _ R0) as [[? _]|Hin]; [done|rewrite El in Hin; by apply not_elem_of_nil in Hin]).
    rewrite bool_decide_eq_true_2 by done. cbn [obind orb]. rewrite Ec, Ec0. cbn [Z.eqb negb andb obind].
    destruct (known_getp _ _ p R1) as (pr & Epr & _); [by destruct Hal as (_ & _ & ? & _)|].
    match goal with |- context [updp ?t p ?g] =>
      destruct (refines_updp t _ p g pr R1 Epr) as (w2 & -> & R2 & _); [by intros x|] end.
    cbn [obind]. pose proof (refines_started _ _ R2) as R3. rewrite (proj2 (Z.eqb_neq _ 0)) by apply (rf_idle _ _ R3).
    eexists. split; [done|]. exact R3.
  - destruct (link_refines w0 a p (q_cur a) R0 Hal) as (w1 & -> & Ec & R1); [right; by rewrite El|]. rewrite El in R1.
    assert (q_cur a ∈ q_list a) as Hin by (destruct (rf_in _ _ R0) as [[_ E]|]; [by rewrite El in E|done]).
    destruct (ring_in w0 _ _ (rf_ring _ _ R0) Hin) as (Hc0 & _).
    assert (refines w1 (mk_rq ((h :: l) ++ [p]) (q_cur a) (q_state a) (q_ticks a) (q_quantum a) (q_on a))) as R2.
    { revert R1. apply refines_view; [|done]. unfold sched_view. by rewrite <- Ec. }
    rewrite bool_decide_eq_false_2 by done. cbn [obind orb]. rewrite Ec, (proj2 (Z.eqb_neq _ 0)) by done.
    destruct (known_getp _ _ p R2) as (pr & Epr & _); [by destruct Hal as (_ & _ & ? & _)|].
    unfold setState. match goal with |- context [updp ?t p ?g] =>
      destruct (refines_updp t _ p g pr R2 Epr) as (w2 & -> & R3 & _); [by intros x|] end.
    cbn [obind]. pose proof (refines_view w2 (enable_interrupt w2) _ eq_refl eq_refl R3) as R4.
    rewrite (proj2 (Z.eqb_neq _ 0)) by apply (rf_idle _ _ R4). eexists. split; [done|]. exact R4.
Qed.

Lemma remove_refines w a p :
  (100 < fuel)%nat → refines w a → p ∈ q_list a → ∃ w', remove_process fuel w p = Done w' ∧ refines w' (q_remove a p).
Proof.
  intros Hf R Hp. destruct (refines_position w a p R Hp) as (l1 & l2 & El & Eb & Ea & Hp0 & pr & Epr).
  pose proof (rf_ring _ _ R) as Hr. pose proof (rf_length _ _ R) as Hl. rewrite El in Hr.
  destruct (remove_process_ring fuel w l1 p l2 pr Hr) as (w' & E & R' & Ec & _ & Hrl); [rewrite <- El; lia|done|].
  exists w'. split; [done|]. unfold q_remove, round. rewrite Ea, Eb, <- (rf_cur _ _ R), <- Ec.
  apply (refines_relinked w w' a (l1 ++ l2) R Hrl R').
  - rewrite El in Hl. rewrite length_app in *. cbn in Hl. lia.
  - rewrite Ec, (rf_cur _ _ R). destruct (Z.eqb_spec (q_cur a) p) as [_|Hne].
    + destruct l2, l1; cbn [app hd]; [by left|right; set_solver..].
    + right. destruct (rf_in _ _ R) as [[_ E']|Hin]; [rewrite E' in El; by destruct l1|]. rewrite El in Hin. set_solver.
Qed.

Lemma set_state_refines w a p s :
  refines w a → is_Some (q_state a !! p) → ∃ w', setState w p s = Done w' ∧ refines w' (q_set_state a p s).
Proof.
  intros R Hk. destruct (known_getp w a p R Hk) as (pr & Epr & _). unfold setState.
  match goal with |- context [updp ?t p ?g] =>
    destruct (refines_updp t _ p g pr R Epr) as (w' & -> & R' & _); [by intros x|] end.
  by exists w'.
Qed.

Lemma exit_refines w a p :
  refines w a → is_Some (q_state a !! p) → ∃ w', exit w p = Done w' ∧ refines w' (q_set_state a p ZOMBIE).
Proof.
  intros R Hk. unfold exit. destruct (set_state_refines w a p ZOMBIE R Hk) as (w1 & -> & R1). cbn [obind].
  destruct (known_getp w1 _ p R1) as (pr & Epr & _); [cbn; rewrite lookup_insert_eq; by eexists|].
  unfold getPParent. rewrite Epr. cbn [obind]. destruct (Z.eqb_spec (pparent pr) 0) as [|Hf]; cbn [negb]; [by exists w1|].
  destruct (rf_fathers _ _ R1 p (pparent pr)) as [?|Hfk]; [by rewrite parent_getp, Epr|done|].
  assert (∃ f, getp w1 (pparent pr) = Done f) as [f Ef].
  { destruct Hfk as [x Hx]. rewrite parent_getp in Hx. destruct (getp w1 (pparent pr)) as [f| |]; [by exists f|done..]. }
  unfold sendSignal. match goal with |- context [updp ?t ?q ?g] =>
    destruct (refines_updp_same t _ q g f R1 Ef) as (w' & -> & R'); [by intros x|] end.
  by exists w'.
Qed.

Lemma op_refines w a o :
  (100 < fuel)%nat → refines w a → q_allowed a o → ∃ w', run_sched w o = Done w' ∧ refines w' (q_op a o).
Proof.
  intros Hf R Ho. destruct o as [f|p|p|p|p s]; cbn [run_sched q_op].
  - destruct (tick_refines w a f R) as (w' & f' & -> & R'). by exists w'.
  - by apply add_refines.
  - by apply remove_refines.
  - by apply exit_refines.
  - by apply set_state_refines.
Qed.

(** C12. The kernel's scheduler refines the abstract one: from a state of the
    kernel that stands for an abstract state, any allowed history of timer
    interrupts, processes added, removed, exited or put into another state runs
    to its end, and the kernel's state then stands for the abstract state the
    same history leads to.  The ring of processes is the list, the running
    process, the states of all processes and the quantum are those of the
    abstract scheduler. *)
Theorem scheduler_refines w a os :
  (100 < fuel)%nat → refines w a → q_history a os →
  ∃ w', run_history w os = Done w' ∧ refines w' (foldl q_op a os).
Proof.
  intros Hf. revert w a. induction os as [|o os IH]; intros w a R Hh; [by exists w|].
  destruct Hh as [Ho Hh]. destruct (op_refines w a o Hf R Ho) as (w1 & E & R1).
  destruct (IH w1 _ R1 Hh) as (w' & E' & R'). exists w'. cbn. by rewrite E.
Qed.
End Sched.

(** A history of the queue of [ArchSpec.queue_world]: a quantum ends, a process
    exits and is removed, the running one goes to sleep and loses the processor
    at the next tick, and the removed one comes back. *)
Definition queue_rq : rq :=
  mk_rq queue 4105 (state <$> procs queue_world) 0 2 true.

Definition queue_history : list sched_op :=
  [Tick zero_frame; Tick zero_frame; Exit 4107; Remove 4107; SetState 4106 SLEEPING; Tick zero_frame; Add 4107].

Lemma queue_refines : refines queue_world queue_rq.
Proof.
  split; try (vm_compute; reflexivity); [exact queue_ring|cbn; lia|right; unfold queue; set_solver| |].
  - assert (map_Forall (λ _ f, f = 0 ∨ is_Some ((pparent <$> procs queue_world) !! f)) (pparent <$> procs queue_world)) as H
      by (apply (bool_decide_unpack _); vm_compute; exact I).
    intros p f E. exact (H p f E).
  - vm_compute. discriminate.
Qed.

Lemma scheduler_refines_witness :
  ∃ w', run_history 101 raw 0xC0001000 queue_world queue_history = Done w' ∧
    ring w' [4105; 4106; 4108; 4107] ∧ pcurrent w' = 4108 ∧
    (state <$> procs w') !! 4106 = Some SLEEPING ∧ (state <$> procs w') !! 4107 = Some READY.
Proof.
  destruct (scheduler_refines 101 raw 0xC0001000 queue_world queue_rq queue_history) as (w' & E & R);
    [lia|exact queue_refines|apply (bool_decide_unpack _); vm_compute; exact I|].
  exists w'. split; [exact E|]. split; [exact (rf_ring _ _ R)|]. split; [rewrite (rf_cur _ _ R); vm_compute; reflexivity|].
  rewrite (rf_state _ _ R). split; vm_compute; reflexivity.
Defined.
