(* ===== verification/Bytes.v ===== *)
(** Byte buffers as lists: the part of a buffer that [memcpy] reads, the
    buffer after [memcpy] wrote to it, and little-endian fields. *)

From Stdlib Require Import ZArith Lia.
From stdpp Require Import base list.
From S2P Require Import Prelude.

(** [n] bytes from offset [a]. *)
Definition sub (a n : Z) (l : list Z) : list Z := take (Z.to_nat n) (drop (Z.to_nat a) l).

(** The bytes [x] written at offset [a]. *)
Definition splice (a : Z) (x l : list Z) : list Z :=
  take (Z.to_nat a) l ++ x ++ drop (Z.to_nat a + length x) l.

(** Bytes, and lists of bytes. *)
Definition byte (c : Z) : Prop := 0 <= c < 256.
Definition byte_list (l : list Z) : Prop := Forall byte l.

Lemma bytes_sub a n l : byte_list l → byte_list (sub a n l).
Proof. intros. by apply Forall_take, Forall_drop. Qed.
Lemma bytes_splice a x l : byte_list x → byte_list l → byte_list (splice a x l).
Proof. intros. apply Forall_app. split; [by apply Forall_take|]. apply Forall_app. split; [done|by apply Forall_drop]. Qed.

Lemma zlen_sub a n l : 0 <= a → 0 <= n → a + n <= zlen l → zlen (sub a n l) = n.
Proof. unfold zlen, sub. intros. rewrite length_take, length_drop. lia. Qed.

Lemma sub_0 a l : sub a 0 l = [].
Proof. done. Qed.

Lemma sub_all l : sub 0 (zlen l) l = l.
Proof. unfold sub, zlen. rewrite Nat2Z.id. cbn [Z.to_nat]. rewrite drop_0. by apply take_ge. Qed.

Lemma sub_app a n m l : 0 <= a → 0 <= n → 0 <= m → sub a n l ++ sub (a + n) m l = sub a (n + m) l.
Proof.
  intros. unfold sub. rewrite !Z2Nat.inj_add by lia. rewrite <- drop_drop.
  by rewrite <- (take_take_drop (drop (Z.to_nat a) l)).
Qed.

Lemma sub_sub a n b m l : 0 <= a → 0 <= n → 0 <= b → a + n <= m → sub a n (sub b m l) = sub (b + a) n l.
Proof.
  intros. unfold sub. rewrite skipn_firstn_comm, take_take, drop_drop.
  rewrite Nat.min_l by lia. f_equal. f_equal. lia.
Qed.

Lemma sub_split a n l : 0 <= a → 0 <= n → a + n <= zlen l → l = sub 0 a l ++ sub a n l ++ drop (Z.to_nat (a + n)) l.
Proof.
  intros. unfold sub. cbn [Z.to_nat]. rewrite drop_0, Z2Nat.inj_add by lia. rewrite <- drop_drop.
  by rewrite take_drop, take_drop.
Qed.

Lemma zlen_splice a x l : 0 <= a → a + zlen x <= zlen l → zlen (splice a x l) = zlen l.
Proof. unfold zlen, splice. intros. rewrite !length_app, length_take, length_drop. lia. Qed.

Lemma splice_nil a l : splice a [] l = l.
Proof. unfold splice. cbn [app length]. by rewrite Nat.add_0_r, take_drop. Qed.

Lemma sub_two a l : 0 <= a → a + 2 <= zlen l → sub a 2 l = [zget 0 l a; zget 0 l (a + 1)].
Proof.
  unfold zlen, sub, zget. intros Ha Hl. rewrite !decide_True by lia. rewrite Z2Nat.inj_add by lia.
  assert (Z.to_nat a + 2 <= length l)%nat as Hn by lia. change (Z.to_nat 2) with 2%nat. change (Z.to_nat 1) with 1%nat.
  clear Hl. generalize dependent (Z.to_nat a). clear Ha a. intros a. revert a.
  induction l as [|x l IH]; intros a Hn; cbn [length] in Hn; [lia|]. destruct a as [|a].
  - cbn [drop length] in *. by destruct l; [cbn [length] in Hn; lia|].
  - cbn [drop Nat.add nth]. apply IH. lia.
Qed.

Lemma zget_byte l a : byte_list l → byte (zget 0 l a).
Proof.
  intros Hb. unfold zget. destruct (decide (0 <= a)); [|unfold byte; lia].
  destruct (nth_in_or_default (Z.to_nat a) l 0) as [Hin| ->]; [|unfold byte; lia].
  by apply (proj1 (list.Forall_forall _ _) Hb), list_elem_of_In.
Qed.

(** What was written is read back, and the rest is untouched. *)
Lemma sub_splice_same a x l : 0 <= a → a + zlen x <= zlen l → sub a (zlen x) (splice a x l) = x.
Proof.
  unfold zlen. intros. unfold sub, splice. rewrite drop_app_length' by (rewrite length_take; lia).
  by rewrite Nat2Z.id, take_app_length.
Qed.

Lemma splice_lookup_ne a x l i :
  0 <= a → a + zlen x <= zlen l → (Z.of_nat i < a ∨ a + zlen x <= Z.of_nat i) → splice a x l !! i = l !! i.
Proof.
  unfold zlen. intros Ha Hl Hi. unfold splice. destruct (decide (Z.of_nat i < a)).
  - rewrite lookup_app_l by (rewrite length_take; lia). by rewrite lookup_take_lt by lia.
  - rewrite lookup_app_r by (rewrite length_take; lia). rewrite lookup_app_r by (rewrite length_take; lia).
    rewrite lookup_drop, length_take. apply (f_equal (fun k => l !! k)). lia.
Qed.

Lemma splice_app a x y l :
  0 <= a → a + zlen x + zlen y <= zlen l → splice a (x ++ y) l = splice (a + zlen x) y (splice a x l).
Proof.
  unfold zlen. intros Ha Hl. apply list_eq. intros i.
  assert (∀ b z m, splice b z m = take (Z.to_nat b) m ++ z ++ drop (Z.to_nat b + length z) m) as Es by done.
  rewrite (Es (a + _)). rewrite Z2Nat.inj_add, Nat2Z.id by lia. set (n := Z.to_nat a). rewrite !Es. fold n.
  assert (n + length x + length y <= length l)%nat as Hn by lia. clearbody n. clear Es Ha Hl.
  rewrite (take_app_add' (take n l)) by (rewrite length_take; lia). rewrite take_app_length.
  rewrite <- !app_assoc. f_equal. f_equal. f_equal. rewrite app_assoc, length_app.
  assert (length (take n l ++ x) = n + length x)%nat as El by (rewrite length_app, length_take; lia).
  rewrite drop_app_ge by (rewrite El; lia). rewrite drop_drop, El. apply (f_equal (fun k => y ++ drop k l)). lia.
Qed.

(** A block read, changed and written back. *)
Lemma splice_splice_sub a b n x l :
  0 <= a → 0 <= b → 0 <= n → a + zlen x <= n → b + n <= zlen l →
  splice b (splice a x (sub b n l)) l = splice (b + a) x l.
Proof.
  intros Ha Hb Hn Hx Hl. pose proof (zlen_sub b n l Hb Hn Hl) as Eq. set (q := sub b n l) in *.
  assert (∃ p r, l = p ++ q ++ r ∧ zlen p = b) as (p & r & El & Ep).
  { exists (sub 0 b l), (drop (Z.to_nat (b + n)) l). split; [by apply sub_split|]. apply zlen_sub; lia. }
  clearbody q. subst b l. clear Hl Hb. unfold splice at 1.
  assert (length (splice a x q) = length q) as Elen.
  { pose proof (zlen_splice a x q Ha ltac:(lia)) as E. unfold zlen in E. lia. }
  rewrite Elen. unfold zlen in *. rewrite Nat2Z.id, take_app_length, drop_app_add, drop_app_length.
  unfold splice. rewrite Z2Nat.inj_add, Nat2Z.id by lia. rewrite take_app_add, <- Nat.add_assoc, drop_app_add.
  rewrite take_app_le, drop_app_le by lia. by rewrite <- !app_assoc.
Qed.

(** Little-endian fields. *)
Definition le16 (l : list Z) (a : Z) : Z := zget 0 l a + 256 * zget 0 l (a + 1).
Definition le32 (l : list Z) (a : Z) : Z := le16 l a + 65536 * le16 l (a + 2).

(** The C string a buffer starts with. *)
Fixpoint c_str (l : list Z) : list Z :=
  match l with
  | [] => []
  | c :: l => if c =? 0 then [] else c :: c_str l
  end.
