(* ===== verification/Chars.v ===== *)
(** The functions of [src/src/kernel/runtime/string.cc] on the characters of
    objects.

    Names, passwords and other arrays inside objects are lists of characters;
    here are the copies and comparisons the code makes with them, and that
    they agree with [Strings.v] on strings in memory. *)

From Stdlib Require Import ZArith Lia.
From stdpp Require Import base list gmap option.
From S2P Require Import Prelude Memory Strings Bytes.

(** [memcpy] from an object: [n] of its characters. *)
Definition copy_in (m : mem) (dest : Z) (data : list Z) (n : Z) : mem :=
  for_ n (fun i m => store8 m (dest + i) (zget 0 data i)) m.

(** [strncmp] on the characters of two objects. *)
Fixpoint strncmp_chars (s1 s2 : list Z) (c : nat) (result : Z) : Z :=
  match c with
  | O => result
  | S c =>
    let result := s8 (hd 0 s1) - s8 (hd 0 s2) in
    if negb (result =? 0) || (hd 0 s1 =? 0) then result
    else strncmp_chars (tail s1) (tail s2) c result
  end.

(** [strncpy] to an array of an object. *)
Definition strncpy_chars (dest src : list Z) (maxLength : Z) : list Z :=
  let maxLength := if 255 <? maxLength then 255 else maxLength in
  splice 0 (take (Z.to_nat maxLength) (src ++ [0])) dest.

(** [strcpy] and [strcat] of an object's string to memory; [strcat] leaves out
    the terminator. *)
Definition strcpy_chars (m : mem) (dest : Z) (src : list Z) : mem := copy_in m dest (src ++ [0]) (zlen src + 1).
Definition strcat_chars (fuel : nat) (m : mem) (dest : Z) (src : list Z) : outcome mem :=
  let* d := strlen fuel m dest in Done (copy_in m (dest + d) src (zlen src)).

(** The string at [a] in memory. *)
Definition string_at (fuel : nat) (m : mem) (a : Z) : outcome (list Z) :=
  let* n := strlen fuel m a in Done (map (fun i => load8 m (a + Z.of_nat i)) (seq 0 (Z.to_nat n))).

Lemma s8_inj a b : 0 <= a < 256 → 0 <= b < 256 → s8 a = s8 b → a = b.
Proof.
  unfold s8. intros Ha Hb He.
  pose proof (Z.div_mod (a + 128) 256 ltac:(lia)). pose proof (Z.mod_pos_bound (a + 128) 256 ltac:(lia)).
  pose proof (Z.div_mod (b + 128) 256 ltac:(lia)). pose proof (Z.mod_pos_bound (b + 128) 256 ltac:(lia)). lia.
Qed.

Lemma strncmp_chars_loop m a b s t c r fuel :
  cstr m a s → cstr m b t → (c < fuel)%nat →
  loop fuel (fun '(s1, s2, c, result) =>
       Done (if c =? 0 then inr result
             else
               let result := s8 (load8 m s1) - s8 (load8 m s2) in
               if negb (result =? 0) || (load8 m s1 =? 0) then inr result
               else inl (s1 + 1, s2 + 1, c - 1, result))) (a, b, Z.of_nat c, r)
  = Done (strncmp_chars s t c r).
Proof.
  revert fuel a b s t r. induction c as [|c IH]; intros [|fuel] a b s t r Hs Ht Hf; try lia; [done|].
  cbn [loop strncmp_chars]. rewrite (proj2 (Z.eqb_neq (Z.of_nat (S c)) 0)) by lia.
  assert (∀ x l, cstr m x l → load8 m x = hd 0 l) as Hhd by (intros x [|? l]; simpl; tauto).
  rewrite (Hhd a s Hs), (Hhd b t Ht).
  destruct (Z.eqb_spec (s8 (hd 0 s) - s8 (hd 0 t)) 0) as [He|]; cbn [negb orb]; [|done].
  destruct (Z.eqb_spec (hd 0 s) 0) as [|Hne]; [done|].
  destruct s as [|x s]; [done|]. destruct Hs as (_ & Hx & Hs). cbn [hd] in *.
  destruct t as [|y t]; [exfalso; cbn [hd] in *; assert (x = 0) by (apply s8_inj; lia); lia|].
  destruct Ht as (_ & _ & Ht). cbn [obind tail]. replace (Z.of_nat (S c) - 1) with (Z.of_nat c) by lia.
  apply IH; [done|done|lia].
Qed.

(** On strings in memory it is the [strncmp] of [string.cc]. *)
Lemma strncmp_chars_mem m a b s t c fuel :
  cstr m a s → cstr m b t → (c < fuel)%nat → strncmp fuel m a b (Z.of_nat c) = Done (strncmp_chars s t c 0).
Proof. intros. by apply strncmp_chars_loop. Qed.

Definition text (s : list Z) : Prop := Forall (λ c, 0 < c < 256) s.

(** Comparing the whole of [pw]: it is a prefix. *)
Lemma strncmp_prefix s pw :
  text s → text pw → strncmp_chars s pw (length pw) 0 = 0 ↔ pw `prefix_of` s.
Proof.
  intros Hs. revert s Hs. induction pw as [|c pw IH]; intros s Hs Hpw; cbn [length strncmp_chars].
  { split; [intros _; apply prefix_nil|done]. }
  apply list.Forall_cons_1 in Hpw as [Hc Hpw]. cbn [hd tail].
  destruct s as [|x s]; cbn [hd tail].
  - assert (s8 0 - s8 c ≠ 0) as Hne by (intros E; assert (0 = c) by (apply s8_inj; lia); lia).
    rewrite (proj2 (Z.eqb_neq _ _) Hne). cbn [negb orb]. split; [done|]. by intros ?%prefix_nil_inv.
  - apply list.Forall_cons_1 in Hs as [Hx Hs].
    destruct (Z.eqb_spec (s8 x - s8 c) 0) as [E|Hne]; cbn [negb orb].
    + assert (x = c) as -> by (apply s8_inj; lia). rewrite (proj2 (Z.eqb_neq c 0)) by lia.
      rewrite E, IH by done. split; [apply prefix_cons|by intros ?%prefix_cons_inv_2].
    + split; [done|]. intros ->%prefix_cons_inv_1. lia.
Qed.

Lemma c_str_text s l : text s → c_str (s ++ 0 :: l) = s.
Proof.
  induction 1 as [|x s Hx Hs IH]; [done|]. cbn [app c_str]. rewrite (proj2 (Z.eqb_neq x 0)) by lia. by f_equal.
Qed.

Lemma c_str_whole s : text s → c_str s = s.
Proof. induction 1 as [|x s Hx Hs IH]; [done|]. cbn [c_str]. rewrite (proj2 (Z.eqb_neq x 0)) by lia. by f_equal. Qed.

(** ** Copies *)

Lemma copy_in_spec m dest data n :
  0 <= n →
  (∀ i, 0 <= i < n → load8 (copy_in m dest data n) (dest + i) = u8 (zget 0 data i)) ∧
  (∀ x, x < dest ∨ dest + n <= x → load8 (copy_in m dest data n) x = load8 m x).
Proof.
  intros Hn. unfold copy_in.
  apply (for_inv (fun k m' =>
    (∀ i, 0 <= i < k → load8 m' (dest + i) = u8 (zget 0 data i)) ∧
    (∀ x, x < dest ∨ dest + k <= x → load8 m' x = load8 m x))); [done|split; [lia|done]|].
  intros j m' Hj [Hin Hout]. split.
  - intros i Hi. destruct (decide (i = j)) as [->|]; [apply load8_store8_eq|].
    rewrite load8_store8_ne by lia. apply Hin. lia.
  - intros x Hx. rewrite load8_store8_ne by lia. apply Hout. lia.
Qed.

(** [copy_in] of a text, then the terminator. *)
Lemma copy_in_cstr m dest s :
  text s →
  cstr (store8 (copy_in m dest s (zlen s)) (dest + zlen s) 0) dest s ∧
  ∀ x, x < dest ∨ dest + zlen s + 1 <= x →
    load8 (store8 (copy_in m dest s (zlen s)) (dest + zlen s) 0) x = load8 m x.
Proof.
  intros Hs. pose proof (zlen_nonneg s). destruct (copy_in_spec m dest s (zlen s)) as [Hin Hout]; [done|]. split.
  - apply cstr_intro; [|done|apply load8_store8_eq]. apply bytes_lookup. intros i c Hi.
    apply lookup_lt_Some in Hi as Hlt. unfold zlen in *. rewrite load8_store8_ne by lia. rewrite Hin by lia.
    unfold zget. rewrite decide_True by lia. rewrite Nat2Z.id, (nth_lookup_Some _ _ _ _ Hi).
    apply u8_small. eapply Forall_lookup_1 in Hs; [|done]. cbn beta in Hs. lia.
  - intros x Hx. rewrite load8_store8_ne by lia. apply Hout. lia.
Qed.

Lemma string_at_spec fuel m a s : cstr m a s → (length s < fuel)%nat → string_at fuel m a = Done s.
Proof.
  intros Hs Hf. unfold string_at. rewrite (strlen_spec fuel m a s) by done. cbn [obind]. f_equal.
  unfold zlen. rewrite Nat2Z.id. apply list_eq. intros i. rewrite list_lookup_fmap.
  destruct (decide (i < length s)%nat) as [Hi|Hi].
  - rewrite lookup_seq_lt by done. cbn. destruct (lookup_lt_is_Some_2 s i Hi) as [c Hc]. rewrite Hc. f_equal.
    by apply (proj1 (bytes_lookup _ _ _) (cstr_bytes _ _ _ Hs)).
  - rewrite lookup_seq_ge by lia. cbn. symmetry. apply lookup_ge_None. lia.
Qed.

Lemma copy_in_bytes m dest s :
  text s → bytes (copy_in m dest s (zlen s)) dest s.
Proof.
  intros Hs. pose proof (zlen_nonneg s). destruct (copy_in_spec m dest s (zlen s)) as [Hin _]; [done|].
  apply bytes_lookup. intros i c Hi. apply lookup_lt_Some in Hi as Hlt. unfold zlen in *. rewrite Hin by lia.
  unfold zget. rewrite decide_True by lia. rewrite Nat2Z.id, (nth_lookup_Some _ _ _ _ Hi).
  apply u8_small. eapply Forall_lookup_1 in Hs; [|done]. cbn beta in Hs. lia.
Qed.

Lemma strcpy_chars_spec m dest s :
  text s →
  cstr (strcpy_chars m dest s) dest s ∧
  ∀ x, x < dest ∨ dest + zlen s < x → load8 (strcpy_chars m dest s) x = load8 m x.
Proof.
  intros Hs. pose proof (zlen_nonneg s). unfold strcpy_chars.
  destruct (copy_in_spec m dest (s ++ [0]) (zlen s + 1)) as [Hin Hout]; [lia|]. split; [|intros x Hx; apply Hout; lia].
  apply cstr_intro; [|done|].
  - apply bytes_lookup. intros i c Hi. apply lookup_lt_Some in Hi as Hlt. unfold zlen in *. rewrite Hin by lia.
    unfold zget. rewrite decide_True by lia. rewrite Nat2Z.id, app_nth1, (nth_lookup_Some _ _ _ _ Hi) by done.
    apply u8_small. eapply Forall_lookup_1 in Hs; [|done]. cbn beta in Hs. lia.
  - rewrite Hin by lia. unfold zget, zlen. rewrite decide_True by lia. rewrite Nat2Z.id, app_nth2, Nat.sub_diag by lia. done.
Qed.

Lemma bytes_app m a l1 l2 : bytes m a (l1 ++ l2) ↔ bytes m a l1 ∧ bytes m (a + zlen l1) l2.
Proof.
  revert a. induction l1 as [|c l1 IH]; intros a; cbn [app bytes]; [by rewrite Z.add_0_r; tauto|].
  rewrite IH, zlen_cons. replace (a + 1 + zlen l1) with (a + (1 + zlen l1)) by lia. tauto.
Qed.

(** [strcat] makes the longer string only when the byte behind it is zero already. *)
Lemma strcat_chars_spec fuel m dest d s :
  cstr m dest d → text s → (length d < fuel)%nat → load8 m (dest + zlen d + zlen s) = 0 →
  ∃ m', strcat_chars fuel m dest s = Done m' ∧ cstr m' dest (d ++ s) ∧
    ∀ x, x < dest + zlen d ∨ dest + zlen d + zlen s <= x → load8 m' x = load8 m x.
Proof.
  intros Hd Hs Hf Hz. unfold strcat_chars. rewrite (strlen_spec fuel m dest d) by done. cbn [obind].
  pose proof (zlen_nonneg s). pose proof (zlen_nonneg d).
  destruct (copy_in_spec m (dest + zlen d) s (zlen s)) as [_ Hout]; [done|].
  eexists. split; [done|]. split; [|exact Hout]. apply cstr_intro.
  - apply bytes_app. split; [|by apply copy_in_bytes].
    apply (bytes_frame m); [|by apply cstr_bytes]. intros x Hx. apply Hout. lia.
  - apply Forall_app. split; [by eapply cstr_nonzero|done].
  - rewrite zlen_app, Z.add_assoc. rewrite Hout by lia. exact Hz.
Qed.
