(* ===== verification/BlockDevice.v ===== *)
(** Block devices: [src/src/kernel/core/block_device.h] and [block_device.cc].

    [read_blocks] and [write_blocks] are pure virtual in the source: they are
    the interface [BlockOps], one block at a time as [BlockDevice] calls them,
    over the state [D] of a device.  [BlockLaws] is what a device that works
    promises.  A buffer is the list of the bytes it holds; its address is only
    looked at to see whether it is null.  A block goes through a buffer on the
    stack, or one from [kmalloc] when it is larger than 1024 bytes. *)

From Stdlib Require Import ZArith Lia.
From stdpp Require Import base list option.
From S2P Require Import Prelude Memory KAlloc Bytes FileTree.

Definition ERROR_MEMORY : Z := u32 (-2).
Definition RETURN_FAILURE : Z := u32 (-128).

(** The constructor's block size. *)
Definition ctor_block_size (n : Z) : Z := if n =? 0 then 512 else n.

(** [sizeof(temp_block)] *)
Definition sizeof_temp_block : Z := 1024.

Class BlockOps (D : Type) := {
  block_size : D → Z;
  read_block : D → Z → Z * list Z * D;
  write_block : D → Z → list Z → Z * D;
}.

Section BlockDevice.
Context {K : Type} `{KAlloc K} {D : Type} `{BlockOps D}.

(** The part of the first block from [offset] on. *)
Definition first_chunk (d : D) (offset total : Z) : Z :=
  let chunk := block_size d - offset in if total <? chunk then total else chunk.

(** The steps of a transfer either fail with a code or go on. *)
Definition step (S : Type) : Type := Z * S + S.

Definition read_first (d : D) (pos size : Z) : list Z * Z * Z * D + list Z * D :=
  let lba := pos / block_size d in
  let offset := pos mod block_size d in
  if negb (offset =? 0) then
    let '(r, blk, d) := read_block d lba in
    if negb (r =? RETURN_OK) then inr ([], d)
    else
      let chunk := first_chunk d offset size in
      inl (sub offset chunk blk, size - chunk, u32 (lba + 1), d)
  else inl ([], size, lba, d).

(** [while (total >= block_size_)] *)
Definition read_whole (d : D) (out : list Z) (total lba : Z) : outcome (list Z * Z * Z * D + list Z * D) :=
  loop (S (Z.to_nat total)) (fun '(out, total, lba, d) =>
    if block_size d <=? total then
      let '(r, blk, d) := read_block d lba in
      if negb (r =? RETURN_OK) then Done (inr (inr (out, d)))
      else Done (inl (out ++ blk, total - block_size d, u32 (lba + 1), d))
    else Done (inr (inl (out, total, lba, d)))) (out, total, lba, d).

Definition read_last (d : D) (out : list Z) (total lba : Z) : Z * list Z * D :=
  if negb (total =? 0) then
    let '(r, blk, d) := read_block d lba in
    if negb (r =? RETURN_OK) then (RETURN_FAILURE, out, d)
    else (RETURN_OK, out ++ sub 0 total blk, d)
  else (RETURN_OK, out, d).

(** The transfer: the code, what reached the caller's buffer, the device. *)
Definition read_transfer (d : D) (pos size : Z) : outcome (Z * list Z * D) :=
  match read_first d pos size with
  | inr (out, d) => Done (RETURN_FAILURE, out, d)
  | inl (out, total, lba, d) =>
    let* r := read_whole d out total lba in
    Done (match r with
          | inr (out, d) => (RETURN_FAILURE, out, d)
          | inl (out, total, lba, d) => read_last d out total lba
          end)
  end.

Definition write_first (d : D) (pos : Z) (data : list Z) (size : Z) : list Z * Z * Z * D + D :=
  let lba := pos / block_size d in
  let offset := pos mod block_size d in
  if negb (offset =? 0) then
    let '(r, temp, d) := read_block d lba in
    if negb (r =? RETURN_OK) then inr d
    else
      let chunk := first_chunk d offset size in
      let '(r, d) := write_block d lba (splice offset (sub 0 chunk data) temp) in
      if negb (r =? RETURN_OK) then inr d
      else inl (drop (Z.to_nat chunk) data, size - chunk, u32 (lba + 1), d)
  else inl (data, size, lba, d).

Definition write_whole (d : D) (data : list Z) (total lba : Z) : outcome (list Z * Z * Z * D + D) :=
  loop (S (Z.to_nat total)) (fun '(data, total, lba, d) =>
    if block_size d <=? total then
      let '(r, d) := write_block d lba (sub 0 (block_size d) data) in
      if negb (r =? RETURN_OK) then Done (inr (inr d))
      else Done (inl (drop (Z.to_nat (block_size d)) data, total - block_size d, u32 (lba + 1), d))
    else Done (inr (inl (data, total, lba, d)))) (data, total, lba, d).

Definition write_last (d : D) (data : list Z) (total lba : Z) : Z * D :=
  if negb (total =? 0) then
    let '(r, temp, d) := read_block d lba in
    if negb (r =? RETURN_OK) then (RETURN_FAILURE, d)
    else
      let '(r, d) := write_block d lba (splice 0 (sub 0 total data) temp) in
      ((if negb (r =? RETURN_OK) then RETURN_FAILURE else RETURN_OK), d)
  else (RETURN_OK, d).

Definition write_transfer (d : D) (pos : Z) (data : list Z) (size : Z) : outcome (Z * D) :=
  match write_first d pos data size with
  | inr d => Done (RETURN_FAILURE, d)
  | inl (data, total, lba, d) =>
    let* r := write_whole d data total lba in
    Done (match r with
          | inr d => (RETURN_FAILURE, d)
          | inl (data, total, lba, d) => write_last d data total lba
          end)
  end.

(** [BlockDevice::read] and [write]. *)
Definition bd_read (k : K) (d : D) (pos buffer size : Z) : outcome (Z * list Z * K * D) :=
  if (buffer =? 0) || (size =? 0) then Done (ERROR_PARAM, [], k, d)
  else if block_size d =? 0 then Stuck
  else if sizeof_temp_block <? block_size d then
    let* (temp, k) := kmalloc k (block_size d) in
    if temp =? 0 then Done (ERROR_MEMORY, [], k, d)
    else
      let* (r, out, d) := read_transfer d pos size in
      let* k := kfree k temp in
      Done (r, out, k, d)
  else
    let* (r, out, d) := read_transfer d pos size in
    Done (r, out, k, d).

Definition bd_write (k : K) (d : D) (pos buffer : Z) (data : list Z) (size : Z) : outcome (Z * K * D) :=
  if (buffer =? 0) || (size =? 0) then Done (ERROR_PARAM, k, d)
  else if block_size d =? 0 then Stuck
  else if sizeof_temp_block <? block_size d then
    let* (temp, k) := kmalloc k (block_size d) in
    if temp =? 0 then Done (ERROR_MEMORY, k, d)
    else
      let* (r, d) := write_transfer d pos data size in
      let* k := kfree k temp in
      Done (r, k, d)
  else
    let* (r, d) := write_transfer d pos data size in
    Done (r, k, d).

End BlockDevice.

(** A device that works: the bytes on it, read and written by whole blocks. *)
Class BlockLaws (D : Type) `{BlockOps D} := {
  disk : D → list Z;
  disk_bytes d : byte_list (disk d);
  block_size_pos d : 0 < block_size d;
  read_block_ok d lba :
    0 <= lba → (lba + 1) * block_size d <= zlen (disk d) →
    ∃ d', read_block d lba = (RETURN_OK, sub (lba * block_size d) (block_size d) (disk d), d') ∧
      disk d' = disk d ∧ block_size d' = block_size d;
  write_block_ok d lba blk :
    0 <= lba → (lba + 1) * block_size d <= zlen (disk d) → zlen blk = block_size d → byte_list blk →
    ∃ d', write_block d lba blk = (RETURN_OK, d') ∧
      disk d' = splice (lba * block_size d) blk (disk d) ∧ block_size d' = block_size d;
}.
