(* ===== verification/BlockDeviceSpec.v ===== *)
(** What [BlockDevice] promises over a device that works: [read] and [write]
    see it as one array of bytes, whatever the block size and the alignment;
    and what is written is read back. *)

From Stdlib Require Import ZArith Lia.
From stdpp Require Import base list option.
From S2P Require Import Prelude Memory KAlloc Bump Bytes FileTree BlockDevice.

Lemma whole_block bs len lba : 0 < bs → (bs | len) → lba * bs < len → (lba + 1) * bs <= len.
Proof. intros Hbs [q ->] Hl. apply Z.mul_lt_mono_pos_r in Hl; [|done]. apply Z.mul_le_mono_nonneg_r; lia. Qed.

Section Spec.
Context {D : Type} `{BlockLaws D}.

(** The same device, the same bytes. *)
Definition same_disk (d d' : D) : Prop := disk d' = disk d ∧ block_size d' = block_size d.

#[export] Instance same_disk_preorder : PreOrder same_disk.
Proof. split; [by split|]. intros x y z [E1 E2] [E3 E4]. split; congruence. Qed.

(** An area of the device: whole blocks, and [size] bytes at [pos]. *)
Record area (d : D) (pos size : Z) : Prop := {
  area_pos : 0 <= pos;
  area_size : 0 < size;
  area_end : pos + size <= zlen (disk d);
  area_blocks : (block_size d | zlen (disk d));
  area_len : zlen (disk d) < 2 ^ 32;
}.

(** Reading the block a position lies in. *)
Lemma read_block_at d lba :
  (block_size d | zlen (disk d)) → 0 <= lba → lba * block_size d < zlen (disk d) →
  ∃ d', read_block d lba = (RETURN_OK, sub (lba * block_size d) (block_size d) (disk d), d') ∧ same_disk d d'.
Proof.
  intros Hb Hl He. destruct (read_block_ok d lba Hl) as (d' & E & S); [|by exists d'].
  apply whole_block; [apply block_size_pos|done|done].
Qed.

(** ** Reading *)

(** What the transfer has done when [total] bytes are left. *)
Record reading (d : D) (pos size : Z) (out : list Z) (total lba : Z) (d' : D) : Prop := {
  rd_out : out = sub pos (size - total) (disk d);
  rd_total : 0 <= total <= size;
  rd_lba : 0 <= lba;
  rd_at : 0 < total → lba * block_size d = pos + (size - total);
  rd_disk : same_disk d d';
}.

Lemma lba_next d lba : 0 <= lba → (lba + 1) * block_size d <= zlen (disk d) → zlen (disk d) < 2 ^ 32 → u32 (lba + 1) = lba + 1.
Proof. intros. apply u32_small. pose proof (block_size_pos d). nia. Qed.

Lemma read_first_spec d pos size :
  area d pos size → ∃ out total lba d', read_first d pos size = inl (out, total, lba, d') ∧ reading d pos size out total lba d'.
Proof.
  intros [Hp Hs He Hb Hl]. pose proof (block_size_pos d) as Hbs. set (bs := block_size d) in *.
  pose proof (Z.div_mod pos bs ltac:(lia)) as Hdiv. pose proof (Z.mod_pos_bound pos bs Hbs) as Hmod.
  unfold read_first. fold bs. destruct (Z.eqb_spec (pos mod bs) 0) as [E0|E0]; cbn [negb].
  - eexists _, _, _, _. split; [reflexivity|]. rewrite E0 in Hdiv.
    split; [by rewrite Z.sub_diag|lia|apply Z.div_pos; lia|intros _; lia|reflexivity].
  - destruct (read_block_at d (pos / bs)) as (d' & E & S); [done|apply Z.div_pos; lia|fold bs; nia|].
    fold bs in E. rewrite E. change (negb (RETURN_OK =? RETURN_OK)) with false. cbv iota.
    assert (∀ o, first_chunk d' o size = first_chunk d o size) as -> by (intros o; unfold first_chunk; by rewrite (proj2 S)).
    assert (0 < first_chunk d (pos mod bs) size <= size ∧ pos mod bs + first_chunk d (pos mod bs) size <= bs ∧
      (first_chunk d (pos mod bs) size < size → first_chunk d (pos mod bs) size = bs - pos mod bs)) as (Hc1 & Hc2 & Hc3).
    { unfold first_chunk. fold bs. destruct (Z.ltb_spec size (bs - pos mod bs)); lia. }
    set (c := first_chunk d (pos mod bs) size) in *. clearbody c.
    assert ((pos / bs + 1) * bs <= zlen (disk d)) as Hnext by (apply whole_block; [done|done|nia]).
    pose proof (Z.div_pos pos bs Hp Hbs) as Hd0.
    rewrite (lba_next d) by (fold bs; done). eexists _, _, _, _. split; [reflexivity|].
    split; [|lia|lia| |exact S].
    + rewrite sub_sub by lia. f_equal; lia.
    + intros. rewrite Hc3 by lia. fold bs. nia.
Qed.

Lemma read_whole_spec d pos size out total lba d1 :
  area d pos size → reading d pos size out total lba d1 →
  ∃ out' total' lba' d', read_whole d1 out total lba = Done (inl (out', total', lba', d')) ∧
    reading d pos size out' total' lba' d' ∧ total' < block_size d.
Proof.
  intros A R. pose proof (block_size_pos d) as Hbs.
  destruct (loop_total (fun '(o, t, l, x) => reading d pos size o t l x)
    (fun r => ∃ o t l x, r = inl (o, t, l, x) ∧ reading d pos size o t l x ∧ t < block_size d)
    (fun '(_, t, _, _) => Z.to_nat t)
    (fun '(out, total, lba, d) =>
      if block_size d <=? total then
        let '(r, blk, d) := read_block d lba in
        if negb (r =? RETURN_OK) then Done (inr (inr (out, d)))
        else Done (inl (out ++ blk, total - block_size d, u32 (lba + 1), d))
      else Done (inr (inl (out, total, lba, d))))) with (fuel := S (Z.to_nat total)) (s := (out, total, lba, d1))
    as (r & E & o & t & l & x & -> & HR & Ht); [|exact R|lia|by exists o, t, l, x].
  intros [[[o t] l] x] I. destruct I as [Ho Ht Hl Hat [HS1 HS2]]. rewrite HS2.
  destruct (Z.leb_spec (block_size d) t) as [Hle|Hlt].
  2: { eexists. split; [reflexivity|]. exists o, t, l, x. split; [done|]. split; [by split|done]. }
  destruct A as [Hp Hs He Hb Hlen].
  assert (l * block_size d = pos + (size - t)) as Hpos by (apply Hat; lia).
  assert ((l + 1) * block_size d <= zlen (disk d)) as Hnext by lia.
  destruct (read_block_at x l) as (x' & E & [S1 S2]); [by rewrite HS1, HS2|done|rewrite HS1, HS2; lia|].
  rewrite E. change (negb (RETURN_OK =? RETURN_OK)) with false. cbv iota. eexists. split; [reflexivity|].
  rewrite S2, HS1, HS2 in *. rewrite (lba_next d) by done. split; [|lia].
  split; [|lia|lia|lia|by split].
  rewrite Ho, Hpos, sub_app by lia. f_equal. lia.
Qed.

Lemma read_transfer_spec d pos size :
  area d pos size → ∃ d', read_transfer d pos size = Done (RETURN_OK, sub pos size (disk d), d') ∧ same_disk d d'.
Proof.
  intros A. unfold read_transfer. destruct (read_first_spec d pos size A) as (o & t & l & d1 & -> & R1).
  destruct (read_whole_spec d pos size o t l d1 A R1) as (o' & t' & l' & d2 & -> & R2 & Hlt). cbn [obind].
  destruct R2 as [Ho Ht Hl Hat [S1 S2]]. destruct A as [Hp Hs He Hb Hlen]. unfold read_last.
  destruct (Z.eqb_spec t' 0) as [->|Hne]; cbn [negb].
  - exists d2. split; [|by split]. rewrite Ho, Z.sub_0_r. done.
  - assert (l' * block_size d = pos + (size - t')) as Hpos by (apply Hat; lia).
    destruct (read_block_at d2 l') as (d3 & -> & S3); [by rewrite S1, S2|done|rewrite S1, S2; lia|].
    change (negb (RETURN_OK =? RETURN_OK)) with false. cbv iota. exists d3. split; [|by transitivity d2].
    rewrite S1, S2, Ho, sub_sub, Z.add_0_r, Hpos, sub_app by lia. by replace (size - t' + t') with size by lia.
Qed.

(** ** Writing *)

Record written (d : D) (pos size : Z) (data0 data : list Z) (total : Z) (d' : D) : Prop := {
  wr_data : data = drop (Z.to_nat (size - total)) data0;
  wr_total : 0 <= total <= size;
  wr_disk : disk d' = splice pos (sub 0 (size - total) data0) (disk d);
  wr_block : block_size d' = block_size d;
  wr_len : zlen (disk d') = zlen (disk d);
}.

(** The block of the position reached. *)
Definition lba_at (d : D) (pos size total lba : Z) : Prop :=
  0 <= lba ∧ (0 < total → lba * block_size d = pos + (size - total)).

(** [n] more bytes at the position reached. *)
Lemma written_more d pos size data0 data total d1 d' n :
  area d pos size → zlen data0 = size → written d pos size data0 data total d1 → 0 <= n <= total →
  disk d' = splice (pos + (size - total)) (sub 0 n data) (disk d1) → block_size d' = block_size d1 →
  written d pos size data0 (drop (Z.to_nat n) data) (total - n) d'.
Proof.
  intros [Hp Hs He Hb Hlen] Hd [Hdt Ht HD Hbs HL] Hn HD' Hbs'. rewrite Hdt in HD' |- *.
  assert (zlen (sub 0 (size - total) data0) = size - total) as E1 by (apply zlen_sub; lia).
  assert (zlen (sub (size - total) n data0) = n) as E2 by (apply zlen_sub; lia).
  change (sub 0 n (drop (Z.to_nat (size - total)) data0)) with (sub (size - total) n data0) in HD'.
  split; [|lia| |congruence|].
  - rewrite drop_drop. f_equal. lia.
  - rewrite HD', HD. rewrite <- E1 at 1. rewrite <- splice_app by lia. f_equal.
    replace (size - (total - n)) with (size - total + n) by lia. rewrite <- (sub_app 0 (size - total) n) by lia. done.
  - rewrite HD', zlen_splice; lia.
Qed.

(** A block read, changed by [x] at [offset] and written back. *)
Lemma patch_block d lba offset x :
  (block_size d | zlen (disk d)) → 0 <= lba → lba * block_size d < zlen (disk d) →
  0 <= offset → offset + zlen x <= block_size d → byte_list x →
  ∃ blk d1 d2, read_block d lba = (RETURN_OK, blk, d1) ∧ block_size d1 = block_size d ∧
    write_block d1 lba (splice offset x blk) = (RETURN_OK, d2) ∧
    disk d2 = splice (lba * block_size d + offset) x (disk d) ∧ block_size d2 = block_size d.
Proof.
  intros Hb Hl He Ho Hx Hbx. pose proof (block_size_pos d) as Hbs.
  destruct (read_block_at d lba Hb Hl He) as (d1 & E1 & [S1 S2]).
  assert ((lba + 1) * block_size d <= zlen (disk d)) as Hn by (by apply whole_block).
  assert (zlen (sub (lba * block_size d) (block_size d) (disk d)) = block_size d) as El by (apply zlen_sub; lia).
  destruct (write_block_ok d1 lba (splice offset x (sub (lba * block_size d) (block_size d) (disk d)))) as (d2 & E2 & D2 & B2);
    [done|by rewrite S1, S2|rewrite zlen_splice; lia|by apply bytes_splice, bytes_sub, disk_bytes|].
  eexists _, d1, d2. split; [exact E1|]. split; [done|]. split; [exact E2|]. split; [|congruence].
  rewrite D2, S1, S2, splice_splice_sub by lia. done.
Qed.

Lemma write_first_spec d pos data0 size :
  area d pos size → zlen data0 = size → byte_list data0 →
  ∃ data total lba d', write_first d pos data0 size = inl (data, total, lba, d') ∧
    written d pos size data0 data total d' ∧ lba_at d pos size total lba.
Proof.
  intros A Hd Hby. assert (written d pos size data0 data0 size d) as W0.
  { destruct A. split; [by rewrite Z.sub_diag|lia|by rewrite Z.sub_diag, sub_0, splice_nil|done|done]. }
  pose proof A as [Hp Hs He Hb Hl]. pose proof (block_size_pos d) as Hbs. unfold write_first.
  assert (block_size d ≠ 0) as Hbs0 by lia. pose proof (Z.div_mod pos (block_size d) Hbs0) as Hdiv.
  pose proof (Z.mod_pos_bound pos _ Hbs) as Hmod. pose proof (Z.div_pos pos _ Hp Hbs) as Hd0.
  set (lba := pos / block_size d) in *. set (off := pos mod block_size d) in *. clearbody lba off.
  destruct (Z.eqb_spec off 0) as [E0|E0]; cbn [negb].
  { eexists _, _, _, _. split; [reflexivity|]. split; [exact W0|]. split; [done|]. intros _. lia. }
  assert (0 < first_chunk d off size <= size ∧ off + first_chunk d off size <= block_size d ∧
    (first_chunk d off size < size → first_chunk d off size = block_size d - off)) as (Hc1 & Hc2 & Hc3).
  { unfold first_chunk. destruct (Z.ltb_spec size (block_size d - off)); lia. }
  assert (∀ x : D, block_size x = block_size d → first_chunk x off size = first_chunk d off size) as Hfc.
  { intros x E. unfold first_chunk. by rewrite E. }
  set (c := first_chunk d off size) in *. clearbody c.
  destruct (patch_block d lba off (sub 0 c data0)) as (blk & d1 & d2 & E1 & B1 & E2 & D2 & B2); [done|done|lia|lia|rewrite zlen_sub; lia|by apply bytes_sub|].
  rewrite E1. change (negb (RETURN_OK =? RETURN_OK)) with false. cbv iota. rewrite (Hfc d1 B1), E2.
  change (negb (RETURN_OK =? RETURN_OK)) with false. cbv iota.
  assert ((lba + 1) * block_size d <= zlen (disk d)) as Hnext by (apply whole_block; [done|done|lia]).
  rewrite (lba_next d) by done. eexists _, _, _, _. split; [reflexivity|]. split.
  - apply (written_more d pos size data0 data0 size d d2 c A Hd W0); [lia| |done].
    rewrite D2. f_equal. lia.
  - split; [lia|]. intros. rewrite Hc3 by lia. lia.
Qed.

Lemma write_whole_spec d pos data0 size data total lba d1 :
  area d pos size → zlen data0 = size → byte_list data0 → written d pos size data0 data total d1 → lba_at d pos size total lba →
  ∃ data' total' lba' d', write_whole d1 data total lba = Done (inl (data', total', lba', d')) ∧
    written d pos size data0 data' total' d' ∧ lba_at d pos size total' lba' ∧ total' < block_size d.
Proof.
  intros A Hd Hby W L. pose proof (block_size_pos d) as Hbs.
  destruct (loop_total (fun '(o, t, l, x) => written d pos size data0 o t x ∧ lba_at d pos size t l)
    (fun r => ∃ o t l x, r = inl (o, t, l, x) ∧ written d pos size data0 o t x ∧ lba_at d pos size t l ∧ t < block_size d)
    (fun '(_, t, _, _) => Z.to_nat t)
    (fun '(data, total, lba, d) =>
      if block_size d <=? total then
        let '(r, d) := write_block d lba (sub 0 (block_size d) data) in
        if negb (r =? RETURN_OK) then Done (inr (inr d))
        else Done (inl (drop (Z.to_nat (block_size d)) data, total - block_size d, u32 (lba + 1), d))
      else Done (inr (inl (data, total, lba, d))))) with (fuel := S (Z.to_nat total)) (s := (data, total, lba, d1))
    as (r & E & o & t & l & x & -> & HW & HL & Ht); [|by split|lia|by exists o, t, l, x].
  intros [[[o t] l] x] [I [Hl Hat]]. pose proof I as [Ho Ht HD Hb HL]. rewrite Hb.
  destruct (Z.leb_spec (block_size d) t) as [Hle|Hlt].
  2: { eexists. split; [reflexivity|]. exists o, t, l, x. split; [done|]. split; [done|]. by split. }
  pose proof A as [Hp Hs He Hbl Hlen].
  assert (l * block_size d = pos + (size - t)) as Hpos by (apply Hat; lia).
  assert ((l + 1) * block_size d <= zlen (disk d)) as Hnext by lia.
  destruct (write_block_ok x l (sub 0 (block_size d) o)) as (x' & E & D' & B'); [done|rewrite Hb, HL; lia| | |].
  { rewrite Ho. change (sub 0 ?n (drop (Z.to_nat ?k) ?m)) with (sub k n m). rewrite Hb, zlen_sub; lia. }
  { rewrite Ho. by apply bytes_sub, Forall_drop. }
  rewrite E. change (negb (RETURN_OK =? RETURN_OK)) with false. cbv iota. eexists. split; [reflexivity|].
  rewrite B', Hb in *. rewrite (lba_next d) by done. split; [|lia]. split; [|split; [lia|intros; lia]].
  apply (written_more d pos size data0 o t x x' (block_size d) A Hd I); [lia|by rewrite D', Hpos|congruence].
Qed.

Lemma write_transfer_spec d pos data size :
  area d pos size → zlen data = size → byte_list data →
  ∃ d', write_transfer d pos data size = Done (RETURN_OK, d') ∧ disk d' = splice pos data (disk d) ∧
    block_size d' = block_size d.
Proof.
  intros A Hd Hby. unfold write_transfer. destruct (write_first_spec d pos data size A Hd Hby) as (o & t & l & d1 & -> & W1 & L1).
  destruct (write_whole_spec d pos data size o t l d1 A Hd Hby W1 L1) as (o' & t' & l' & d2 & -> & W2 & [Hl Hat] & Hlt). cbn [obind].
  pose proof W2 as [Ho Ht HD Hb HL]. pose proof A as [Hp Hs He Hbl Hlen]. unfold write_last.
  assert (sub 0 (size - 0) data = data) as Hall by (rewrite Z.sub_0_r, <- Hd; apply sub_all).
  destruct (Z.eqb_spec t' 0) as [->|Hne]; cbn [negb].
  - exists d2. split; [done|]. by rewrite HD, Hall.
  - assert (l' * block_size d = pos + (size - t')) as Hpos by (apply Hat; lia).
    assert (zlen (sub 0 t' o') = t') as Et.
    { rewrite Ho. change (sub 0 ?n (drop (Z.to_nat ?k) ?m)) with (sub k n m). rewrite zlen_sub; lia. }
    destruct (patch_block d2 l' 0 (sub 0 t' o')) as (blk & d3 & d4 & E3 & B3 & E4 & D4 & B4);
      [by rewrite HL, Hb|done|rewrite HL, Hb; lia|lia|lia|rewrite Ho; by apply bytes_sub, Forall_drop|].
    rewrite E3. change (negb (RETURN_OK =? RETURN_OK)) with false. cbv iota. rewrite E4.
    exists d4. split; [done|]. split; [|congruence].
    destruct (written_more d pos size data o' t' d2 d4 t' A Hd W2) as [_ _ HD' _ _]; [lia| |done|].
    { rewrite D4, Hb, Hpos. f_equal. lia. }
    rewrite HD'. rewrite Z.sub_diag, Hall. done.
Qed.

(** ** The two operations *)

Context {K : Type} `{KAlloc K}.

(** The allocator answers for a block of the device's size, and takes it back. *)
Definition serves_block (d : D) : Prop :=
  ∀ k, ∃ p k1 k2, kmalloc k (block_size d) = Done (p, k1) ∧ (p ≠ 0 → kfree k1 p = Done k2).

(** A transfer that ran, or a block too large for the stack and no memory. *)
Definition no_memory (d : D) (r : Z) : Prop := sizeof_temp_block < block_size d ∧ r = ERROR_MEMORY.

(** [read] delivers the bytes of the device at the position asked for,
    whatever the size of its blocks, or reports that there was no memory for a
    block; the device keeps its bytes. *)
Lemma bd_read_spec (k : K) d pos buffer size :
  area d pos size → buffer ≠ 0 → serves_block d →
  ∃ r out k' d', bd_read k d pos buffer size = Done (r, out, k', d') ∧ same_disk d d' ∧
    (r = RETURN_OK ∧ out = sub pos size (disk d) ∨ no_memory d r).
Proof.
  intros A Hbuf Hk. destruct (read_transfer_spec d pos size A) as (d' & E & S).
  pose proof (block_size_pos d) as Hbs. unfold bd_read.
  rewrite (proj2 (Z.eqb_neq buffer 0)), (proj2 (Z.eqb_neq size 0)), (proj2 (Z.eqb_neq (block_size d) 0)) by (destruct A; lia).
  cbn [orb]. destruct (Z.ltb_spec sizeof_temp_block (block_size d)) as [Hbig|Hsmall].
  - destruct (Hk k) as (p & k1 & k2 & -> & Ef). cbn [obind]. destruct (Z.eqb_spec p 0) as [->|Hp].
    + eexists _, _, _, _. split; [reflexivity|]. split; [reflexivity|]. right. by split.
    + rewrite E. cbn [obind]. rewrite (Ef Hp). eexists _, _, _, _. split; [reflexivity|]. split; [done|]. by left.
  - rewrite E. eexists _, _, _, _. split; [reflexivity|]. split; [done|]. by left.
Qed.

Lemma bd_write_spec (k : K) d pos buffer data size :
  area d pos size → zlen data = size → byte_list data → buffer ≠ 0 → serves_block d →
  ∃ r k' d', bd_write k d pos buffer data size = Done (r, k', d') ∧ block_size d' = block_size d ∧
    (r = RETURN_OK ∧ disk d' = splice pos data (disk d) ∨ no_memory d r ∧ disk d' = disk d).
Proof.
  intros A Hd Hby Hbuf Hk. destruct (write_transfer_spec d pos data size A Hd Hby) as (d' & E & S & B).
  pose proof (block_size_pos d) as Hbs. unfold bd_write.
  rewrite (proj2 (Z.eqb_neq buffer 0)), (proj2 (Z.eqb_neq size 0)), (proj2 (Z.eqb_neq (block_size d) 0)) by (destruct A; lia).
  cbn [orb]. destruct (Z.ltb_spec sizeof_temp_block (block_size d)) as [Hbig|Hsmall].
  - destruct (Hk k) as (p & k1 & k2 & -> & Ef). cbn [obind]. destruct (Z.eqb_spec p 0) as [->|Hp].
    + eexists _, _, _. split; [reflexivity|]. split; [reflexivity|]. right. done.
    + rewrite E. cbn [obind]. rewrite (Ef Hp). eexists _, _, _. split; [reflexivity|]. split; [done|]. by left.
  - rewrite E. eexists _, _, _. split; [reflexivity|]. split; [done|]. by left.
Qed.

(** C17. What [write] has written to a device with blocks of at most 1024
    bytes, at any position, [read] reads back, and every other byte of the
    device is what it was. *)
Theorem write_read_roundtrip (k : K) d pos buffer data :
  area d pos (zlen data) → byte_list data → buffer ≠ 0 → block_size d <= sizeof_temp_block →
  ∃ d1 d2, bd_write k d pos buffer data (zlen data) = Done (RETURN_OK, k, d1) ∧
    bd_read k d1 pos buffer (zlen data) = Done (RETURN_OK, data, k, d2) ∧ disk d2 = disk d1 ∧
    ∀ i, Z.of_nat i < pos ∨ pos + zlen data <= Z.of_nat i → disk d1 !! i = disk d !! i.
Proof.
  intros A Hby Hbuf Hsmall. destruct (write_transfer_spec d pos data _ A eq_refl Hby) as (d1 & E1 & S1 & B1).
  pose proof A as [Hp Hs He Hb Hl]. pose proof (block_size_pos d) as Hbs.
  assert (zlen (disk d1) = zlen (disk d)) as El by (rewrite S1; apply zlen_splice; lia).
  assert (area d1 pos (zlen data)) as A1 by (split; [done|done|lia|by rewrite El, B1|lia]).
  destruct (read_transfer_spec d1 pos _ A1) as (d2 & E2 & S2 & B2). exists d1, d2. unfold bd_write, bd_read. rewrite B1.
  rewrite (proj2 (Z.eqb_neq buffer 0)), (proj2 (Z.eqb_neq (zlen data) 0)), (proj2 (Z.eqb_neq (block_size d) 0)) by lia.
  rewrite (proj2 (Z.ltb_ge sizeof_temp_block (block_size d))) by done. cbn [orb]. rewrite E1, E2. cbn [obind].
  split; [done|]. split; [by rewrite S1, sub_splice_same by lia|]. split; [done|].
  intros i Hi. rewrite S1. by apply splice_lookup_ne.
Qed.

End Spec.

(** ** A device in memory *)

Record ram := mk_ram { ram_block : Z; ram_bytes : list Z }.

Definition ram_size (d : ram) : Z := Z.max 1 (ctor_block_size (ram_block d)).
Definition ram_has (d : ram) (lba : Z) : bool := (0 <=? lba) && ((lba + 1) * ram_size d <=? zlen (ram_bytes d)).

#[export] Instance ram_ops : BlockOps ram := {
  block_size := ram_size;
  read_block d lba :=
    if ram_has d lba then (RETURN_OK, sub (lba * ram_size d) (ram_size d) (ram_bytes d), d) else (RETURN_FAILURE, [], d);
  write_block d lba blk :=
    if ram_has d lba then (RETURN_OK, mk_ram (ram_block d) (splice (lba * ram_size d) blk (ram_bytes d)))
    else (RETURN_FAILURE, d);
}.

(** What is not a list of bytes is no memory, and nothing is promised. *)
Definition all_bytes (l : list Z) : bool := forallb (fun c => (0 <=? c) && (c <? 256)) l.
Lemma all_bytes_spec l : all_bytes l = true ↔ byte_list l.
Proof.
  unfold all_bytes, byte_list, byte. rewrite forallb_forall, list.Forall_forall.
  split; intros Hl c Hc; specialize (Hl c); rewrite andb_true_iff, Z.leb_le, Z.ltb_lt in *; apply Hl; by apply list_elem_of_In.
Qed.
Definition ram_disk (d : ram) : list Z := if all_bytes (ram_bytes d) then ram_bytes d else [].

Lemma ram_disk_block d lba :
  0 <= lba → (lba + 1) * ram_size d <= zlen (ram_disk d) → ram_disk d = ram_bytes d ∧ byte_list (ram_bytes d) ∧ ram_has d lba = true.
Proof.
  unfold ram_disk, ram_has. intros H0 H1. destruct (all_bytes (ram_bytes d)) eqn:E.
  - rewrite (proj2 (Z.leb_le _ _) H0), (proj2 (Z.leb_le _ _) H1). by apply all_bytes_spec in E.
  - unfold zlen, ram_size in H1. cbn [length] in H1. nia.
Qed.

#[export, refine] Instance ram_laws : BlockLaws ram := { disk := ram_disk }.
Proof.
  - intros d. unfold ram_disk. destruct (all_bytes _) eqn:E; [by apply all_bytes_spec in E|by apply list.Forall_nil].
  - intros d. cbn. unfold ram_size. lia.
  - intros d lba H0 H1. cbn in H1 |- *. destruct (ram_disk_block d lba H0 H1) as (<- & _ & ->). by exists d.
  - intros d lba blk H0 H1 H2 H3. cbn in H1, H2 |- *. destruct (ram_disk_block d lba H0 H1) as (-> & Hb & ->).
    eexists. split; [done|]. split; [|done]. unfold ram_disk. cbn [ram_bytes].
    by rewrite (proj2 (all_bytes_spec _) (bytes_splice _ _ _ H3 Hb)).
Defined.

(** Four blocks of four bytes. *)
Definition ram4 : ram := mk_ram 4 [0; 1; 2; 3; 4; 5; 6; 7; 8; 9; 10; 11; 12; 13; 14; 15].

Lemma ram4_area pos size : 0 <= pos → 0 < size → pos + size <= 16 → area ram4 pos size.
Proof. intros. split; [done|done|done|by exists 4|done]. Qed.

Lemma bump_serves (d : ram) : serves_block (K := bump) d.
Proof.
  intros k. unfold kmalloc, bump_kalloc. destruct (bnext k + bump_size (block_size d) <? 2 ^ 31);
    eexists _, _, _; (split; [reflexivity|intros _; reflexivity]).
Qed.

Lemma bd_read_spec_witness :
  ∃ r out k' d', bd_read (mk_bump ∅ 4096) ram4 3 64 7 = Done (r, out, k', d') ∧ out = [3; 4; 5; 6; 7; 8; 9].
Proof.
  destruct (bd_read_spec (mk_bump ∅ 4096) ram4 3 64 7) as (r & out & k' & d' & E & _ & [[_ Ho]|[Hbig _]]).
  - apply ram4_area; lia.
  - lia.
  - exact (bump_serves ram4).
  - exists r, out, k', d'. split; [exact E|exact Ho].
  - vm_compute in Hbig. discriminate Hbig.
Defined.

Lemma write_read_roundtrip_witness :
  ∃ d1 d2, bd_write (mk_bump ∅ 4096) ram4 3 64 [99; 98; 97; 96; 95; 94] 6 = Done (RETURN_OK, mk_bump ∅ 4096, d1) ∧
    bd_read (mk_bump ∅ 4096) d1 3 64 6 = Done (RETURN_OK, [99; 98; 97; 96; 95; 94], mk_bump ∅ 4096, d2).
Proof.
  destruct (write_read_roundtrip (mk_bump ∅ 4096) ram4 3 64 [99; 98; 97; 96; 95; 94]) as (d1 & d2 & E1 & E2 & _ & _).
  - apply ram4_area; unfold zlen; cbn; lia.
  - by apply all_bytes_spec.
  - lia.
  - vm_compute. discriminate.
  - exists d1, d2. split; [exact E1|exact E2].
Defined.
