(* ===== verification/Ext2.v ===== *)
(** The ext2 driver: [src/src/kernel/core/ext2.h] and [ext2.cc].

    [Ext2Mount] is the record [ext2_mount]; it reads its device through
    [BlockDevice::read].  The structures on the disk are read from their bytes
    at the offsets of the packed structures.  Reading past the end of a buffer
    is [Stuck].  A directory or a file of the driver is a [File] of the tree
    and, under the same address, a [node]. *)

From Stdlib Require Import ZArith Lia.
From stdpp Require Import base list gmap option.
From coqutil Require Import Datatypes.RecordSetters.
From S2P Require Import Prelude Memory KAlloc Bytes FileTree BlockDevice.
Import TriangleBracketNotations.

Definition EXT2_SUPER_MAGIC : Z := 0xEF53.
Definition EXT2_ROOT_INO : Z := 2.
Definition EXT2_FT_REG_FILE : Z := 1.
Definition EXT2_FT_DIR : Z := 2.

(** [struct ext2_super_block], [ext2_group_desc], [ext2_inode]: the fields the
    driver uses. *)
Definition sizeof_super : Z := 1024.
Definition sizeof_group_desc : Z := 32.
Definition sizeof_inode : Z := 128.
Definition sizeof_dir_entry : Z := 8.

Record super_block := mk_super {
  s_blocks_count : Z; s_log_block_size : Z; s_blocks_per_group : Z; s_inodes_per_group : Z;
  s_magic : Z; s_inode_size : Z;
}.
Definition decode_super (l : list Z) : super_block :=
  mk_super (le32 l 4) (le32 l 24) (le32 l 32) (le32 l 40) (le16 l 56) (le16 l 88).

Record inode := mk_inode { i_size : Z; i_block : list Z }.
Definition decode_inode (l : list Z) : inode :=
  mk_inode (le32 l 4) (map (fun i => le32 l (40 + 4 * i)) [0; 1; 2; 3; 4; 5; 6; 7; 8; 9; 10; 11; 12; 13; 14]).

(** [class Ext2Mount]; [groups] are the bytes behind [groups_]. *)
Record ext2_mount := mk_mount {
  super : super_block;
  groups_ptr : Z;
  groups : list Z;
  group_count : Z;
  m_block_size : Z;
  m_inode_size : Z;
  ptrs_per_block : Z;
}.

Definition new_mount : ext2_mount := mk_mount (mk_super 0 0 0 0 0 0) 0 [] 0 1024 128 256.

(** The names [.] and [..]. *)
Definition DOT_NAME : list Z := [46].
Definition DOTDOT_NAME : list Z := [46; 46].

Section Ext2.
Context {K : Type} `{KAlloc K} {D : Type} `{BlockOps D}.

(** A buffer on the stack or in an object: any address that is not null. *)
Definition local_buffer : Z := 1.

(** ** [initialize] *)

Definition load_groups (m : ext2_mount) (k : K) (d : D) (temp table_size : Z) : outcome (option (list Z) * K * D) :=
  let first_gdt_block := if m_block_size m =? 1024 then 2 else 1 in
  loop (S (Z.to_nat table_size)) (fun '(out, remaining, block, k, d) =>
    if 0 <? remaining then
      let* (r, bytes, k, d) := bd_read k d (u32 (block * m_block_size m)) temp (m_block_size m) in
      if negb (r =? RETURN_OK) then Done (inr (None, k, d))
      else
        let copy := if remaining <? m_block_size m then remaining else m_block_size m in
        Done (inl (out ++ sub 0 copy bytes, remaining - copy, u32 (block + 1), k, d))
    else Done (inr (Some out, k, d))) ([], table_size, first_gdt_block, k, d).

Definition initialize (m : ext2_mount) (k : K) (d : D) : outcome (bool * ext2_mount * K * D) :=
  let* (r, bytes, k, d) := bd_read k d 1024 local_buffer sizeof_super in
  if negb (r =? RETURN_OK) then Done (false, m, k, d)
  else
    let sb := decode_super bytes in
    let m := m <| super := sb |> in
    if negb (s_magic sb =? EXT2_SUPER_MAGIC) then Done (false, m, k, d)
    else if (32 <=? s_log_block_size sb) || (s_blocks_per_group sb =? 0) then Stuck
    else
      let m := m <| m_block_size := u32 (Z.shiftl 1024 (s_log_block_size sb)) |>
                 <| m_inode_size := if negb (s_inode_size sb =? 0) then s_inode_size sb else 128 |> in
      let m := m <| ptrs_per_block := m_block_size m / 4 |>
                 <| group_count := u32 (u32 (s_blocks_count sb + s_blocks_per_group sb) - 1) / s_blocks_per_group sb |> in
      if group_count m =? 0 then Done (false, m, k, d)
      else
        let table_size := u32 (group_count m * sizeof_group_desc) in
        let* (p, k) := kmalloc k table_size in
        let m := m <| groups_ptr := p |> in
        if p =? 0 then Done (false, m, k, d)
        else
          let* (temp, k) := kmalloc k (m_block_size m) in
          if temp =? 0 then Done (false, m, k, d)
          else
            let* (r, k, d) := load_groups m k d temp table_size in
            let* k := kfree k temp in
            match r with
            | None => Done (false, m, k, d)
            | Some gs => Done (true, m <| groups := gs |>, k, d)
            end.

(** [~Ext2Mount] *)
Definition delete_mount (m : ext2_mount) (k : K) : outcome K :=
  if negb (groups_ptr m =? 0) then kfree k (groups_ptr m) else Done k.

(** ** Inodes and blocks *)

Definition read_inode (m : ext2_mount) (k : K) (d : D) (ino : Z) : outcome (option inode * K * D) :=
  if ino =? 0 then Done (None, k, d)
  else
    let index := ino - 1 in
    if s_inodes_per_group (super m) =? 0 then Stuck
    else
      let group := index / s_inodes_per_group (super m) in
      if group_count m <=? group then Done (None, k, d)
      else
        let index_in_group := index mod s_inodes_per_group (super m) in
        let inode_table_block := le32 (groups m) (sizeof_group_desc * group + 8) in
        let offset := u32 (index_in_group * m_inode_size m) in
        let byte_offset := inode_table_block * m_block_size m + offset in
        let* (temp, k) := kmalloc k (m_inode_size m) in
        if temp =? 0 then Done (None, k, d)
        else
          let* (r, bytes, k, d) := bd_read k d (u32 byte_offset) temp (m_inode_size m) in
          if negb (r =? RETURN_OK) then let* k := kfree k temp in Done (None, k, d)
          else if m_inode_size m <? sizeof_inode then Stuck
          else let* k := kfree k temp in Done (Some (decode_inode bytes), k, d).

Definition nonzero (b : Z) : option Z := if b =? 0 then None else Some b.

Definition get_block (m : ext2_mount) (k : K) (d : D) (i : inode) (block_index : Z) : outcome (option Z * K * D) :=
  if block_index <? 12 then Done (nonzero (zget 0 (i_block i) block_index), k, d)
  else
    let block_index := block_index - 12 in
    if block_index <? ptrs_per_block m then
      let indirect := zget 0 (i_block i) 12 in
      if indirect =? 0 then Done (None, k, d)
      else
        let* (entries, k) := kmalloc k (m_block_size m) in
        if entries =? 0 then Done (None, k, d)
        else
          let* (r, bytes, k, d) := bd_read k d (u32 (indirect * m_block_size m)) entries (m_block_size m) in
          let* k := kfree k entries in
          Done (if negb (r =? RETURN_OK) then None else nonzero (le32 bytes (4 * block_index)), k, d)
    else Done (None, k, d).

(** A file has at most [12 + ptrs_per_block] blocks. *)
Definition block_fuel (m : ext2_mount) : nat := Z.to_nat (ptrs_per_block m + 14).

(** The loop of [read_file_data]: the bytes that reached the buffer. *)
Definition read_blocks_loop (m : ext2_mount) (k : K) (d : D) (i : inode) (block_buffer size block_index block_offset : Z)
    : outcome (list Z * K * D) :=
  loop (block_fuel m) (fun '(out, size, block_index, block_offset, k, d) =>
    if 0 <? size then
      let* (b, k, d) := get_block m k d i block_index in
      match b with
      | None => Done (inr (out, k, d))
      | Some block_number =>
        let* (r, bytes, k, d) := bd_read k d (u32 (block_number * m_block_size m)) block_buffer (m_block_size m) in
        if negb (r =? RETURN_OK) then Done (inr (out, k, d))
        else
          let chunk := if size <? m_block_size m - block_offset then size else m_block_size m - block_offset in
          Done (inl (out ++ sub block_offset chunk bytes, size - chunk, block_index + 1, 0, k, d))
      end
    else Done (inr (out, k, d))) ([], size, block_index, block_offset, k, d).

(** The count, and the bytes. *)
Definition read_file_data (m : ext2_mount) (k : K) (d : D) (i : inode) (offset buffer size : Z)
    : outcome (Z * list Z * K * D) :=
  if (buffer =? 0) || (size =? 0) then Done (0, [], k, d)
  else if i_size i <=? offset then Done (0, [], k, d)
  else
    let size := if i_size i <? u32 (offset + size) then i_size i - offset else size in
    if m_block_size m =? 0 then Stuck
    else
      let* (block_buffer, k) := kmalloc k (m_block_size m) in
      if block_buffer =? 0 then Done (0, [], k, d)
      else
        let* (out, k, d) := read_blocks_loop m k d i block_buffer size (offset / m_block_size m) (offset mod m_block_size m) in
        let* k := kfree k block_buffer in
        Done (zlen out, out, k, d).

(** ** Directories *)

(** [Ext2Node], [Ext2Directory], [Ext2RegularFile]; [n_mount] is the mount's
    number. *)
Record node := mk_node { n_mount : Z; n_inode : Z; n_dir : bool; n_loaded : bool; n_owns : bool }.

(** The objects of the driver with the file tree they are in. *)
Definition nodes : Type := gmap Z node.

(** [new Ext2Directory(name, mount, ino, owns)] and
    [new Ext2RegularFile(name, mount, ino, size)]. *)
Definition new_directory (t : ftree) (ns : nodes) (master mount : Z) (name : list Z) (ino : Z) (owns : bool) : Z * ftree * nodes :=
  let '(p, t) := new_file t master name TYPE_DIRECTORY in
  (p, t, <[p := mk_node mount ino true false owns]> ns).
Definition new_regular (t : ftree) (ns : nodes) (master mount : Z) (name : list Z) (ino size : Z) : outcome (Z * ftree * nodes) :=
  let '(p, t) := new_file t master name TYPE_FILE in
  let* t := setSize t p size in
  Done (p, t, <[p := mk_node mount ino false false false]> ns).

(** The entry at [offset] of a block, when it is a file of the directory [dir]. *)
Definition load_entry (m : ext2_mount) (k : K) (d : D) (master dir mount : Z) (blk : list Z) (offset : Z)
    (t : ftree) (ns : nodes) : outcome (ftree * nodes * K * D) :=
  let e_inode := le32 blk offset in
  let name_len := zget 0 blk (offset + 6) in
  let e_type := zget 0 blk (offset + 7) in
  if negb (e_inode =? 0) && (0 <? name_len) then
    if m_block_size m <? offset + sizeof_dir_entry + name_len then Stuck
    else
      let name := c_str (sub (offset + sizeof_dir_entry) name_len blk) in
      if bool_decide (name = DOT_NAME) || bool_decide (name = DOTDOT_NAME) then Done (t, ns, k, d)
      else
        let* (i, k, d) := read_inode m k d e_inode in
        match i with
        | None => Done (t, ns, k, d)
        | Some i =>
          if e_type =? EXT2_FT_DIR then
            let '(child, t, ns) := new_directory t ns master mount name e_inode false in
            let* t := setSize t child (i_size i) in
            let* (_, t) := addChild t dir child in
            Done (t, ns, k, d)
          else if (e_type =? EXT2_FT_REG_FILE) || (e_type =? 0) then
            let* (child, t, ns) := new_regular t ns master mount name e_inode (i_size i) in
            let* (_, t) := addChild t dir child in
            Done (t, ns, k, d)
          else Done (t, ns, k, d)
        end
  else Done (t, ns, k, d).

(** The entries of a block, until [total] bytes have been seen. *)
Definition load_block (m : ext2_mount) (k : K) (d : D) (master dir mount : Z) (blk : list Z) (processed total : Z)
    (t : ftree) (ns : nodes) : outcome (Z * ftree * nodes * K * D) :=
  loop (S (Z.to_nat (m_block_size m))) (fun '(processed, offset, t, ns, k, d) =>
    if (offset <? m_block_size m) && (processed <? total) then
      if m_block_size m <? offset + sizeof_dir_entry then Stuck
      else
        let rec_len := le16 blk (offset + 4) in
        if rec_len =? 0 then Done (inr (processed, t, ns, k, d))
        else
          let* (t, ns, k, d) := load_entry m k d master dir mount blk offset t ns in
          Done (inl (u32 (processed + rec_len), offset + rec_len, t, ns, k, d))
    else Done (inr (processed, t, ns, k, d))) (processed, 0, t, ns, k, d).

Definition load_directory (m : ext2_mount) (k : K) (d : D) (master dir : Z) (t : ftree) (ns : nodes)
    : outcome (bool * ftree * nodes * K * D) :=
  if dir =? 0 then Done (false, t, ns, k, d)
  else
    let* n := of_option (ns !! dir) in
    let* (i, k, d) := read_inode m k d (n_inode n) in
    match i with
    | None => Done (false, t, ns, k, d)
    | Some i =>
      let* t := setSize t dir (i_size i) in
      let* (block_buffer, k) := kmalloc k (m_block_size m) in
      if block_buffer =? 0 then Done (false, t, ns, k, d)
      else
        let* (t, ns, k, d) := loop (block_fuel m) (fun '(processed, block_index, t, ns, k, d) =>
          if processed <? i_size i then
            let* (b, k, d) := get_block m k d i block_index in
            match b with
            | None => Done (inr (t, ns, k, d))
            | Some block_number =>
              let* (r, blk, k, d) := bd_read k d (u32 (block_number * m_block_size m)) block_buffer (m_block_size m) in
              if negb (r =? RETURN_OK) then Done (inr (t, ns, k, d))
              else
                let* (processed, t, ns, k, d) := load_block m k d master dir (n_mount n) blk processed (i_size i) t ns in
                Done (inl (processed, block_index + 1, t, ns, k, d))
            end
          else Done (inr (t, ns, k, d))) (0, 0, t, ns, k, d) in
        let* k := kfree k block_buffer in
        Done (true, t, ns, k, d)
    end.

(** [Ext2Directory::scan]: the children are read once. *)
Definition ext2_scan (m : ext2_mount) (k : K) (d : D) (master dir : Z) (t : ftree) (ns : nodes)
    : outcome (ftree * nodes * K * D) :=
  let* n := of_option (ns !! dir) in
  if n_loaded n || (n_mount n =? 0) then Done (t, ns, k, d)
  else
    let* (ok, t, ns, k, d) := load_directory m k d master dir t ns in
    Done (t, (if ok : bool then <[dir := n <| n_loaded := true |>]> ns else ns), k, d).

(** [delete] of a directory: the root of a mount takes the mount with it; the
    objects below it go as they do for any file. *)
Definition delete_directory (fuel : nat) (m : ext2_mount) (k : K) (dir : Z) (t : ftree) (ns : nodes) : outcome (K * ftree * nodes) :=
  let* n := of_option (ns !! dir) in
  let* k := if n_owns n && negb (n_mount n =? 0) then delete_mount m k else Done k in
  let* t := delete_file fuel t dir in
  Done (k, t, filter (fun '(p, _) => is_Some (files t !! p)) ns).

(** [Ext2RegularFile::read] *)
Definition ext2_read (m : ext2_mount) (k : K) (d : D) (n : node) (pos buffer size : Z) : outcome (Z * list Z * K * D) :=
  if n_mount n =? 0 then Done (0, [], k, d)
  else
    let* (i, k, d) := read_inode m k d (n_inode n) in
    match i with
    | None => Done (0, [], k, d)
    | Some i => read_file_data m k d i pos buffer size
    end.

(** [Ext2Filesystem::mount]: the root directory of the device in the place of
    [mount_point]; 0 when it is no ext2 device.  [mount] is the number the new
    mount gets. *)
Definition ext2_mount_at (fuel : nat) (k : K) (d : D) (master mount mount_point : Z) (has_device : bool) (t : ftree) (ns : nodes)
    : outcome (Z * ext2_mount * ftree * nodes * K * D) :=
  if (mount_point =? 0) || negb has_device then Done (0, new_mount, t, ns, k, d)
  else
    let* (ok, m, k, d) := initialize new_mount k d in
    if negb ok then let* k := delete_mount m k in Done (0, m, t, ns, k, d)
    else
      let* f := getf t mount_point in
      let '(root, t, ns) := new_directory t ns master mount (fname f) EXT2_ROOT_INO true in
      let* t := delete_file fuel t mount_point in
      if negb (fparent f =? 0) then
        let* (_, t) := addChild t (fparent f) root in Done (root, m, t, ns, k, d)
      else
        let* t := setParent t root 0 in Done (root, m, t, ns, k, d).

End Ext2.
