(* ===== verification/Ext2Spec.v ===== *)
(** The ext2 driver's contract for files: [read_file_data] delivers the bytes
    of the file's blocks, direct and indirect, cut at the file's size, all of
    them when the allocator affords its requests ([KBudget]). *)

From Stdlib Require Import ZArith Lia.
From stdpp Require Import base list gmap option.
From S2P Require Import Unified UnifiedSpec.
From S2P Require Import Prelude Memory KAlloc Bytes FileTree BlockDevice BlockDeviceSpec Ext2.

(** Block [idx] of a file, read off the bytes of the device. *)
Definition block_at (m : ext2_mount) (l : list Z) (i : inode) (idx : Z) : option Z :=
  if idx <? 12 then nonzero (zget 0 (i_block i) idx)
  else if idx - 12 <? ptrs_per_block m then
    let indirect := zget 0 (i_block i) 12 in
    if indirect =? 0 then None
    else nonzero (le32 (sub (indirect * m_block_size m) (m_block_size m) l) (4 * (idx - 12)))
  else None.

(** The file [i] has the blocks [blocks] on the device with the bytes [l]. *)
Record file_on (m : ext2_mount) (l : list Z) (i : inode) (blocks : list (list Z)) : Prop := {
  fo_block idx blk : blocks !! idx = Some blk →
    ∃ b, block_at m l i (Z.of_nat idx) = Some b ∧ 0 <= b ∧ (b + 1) * m_block_size m <= zlen l ∧
      blk = sub (b * m_block_size m) (m_block_size m) l;
  fo_indirect : 12 < zlen blocks → 0 < zget 0 (i_block i) 12 ∧ (zget 0 (i_block i) 12 + 1) * m_block_size m <= zlen l;
  fo_size : 0 <= i_size i <= m_block_size m * zlen blocks;
}.

(** From [k] to [k'] at most [c] requests were made, of a budget of [q]. *)
Definition spent {K} `{KBudget K} (B : Z) (L : list Z) (q c : Z) (k' : K) : Prop := ∃ q', affords B k' L q' ∧ q - c <= q'.

(** Blocks of one size, one after the other. *)
Lemma sub_concat bs blocks idx blk :
  0 < bs → (∀ b, b ∈ blocks → zlen b = bs) → blocks !! idx = Some blk → sub (Z.of_nat idx * bs) bs (concat blocks) = blk.
Proof.
  intros Hbs Hall. revert idx. induction blocks as [|b blocks IH]; intros idx Hi; [done|].
  assert (zlen b = bs) as Hb by (apply Hall; set_solver). cbn [concat].
  destruct idx as [|idx]; cbn in Hi.
  - injection Hi as ->. cbn [Z.of_nat]. rewrite Z.mul_0_l. unfold sub. cbn [Z.to_nat]. rewrite drop_0.
    apply take_app_length'. unfold zlen in Hb. lia.
  - assert (∀ b, b ∈ blocks → zlen b = bs) as Hall' by (intros; apply Hall; set_solver).
    rewrite <- (IH Hall' idx Hi). unfold sub. f_equal.
    rewrite Nat2Z.inj_succ, Z.mul_succ_l, Z.add_comm, Z2Nat.inj_add by lia. apply drop_app_add'. unfold zlen in Hb. lia.
Qed.

Section Spec.
Context {D : Type} {ops : BlockOps D} {laws : BlockLaws D} {K : Type} {ka : KAlloc K} {kb : KBudget K}.
Context (B : Z).

Definition whole_device (d : D) : Prop := (block_size d | zlen (disk d)) ∧ zlen (disk d) < 2 ^ 32.

Lemma area_intro d pos size : whole_device d → 0 <= pos → 0 < size → pos + size <= zlen (disk d) → area d pos size.
Proof. intros [H1 H2] ? ? ?. by split. Qed.

Lemma same_disk_whole d d' : same_disk d d' → whole_device d → whole_device d'.
Proof. intros [E1 E2] [H1 H2]. split; congruence. Qed.

(** A read of the device gives its bytes, unless the one request it may make
    is refused. *)
Lemma bd_read_budget (k : K) L q d pos buffer size :
  affords B k L q → block_size d <= B →
  whole_device d → 0 <= pos → 0 < size → pos + size <= zlen (disk d) → buffer ≠ 0 →
  ∃ r out k' d', bd_read k d (u32 pos) buffer size = Done (r, out, k', d') ∧ same_disk d d' ∧ spent B L q 1 k' ∧
    (r = RETURN_OK ∧ out = sub pos size (disk d) ∨ r ≠ RETURN_OK ∧ q <= 0).
Proof.
  intros Ha HB W Hp Hs He Hbuf. rewrite u32_small by (destruct W; lia). pose proof (block_size_pos d) as Hbs.
  destruct (read_transfer_spec d pos size) as (d' & E & S); [by apply area_intro|]. unfold bd_read.
  rewrite (proj2 (Z.eqb_neq buffer 0)), (proj2 (Z.eqb_neq size 0)), (proj2 (Z.eqb_neq (block_size d) 0)) by lia. cbn [orb].
  destruct (Z.ltb_spec sizeof_temp_block (block_size d)) as [Hbig|Hsmall].
  - destruct (affords_kmalloc B k L q (block_size d) Ha (conj Hbs HB)) as (p & k1 & -> & [(-> & Hq & Ha1)|(Hp0 & Ha1)]); cbn [obind].
    { eexists _, _, k1, d. split; [done|]. split; [reflexivity|]. split; [exists q; split; [done|lia]|]. by right. }
    rewrite (proj2 (Z.eqb_neq p 0)), E by done. cbn [obind].
    destruct (affords_kfree B k1 p L _ Ha1) as (k2 & -> & Ha2). eexists _, _, k2, d'. split; [done|]. split; [done|].
    split; [exists (q - 1); split; [done|lia]|by left].
  - rewrite E. eexists _, _, k, d'. split; [done|]. split; [done|]. split; [exists q; split; [done|lia]|by left].
Qed.

(** The block is found, unless one of the two requests is refused. *)
Lemma get_block_budget m (k : K) L q d i blocks idx :
  affords B k L q → block_size d <= B → m_block_size m <= B →
  whole_device d → 0 < m_block_size m → file_on m (disk d) i blocks → 0 <= idx < zlen blocks →
  ∃ b k' d', get_block m k d i idx = Done (b, k', d') ∧ same_disk d d' ∧ spent B L q 2 k' ∧
    (b = block_at m (disk d) i idx ∨ b = None ∧ q <= 1).
Proof.
  intros Ha HBd HBm W Hbs F Hi. assert (spent B L q 2 k) as Sk by (exists q; split; [done|lia]).
  unfold get_block, block_at. destruct (Z.ltb_spec idx 12) as [Hlt|Hge]; [eexists _, k, d; split; [done|split; [reflexivity|split; [done|by left]]]|].
  destruct (Z.ltb_spec (idx - 12) (ptrs_per_block m)); [|eexists _, k, d; split; [done|split; [reflexivity|split; [done|by left]]]].
  destruct (fo_indirect _ _ _ _ F) as [Hind Hend]; [lia|]. rewrite (proj2 (Z.eqb_neq (zget 0 (i_block i) 12) 0)) by lia.
  destruct (affords_kmalloc B k L q (m_block_size m) Ha (conj Hbs HBm)) as (p & k1 & -> & [(-> & Hq & Ha1)|(Hp0 & Ha1)]); cbn [obind].
  { eexists _, k1, d. split; [done|]. split; [reflexivity|]. split; [exists q; split; [done|lia]|]. right. split; [done|lia]. }
  rewrite (proj2 (Z.eqb_neq p 0)) by done.
  destruct (bd_read_budget k1 (p :: L) (q - 1) d (zget 0 (i_block i) 12 * m_block_size m) p (m_block_size m))
    as (r & out & k2 & d2 & -> & S & (q2 & Ha2 & Hq2) & Hr); [done|done|done|nia|done|lia|done|].
  cbn [obind]. destruct (affords_kfree B k2 p L q2 Ha2) as (k3 & -> & Ha3). cbn [obind]. eexists _, k3, d2. split; [done|].
  split; [done|]. split; [exists q2; split; [done|lia]|].
  destruct Hr as [[-> ->]|[Hr Hq0]]; [by left|right]. rewrite (proj2 (Z.eqb_neq r RETURN_OK)) by done. split; [done|lia].
Qed.

(** Both, when the budget is enough. *)
Lemma spent_trans L q c1 c2 k' q1 : q - c1 <= q1 → spent B L q1 c2 k' → spent B L q (c1 + c2) k'.
Proof. intros Hq (q2 & Ha & Hq2). exists q2. split; [done|lia]. Qed.

Lemma bd_read_ok (k : K) L q d pos buffer size :
  affords B k L q → 1 <= q → block_size d <= B →
  whole_device d → 0 <= pos → 0 < size → pos + size <= zlen (disk d) → buffer ≠ 0 →
  ∃ k' d', bd_read k d (u32 pos) buffer size = Done (RETURN_OK, sub pos size (disk d), k', d') ∧ same_disk d d' ∧ spent B L q 1 k'.
Proof.
  intros Ha Hq HB W Hp Hs He Hbuf.
  destruct (bd_read_budget k L q d pos buffer size Ha HB W Hp Hs He Hbuf) as (r & out & k' & d' & E & S & Sp & [[-> ->]|[_ ?]]); [|lia].
  by exists k', d'.
Qed.

Lemma get_block_spec m (k : K) L q d i blocks idx :
  affords B k L q → 2 <= q → block_size d <= B → m_block_size m <= B →
  whole_device d → 0 < m_block_size m → file_on m (disk d) i blocks → 0 <= idx < zlen blocks →
  ∃ k' d', get_block m k d i idx = Done (block_at m (disk d) i idx, k', d') ∧ same_disk d d' ∧ spent B L q 2 k'.
Proof.
  intros Ha Hq HBd HBm W Hbs F Hi.
  destruct (get_block_budget m k L q d i blocks idx Ha HBd HBm W Hbs F Hi) as (b & k' & d' & E & S & Sp & [->|[_ ?]]); [|lia].
  by exists k', d'.
Qed.

(** A file has no block past the last pointer. *)
Lemma block_at_bound m l i idx b : 0 <= ptrs_per_block m → block_at m l i idx = Some b → idx < 12 + ptrs_per_block m.
Proof.
  intros Hp. unfold block_at. destruct (Z.ltb_spec idx 12); [lia|].
  destruct (Z.ltb_spec (idx - 12) (ptrs_per_block m)); [lia|done].
Qed.

(** [n] bytes of a block. *)
Lemma block_bytes m l i blocks idx :
  0 < m_block_size m → file_on m l i blocks → 0 <= idx < zlen blocks →
  ∃ b, block_at m l i idx = Some b ∧ 0 <= b ∧ (b + 1) * m_block_size m <= zlen l ∧
    sub (b * m_block_size m) (m_block_size m) l = sub (idx * m_block_size m) (m_block_size m) (concat blocks).
Proof.
  intros Hbs F Hi. unfold zlen in Hi. destruct (lookup_lt_is_Some_2 blocks (Z.to_nat idx)) as [blk E]; [lia|].
  destruct (fo_block _ _ _ _ F _ _ E) as (b & Eb & Hb & He & Eblk). rewrite Z2Nat.id in Eb by lia.
  exists b. split; [done|]. split; [done|]. split; [done|].
  rewrite <- Eblk. symmetry. rewrite <- (Z2Nat.id idx) at 1 by lia. apply sub_concat; [done| |done].
  intros b' Hb'. apply list_elem_of_lookup in Hb' as [j Ej]. destruct (fo_block _ _ _ _ F _ _ Ej) as (b0 & _ & H0 & H1 & ->).
  apply zlen_sub; nia.
Qed.

(** How many blocks [n] bytes from [offset] on lie in. *)
Definition touched m offset n : Z := (offset + n - 1) / m_block_size m - offset / m_block_size m + 1.

(** The state of the loop after [n - sz] bytes. *)
Definition read_so_far m d (blocks : list (list Z)) offset n L q
    (s : list Z * Z * Z * Z * K * D) : Prop :=
  let '(out, sz, idx, boff, k', d') := s in
  out = sub offset (n - sz) (concat blocks) ∧ 0 <= sz <= n ∧ 0 <= idx <= 12 + ptrs_per_block m ∧
  0 <= boff < m_block_size m ∧ (0 < sz → idx * m_block_size m + boff = offset + (n - sz)) ∧ same_disk d d' ∧
  offset / m_block_size m <= idx <= (offset + n - 1) / m_block_size m + 1 ∧
  spent B L q (3 * (idx - offset / m_block_size m)) k'.

(** What the loop ends with: the bytes up to a refused request. *)
Definition read_result m d (blocks : list (list Z)) offset n L q (r : list Z * K * D) : Prop :=
  ∃ j k' d', r = (sub offset j (concat blocks), k', d') ∧ 0 <= j <= n ∧ same_disk d d' ∧
    spent B L q (3 * touched m offset n) k' ∧ (3 * touched m offset n <= q → j = n).

Lemma read_blocks_spec m (k : K) L q d i blocks offset n buffer :
  affords B k L q → block_size d <= B → m_block_size m <= B →
  whole_device d → 0 < m_block_size m → 0 <= ptrs_per_block m → file_on m (disk d) i blocks →
  0 <= offset → 0 < n → offset + n <= i_size i → buffer ≠ 0 →
  ∃ r, read_blocks_loop m k d i buffer n (offset / m_block_size m) (offset mod m_block_size m) = Done r ∧
    read_result m d blocks offset n L q r.
Proof.
  intros Ha HBd HBm W Hbs Hptrs F Ho Hn He Hbuf. unfold read_blocks_loop, read_result, touched. set (bs := m_block_size m) in *.
  pose proof (fo_size _ _ _ _ F) as [_ Hsz]. fold bs in Hsz.
  assert (bs ≠ 0) as Hbs0 by lia. pose proof (Z.div_mod offset bs Hbs0) as Hdiv. pose proof (Z.mod_pos_bound offset bs Hbs) as Hmod.
  pose proof (Z.div_pos offset bs Ho Hbs) as Hd0.
  assert (∀ idx boff, 0 <= boff → idx * bs + boff < i_size i → idx < zlen blocks) as Hidx by (intros; nia).
  destruct (block_bytes m (disk d) i blocks (offset / bs)) as (b0 & Eb0 & _); [done|done|split; [done|apply (Hidx _ (offset mod bs)); lia]|].
  apply block_at_bound in Eb0; [|done]. pose proof (Z.div_le_mono offset (offset + n - 1) bs Hbs ltac:(lia)) as Hle.
  match goal with |- context [loop ?f ?body ?s0] =>
    destruct (loop_total (read_so_far m d blocks offset n L q) (read_result m d blocks offset n L q)
      (fun '(_, _, idx, _, _, _) => Z.to_nat (ptrs_per_block m + 13 - idx)) body) with (fuel := f) (s := s0)
      as (r & -> & R) end; [| | |by exists r].
  2: { split; [by rewrite Z.sub_diag|]. split; [lia|]. split; [lia|]. split; [done|]. split; [intros _; lia|]. split; [reflexivity|].
       fold bs. split; [lia|]. exists q. split; [done|lia]. }
  2: { unfold block_fuel. lia. }
  intros [[[[[out sz] idx] boff] k1] d1] (Hout & Hszr & Hi & Hb & Hat & S & Hrng & q1 & Ha1 & Hq1). fold bs in Hrng, Hq1, Hat, Hb.
  unfold read_result, touched. fold bs.
  destruct (Z.ltb_spec 0 sz) as [Hpos|Hz].
  2: { eexists. split; [reflexivity|]. exists n, k1, d1. split; [rewrite Hout; do 3 f_equal; lia|]. split; [lia|]. split; [done|].
       split; [exists q1; split; [done|lia]|done]. }
  specialize (Hat Hpos). assert (idx < zlen blocks) as Hlt by (apply (Hidx idx boff); lia).
  assert (idx <= (offset + n - 1) / bs) as Hlast by (apply Z.div_le_lower_bound; lia).
  pose proof S as [S1 S2]. assert (whole_device d1) as W1 by (by eapply same_disk_whole).
  assert (∀ k' d' q', same_disk d d' → affords B k' L q' → q1 - 3 <= q' → q1 <= 2 → ∃ j k0 d0,
    (out, k', d') = (sub offset j (concat blocks), k0, d0) ∧ 0 <= j <= n ∧ same_disk d d0 ∧
    spent B L q (3 * ((offset + n - 1) / bs - offset / bs + 1)) k0 ∧ (3 * ((offset + n - 1) / bs - offset / bs + 1) <= q → j = n)) as Hstop.
  { intros k' d' q' Sd Ha' Hq' Hlow. exists (n - sz), k', d'. split; [by rewrite Hout|]. split; [lia|]. split; [done|].
    split; [exists q'; split; [done|lia]|lia]. }
  destruct (get_block_budget m k1 L q1 d1 i blocks idx) as (bo & k2 & d2 & E2 & S' & (q2 & Ha2 & Hq2) & Hbo);
    [done|by rewrite S2|done|done|done|by rewrite S1|lia|].
  destruct (block_bytes m (disk d) i blocks idx) as (b & Eb & Hb0 & Hbe & Ebytes); [done|done|lia|].
  rewrite E2. cbn [obind]. pose proof (block_at_bound _ _ _ _ _ Hptrs Eb) as Hidx2. fold bs in Hbe, Ebytes.
  assert (same_disk d d2) as S3 by (by transitivity d1). pose proof S3 as [S4 S5].
  destruct Hbo as [->|[-> Hlow]]; [|eexists; split; [reflexivity|apply (Hstop _ _ q2); done || lia]]. rewrite S1, Eb.
  destruct (bd_read_budget k2 L q2 d2 (b * bs) buffer bs) as (r & bytes & k3 & d3 & E3 & S6 & (q3 & Ha3 & Hq3) & Hr);
    [done|by rewrite S5|by eapply same_disk_whole|nia|done|rewrite S4; lia|done|].
  rewrite E3. cbn [obind]. assert (same_disk d d3) as S7 by (by transitivity d2).
  destruct Hr as [[-> ->]|[Hr Hlow]].
  2: { rewrite (proj2 (Z.eqb_neq r RETURN_OK)) by done. cbn [negb]. eexists. split; [reflexivity|]. apply (Hstop _ _ q3); done || lia. }
  rewrite S4, Ebytes. change (negb (RETURN_OK =? RETURN_OK)) with false. cbv iota.
  eexists. split; [reflexivity|].
  set (chunk := if sz <? bs - boff then sz else bs - boff).
  assert (0 < chunk <= sz ∧ boff + chunk <= bs ∧ (chunk < sz → chunk = bs - boff)) as (Hc1 & Hc2 & Hc3).
  { unfold chunk. destruct (Z.ltb_spec sz (bs - boff)); lia. }
  clearbody chunk. split; [|lia]. split.
  - rewrite Hout, sub_sub by lia. rewrite Hat, sub_app by lia. f_equal. lia.
  - split; [lia|]. split; [lia|]. split; [lia|]. split; [intros; nia|]. split; [done|]. fold bs. split; [lia|].
    exists q3. split; [done|lia].
Qed.

Lemma zlen_concat bs (blocks : list (list Z)) : (∀ b, b ∈ blocks → zlen b = bs) → zlen (concat blocks) = bs * zlen blocks.
Proof.
  induction blocks as [|b blocks IH]; intros Hall; [unfold zlen; cbn; lia|]. cbn [concat].
  rewrite zlen_app, IH by (intros; apply Hall; set_solver). rewrite (Hall b) by set_solver. unfold zlen. cbn [length]. lia.
Qed.

Lemma file_on_length m l i blocks :
  0 < m_block_size m → file_on m l i blocks → zlen (concat blocks) = m_block_size m * zlen blocks.
Proof.
  intros Hbs F. apply zlen_concat. intros b Hb. apply list_elem_of_lookup in Hb as [j Ej].
  destruct (fo_block _ _ _ _ F _ _ Ej) as (b0 & _ & H0 & H1 & ->). apply zlen_sub; nia.
Qed.

(** The requests [read_file_data] makes for [n] bytes at [offset]. *)
Definition read_calls m offset n : Z := 1 + 3 * touched m offset n.

Lemma read_file_data_ok m (k : K) L q d i blocks offset buffer size n :
  affords B k L q → block_size d <= B → m_block_size m <= B →
  whole_device d → 0 < m_block_size m → 0 <= ptrs_per_block m → file_on m (disk d) i blocks →
  0 <= offset < i_size i → 0 < size → offset + size < 2 ^ 32 → buffer ≠ 0 → n = Z.min size (i_size i - offset) →
  ∃ j k' d', read_file_data m k d i offset buffer size = Done (j, sub offset j (concat blocks), k', d') ∧ 0 <= j <= n ∧
    (read_calls m offset n <= q → j = n) ∧ same_disk d d' ∧ spent B L q (read_calls m offset n) k'.
Proof.
  intros Ha HBd HBm W Hbs Hptrs F Ho Hsz Hov Hbuf Hn'. unfold read_file_data, read_calls.
  rewrite (proj2 (Z.eqb_neq buffer 0)), (proj2 (Z.eqb_neq size 0)) by lia. cbn [orb].
  rewrite (proj2 (Z.leb_gt (i_size i) offset)), (proj2 (Z.eqb_neq (m_block_size m) 0)), u32_small by lia.
  assert ((if i_size i <? offset + size then i_size i - offset else size) = n) as ->.
  { subst n. destruct (Z.ltb_spec (i_size i) (offset + size)); lia. }
  assert (0 < n ∧ offset + n <= i_size i) as [Hn He] by lia. clear Hn'.
  assert (0 <= touched m offset n) as Ht.
  { unfold touched. pose proof (Z.div_le_mono offset (offset + n - 1) (m_block_size m) Hbs ltac:(lia)). lia. }
  destruct (affords_kmalloc B k L q (m_block_size m) Ha (conj Hbs HBm)) as (p & k1 & -> & [(-> & Hq & Ha1)|(Hp0 & Ha1)]); cbn [obind].
  { exists 0, k1, d. split; [done|]. split; [lia|]. split; [lia|]. split; [reflexivity|]. exists q. split; [done|lia]. }
  rewrite (proj2 (Z.eqb_neq p 0)) by done.
  destruct (read_blocks_spec m k1 (p :: L) (q - 1) d i blocks offset n p Ha1 HBd HBm W Hbs Hptrs F)
    as (r & -> & j & k2 & d2 & -> & Hj & S & (q2 & Ha2 & Hq2) & Hfull); [lia|done|done|done|].
  cbn [obind]. destruct (affords_kfree B k2 p L q2 Ha2) as (k3 & -> & Ha3). exists j, k3, d2.
  split; [|split; [done|split; [intros; apply Hfull; lia|split; [done|exists q2; split; [done|lia]]]]]. cbn [obind].
  pose proof (fo_size _ _ _ _ F) as [_ Hl]. rewrite zlen_sub; [done|lia|lia|].
  rewrite (file_on_length m (disk d) i) by done. lia.
Qed.

(** C14. [read_file_data] delivers the bytes of the file from the offset on, as
    many as asked for and at most up to the file's size, through direct and
    indirect blocks, whatever the block sizes of the file system and of the
    device; of a file that is on the device, for an offset in it and a range
    below 2^32.  It makes at most one request for memory and three for each
    block of the range.  When the allocator affords that many it delivers all
    the bytes; when a request is refused it ends early with the bytes up to
    there, and says how many they are. *)
Theorem read_file_data_spec m (k : K) L q d i blocks offset buffer size :
  affords B k L q → block_size d <= B → m_block_size m <= B →
  whole_device d → 0 < m_block_size m → 0 <= ptrs_per_block m → file_on m (disk d) i blocks →
  0 <= offset < i_size i → 0 < size → offset + size < 2 ^ 32 → buffer ≠ 0 →
  let n := Z.min size (i_size i - offset) in
  ∃ j k' d', read_file_data m k d i offset buffer size = Done (j, sub offset j (concat blocks), k', d') ∧ 0 <= j <= n ∧
    (read_calls m offset n <= q → j = n) ∧ same_disk d d' ∧ spent B L q (read_calls m offset n) k'.
Proof. intros Ha HBd HBm W Hbs Hptrs F Ho Hsz Hov Hbuf n. by apply read_file_data_ok. Qed.

End Spec.

(** ** A file of two blocks *)

(** On the kernel's own [kmalloc], as the boot leaves it. *)
#[local] Instance boot_kalloc : KAlloc pool := pool_kalloc no_call 0.
#[local] Instance boot_budget : KBudget pool := pool_budget no_call 0.

Lemma boot_affords : affords 4076 early_pool [] 1000.
Proof. apply early_affords. lia. Qed.

(** Sixteen bytes in blocks of four for the device and for the files; the file
    is six bytes long, in blocks 3 and 1. *)
Definition mount4 : ext2_mount := mk_mount (mk_super 0 0 0 0 0 0) 0 [] 0 4 128 1.
Definition inode2 : inode := mk_inode 6 [3; 1; 0; 0; 0; 0; 0; 0; 0; 0; 0; 0; 0; 0; 0].
Definition blocks2 : list (list Z) := [[12; 13; 14; 15]; [4; 5; 6; 7]].

Lemma inode2_on : file_on mount4 (disk ram4) inode2 blocks2.
Proof.
  split; [|vm_compute; discriminate|cbn; unfold zlen; cbn; lia].
  intros [|[|idx]] blk E; cbn in E; [injection E as <-|injection E as <-|done].
  - exists 3. split; [reflexivity|]. split; [lia|]. split; [vm_compute; discriminate|reflexivity].
  - exists 1. split; [reflexivity|]. split; [lia|]. split; [vm_compute; discriminate|reflexivity].
Qed.

Lemma read_file_data_spec_witness :
  ∃ k' d', read_file_data mount4 early_pool ram4 inode2 1 64 100 = Done (5, [13; 14; 15; 4; 5], k', d').
Proof.
  destruct (read_file_data_spec 4076 mount4 early_pool [] 1000 ram4 inode2 blocks2 1 64 100) as (j & k' & d' & E & _ & Hj & _).
  - exact boot_affords.
  - discriminate.
  - discriminate.
  - split; [by exists 4|reflexivity].
  - reflexivity.
  - discriminate.
  - exact inode2_on.
  - split; [discriminate|reflexivity].
  - reflexivity.
  - reflexivity.
  - discriminate.
  - assert (j = 5) as -> by (apply Hj; discriminate). exists k', d'. exact E.
Defined.

(** When offset and size add up past 32 bits the size is not cut, and the
    bytes behind the end of the file are delivered. *)
Example read_past_end :
  match read_file_data mount4 early_pool ram4 inode2 1 64 (2 ^ 32 - 1) with Done (n, out, _, _) => Some (n, out) | _ => None end
  = Some (7, [13; 14; 15; 4; 5; 6; 7]).
Proof. vm_compute. reflexivity. Qed.
