(* ===== verification/Ext2DirSpec.v ===== *)
(** The ext2 driver's contract for directories: the entries of a block become
    the children of the directory, one object each, in front of the ones there
    are; and an inode is read from where the group descriptors say it is. *)

From Stdlib Require Import ZArith Lia.
From stdpp Require Import base list gmap option sets.
From coqutil Require Import Datatypes.RecordSetters.
From S2P Require Import Unified UnifiedSpec.
From S2P Require Import Prelude Memory KAlloc Bytes FileTree FileTreeSpec Chars BlockDevice BlockDeviceSpec Ext2 Ext2Spec.
Import TriangleBracketNotations.

(** ** Entries of a block *)

Record dirent := mk_dirent { de_inode : Z; de_rec : Z; de_type : Z; de_name : list Z }.

(** The block [blk] holds the entries [es] from [off] on, up to its end. *)
Fixpoint entries_at (blk : list Z) (off : Z) (es : list dirent) : Prop :=
  match es with
  | [] => off = zlen blk
  | e :: es =>
    le32 blk off = de_inode e ∧ le16 blk (off + 4) = de_rec e ∧ zget 0 blk (off + 6) = zlen (de_name e) ∧
    zget 0 blk (off + 7) = de_type e ∧ sub (off + sizeof_dir_entry) (zlen (de_name e)) blk = de_name e ∧ text (de_name e) ∧
    sizeof_dir_entry + zlen (de_name e) <= de_rec e ∧ entries_at blk (off + de_rec e) es
  end.

(** The entries that become files. *)
Definition kept (e : dirent) : bool :=
  negb (de_inode e =? 0) && (0 <? zlen (de_name e)) && negb (bool_decide (de_name e = DOT_NAME) || bool_decide (de_name e = DOTDOT_NAME))
  && ((de_type e =? EXT2_FT_DIR) || (de_type e =? EXT2_FT_REG_FILE) || (de_type e =? 0)).

Lemma entries_end blk off es : entries_at blk off es → off <= zlen blk ∧ Z.of_nat (length es) * 8 <= zlen blk - off.
Proof.
  revert off. induction es as [|e es IH]; intros off; [cbn; lia|]. cbn [entries_at length].
  intros (_ & _ & _ & _ & _ & _ & Hr & He). destruct (IH _ He). pose proof (zlen_nonneg (de_name e)). unfold sizeof_dir_entry in Hr. lia.
Qed.

Section Spec.
Context {D : Type} {ops : BlockOps D} {laws : BlockLaws D} {K : Type} {ka : KAlloc K} {kb : KBudget K}.
(** Requests of up to [B] bytes are made. *)
Context (B : Z).

Definition sized (m : ext2_mount) (d : D) : Prop := block_size d <= B ∧ m_block_size m <= B ∧ m_inode_size m <= B.

Lemma sized_same m d d' : same_disk d d' → sized m d → sized m d'.
Proof. intros [_ E] (H1 & H2 & H3). split; [congruence|done]. Qed.

(** ** Inodes *)

(** Where the inode [ino] lies on the device. *)
Definition inode_pos (m : ext2_mount) (ino : Z) : Z :=
  let index := ino - 1 in
  let group := index / s_inodes_per_group (super m) in
  le32 (groups m) (sizeof_group_desc * group + 8) * m_block_size m + u32 (index mod s_inodes_per_group (super m) * m_inode_size m).

Definition inode_at (m : ext2_mount) (l : list Z) (ino : Z) : inode := decode_inode (sub (inode_pos m ino) (m_inode_size m) l).

(** The device has it. *)
Record inode_ok (m : ext2_mount) (l : list Z) (ino : Z) : Prop := {
  io_ino : 0 < ino;
  io_groups : 0 < s_inodes_per_group (super m) ∧ (ino - 1) / s_inodes_per_group (super m) < group_count m;
  io_size : sizeof_inode <= m_inode_size m;
  io_pos : 0 <= inode_pos m ino ∧ inode_pos m ino + m_inode_size m <= zlen l;
}.

Lemma read_inode_spec m (k : K) hs q d ino :
  affords B k hs q → 2 <= q → sized m d → whole_device d → inode_ok m (disk d) ino →
  ∃ k' d', read_inode m k d ino = Done (Some (inode_at m (disk d) ino), k', d') ∧ same_disk d d' ∧ spent B hs q 2 k'.
Proof.
  intros Ha Hq (HBd & HBm & HBi) W [Hi [Hg Hgc] Hs [Hp He]]. unfold read_inode. rewrite (proj2 (Z.eqb_neq ino 0)) by lia.
  rewrite (proj2 (Z.eqb_neq (s_inodes_per_group (super m)) 0)) by lia. rewrite (proj2 (Z.leb_gt _ _)) by done.
  unfold sizeof_inode in Hs. assert (0 < m_inode_size m) as Hs0 by lia.
  destruct (affords_kmalloc B k hs q (m_inode_size m) Ha (conj Hs0 HBi)) as (p & k1 & -> & [(_ & ? & _)|(Hp0 & Ha1)]); [lia|].
  cbn [obind]. rewrite (proj2 (Z.eqb_neq p 0)) by done.
  destruct (bd_read_ok B k1 (p :: hs) (q - 1) d (inode_pos m ino) p (m_inode_size m)) as (k2 & d2 & E & S & q2 & Ha2 & Hq2);
    [done|lia|done|done|done|lia|done|done|].
  unfold inode_pos at 1 in E. cbv zeta in E. rewrite E. cbn [obind]. change (negb (RETURN_OK =? RETURN_OK)) with false. cbv iota.
  unfold sizeof_inode. rewrite (proj2 (Z.ltb_ge (m_inode_size m) 128)) by done.
  destruct (affords_kfree B k2 p hs q2 Ha2) as (k3 & -> & Ha3). exists k3, d2. split; [done|]. split; [done|].
  exists q2. split; [done|lia].
Qed.

(** ** Children *)

(** The object [p] is the file of the entry [e]. *)
Definition child_of (m : ext2_mount) (l : list Z) (mount : Z) (t : ftree) (ns : nodes) (p : Z) (e : dirent) : Prop :=
  (∃ f ino, getf t p = Done f ∧ content f = (checkName (de_name e), i_size (inode_at m l (de_inode e)),
     (if de_type e =? EXT2_FT_DIR then TYPE_DIRECTORY else TYPE_FILE), ino)) ∧
  ns !! p = Some (mk_node mount (de_inode e) (de_type e =? EXT2_FT_DIR) false false).

(** Addresses from [next_obj] on are free. *)
Definition fresh (t : ftree) : Prop := 0 < next_obj t ∧ ∀ p, next_obj t <= p → files t !! p = None.

Lemma fresh_dir t d l : fresh t → dir_ok t d l → d < next_obj t ∧ (∀ x, x ∈ l → x < next_obj t).
Proof.
  intros [_ Hf] ((f & Ef & _) & Hs & _). split.
  - destruct (decide (d < next_obj t)) as [|Hge]; [done|]. unfold getf in Ef. by rewrite Hf in Ef by lia.
  - intros x Hx. destruct (siblings_live _ _ _ _ _ Hs Hx) as (_ & g & Eg & _).
    destruct (decide (x < next_obj t)) as [|Hge]; [done|]. unfold getf in Eg. by rewrite Hf in Eg by lia.
Qed.

(** A new object of a size, put in front of the children of [dir]. *)
Lemma add_new_child t dir l master n ty size :
  fresh t → dir_ok t dir l →
  ∃ t1 t2 t3, new_file t master n ty = (next_obj t, t1) ∧ setSize t1 (next_obj t) size = Done t2 ∧
    addChild t2 dir (next_obj t) = Done (RETURN_OK, t3) ∧ dir_ok t3 dir (next_obj t :: l) ∧ fresh t3 ∧ next_obj t3 = next_obj t + 1 ∧
    (∃ f ino, getf t3 (next_obj t) = Done f ∧ content f = (checkName n, size, ty, ino)) ∧
    (∀ x f, getf t x = Done f → ∃ f', getf t3 x = Done f' ∧ content f' = content f).
Proof.
  intros Hfr Hdir. destruct (fresh_dir t dir l Hfr Hdir) as [Hd Hl]. destruct Hfr as [H0 Hfr]. set (p := next_obj t) in *.
  set (t1 := snd (new_file t master n ty)).
  assert (getf t1 p = Done (mk_file (checkName n) 0 ty (inode_system t) 0 master 0 0 0 0 0)) as E1.
  { unfold getf. cbn. by rewrite lookup_insert_eq. }
  assert (∀ x, x ≠ p → getf t1 x = getf t x) as O1 by (intros x Hx; unfold getf; cbn; by rewrite lookup_insert_ne).
  destruct (updf_spec t1 p (fun f => f <| fsize := size |>) _ E1) as (t2 & E2 & Hp2 & O2 & N2 & _).
  assert (∀ x, x ≠ p → getf t2 x = getf t x) as O12 by (intros x Hx; by rewrite O2, O1).
  assert (dir_ok t2 dir l) as Hdir2.
  { destruct Hdir as ((f & Ef & Hc) & Hs & Hn). split; [exists f; by rewrite O12 by lia|]. split; [|done].
    apply (siblings_frame t); [|done]. intros x Hx. apply O12. specialize (Hl x Hx). lia. }
  assert (p ∉ l) as Hpl by (intros Hx; specialize (Hl p Hx); lia).
  destruct (addChild_spec t2 dir l p _ Hdir2 Hp2) as (t3 & E3 & Hdir3 & N3 & _); [lia|lia|done|].
  pose proof (addChild_same _ _ _ _ _ E3) as [C3 D3 _].
  exists t1, t2, t3. split; [done|]. split; [done|]. split; [done|]. split; [done|].
  assert (next_obj t3 = p + 1) as N by (rewrite N3, N2; done).
  split; [split; [lia|]|].
  { intros q Hq. apply D3. assert (getf t2 q = getf t q) as Eq by (apply O12; lia). unfold getf in Eq.
    rewrite (Hfr q) in Eq by lia. by destruct (files t2 !! q). }
  split; [done|]. split.
  - destruct (C3 p _ Hp2) as (f & Ef & Hc). by exists f, (inode_system t).
  - intros x f Ef. destruct (decide (x = p)) as [->|Hx].
    + unfold getf in Ef. by rewrite Hfr in Ef by lia.
    + apply C3. by rewrite O12.
Qed.

(** ** Scanning *)

Section Scan.
Context (m : ext2_mount) (dir mount : Z) (L : list Z).

(** The numbers of the objects made for the entries [es], from [p] on. *)
Definition made (p : Z) (es : list dirent) : list Z := seqZ p (Z.of_nat (length (List.filter kept es))).

(** What has been done with the entries [es], from the tree [t0] with the
    nodes [ns0] and the children [l] on. *)
Record scanned (t0 : ftree) (ns0 : nodes) (l : list Z) (es : list dirent) (t : ftree) (ns : nodes) : Prop := {
  sc_dir : dir_ok t dir (rev (made (next_obj t0) es) ++ l);
  sc_fresh : fresh t;
  sc_next : next_obj t = next_obj t0 + Z.of_nat (length (List.filter kept es));
  sc_children : Forall2 (child_of m L mount t ns) (made (next_obj t0) es) (List.filter kept es);
  sc_old x f : getf t0 x = Done f → ∃ f', getf t x = Done f' ∧ content f' = content f;
  sc_nodes x : x < next_obj t0 → ns !! x = ns0 !! x;
}.

Lemma scanned_start t ns l : fresh t → dir_ok t dir l → scanned t ns l [] t ns.
Proof. intros Hf Hd. split; [done|done|cbn; lia|constructor|eauto|done]. Qed.

Lemma made_snoc p es e :
  kept e = true → made p (es ++ [e]) = made p es ++ [p + Z.of_nat (length (List.filter kept es))].
Proof.
  intros Hk. unfold made. rewrite List.filter_app. cbn [List.filter]. rewrite Hk, length_app. cbn [length].
  by rewrite Nat.add_1_r, seqZ_S.
Qed.

(** An entry that is no file, and one that is. *)
Lemma scanned_skip t0 ns0 l es e t ns : kept e = false → scanned t0 ns0 l es t ns → scanned t0 ns0 l (es ++ [e]) t ns.
Proof.
  intros Hk [H1 H2 H3 H4 H5 H6]. assert (List.filter kept (es ++ [e]) = List.filter kept es) as E.
  { rewrite List.filter_app. cbn. by rewrite Hk, app_nil_r. }
  split; unfold made in *; rewrite ?E; done.
Qed.

Lemma scanned_add t0 ns0 l es e t ns t' n :
  kept e = true → scanned t0 ns0 l es t ns → 
  dir_ok t' dir (next_obj t :: rev (made (next_obj t0) es) ++ l) → fresh t' → next_obj t' = next_obj t + 1 →
  (∃ f ino, getf t' (next_obj t) = Done f ∧ content f = (checkName (de_name e), i_size (inode_at m L (de_inode e)),
     (if de_type e =? EXT2_FT_DIR then TYPE_DIRECTORY else TYPE_FILE), ino)) →
  (∀ x f, getf t x = Done f → ∃ f', getf t' x = Done f' ∧ content f' = content f) →
  n = mk_node mount (de_inode e) (de_type e =? EXT2_FT_DIR) false false →
  scanned t0 ns0 l (es ++ [e]) t' (<[next_obj t := n]> ns).
Proof.
  intros Hk [H1 H2 H3 H4 H5 H6] Hd Hf Hn Hc Hkeep ->.
  assert (List.filter kept (es ++ [e]) = List.filter kept es ++ [e]) as E by (rewrite List.filter_app; cbn; by rewrite Hk).
  split.
  - rewrite made_snoc, rev_app_distr by done. cbn [rev app]. by rewrite <- H3.
  - done.
  - rewrite E, length_app. cbn [length]. lia.
  - rewrite made_snoc, E by done. apply Forall2_app.
    + eapply Forall2_impl; [exact H4|]. intros p e' [(f & ino & Ef & Ec) Hns]. split.
      * destruct (Hkeep p f Ef) as (f' & Ef' & Ec'). exists f', ino. split; [done|congruence].
      * etrans; [apply lookup_insert_ne|done]. intros <-. unfold getf in Ef. by rewrite (proj2 H2) in Ef.
    + rewrite <- H3. constructor; [|constructor]. split; [done|by apply lookup_insert_eq].
  - intros x f Ef. destruct (H5 x f Ef) as (f1 & E1 & C1). destruct (Hkeep x f1 E1) as (f2 & E2 & C2). exists f2. split; [done|congruence].
  - intros x Hx. etrans; [apply lookup_insert_ne; lia|by apply H6].
Qed.

(** What the code looks at before it reads the inode of an entry. *)
Definition named (e : dirent) : bool :=
  negb (de_inode e =? 0) && (0 <? zlen (de_name e)) && negb (bool_decide (de_name e = DOT_NAME) || bool_decide (de_name e = DOTDOT_NAME)).

Lemma load_entry_spec k hs q d master blk off e es t0 ns0 l done_ t ns :
  affords B k hs q → 2 <= q → sized m d → whole_device d → disk d = L → zlen blk = m_block_size m → entries_at blk off (e :: es) →
  (named e = true → inode_ok m L (de_inode e)) → scanned t0 ns0 l done_ t ns →
  ∃ t' ns' k' d', load_entry m k d master dir mount blk off t ns = Done (t', ns', k', d') ∧ same_disk d d' ∧
    spent B hs q 2 k' ∧ scanned t0 ns0 l (done_ ++ [e]) t' ns'.
Proof.
  intros Ha Hq Hsz W HL Hbs He Hino S. assert (spent B hs q 2 k) as Sk by (exists q; split; [done|lia]).
  cbn [entries_at] in He. destruct He as (E0 & _ & E6 & E7 & Esub & Htext & Hrec & Hes).
  unfold load_entry. rewrite E0, E6, E7. unfold named in Hino.
  assert (kept e = named e && ((de_type e =? EXT2_FT_DIR) || (de_type e =? EXT2_FT_REG_FILE) || (de_type e =? 0))) as Hk by done.
  unfold named in Hk. destruct (negb (de_inode e =? 0) && (0 <? zlen (de_name e))) eqn:Eg; cbn [andb] in *.
  2:{ exists t, ns, k, d. split; [done|]. split; [reflexivity|]. split; [done|]. by apply scanned_skip. }
  pose proof (entries_end _ _ _ Hes) as [Hend _]. rewrite (proj2 (Z.ltb_ge _ _)) by lia. rewrite Esub.
  rewrite c_str_whole by done.
  destruct (bool_decide (de_name e = DOT_NAME) || bool_decide (de_name e = DOTDOT_NAME)); cbn [negb andb] in *.
  { exists t, ns, k, d. split; [done|]. split; [reflexivity|]. split; [done|]. by apply scanned_skip. }
  rewrite <- HL in Hino. destruct (read_inode_spec m k hs q d (de_inode e) Ha Hq Hsz W (Hino eq_refl)) as (k' & d' & -> & Sd & Sp). cbn [obind].
  rewrite HL. set (i := inode_at m L (de_inode e)).
  pose proof (sc_dir _ _ _ _ _ _ S) as Hdir. pose proof (sc_fresh _ _ _ _ _ _ S) as Hfr.
  destruct (de_type e =? EXT2_FT_DIR) eqn:Edir.
  - cbn [orb] in Hk. destruct (add_new_child t dir _ master (de_name e) TYPE_DIRECTORY (i_size i) Hfr Hdir)
      as (t1 & t2 & t3 & E1 & E2 & E3 & Hd3 & Hf3 & Hn3 & Hc3 & Hk3).
    unfold new_directory. rewrite E1, E2. cbn [obind]. rewrite E3. cbn [obind]. eexists _, _, k', d'. do 3 (split; [done|]).
    eapply scanned_add; try done; rewrite Edir; done.
  - cbn [orb] in Hk. destruct ((de_type e =? EXT2_FT_REG_FILE) || (de_type e =? 0)).
    + destruct (add_new_child t dir _ master (de_name e) TYPE_FILE (i_size i) Hfr Hdir)
        as (t1 & t2 & t3 & E1 & E2 & E3 & Hd3 & Hf3 & Hn3 & Hc3 & Hk3).
      unfold new_regular. rewrite E1, E2. cbn [obind]. rewrite E3. cbn [obind]. eexists _, _, k', d'. do 3 (split; [done|]).
      eapply scanned_add; try done; rewrite Edir; done.
    + exists t, ns, k', d'. do 3 (split; [done|]). by apply scanned_skip.
Qed.

(** The entries of a block whose end the directory's size reaches. *)
Lemma load_block_spec k hs q d master blk es processed total t0 ns0 l done_ t ns :
  affords B k hs q → 2 * zlen es <= q → sized m d → whole_device d → disk d = L → 0 < m_block_size m → zlen blk = m_block_size m → entries_at blk 0 es →
  (∀ e, e ∈ es → named e = true → inode_ok m L (de_inode e)) → 0 <= processed → processed + m_block_size m <= total < 2 ^ 32 →
  scanned t0 ns0 l done_ t ns →
  ∃ t' ns' k' d', load_block m k d master dir mount blk processed total t ns
    = Done (processed + m_block_size m, t', ns', k', d') ∧ same_disk d d' ∧ spent B hs q (2 * zlen es) k' ∧
    scanned t0 ns0 l (done_ ++ es) t' ns'.
Proof.
  intros Ha Hq Hsz W HL Hbs Hlen He Hino Hp0 Hp S. unfold load_block.
  assert (∃ off, off = 0 ∧ 0 <= off) as (off & Hoff & Hoff0) by (by exists 0).
  assert (entries_at blk off es) as He' by (by subst off).
  assert (processed + (m_block_size m - off) = processed + m_block_size m) as Hend by lia. rewrite <- Hend. rewrite <- Hend in Hp.
  replace (processed, 0, t, ns, k, d) with (processed, off, t, ns, k, d) by (by subst off). clear Hend He Hoff.
  assert (length es < Datatypes.S (Z.to_nat (m_block_size m)))%nat as Hf.
  { destruct (entries_end _ _ _ He'). lia. }
  revert Ha Hq Hsz W HL Hino S Hp Hp0 Hf. generalize (Datatypes.S (Z.to_nat (m_block_size m))) as fuel. intros fuel.
  revert fuel k q d processed off done_ t ns Hoff0 He'.
  induction es as [|e es IH]; intros fuel k q d processed off done_ t ns Hoff0 He Ha Hq Hsz W HL Hino S Hp Hp0 Hf;
    (destruct fuel as [|fuel]; [cbn in Hf; lia|]); cbn [loop].
  - cbn [entries_at] in He. rewrite (proj2 (Z.ltb_ge off _)) by lia. cbn [andb]. exists t, ns, k, d.
    rewrite app_nil_r. replace (processed + (m_block_size m - off)) with processed by lia.
    do 2 (split; [done|]). split; [exists q; split; [done|change (zlen []) with 0; lia]|done].
  - pose proof (entries_end _ _ _ He) as [_ Hlt]. cbn [length] in Hlt, Hf. rewrite !(proj2 (Z.ltb_lt _ _)) by lia. cbn [andb].
    pose proof He as (_ & Erec & _ & _ & _ & _ & Hrec & Hes). pose proof (entries_end _ _ _ Hes) as [Hend _].
    pose proof (zlen_nonneg (de_name e)). unfold sizeof_dir_entry in Hrec.
    rewrite (proj2 (Z.ltb_ge (m_block_size m) _)) by (unfold sizeof_dir_entry; lia). rewrite Erec, (proj2 (Z.eqb_neq (de_rec e) 0)) by lia.
    rewrite zlen_cons in Hq |- *. pose proof (zlen_nonneg es).
    destruct (load_entry_spec k hs q d master blk off e es t0 ns0 l done_ t ns Ha ltac:(lia) Hsz W HL Hlen He)
      as (t1 & ns1 & k1 & d1 & -> & S1 & (q1 & Ha1 & Hq1) & Sc1);
      [apply Hino; by left|done|]. cbn [obind]. rewrite u32_small by lia.
    destruct (IH fuel k1 q1 d1 (processed + de_rec e) (off + de_rec e) (done_ ++ [e]) t1 ns1)
      as (t2 & ns2 & k2 & d2 & E & S2 & (q2 & Ha2 & Hq2) & Sc2);
      [lia|done|done|lia|by eapply sized_same|by eapply same_disk_whole|by rewrite (proj1 S1)|intros; apply Hino; [by right|done]|done|lia|lia|lia|].
    exists t2, ns2, k2, d2. rewrite E.
    replace (processed + de_rec e + (m_block_size m - (off + de_rec e))) with (processed + (m_block_size m - off)) by lia. split; [done|].
    split; [by transitivity d1|]. split; [exists q2; split; [done|lia]|]. by rewrite <- app_assoc in Sc2.
Qed.

(** ** A whole directory *)

(** The directory with the inode [i] has the entries [ess], block by block. *)
Record dir_on (i : inode) (blocks : list (list Z)) (ess : list (list dirent)) : Prop := {
  do_file : file_on m L i blocks;
  do_size : i_size i = m_block_size m * zlen blocks ∧ i_size i < 2 ^ 32;
  do_entries : Forall2 (fun blk es => entries_at blk 0 es) blocks ess;
  do_inodes e : e ∈ concat ess → named e = true → inode_ok m L (de_inode e);
}.

(** One turn of the loop of [load_directory]. *)
Definition dir_step (master : Z) (i : inode) (buffer : Z) (st : Z * Z * ftree * nodes * K * D)
    : outcome (Z * Z * ftree * nodes * K * D + ftree * nodes * K * D) :=
  let '(processed, block_index, t, ns, k, d) := st in
  if processed <? i_size i then
    let* (b, k, d) := get_block m k d i block_index in
    match b with
    | None => Done (inr (t, ns, k, d))
    | Some block_number =>
      let* (r, blk, k, d) := bd_read k d (u32 (block_number * m_block_size m)) buffer (m_block_size m) in
      if negb (r =? RETURN_OK) then Done (inr (t, ns, k, d))
      else
        let* (processed, t, ns, k, d) := load_block m k d master dir mount blk processed (i_size i) t ns in
        Done (inl (processed, block_index + 1, t, ns, k, d))
    end
  else Done (inr (t, ns, k, d)).

(** The requests for the blocks from [j] on: three a block, two an entry. *)
Definition dir_calls (r : nat) (ess : list (list dirent)) (j : nat) : Z := 3 * Z.of_nat r + 2 * zlen (concat (drop j ess)).

Lemma dir_loop master i buffer blocks ess t0 ns0 l fuel r j t ns k hs q d :
  affords B k hs q → dir_calls r ess j <= q → sized m d → buffer ≠ 0 → 0 < m_block_size m → dir_on i blocks ess → (j + r)%nat = length blocks → (r < fuel)%nat →
  whole_device d → disk d = L → scanned t0 ns0 l (concat (take j ess)) t ns →
  ∃ t' ns' k' d', loop fuel (dir_step master i buffer) (m_block_size m * Z.of_nat j, Z.of_nat j, t, ns, k, d) = Done (t', ns', k', d') ∧
    same_disk d d' ∧ spent B hs q (dir_calls r ess j) k' ∧ scanned t0 ns0 l (concat ess) t' ns'.
Proof.
  intros Ha0 Hq0 Hszd0 Hbuf Hbs [F [Hsz Hmax] Hes Hino]. pose proof (Forall2_length _ _ _ Hes) as Hlen.
  revert Ha0 Hq0 Hszd0. revert fuel j t ns k q d.
  induction r as [|r IH]; intros fuel j t ns k q d Ha Hq Hszd Hj Hf W HL S; (destruct fuel as [|fuel]; [lia|]);
    cbn [loop]; unfold dir_step at 1; rewrite Hsz; unfold zlen.
  - rewrite (proj2 (Z.ltb_ge _ _)) by nia. exists t, ns, k, d. split; [done|]. split; [reflexivity|].
    split; [|by rewrite take_ge in S by lia]. exists q. split; [done|]. unfold dir_calls. pose proof (zlen_nonneg (concat (drop j ess))). lia.
  - rewrite (proj2 (Z.ltb_lt _ _)) by nia.
    destruct (lookup_lt_is_Some_2 blocks j) as [blk Hblk]; [lia|].
    destruct (Forall2_lookup_l _ _ _ _ _ Hes Hblk) as (es & Hes_j & He).
    assert (dir_calls (Datatypes.S r) ess j = 3 + 2 * zlen es + dir_calls r ess (Datatypes.S j)) as Ecalls.
    { unfold dir_calls. rewrite (drop_S ess es j) by done. cbn [concat]. rewrite zlen_app. lia. }
    rewrite Ecalls in *. pose proof (zlen_nonneg es).
    assert (0 <= dir_calls r ess (Datatypes.S j)) by (unfold dir_calls; pose proof (zlen_nonneg (concat (drop (Datatypes.S j) ess))); lia).
    rewrite <- HL in F. pose proof Hszd as (HBd & HBm & _).
    destruct (get_block_spec B m k hs q d i blocks (Z.of_nat j) Ha ltac:(lia) HBd HBm W Hbs F)
      as (k1 & d1 & -> & S1 & (q1 & Ha1 & Hq1)); [unfold zlen; lia|].
    cbn [obind]. destruct (fo_block _ _ _ _ F j blk Hblk) as (b & -> & Hb0 & Hbe & Eblk). pose proof S1 as [D1 B1].
    destruct (bd_read_ok B k1 hs q1 d1 (b * m_block_size m) buffer (m_block_size m)) as (k2 & d2 & -> & S2 & (q2 & Ha2 & Hq2));
      [done|lia|by rewrite B1|by eapply same_disk_whole|nia|done|rewrite D1; lia|done|]. cbn [obind].
    change (negb (RETURN_OK =? RETURN_OK)) with false. cbv iota. rewrite D1, <- Eblk. pose proof S2 as [D2 B2].
    assert (m_block_size m * Z.of_nat j + m_block_size m <= i_size i) as Hnext by (rewrite Hsz; unfold zlen; nia).
    assert (zlen blk = m_block_size m) as Hbl by (rewrite Eblk; apply zlen_sub; lia || nia).
    assert (same_disk d d2) as S02 by (by transitivity d1).
    destruct (load_block_spec k2 hs q2 d2 master blk es (m_block_size m * Z.of_nat j) (i_size i) t0 ns0 l (concat (take j ess)) t ns)
      as (t3 & ns3 & k3 & d3 & E3 & S3 & (q3 & Ha3 & Hq3) & Sc3);
      [done|lia|by eapply sized_same|by eapply same_disk_whole; [exact S2|eapply same_disk_whole]|by rewrite D2, D1|done|done|done| |nia|by split|done|].
    { intros e Hin. apply Hino. apply list_elem_of_In, in_concat. exists es. split; apply list_elem_of_In; [by eapply list_elem_of_lookup_2|done]. }
    rewrite Hsz in E3. unfold zlen in E3. rewrite E3. cbn [obind].
    assert (concat (take (Datatypes.S j) ess) = concat (take j ess) ++ es) as Ecat.
    { rewrite (take_S_r _ _ es), concat_app by done. cbn. by rewrite app_nil_r. }
    replace (m_block_size m * Z.of_nat j + m_block_size m) with (m_block_size m * Z.of_nat (Datatypes.S j)) by (rewrite Nat2Z.inj_succ; ring).
    replace (Z.of_nat j + 1) with (Z.of_nat (Datatypes.S j)) by lia.
    assert (same_disk d d3) as S03 by (by transitivity d2).
    destruct (IH fuel (Datatypes.S j) t3 ns3 k3 q3 d3) as (t4 & ns4 & k4 & d4 & -> & S4 & (q4 & Ha4 & Hq4) & Sc4);
      [done|lia|by eapply sized_same|lia|lia|by eapply same_disk_whole; [exact S3|eapply same_disk_whole; [exact S2|eapply same_disk_whole]]
      |by rewrite (proj1 S3), D2, D1|by rewrite Ecat|].
    exists t4, ns4, k4, d4. split; [done|]. split; [by transitivity d3|]. split; [exists q4; split; [done|lia]|done].
Qed.

(** Setting a size keeps the tree well formed. *)
Lemma setSize_ok t d l v f :
  fresh t → dir_ok t d l → getf t d = Done f →
  ∃ t1, setSize t d v = Done t1 ∧ fresh t1 ∧ dir_ok t1 d l ∧ next_obj t1 = next_obj t ∧ getf t1 d = Done (f <| fsize := v |>) ∧
    ∀ x, x ≠ d → getf t1 x = getf t x.
Proof.
  intros [H0 Hf] Hd Ef. destruct (updf_spec t d (fun f => f <| fsize := v |>) f Ef) as (t1 & E & Hd1 & O & N & _).
  exists t1. split; [done|]. destruct Hd as ((f' & Ef' & Hc) & Hs & Hn & Hdl & Hd0). rewrite Ef in Ef'. injection Ef' as <-.
  split; [split; [lia|]|].
  - intros p Hp. rewrite N in Hp. destruct (decide (p = d)) as [->|Hne].
    + unfold getf in Ef. by rewrite Hf in Ef.
    + specialize (O p Hne). unfold getf in O. rewrite Hf in O by done. by destruct (files t1 !! p).
  - split; [|done]. split; [by eexists|]. split; [|done]. apply (siblings_frame t); [|done]. intros x Hx. apply O. by intros ->.
Qed.
End Scan.

(** The requests of a whole [scan]: the inode, the buffer for the blocks, the
    blocks and the inodes of the entries. *)
Definition scan_calls (ess : list (list dirent)) : Z := 3 + dir_calls (length ess) ess 0.

(** [scan] of a directory that has not been read. *)
Lemma ext2_scan_ok m (k : K) hs q d master dir n t ns l blocks ess f :
  affords B k hs q → scan_calls ess <= q → sized m d →
  whole_device d → 0 < m_block_size m → 0 <= ptrs_per_block m →
  ns !! dir = Some n → n_loaded n = false → n_mount n ≠ 0 → inode_ok m (disk d) (n_inode n) →
  dir_on m (disk d) (inode_at m (disk d) (n_inode n)) blocks ess →
  fresh t → dir_ok t dir l → getf t dir = Done f →
  ∃ t1 t' ns' k' d', ext2_scan m k d master dir t ns = Done (t', ns', k', d') ∧ same_disk d d' ∧ spent B hs q (scan_calls ess) k' ∧
    setSize t dir (i_size (inode_at m (disk d) (n_inode n))) = Done t1 ∧
    (∃ ns2, ns' = <[dir := n <| n_loaded := true |>]> ns2 ∧ scanned m dir (n_mount n) (disk d) t1 ns l (concat ess) t' ns2).
Proof.
  intros Ha Hq Hsz W Hbs Hptr Hn Hload Hmount Hino Hon Hfr Hdir Ef.
  assert (dir ≠ 0) as Hdir0 by apply Hdir. set (i := inode_at m (disk d) (n_inode n)) in *. unfold scan_calls in *.
  assert (0 <= dir_calls (length ess) ess 0) as Hc0 by (unfold dir_calls; pose proof (zlen_nonneg (concat (drop 0 ess))); lia).
  destruct (read_inode_spec m k hs q d (n_inode n) Ha ltac:(lia) Hsz W Hino) as (k1 & d1 & E1 & S1 & (q1 & Ha1 & Hq1)).
  destruct (setSize_ok t dir l (i_size i) f Hfr Hdir Ef) as (t1 & Ht1 & Hfr1 & Hdir1 & _).
  destruct (affords_kmalloc B k1 hs q1 (m_block_size m) Ha1 (conj Hbs (proj1 (proj2 Hsz))))
    as (buf & k2 & Ebuf & [(_ & ? & _)|(Hbuf & Ha2)]); [lia|].
  pose proof (Forall2_length _ _ _ (do_entries _ _ _ _ _ Hon)) as Hlen.
  destruct (dir_loop m dir (n_mount n) (disk d) master i buf blocks ess t1 ns l (block_fuel m) (length ess) 0 t1 ns k2 (buf :: hs) (q1 - 1) d1)
    as (t2 & ns2 & k3 & d3 & E2 & S2 & (q3 & Ha3 & Hq3) & Sc2);
    [done|lia|by eapply sized_same|done|done|done|lia| |by eapply same_disk_whole|by apply S1|by apply scanned_start|].
  { rewrite <- Hlen. pose proof (do_file _ _ _ _ _ Hon) as F. unfold block_fuel. destruct (decide (length blocks = 0%nat)); [lia|].
    destruct (block_bytes m (disk d) i blocks (zlen blocks - 1) Hbs F) as (b & Eb & _); [unfold zlen; lia|].
    pose proof (block_at_bound _ _ _ _ _ Hptr Eb) as Hlt. unfold zlen in Hlt. lia. }
  destruct (affords_kfree B k3 buf hs q3 Ha3) as (k4 & Ek4 & Ha4).
  assert (load_directory m k d master dir t ns = Done (true, t2, ns2, k4, d3)) as Eload.
  { unfold load_directory. rewrite (proj2 (Z.eqb_neq dir 0)) by done. rewrite Hn. cbn [of_option obind].
    rewrite E1. cbn [obind]. fold i. rewrite Ht1. cbn [obind]. rewrite Ebuf. cbn [obind]. rewrite (proj2 (Z.eqb_neq buf 0)) by done.
    change (Z.of_nat 0) with 0 in E2. rewrite Z.mul_0_r in E2. unfold dir_step in E2. rewrite E2. cbn [obind]. by rewrite Ek4. }
  exists t1, t2, (<[dir := n <| n_loaded := true |>]> ns2), k4, d3. split; [|split; [|split; [|split]]].
  - unfold ext2_scan. rewrite Hn. cbn [of_option obind]. rewrite Hload, (proj2 (Z.eqb_neq (n_mount n) 0)) by done. cbn [orb].
    by rewrite Eload.
  - by transitivity d1.
  - exists q3. split; [done|lia].
  - done.
  - by exists ns2.
Qed.

(** C16. Scanning a directory.  [scan] of a directory whose inode and blocks are
    on the device, with an allocator that serves the requests of at most three
    for the inode and the buffer, three for each block and two for each entry,
    none larger than a block or an inode, ends, with the directory's size set;
    every entry that is a file or a directory, but [.] and [..], has become a
    new object, in front of the children there were, with the entry's name (as
    names are kept), its inode's size and its type; nothing else changed but
    links and the driver's record that it is done; and a second [scan] does
    nothing. *)
Theorem ext2_scan_spec m (k : K) hs q d master dir n t ns l blocks ess f :
  affords B k hs q → scan_calls ess <= q → sized m d →
  whole_device d → 0 < m_block_size m → 0 <= ptrs_per_block m →
  ns !! dir = Some n → n_loaded n = false → n_mount n ≠ 0 → inode_ok m (disk d) (n_inode n) →
  dir_on m (disk d) (inode_at m (disk d) (n_inode n)) blocks ess →
  fresh t → dir_ok t dir l → getf t dir = Done f →
  ∃ t1 t' ns' k' d', ext2_scan m k d master dir t ns = Done (t', ns', k', d') ∧ same_disk d d' ∧ spent B hs q (scan_calls ess) k' ∧
    setSize t dir (i_size (inode_at m (disk d) (n_inode n))) = Done t1 ∧
    (∃ ns2, ns' = <[dir := n <| n_loaded := true |>]> ns2 ∧ scanned m dir (n_mount n) (disk d) t1 ns l (concat ess) t' ns2) ∧
    ∀ k2 d2, ext2_scan m k2 d2 master dir t' ns' = Done (t', ns', k2, d2).
Proof.
  intros Ha Hq Hsz W Hbs Hptr Hn Hload Hmount Hino Hon Hfr Hdir Ef.
  destruct (ext2_scan_ok m k hs q d master dir n t ns l blocks ess f Ha Hq Hsz W Hbs Hptr Hn Hload Hmount Hino Hon Hfr Hdir Ef)
    as (t1 & t2 & ns2 & k2 & d2 & E & S & Sp & E1 & (ns3 & -> & Sc)).
  exists t1, t2, (<[dir := n <| n_loaded := true |>]> ns3), k2, d2. do 4 (split; [done|]). split; [by exists ns3|].
  intros k5 d5. unfold ext2_scan. by setoid_rewrite lookup_insert_eq.
Qed.
End Spec.

(** ** A small device *)

#[local] Existing Instance boot_kalloc.
#[local] Existing Instance boot_budget.

(** Nine blocks of 64 bytes: inodes 2 and 3 in blocks 3 to 6, and block 8 with
    the directory of inode 2: itself, and the file [a] of five bytes. *)
Definition inode_bytes (size block : Z) : list Z :=
  replicate 4 0 ++ [size; 0; 0; 0] ++ replicate 32 0 ++ [block; 0; 0; 0] ++ replicate 84 0.
Definition dir_block : list Z :=
  [2; 0; 0; 0; 12; 0; 1; 2; 46; 0; 0; 0] ++ [3; 0; 0; 0; 52; 0; 1; 1; 97] ++ replicate 43 0.
Definition small_disk : list Z := replicate 192 0 ++ inode_bytes 64 8 ++ inode_bytes 5 7 ++ replicate 64 0 ++ dir_block.
Definition small : ram := mk_ram 64 small_disk.
Definition mount64 : ext2_mount :=
  mk_mount (mk_super 9 0 64 4 EXT2_SUPER_MAGIC 128) 4096 (replicate 8 0 ++ [1; 0; 0; 0] ++ replicate 20 0) 1 64 128 16.
Definition small_entries : list (list dirent) := [[mk_dirent 2 12 2 [46]; mk_dirent 3 52 1 [97]]].

Definition root_tree : ftree := snd (new_file (mk_ftree ∅ 0x1000 0) 0 [114] TYPE_DIRECTORY).
Definition root_nodes : nodes := {[ 0x1000 := mk_node 7 2 true false true ]}.

Lemma small_inode ino : ino = 2 ∨ ino = 3 → inode_ok mount64 (disk small) ino.
Proof. intros [-> | ->]; split; try (split; vm_compute; congruence); vm_compute; congruence. Qed.

Lemma small_dir : dir_on mount64 (disk small) (inode_at mount64 (disk small) 2) [dir_block] small_entries.
Proof.
  split.
  - split; [|vm_compute; discriminate|vm_compute; split; congruence].
    intros [|idx] blk E; cbn in E; [injection E as <-|done].
    exists 8. split; [reflexivity|]. split; [lia|]. split; [vm_compute; congruence|reflexivity].
  - vm_compute. split; congruence.
  - constructor; [|constructor]. cbn [entries_at]. repeat (split; [first [reflexivity|repeat constructor; lia|vm_compute; congruence]|]). reflexivity.
  - intros e He Hn. apply small_inode. cbn in He. apply elem_of_cons in He as [->|He]; [by left|].
    apply elem_of_cons in He as [->|He]; [by right|]. by apply elem_of_nil in He.
Qed.

Lemma ext2_scan_spec_witness :
  ∃ t' ns' k' d', ext2_scan mount64 early_pool small 0 0x1000 root_tree root_nodes = Done (t', ns', k', d') ∧
    dir_ok t' 0x1000 [0x1001].
Proof.
  destruct (ext2_scan_spec 4076 mount64 early_pool [] 1000 small 0 0x1000 (mk_node 7 2 true false true) root_tree root_nodes
    [] [dir_block] small_entries (mk_file [114] 0 TYPE_DIRECTORY 0 0 0 0 0 0 0 0)) as (t1 & t' & ns' & k' & d' & E & _ & _ & Et1 & (ns2 & _ & S) & _).
  - exact boot_affords.
  - vm_compute. discriminate.
  - repeat split; discriminate.
  - split; [by exists 9|reflexivity].
  - reflexivity.
  - discriminate.
  - reflexivity.
  - reflexivity.
  - discriminate.
  - apply small_inode. by left.
  - exact small_dir.
  - split; [reflexivity|]. intros p Hp. change (0x1001 <= p) in Hp. etrans; [apply lookup_insert_ne; intros <-; by apply Hp|apply lookup_empty].
  - split; [by eexists|]. split; [done|]. split; [constructor|]. split; [set_solver|done].
  - reflexivity.
  - exists t', ns', k', d'. split; [exact E|]. vm_compute in Et1. injection Et1 as <-. exact (sc_dir _ _ _ _ _ _ _ _ _ _ S).
Defined.
