(* ===== verification/Fault.v ===== *)
(** Starting the memory manager, page faults, and the choice of victims:
    [VMM::init], [VMM::handle_page_fault] and the page fault entry of
    [src/src/kernel/arch/x86/vmm.cc], and the part of [swap.cc] that drives
    the page replacement manager.

    [vmm_init] goes up to the loading of the directory; the allocators that
    [VMM::init] starts afterwards are the state [K].  The page replacement
    manager shares the kernel memory of the memory manager: [pager] is the two
    of them, and [on_repl] runs an operation of the first on the memory of the
    second. *)

From Stdlib Require Import ZArith Lia.
From stdpp Require Import base list gmap option.
From coqutil Require Import Datatypes.RecordSetters.
From S2P Require Import Prelude Memory KAlloc PageReplacement Mm Vmm Swap Paging Cow.
Import TriangleBracketNotations.

Record pager (K : Type) := mk_pager { pmm : mm K; prepl : repl K }.
Arguments mk_pager {K}.
Arguments pmm {K}.
Arguments prepl {K}.

Section Fault.
Context {K : Type} `{KAlloc K} `{SlabCaches K}.
Variable fuel : nat.
Variables file_read file_write file_activate file_deactivate : Z.

(** ** The memory manager at boot *)

Definition identity_pages : Z := 0x400000 / FRAME_SIZE.
Definition heap_pages : Z := (KERN_HEAP_LIM - KERN_HEAP) / FRAME_SIZE.

Definition map_identity (s : mm K) : outcome (mm K) :=
  ofor identity_pages (fun i s =>
    let* (_, s) := map_page fuel file_write s (kernel_directory s) (i * FRAME_SIZE) (i * FRAME_SIZE) (Z.lor PG_PRESENT PG_WRITE) in
    Done s) s.

Definition map_heap (s : mm K) : outcome (mm K) :=
  ofor heap_pages (fun i s =>
    let* (frame, s) := alloc_frame fuel file_write s in
    if negb (frame =? 0) then
      let* (_, s) := map_page fuel file_write s (kernel_directory s) (KERN_HEAP + i * FRAME_SIZE) frame (Z.lor PG_PRESENT PG_WRITE) in
      Done s
    else Done s) s.

Definition vmm_init (s : mm K) : outcome (mm K) :=
  let s := s <| frame_bitmap ::= init_bitmap |> <| frame_count := MAX_FRAMES |>
             <| frames_used := PHYS_MEM_START / FRAME_SIZE |> in
  let* (kd, s) := create_page_directory fuel file_write s in
  let s := s <| kernel_directory := kd |> in
  let* s := map_identity s in
  let* s := map_heap s in
  Done (switch_page_directory (s <| current_directory := kernel_directory s |>) (kernel_directory s)).

(** [get_page_frame] *)
Definition get_page_frame (s : mm K) : outcome (Z * mm K) := alloc_frame fuel file_write s.

(** ** Page faults *)

(** The first attempt: the page has a swap entry. *)
Definition fault_swapped (s : mm K) (page_addr : Z) : outcome (option (mm K) * mm K) :=
  let* swap_entry := get_swap_entry fuel s (current_directory s) page_addr in
  if negb (swap_entry =? 0) then
    let* (r, s) := swap_in_page fuel file_read file_write s page_addr swap_entry in
    if r =? 0 then
      let* s := remove_swapped_page fuel s (current_directory s) page_addr in
      let* s := update_page_access fuel s page_addr in
      Done (Some s, s)
    else Done (None, s)
  else Done (None, s).

(** The second: the page is shared for writing. *)
Definition fault_cow (s : mm K) (fault_addr page_addr error_code : Z) : outcome (option (mm K) * mm K) :=
  if (USER_OFFSET <=? fault_addr) && (fault_addr <? USER_STACK) then
    let* (r, s) := cow_handle_page_fault fuel file_write s fault_addr error_code in
    if r =? 0 then
      let* s := update_page_access fuel s page_addr in
      Done (Some s, s)
    else Done (None, s)
  else Done (None, s).

(** The third: a page of the kernel heap, on demand. *)
Definition fault_heap (s : mm K) (fault_addr page_addr : Z) : outcome (Z * mm K) :=
  if (KERN_HEAP <=? fault_addr) && (fault_addr <? KERN_HEAP_LIM) then
    let* (frame, s) := alloc_frame fuel file_write s in
    if frame =? 0 then Done (-1, s)
    else
      let* (r, s) := map_page fuel file_write s (current_directory s) page_addr frame (Z.lor PG_PRESENT PG_WRITE) in
      if negb (r =? 0) then Done (-1, free_frame s frame)
      else let* s := add_to_lru s page_addr in Done (0, s)
  else Done (-1, s).

Definition handle_page_fault (s : mm K) (fault_addr error_code : Z) : outcome (Z * mm K) :=
  let page_addr := Z.land fault_addr 0xFFFFF000 in
  let* (r, s) := fault_swapped s page_addr in
  match r with
  | Some s => Done (0, s)
  | None =>
    let* (r, s) := fault_cow s fault_addr page_addr error_code in
    match r with
    | Some s => Done (0, s)
    | None => fault_heap s fault_addr page_addr
    end
  end.

(** [page_fault_handler]: an unhandled fault stops the machine. *)
Definition page_fault_handler (s : mm K) (cr2 err_code : Z) : outcome (mm K) :=
  let* (result, s) := handle_page_fault s cr2 err_code in
  if negb (result =? 0) then OutOfFuel else Done s.

(** ** The swap manager and page replacement *)

Definition on_repl {A} (x : pager K) (op : repl K → outcome (A * repl K)) : outcome (A * pager K) :=
  let* (a, r) := op ((prepl x) <| rkal := kal (pmm x) |>) in
  Done (a, mk_pager ((pmm x) <| kal := rkal r |>) r).

Definition swap_init (x : pager K) : pager K :=
  mk_pager ((pmm x) <| swapm := zero_swap |>) (pr_init (prepl x)).

Definition set_replacement_algorithm (x : pager K) (algorithm : Z) : outcome (pager K) :=
  if algorithm <? PR_ALGORITHM_COUNT then
    let* (_, x) := on_repl x (fun r => let* r := set_algorithm fuel r algorithm in Done (tt, r)) in Done x
  else Done x.

Definition get_replacement_algorithm (x : pager K) : Z := algorithm_index (current_algorithm (prepl x)).

(** The part of [tune_replacement_performance] that follows the pressure. *)
Definition tune_pressure (x : pager K) (pressure : Z) (st : replacement_stats) : outcome (pager K) :=
  if MEMORY_PRESSURE_HIGH <=? pressure then
    if total_replacements st / 2 <? dirty_writebacks st then set_replacement_algorithm x 3
    else if get_replacement_algorithm x =? 1 then set_replacement_algorithm x 2 else Done x
  else if pressure <=? MEMORY_PRESSURE_LOW then
    if negb (get_replacement_algorithm x =? 0) then set_replacement_algorithm x 0 else Done x
  else Done x.

(** The part that follows the hit rate. *)
Definition tune_hits (x : pager K) (st : replacement_stats) : outcome (pager K) :=
  let total := u32 (hits st + misses st) in
  if 1000 <? total then
    let hit_rate := u32 (hits st * 100) / total in
    if hit_rate <? 70 then
      if get_replacement_algorithm x =? 0 then set_replacement_algorithm x 3 else Done x
    else if 90 <? hit_rate then
      if get_replacement_algorithm x =? 3 then set_replacement_algorithm x 0 else Done x
    else Done x
  else Done x.

Definition tune_replacement_performance (depth : nat) (x : pager K) : outcome (pager K) :=
  let* pressure := check_memory_pressure depth (pmm x) in
  let st := get_replacement_stats (prepl x) in
  let* x := tune_pressure x pressure st in
  tune_hits x st.

(** A descriptor for the victim of the older list. *)
Definition describe_victim (s : mm K) (lru_victim desc : Z) : mm K :=
  let s := mstore s (desc + pg_vaddr) (mload s (lru_victim + lru_vaddr)) in
  let s := mstore s (desc + pg_paddr) (get_physical_addr s (current_directory s) (mload s (lru_victim + lru_vaddr))) in
  let s := mstore s (desc + pg_flags) (mload s (lru_victim + lru_flags)) in
  let s := mstore s (desc + pg_count) 1 in
  let s := s <| kal := with_mem (kal s) (store64 (kmem (kal s)) (desc + pg_last) (mload s (lru_victim + lru_time))) |> in
  let s := s <| kal := with_mem (kal s) (store64 (kmem (kal s)) (desc + pg_created) (mload s (lru_victim + lru_time))) |> in
  let s := mstore s (desc + pg_pid) 0 in
  let s := mstore s (desc + pg_prev) 0 in
  mstore s (desc + pg_next) 0.

Definition get_optimal_victim_page (x : pager K) : outcome (Z * pager K) :=
  let* (victim, x) := on_repl x (PageReplacement.find_victim_page fuel) in
  if negb (victim =? 0) then Done (victim, x)
  else
    let* lru_victim := Swap.find_victim_page fuel (pmm x) in
    if negb (lru_victim =? 0) then
      let* (desc, s) := mm_alloc (pmm x) sizeof_page_descriptor in
      let s := if negb (desc =? 0) then describe_victim s lru_victim desc else s in
      Done (desc, mk_pager s (prepl x))
    else Done (0, x).

(** The C interface. *)
Definition swapon (s : mm K) (path flags : Z) : outcome (Z * mm K) :=
  add_swap_device fuel file_read file_write file_activate file_deactivate s path SWAP_TYPE_FILE flags.
Definition swapoff (s : mm K) (path : Z) : outcome (Z * mm K) := remove_swap_device fuel file_deactivate s path.
Definition get_memory_pressure (depth : nat) (s : mm K) : outcome Z := check_memory_pressure depth s.
Definition trigger_page_reclaim (s : mm K) (pages : Z) : outcome (Z * mm K) := reclaim_pages fuel file_write s pages.
Definition try_reclaim_memory (s : mm K) (pages_needed : Z) : outcome (Z * mm K) := reclaim_pages fuel file_write s pages_needed.

End Fault.
