(* ===== verification/FaultSpec.v ===== *)
(** Demand paging: a fault in the kernel heap is answered with a free frame
    mapped at the page, and every other page stays as it is.  And what becomes
    of the memory manager that is started before the allocators. *)

From Stdlib Require Import ZArith Lia.
From stdpp Require Import base list gmap option sets.
From coqutil Require Import Datatypes.RecordSetters.
From S2P Require Import Prelude Memory KAlloc Bump Buddy Slab Slob Slub Unified PageReplacement Mm Vmm Swap Paging VmmSpec Cow CowSpec Fault.
Import TriangleBracketNotations.

Section Spec.
Context {K : Type} `{KAllocLaws K} `{SlabCaches K}.

(** The words of the blocks [l] are the same. *)
Definition same_words (l : list (Z * Z)) (s s' : mm K) : Prop := ∀ a, in_blocks l a → mload s' a = mload s a.

#[export] Instance same_words_preorder l : PreOrder (same_words l).
Proof. split; [by intros s a|]. intros s1 s2 s3 E1 E2 a Ha. by rewrite E2, E1. Qed.

Lemma same_words_mstore l (s : mm K) a v : ¬ in_blocks l a → same_words l s (mstore s a v).
Proof. intros Ha b Hb. apply mload_mstore_ne. by intros ->. Qed.

Lemma same_words_kal l (s s1 s2 : mm K) : kal s2 = kal s1 → same_words l s s1 → same_words l s s2.
Proof. intros E S a Ha. rewrite <- (S a Ha). unfold mload. by rewrite E. Qed.

Lemma alloc_frame_taken fuel fw (s : mm K) :
  bitmap_ok (frame_bitmap s) → (∃ g, 0 <= g < MAX_FRAMES ∧ used (frame_bitmap s) g = false) →
  ∃ f s', alloc_frame fuel fw s = Done (f * FRAME_SIZE, s') ∧ frame_taken s f s'.
Proof.
  intros Hb (g & Hg & Hu). pose proof (take_frame_spec s Hb) as Ht. unfold alloc_frame.
  destruct fuel; cbn [alloc_frame_at]; (destruct (take_frame s) as [[a s']|]; [|by rewrite Ht in Hu]);
    destruct Ht as (f & -> & Ht); by exists f, s'.
Qed.

(** A step that leaves the words of [l] and the fields the page tables hang on. *)
Definition quiet (l : list (Z * Z)) (s s' : mm K) : Prop :=
  same_words l s s' ∧ frame_bitmap s' = frame_bitmap s ∧ current_directory s' = current_directory s.

Lemma quiet_trans l (s1 s2 s3 : mm K) : quiet l s1 s2 → quiet l s2 s3 → quiet l s1 s3.
Proof. intros (A1 & B1 & C1) (A2 & B2 & C2). split; [by transitivity s2|]. split; congruence. Qed.

Lemma quiet_mstore l (s : mm K) a v : ¬ in_blocks l a → quiet l s (mstore s a v).
Proof. intros Ha. split; [by apply same_words_mstore|done]. Qed.

Lemma quiet_swapm l (s : mm K) f : quiet l s (s <| swapm ::= f |>).
Proof. by destruct s. Qed.

Lemma push_lru_quiet l (s : mm K) p :
  (∀ d, 0 <= d < sizeof_page_lru → ¬ in_blocks l (p + d)) →
  lru_head (swapm s) = 0 ∨ ¬ in_blocks l (lru_head (swapm s) + lru_prev) → quiet l s (push_lru s p).
Proof.
  intros Hp Hhead. unfold push_lru. set (s1 := mstore s (p + lru_prev) 0).
  assert (quiet l s s1) as Q1 by (apply quiet_mstore, Hp; done).
  set (s2 := mstore s1 (p + lru_next) (lru_head (swapm s1))).
  assert (quiet l s s2) as Q2 by (apply (quiet_trans l s s1 s2 Q1), quiet_mstore, Hp; done).
  change (lru_head (swapm s2)) with (lru_head (swapm s)).
  set (s3 := if negb (lru_head (swapm s) =? 0) then _ else _). assert (quiet l s s3) as Q3.
  { unfold s3. destruct (Z.eqb_spec (lru_head (swapm s)) 0) as [|Hne]; [exact Q2|]. cbn [negb].
    apply (quiet_trans l s s2); [exact Q2|]. apply quiet_mstore. by destruct Hhead. }
  clearbody s3. apply (quiet_trans l s s3); [exact Q3|].
  match goal with |- quiet _ _ (if ?b then _ else _) => destruct b end; by destruct s3 as [? ? ? ? ? ? ? [] ?].
Qed.

(** A new node of the list of pages is nobody's memory but the list's. *)
Lemma add_to_lru_keeps (s : mm K) L l va :
  kalloc_ok (kal s) L → (∀ b, b ∈ l → b ∈ L) → fits sizeof_page_lru →
  lru_head (swapm s) = 0 ∨ ¬ in_blocks l (lru_head (swapm s) + lru_prev) →
  ∃ s', add_to_lru s va = Done s' ∧ quiet l s s'.
Proof.
  intros Hk Hsub Hfit Hhead. unfold add_to_lru, mm_alloc.
  destruct (kmalloc_fresh (kal s) L sizeof_page_lru Hk Hfit) as (p & k & -> & Hkeep & Hp). cbn [obind].
  set (s0 := set_kal s k). assert (quiet l s s0) as Q0.
  { split; [|done]. intros a (q & n & Hq & Ha). apply Hkeep. exists q, n. split; [by apply Hsub|done]. }
  assert (lru_head (swapm s0) = lru_head (swapm s)) as Eh by done. clearbody s0.
  destruct (Z.eqb_spec p 0) as [->|Hp0]; [by exists s0|].
  destruct Hp as [[? _]|(Hpos & _ & _ & Hdis & _)]; [done|].
  assert (∀ d, 0 <= d < sizeof_page_lru → ¬ in_blocks l (p + d)) as Hnot.
  { intros d Hd (q & n & Hq & Hr). destruct (Hdis q n (Hsub _ Hq)); lia. }
  eexists. split; [reflexivity|]. apply (quiet_trans l s s0 _ Q0).
  set (s1 := mstore s0 (p + lru_vaddr) va). assert (quiet l s0 s1) as Q1 by (apply quiet_mstore, Hnot; done).
  set (s2 := s1 <| swapm -> access_counter ::= _ |>).
  assert (quiet l s1 s2) as Q2 by (split; [by intros a Ha|done]).
  set (s3 := mstore s2 (p + lru_time) (access_counter (swapm s2))).
  assert (quiet l s2 s3) as Q3 by (apply quiet_mstore, Hnot; done).
  set (s4 := mstore s3 (p + lru_flags) 0). assert (quiet l s3 s4) as Q4 by (apply quiet_mstore, Hnot; done).
  assert (lru_head (swapm s4) = lru_head (swapm s0)) as Eh4 by (by destruct s0 as [? ? ? ? ? ? ? [] ?]).
  assert (quiet l s4 (push_lru s4 p)) as Q5 by (apply push_lru_quiet; [exact Hnot|by rewrite Eh4, Eh]).
  apply (quiet_trans l s0 (push_lru s4 p)); [|by split; [intros a Ha|done]].
  exact (quiet_trans l s0 s1 _ Q1 (quiet_trans l s1 s2 _ Q2 (quiet_trans l s2 s3 _ Q3 (quiet_trans l s3 s4 _ Q4 Q5)))).
Qed.

Lemma decode_pte w f wr us : 0 <= f < 2 ^ 20 → decode (pte_assign w true wr us f) = Some (f, wr, us).
Proof. intros Hf. unfold decode. by destruct (pte_assign_spec w true wr us f Hf) as (-> & -> & -> & ->). Qed.

(** C13. A fault in the kernel heap, whose page tables were made at boot, takes
    a free frame and maps it writable at the page of the fault; no other
    page of the directory changes, and the fault is answered with 0. *)
Theorem heap_fault_spec fuel fr fw (s : mm K) L l fault_addr error_code :
  let pd := current_directory s in
  kalloc_ok (kal s) L → (∀ b, b ∈ l → b ∈ L) → pd_ok s pd l → fits sizeof_page_lru → bitmap_ok (frame_bitmap s) →
  (∃ g, 0 <= g < MAX_FRAMES ∧ used (frame_bitmap s) g = false) → used (frame_bitmap s) 0 = true →
  KERN_HEAP <= fault_addr < KERN_HEAP_LIM → present s pd (VADDR_PD_OFFSET fault_addr) →
  mload s (pd + pd_swapped) = 0 → (0 < fuel)%nat →
  lru_head (swapm s) = 0 ∨ ¬ in_blocks l (lru_head (swapm s) + lru_prev) →
  ∃ f s', handle_page_fault fuel fr fw s fault_addr error_code = Done (0, s') ∧
    0 <= f < MAX_FRAMES ∧ used (frame_bitmap s) f = false ∧ used (frame_bitmap s') f = true ∧
    ∀ va, 0 <= va < 2 ^ 32 →
      translate s' pd va = if decide (vpage va = vpage fault_addr) then Some (f, true, false) else translate s pd va.
Proof.
  intros pd Hk Hsub Hpd Hfit Hb Hfree Hz Hva Hp Hsw Hfuel Hhead.
  assert (0 <= fault_addr < 2 ^ 32) as Hva32 by (unfold KERN_HEAP, KERN_HEAP_LIM in Hva; lia).
  destruct (page_of fault_addr Hva32) as (Hpg & Evp & _). unfold handle_page_fault.
  set (page := Z.land fault_addr 0xFFFFF000) in *. clearbody page.
  assert (fault_swapped fuel fr fw s page = Done (None, s)) as ->.
  { unfold fault_swapped, get_swap_entry. fold pd. rewrite Hsw. destruct fuel as [|fl]; [lia|]. done. }
  cbn [obind]. unfold fault_cow. rewrite (proj2 (Z.leb_gt USER_OFFSET fault_addr)) by (unfold USER_OFFSET, KERN_HEAP_LIM in *; lia).
  cbn [andb obind]. unfold fault_heap.
  rewrite (proj2 (Z.leb_le KERN_HEAP fault_addr)), (proj2 (Z.ltb_lt fault_addr KERN_HEAP_LIM)) by lia. cbn [andb].
  destruct (alloc_frame_taken fuel fw s Hb Hfree) as (f & s1 & -> & F1). cbn [obind].
  pose proof F1 as (Hf & Hu & _ & Hb1 & _ & Hu1 & E1). pose proof (frame_taken_kal s s1 f F1) as Ek1.
  assert (f ≠ 0) as Hf0 by (intros ->; congruence).
  rewrite (proj2 (Z.eqb_neq (f * FRAME_SIZE) 0)) by (unfold FRAME_SIZE; lia).
  assert (current_directory s1 = pd) as -> by (by rewrite E1). clearbody pd.
  assert (vpage page = vpage fault_addr → VADDR_PD_OFFSET page = VADDR_PD_OFFSET fault_addr) as Hoff
    by (intros E; by apply vpage_offsets in E as [-> _]).
  assert (present s1 pd (VADDR_PD_OFFSET page)) as Hp1.
  { unfold present, mload. rewrite Ek1, Hoff by done. exact Hp. }
  assert (pd_ok s1 pd l) as Hpd1 by (by apply (same_kal_pd_ok s)).
  destruct (offsets_range page Hpg) as [Hi _]. destruct (pd_tables _ _ _ Hpd1 _ Hi Hp1) as (Ht0 & _ & _).
  rewrite (map_page_present fuel fw s1 pd page (f * FRAME_SIZE) _ Hp1 Ht0). cbn [obind].
  change (negb (0 =? 0)) with false. cbv iota.
  set (w := pte_assign _ _ _ _ _). assert (kalloc_ok (kal s1) L) as Hk1 by (by rewrite Ek1).
  destruct (write_pte_sub s1 pd L l page w Hk1 Hsub Hpd1 Hpg Hp1) as (Hk2 & Hpd2 & Htr2).
  set (s2 := mstore s1 _ w) in *.
  assert (frame_bitmap s2 = frame_bitmap s1 ∧ swapm s2 = swapm s) as [Eb2 Es2] by (unfold s2; rewrite E1; by split).
  clearbody s2. destruct (add_to_lru_keeps s2 L l page Hk2 Hsub Hfit) as (s3 & -> & Q3 & Eb3 & _); [by rewrite Es2|].
  cbn [obind]. exists f, s3. split; [done|]. split; [done|]. split; [done|].
  split; [rewrite Eb3, Eb2, Hu1 by lia; by rewrite bool_decide_true|].
  intros va Hva'. destruct (pd_blocks_agree s2 s3 pd l Hpd2 Q3) as [_ ->]; [|done]. rewrite Htr2, Evp by done.
  case_decide; [|by apply same_kal_translate]. unfold w.
  rewrite Z.shiftr_div_pow2 by lia. unfold FRAME_SIZE. change (2 ^ 12) with 4096. rewrite Z.div_mul by lia.
  apply decode_pte. unfold MAX_FRAMES in Hf. lia.
Qed.

End Spec.

(** ** A directory whose heap table is there *)

Definition heap_run : outcome (Z * mm bump) :=
  let* (pd, s) := create_page_directory 0 0 bare_mm in
  let* (_, s) := map_page 0 0 s pd KERN_HEAP 0x300000 3 in
  Done (pd, s <| current_directory := pd |>).
#[local] Opaque heap_run.
Definition heap_pd : Z := match heap_run with Done (pd, _) => pd | _ => 0 end.
Definition heap_mm : mm bump := match heap_run with Done (_, s) => s | _ => bare_mm end.
Definition heap_l : list (Z * Z) := [(heap_pd, sizeof_page_directory); (table_of heap_mm heap_pd 0, 4096)].

Lemma heap_fault_spec_witness :
  ∃ f s', handle_page_fault 1 0 0 heap_mm 0x201234 2 = Done (0, s') ∧
    translate s' heap_pd 0x201234 = Some (f, true, false) ∧ translate s' heap_pd KERN_HEAP = translate heap_mm heap_pd KERN_HEAP.
Proof.
  assert (current_directory heap_mm = heap_pd) as Ecd by (vm_compute; reflexivity).
  destruct (heap_fault_spec 1 0 0 heap_mm heap_l heap_l 0x201234 2) as (f & s' & E & _ & _ & _ & Htr).
  - apply bump_okb_ok. vm_compute. reflexivity.
  - exact (fun b Hb => Hb).
  - rewrite Ecd. apply (pd_ok_one heap_mm heap_pd 0); [left| | |right; left|left];
      first [vm_compute; reflexivity|vm_compute; discriminate].
  - reflexivity.
  - apply bitmap_okb. vm_compute. reflexivity.
  - exists 1000. split; [split; [discriminate|reflexivity]|vm_compute; reflexivity].
  - vm_compute. reflexivity.
  - split; [discriminate|reflexivity].
  - rewrite Ecd. vm_compute. reflexivity.
  - rewrite Ecd. vm_compute. reflexivity.
  - exact (le_n 1).
  - left. vm_compute. reflexivity.
  - rewrite Ecd in Htr. exists f, s'. split; [exact E|].
    split; [rewrite (Htr 0x201234) by (split; [discriminate|reflexivity]); by rewrite decide_True by done|].
    rewrite (Htr KERN_HEAP) by (split; [discriminate|reflexivity]). by rewrite decide_False by done.
Defined.

(** ** Before the allocators *)

(** The allocators as the loader leaves them: every field 0. *)
Definition zero_pool : pool :=
  mk_pool (mk_heap ∅ (mk_zone (replicate 12 0) (replicate 12 0) 0 0 0 0)) (Slab.mk_slab_allocator 0 (replicate 12 0))
    (mk_slob 0 0 0 0 0) (Slub.mk_slub 0 (replicate 16 0) 0) zero_unified.
Definition no_call (_ _ : Z) (h : heap) : outcome heap := Done h.
#[local] Instance zero_kalloc : KAlloc pool := pool_kalloc no_call 10.
Definition loaded_mm : mm pool := mk_mm zero_pool (replicate 32768 0) 0 0 0 0 0 zero_swap (mk_cow 0 0 0 0 0 0 0).

Definition started : mm pool := match vmm_init 10 0 loaded_mm with Done s => s | _ => loaded_mm end.

(** [VMM::init] asks for the kernel directory before it starts the
    allocators: [kmalloc] answers null, so the machine runs with a null
    directory loaded, no page of the kernel is mapped, and the 1536 frames
    taken for the kernel heap stay taken for nothing. *)
Theorem boot_without_directory :
  vmm_init 10 0 loaded_mm = Done started ∧ kernel_directory started = 0 ∧ current_directory started = 0 ∧
  frames_used started = PHYS_MEM_START / FRAME_SIZE + heap_pages ∧
  forallb (fun i => negb (pte_present (mload started (pd_entry 0 i)))) (map Z.of_nat (seq 0 1024)) = true.
Proof.
  split; [apply is_done_eq; vm_compute; reflexivity|]. split; [vm_compute; reflexivity|].
  split; [vm_compute; reflexivity|]. split; vm_compute; reflexivity.
Qed.
