(* ===== verification/Vfs.v ===== *)
(** The virtual operations of a [File]: [src/src/kernel/core/file.h].

    [open], [read], [write], [close] and [ioctl] are overridden by processes,
    variables, devices and the files of other file systems, so their callers
    (the system calls, the program loader) are written against this class.
    A buffer is an address in kernel memory.  The base class defines none of
    them, and its [mmap] only works for a file with [map_memory]. *)

From Stdlib Require Import ZArith Lia.
From stdpp Require Import base list gmap option.
From S2P Require Import Prelude Memory KAlloc Mm Vmm FileTree Filesystem Process.

Class FileOps (K : Type) := {
  file_open : world K → Z → Z → outcome (Z * world K);
  file_close : world K → Z → outcome (Z * world K);
  file_read : world K → Z → Z → Z → Z → outcome (Z * world K);
  file_write : world K → Z → Z → Z → Z → outcome (Z * world K);
  file_ioctl : world K → Z → Z → Z → outcome (Z * world K);
}.

Section BaseClass.
Context {K : Type}.

Definition base_open (w : world K) (fp flag : Z) : outcome (Z * world K) := Done (NOT_DEFINED, w).
Definition base_close (w : world K) (fp : Z) : outcome (Z * world K) := Done (NOT_DEFINED, w).
Definition base_read (w : world K) (fp pos buf size : Z) : outcome (Z * world K) := Done (NOT_DEFINED, w).
Definition base_write (w : world K) (fp pos buf size : Z) : outcome (Z * world K) := Done (NOT_DEFINED, w).
Definition base_ioctl (w : world K) (fp id buf : Z) : outcome (Z * world K) := Done (NOT_DEFINED, w).

(** [File::mmap]: the list a page is linked to has no head that anything
    initialises, so linking the first page is [Stuck]. *)
Definition file_mmap (w : world K) (fp sizee : Z) : outcome Z :=
  let* f := getf (tree (wfs w)) fp in
  if negb (fmap f =? 0) then
    let* _ := getp w (pcurrent w) in
    if 0 <? sizee then Stuck else Done (fmap f)
  else Done (u32 (-1)).

End BaseClass.

(** A system in which every file is a plain [File]. *)
Definition base_file_ops (K : Type) : FileOps K := {|
  file_open := base_open;
  file_close := base_close;
  file_read := base_read;
  file_write := base_write;
  file_ioctl := base_ioctl;
|}.
