(* ===== verification/Devices.v ===== *)
(** Devices, module links and sockets: [src/src/kernel/core/device.h],
    [device.cc], [modulelink.h], [modulelink.cc], [socket.h] and [socket.cc].

    Three kinds of [File] that put themselves into a directory when they are
    made.  Their virtual operations are constants, instances of [FileOps]; the
    devices that do something ([BlockDevice.v]) override them. *)

From Stdlib Require Import ZArith Lia.
From stdpp Require Import base list gmap option.
From S2P Require Import Prelude FileTree FileTreeSpec Filesystem FilesystemSpec Process Vfs.

(** The paths [/dev], [/sys/mods/] and [/sys/sockets/]. *)
Definition path_dev : list Z := SLASH :: name_dev.
Definition path_mods : list Z := SLASH :: name_sys ++ SLASH :: name_mods ++ [SLASH].
Definition path_sockets : list Z := SLASH :: name_sys ++ SLASH :: name_sockets ++ [SLASH].

Section Devices.
Variable fuel : nat.
Variable scan : ftree → Z → outcome ftree.

(** The constructors: [File(n, t)], and [fsm.addFile(dir, this)], whose result
    is dropped.  [cur] is the current directory, [master] the process. *)
Definition new_in (dir : list Z) (ty : file_type) (s : filesystem) (cur : option Z) (master : Z) (n : list Z) : outcome (Z * filesystem) :=
  let '(obj, t) := new_file (tree s) master n ty in
  let* (_, s) := addFile fuel scan (set_tree s t) cur dir obj in
  Done (obj, s).

Definition new_device := new_in path_dev TYPE_DEVICE.
Definition new_modlink := new_in path_mods TYPE_FILE.
Definition new_socket := new_in path_sockets TYPE_FILE.

(** [remove] deletes the object; a device answers 0, as the others do. *)
Definition object_remove (s : filesystem) (obj : Z) : outcome (Z * filesystem) :=
  let* t := delete_file fuel (tree s) obj in Done (RETURN_OK, set_tree s t).

(** [scan] does nothing. *)
Definition object_scan (t : ftree) (obj : Z) : outcome ftree := Done t.

End Devices.

(** The operations of the three classes. *)
Definition device_file_ops (K : Type) : FileOps K := {|
  file_open w _ _ := Done (RETURN_OK, w);
  file_close w _ := Done (RETURN_OK, w);
  file_read w _ _ _ _ := Done (ERROR_PARAM, w);
  file_write w _ _ _ _ := Done (ERROR_PARAM, w);
  file_ioctl w _ _ _ := Done (NOT_DEFINED, w);
|}.

Definition link_file_ops (K : Type) : FileOps K := {|
  file_open w _ _ := Done (RETURN_OK, w);
  file_close w _ := Done (RETURN_OK, w);
  file_read w _ _ _ _ := Done (NOT_DEFINED, w);
  file_write w _ _ _ _ := Done (NOT_DEFINED, w);
  file_ioctl w _ _ _ := Done (NOT_DEFINED, w);
|}.

Section Spec.
Variable fuel : nat.
Variable scan : ftree → Z → outcome ftree.

(** What a file that is made this way can be found by: its directory has
    it in front, and looking for its name finds it, whatever else there is. *)
Lemma new_in_spec dir ty s cur master n d l :
  let p := next_obj (tree s) in
  let s0 := set_tree s (snd (new_file (tree s) master n ty)) in
  path fuel scan s0 cur dir = Done (d, s0) → dir_ok (tree s0) d l → p ∉ d :: l → p ≠ 0 →
  (S (length l) < fuel)%nat →
  ∃ s', new_in fuel scan dir ty s cur master n = Done (p, s') ∧ dir_ok (tree s') d (p :: l) ∧
    find fuel (tree s') d (checkName n) = Done p ∧ ∀ x, x ≠ d → x ≠ p → x ∉ l → getf (tree s') x = getf (tree s) x.
Proof.
  intros p s0 Hpath Hdir Hp Hp0 Hf. unfold new_in, addFile.
  change (new_file (tree s) master n ty) with (p, snd (new_file (tree s) master n ty)). cbv iota.
  change (set_tree s (snd (new_file (tree s) master n ty))) with s0. rewrite Hpath. cbn [obind].
  assert (d ≠ 0) as Hd by apply Hdir. rewrite (proj2 (Z.eqb_neq d 0)) by done.
  assert (∀ x, x ≠ p → getf (tree s0) x = getf (tree s) x) as Hold.
  { intros x Hx. unfold getf. cbn. by rewrite lookup_insert_ne. }
  assert (getf (tree s0) p = Done (mk_file (checkName n) 0 ty (inode_system (tree s)) 0 master 0 0 0 0 0)) as Ef.
  { unfold getf. cbn. by rewrite lookup_insert_eq. }
  apply not_elem_of_cons in Hp as [Hpd Hpl].
  destruct (addChild_spec (tree s0) d l p _ Hdir Ef Hp0 Hpd Hpl) as (t' & E & Hdir' & _ & Hkeep & f' & Ef' & Hname). rewrite E. cbn [obind].
  exists (set_tree s0 t'). split; [done|]. split; [done|]. cbn [tree set_tree]. split; [|intros; by rewrite Hkeep, Hold].
  rewrite (find_spec fuel t' d (p :: l)) by done. unfold first_named. cbn [List.find].
  rewrite Ef', Hname. unfold same_name. cbn [fname]. by rewrite bool_decide_true.
Qed.

End Spec.

(** ** Concrete runs on the tree the kernel starts with *)

(** A device [hda] is [/dev/hda]; a socket [a/b] is [/sys/sockets/a_b]. *)
Example hda_found :
  (let* (obj, s) := new_device 20 no_scan boot_fs None 0 [104; 100; 97] in
   let* (fp, _) := path 20 no_scan s None (path_dev ++ [SLASH; 104; 100; 97]) in Done (obj =? fp, negb (obj =? 0))) = Done (true, true).
Proof. vm_compute. reflexivity. Qed.
Example socket_found :
  (let* (obj, s) := new_socket 20 no_scan boot_fs None 0 [97; 47; 98] in
   let* (fp, _) := path 20 no_scan s None (path_sockets ++ [97; 95; 98]) in Done (obj =? fp, negb (obj =? 0))) = Done (true, true).
Proof. vm_compute. reflexivity. Qed.
