(* ===== verification/IntrusiveList.v ===== *)
(** The circular lists of [src/src/kernel/runtime/list.h].

    A [list_head] is two words, [next] at 0 and [prev] at 4; the head of a
    list is a [list_head] of its own, linked to itself when the list is empty.
    The operations refine the list of the nodes after the head. *)

From Stdlib Require Import ZArith Lia.
From stdpp Require Import base list gmap option.
From S2P Require Import Prelude Memory.

(** ** The operations *)

Definition lh_next : Z := 0.
Definition lh_prev : Z := 4.

Definition INIT_LIST_HEAD (m : mem) (l : Z) : mem :=
  let m := store m (l + lh_next) l in
  store m (l + lh_prev) l.

Definition list_add (m : mem) (neww head : Z) : mem :=
  let m := store m (neww + lh_next) (load m (head + lh_next)) in
  let m := store m (neww + lh_prev) head in
  let m := store m (load m (head + lh_next) + lh_prev) neww in
  store m (head + lh_next) neww.

Definition list_del (m : mem) (p : Z) : mem :=
  let m := store m (load m (p + lh_next) + lh_prev) (load m (p + lh_prev)) in
  let m := store m (load m (p + lh_prev) + lh_next) (load m (p + lh_next)) in
  let m := store m (p + lh_next) 0 in
  store m (p + lh_prev) 0.

Definition list_empty (m : mem) (head : Z) : bool := load m (head + lh_next) =? head.

(** [list_entry] and [list_first_entry], for a member at offset [off]. *)
Definition list_entry (p off : Z) : Z := p - off.
Definition list_first_entry (m : mem) (head off : Z) : Z := list_entry (load m (head + lh_next)) off.

(** [list_for_each_entry]: the body on each entry, until the head comes round. *)
Definition list_for_each_entry {S : Type} (fuel : nat) (head off : Z) (body : Z → mem * S → outcome (mem * S)) (m : mem) (s : S) :
    outcome (mem * S) :=
  loop fuel (fun '(p, m, s) =>
    if p + off =? head then Done (inr (m, s))
    else
      let* (m, s) := body p (m, s) in
      Done (inl (list_entry (load m (p + off + lh_next)) off, m, s))) (list_first_entry m head off, m, s).

(** ** The list at a head *)

(** A chain of links both ways, from [a] through [l] to [b]. *)
Fixpoint links (m : mem) (a : Z) (l : list Z) (b : Z) : Prop :=
  match l with
  | [] => load m (a + lh_next) = b ∧ load m (b + lh_prev) = a
  | x :: l => load m (a + lh_next) = x ∧ load m (x + lh_prev) = a ∧ links m x l b
  end.

(** Nodes are 8 bytes and do not overlap. *)
Definition apart (l : list Z) : Prop := NoDup l ∧ ∀ x y, x ∈ l → y ∈ l → x ≠ y → x + 8 <= y ∨ y + 8 <= x.

Definition clist (m : mem) (head : Z) (l : list Z) : Prop := apart (head :: l) ∧ links m head l head.

Lemma links_app m a l1 p l2 b : links m a (l1 ++ p :: l2) b ↔ links m a l1 p ∧ links m p l2 b.
Proof.
  revert a. induction l1 as [|x l1 IH]; intros a; cbn [app links]; [tauto|]. rewrite IH. tauto.
Qed.

Lemma links_frame m m' a l b :
  (∀ x, x ∈ a :: l → load m' (x + lh_next) = load m (x + lh_next)) →
  (∀ x, x ∈ l ++ [b] → load m' (x + lh_prev) = load m (x + lh_prev)) →
  links m a l b → links m' a l b.
Proof.
  revert a. induction l as [|x l IH]; intros a Hn Hp; cbn [links].
  - rewrite Hn by set_solver. rewrite Hp by set_solver. done.
  - rewrite Hn by set_solver. rewrite Hp by set_solver. intros (? & ? & Hl). do 2 (split; [done|]).
    apply IH; [|..|done]; intros y Hy; [apply Hn|apply Hp]; set_solver.
Qed.

(** Fields of nodes of [l]: different ones are at different words. *)
Lemma apart_fields l x y i j :
  apart l → x ∈ l → y ∈ l → 0 <= i < 8 → 0 <= j < 8 → x ≠ y ∨ i ≠ j → x + i ≠ y + j.
Proof.
  intros [_ Ha] Hx Hy Hi Hj Hne. destruct (decide (x = y)) as [->|Hxy]; [lia|]. destruct (Ha x y Hx Hy Hxy); lia.
Qed.

Lemma load_field m l x y i j v :
  apart l → x ∈ l → y ∈ l → 0 <= i < 8 → 0 <= j < 8 →
  load (store m (x + i) v) (y + j) = if decide (x = y ∧ i = j) then v else load m (y + j).
Proof.
  intros Ha Hx Hy Hi Hj. case_decide as Hd; [destruct Hd as [-> ->]; apply load_store_eq|].
  apply load_store_ne. apply (apart_fields l); (done || lia).
Qed.

(** A list head that is initialised is the empty list. *)
Lemma init_list_head_spec m head : clist (INIT_LIST_HEAD m head) head [].
Proof.
  split; [split; [apply NoDup_singleton|set_solver]|]. unfold INIT_LIST_HEAD, lh_next, lh_prev.
  cbn [links]. unfold lh_next, lh_prev. rewrite !load_store. repeat case_decide; (done || lia).
Qed.

Lemma list_empty_spec m head l : clist m head l → list_empty m head = bool_decide (l = []).
Proof.
  intros [[Hn _] Hl]. unfold list_empty. destruct l as [|x l]; destruct Hl as [-> _]; [by rewrite Z.eqb_refl|].
  rewrite (proj2 (Z.eqb_neq x head)); [done|]. intros ->. apply list.NoDup_cons in Hn as [Hn _]. set_solver.
Qed.

(** The four words that [list_add] writes. *)
Lemma list_add_load m head l neww x j :
  clist m head l → apart (neww :: head :: l) → x ∈ neww :: head :: l → 0 <= j < 8 →
  let first := load m (head + lh_next) in
  load (list_add m neww head) (x + j)
  = if decide (x = head ∧ j = lh_next) then neww
    else if decide (x = first ∧ j = lh_prev) then neww
    else if decide (x = neww ∧ j = lh_prev) then head
    else if decide (x = neww ∧ j = lh_next) then first
    else load m (x + j).
Proof.
  intros [_ Hl] Ha Hx Hj first. unfold list_add. fold first.
  assert (first ∈ neww :: head :: l) as Hf by (subst first; destruct l as [|y l]; destruct Hl as [-> _]; set_solver).
  assert (head ≠ neww) as Hne by (destruct Ha as [Hn _]; apply list.NoDup_cons in Hn as [Hn _]; set_solver).
  assert (load (store (store m (neww + lh_next) first) (neww + lh_prev) head) (head + lh_next) = first) as ->.
  { unfold lh_next, lh_prev. rewrite !load_store_ne; [done|..];
      apply (apart_fields (neww :: head :: l)); (done || lia || set_solver || by left). }
  unfold lh_next, lh_prev in *.
  rewrite !(load_field _ (neww :: head :: l)) by (done || lia || set_solver).
  repeat (case_decide; try done); naive_solver.
Qed.

Lemma apart_perm l l' : l ≡ₚ l' → apart l → apart l'.
Proof.
  intros Hp [Hn Ha]. split; [by rewrite <- Hp|]. intros x y Hx Hy. apply Ha; by rewrite Hp.
Qed.

(** Membership in an explicit list. *)
Ltac by_mem := solve [repeat first [assumption | by left | right]].

(** [list_add] puts a node that overlaps none of the list's in front. *)
Lemma list_add_spec m head l neww :
  clist m head l → apart (neww :: head :: l) → clist (list_add m neww head) head (neww :: l).
Proof.
  intros Hc Ha. split; [by eapply apart_perm; [apply Permutation_swap|]|].
  pose proof (λ x j, list_add_load m head l neww x j Hc Ha) as HL. cbv zeta in HL.
  assert (Hn := proj1 Ha). apply list.NoDup_cons in Hn as [Hnew Hn]. apply list.NoDup_cons in Hn as [Hhead Hn].
  set (m' := list_add m neww head) in *. unfold lh_next, lh_prev in *.
  assert (load m' (head + 0) = neww) as E1 by (rewrite HL by (by_mem || lia); by rewrite decide_True).
  assert (neww ≠ head ∧ neww ≠ load m (head + 0)) as [Hne1 Hne2].
  { destruct Hc as [_ Hl]. destruct l; destruct Hl as [E ?]; unfold lh_next in E; rewrite E; set_solver. }
  assert (load m' (neww + 4) = head) as E2.
  { rewrite HL by (by_mem || lia). rewrite !decide_False by lia. by rewrite decide_True. }
  assert (load m' (neww + 0) = load m (head + 0)) as E3.
  { rewrite HL by (by_mem || lia). rewrite !decide_False by lia. by rewrite decide_True. }
  destruct Hc as [_ Hl]. cbn [links]. unfold lh_next, lh_prev. split; [done|]. split; [done|].
  destruct l as [|x l]; cbn [links] in *; unfold lh_next, lh_prev in *.
  - destruct Hl as [Hh _]. rewrite E3, Hh. split; [done|]. rewrite HL by (by_mem || lia).
    rewrite decide_False by lia. by rewrite Hh, decide_True.
  - destruct Hl as (Hh & _ & Hl). rewrite E3, Hh. split; [done|]. split.
    + rewrite HL by (by_mem || lia). rewrite decide_False by lia. by rewrite Hh, decide_True.
    + apply list.NoDup_cons in Hn as [Hx _].
      apply (links_frame m); [intros y Hy|intros y Hy|done]; unfold lh_next, lh_prev.
      * assert (y ≠ head ∧ y ≠ neww) as [? ?] by (split; intros ->; [done|]; apply Hnew; by right).
        rewrite HL by (by_mem || lia). by rewrite !decide_False by lia.
      * assert (y ≠ x ∧ y ≠ neww ∧ y ∈ neww :: head :: x :: l) as (? & ? & ?) by (clear - Hx Hhead Hnew Hy; set_solver).
        rewrite HL by (done || lia).
        rewrite Hh. by rewrite !decide_False by lia.
Qed.

(** ** Removal *)

(** The links between consecutive nodes of [a :: l]. *)
Fixpoint chain (m : mem) (a : Z) (l : list Z) : Prop :=
  match l with
  | [] => True
  | x :: l => load m (a + lh_next) = x ∧ load m (x + lh_prev) = a ∧ chain m x l
  end.

Lemma links_chain m a l b : links m a l b ↔ chain m a (l ++ [b]).
Proof. revert a. induction l as [|x l IH]; intros a; cbn [links chain app]; [tauto|]. by rewrite IH. Qed.

Lemma chain_app m a l1 y l2 :
  chain m a (l1 ++ y :: l2) ↔
  chain m a l1 ∧ load m (List.last l1 a + lh_next) = y ∧ load m (y + lh_prev) = List.last l1 a ∧ chain m y l2.
Proof.
  revert a. induction l1 as [|x l1 IH]; intros a; cbn [app chain]; [cbn [List.last]; tauto|].
  rewrite IH. replace (List.last (x :: l1) a) with (List.last l1 x); [tauto|].
  clear. revert x. induction l1 as [|z l1 IH]; intros x; [done|]. cbn [List.last] in *. by destruct l1.
Qed.

Lemma chain_frame m m' a l :
  (∀ x, x ∈ removelast (a :: l) → load m' (x + lh_next) = load m (x + lh_next)) →
  (∀ x, x ∈ l → load m' (x + lh_prev) = load m (x + lh_prev)) →
  chain m a l → chain m' a l.
Proof.
  revert a. induction l as [|x l IH]; intros a Hn Hp; [done|]. cbn [chain].
  change (removelast (a :: x :: l)) with (a :: removelast (x :: l)) in Hn.
  rewrite Hn by by_mem. rewrite Hp by by_mem. intros (? & ? & Hc). do 2 (split; [done|]).
  apply IH; [|..|done]; intros y Hy; [apply Hn|apply Hp]; by right.
Qed.

(** The four words that [list_del] writes. *)
Lemma list_del_load m l p prev next x j :
  apart l → p ∈ l → prev ∈ l → next ∈ l → p ≠ prev → p ≠ next → x ∈ l → 0 <= j < 8 →
  load m (p + lh_next) = next → load m (p + lh_prev) = prev →
  load (list_del m p) (x + j)
  = if decide (x = p ∧ j = lh_prev) then 0
    else if decide (x = p ∧ j = lh_next) then 0
    else if decide (x = prev ∧ j = lh_next) then next
    else if decide (x = next ∧ j = lh_prev) then prev
    else load m (x + j).
Proof.
  intros Ha Hp Hv Hn Hpv Hpn Hx Hj En Ep. unfold list_del. rewrite En, Ep.
  assert (∀ i, 0 <= i < 8 → load (store m (next + lh_prev) prev) (p + i) = load m (p + i)) as Hin.
  { intros i Hi. apply load_store_ne. unfold lh_prev. apply (apart_fields l); (done || lia || by left). }
  rewrite !Hin by (unfold lh_next, lh_prev; lia). rewrite En, Ep. unfold lh_next, lh_prev in *.
  rewrite !(load_field _ l) by (done || lia). repeat (case_decide; try done); naive_solver.
Qed.

Lemma apart_remove l1 p l2 : apart (l1 ++ p :: l2) → apart (l1 ++ l2).
Proof.
  intros [Hn Ha]%(apart_perm _ (p :: l1 ++ l2)); [|by rewrite Permutation_middle].
  apply list.NoDup_cons in Hn as [_ Hn]. split; [done|]. intros x y Hx Hy. apply Ha; by right.
Qed.

Lemma removelast_in (l : list Z) x : x ∈ removelast l → x ∈ l.
Proof.
  destruct l as [|y l] using rev_ind; [done|]. rewrite removelast_last. set_solver.
Qed.

Lemma NoDup_cut (head p : Z) l1 l2 x :
  NoDup (head :: l1 ++ p :: l2) → x ∈ head :: l2 → p ≠ x ∧ (x ∈ l1 → False) ∧ p ∉ head :: l1.
Proof.
  intros [Hh [Hn1 [Hd Hn2]]%list.NoDup_app]%list.NoDup_cons. apply list.NoDup_cons in Hn2 as [Hp Hn2]. set_solver.
Qed.

(** The last of the nodes is not among the others. *)
Lemma last_not_before (a : Z) l : NoDup (a :: l) → List.last l a ∉ removelast (a :: l).
Proof.
  destruct l as [|x l] using rev_ind; [set_solver|]. intros Hn. rewrite last_last.
  change (a :: l ++ [x]) with ((a :: l) ++ [x]) in *. rewrite removelast_last.
  apply list.NoDup_app in Hn as (_ & Hd & _). set_solver.
Qed.

(** What [list_del] leaves in the links around the node. *)
Lemma list_del_links m head l1 p l2 next rest :
  clist m head (l1 ++ p :: l2) → l2 ++ [head] = next :: rest →
  let prev := List.last l1 head in let L := head :: l1 ++ p :: l2 in let m' := list_del m p in
  prev ∈ head :: l1 ∧ next ∈ head :: l2 ∧
  (∀ x, x ∈ L → x ≠ p → x ≠ prev → load m' (x + lh_next) = load m (x + lh_next)) ∧
  (∀ x, x ∈ L → x ≠ p → x ≠ next → load m' (x + lh_prev) = load m (x + lh_prev)) ∧
  load m' (prev + lh_next) = next ∧ load m' (next + lh_prev) = prev ∧
  load m' (p + lh_next) = 0 ∧ load m' (p + lh_prev) = 0.
Proof.
  intros [Ha Hl] Hrest. cbv zeta. rewrite links_chain in Hl. rewrite <- app_assoc in Hl. cbn [app] in Hl.
  rewrite chain_app in Hl. destruct Hl as (_ & Hpn & Hpp & Hc2). rewrite Hrest in Hc2.
  destruct Hc2 as (Hnn & Hnp & _). set (prev := List.last l1 head) in *. assert (Hn := proj1 Ha).
  assert (prev ∈ head :: l1) as Hprev.
  { subst prev. destruct l1 as [|x l1] using rev_ind; [by left|]. rewrite last_last. set_solver. }
  assert (next ∈ head :: l2) as Hnext by (destruct l2; injection Hrest as <- _; set_solver).
  destruct (NoDup_cut head p l1 l2 next Hn Hnext) as (Hpne & _ & Hp1).
  set (L := head :: l1 ++ p :: l2) in *.
  assert (prev ∈ L ∧ next ∈ L ∧ p ∈ L) as (HvL & HnL & HpL) by (subst L; set_solver).
  assert (p ≠ prev) as Hpv by (intros ->; by apply Hp1).
  pose proof (λ x j Hx Hj, list_del_load m L p prev next x j Ha HpL HvL HnL Hpv Hpne Hx Hj Hnn Hpp) as HL.
  unfold lh_next, lh_prev in *. split; [done|]. split; [done|].
  split_and!; try (intros x Hx ??); rewrite HL by (done || lia); repeat (case_decide; [naive_solver lia|]); naive_solver.
Qed.

(** [list_del] takes the node out and clears its links. *)
Lemma list_del_spec m head l1 p l2 :
  clist m head (l1 ++ p :: l2) →
  clist (list_del m p) head (l1 ++ l2) ∧ load (list_del m p) (p + lh_next) = 0 ∧ load (list_del m p) (p + lh_prev) = 0.
Proof.
  intros Hcl. destruct (l2 ++ [head]) as [|next rest] eqn:Hrest; [by destruct l2|].
  destruct (list_del_links m head l1 p l2 next rest Hcl Hrest) as (Hprev & Hnext & H1 & H2 & H3 & H4 & H6 & H7).
  split; [|done]. destruct Hcl as [Ha Hl]. rewrite links_chain in Hl. rewrite <- app_assoc in Hl. cbn [app] in Hl.
  rewrite chain_app in Hl. destruct Hl as (Hc1 & _ & _ & Hc2). rewrite Hrest in Hc2. destruct Hc2 as (_ & _ & Hc2).
  split; [apply (apart_remove (head :: l1) p l2), Ha|].
  set (prev := List.last l1 head) in *. assert (Hn := proj1 Ha).
  destruct (NoDup_cut head p l1 l2 next Hn Hnext) as (Hpne & Hn1 & Hp1).
  rewrite links_chain, <- app_assoc, Hrest, chain_app. fold prev. set (L := head :: l1 ++ p :: l2) in *.
  assert (∀ x, x ∈ head :: l1 → x ∈ L) as HL1 by (intros x; subst L; set_solver).
  assert (∀ x, x ∈ head :: l2 → x ∈ L) as HL2 by (intros x; subst L; set_solver).
  assert (∀ x, x ∈ head :: l2 → x ≠ p ∧ x ∉ l1) as H5.
  { intros x Hx. destruct (NoDup_cut head p l1 l2 x Hn Hx) as (? & ? & _). by split. }
  assert (∀ x, x ∈ rest → x ∈ head :: l2 ∧ x ≠ next) as Hr.
  { apply list.NoDup_cons in Hn as [Hh Hn]. apply list.NoDup_app in Hn as (_ & _ & Hn).
    apply list.NoDup_cons in Hn as [_ Hn]. clear - Hrest Hn Hh.
    destruct l2 as [|n l2]; injection Hrest as -> <-; [set_solver|]. apply list.NoDup_cons in Hn as [Hn _]. set_solver. }
  split; [|split; [|split]]; [|exact H3|exact H4|].
  - apply (chain_frame m); [intros x Hx|intros x Hx|done].
    + assert (x ∈ head :: l1) as Hx1 by (by apply removelast_in).
      apply H1; [by apply HL1|by intros ->|]. intros ->. refine (last_not_before head l1 _ Hx).
      clear - Hn. subst L. change (head :: l1 ++ p :: l2) with ((head :: l1) ++ p :: l2) in Hn. by apply list.NoDup_app in Hn as [? _].
    + apply H2; [apply HL1; by right|intros ->; apply Hp1; by right|]. intros ->. by apply Hn1.
  - apply (chain_frame m); [intros x Hx|intros x Hx|done].
    + assert (x ∈ l2) as Hx2.
      { rewrite <- Hrest, removelast_last in Hx. done. }
      destruct (H5 x) as [? Hxl]; [by right|]. apply H1; [apply HL2; by right|done|]. intros ->.
      apply elem_of_cons in Hprev as [E|]; [|done]. clear - Hn Hx2 E. subst L.
      apply list.NoDup_cons in Hn as [Hh _]. apply Hh. rewrite <- E. set_solver.
    + destruct (Hr x Hx) as [Hx2 Hxn]. destruct (H5 x Hx2) as [? _]. apply H2; [by apply HL2|done|done].
Qed.

(** [list_for_each_entry] visits the entries in order and ends, when the
    body leaves the links alone. *)
Lemma list_for_each_entry_spec {S : Type} fuel head off (f : Z → S → S) m l s :
  clist m head l → (length l < fuel)%nat →
  list_for_each_entry fuel head off (fun p '(m, s) => Done (m, f p s)) m s
  = Done (m, foldl (fun s x => f (x - off) s) s l).
Proof.
  intros [[Hn _] Hl] Hf. unfold list_for_each_entry, list_first_entry, list_entry.
  apply list.NoDup_cons in Hn as [Hh _].
  cut (∀ fuel a l s, links m a l head → head ∉ l → (length l < fuel)%nat →
    loop fuel (fun '(p, m, s) =>
      if p + off =? head then Done (inr (m, s))
      else
        let* (m, s) := Done (m, f p s) in
        Done (inl (load m (p + off + lh_next) - off, m, s))) (load m (a + lh_next) - off, m, s)
    = Done (m, foldl (fun s x => f (x - off) s) s l)); [intros Hcut; by apply Hcut|].
  clear fuel l s Hl Hh Hf. intros fuel a l. revert fuel a.
  induction l as [|x l IH]; intros [|fuel] a s Hl Hh Hf; cbn [length] in Hf; try lia; cbn [loop].
  - destruct Hl as [-> _]. by rewrite Z.sub_add, Z.eqb_refl.
  - destruct Hl as (-> & _ & Hl). rewrite Z.sub_add.
    rewrite (proj2 (Z.eqb_neq x head)) by (intros ->; apply Hh; by left). cbn [obind foldl].
    apply IH; [done|intros ?; apply Hh; by right|lia].
Qed.
