(* ===== verification/Ports.v ===== *)
(** The processor's port instructions, and the port functions of [io.cc].

    [Ports] is the interface of a machine [P] with input and output ports:
    what an input returns, and what inputs and outputs do behind them. *)

From Stdlib Require Import ZArith List.
From stdpp Require Import base.
From S2P Require Import Prelude.

Class Ports (P : Type) := {
  port_inb : P → Z → Z * P;
  port_inw : P → Z → Z * P;
  port_outb : P → Z → Z → P;
  port_outw : P → Z → Z → P;
}.

Section Ports.
Context {P : Type} `{Ports P}.

(** [IO::inb] and its sisters: the port is cut to 16 bits. *)
Definition inb (p : P) (ad : Z) : Z * P := port_inb p (u16 ad).
Definition inw (p : P) (ad : Z) : Z * P := port_inw p (u16 ad).
Definition outb (p : P) (ad v : Z) : P := port_outb p (u16 ad) (u8 v).
Definition outw (p : P) (ad v : Z) : P := port_outw p (u16 ad) (u16 v).

(** Outputs one after the other. *)
Definition outbs (p : P) (l : list (Z * Z)) : P := List.fold_left (fun p '(ad, v) => outb p ad v) l p.
End Ports.
