(* ===== verification/Ata.v ===== *)
(** The ATA driver: [src/src/kernel/arch/x86/ata.h] and [ata.cc].

    The ports are the interface [Ports].  [DriveLaws] ([AtaSpec.v]) is what the
    driver relies on: on the eight ports of the drive they are a drive in the sense of
    the ATA standard, polled, with 28-bit addresses and one sector at a time.
    The buffer that [initialize] takes from the heap is the list of its words;
    what the driver writes to the serial port is left out. *)

From Stdlib Require Import ZArith Lia.
From stdpp Require Import base list option.
From coqutil Require Import Datatypes.RecordSetters.
From S2P Require Import Prelude Memory KAlloc Bytes FileTree Filesystem BlockDevice Devices Ports.
Import TriangleBracketNotations.

Definition ATA_REG_DATA : Z := 0x00.
Definition ATA_REG_SECCOUNT0 : Z := 0x02.
Definition ATA_REG_LBA0 : Z := 0x03.
Definition ATA_REG_LBA1 : Z := 0x04.
Definition ATA_REG_LBA2 : Z := 0x05.
Definition ATA_REG_HDDEVSEL : Z := 0x06.
Definition ATA_REG_COMMAND : Z := 0x07.
Definition ATA_REG_STATUS : Z := 0x07.
Definition ATA_REG_ALTSTATUS : Z := 0x02.

Definition ATA_CMD_IDENTIFY : Z := 0xEC.
Definition ATA_CMD_READ_SECTORS : Z := 0x20.
Definition ATA_CMD_WRITE_SECTORS : Z := 0x30.
Definition ATA_CMD_FLUSH : Z := 0xE7.

Definition ATA_SR_ERR : Z := 0x01.
Definition ATA_SR_DRQ : Z := 0x08.
Definition ATA_SR_DF : Z := 0x20.
Definition ATA_SR_BSY : Z := 0x80.

Definition ATA_SECTOR_SIZE : Z := 512.

(** [struct ATAIdentifyData] and the fields of [ATADevice]. *)
Record ata := mk_ata {
  io_base : Z;
  ctrl_base : Z;
  slave : Z;
  model : list Z;
  total_sectors : Z;
  present : bool;
}.

(** [ATADevice(name, io_base, ctrl_base, slave)]; the name goes to the [File]. *)
Definition new_ata (io_base ctrl_base slave : Z) : ata := mk_ata io_base ctrl_base slave (replicate 41 0) 0 false.

(** The number of tries of the loops that wait. *)
Definition ATA_TRIES : nat := Z.to_nat 100000.

Section Ata.
Context {P : Type} `{Ports P}.

Definition ata_io_wait (p : P) (ctrl : Z) : P :=
  for_ 4 (fun _ p => snd (inb p (ctrl + ATA_REG_ALTSTATUS))) p.

(** Both waits read the status again and again, until it decides. *)
Fixpoint poll (tries : nat) (decide : Z → option bool) (p : P) (port : Z) : bool * P :=
  match tries with
  | O => (false, p)
  | S tries =>
    let '(status, p) := inb p port in
    match decide status with
    | Some b => (b, p)
    | None => poll tries decide p port
    end
  end.

Definition not_busy (status : Z) : option bool := if has_flag status ATA_SR_BSY then None else Some true.
Definition data_ready (status : Z) : option bool :=
  if negb (has_flag status ATA_SR_BSY) && has_flag status ATA_SR_DRQ then Some true
  else if has_flag status ATA_SR_ERR || has_flag status ATA_SR_DF then Some false
  else None.

Definition wait_busy (d : ata) (p : P) : bool * P := poll ATA_TRIES not_busy p (io_base d + ATA_REG_STATUS).
Definition wait_data_ready (d : ata) (p : P) : bool * P := poll ATA_TRIES data_ready p (io_base d + ATA_REG_STATUS).

Definition select_drive (d : ata) (p : P) (lba : Z) : P :=
  let head := Z.land (Z.shiftr lba 24) 0x0F in
  let p := outb p (io_base d + ATA_REG_HDDEVSEL) (Z.lor (Z.lor 0xE0 (Z.shiftl (slave d) 4)) head) in
  ata_io_wait p (ctrl_base d).

(** 256 words from the data port, the first one first. *)
Fixpoint read_words (n : nat) (d : ata) (p : P) : list Z * P :=
  match n with
  | O => ([], p)
  | S n =>
    let '(word, p) := inw p (io_base d + ATA_REG_DATA) in
    let '(words, p) := read_words n d p in
    (word :: words, p)
  end.

(** The low byte of a word is the first. *)
Definition word_bytes (word : Z) : list Z := [Z.land word 0xFF; Z.land (Z.shiftr word 8) 0xFF].

(** ** [initialize] *)

(** The 40 characters of the model, two to a word, the high byte first, and the
    end of the string; the blanks at the end are taken off. *)
Definition model_chars (words : list Z) : list Z :=
  flat_map (fun i => let word := zget 0 words (27 + Z.of_nat i) in
                     [Z.land (Z.shiftr word 8) 0xFF; Z.land word 0xFF]) (seq 0 20) ++ [0].
Definition trim_model (model : list Z) : list Z :=
  let '(model, _) := for_ 40 (fun k '(model, go) =>
    let i := 39 - k in
    if go : bool then
      if (zget 0 model i =? 32) || (zget 0 model i =? 0) then (zset model i 0, true) else (model, false)
    else (model, false)) (model, true) in
  model.

Definition identified (d : ata) (words : list Z) : ata :=
  d <| model := trim_model (model_chars words) |>
    <| total_sectors := u32 (Z.lor (Z.shiftl (zget 0 words 61) 16) (zget 0 words 60)) |>
    <| present := true |>.

Definition initialize {K} `{KAlloc K} (k : K) (d : ata) (p : P) : outcome (bool * ata * K * P) :=
  let p := select_drive d p 0 in
  let p := outb p (io_base d + ATA_REG_SECCOUNT0) 0 in
  let p := outb p (io_base d + ATA_REG_LBA0) 0 in
  let p := outb p (io_base d + ATA_REG_LBA1) 0 in
  let p := outb p (io_base d + ATA_REG_LBA2) 0 in
  let p := outb p (io_base d + ATA_REG_COMMAND) ATA_CMD_IDENTIFY in
  let p := ata_io_wait p (ctrl_base d) in
  let '(status, p) := inb p (io_base d + ATA_REG_STATUS) in
  if status =? 0 then Done (false, d, k, p)
  else
    let '(ready, p) := wait_data_ready d p in
    if negb ready then Done (false, d, k, p)
    else
      let* (buffer, k) := kmalloc k ATA_SECTOR_SIZE in
      if buffer =? 0 then Done (false, d, k, p)
      else
        let '(words, p) := read_words 256 d p in
        let* k := kfree k buffer in
        Done (true, identified d words, k, p).

(** ** Sectors *)

(** The registers of a command for one sector. *)
Definition start_command (d : ata) (p : P) (lba command : Z) : P :=
  let p := outb p (io_base d + ATA_REG_SECCOUNT0) 1 in
  let p := outb p (io_base d + ATA_REG_LBA0) (Z.land lba 0xFF) in
  let p := outb p (io_base d + ATA_REG_LBA1) (Z.land (Z.shiftr lba 8) 0xFF) in
  let p := outb p (io_base d + ATA_REG_LBA2) (Z.land (Z.shiftr lba 16) 0xFF) in
  outb p (io_base d + ATA_REG_COMMAND) command.

(** One turn of the loop of [read_blocks]; [None] is a failure. *)
Definition read_sector (d : ata) (p : P) (lba : Z) : option (list Z) * P :=
  let p := select_drive d p lba in
  let '(ok, p) := wait_busy d p in
  if negb ok then (None, p)
  else
    let p := start_command d p lba ATA_CMD_READ_SECTORS in
    let '(ok, p) := wait_data_ready d p in
    if negb ok then (None, p)
    else
      let '(words, p) := read_words 256 d p in
      (Some (flat_map word_bytes words), p).

Fixpoint read_sectors (n : nat) (d : ata) (p : P) (lba : Z) : Z * list Z * P :=
  match n with
  | O => (RETURN_OK, [], p)
  | S n =>
    match read_sector d p (u32 lba) with
    | (None, p) => (RETURN_FAILURE, [], p)
    | (Some bytes, p) => let '(r, out, p) := read_sectors n d p (lba + 1) in (r, bytes ++ out, p)
    end
  end.

(** The code, the bytes that reached the buffer, the ports. *)
Definition read_blocks (d : ata) (p : P) (lba count buffer : Z) : Z * list Z * P :=
  if negb (present d) || (buffer =? 0) || (count =? 0) then (ERROR_PARAM, [], p)
  else read_sectors (Z.to_nat count) d p lba.

(** The words of a sector to the data port. *)
Definition write_words (d : ata) (p : P) (bytes : list Z) : P :=
  for_ 256 (fun i p =>
    outw p (io_base d + ATA_REG_DATA) (Z.lor (zget 0 bytes (2 * i)) (Z.shiftl (zget 0 bytes (2 * i + 1)) 8))) p.

Definition write_sector (d : ata) (p : P) (lba : Z) (bytes : list Z) : bool * P :=
  let p := select_drive d p lba in
  let '(ok, p) := wait_busy d p in
  if negb ok then (false, p)
  else
    let p := start_command d p lba ATA_CMD_WRITE_SECTORS in
    let '(ok, p) := wait_data_ready d p in
    if negb ok then (false, p)
    else
      let p := write_words d p bytes in
      let '(ok, p) := wait_busy d p in
      if negb ok then (false, p)
      else
        let '(status, p) := inb p (io_base d + ATA_REG_STATUS) in
        (negb (has_flag status (Z.lor ATA_SR_ERR ATA_SR_DF)), p).

Fixpoint write_sectors (n : nat) (d : ata) (p : P) (lba : Z) (data : list Z) : Z * P :=
  match n with
  | O =>
    let p := outb p (io_base d + ATA_REG_COMMAND) ATA_CMD_FLUSH in
    let '(_, p) := wait_busy d p in
    (RETURN_OK, p)
  | S n =>
    let '(ok, p) := write_sector d p (u32 lba) data in
    if ok then write_sectors n d p (lba + 1) (drop (Z.to_nat ATA_SECTOR_SIZE) data) else (RETURN_FAILURE, p)
  end.

Definition write_blocks (d : ata) (p : P) (lba count buffer : Z) (data : list Z) : Z * P :=
  if negb (present d) || (buffer =? 0) || (count =? 0) then (ERROR_PARAM, p)
  else write_sectors (Z.to_nat count) d p lba data.

(** [ata_init]: the disk [hda] of the first channel becomes [g_primary_master]
    when it answers; its object, in [/dev] by then, is deleted when it does not. *)
Definition name_hda : list Z := [104; 100; 97].

Definition ata_init {K} `{KAlloc K} (fuel : nat) (scan : ftree → Z → outcome ftree) (cur : option Z) (master : Z)
    (g : option (Z * ata)) (k : K) (s : filesystem) (p : P) : outcome (option (Z * ata) * K * filesystem * P) :=
  match g with
  | Some _ => Done (g, k, s, p)
  | None =>
    let* (obj, s) := new_device fuel scan s cur master name_hda in
    let* (ok, d, k, p) := initialize k (new_ata 0x1F0 0x3F6 0) p in
    if ok : bool then Done (Some (obj, d), k, s, p)
    else let* t := delete_file fuel (tree s) obj in Done (None, k, set_tree s t, p)
  end.

End Ata.

(** The device as [BlockDevice] uses it: one block at a time, with a buffer
    that is there. *)
#[export] Instance ata_ops {P} `{Ports P} : BlockOps (ata * P) := {
  block_size _ := ATA_SECTOR_SIZE;
  read_block '(d, p) lba := let '(r, out, p) := read_blocks d p lba 1 1 in (r, out, (d, p));
  write_block '(d, p) lba blk := let '(r, p) := write_blocks d p lba 1 1 blk in (r, (d, p));
}.
