(* ===== verification/AtaSpec.v ===== *)
(** What the ATA driver does with a drive that works: [read_blocks] and
    [write_blocks] are reading and writing of the sectors of its disk, so the
    driver is a block device in the sense of [BlockLaws], and everything that
    [BlockDeviceSpec.v] and [Ext2Spec.v] say holds on it.

    [DriveLaws] says what the ports of the drive do, after the ATA standard;
    after a command the drive is busy for an unknown time, shorter than the
    driver waits.  [ideal] is a drive that meets it. *)

From Stdlib Require Import ZArith Lia.
From stdpp Require Import base list option.
From coqutil Require Import Datatypes.RecordSetters.
From S2P Require Import Prelude Memory KAlloc Bump Bytes FileTree Filesystem FilesystemSpec BlockDevice BlockDeviceSpec Devices Ports Ata.
Import TriangleBracketNotations.

(** ** The drive *)

(** Waiting for a command, words the processor has still to read, or bytes
    it has written so far for the sector [lba]. *)
Inductive phase :=
| Idle
| Sending (words : list Z)
| Receiving (lba : Z) (got : list Z).

Record drive := mk_drive {
  d_disk : list Z;
  d_count : Z;
  d_lba0 : Z;
  d_lba1 : Z;
  d_lba2 : Z;
  d_select : Z;
  d_phase : phase;
  d_busy : nat;
}.

Definition set_reg (d : drive) (r v : Z) : drive :=
  if r =? ATA_REG_SECCOUNT0 then d <| d_count := v |>
  else if r =? ATA_REG_LBA0 then d <| d_lba0 := v |>
  else if r =? ATA_REG_LBA1 then d <| d_lba1 := v |>
  else if r =? ATA_REG_LBA2 then d <| d_lba2 := v |>
  else if r =? ATA_REG_HDDEVSEL then d <| d_select := v |>
  else d.

(** The 28-bit address in the registers. *)
Definition address (d : drive) : Z := d_lba0 d + 2 ^ 8 * d_lba1 d + 2 ^ 16 * d_lba2 d + 2 ^ 24 * Z.land (d_select d) 15.

(** A command for one sector of the drive [sl], addressed by its number. *)
Definition addressed (sl : Z) (d : drive) : Prop :=
  d_count d = 1 ∧ Z.testbit (d_select d) 4 = (sl =? 1) ∧ Z.testbit (d_select d) 6 = true.

Definition data_phase (ph : phase) : bool := match ph with Idle => false | _ => true end.

(** The words of a buffer. *)
Fixpoint words_of (l : list Z) : list Z :=
  match l with
  | b0 :: b1 :: l => b0 + 2 ^ 8 * b1 :: words_of l
  | _ => []
  end.

Definition sector (d : drive) (lba : Z) : list Z := sub (lba * ATA_SECTOR_SIZE) ATA_SECTOR_SIZE (d_disk d).

(** A word read, and a word written. *)
Definition sent (d : drive) (rest : list Z) : drive :=
  d <| d_phase := match rest with [] => Idle | _ => Sending rest end |>.
Definition received (d : drive) (lba : Z) (got : list Z) (word : Z) (busy : nat) : drive :=
  let got := got ++ word_bytes word in
  if zlen got <? ATA_SECTOR_SIZE then d <| d_phase := Receiving lba got |>
  else d <| d_disk := splice (lba * ATA_SECTOR_SIZE) got (d_disk d) |> <| d_phase := Idle |> <| d_busy := busy |>.

Definition quiet (status : Z) : Prop := has_flag status ATA_SR_ERR = false ∧ has_flag status ATA_SR_DF = false.

(** The ports from [base] on are those of the drive [sl] of a channel. *)
Class DriveLaws (P : Type) `{Ports P} (base sl : Z) := {
  drive_of : P → drive;
  delay : nat;
  identity : list Z;
  delay_short : (delay < ATA_TRIES)%nat;
  base_range : 0 <= base ∧ base + 8 < 2 ^ 16;
  identity_length : length identity = 256%nat;
  in_other p port : ¬ base <= port < base + 8 → drive_of (snd (port_inb p port)) = drive_of p;
  in_busy p n :
    d_busy (drive_of p) = S n →
    let '(status, p') := port_inb p (base + ATA_REG_STATUS) in
    has_flag status ATA_SR_BSY = true ∧ quiet status ∧ drive_of p' = (drive_of p) <| d_busy := n |>;
  in_status p :
    d_busy (drive_of p) = O →
    let '(status, p') := port_inb p (base + ATA_REG_STATUS) in
    has_flag status ATA_SR_BSY = false ∧ has_flag status ATA_SR_DRQ = data_phase (d_phase (drive_of p)) ∧ quiet status ∧
    drive_of p' = drive_of p;
  out_reg p r v :
    d_phase (drive_of p) = Idle → d_busy (drive_of p) = O → 2 <= r <= 6 →
    drive_of (port_outb p (base + r) v) = set_reg (drive_of p) r v;
  out_identify p :
    d_phase (drive_of p) = Idle → d_busy (drive_of p) = O → Z.testbit (d_select (drive_of p)) 4 = (sl =? 1) →
    ∃ n, (n <= delay)%nat ∧ drive_of (port_outb p (base + ATA_REG_COMMAND) ATA_CMD_IDENTIFY)
      = (drive_of p) <| d_phase := Sending identity |> <| d_busy := n |>;
  out_read p :
    let d := drive_of p in
    d_phase d = Idle → d_busy d = O → addressed sl d → (address d + 1) * ATA_SECTOR_SIZE <= zlen (d_disk d) →
    ∃ n, (n <= delay)%nat ∧ drive_of (port_outb p (base + ATA_REG_COMMAND) ATA_CMD_READ_SECTORS)
      = d <| d_phase := Sending (words_of (sector d (address d))) |> <| d_busy := n |>;
  out_write p :
    let d := drive_of p in
    d_phase d = Idle → d_busy d = O → addressed sl d → (address d + 1) * ATA_SECTOR_SIZE <= zlen (d_disk d) →
    ∃ n, (n <= delay)%nat ∧ drive_of (port_outb p (base + ATA_REG_COMMAND) ATA_CMD_WRITE_SECTORS)
      = d <| d_phase := Receiving (address d) [] |> <| d_busy := n |>;
  out_flush p :
    d_phase (drive_of p) = Idle → d_busy (drive_of p) = O →
    ∃ n, (n <= delay)%nat ∧ drive_of (port_outb p (base + ATA_REG_COMMAND) ATA_CMD_FLUSH) = (drive_of p) <| d_busy := n |>;
  in_data p w ws :
    d_phase (drive_of p) = Sending (w :: ws) → d_busy (drive_of p) = O →
    let '(word, p') := port_inw p (base + ATA_REG_DATA) in word = w ∧ drive_of p' = sent (drive_of p) ws;
  out_data p lba got word :
    d_phase (drive_of p) = Receiving lba got → d_busy (drive_of p) = O →
    ∃ n, (n <= delay)%nat ∧ drive_of (port_outw p (base + ATA_REG_DATA) word) = received (drive_of p) lba got word n;
}.

(** ** Words and bytes *)

Lemma lor_byte_word b0 b1 : byte b0 → Z.lor b0 (Z.shiftl b1 8) = b0 + 2 ^ 8 * b1.
Proof. intros H0. rewrite Z.shiftl_mul_pow2, Z.lor_comm, lor_low_add by (unfold byte in H0; lia). lia. Qed.

Lemma word_bytes_split b0 b1 : byte b0 → byte b1 → word_bytes (b0 + 2 ^ 8 * b1) = [b0; b1].
Proof.
  unfold byte, word_bytes. intros H0 H1. change 255 with (Z.ones 8). rewrite Z.shiftr_div_pow2, !Z.land_ones by lia.
  f_equal; [|f_equal].
  - rewrite Z.mul_comm, Z.mod_add by lia. apply Z.mod_small. lia.
  - rewrite Z.mul_comm, Z.div_add, (Z.div_small b0) by lia. apply Z.mod_small. lia.
Qed.

Lemma words_of_spec n l :
  byte_list l → length l = (2 * n)%nat → flat_map word_bytes (words_of l) = l ∧ length (words_of l) = n.
Proof.
  revert l. induction n as [|n IH]; intros l Hb Hl.
  - by destruct l.
  - destruct l as [|b0 [|b1 l]]; cbn [length] in Hl; [lia|lia|].
    apply list.Forall_cons_1 in Hb as [H0 [H1 Hb]%list.Forall_cons_1].
    destruct (IH l Hb) as [E1 E2]; [lia|]. cbn [words_of flat_map length].
    by rewrite word_bytes_split, E1, E2.
Qed.

(** A register's number is in range. *)
Ltac reg := split; vm_compute; congruence.

(** ** The steps of the driver *)

Section Driver.
Context {P : Type} {ports : Ports P} {base sl : Z} {laws : DriveLaws P base sl}.

(** The driver's object for this drive. *)
Record wired (d : ata) : Prop := {
  wired_base : io_base d = base;
  wired_slave : slave d = sl ∧ (sl = 0 ∨ sl = 1);
  wired_ctrl : ¬ base <= u16 (ctrl_base d + ATA_REG_ALTSTATUS) < base + 8;
}.

Lemma port_of r : 0 <= r < 8 → u16 (base + r) = base + r.
Proof. intros. pose proof base_range. apply Z.mod_small. lia. Qed.

Lemma waited (d : ata) p : wired d → drive_of (ata_io_wait p (ctrl_base d)) = drive_of p.
Proof.
  intros [_ _ Hc]. unfold ata_io_wait, inb, for_. change (Z.to_nat 4) with 4%nat. cbn [for_from].
  by rewrite !in_other.
Qed.

(** Waiting until the drive is no longer busy. *)
Lemma poll_done tries (decide : Z → option bool) b p :
  (∀ st, has_flag st ATA_SR_BSY = true → quiet st → decide st = None) →
  (∀ st, has_flag st ATA_SR_BSY = false → has_flag st ATA_SR_DRQ = data_phase (d_phase (drive_of p)) → quiet st → decide st = Some b) →
  (d_busy (drive_of p) < tries)%nat →
  ∃ p', poll tries decide p (base + ATA_REG_STATUS) = (b, p') ∧ drive_of p' = (drive_of p) <| d_busy := O |>.
Proof.
  intros Hbusy Hdone. remember (d_busy (drive_of p)) as n eqn:En. symmetry in En.
  revert tries p En Hdone. induction n as [|n IH]; intros tries p En Hdone Ht; (destruct tries as [|tries]; [lia|]); cbn [poll];
    unfold inb; rewrite port_of by reg.
  - pose proof (in_status p En) as Hs. destruct (port_inb p (base + ATA_REG_STATUS)) as [st p'].
    destruct Hs as (H1 & H2 & H3 & H4). rewrite (Hdone st H1 H2 H3). exists p'. split; [done|].
    rewrite H4. revert En. by destruct (drive_of p); intros [= ->].
  - pose proof (in_busy p n En) as Hs. destruct (port_inb p (base + ATA_REG_STATUS)) as [st p'].
    destruct Hs as (H1 & H2 & H3). rewrite (Hbusy st H1 H2).
    destruct (IH tries p') as (p2 & E & Ed); [by rewrite H3|by rewrite H3|lia|].
    exists p2. split; [done|]. by rewrite Ed, H3.
Qed.

Lemma wait_busy_ok d p :
  wired d → (d_busy (drive_of p) <= delay)%nat →
  ∃ p', wait_busy d p = (true, p') ∧ drive_of p' = (drive_of p) <| d_busy := O |>.
Proof.
  intros [Hb _ _] Hn. pose proof delay_short. unfold wait_busy. rewrite Hb. apply poll_done; [| |lia].
  - intros st Hs _. unfold not_busy. by rewrite Hs.
  - intros st Hs _ _. unfold not_busy. by rewrite Hs.
Qed.

Lemma wait_data_ok d p :
  wired d → (d_busy (drive_of p) <= delay)%nat → data_phase (d_phase (drive_of p)) = true →
  ∃ p', wait_data_ready d p = (true, p') ∧ drive_of p' = (drive_of p) <| d_busy := O |>.
Proof.
  intros [Hb _ _] Hn Hph. pose proof delay_short. unfold wait_data_ready. rewrite Hb. apply poll_done; [| |lia].
  - intros st Hs [He Hf]. unfold data_ready. by rewrite Hs, He, Hf.
  - intros st Hs Hd [He Hf]. unfold data_ready. by rewrite Hs, Hd, Hph.
Qed.

(** Reading what the drive sends. *)
Lemma read_words_ok d ws p :
  wired d → d_phase (drive_of p) = match ws with [] => Idle | _ => Sending ws end → d_busy (drive_of p) = O →
  ∃ p', read_words (length ws) d p = (ws, p') ∧ drive_of p' = (drive_of p) <| d_phase := Idle |>.
Proof.
  intros W. revert p. induction ws as [|w ws IH]; intros p Hph Hb; cbn [read_words length].
  - exists p. split; [done|]. revert Hph. by destruct (drive_of p); intros [= ->].
  - pose proof (in_data p w ws Hph Hb) as Hin. unfold inw. rewrite (wired_base _ W), port_of by reg.
    destruct (port_inw p (base + ATA_REG_DATA)) as [word p']. destruct Hin as [-> Hd].
    destruct (IH p') as (p2 & -> & E2); [by rewrite Hd; destruct ws|by rewrite Hd|].
    exists p2. split; [done|]. by rewrite E2, Hd.
Qed.

(** ** Addressing *)

Lemma select_value lba :
  sl = 0 ∨ sl = 1 → 0 <= lba < 2 ^ 32 →
  let v := u8 (Z.lor (Z.lor 0xE0 (Z.shiftl sl 4)) (Z.land (Z.shiftr lba 24) 0x0F)) in
  Z.testbit v 4 = (sl =? 1) ∧ Z.testbit v 6 = true ∧ Z.land v 15 = Z.land (Z.shiftr lba 24) 15.
Proof.
  intros Hsl Hl. change 0x0F with (Z.ones 4). rewrite Z.land_ones by lia.
  pose proof (Z.mod_pos_bound (Z.shiftr lba 24) (2 ^ 4) ltac:(lia)) as Hh. set (h := Z.shiftr lba 24 mod 2 ^ 4) in *. clearbody h.
  assert (h ∈ seqZ 0 16) as Hin by (apply elem_of_seqZ; lia).
  apply list_elem_of_In in Hin. cbn in Hin.
  destruct Hsl as [-> | ->]; repeat (destruct Hin as [<-|Hin]; [vm_compute; done|]); done.
Qed.

Lemma address_value lba :
  0 <= lba < 2 ^ 28 →
  Z.land lba 0xFF + 2 ^ 8 * Z.land (Z.shiftr lba 8) 0xFF + 2 ^ 16 * Z.land (Z.shiftr lba 16) 0xFF
    + 2 ^ 24 * Z.land (Z.shiftr lba 24) 15 = lba.
Proof.
  intros Hl. change 0xFF with (Z.ones 8). change 15 with (Z.ones 4).
  rewrite !Z.shiftr_div_pow2, !Z.land_ones by lia. Z.to_euclidean_division_equations; lia.
Qed.

Lemma land_byte x : u8 (Z.land x 0xFF) = Z.land x 0xFF.
Proof. change 0xFF with (Z.ones 8). rewrite Z.land_ones by lia. apply u8_small, Z.mod_pos_bound. lia. Qed.

(** A drive that waits for a command. *)
Definition idle (p : P) : Prop := d_phase (drive_of p) = Idle ∧ d_busy (drive_of p) = O.

(** The same disk, and the drive waits again. *)
Definition settled (p p' : P) : Prop := idle p' ∧ d_disk (drive_of p') = d_disk (drive_of p).

Lemma out_reg_ok d p r v :
  wired d → idle p → 2 <= r <= 6 → idle (outb p (io_base d + r) v) ∧ drive_of (outb p (io_base d + r) v) = set_reg (drive_of p) r (u8 v).
Proof.
  intros W [Hp Hb] Hr. unfold idle, outb. rewrite (wired_base _ W), port_of by lia. rewrite out_reg by done.
  split; [|done]. unfold set_reg. repeat case_match; by split.
Qed.

Lemma select_ok d p lba :
  wired d → idle p → 0 <= lba < 2 ^ 32 →
  idle (select_drive d p lba) ∧
  drive_of (select_drive d p lba) = set_reg (drive_of p) ATA_REG_HDDEVSEL (u8 (Z.lor (Z.lor 0xE0 (Z.shiftl sl 4)) (Z.land (Z.shiftr lba 24) 0x0F))).
Proof.
  intros W Hi Hl. unfold select_drive, idle. rewrite waited by done. rewrite (proj1 (wired_slave _ W)).
  apply out_reg_ok; [done|done|reg].
Qed.

(** The drive as the registers of a command for the sector [lba] leave it,
    before the command is given. *)
Definition programmed (dr : drive) (lba : Z) : drive :=
  mk_drive (d_disk dr) 1 (Z.land lba 0xFF) (Z.land (Z.shiftr lba 8) 0xFF) (Z.land (Z.shiftr lba 16) 0xFF)
    (u8 (Z.lor (Z.lor 0xE0 (Z.shiftl sl 4)) (Z.land (Z.shiftr lba 24) 0x0F))) Idle O.

Lemma programmed_address dr lba :
  sl = 0 ∨ sl = 1 → 0 <= lba < 2 ^ 28 → addressed sl (programmed dr lba) ∧ address (programmed dr lba) = lba.
Proof.
  intros Hsl Hl. destruct (select_value lba Hsl ltac:(lia)) as (H4 & H6 & H15). unfold addressed, address, programmed.
  cbn [d_count d_select d_lba0 d_lba1 d_lba2]. rewrite H15. split; [done|]. by apply address_value.
Qed.

(** Everything up to the command. *)
Definition program (d : ata) (p : P) (lba : Z) : P :=
  let p := outb p (io_base d + ATA_REG_SECCOUNT0) 1 in
  let p := outb p (io_base d + ATA_REG_LBA0) (Z.land lba 0xFF) in
  let p := outb p (io_base d + ATA_REG_LBA1) (Z.land (Z.shiftr lba 8) 0xFF) in
  outb p (io_base d + ATA_REG_LBA2) (Z.land (Z.shiftr lba 16) 0xFF).

Lemma program_ok d p p0 lba :
  wired d → idle p0 → 0 <= lba < 2 ^ 28 → drive_of p = drive_of (select_drive d p0 lba) →
  drive_of (program d p lba) = programmed (drive_of p0) lba.
Proof.
  intros W Hi Hl Hp. destruct (select_ok d p0 lba W Hi ltac:(lia)) as [Hi1 E1].
  assert (idle p) as Hip by (unfold idle; by rewrite Hp). unfold program.
  destruct (out_reg_ok d p ATA_REG_SECCOUNT0 1 W Hip ltac:(reg)) as [Hi2 E2].
  set (p2 := outb p _ 1) in *.
  destruct (out_reg_ok d p2 ATA_REG_LBA0 (Z.land lba 0xFF) W Hi2 ltac:(reg)) as [Hi3 E3]. set (p3 := outb p2 _ _) in *.
  destruct (out_reg_ok d p3 ATA_REG_LBA1 (Z.land (Z.shiftr lba 8) 0xFF) W Hi3 ltac:(reg)) as [Hi4 E4]. set (p4 := outb p3 _ _) in *.
  destruct (out_reg_ok d p4 ATA_REG_LBA2 (Z.land (Z.shiftr lba 16) 0xFF) W Hi4 ltac:(reg)) as [_ E5].
  rewrite E5, E4, E3, E2, Hp, E1, !land_byte. destruct Hi as [Hph Hb]. unfold programmed.
  revert Hph Hb. destruct (drive_of p0). cbn [d_phase d_busy]. intros -> ->. reflexivity.
Qed.

(** ** Sectors *)

(** The area the 28-bit addresses reach, and whole sectors of bytes. *)
Definition has_sector (p : P) (lba : Z) : Prop :=
  0 <= lba < 2 ^ 28 ∧ (lba + 1) * ATA_SECTOR_SIZE <= zlen (d_disk (drive_of p)) ∧ byte_list (d_disk (drive_of p)).

Lemma set_busy_idle p : idle p → (drive_of p) <| d_busy := O |> = drive_of p.
Proof. intros [_ Hb]. revert Hb. by destruct (drive_of p); intros [= ->]. Qed.

(** Selecting the drive, waiting and programming the registers. *)
Lemma prepare_ok d p lba :
  wired d → idle p → has_sector p lba →
  ∃ p2, wait_busy d (select_drive d p lba) = (true, p2) ∧
    (∀ cmd, start_command d p2 lba cmd = port_outb (program d p2 lba) (base + ATA_REG_COMMAND) (u8 cmd)) ∧
    drive_of (program d p2 lba) = programmed (drive_of p) lba.
Proof.
  intros W Hi (Hl & _ & _). destruct (select_ok d p lba W Hi ltac:(lia)) as [Hi1 _].
  destruct (wait_busy_ok d (select_drive d p lba) W) as (p2 & Hw & E2); [rewrite (proj2 Hi1); lia|].
  exists p2. split; [done|]. rewrite set_busy_idle in E2 by done. split.
  - intros cmd. unfold start_command. fold (program d p2 lba). unfold outb at 1. by rewrite (wired_base _ W), port_of by reg.
  - by apply program_ok.
Qed.

Lemma sector_of_programmed dr lba : sector (programmed dr lba) = sector dr.
Proof. done. Qed.

Lemma sector_bytes p lba :
  has_sector p lba →
  flat_map word_bytes (words_of (sector (drive_of p) lba)) = sector (drive_of p) lba ∧
  length (words_of (sector (drive_of p) lba)) = 256%nat.
Proof.
  intros (Hl & He & Hb). apply words_of_spec; [by apply bytes_sub|].
  assert (zlen (sector (drive_of p) lba) = 512) as E by (apply zlen_sub; unfold ATA_SECTOR_SIZE in *; lia).
  unfold zlen in E. lia.
Qed.

Lemma read_sector_ok d p lba :
  wired d → idle p → has_sector p lba →
  ∃ p', read_sector d p lba = (Some (sector (drive_of p) lba), p') ∧ settled p p'.
Proof.
  intros W Hi Hs. pose proof Hs as (Hl & He & _).
  destruct (prepare_ok d p lba W Hi Hs) as (p2 & Hw & Hcmd & Hp). unfold read_sector. rewrite Hw. cbn [negb].
  rewrite Hcmd. change (u8 ATA_CMD_READ_SECTORS) with ATA_CMD_READ_SECTORS.
  destruct (programmed_address (drive_of p) lba (proj2 (wired_slave _ W)) Hl) as [Ha Hal].
  destruct (out_read (program d p2 lba)) as (n & Hn & Hd); [by rewrite Hp|by rewrite Hp|by rewrite Hp|by rewrite Hp, Hal|].
  rewrite Hp, Hal in Hd. cbv zeta in Hd.
  set (p3 := port_outb _ _ _) in *.
  destruct (wait_data_ok d p3 W) as (p4 & Hw4 & E4); [by rewrite Hd|by rewrite Hd|]. rewrite Hw4. cbn [negb].
  destruct (sector_bytes p lba Hs) as [Hb Hlen]. change (sector (programmed (drive_of p) lba) lba) with (sector (drive_of p) lba) in Hd.
  destruct (read_words_ok d (words_of (sector (drive_of p) lba)) p4 W) as (p5 & Hr & E5).
  { rewrite E4, Hd. destruct (words_of _); [done|done]. }
  { by rewrite E4. }
  rewrite Hlen in Hr. rewrite Hr, Hb. exists p5. split; [done|]. unfold settled, idle. by rewrite E5, E4, Hd.
Qed.

(** The data of a sector: the last word makes it part of the disk. *)
Lemma write_words_ok d p lba data :
  wired d → byte_list data → ATA_SECTOR_SIZE <= zlen data → d_phase (drive_of p) = Receiving lba [] → d_busy (drive_of p) = O →
  ∃ n, (n <= delay)%nat ∧ drive_of (write_words d p data)
    = (drive_of p) <| d_disk ::= splice (lba * ATA_SECTOR_SIZE) (sub 0 ATA_SECTOR_SIZE data) |> <| d_phase := Idle |> <| d_busy := n |>.
Proof.
  intros W Hby Hlen Hph Hb. unfold ATA_SECTOR_SIZE in Hlen. set (dr := drive_of p) in *.
  assert ((if 256 <? 256 then drive_of (write_words d p data) = dr <| d_phase := Receiving lba (sub 0 (2 * 256) data) |>
    else ∃ n, (n <= delay)%nat ∧ drive_of (write_words d p data)
      = dr <| d_disk ::= splice (lba * ATA_SECTOR_SIZE) (sub 0 ATA_SECTOR_SIZE data) |> <| d_phase := Idle |> <| d_busy := n |>)) as H;
    [|exact H].
  apply (for_inv (fun i p' => if i <? 256 then drive_of p' = dr <| d_phase := Receiving lba (sub 0 (2 * i) data) |>
    else ∃ n, (n <= delay)%nat ∧ drive_of p'
      = dr <| d_disk ::= splice (lba * ATA_SECTOR_SIZE) (sub 0 ATA_SECTOR_SIZE data) |> <| d_phase := Idle |> <| d_busy := n |>));
    [lia| |].
  - change (0 <? 256) with true. cbn iota. change (sub 0 (2 * 0) data) with (@nil Z). rewrite <- Hph. subst dr. by destruct (drive_of p).
  - intros i p' Hi. rewrite (proj2 (Z.ltb_lt i 256)) by lia. intros Ep.
    set (b0 := zget 0 data (2 * i)). set (b1 := zget 0 data (2 * i + 1)).
    assert (byte b0 ∧ byte b1) as [H0 H1] by (split; by apply zget_byte).
    unfold outw. rewrite (wired_base _ W), port_of by reg. rewrite lor_byte_word by done.
    unfold u16. rewrite Z.mod_small by (unfold byte in *; lia).
    destruct (out_data p' lba (sub 0 (2 * i) data) (b0 + 2 ^ 8 * b1)) as (n & Hn & E); [by rewrite Ep|by rewrite Ep|].
    rewrite E, Ep. unfold received. rewrite word_bytes_split by done.
    assert (sub 0 (2 * i) data ++ [b0; b1] = sub 0 (2 * (i + 1)) data) as ->.
    { unfold b0, b1. rewrite <- (sub_two (2 * i)) by lia. replace (2 * (i + 1)) with (2 * i + 2) by lia. by rewrite <- (sub_app 0 (2 * i) 2) by lia. }
    rewrite zlen_sub by lia. unfold ATA_SECTOR_SIZE. destruct (Z.ltb_spec (i + 1) 256), (Z.ltb_spec (2 * (i + 1)) 512); [done|lia|lia|].
    exists n. split; [done|]. by replace (2 * (i + 1)) with 512 by lia.
Qed.

Lemma has_sector_splice p p' lba i x :
  has_sector p lba → has_sector p i → byte_list x → zlen x = ATA_SECTOR_SIZE →
  d_disk (drive_of p') = splice (i * ATA_SECTOR_SIZE) x (d_disk (drive_of p)) → has_sector p' lba.
Proof.
  intros (Hl & He & Hb) (Hi & Hie & _) Hx Hxl E. unfold ATA_SECTOR_SIZE in *.
  split; [done|]. rewrite E. unfold ATA_SECTOR_SIZE. split; [rewrite zlen_splice; lia|by apply bytes_splice].
Qed.

Lemma write_sector_ok d p lba data :
  wired d → idle p → has_sector p lba → byte_list data → ATA_SECTOR_SIZE <= zlen data →
  ∃ p', write_sector d p lba data = (true, p') ∧ idle p' ∧
    d_disk (drive_of p') = splice (lba * ATA_SECTOR_SIZE) (sub 0 ATA_SECTOR_SIZE data) (d_disk (drive_of p)).
Proof.
  intros W Hi Hs Hby Hlen. pose proof Hs as (Hl & He & _).
  destruct (prepare_ok d p lba W Hi Hs) as (p2 & Hw & Hcmd & Hp). unfold write_sector. rewrite Hw. cbn [negb].
  rewrite Hcmd. change (u8 ATA_CMD_WRITE_SECTORS) with ATA_CMD_WRITE_SECTORS.
  destruct (programmed_address (drive_of p) lba (proj2 (wired_slave _ W)) Hl) as [Ha Hal].
  destruct (out_write (program d p2 lba)) as (n & Hn & Hd); [by rewrite Hp|by rewrite Hp|by rewrite Hp|by rewrite Hp, Hal|].
  rewrite Hp, Hal in Hd. cbv zeta in Hd. set (p3 := port_outb _ _ _) in *.
  destruct (wait_data_ok d p3 W) as (p4 & Hw4 & E4); [by rewrite Hd|by rewrite Hd|]. rewrite Hw4. cbn [negb].
  destruct (write_words_ok d p4 lba data W Hby Hlen) as (n5 & Hn5 & E5); [by rewrite E4, Hd|by rewrite E4|].
  set (p5 := write_words d p4 data) in *.
  destruct (wait_busy_ok d p5 W) as (p6 & Hw6 & E6); [by rewrite E5|]. rewrite Hw6. cbn [negb].
  assert (d_busy (drive_of p6) = O) as Hb6 by (by rewrite E6).
  pose proof (in_status p6 Hb6) as Hst. unfold inb. rewrite (wired_base _ W), port_of by reg.
  destruct (port_inb p6 (base + ATA_REG_STATUS)) as [st p7]. destruct Hst as (_ & _ & [He1 Hf1] & E7).
  exists p7. split.
  - f_equal. unfold has_flag in *. rewrite Z.land_lor_distr_r. apply negb_false_iff, Z.eqb_eq in He1, Hf1. by rewrite He1, Hf1.
  - unfold idle. by rewrite E7, E6, E5, E4, Hd.
Qed.

(** [n] sectors from [lba] on. *)
Definition has_sectors (p : P) (lba n : Z) : Prop :=
  0 <= lba ∧ lba + n <= 2 ^ 28 ∧ (lba + n) * ATA_SECTOR_SIZE <= zlen (d_disk (drive_of p)) ∧ byte_list (d_disk (drive_of p)).

Lemma has_sectors_first p lba n :
  has_sectors p lba (Z.of_nat (S n)) → has_sector p lba ∧ u32 lba = lba.
Proof.
  intros (H0 & H1 & H2 & H3). unfold ATA_SECTOR_SIZE in *. split; [|apply u32_small; lia].
  split; [lia|]. unfold ATA_SECTOR_SIZE. split; [lia|done].
Qed.

Lemma has_sectors_rest p p' lba n :
  has_sectors p lba (Z.of_nat (S n)) → zlen (d_disk (drive_of p')) = zlen (d_disk (drive_of p)) → byte_list (d_disk (drive_of p')) →
  has_sectors p' (lba + 1) (Z.of_nat n).
Proof. unfold has_sectors, ATA_SECTOR_SIZE. intros (H0 & H1 & H2 & _) E Hb. rewrite E. split; [lia|]. split; [lia|]. split; [lia|done]. Qed.

Lemma read_sectors_ok n d p lba :
  wired d → idle p → has_sectors p lba (Z.of_nat n) →
  ∃ p', read_sectors n d p lba
      = (RETURN_OK, sub (lba * ATA_SECTOR_SIZE) (Z.of_nat n * ATA_SECTOR_SIZE) (d_disk (drive_of p)), p') ∧ settled p p'.
Proof.
  intros W. revert p lba. induction n as [|n IH]; intros p lba Hi Hs; cbn [read_sectors].
  - exists p. by split.
  - destruct (has_sectors_first p lba n Hs) as [Hs1 ->]. destruct (read_sector_ok d p lba W Hi Hs1) as (p1 & -> & Hi1 & E1).
    destruct (IH p1 (lba + 1) Hi1) as (p2 & -> & Hi2 & E2).
    { apply (has_sectors_rest p); [done|by rewrite E1|rewrite E1; apply Hs]. }
    exists p2. rewrite E1 in *. split; [|by split]. f_equal. f_equal. unfold sector, ATA_SECTOR_SIZE. destruct Hs as (H0 & _).
    rewrite Nat2Z.inj_succ. replace ((lba + 1) * 512) with (lba * 512 + 512) by lia.
    rewrite sub_app by lia. f_equal. lia.
Qed.

Lemma write_sectors_ok n d p lba data :
  wired d → idle p → has_sectors p lba (Z.of_nat n) → byte_list data → zlen data = Z.of_nat n * ATA_SECTOR_SIZE →
  ∃ p', write_sectors n d p lba data = (RETURN_OK, p') ∧ idle p' ∧
    d_disk (drive_of p') = splice (lba * ATA_SECTOR_SIZE) data (d_disk (drive_of p)).
Proof.
  intros W. revert p lba data. induction n as [|n IH]; intros p lba data Hi Hs Hby Hlen; cbn [write_sectors].
  - unfold outb. rewrite (wired_base _ W), port_of by reg.
    destruct (out_flush p (proj1 Hi) (proj2 Hi)) as (k & Hk & Ef). change (u8 ATA_CMD_FLUSH) with ATA_CMD_FLUSH.
    set (p1 := port_outb _ _ _) in *. destruct (wait_busy_ok d p1 W) as (p2 & -> & E2); [by rewrite Ef|].
    exists p2. split; [done|]. destruct data; [|unfold zlen in Hlen; cbn in Hlen; lia]. rewrite splice_nil.
    unfold idle. rewrite E2, Ef. cbn. split; [|done]. by split; [apply Hi|].
  - destruct (has_sectors_first p lba n Hs) as [Hs1 ->]. unfold ATA_SECTOR_SIZE in Hlen.
    destruct (write_sector_ok d p lba data W Hi Hs1 Hby) as (p1 & -> & Hi1 & E1); [unfold ATA_SECTOR_SIZE; lia|].
    set (s1 := sub 0 ATA_SECTOR_SIZE data) in *.
    assert (zlen s1 = 512) as Hs1l by (apply zlen_sub; unfold ATA_SECTOR_SIZE; lia).
    destruct Hs1 as ([Hl0 _] & He & Hbd). unfold ATA_SECTOR_SIZE in He.
    destruct (IH p1 (lba + 1) (drop (Z.to_nat ATA_SECTOR_SIZE) data) Hi1) as (p2 & -> & Hi2 & E2).
    + apply (has_sectors_rest p); [done|rewrite E1; unfold ATA_SECTOR_SIZE; rewrite zlen_splice; lia|].
      rewrite E1. apply bytes_splice; [by apply bytes_sub|done].
    + by apply Forall_drop.
    + unfold zlen, ATA_SECTOR_SIZE in *. rewrite length_drop. lia.
    + exists p2. split; [done|]. split; [done|]. rewrite E2, E1.
      destruct Hs as (H0 & _ & Hend & _). unfold ATA_SECTOR_SIZE in *.
      replace ((lba + 1) * 512) with (lba * 512 + zlen s1) by lia. rewrite <- splice_app.
      * f_equal. subst s1. unfold sub. change (Z.to_nat 0) with 0%nat. by rewrite drop_0, take_drop.
      * lia.
      * unfold zlen in *. rewrite length_drop. lia.
Qed.

(** C18. What [write_blocks] writes [read_blocks] reads back.  On a drive that
    works and waits for a command, for sectors the 28-bit addresses reach, both
    succeed; the disk gets the data at the place of the sectors and keeps every
    other byte; and the drive waits for a command again. *)
Theorem ata_write_read d p lba count buffer data :
  wired d → present d = true → idle p → buffer ≠ 0 → 0 < count → has_sectors p lba count →
  byte_list data → zlen data = count * ATA_SECTOR_SIZE →
  ∃ p1 p2, write_blocks d p lba count buffer data = (RETURN_OK, p1) ∧
    d_disk (drive_of p1) = splice (lba * ATA_SECTOR_SIZE) data (d_disk (drive_of p)) ∧
    read_blocks d p1 lba count buffer = (RETURN_OK, data, p2) ∧ settled p1 p2.
Proof.
  intros W Hpr Hi Hbuf Hc Hs Hby Hlen. unfold write_blocks, read_blocks. rewrite Hpr.
  rewrite (proj2 (Z.eqb_neq buffer 0)), (proj2 (Z.eqb_neq count 0)) by lia. cbn [negb orb].
  rewrite <- (Z2Nat.id count) in Hs, Hlen by lia. pose proof Hs as (H0 & H1 & H2 & H3).
  destruct (write_sectors_ok (Z.to_nat count) d p lba data W Hi Hs Hby Hlen) as (p1 & -> & Hi1 & E1). exists p1.
  assert (zlen (d_disk (drive_of p1)) = zlen (d_disk (drive_of p))) as El.
  { rewrite E1. unfold ATA_SECTOR_SIZE in *. rewrite zlen_splice; lia. }
  destruct (read_sectors_ok (Z.to_nat count) d p1 lba W Hi1) as (p2 & -> & S2).
  { split; [done|]. split; [done|]. rewrite El. split; [done|]. rewrite E1. by apply bytes_splice. }
  exists p2. split; [done|]. split; [done|]. split; [|done]. f_equal. f_equal. rewrite <- Hlen, E1.
  unfold ATA_SECTOR_SIZE in *. apply sub_splice_same; lia.
Qed.

(** ** [initialize] *)

Lemma status_nonzero st : has_flag st ATA_SR_BSY = true ∨ has_flag st ATA_SR_DRQ = true → st =? 0 = false.
Proof. intros Hst. apply Z.eqb_neq. intros ->. by destruct Hst. Qed.

(** The first look at the status finds a drive. *)
Lemma first_status p :
  data_phase (d_phase (drive_of p)) = true → (d_busy (drive_of p) <= delay)%nat →
  ∃ st p' n, port_inb p (base + ATA_REG_STATUS) = (st, p') ∧ st =? 0 = false ∧ (n <= delay)%nat ∧
    drive_of p' = (drive_of p) <| d_busy := n |>.
Proof.
  intros Hph Hn. destruct (d_busy (drive_of p)) as [|n] eqn:Eb.
  - pose proof (in_status p Eb) as Hs. destruct (port_inb p _) as [st p']. destruct Hs as (_ & Hd & _ & E).
    exists st, p', O. split; [done|]. split; [apply status_nonzero; right; by rewrite Hd|]. split; [lia|].
    rewrite E. revert Eb. by destruct (drive_of p); intros [= ->].
  - pose proof (in_busy p n Eb) as Hs. destruct (port_inb p _) as [st p']. destruct Hs as (Hb & _ & E).
    exists st, p', n. split; [done|]. split; [apply status_nonzero; by left|]. split; [lia|done].
Qed.

(** The registers that [initialize] writes before its command. *)
Lemma cleared_ok d p :
  wired d → idle p →
  let p1 := outb (outb (outb (outb (select_drive d p 0) (io_base d + ATA_REG_SECCOUNT0) 0)
    (io_base d + ATA_REG_LBA0) 0) (io_base d + ATA_REG_LBA1) 0) (io_base d + ATA_REG_LBA2) 0 in
  idle p1 ∧ d_disk (drive_of p1) = d_disk (drive_of p) ∧ Z.testbit (d_select (drive_of p1)) 4 = (sl =? 1).
Proof.
  intros W Hi p1. destruct (select_ok d p 0 W Hi ltac:(lia)) as [Hi1 E1].
  destruct (select_value 0 (proj2 (wired_slave _ W)) ltac:(lia)) as (H4 & _).
  subst p1. set (q1 := select_drive d p 0) in *.
  destruct (out_reg_ok d q1 ATA_REG_SECCOUNT0 0 W Hi1 ltac:(reg)) as [Hi2 E2]. set (q2 := outb q1 _ _) in *.
  destruct (out_reg_ok d q2 ATA_REG_LBA0 0 W Hi2 ltac:(reg)) as [Hi3 E3]. set (q3 := outb q2 _ _) in *.
  destruct (out_reg_ok d q3 ATA_REG_LBA1 0 W Hi3 ltac:(reg)) as [Hi4 E4]. set (q4 := outb q3 _ _) in *.
  destruct (out_reg_ok d q4 ATA_REG_LBA2 0 W Hi4 ltac:(reg)) as [Hi5 E5].
  split; [done|]. rewrite E5, E4, E3, E2, E1. split; [done|]. exact H4.
Qed.

(** [initialize] of a drive that is there fails for want of memory, or makes
    the device present, with what the drive says about itself. *)
Theorem initialize_spec {K} `{KAlloc K} (k : K) d p q k1 :
  wired d → idle p → kmalloc k ATA_SECTOR_SIZE = Done (q, k1) → (q ≠ 0 → ∃ k2, kfree k1 q = Done k2) →
  ∃ p', if q =? 0 then initialize k d p = Done (false, d, k1, p')
        else ∃ k2, kfree k1 q = Done k2 ∧ initialize k d p = Done (true, identified d identity, k2, p') ∧ settled p p'.
Proof.
  intros W Hi Hm Hfree. destruct (cleared_ok d p W Hi) as (Hi1 & Ed1 & Hs1). set (p1 := outb (outb _ _ _) (io_base d + ATA_REG_LBA2) 0) in *.
  destruct (out_identify p1 (proj1 Hi1) (proj2 Hi1) Hs1) as (n & Hn & E2). set (p2 := port_outb p1 _ _) in *.
  rewrite <- (waited d p2 W) in E2. set (p3 := ata_io_wait p2 _) in *.
  destruct (first_status p3) as (st & p4 & n4 & E4 & Hst & Hn4 & Ed4); [by rewrite E2|by rewrite E2|].
  destruct (wait_data_ok d p4 W) as (p5 & Hw & E5); [by rewrite Ed4|by rewrite Ed4, E2|].
  destruct (read_words_ok d identity p5 W) as (p6 & Hr & E6).
  { rewrite E5, Ed4, E2. pose proof identity_length. by destruct identity. }
  { by rewrite E5. }
  rewrite identity_length in Hr.
  assert (initialize k d p = if q =? 0 then Done (false, d, k1, p5) else
    let* k2 := kfree k1 q in Done (true, identified d identity, k2, p6)) as ->.
  { unfold initialize. fold p1. unfold outb at 1, inb. rewrite (wired_base _ W), !port_of by reg.
    change (u8 ATA_CMD_IDENTIFY) with ATA_CMD_IDENTIFY. fold p2 p3. rewrite E4, Hst, Hw. cbn [negb]. rewrite Hm. cbn [obind].
    by rewrite Hr. }
  destruct (Z.eqb_spec q 0) as [|Hq]; [by exists p5|]. destruct (Hfree Hq) as [k2 ->]. exists p6, k2.
  split; [done|]. split; [done|]. unfold settled, idle. rewrite E6, E5, Ed4, E2. by rewrite <- Ed1.
Qed.

(** ** The driver as a block device *)

(** A device that [initialize] has found, in front of an idle drive whose
    sectors all have an address. *)
Definition usable (dev : ata * P) : Prop :=
  let (d, p) := dev in
  (io_base d = base ∧ slave d = sl ∧ (sl = 0 ∨ sl = 1) ∧ ¬ base <= u16 (ctrl_base d + ATA_REG_ALTSTATUS) < base + 8) ∧
  present d = true ∧ d_phase (drive_of p) = Idle ∧ d_busy (drive_of p) = O ∧
  zlen (d_disk (drive_of p)) <= 2 ^ 28 * ATA_SECTOR_SIZE ∧ byte_list (d_disk (drive_of p)).

#[local] Instance phase_eq_dec : EqDecision phase.
Proof. solve_decision. Defined.
#[local] Instance byte_dec c : Decision (byte c).
Proof. unfold byte. apply _. Defined.
#[local] Instance usable_dec dev : Decision (usable dev).
Proof. destruct dev. unfold usable, byte_list. apply _. Defined.

Definition ata_disk (dev : ata * P) : list Z :=
  if decide (usable dev) then d_disk (drive_of (snd dev)) else [].

Lemma usable_sector d p lba :
  0 <= lba → (lba + 1) * ATA_SECTOR_SIZE <= zlen (ata_disk (d, p)) →
  usable (d, p) ∧ ata_disk (d, p) = d_disk (drive_of p) ∧ wired d ∧ present d = true ∧ idle p ∧ has_sector p lba.
Proof.
  unfold ata_disk, ATA_SECTOR_SIZE. intros H0 Hl. destruct (decide (usable (d, p))) as [U|]; [|unfold zlen in Hl; cbn in Hl; lia].
  cbn [snd] in Hl. split; [done|]. split; [done|]. destruct U as ((Hb & Hs & Hsl & Hc) & Hpr & Hp & Hbu & Hz & Hby).
  unfold ATA_SECTOR_SIZE in Hz. repeat split; (done || lia).
Qed.

Lemma usable_after d p p' :
  usable (d, p) → idle p' → zlen (d_disk (drive_of p')) = zlen (d_disk (drive_of p)) → byte_list (d_disk (drive_of p')) →
  ata_disk (d, p') = d_disk (drive_of p').
Proof.
  intros (Hw & Hpr & _ & _ & Hz & _) [Hi1 Hi2] El Hb. unfold ata_disk. rewrite decide_True; [done|].
  split; [exact Hw|]. rewrite El. done.
Qed.
End Driver.

#[export, refine] Instance ata_laws {P base sl} {ports : Ports P} (laws : DriveLaws P base sl) : BlockLaws (ata * P) :=
  { disk := ata_disk (laws := laws) }.
Proof.
  - intros dev. unfold ata_disk. destruct (decide _) as [U|]; [|by apply list.Forall_nil]. destruct dev. apply U.
  - done.
  - intros [d p] lba H0 H1. destruct (usable_sector d p lba H0 H1) as (U & -> & W & Hpr & Hi & Hs).
    assert (has_sectors p lba 1) as Hss by (destruct Hs as (? & ? & ?); repeat split; (done || lia)).
    destruct (read_sectors_ok 1 d p lba W Hi Hss) as (p' & E & Hi' & E'). exists (d, p').
    cbn [read_block ata_ops]. unfold read_blocks. rewrite Hpr. cbn [negb orb Z.eqb]. change (Z.to_nat 1) with 1%nat.
    rewrite E. split; [done|]. split; [|done]. rewrite (usable_after d p p'); [done|done|done|by rewrite E'|rewrite E'; apply Hs].
  - intros [d p] lba blk H0 H1 Hlen Hby. destruct (usable_sector d p lba H0 H1) as (U & -> & W & Hpr & Hi & Hs).
    assert (has_sectors p lba 1) as Hss by (destruct Hs as (? & ? & ?); repeat split; (done || lia)).
    destruct (write_sectors_ok 1 d p lba blk W Hi Hss Hby) as (p' & E & Hi' & E'); [exact Hlen|]. exists (d, p').
    cbn [write_block ata_ops]. unfold write_blocks. rewrite Hpr. cbn [negb orb Z.eqb]. change (Z.to_nat 1) with 1%nat.
    rewrite E. split; [done|]. split; [|done].
    destruct Hs as (Hl & He & Hb). change (block_size (d, p)) with 512 in *. unfold ATA_SECTOR_SIZE in *.
    rewrite (usable_after d p p'); [exact E'|done|done| |]; rewrite E'; [apply zlen_splice; lia|by apply bytes_splice].
Defined.

(** ** A drive that meets the laws *)

(** It is the first of the channel at [0x1F0], and busy for two looks at its status. *)
Definition ideal_identity : list Z :=
  replicate 27 0 ++ [0x4B4D; 0x2020] ++ replicate 18 0x2020 ++ replicate 13 0 ++ [4; 0] ++ replicate 194 0.

Definition command (d : drive) (v : Z) : drive :=
  (if v =? ATA_CMD_IDENTIFY then d <| d_phase := Sending ideal_identity |>
   else if v =? ATA_CMD_READ_SECTORS then d <| d_phase := Sending (words_of (sector d (address d))) |>
   else if v =? ATA_CMD_WRITE_SECTORS then d <| d_phase := Receiving (address d) [] |>
   else d) <| d_busy := 2%nat |>.

#[export] Instance ideal_ports : Ports drive := {
  port_inb d port :=
    if port =? 0x1F7 then
      match d_busy d with
      | S n => (0x80, d <| d_busy := n |>)
      | O => (if data_phase (d_phase d) then 0x58 else 0x50, d)
      end
    else (0, d);
  port_inw d port :=
    if port =? 0x1F0 then match d_phase d with Sending (w :: ws) => (w, sent d ws) | _ => (0, d) end else (0, d);
  port_outb d port v :=
    if port =? 0x1F7 then command d v else set_reg d (port - 0x1F0) v;
  port_outw d port word :=
    if port =? 0x1F0 then match d_phase d with Receiving lba got => received d lba got word 2 | _ => d end else d;
}.

#[export, refine] Instance ideal_laws : DriveLaws drive 0x1F0 0 :=
  { drive_of d := d; delay := 2; identity := ideal_identity }.
Proof.
  - apply Nat.ltb_lt. vm_compute. reflexivity.
  - lia.
  - reflexivity.
  - intros p port Hp. cbn. destruct (Z.eqb_spec port 0x1F7); [lia|done].
  - intros p n E. cbn. rewrite E. done.
  - intros p E. cbn. rewrite E. by destruct (data_phase _).
  - intros p r v _ _ Hr. cbn. destruct (Z.eqb_spec (496 + r) 0x1F7); [lia|]. f_equal. lia.
  - intros p _ _ _. by exists 2%nat.
  - intros p d _ _ _ _. by exists 2%nat.
  - intros p d _ _ _ _. by exists 2%nat.
  - intros p _ _. by exists 2%nat.
  - intros p w ws E _. cbn. rewrite E. done.
  - intros p lba got word E _. exists 2%nat. cbn. rewrite E. done.
Defined.

(** ** Concrete runs *)

Definition hda : ata := (new_ata 0x1F0 0x3F6 0) <| present := true |> <| total_sectors := 4 |>.
Definition blank_drive : drive := mk_drive (replicate 2048 0) 0 0 0 0 0 Idle O.

Lemma hda_wired d : io_base d = 0x1F0 → slave d = 0 → ctrl_base d = 0x3F6 → wired (base := 0x1F0) (sl := 0) d.
Proof.
  intros Hb Hs Hc. split; [done|by split; [|left]|]. rewrite Hc. vm_compute. intros [_ H]. discriminate H.
Qed.

Lemma ata_write_read_witness :
  ∃ p1 p2, write_blocks hda blank_drive 1 2 64 (replicate 1024 7) = (RETURN_OK, p1) ∧
    read_blocks hda p1 1 2 64 = (RETURN_OK, replicate 1024 7, p2).
Proof.
  destruct (ata_write_read (base := 0x1F0) (sl := 0) hda blank_drive 1 2 64 (replicate 1024 7)) as (p1 & p2 & E1 & _ & E2 & _).
  - by apply hda_wired.
  - reflexivity.
  - split; reflexivity.
  - lia.
  - lia.
  - split; [lia|]. split; [lia|]. split; [vm_compute; congruence|by apply all_bytes_spec].
  - by apply all_bytes_spec.
  - reflexivity.
  - exists p1, p2. split; [exact E1|exact E2].
Defined.

Lemma initialize_spec_witness :
  ∃ p', initialize (mk_bump ∅ 4096) (new_ata 0x1F0 0x3F6 0) blank_drive
    = Done (true, identified (new_ata 0x1F0 0x3F6 0) ideal_identity, mk_bump ∅ 4608, p').
Proof.
  destruct (initialize_spec (base := 0x1F0) (sl := 0) (mk_bump ∅ 4096) (new_ata 0x1F0 0x3F6 0) blank_drive 4096 (mk_bump ∅ 4608))
    as [p' Hp].
  - by apply hda_wired.
  - split; reflexivity.
  - vm_compute. reflexivity.
  - intros _. eexists. reflexivity.
  - exists p'. destruct Hp as (k2 & [= <-] & E & _). exact E.
Defined.

(** What it knows of the drive then: the model [KM] and 4 sectors. *)
Example hda_identified :
  let d := identified (new_ata 0x1F0 0x3F6 0) ideal_identity in
  (c_str (model d), total_sectors d, present d) = ([75; 77], 4, true).
Proof. vm_compute. reflexivity. Qed.

(** The pauses read the port behind the one meant, the serial line's. *)
Example pause_reads_serial_line : u16 (0x3F6 + ATA_REG_ALTSTATUS) = 0x3F8.
Proof. reflexivity. Qed.

(** Addresses of more than 28 bits are cut: sector 2^28 is sector 0. *)
Example large_address_wraps :
  let p := blank_drive <| d_disk := replicate 512 9 |> in fst (read_sector hda p (2 ^ 28)) = fst (read_sector hda p 0).
Proof. vm_compute. reflexivity. Qed.

(** Without a device the ports read as zero, and nothing is detected; the
    object made for it is taken out of [/dev] again. *)
Definition no_drive : Type := unit.
#[local] Instance floating : Ports no_drive := {
  port_inb p _ := (0, p); port_inw p _ := (0, p); port_outb p _ _ := p; port_outw p _ _ := p;
}.
Example nothing_detected :
  match ata_init (P := no_drive) 20 no_scan None 0 None (mk_bump ∅ 4096) boot_fs tt with
  | Done (g, _, s, _) => (g, match find 20 (tree s) (dev s) name_hda with Done r => r | _ => -1 end) = (None, 0)
  | _ => False
  end.
Proof. vm_compute. reflexivity. Qed.
Example drive_detected :
  match ata_init 20 no_scan None 0 None (mk_bump ∅ 4096) boot_fs blank_drive with
  | Done (Some (obj, d), _, s, _) => find 20 (tree s) (dev s) name_hda = Done obj
  | _ => False
  end.
Proof. vm_compute. reflexivity. Qed.
