(* ===== verification/Storage.v ===== *)
(** From the name of a file to its bytes: a directory of an ext2 file system is
    read ([Ext2Directory::scan]), a name is looked up among its children
    ([File::find]), and the file found is read ([Ext2RegularFile::read]).  The
    file system lies on any device with [BlockLaws]; the last part puts it on
    the ATA drive, so that every byte comes through the ports. *)

From Stdlib Require Import ZArith Lia.
From stdpp Require Import base list gmap option sets.
From coqutil Require Import Datatypes.RecordSetters.
From S2P Require Import Unified UnifiedSpec.
From S2P Require Import Prelude Memory KAlloc Bytes FileTree FileTreeSpec BlockDevice BlockDeviceSpec Ext2 Ext2Spec Ext2DirSpec.
From S2P Require Import Ports Ata AtaSpec.
Import TriangleBracketNotations.

(** The first that a test takes is among the first of the list. *)
Lemma find_app_in {A} (f : A → bool) (a b : list A) x :
  x ∈ a → f x = true → ∃ y, y ∈ a ∧ f y = true ∧ List.find f (a ++ b) = Some y.
Proof.
  intros Hx Hf. induction a as [|z a IH]; [by apply elem_of_nil in Hx|]. cbn [app List.find].
  destruct (f z) eqn:E; [exists z; split; [by left|done]|].
  apply elem_of_cons in Hx as [->|Hx]; [congruence|]. destruct (IH Hx) as (y & Hy & ?). exists y. split; [by right|done].
Qed.

Section Files.
Context {D : Type} {ops : BlockOps D} {laws : BlockLaws D} {K : Type} {ka : KAlloc K} {kb : KBudget K}.
Context (B : Z).

(** The entry [e] of [es] is a regular file, and the only one with its name. *)
Record only_file (es : list dirent) (e : dirent) : Prop := {
  of_in : e ∈ es;
  of_kept : kept e = true;
  of_file : (de_type e =? EXT2_FT_DIR) = false;
  of_only e' : e' ∈ es → kept e' = true → checkName (de_name e') = checkName (de_name e) → e' = e;
}.

(** Looking its name up finds the object that was made of it. *)
Lemma find_made m dir mount L t0 ns0 l es t ns fuel e :
  scanned m dir mount L t0 ns0 l es t ns → only_file es e → (length es + length l < fuel)%nat →
  ∃ p, p ∈ made (next_obj t0) es ∧ find fuel t dir (checkName (de_name e)) = Done p ∧ child_of m L mount t ns p e.
Proof.
  intros S [Hin Hk _ Honly] Hf. pose proof (sc_children _ _ _ _ _ _ _ _ _ _ S) as F.
  assert (∀ x, x ∈ List.filter kept es ↔ x ∈ es ∧ kept x = true) as Hfil.
  { intros x. rewrite !list_elem_of_In. apply filter_In. }
  destruct (proj1 (list_elem_of_lookup _ _) (proj2 (Hfil e) (conj Hin Hk))) as [j Ej].
  destruct (Forall2_lookup_r _ _ _ _ _ F Ej) as (q & Eq & [(g & ino & Eg & Cg) _]).
  set (test := fun x => match getf t x with Done f => same_name (fname f) (checkName (de_name e)) | _ => false end).
  assert (test q = true) as Hq.
  { unfold test. rewrite Eg. unfold content in Cg. injection Cg as -> _ _ _. by apply bool_decide_eq_true_2. }
  destruct (find_app_in test (rev (made (next_obj t0) es)) l q) as (p & Hp & Ht & E); [|done|].
  { apply list_elem_of_In. rewrite <- in_rev. apply list_elem_of_In. by eapply list_elem_of_lookup_2. }
  apply list_elem_of_In in Hp. rewrite <- in_rev in Hp. apply list_elem_of_In in Hp. exists p. split; [done|]. split.
  - rewrite (find_spec fuel t dir _ _ (sc_dir _ _ _ _ _ _ _ _ _ _ S)).
    + unfold first_named. fold test. by rewrite E.
    + rewrite length_app, length_rev. unfold made. rewrite length_seqZ, Nat2Z.id. pose proof (filter_length_le kept es). lia.
  - apply list_elem_of_lookup in Hp as [i Ei]. destruct (Forall2_lookup_l _ _ _ _ _ F Ei) as (e' & Ee & Hc).
    apply list_elem_of_lookup_2, Hfil in Ee as [Hin' Hk']. assert (e' = e) as <-; [|done].
    apply Honly; [done|done|]. destruct Hc as [(f & i0 & Ef & Cf) _]. unfold test in Ht. rewrite Ef in Ht.
    apply bool_decide_eq_true_1 in Ht. unfold content in Cf. by injection Cf as <- _ _ _.
Qed.

(** The requests of the three calls together. *)
Definition name_calls m (L : list Z) (ess : list (list dirent)) (e : dirent) pos size : Z :=
  scan_calls ess + 2 + read_calls m pos (Z.min size (i_size (inode_at m L (de_inode e)) - pos)).

Lemma calls_nonneg m (ess : list (list dirent)) pos n : 0 < m_block_size m → 0 < n → 0 <= scan_calls ess ∧ 0 <= read_calls m pos n.
Proof.
  intros Hbs Hn. unfold scan_calls, dir_calls, read_calls, touched. pose proof (zlen_nonneg (concat (drop 0 ess))).
  pose proof (Z.div_le_mono pos (pos + n - 1) (m_block_size m) Hbs ltac:(lia)). lia.
Qed.

(** C15. Reading a file by its name.  Let a directory of an ext2 file system be
    unread, with its inode, its blocks and theirs on the device, and let [e] be
    the only entry with its name and a regular file, with its blocks on the
    device too; let the position lie in the file, the range end below 2^32, and
    the allocator serve the requests the whole makes, none larger than a block
    or an inode.  Then [scan] of the directory, [find] of the name and [read]
    of the file found end with the bytes of the file from the position on, as
    many as asked for and up to its size; and the disk is what it was. *)
Theorem ext2_name_to_bytes m (k : K) hs q d master dir n t ns l blocks ess f e data fuel pos buffer size :
  affords B k hs q → name_calls m (disk d) ess e pos size <= q → sized B m d →
  whole_device d → 0 < m_block_size m → 0 <= ptrs_per_block m →
  ns !! dir = Some n → n_loaded n = false → n_mount n ≠ 0 → inode_ok m (disk d) (n_inode n) →
  dir_on m (disk d) (inode_at m (disk d) (n_inode n)) blocks ess →
  fresh t → dir_ok t dir l → getf t dir = Done f → (length (concat ess) + length l < fuel)%nat →
  only_file (concat ess) e → let i := inode_at m (disk d) (de_inode e) in file_on m (disk d) i data →
  0 <= pos < i_size i → 0 < size → pos + size < 2 ^ 32 → buffer ≠ 0 →
  ∃ t' ns' k1 d1 p node k2 d2,
    ext2_scan m k d master dir t ns = Done (t', ns', k1, d1) ∧
    find fuel t' dir (checkName (de_name e)) = Done p ∧ ns' !! p = Some node ∧
    ext2_read m k1 d1 node pos buffer size
      = Done (Z.min size (i_size i - pos), sub pos (Z.min size (i_size i - pos)) (concat data), k2, d2) ∧
    same_disk d d2.
Proof.
  intros Ha Hq Hsized W Hbs Hptr Hn Hload Hmount Hino Hon Hfr Hdir Ef Hfuel He i Hdata Hpos Hsz Hov Hbuf.
  unfold name_calls in Hq. fold i in Hq.
  destruct (calls_nonneg m ess pos (Z.min size (i_size i - pos))) as [Hc1 Hc2]; [done|lia|].
  destruct (ext2_scan_ok B m k hs q d master dir n t ns l blocks ess f Ha ltac:(lia) Hsized W Hbs Hptr Hn Hload Hmount Hino Hon Hfr Hdir Ef)
    as (t1 & t' & ns' & k1 & d1 & Escan & S1 & (q1 & Ha1 & Hq1) & E1 & (ns2 & -> & Sc)).
  destruct (find_made _ _ _ _ _ _ _ _ _ _ fuel e Sc He Hfuel) as (p & Hp & Efind & _ & Hnode).
  assert (p ≠ dir) as Hpd.
  { destruct (setSize_ok t dir l (i_size (inode_at m (disk d) (n_inode n))) f Hfr Hdir Ef) as (t2 & E2 & Hfr2 & Hdir2 & _).
    rewrite E1 in E2. injection E2 as <-. destruct (fresh_dir t1 dir l Hfr2 Hdir2) as [Hd _].
    apply elem_of_seqZ in Hp. lia. }
  pose proof (do_inodes _ _ _ _ _ Hon e (of_in _ _ He)) as Hi. pose proof S1 as [D1 _].
  assert (sized B m d1) as Hsized1 by (by eapply sized_same).
  destruct (read_inode_spec B m k1 hs q1 d1 (de_inode e) Ha1) as (k2 & d2 & E2 & S2 & (q2 & Ha2 & Hq2));
    [lia|done|by eapply same_disk_whole| |].
  { rewrite D1. apply Hi. pose proof (of_kept _ _ He) as Hk. unfold kept in Hk. by apply andb_true_iff in Hk as [? _]. }
  rewrite D1 in E2. fold i in E2. pose proof S2 as [D2 _].
  destruct (sized_same B m d1 d2 S2 Hsized1) as (HBd & HBm & _).
  destruct (read_file_data_ok B m k2 hs q2 d2 i data pos buffer size _ Ha2 HBd HBm ltac:(eapply same_disk_whole; [exact S2|by eapply same_disk_whole])
    Hbs Hptr ltac:(by rewrite D2, D1) Hpos Hsz Hov Hbuf eq_refl) as (j & k3 & d3 & E3 & _ & Hj & S3 & _).
  rewrite Hj in E3 by lia.
  eexists t', _, k1, d1, p, _, k3, d3. split; [exact Escan|]. split; [done|]. split; [etrans; [by apply lookup_insert_ne|exact Hnode]|].
  split; [|by transitivity d1; [done|transitivity d2]].
  unfold ext2_read. cbn [n_mount n_inode]. rewrite (proj2 (Z.eqb_neq (n_mount n) 0)), E2 by done. exact E3.
Qed.

End Files.

(** ** On an ATA drive *)

#[local] Existing Instance boot_kalloc.
#[local] Existing Instance boot_budget.

(** Two sectors: the file system of [Ext2DirSpec.v], with the text [hello] in
    the block of its file. *)
Definition hello : list Z := [104; 101; 108; 108; 111].
Definition hello_block : list Z := hello ++ replicate 59 0.
Definition hello_disk : list Z :=
  replicate 192 0 ++ inode_bytes 64 8 ++ inode_bytes 5 7 ++ hello_block ++ dir_block ++ replicate 448 0.
Definition hello_drive : drive := mk_drive hello_disk 0 0 0 0 0 Idle O.
Definition entry_a : dirent := mk_dirent 3 52 1 [97].

Lemma hello_drive_disk : disk (hda, hello_drive) = hello_disk.
Proof.
  change (ata_disk (laws := ideal_laws) (hda, hello_drive) = hello_disk). unfold ata_disk. rewrite decide_True; [done|].
  split; [split; [done|]; split; [done|]; split; [by left|vm_compute; intros [_ H]; discriminate H]|].
  do 3 (split; [reflexivity|]). split; [vm_compute; discriminate|by apply all_bytes_spec].
Qed.

Lemma hello_inode ino : ino = 2 ∨ ino = 3 → inode_ok mount64 hello_disk ino.
Proof. intros [-> | ->]; split; try (split; vm_compute; congruence); vm_compute; congruence. Qed.

(** A file of one block, the 64 bytes at [64 * b]. *)
Lemma one_block i b :
  block_at mount64 hello_disk i 0 = Some b → 0 < b → (b + 1) * 64 <= 1024 → 0 <= i_size i <= 64 →
  file_on mount64 hello_disk i [sub (b * 64) 64 hello_disk].
Proof.
  intros E Hb He Hs. split; [|vm_compute; discriminate|exact Hs].
  intros [|idx] blk [= <-]. exists b. split; [exact E|]. split; [lia|]. split; [exact He|reflexivity].
Qed.

Lemma hello_dir : dir_on mount64 hello_disk (inode_at mount64 hello_disk 2) [dir_block] small_entries.
Proof.
  split.
  - apply (one_block _ 8); [reflexivity|lia|lia|vm_compute; split; congruence].
  - vm_compute. split; congruence.
  - apply (do_entries _ _ _ _ _ small_dir).
  - intros e He _. apply hello_inode. apply elem_of_cons in He as [->|He]; [by left|].
    apply elem_of_cons in He as [->|He]; [by right|]. by apply elem_of_nil in He.
Qed.

Lemma ext2_name_to_bytes_witness :
  ∃ t' ns' k1 d1 p node k2 d2,
    ext2_scan mount64 early_pool (hda, hello_drive) 0 0x1000 root_tree root_nodes = Done (t', ns', k1, d1) ∧
    find 3 t' 0x1000 [97] = Done p ∧ ns' !! p = Some node ∧
    ext2_read mount64 k1 d1 node 0 64 100 = Done (5, hello, k2, d2).
Proof.
  pose proof hello_drive_disk as E.
  destruct (ext2_name_to_bytes 4076 mount64 early_pool [] 1000 (hda, hello_drive) 0 0x1000 (mk_node 7 2 true false true) root_tree root_nodes
    [] [dir_block] small_entries (mk_file [114] 0 TYPE_DIRECTORY 0 0 0 0 0 0 0 0) entry_a [hello_block] 3%nat 0 64 100)
    as (t' & ns' & k1 & d1 & p & node & k2 & d2 & E1 & E2 & E3 & E4 & _); try rewrite E.
  - exact boot_affords.
  - vm_compute. discriminate.
  - repeat split; discriminate.
  - unfold whole_device. rewrite E. split; [by exists 2|reflexivity].
  - reflexivity.
  - discriminate.
  - reflexivity.
  - reflexivity.
  - discriminate.
  - apply hello_inode. by left.
  - exact hello_dir.
  - split; [reflexivity|]. intros q Hq. change (0x1001 <= q) in Hq. etrans; [apply lookup_insert_ne; intros <-; by apply Hq|apply lookup_empty].
  - split; [by eexists|]. split; [done|]. split; [constructor|]. split; [set_solver|done].
  - reflexivity.
  - cbn. lia.
  - split; [cbn; set_solver|reflexivity|reflexivity|]. intros e' He Hk _.
    apply elem_of_cons in He as [->|He]; [discriminate Hk|]. apply elem_of_cons in He as [->|He]; [done|by apply elem_of_nil in He].
  - apply (one_block _ 7); [reflexivity|lia|lia|vm_compute; split; congruence].
  - vm_compute. split; congruence.
  - lia.
  - lia.
  - discriminate.
  - rewrite E in E4. exists t', ns', k1, d1, p, node, k2, d2. split; [exact E1|]. split; [exact E2|]. split; [exact E3|]. exact E4.
Defined.
