(* ===== verification/X86.v ===== *)
(** Descriptor tables, the interrupt controller and the exceptions:
    [src/src/kernel/arch/x86/x86.h], [x86.cc] and [x86int.cc].

    A descriptor is a record, [gdt_bytes] and [idt_bytes] are its eight bytes
    in memory.  The addresses of the task segment and of the two assembly stubs
    are parameters; [lgdt] and [lidt] give the processor the table registers
    that [init_gdt] and [init_idt] return. *)

From Stdlib Require Import ZArith Lia.
From stdpp Require Import base list gmap option.
From coqutil Require Import Datatypes.RecordSetters.
From S2P Require Import Prelude Memory Strings Bytes Chars KAlloc Mm Cow Fault Ports.
Import TriangleBracketNotations.

Definition IDTSIZE : Z := 0xFF.
Definition GDTSIZE : Z := 0xFF.
Definition IDTBASE : Z := 0x00000000.
Definition GDTBASE : Z := 0x00000800.
Definition INTGATE : Z := 0x8E00.
Definition TRAPGATE : Z := 0xEF00.

(** ** Descriptors *)

Record gdtdesc := mk_gdtdesc {
  lim0_15 : Z;
  base0_15 : Z;
  base16_23 : Z;
  acces : Z;
  lim16_19 : Z;
  other : Z;
  base24_31 : Z;
}.

Record idtdesc := mk_idtdesc { offset0_15 : Z; iselect : Z; itype : Z; offset16_31 : Z }.

(** [gdtr] and [idtr] *)
Record table_register := mk_table { limite : Z; tbase : Z }.

(** The fields of [default_tss] that are set. *)
Record tss := mk_tss { debug_flag : Z; io_map : Z; esp0 : Z; ss0 : Z }.

Definition init_gdt_desc (base limite acces other : Z) : gdtdesc :=
  mk_gdtdesc (u16 (Z.land limite 0xffff)) (u16 (Z.land base 0xffff)) (u8 (Z.land (Z.shiftr base 16) 0xff)) acces
    (Z.land (Z.land (Z.shiftr limite 16) 0xf) 15) (Z.land (Z.land other 0xf) 15) (u8 (Z.land (Z.shiftr base 24) 0xff)).

Definition init_idt_desc (select offset type : Z) : idtdesc :=
  mk_idtdesc (u16 (Z.land offset 0xffff)) select type (u16 (Z.land (Z.shiftr offset 16) 0xffff)).

(** The packed structures, lowest byte first; the first of the two bit fields
    that share a byte is its low half. *)
Definition le16 (x : Z) : list Z := [Z.land x 0xff; Z.land (Z.shiftr x 8) 0xff].
Definition gdt_bytes (d : gdtdesc) : list Z :=
  le16 (lim0_15 d) ++ le16 (base0_15 d) ++ [base16_23 d; acces d; Z.lor (lim16_19 d) (Z.shiftl (other d) 4); base24_31 d].
Definition idt_bytes (d : idtdesc) : list Z :=
  le16 (offset0_15 d) ++ le16 (iselect d) ++ le16 (itype d) ++ le16 (offset16_31 d).

(** ** The tables *)

Definition no_gdtdesc : gdtdesc := mk_gdtdesc 0 0 0 0 0 0 0.
Definition no_idtdesc : idtdesc := mk_idtdesc 0 0 0 0.

(** The static arrays [kgdt] and [kidt] before they are filled. *)
Definition zero_gdt : list gdtdesc := replicate (Z.to_nat GDTSIZE) no_gdtdesc.
Definition zero_idt : list idtdesc := replicate (Z.to_nat IDTSIZE) no_idtdesc.

Definition fill_gdt (default_tss : Z) (kgdt : list gdtdesc) : list gdtdesc :=
  let kgdt := zset kgdt 0 (init_gdt_desc 0x0 0x0 0x0 0x0) in
  let kgdt := zset kgdt 1 (init_gdt_desc 0x0 0xFFFFF 0x9B 0x0D) in
  let kgdt := zset kgdt 2 (init_gdt_desc 0x0 0xFFFFF 0x93 0x0D) in
  let kgdt := zset kgdt 3 (init_gdt_desc 0x0 0x0 0x97 0x0D) in
  let kgdt := zset kgdt 4 (init_gdt_desc 0x0 0xFFFFF 0xFF 0x0D) in
  let kgdt := zset kgdt 5 (init_gdt_desc 0x0 0xFFFFF 0xF3 0x0D) in
  let kgdt := zset kgdt 6 (init_gdt_desc 0x0 0x0 0xF7 0x0D) in
  zset kgdt 7 (init_gdt_desc default_tss 0x67 0xE9 0x00).

(** The segments, the memory with the table, the table register. *)
Definition init_gdt (m : mem) (default_tss : Z) (kgdt : list gdtdesc) : tss * list gdtdesc * table_register * mem :=
  let task := mk_tss 0x00 0x00 0x1FFF0 0x18 in
  let kgdt := fill_gdt default_tss kgdt in
  let kgdtr := mk_table (u16 (GDTSIZE * 8)) GDTBASE in
  let m := copy_in m (tbase kgdtr) (flat_map gdt_bytes kgdt) (limite kgdtr) in
  (task, kgdt, kgdtr, m).

Definition fill_idt (_asm_int_32 _asm_int_33 : Z) (kidt : list idtdesc) : list idtdesc :=
  let kidt := for_ IDTSIZE (fun i kidt => zset kidt i (init_idt_desc 0x08 0 INTGATE)) kidt in
  let kidt := zset kidt 13 (init_idt_desc 0x08 0 INTGATE) in
  let kidt := zset kidt 14 (init_idt_desc 0x08 0 INTGATE) in
  let kidt := zset kidt 32 (init_idt_desc 0x08 _asm_int_32 INTGATE) in
  let kidt := zset kidt 33 (init_idt_desc 0x08 _asm_int_33 INTGATE) in
  zset kidt 128 (init_idt_desc 0x08 0 TRAPGATE).

Definition init_idt (m : mem) (_asm_int_32 _asm_int_33 : Z) (kidt : list idtdesc) : list idtdesc * table_register * mem :=
  let kidt := fill_idt _asm_int_32 _asm_int_33 kidt in
  let kidtr := mk_table (u16 (IDTSIZE * 8)) IDTBASE in
  let m := copy_in m (tbase kidtr) (flat_map idt_bytes kidt) (limite kidtr) in
  (kidt, kidtr, m).

(** The two controllers: commands, vectors 32 and 0x70 on, the cascade, the
    mode, and the masks. *)
Definition pic_outputs : list (Z * Z) :=
  [(0x20, 0x11); (0xA0, 0x11); (0x21, 0x20); (0xA1, 0x70); (0x21, 0x04); (0xA1, 0x02); (0x21, 0x01); (0xA1, 0x01);
   (0x21, 0xFC); (0xA1, 0xFF)].
Definition init_pic {P} `{Ports P} (p : P) : P := outbs p pic_outputs.

(** ** The processor's name *)

Record cpu_regs := mk_regs { r_eax : Z; r_ebx : Z; r_ecx : Z; r_edx : Z }.

Definition cpu_cpuid (code : Z) : cpu_regs := mk_regs 0 0x756E6547 0x6C65746E 0x49656E69.

(** The four bytes of a register, as a string. *)
Definition register_chars (r : Z) : list Z :=
  map (fun i => Z.land (Z.shiftr r (8 * i)) 0xff) [0; 1; 2; 3].

Definition cpu_vendor_name (fuel : nat) (m : mem) (name : Z) : outcome (Z * mem) :=
  let r := cpu_cpuid 0x00 in
  let line1 := c_str (register_chars (r_ebx r)) in
  let line2 := c_str (register_chars (r_ecx r)) in
  let line3 := c_str (register_chars (r_edx r)) in
  let m := strcpy_chars m name line1 in
  let* m := strcat_chars fuel m name line3 in
  let* m := strcat_chars fuel m name line2 in
  Done (15, m).

(** ** Exceptions *)

(** [isr_GP_exc] prints and stops the machine. *)
Definition isr_GP_exc {S : Type} (s : S) : outcome S := OutOfFuel.

Section Exceptions.
Context {K : Type} `{KAlloc K} `{SlabCaches K}.
Variable fuel : nat.
Variables file_read file_write : Z.

(** [isr_PF_exc]: [fault_addr] is what [cr2] holds. *)
Definition isr_PF_exc (s : mm K) (fault_addr err_code : Z) : outcome (mm K) :=
  let* (result, s) := handle_page_fault fuel file_read file_write s fault_addr err_code in
  if negb (result =? 0) then OutOfFuel else Done s.
End Exceptions.
