(* ===== verification/X86Spec.v ===== *)
(** What the processor reads of the descriptor tables: the segments and the
    gates that [init_gdt] and [init_idt] were given, in tables that do not
    overlap; and which vectors lead nowhere. *)

From Stdlib Require Import ZArith Lia.
From stdpp Require Import base list gmap option.
From coqutil Require Import Datatypes.RecordSetters.
From S2P Require Import Prelude Memory Strings Bytes Chars X86.
Import TriangleBracketNotations.

(** ** Decoding, as the processor does it *)

Definition word (lo hi : Z) : Z := lo + 2 ^ 8 * hi.

Definition dec_gdt (l : list Z) : gdtdesc :=
  match l with
  | [b0; b1; b2; b3; b4; b5; b6; b7] => mk_gdtdesc (word b0 b1) (word b2 b3) b4 b5 (b6 mod 16) (b6 / 16) b7
  | _ => no_gdtdesc
  end.
Definition dec_idt (l : list Z) : idtdesc :=
  match l with
  | [b0; b1; b2; b3; b4; b5; b6; b7] => mk_idtdesc (word b0 b1) (word b2 b3) (word b4 b5) (word b6 b7)
  | _ => no_idtdesc
  end.

Definition segment_base (d : gdtdesc) : Z := base0_15 d + 2 ^ 16 * base16_23 d + 2 ^ 24 * base24_31 d.
Definition segment_limit (d : gdtdesc) : Z := lim0_15 d + 2 ^ 16 * lim16_19 d.
Definition gate_offset (d : idtdesc) : Z := offset0_15 d + 2 ^ 16 * offset16_31 d.

(** Fields in their ranges. *)
Record gdt_ok (d : gdtdesc) : Prop := {
  gdt_lim : 0 <= lim0_15 d < 2 ^ 16;
  gdt_base : 0 <= base0_15 d < 2 ^ 16;
  gdt_mid : byte (base16_23 d);
  gdt_acces : byte (acces d);
  gdt_lim16 : 0 <= lim16_19 d < 16;
  gdt_other : 0 <= other d < 16;
  gdt_high : byte (base24_31 d);
}.
Record idt_ok (d : idtdesc) : Prop := {
  idt_low : 0 <= offset0_15 d < 2 ^ 16;
  idt_sel : 0 <= iselect d < 2 ^ 16;
  idt_type : 0 <= itype d < 2 ^ 16;
  idt_high : 0 <= offset16_31 d < 2 ^ 16;
}.

(** ** One descriptor *)

Lemma land_mod x n : 0 <= n → Z.land x (Z.ones n) = x mod 2 ^ n.
Proof. apply Z.land_ones. Qed.

Ltac fields :=
  change 0xffff with (Z.ones 16); change 0xff with (Z.ones 8); change 0xf with (Z.ones 4); change 15 with (Z.ones 4);
  rewrite ?Z.shiftr_div_pow2, ?Z.land_ones by lia; unfold u8, u16.

Lemma init_gdt_desc_spec base limite acc oth :
  byte acc →
  gdt_ok (init_gdt_desc base limite acc oth) ∧ acces (init_gdt_desc base limite acc oth) = acc ∧
  other (init_gdt_desc base limite acc oth) = oth mod 16 ∧
  segment_base (init_gdt_desc base limite acc oth) = u32 base ∧ segment_limit (init_gdt_desc base limite acc oth) = limite mod 2 ^ 20.
Proof.
  unfold byte. intros Ha. unfold init_gdt_desc, segment_base, segment_limit, u32.
  cbn [acces other base0_15 base16_23 base24_31 lim0_15 lim16_19]. fields. change (2 ^ 4) with 16.
  split; [split; cbn; unfold byte; Z.to_euclidean_division_equations; lia|].
  split; [done|]. split; [by rewrite Z.mod_mod by lia|]. split; Z.to_euclidean_division_equations; lia.
Qed.

Lemma init_idt_desc_spec sel offset ty :
  0 <= sel < 2 ^ 16 → 0 <= ty < 2 ^ 16 →
  idt_ok (init_idt_desc sel offset ty) ∧ iselect (init_idt_desc sel offset ty) = sel ∧ itype (init_idt_desc sel offset ty) = ty ∧
  gate_offset (init_idt_desc sel offset ty) = u32 offset.
Proof.
  intros Hs Ht. unfold init_idt_desc, gate_offset, u32. cbn [iselect itype offset0_15 offset16_31]. fields.
  split; [split; cbn; Z.to_euclidean_division_equations; lia|]. split; [done|]. split; [done|].
  Z.to_euclidean_division_equations; lia.
Qed.

Lemma le16_spec x : 0 <= x < 2 ^ 16 → byte_list (le16 x) ∧ le16 x = [x mod 2 ^ 8; x / 2 ^ 8].
Proof.
  intros Hx. unfold le16. fields.
  assert (x / 2 ^ 8 mod 2 ^ 8 = x / 2 ^ 8) as -> by (Z.to_euclidean_division_equations; lia).
  split; [|done]. repeat constructor; unfold byte; Z.to_euclidean_division_equations; lia.
Qed.

Lemma word_split x : word (x mod 2 ^ 8) (x / 2 ^ 8) = x.
Proof. unfold word. pose proof (Z.div_mod x (2 ^ 8) ltac:(lia)). lia. Qed.

(** Decoding gives back what was encoded. *)
Lemma gdt_roundtrip d : gdt_ok d → length (gdt_bytes d) = 8%nat ∧ byte_list (gdt_bytes d) ∧ dec_gdt (gdt_bytes d) = d.
Proof.
  intros [H1 H2 H3 H4 H5 H6 H7]. unfold gdt_bytes.
  destruct (le16_spec _ H1) as [B1 E1], (le16_spec _ H2) as [B2 E2].
  assert (Z.lor (lim16_19 d) (Z.shiftl (other d) 4) = other d * 16 + lim16_19 d) as E3.
  { rewrite Z.shiftl_mul_pow2, Z.lor_comm by lia. by apply (lor_low_add _ _ 4). }
  rewrite E3. split; [done|]. split.
  - apply Forall_app. split; [done|]. apply Forall_app. split; [done|]. repeat constructor; (apply H3 || apply H4 || apply H7 || unfold byte; lia).
  - rewrite E1, E2. cbn [app dec_gdt]. rewrite !word_split.
    replace ((other d * 16 + lim16_19 d) mod 16) with (lim16_19 d) by (Z.to_euclidean_division_equations; lia).
    replace ((other d * 16 + lim16_19 d) / 16) with (other d) by (Z.to_euclidean_division_equations; lia). by destruct d.
Qed.

Lemma idt_roundtrip d : idt_ok d → length (idt_bytes d) = 8%nat ∧ byte_list (idt_bytes d) ∧ dec_idt (idt_bytes d) = d.
Proof.
  intros [H1 H2 H3 H4]. unfold idt_bytes.
  destruct (le16_spec _ H1) as [B1 E1], (le16_spec _ H2) as [B2 E2], (le16_spec _ H3) as [B3 E3], (le16_spec _ H4) as [B4 E4].
  split; [done|]. split; [by repeat (apply Forall_app; split)|]. rewrite E1, E2, E3, E4. cbn [app dec_idt]. rewrite !word_split. by destruct d.
Qed.

(** ** Tables *)

(** The eight bytes at [a]. *)
Definition eight (m : mem) (a : Z) : list Z := map (fun j => load8 m (a + j)) [0; 1; 2; 3; 4; 5; 6; 7].

Lemma eight_frame m m' a : (∀ j, 0 <= j < 8 → load8 m' (a + j) = load8 m (a + j)) → eight m' a = eight m a.
Proof. intros Hj. unfold eight. cbn [map]. rewrite !Hj by lia. done. Qed.

Section Table.
Context {T : Type} (enc : T → list Z) (dec : list Z → T) (ok : T → Prop) (d0 : T).
Hypothesis enc_ok : ∀ x, ok x → length (enc x) = 8%nat ∧ byte_list (enc x) ∧ dec (enc x) = x.

Lemma flat_map_length l : Forall ok l → length (flat_map enc l) = (8 * length l)%nat.
Proof.
  induction 1 as [|x l Hx Hl IH]; [done|]. cbn [flat_map length]. rewrite length_app, IH. destruct (enc_ok x Hx) as [-> _]. lia.
Qed.

Lemma flat_map_entry l i x : Forall ok l → l !! i = Some x → take 8 (drop (8 * i) (flat_map enc l)) = enc x.
Proof.
  intros Hl. revert i. induction Hl as [|y l Hy Hl IH]; intros i E; [done|]. destruct (enc_ok y Hy) as (Hlen & _).
  destruct i as [|i]; cbn [flat_map] in *.
  - injection E as ->. rewrite Nat.mul_0_r, drop_0. by apply take_app_length'.
  - replace (8 * S i)%nat with (length (enc y) + 8 * i)%nat by lia. rewrite <- drop_drop, drop_app_length. by apply IH.
Qed.

(** A table copied to memory is read back entry by entry. *)
Lemma table_entry m base l i :
  Forall ok l → 0 <= i < Z.of_nat (length l) →
  dec (eight (copy_in m base (flat_map enc l) (8 * Z.of_nat (length l))) (base + 8 * i)) = zget d0 l i.
Proof.
  intros Hl Hi. destruct (copy_in_spec m base (flat_map enc l) (8 * Z.of_nat (length l))) as [Hin _]; [lia|].
  destruct (lookup_lt_is_Some_2 l (Z.to_nat i)) as [x Hx]; [lia|].
  assert (ok x) as Hok by (by eapply Forall_lookup_1). destruct (enc_ok x Hok) as (Hlen & Hb & Hdec).
  assert (zget d0 l i = x) as -> by (unfold zget; rewrite decide_True by lia; by apply nth_lookup_Some).
  rewrite <- Hdec. f_equal. pose proof (flat_map_entry l _ x Hl Hx) as E. pose proof (flat_map_length l Hl) as Hfl.
  assert (∀ j, 0 <= j < 8 → load8 (copy_in m base (flat_map enc l) (8 * Z.of_nat (length l))) (base + 8 * i + j)
    = nth (Z.to_nat j) (enc x) 0) as Hj.
  { intros j Hj. rewrite <- Z.add_assoc, Hin by lia. unfold zget. rewrite decide_True by lia.
    assert (nth (Z.to_nat (8 * i + j)) (flat_map enc l) 0 = nth (Z.to_nat j) (enc x) 0) as ->.
    { rewrite <- E, nth_firstn, nth_skipn. destruct (Nat.ltb_spec (Z.to_nat j) 8); [f_equal; lia|lia]. }
    pose proof (zget_byte (enc x) j Hb) as Hbyte. unfold zget in Hbyte. rewrite decide_True in Hbyte by lia. by apply u8_small. }
  unfold eight. cbn [map]. rewrite !Hj by lia. destruct (enc x) as [|b0 [|b1 [|b2 [|b3 [|b4 [|b5 [|b6 [|b7 [|]]]]]]]]]; done.
Qed.
End Table.

Lemma Forall_zset {A} (Q : A → Prop) l i x : Forall Q l → Q x → Forall Q (zset l i x).
Proof. intros Hl Hx. unfold zset. destruct (decide (0 <= i)); [by apply Forall_insert|done]. Qed.

Lemma fill_gdt_ok t : Forall gdt_ok (fill_gdt t zero_gdt) ∧ length (fill_gdt t zero_gdt) = Z.to_nat GDTSIZE.
Proof.
  split; [|by rewrite ?zset_length]. unfold fill_gdt.
  repeat (apply Forall_zset; [|apply init_gdt_desc_spec; unfold byte; lia]).
  apply Forall_replicate. split; cbn; unfold byte; lia.
Qed.

(** The gate of a vector. *)
Definition handler (h32 h33 i : Z) : idtdesc :=
  init_idt_desc 0x08 (if i =? 32 then h32 else if i =? 33 then h33 else 0) (if i =? 128 then TRAPGATE else INTGATE).

Lemma fill_idt_spec h32 h33 :
  length (fill_idt h32 h33 zero_idt) = Z.to_nat IDTSIZE ∧
  ∀ i, 0 <= i < IDTSIZE → zget no_idtdesc (fill_idt h32 h33 zero_idt) i = handler h32 h33 i.
Proof.
  unfold fill_idt. set (l0 := for_ IDTSIZE _ zero_idt).
  assert (length l0 = Z.to_nat IDTSIZE ∧ ∀ i, 0 <= i < IDTSIZE → zget no_idtdesc l0 i = init_idt_desc 0x08 0 INTGATE) as [Hlen Hl0].
  { apply (for_inv (fun k l => length l = Z.to_nat IDTSIZE ∧ ∀ i, 0 <= i < k → zget no_idtdesc l i = init_idt_desc 0x08 0 INTGATE));
      [done|split; [done|lia]|].
    intros j l Hj [Hlen Hl]. split; [by rewrite zset_length|]. intros i Hi.
    rewrite zget_zset by (rewrite Hlen; unfold IDTSIZE in *; lia). case_decide; [done|]. apply Hl. lia. }
  split; [by rewrite !zset_length|]. clearbody l0. intros i Hi. unfold IDTSIZE in *.
  rewrite !zget_zset by (rewrite ?zset_length, Hlen; lia). unfold handler.
  repeat case_decide; subst; try reflexivity. rewrite Hl0 by lia.
  rewrite (proj2 (Z.eqb_neq i 32)), (proj2 (Z.eqb_neq i 33)), (proj2 (Z.eqb_neq i 128)) by lia. done.
Qed.

(** C40. The tables as the processor reads them once both are loaded.  Every
    segment descriptor and every gate is the one that was made: the segments
    cover all of memory or nothing, the last is the task segment; vectors 32
    and 33 lead to their handlers; and every other vector, that of the page fault
    and of the system call too, leads to address 0.  The interrupt table ends
    before the segment table begins. *)
Theorem tables_loaded m t h32 h33 i :
  0 <= t < 2 ^ 32 → 0 <= h32 < 2 ^ 32 → 0 <= h33 < 2 ^ 32 → 0 <= i < 255 →
  let '(_, kgdt, kgdtr, m1) := init_gdt m t zero_gdt in
  let '(kidt, kidtr, m2) := init_idt m1 h32 h33 zero_idt in
  let gate := dec_idt (eight m2 (tbase kidtr + 8 * i)) in
  dec_gdt (eight m2 (tbase kgdtr + 8 * i)) = zget no_gdtdesc kgdt i ∧ gate = zget no_idtdesc kidt i ∧
  iselect gate = 0x08 ∧ gate_offset gate = (if i =? 32 then h32 else if i =? 33 then h33 else 0) ∧
  segment_base (zget no_gdtdesc kgdt i) = (if i =? 7 then t else 0) ∧ tbase kidtr + limite kidtr <= tbase kgdtr.
Proof.
  intros Ht H32 H33 Hi. unfold init_gdt, init_idt. cbn [tbase limite].
  destruct (fill_gdt_ok t) as [Hg Hgl]. destruct (fill_idt_spec h32 h33) as [Hil Hih].
  set (kgdt := fill_gdt t zero_gdt) in *. set (kidt := fill_idt h32 h33 zero_idt) in *.
  assert (Forall idt_ok kidt) as Hik.
  { apply list.Forall_forall. intros x [j Hx]%list_elem_of_lookup_1. apply lookup_lt_Some in Hx as Hj.
    assert (zget no_idtdesc kidt (Z.of_nat j) = x) as <-.
    { unfold zget. rewrite decide_True, Nat2Z.id by lia. by apply nth_lookup_Some. }
    rewrite Hih by (rewrite Hil in Hj; unfold IDTSIZE in *; lia). unfold handler.
    apply init_idt_desc_spec; [lia|]. destruct (Z.of_nat j =? 128); vm_compute; split; congruence. }
  change (u16 (GDTSIZE * 8)) with (8 * 255). change (u16 (IDTSIZE * 8)) with (8 * 255).
  set (m1 := copy_in m GDTBASE _ _). set (m2 := copy_in m1 IDTBASE _ _).
  assert (dec_idt (eight m2 (IDTBASE + 8 * i)) = handler h32 h33 i) as ->.
  { rewrite <- Hih by done. subst m2. replace 255 with (Z.of_nat (length kidt)) by (by rewrite Hil).
    apply (table_entry idt_bytes dec_idt idt_ok); [exact idt_roundtrip|done|rewrite Hil; exact Hi]. }
  split.
  { assert (eight m2 (GDTBASE + 8 * i) = eight m1 (GDTBASE + 8 * i)) as ->.
    { apply eight_frame. intros j Hj. apply (copy_in_spec m1 IDTBASE); [lia|]. unfold GDTBASE, IDTBASE. lia. }
    subst m1. replace 255 with (Z.of_nat (length kgdt)) by (by rewrite Hgl).
    apply (table_entry gdt_bytes dec_gdt gdt_ok); [exact gdt_roundtrip|done|rewrite Hgl; exact Hi]. }
  split; [by rewrite Hih|]. unfold handler.
  destruct (init_idt_desc_spec 0x08 (if i =? 32 then h32 else if i =? 33 then h33 else 0) (if i =? 128 then TRAPGATE else INTGATE))
    as (_ & -> & _ & ->); [lia|destruct (i =? 128); vm_compute; split; congruence|].
  split; [done|]. split; [apply u32_small; repeat case_match; lia|]. split; [|done].
  subst kgdt. unfold fill_gdt. rewrite !zget_zset by (rewrite ?zset_length; vm_compute; split; congruence).
  repeat case_decide; subst; try reflexivity.
  - by rewrite (proj1 (proj2 (proj2 (proj2 (init_gdt_desc_spec t 0x67 0xE9 0 ltac:(unfold byte; lia)))))), u32_small.
  - rewrite (proj2 (Z.eqb_neq i 7)) by lia. unfold zget, zero_gdt. rewrite decide_True by lia. by rewrite nth_lookup, lookup_replicate_2 by (unfold GDTSIZE; lia).
Qed.

Lemma tables_loaded_witness :
  let '(_, kgdt, kgdtr, m1) := init_gdt ∅ 0x120000 zero_gdt in
  let '(kidt, kidtr, m2) := init_idt m1 0x101000 0x101040 zero_idt in
  gate_offset (dec_idt (eight m2 (tbase kidtr + 8 * 33))) = 0x101040.
Proof.
  pose proof (tables_loaded ∅ 0x120000 0x101000 0x101040 33) as H.
  destruct (init_gdt ∅ 0x120000 zero_gdt) as [[[? kgdt] kgdtr] m1].
  destruct (init_idt m1 0x101000 0x101040 zero_idt) as [[kidt kidtr] m2].
  apply H; lia.
Defined.

(** ** The processor's name *)

(** "GenuineIntel", and a length of 15, when the memory the name goes to holds
    zeroes where its second and third part will end. *)
Lemma cpu_vendor_name_spec fuel m name :
  load8 m (name + 8) = 0 → load8 m (name + 12) = 0 → (12 < fuel)%nat →
  ∃ m', cpu_vendor_name fuel m name = Done (15, m') ∧
    cstr m' name [71; 101; 110; 117; 105; 110; 101; 73; 110; 116; 101; 108].
Proof.
  intros H8 H12 Hf. unfold cpu_vendor_name.
  change (c_str (register_chars (r_ebx (cpu_cpuid 0)))) with [71; 101; 110; 117].
  change (c_str (register_chars (r_ecx (cpu_cpuid 0)))) with [110; 116; 101; 108].
  change (c_str (register_chars (r_edx (cpu_cpuid 0)))) with [105; 110; 101; 73].
  destruct (strcpy_chars_spec m name [71; 101; 110; 117]) as [Hc Ho]; [unfold text; repeat constructor; lia|].
  set (m1 := strcpy_chars m name _) in *. unfold zlen in Ho. cbn [length] in Ho.
  destruct (strcat_chars_spec fuel m1 name [71; 101; 110; 117] [105; 110; 101; 73]) as (m2 & -> & Hc2 & Ho2);
    [done|unfold text; repeat constructor; lia|cbn [length]; lia| |].
  { unfold zlen. cbn [length]. rewrite Ho by lia. by rewrite <- Z.add_assoc. }
  cbn [obind]. unfold zlen in Ho2. cbn [length] in Ho2.
  destruct (strcat_chars_spec fuel m2 name [71; 101; 110; 117; 105; 110; 101; 73] [110; 116; 101; 108]) as (m3 & -> & Hc3 & _);
    [done|unfold text; repeat constructor; lia|cbn [length]; lia| |].
  { unfold zlen. cbn [length]. rewrite Ho2, Ho by lia. by rewrite <- Z.add_assoc. }
  by exists m3.
Qed.

(** On memory that was used before, the name goes on. *)
Example vendor_on_used_memory :
  match cpu_vendor_name 40 (store ∅ 0x108 0x21) 0x100 with
  | Done (_, m) => string_at 40 m 0x100
  | _ => Stuck
  end = Done [71; 101; 110; 117; 105; 110; 101; 73; 33; 110; 116; 101; 108].
Proof. vm_compute. reflexivity. Qed.

(** The page fault's vector is 14. *)
Example page_fault_not_installed : gate_offset (handler 0x101000 0x101040 14) = 0.
Proof. reflexivity. Qed.
