(* ===== verification/Elf.v ===== *)
(** The ELF loader: [src/src/kernel/core/elf_loader.h] and [elf_loader.cc].

    An executable is in kernel memory at [file], byte by byte: its headers are
    not aligned when [e_phoff] is not.  The four addresses [load_elf] writes
    to the process are a record of their own.  [execv] is over the file system
    and the processes. *)

From Stdlib Require Import ZArith Lia.
From stdpp Require Import base list gmap option.
From coqutil Require Import Datatypes.RecordSetters.
From S2P Require Import Prelude Memory Strings KAlloc Mm Vmm Swap Paging Cow FileTree Filesystem Pit Process Arch Vfs.
Import TriangleBracketNotations.

Definition PT_LOAD : Z := 1.
Definition PF_X : Z := 1.
Definition PF_W : Z := 2.
Definition PF_R : Z := 4.
Definition USER_OFFSET : Z := 0x40000000.
Definition USER_STACK : Z := 0xE0000000.

(** 16- and 32-bit fields at any address. *)
Definition load16 (m : mem) (a : Z) : Z := load8 m a + 2 ^ 8 * load8 m (a + 1).
Definition load32 (m : mem) (a : Z) : Z := load16 m a + 2 ^ 16 * load16 m (a + 2).

(** [Elf32_Ehdr] at [file], and [Elf32_Phdr] at [p]: the fields the loader reads. *)
Definition e_entry (m : mem) (file : Z) : Z := load32 m (file + 24).
Definition e_phoff (m : mem) (file : Z) : Z := load32 m (file + 28).
Definition e_phnum (m : mem) (file : Z) : Z := load16 m (file + 44).
Definition sizeof_ehdr : Z := 52.

Definition p_type (m : mem) (p : Z) : Z := load32 m p.
Definition p_offset (m : mem) (p : Z) : Z := load32 m (p + 4).
Definition p_vaddr (m : mem) (p : Z) : Z := load32 m (p + 8).
Definition p_filesz (m : mem) (p : Z) : Z := load32 m (p + 16).
Definition p_memsz (m : mem) (p : Z) : Z := load32 m (p + 20).
Definition p_flags (m : mem) (p : Z) : Z := load32 m (p + 24).
Definition sizeof_phdr : Z := 32.

(** The fields of [process_st] that [load_elf] sets. *)
Record image := mk_image { b_exec : Z; e_exec : Z; b_bss : Z; e_bss : Z }.

Definition is_elf (m : mem) (file : Z) : Z :=
  if (load8 m file =? 0x7f) && (load8 m (file + 1) =? 69) && (load8 m (file + 2) =? 76) && (load8 m (file + 3) =? 70)
  then RETURN_OK else ERROR_PARAM.

(** The body of the loop; nothing when the range of addresses is refused. *)
Definition load_segment (file p : Z) (m : mem) (img : image) : option (mem * image) :=
  if p_type m p =? PT_LOAD then
    let v_begin := p_vaddr m p in
    let v_end := u32 (p_vaddr m p + p_memsz m p) in
    if (v_begin <? USER_OFFSET) || (USER_STACK <? v_end) then None
    else
      let img := if p_flags m p =? Z.lor PF_X PF_R then img <| b_exec := v_begin |> <| e_exec := v_end |> else img in
      let img := if p_flags m p =? Z.lor PF_W PF_R then img <| b_bss := v_begin |> <| e_bss := v_end |> else img in
      let m := memcpy m v_begin (u32 (file + p_offset m p)) (s32 (p_filesz m p)) in
      let m := if p_filesz m p <? p_memsz m p
               then memset m (u32 (v_begin + p_filesz m p)) 0 (s32 (u32 (p_memsz m p - p_filesz m p))) else m in
      Some (m, img)
  else Some (m, img).

(** A 16-bit count of headers: [elf_fuel] rounds are enough. *)
Definition elf_fuel : nat := Z.to_nat 65537.

Definition load_elf (m : mem) (img : image) (file : Z) : outcome (Z * mem * image) :=
  let p_entry := u32 (file + e_phoff m file) in
  if is_elf m file =? ERROR_PARAM then Done (0, m, img)
  else
    loop elf_fuel (fun '(i, p_entry, m, img) =>
      Done (if i <? e_phnum m file then
              match load_segment file p_entry m img with
              | None => inr (0, m, img)
              | Some (m, img) => inl (i + 1, u32 (p_entry + sizeof_phdr), m, img)
              end
            else inr (e_entry m file, m, img))) (0, p_entry, m, img).

(** ** Starting a program *)

(** The name "_proc_". *)
Definition default_proc_name : list Z := [95; 112; 114; 111; 99; 95].

Section Exec.
Context {K : Type} `{KAlloc K} `{SlabCaches K} `{FileOps K}.
Variable fuel : nat.
Variable raw_info : Z → process_st.
Variable idle_thread : Z.
Variable scan : ftree → Z → outcome ftree.

Definition proc_name (argc : Z) (argv : list (list Z)) : list Z :=
  if argc <=? 0 then default_proc_name else hd [] argv.

(** The current directory [Filesystem::path] starts from. *)
Definition current_dir (w : world K) : option Z :=
  if pcurrent w =? 0 then None else cdir <$> (procs w !! pcurrent w).

Definition execv (w : world K) (name : list Z) (argc : Z) (argv : list (list Z)) : outcome (Z * world K) :=
  let* (fp, fs) := path fuel scan (wfs w) (current_dir w) name in
  let w := w <| wfs := fs |> in
  if fp =? 0 then Done (s32 ERROR_PARAM, w)
  else
    let* f := getf (tree (wfs w)) fp in
    let* (map_elf, m) := mm_alloc (wmm w) (fsize f) in
    let w := w <| wmm := m |> in
    let* (_, w) := file_open w fp 0 in
    let* f := getf (tree (wfs w)) fp in
    let* (_, w) := file_read w fp 0 map_elf (fsize f) in
    let* (_, w) := file_close w fp in
    let '(p, w) := new_process raw_info w (proc_name argc argv) in
    let* (_, w) := create fuel raw_info idle_thread scan w p in
    let* m := mm_free (wmm w) map_elf in
    let w := w <| wmm := m |> in
    let* n := getPid w p in
    Done (s32 n, w).

Definition execv_module (w : world K) (entry argc : Z) (argv : list (list Z)) : outcome (world K) :=
  let '(p, w) := new_process raw_info w (proc_name argc argv) in
  let* (_, w) := create fuel raw_info idle_thread scan w p in
  Done w.

End Exec.
