(* ===== verification/ElfSpec.v ===== *)
(** What the ELF loader does to memory: after [load_elf] every byte has the
    value the program headers give it, up to the first header whose range is
    refused.  The file must be what a linker writes ([elf_file]); the last
    examples run the loader on two files that are not. *)

From Stdlib Require Import ZArith Lia.
From stdpp Require Import base list gmap option.
From S2P Require Import Prelude Memory Strings Elf.

Section Image.
Variable m : mem.
Variable file : Z.

Definition phdr (i : Z) : Z := file + e_phoff m file + sizeof_phdr * i.
Definition loadable (i : Z) : bool := p_type m (phdr i) =? PT_LOAD.

(** The code refuses the addresses of segment [i]. *)
Definition refused (i : Z) : bool :=
  loadable i && ((p_vaddr m (phdr i) <? USER_OFFSET) || (USER_STACK <? p_vaddr m (phdr i) + p_memsz m (phdr i))).

(** The byte that segment [i] puts at [a], when [a] is in it. *)
Definition segment_byte (i a : Z) : option Z :=
  let j := a - p_vaddr m (phdr i) in
  if loadable i && (0 <=? j) && (j <? p_memsz m (phdr i)) then
    Some (if j <? p_filesz m (phdr i) then load8 m (file + p_offset m (phdr i) + j) else 0)
  else None.

(** The memory image of the first [n] headers: the last segment over a byte
    decides, and what no segment covers stays. *)
Fixpoint image_byte (n : nat) (a : Z) : Z :=
  match n with
  | O => load8 m a
  | S n => match segment_byte (Z.of_nat n) a with Some b => b | None => image_byte n a end
  end.

(** The addresses of the code and of the data that the first [n] headers leave
    in the process. *)
Definition segment_marks (i : Z) (img : image) : image :=
  let v := p_vaddr m (phdr i) in
  let e := v + p_memsz m (phdr i) in
  if negb (loadable i) then img
  else if p_flags m (phdr i) =? 5 then mk_image v e (b_bss img) (e_bss img)
  else if p_flags m (phdr i) =? 6 then mk_image (b_exec img) (e_exec img) v e
  else img.
Fixpoint image_marks (n : nat) (img : image) : image :=
  match n with
  | O => img
  | S n => segment_marks (Z.of_nat n) (image_marks n img)
  end.

(** An ELF file of [len] bytes in kernel memory: the headers and the contents
    of the segments are in the file, a segment is not larger in the file than
    in memory, and its addresses do not wrap. *)
Record elf_file (len : Z) : Prop := {
  elf_magic : is_elf m file = FileTree.RETURN_OK;
  elf_place : 0 <= file ∧ sizeof_ehdr <= len ∧ file + len <= USER_OFFSET;
  elf_headers : e_phoff m file + sizeof_phdr * e_phnum m file <= len;
  elf_segment : ∀ i, 0 <= i < e_phnum m file → loadable i = true →
    p_offset m (phdr i) + p_filesz m (phdr i) <= len ∧
    p_filesz m (phdr i) <= p_memsz m (phdr i) < 2 ^ 31 ∧
    p_vaddr m (phdr i) + p_memsz m (phdr i) < 2 ^ 32;
}.

End Image.

(** ** Fields *)

Lemma load16_range m a : 0 <= load16 m a < 2 ^ 16.
Proof. unfold load16. pose proof (load8_range m a). pose proof (load8_range m (a + 1)). lia. Qed.

Lemma load32_range m a : 0 <= load32 m a < 2 ^ 32.
Proof. unfold load32. pose proof (load16_range m a). pose proof (load16_range m (a + 2)). lia. Qed.

Definition below_agree (lim : Z) (m m' : mem) : Prop := ∀ a, a < lim → load8 m' a = load8 m a.

Lemma load16_below lim m m' a : below_agree lim m m' → a + 1 < lim → load16 m' a = load16 m a.
Proof. intros H Ha. unfold load16. rewrite !H by lia. done. Qed.

Lemma load32_below lim m m' a : below_agree lim m m' → a + 3 < lim → load32 m' a = load32 m a.
Proof. intros H Ha. unfold load32. rewrite !(load16_below lim m m') by (done || lia). done. Qed.

Lemma s32_small z : - 2 ^ 31 <= z < 2 ^ 31 → s32 z = z.
Proof. intros. unfold s32. rewrite Z.mod_small by lia. lia. Qed.

(** ** One segment *)

Definition rec_agree (m m' : mem) (p : Z) : Prop :=
  p_type m' p = p_type m p ∧ p_offset m' p = p_offset m p ∧ p_vaddr m' p = p_vaddr m p ∧
  p_filesz m' p = p_filesz m p ∧ p_memsz m' p = p_memsz m p ∧ p_flags m' p = p_flags m p.

Lemma below_rec lim m m' p : below_agree lim m m' → p + sizeof_phdr <= lim → rec_agree m m' p.
Proof.
  intros H Hp. unfold sizeof_phdr in Hp.
  repeat split; unfold p_type, p_offset, p_vaddr, p_filesz, p_memsz, p_flags;
    apply (load32_below lim); (done || lia).
Qed.

(** The copy and the zeroing of a segment at [v], of [fs] bytes in the file
    at [src] and [ms] in memory. *)
Lemma copy_zero m v src fs ms :
  0 <= fs <= ms → src + fs <= v →
  let m1 := memcpy m v src fs in
  let m2 := if fs <? ms then memset m1 (v + fs) 0 (ms - fs) else m1 in
  ∀ a, load8 m2 a
     = if (0 <=? a - v) && (a - v <? ms) then if a - v <? fs then load8 m (src + (a - v)) else 0 else load8 m a.
Proof.
  intros Hf Hs m1 m2 a.
  destruct (memcpy_spec m v src fs) as [Hin Hout]; [lia|by right|]. fold m1 in Hin, Hout.
  assert (∀ a, load8 m2 a = if (fs <=? a - v) && (a - v <? ms) then 0 else load8 m1 a) as H2.
  { intros b. subst m2. destruct (Z.ltb_spec fs ms) as [Hlt|].
    - destruct (memset_spec m1 (v + fs) 0 (ms - fs)) as [Hz Ho]; [lia|].
      destruct (Z.leb_spec fs (b - v)), (Z.ltb_spec (b - v) ms); cbn [andb]; try (apply Ho; lia).
      replace b with (v + fs + (b - v - fs)) by lia. apply Hz. lia.
    - destruct (Z.leb_spec fs (b - v)), (Z.ltb_spec (b - v) ms); cbn [andb]; (done || lia). }
  rewrite H2.
  destruct (Z.leb_spec fs (a - v)), (Z.ltb_spec (a - v) ms), (Z.leb_spec 0 (a - v)), (Z.ltb_spec (a - v) fs);
    cbn [andb]; try lia; try done; try (apply Hout; lia).
  replace a with (v + (a - v)) at 1 by lia. apply Hin. lia.
Qed.

(** The state of the loader before header [i]. *)
Definition loaded (m : mem) (file : Z) (m' : mem) (i : Z) : Prop :=
  ∀ a, load8 m' a = image_byte m file (Z.to_nat i) a.

Section Load.
Variable m : mem.
Variable file len : Z.
Hypothesis Helf : elf_file m file len.

Lemma phdr_bounds i : 0 <= i < e_phnum m file → 0 <= file ∧ phdr m file i + sizeof_phdr <= USER_OFFSET ∧ 0 <= phdr m file i.
Proof.
  intros Hi. destruct Helf as [_ (? & ? & ?) Hh _]. unfold phdr, sizeof_phdr in *.
  pose proof (load32_range m (file + 28)). unfold e_phoff in *. lia.
Qed.

Lemma refused_true i :
  refused m file i = true ↔
  loadable m file i = true ∧ (p_vaddr m (phdr m file i) < USER_OFFSET ∨
                              USER_STACK < p_vaddr m (phdr m file i) + p_memsz m (phdr m file i)).
Proof. unfold refused. rewrite andb_true_iff, orb_true_iff, !Z.ltb_lt. done. Qed.

(** Outside the user's addresses the image is the old memory. *)
Lemma image_outside n a :
  (∀ i, 0 <= i < Z.of_nat n → refused m file i = false) →
  a < USER_OFFSET ∨ USER_STACK <= a → image_byte m file n a = load8 m a.
Proof.
  intros Hr Ha. induction n as [|n IH]; [done|]. cbn [image_byte].
  unfold segment_byte. destruct (loadable m file (Z.of_nat n)) eqn:Hl; cbn [andb]; [|apply IH; intros; apply Hr; lia].
  specialize (Hr (Z.of_nat n) ltac:(lia)) as Hn. apply not_true_iff_false in Hn. rewrite refused_true in Hn.
  destruct (Z.leb_spec 0 (a - p_vaddr m (phdr m file (Z.of_nat n)))),
    (Z.ltb_spec (a - p_vaddr m (phdr m file (Z.of_nat n))) (p_memsz m (phdr m file (Z.of_nat n)))); cbn [andb];
    try (apply IH; intros; apply Hr; lia).
  exfalso. apply Hn. split; [done|]. lia.
Qed.

Lemma loaded_below m' i :
  0 <= i → (∀ j, 0 <= j < i → refused m file j = false) → loaded m file m' i → below_agree USER_OFFSET m m'.
Proof.
  intros Hi Hr Hl a Ha. rewrite Hl. apply image_outside; [|by left]. intros j Hj. apply Hr. lia.
Qed.

Lemma loaded_next m' m'' i :
  0 <= i → loaded m file m' i →
  (∀ a, load8 m'' a = match segment_byte m file i a with Some b => b | None => load8 m' a end) →
  loaded m file m'' (i + 1).
Proof.
  intros Hi Hl Hs a. rewrite Hs. rewrite Z2Nat.inj_add, Nat.add_1_r by lia. cbn [image_byte].
  rewrite Z2Nat.id by done. by rewrite Hl.
Qed.

Lemma load_segment_spec m' img i :
  0 <= i < e_phnum m file → (∀ j, 0 <= j < i → refused m file j = false) → loaded m file m' i →
  if refused m file i then load_segment file (phdr m file i) m' img = None
  else ∃ m'' img', load_segment file (phdr m file i) m' img = Some (m'', img') ∧ loaded m file m'' (i + 1) ∧
    img' = segment_marks m file i img.
Proof.
  intros Hi Hr Hl. destruct (phdr_bounds i Hi) as (H0 & Hlim & _).
  pose proof (loaded_below m' i ltac:(lia) Hr Hl) as Hb.
  destruct (below_rec _ _ _ _ Hb Hlim) as (Et & Eo & Ev & Ef & Em & Eg).
  unfold load_segment. rewrite Et, Ev, Em, Eg. fold (loadable m file i).
  destruct (loadable m file i) eqn:Hld.
  2:{ assert (refused m file i = false) as -> by (unfold refused; by rewrite Hld).
      exists m', img. split; [done|]. split; [|unfold segment_marks; by rewrite Hld].
      apply (loaded_next m'); [lia|done|]. intros a. unfold segment_byte. by rewrite Hld. }
  destruct (elf_segment _ _ _ Helf i Hi Hld) as (Hoff & Hsz & Hv).
  unfold refused. rewrite Hld. cbn [andb].
  pose proof (load32_range m (phdr m file i + 4)) as Ho. fold (p_offset m (phdr m file i)) in Ho.
  pose proof (load32_range m (phdr m file i + 16)) as Hf. fold (p_filesz m (phdr m file i)) in Hf.
  pose proof (load32_range m (phdr m file i + 8)) as Hva. fold (p_vaddr m (phdr m file i)) in Hva.
  set (v := p_vaddr m (phdr m file i)) in *. set (ms := p_memsz m (phdr m file i)) in *.
  set (fs := p_filesz m (phdr m file i)) in *. set (off := p_offset m (phdr m file i)) in *.
  rewrite (u32_small (v + ms)) by lia.
  destruct ((v <? USER_OFFSET) || (USER_STACK <? v + ms)) eqn:Hrange; [done|].
  apply orb_false_iff in Hrange as [H1%Z.ltb_ge H2%Z.ltb_ge].
  destruct Helf as [_ (_ & _ & Hlen) _ _].
  set (img2 := if p_flags _ _ =? Z.lor PF_W _ then _ else _).
  assert (img2 = segment_marks m file i img) as Himg.
  { subst img2. unfold segment_marks. rewrite Hld. change (Z.lor PF_W PF_R) with 6. change (Z.lor PF_X PF_R) with 5.
    cbn [negb]. destruct (Z.eqb_spec (p_flags m (phdr m file i)) 5) as [->|]; [by destruct img|].
    by destruct (p_flags m (phdr m file i) =? 6), img. }
  assert (s32 fs = fs) as Hfs by (apply s32_small; lia).
  rewrite Eo, Ef. fold off fs. rewrite Hfs. rewrite (u32_small (file + off)) by (unfold USER_OFFSET in *; lia).
  set (m1 := memcpy m' v (file + off) fs).
  assert (below_agree USER_OFFSET m m1) as Hb1.
  { intros a Ha. unfold m1. destruct (memcpy_spec m' v (file + off) fs) as [_ Hout]; [lia|right; lia|].
    rewrite Hout by lia. by apply Hb. }
  destruct (below_rec _ _ _ _ Hb1 Hlim) as (_ & _ & _ & Ef1 & Em1 & _). rewrite Ef1, Em1. fold fs ms.
  rewrite (u32_small (v + fs)), (u32_small (ms - fs)) by lia. rewrite (s32_small (ms - fs)) by lia.
  eexists _, _. split; [done|]. split; [|done]. apply (loaded_next m'); [lia|done|]. intros a.
  unfold m1. rewrite (copy_zero m' v (file + off) fs ms) by lia. unfold segment_byte.
  rewrite Hld. fold v ms fs off. cbn [andb].
  destruct ((0 <=? a - v) && (a - v <? ms)) eqn:Hin; [|done].
  destruct (Z.ltb_spec (a - v) fs); [|done]. apply andb_true_iff in Hin as [Hin%Z.leb_le _].
  apply Hb. lia.
Qed.

(** Before each round of the loop, and after the last. *)
Definition elf_inv (img : image) (st : Z * Z * mem * image) : Prop :=
  let '(i, p, m', img') := st in
  0 <= i <= e_phnum m file ∧ p = phdr m file i ∧ (∀ j, 0 <= j < i → refused m file j = false) ∧ loaded m file m' i ∧
  img' = image_marks m file (Z.to_nat i) img.

Definition elf_post (img : image) (r : Z * mem * image) : Prop :=
  let '(ret, m', img') := r in
  ∃ k, 0 <= k <= e_phnum m file ∧ (∀ i, 0 <= i < k → refused m file i = false) ∧
    (k = e_phnum m file ∨ refused m file k = true) ∧ ret = (if k =? e_phnum m file then e_entry m file else 0) ∧
    loaded m file m' k ∧ img' = image_marks m file (Z.to_nat k) img.

Lemma load_elf_step img0 i p m' img :
  elf_inv img0 (i, p, m', img) →
  if i <? e_phnum m' file then
    match load_segment file p m' img with
    | None => elf_post img0 (0, m', img)
    | Some (m'', img') => elf_inv img0 (i + 1, u32 (p + sizeof_phdr), m'', img') ∧ i < e_phnum m file
    end
  else elf_post img0 (e_entry m' file, m', img).
Proof.
  intros (Hi & -> & Hr & Hl & ->). pose proof (loaded_below m' i ltac:(lia) Hr Hl) as Hb.
  destruct (elf_place _ _ _ Helf) as (H0 & Hlen & Hlim). unfold sizeof_ehdr in Hlen.
  assert (e_phnum m' file = e_phnum m file) as -> by (apply (load16_below USER_OFFSET); (done || lia)).
  destruct (Z.ltb_spec i (e_phnum m file)) as [Hlt|].
  - pose proof (load_segment_spec m' (image_marks m file (Z.to_nat i) img0) i ltac:(lia) Hr Hl) as Hs.
    destruct (refused m file i) eqn:Hri.
    + rewrite Hs. exists i. rewrite (proj2 (Z.eqb_neq i (e_phnum m file))) by lia.
      split; [lia|]. split; [done|]. split; [by right|done].
    + destruct Hs as (m'' & img' & -> & Hl' & ->). destruct (phdr_bounds i) as (_ & Hp & Hp0); [lia|].
      split; [|done]. split; [lia|]. split.
      { unfold sizeof_phdr, USER_OFFSET in *. rewrite u32_small by lia. unfold phdr, sizeof_phdr. lia. }
      split; [|split; [done|]].
      { intros j Hj. destruct (decide (j = i)) as [->|]; [done|]. apply Hr. lia. }
      rewrite Z2Nat.inj_add, Nat.add_1_r by lia. cbn [image_marks]. by rewrite Z2Nat.id by lia.
  - exists i. replace (i =? e_phnum m file) with true by (symmetry; apply Z.eqb_eq; lia).
    split; [lia|]. split; [done|]. split; [left; lia|]. split; [|split; done].
    apply (load32_below USER_OFFSET); (done || lia).
Qed.

(** Every byte of memory and the result, for a good file. *)
Lemma load_elf_loads img :
  ∃ k m', 0 <= k <= e_phnum m file ∧ (∀ i, 0 <= i < k → refused m file i = false) ∧
    (k = e_phnum m file ∨ refused m file k = true) ∧
    load_elf m img file = Done (if k =? e_phnum m file then e_entry m file else 0, m',
                            image_marks m file (Z.to_nat k) img) ∧
    ∀ a, load8 m' a = if (a <? USER_OFFSET) || (USER_STACK <=? a) then load8 m a else image_byte m file (Z.to_nat k) a.
Proof.
  unfold load_elf. rewrite (elf_magic _ _ _ Helf). change (FileTree.RETURN_OK =? FileTree.ERROR_PARAM) with false.
  cbn iota. destruct (elf_place _ _ _ Helf) as (H0 & Hlen & Hlim).
  pose proof (load16_range m (file + 44)) as Hnum. fold (e_phnum m file) in Hnum.
  pose proof (load32_range m (file + 28)) as Hpo. fold (e_phoff m file) in Hpo.
  destruct (loop_total (elf_inv img) (elf_post img) (fun '(i, _, _, _) => Z.to_nat (e_phnum m file - i))
    (fun '(i, p_entry, m, img) =>
      Done (if i <? e_phnum m file then
              match load_segment file p_entry m img with
              | None => inr (0, m, img)
              | Some (m, img) => inl (i + 1, u32 (p_entry + sizeof_phdr), m, img)
              end
            else inr (e_entry m file, m, img)))) with (fuel := elf_fuel) (s := (0, u32 (file + e_phoff m file), m, img))
    as ([[r m'] img'] & -> & k & Hk & Hr & He & -> & Hl & ->).
  - intros [[[i p] m'] img'] Hinv. pose proof (load_elf_step img i p m' img' Hinv) as Hs. eexists. split; [done|].
    destruct (i <? e_phnum m' file); [|done]. destruct (load_segment file p m' img') as [[m'' img'']|]; [|done].
    destruct Hs as [Hs ?]. split; [done|]. lia.
  - pose proof (elf_headers _ _ _ Helf). unfold sizeof_phdr, USER_OFFSET in *. split; [lia|].
    rewrite u32_small by lia. split; [unfold phdr, sizeof_phdr; lia|]. split; [lia|split; done].
  - unfold elf_fuel. lia.
  - exists k, m'. do 4 (split; [done|]). intros a. rewrite Hl.
    destruct ((a <? USER_OFFSET) || (USER_STACK <=? a)) eqn:Ha; [|done].
    apply image_outside; [intros; apply Hr; lia|]. apply orb_true_iff in Ha as [?%Z.ltb_lt|?%Z.leb_le]; lia.
Qed.

End Load.


(** ** Concrete files *)

Fixpoint poke (a : Z) (l : list Z) (m : mem) : mem :=
  match l with
  | [] => m
  | c :: l => poke (a + 1) l (store8 m a c)
  end.
Definition le4 (v : Z) : list Z := [v mod 256; v / 2 ^ 8 mod 256; v / 2 ^ 16 mod 256; v / 2 ^ 24 mod 256].
Definition ehdr_bytes (entry n : Z) : list Z :=
  [0x7f; 69; 76; 70] ++ replicate 20 0 ++ le4 entry ++ le4 52 ++ replicate 12 0 ++ [n; 0] ++ replicate 6 0.
Definition phdr_bytes (offset vaddr filesz memsz flags : Z) : list Z :=
  le4 PT_LOAD ++ le4 offset ++ le4 vaddr ++ le4 0 ++ le4 filesz ++ le4 memsz ++ le4 flags ++ le4 0.

Definition demo_file : Z := 0x200000.
Definition no_image : image := mk_image 0 0 0 0.
Definition demo_elf (seg : list Z) : mem := poke demo_file (ehdr_bytes 0x40001002 1 ++ seg ++ [11; 12; 13; 14]) ∅.

(** Three bytes of the file and a zero, at [0x40001000]. *)
Definition good_elf : mem := demo_elf (phdr_bytes 84 0x40001000 3 4 5).

Lemma good_elf_file : elf_file good_elf demo_file 88.
Proof.
  split; [reflexivity| |by vm_compute|].
  - change (0 <= 0x200000 ∧ 52 <= 88 ∧ 0x200000 + 88 <= 0x40000000). lia.
  - change (e_phnum good_elf demo_file) with 1. intros i Hi _. assert (i = 0) as -> by lia.
    vm_compute. repeat split; discriminate.
Qed.


(** What the run of [load_elf] leaves at [a], and its result. *)
Definition loaded_byte (m : mem) (a : Z) : option (Z * Z) :=
  match load_elf m no_image demo_file with Done (r, m', _) => Some (r, load8 m' a) | _ => None end.

Example good_elf_runs :
  loaded_byte good_elf 0x40001002 = Some (0x40001002, 13) ∧ loaded_byte good_elf 0x40001003 = Some (0x40001002, 0).
Proof. split; vm_compute; reflexivity. Qed.

(** The end of the segment is computed in 32 bits: a segment at the top of the
    address space ends below [USER_STACK] and is written. *)
Example wrapped_segment_written :
  loaded_byte (demo_elf (phdr_bytes 84 0xFFFFF000 4 0x2000 6)) 0xFFFFF001 = Some (0x40001002, 12).
Proof. vm_compute. reflexivity. Qed.

(** The size in the file is not compared with the size in memory, which is the
    one the range is computed from: an empty segment at the end of the range is
    accepted and its bytes written behind it. *)
Example file_size_unchecked :
  loaded_byte (demo_elf (phdr_bytes 84 USER_STACK 4 0 6)) (USER_STACK + 1) = Some (0x40001002, 12).
Proof. vm_compute. reflexivity. Qed.
