(* ===== verification/Environment.v ===== *)
(** Environment variables, users and the system object:
    [src/src/kernel/core/env.cc], [user.cc] and [system.cc], with their headers.

    A [Variable] and a [User] are [File] objects of the tree and, under the
    same address, an entry of a store with the fields they add.  The value of a
    variable is in kernel memory, from [kmalloc]; names, passwords and the
    buffers that come from objects are lists of characters without the
    terminator.  [master] and [pcur] are the current process and its directory. *)

From Stdlib Require Import ZArith Lia.
From stdpp Require Import base list gmap option.
From coqutil Require Import Datatypes.RecordSetters.
From S2P Require Import Prelude Memory Strings KAlloc FileTree Filesystem Bytes Chars.
Import TriangleBracketNotations.

Definition USER_ROOT : Z := 0.
Definition USER_NORM : Z := 1.
Definition RETURN_FAILURE : Z := u32 (-128).

(** [class User], the fields it adds to [File]; [password] is an array of 512. *)
Record user := mk_user { utype : Z; unext : Z; password : list Z }.

(** The file system, the heap, the [value_] of each [Variable], the users, and
    the fields of [class System]. *)
Record sysworld (K : Type) := mk_sys {
  sfs : filesystem;
  sk : K;
  values : gmap Z Z;
  users : gmap Z user;
  listuser : Z;
  svar : Z;
  actual : Z;
  sroot : Z;
  uservar : Z;
}.
Arguments mk_sys {K}.
Arguments sfs {K}.
Arguments sk {K}.
Arguments values {K}.
Arguments users {K}.
Arguments listuser {K}.
Arguments svar {K}.
Arguments actual {K}.
Arguments sroot {K}.
Arguments uservar {K}.

(** "/sys/env/" and "/sys/usr/" *)
Definition dir_env : list Z := [47; 115; 121; 115; 47; 101; 110; 118; 47].
Definition dir_usr : list Z := [47; 115; 121; 115; 47; 117; 115; 114; 47].

(** ** Lengths *)

(** [strnlen] *)
Definition strnlen (m : mem) (s maxlen : Z) : outcome Z :=
  while (S (Z.to_nat maxlen)) (fun len => (len <? maxlen) && negb (load8 m (s + len) =? 0)) (fun len => len + 1) 0.

Section Environment.
Context {K : Type} `{KAlloc K}.
Variable fuel : nat.
Variable scan : ftree → Z → outcome ftree.
Variable master : Z.
Variable pcur : option Z.

Definition set_sfs (s : sysworld K) (t : ftree) : sysworld K := s <| sfs ::= fun f => set_tree f t |>.
Definition set_value (s : sysworld K) (p a : Z) : sysworld K := s <| values ::= fun m => <[p := a]> m |>.

(** ** [class Variable] *)

(** [new Variable(n, v)] *)
Definition new_variable (s : sysworld K) (n : list Z) (v : option (list Z)) : outcome (Z * sysworld K) :=
  let '(p, t) := new_file (tree (sfs s)) master n TYPE_FILE in
  let* (_, fs) := addFile fuel scan (set_tree (sfs s) t) pcur dir_env p in
  let s := s <| sfs := fs |> in
  match v with
  | Some v =>
    let value_len := zlen v in
    let* (value, k) := kmalloc (sk s) (value_len + 1) in
    let m := copy_in (kmem k) value v value_len in
    let m := store8 m (value + value_len) 0 in
    let* t := setSize (tree (sfs s)) p (value_len + 1) in
    Done (p, set_value ((set_sfs s t) <| sk := with_mem k m |>) p value)
  | None => Done (p, set_value s p 0)
  end.

Definition variable_open (flag : Z) : Z := RETURN_OK.
Definition variable_close : Z := RETURN_OK.

(** [read] to kernel memory at [buffer]. *)
Definition variable_read (s : sysworld K) (p pos buffer size : Z) : outcome (Z * sysworld K) :=
  let* value := of_option (values s !! p) in
  if value =? 0 then Done (NOT_DEFINED, s)
  else
    let m := kmem (sk s) in
    let* read_size := strnlen m value (s32 size) in
    let* (_, m) := strncpy m buffer value read_size in
    Done (read_size, s <| sk := with_mem (sk s) m |>).

Definition variable_write (s : sysworld K) (p pos : Z) (data : list Z) (size : Z) : outcome (Z * sysworld K) :=
  let* value := of_option (values s !! p) in
  let* k := if negb (value =? 0) then kfree (sk s) value else Done (sk s) in
  let* (value, k) := kmalloc k (u32 (size + 1)) in
  let s := set_value (s <| sk := k |>) p value in
  if negb (value =? 0) then
    let m := copy_in (kmem k) value data (s32 size) in
    let m := store8 m (u32 (value + size)) 0 in
    let* t := setSize (tree (sfs s)) p (u32 (size + 1)) in
    Done (size, (set_sfs s t) <| sk := with_mem k m |>)
  else Done (NOT_DEFINED, s).

(** The four bytes of a [u32]. *)
Definition word_bytes (v : Z) : list Z := [v mod 256; v / 2 ^ 8 mod 256; v / 2 ^ 16 mod 256; v / 2 ^ 24 mod 256].

Definition variable_ioctl (s : sysworld K) (p id buffer : Z) : outcome (Z * sysworld K) :=
  if buffer =? 0 then Done (ERROR_PARAM, s)
  else
    let* f := getf (tree (sfs s)) p in
    let put (data : list Z) (n : Z) := s <| sk := with_mem (sk s) (copy_in (kmem (sk s)) buffer data n) |> in
    if id =? 0 then
      let* len := while 256 (fun len => negb (zget 0 (fname f) len =? 0) && (len <? 255)) (fun len => len + 1) 0 in
      Done (len, put (fname f) (len + 1))
    else if id =? 1 then Done (4, put (word_bytes (fsize f)) 4)
    else if id =? 2 then Done (4, put (word_bytes 0) 4)
    else Done (NOT_DEFINED, s).

(** [Variable::remove]: [delete this]. *)
Definition variable_remove (s : sysworld K) (p : Z) : outcome (Z * sysworld K) :=
  let* value := of_option (values s !! p) in
  let* k := if negb (value =? 0) then kfree (sk s) value else Done (sk s) in
  let* t := delete_file fuel (tree (sfs s)) p in
  Done (RETURN_OK, (set_sfs s t) <| sk := k |> <| values ::= base.delete p |>).

(** ** [class User] *)

Definition getu (s : sysworld K) (us : Z) : outcome user := of_option (users s !! us).
Definition updu (s : sysworld K) (us : Z) (g : user → user) : outcome (sysworld K) :=
  let* u := getu s us in Done (s <| users ::= fun m => <[us := g u]> m |>).

Definition getUNext (s : sysworld K) (us : Z) : outcome Z := let* u := getu s us in Done (unext u).
Definition getUType (s : sysworld K) (us : Z) : outcome Z := let* u := getu s us in Done (utype u).
Definition setUNext (s : sysworld K) (us n : Z) : outcome (sysworld K) := updu s us (fun u => u <| unext := n |>).
Definition setUType (s : sysworld K) (us t : Z) : outcome (sysworld K) := updu s us (fun u => u <| utype := t |>).

(** [System::addUserToList] *)
Definition addUserToList (s : sysworld K) (us : Z) : outcome (sysworld K) :=
  if us =? 0 then Done s
  else let* s := setUNext s us (listuser s) in Done (s <| listuser := us |>).

(** [new User(n)] *)
Definition new_user (s : sysworld K) (n : list Z) : outcome (Z * sysworld K) :=
  let '(p, t) := new_file (tree (sfs s)) master n TYPE_FILE in
  let* (_, fs) := addFile fuel scan (set_tree (sfs s) t) pcur dir_usr p in
  let s := s <| sfs := fs |> <| users ::= fun m => <[p := mk_user USER_NORM 0 (replicate 512 0)]> m |> in
  let* s := addUserToList s p in
  Done (p, s).

Definition setPassword (s : sysworld K) (us : Z) (n : option (list Z)) : outcome (sysworld K) :=
  match n with
  | None => Done s
  | Some n => updu s us (fun u => u <| password := strncpy_chars (replicate 512 0) n 511 |>)
  end.

Definition getPassword (s : sysworld K) (us : Z) : outcome (option (list Z)) :=
  let* u := getu s us in
  Done (if zget 0 (password u) 0 =? 0 then None else Some (c_str (password u))).

(** [User::remove]. *)
Definition user_remove (s : sysworld K) (us : Z) : outcome (Z * sysworld K) :=
  let* t := delete_file fuel (tree (sfs s)) us in
  Done (RETURN_OK, (set_sfs s t) <| users ::= base.delete us |>).

(** ** [class System] *)

(** The strings of [config.h]; the date and time are those of the build. *)
Variable KERNEL_DATE KERNEL_TIME : list Z.
Definition user_root : list Z := [114; 111; 111; 116].
Definition user_live : list Z := [108; 105; 118; 101; 117; 115; 101; 114].
Definition system_variables : list (list Z * list Z) :=
  [([79; 83; 95; 78; 65; 77; 69], [107; 109; 111; 115]);
   ([79; 83; 95; 86; 69; 82; 83; 73; 79; 78], [49]);
   ([79; 83; 95; 68; 65; 84; 69], KERNEL_DATE);
   ([79; 83; 95; 84; 73; 77; 69], KERNEL_TIME);
   ([79; 83; 95; 76; 73; 67; 69; 78; 67; 69], [65; 112; 97; 99; 104; 101; 32; 76; 105; 99; 101; 110; 115; 101]);
   ([67; 79; 77; 80; 85; 84; 69; 82; 78; 65; 77; 69], [69; 110; 118; 121]);
   ([80; 82; 79; 67; 69; 83; 83; 79; 82; 95; 73; 68; 69; 78; 84; 73; 70; 73; 69; 82], [40; 110; 117; 108; 108; 41]);
   ([80; 82; 79; 67; 69; 83; 83; 79; 82; 95; 78; 65; 77; 69], [71; 101; 110; 101; 114; 105; 99; 32; 120; 56; 54]);
   ([80; 65; 84; 72], [47; 98; 105; 110; 47]);
   ([83; 72; 69; 76; 76], [47; 98; 105; 110; 47; 115; 104])].

Definition system_init (s : sysworld K) : outcome (sysworld K) :=
  let* (v, fs) := path fuel scan (sfs s) pcur dir_env in
  let s := s <| sfs := fs |> <| svar := v |> in
  let* (r, s) := new_user s user_root in
  let s := s <| sroot := r |> in
  let* s := setUType s r USER_ROOT in
  let* (a, s) := new_user s user_live in
  let s := s <| actual := a |> in
  let* (uv, s) := new_variable s [85; 83; 69; 82] (Some user_live) in
  let s := s <| uservar := uv |> in
  foldl (fun s '(n, v) => let* s := s in let* (_, s) := new_variable s n (Some v) in Done s) (Done s) system_variables.

(** [login]: the result is an [int]. *)
Definition login (s : sysworld K) (us : Z) (pass : option (list Z)) : outcome (Z * sysworld K) :=
  if us =? 0 then Done (s32 ERROR_PARAM, s)
  else
    let* stored := getPassword s us in
    let refused :=
      match stored, pass with
      | None, _ => None
      | Some _, None => Some (s32 PARAM_NULL)
      | Some pw, Some pass =>
        if negb (strncmp_chars pass pw (length pw) 0 =? 0) then Some (s32 RETURN_FAILURE) else None
      end in
    match refused with
    | Some code => Done (code, s)
    | None =>
      let* f := getf (tree (sfs s)) us in
      let* (_, s) := variable_write s (uservar s) 0 (fname f) (zlen (fname f)) in
      Done (RETURN_OK, s <| actual := us |>)
    end.

(** The virtual [read]: a file that is no variable is a plain [File]. *)
Definition read_file (s : sysworld K) (p pos buffer size : Z) : outcome (Z * sysworld K) :=
  match values s !! p with
  | Some _ => variable_read s p pos buffer size
  | None => Done (NOT_DEFINED, s)
  end.

Definition getvar (s : sysworld K) (name : list Z) : outcome (Z * sysworld K) :=
  let* temp := find fuel (tree (sfs s)) (svar s) name in
  if temp =? 0 then Done (0, s)
  else
    let* f := getf (tree (sfs s)) temp in
    let* (varin, k) := kmalloc (sk s) (fsize f) in
    let m := memset (kmem k) varin 0 (s32 (fsize f)) in
    let* (_, s) := read_file (s <| sk := with_mem k m |>) temp 0 varin (fsize f) in
    Done (varin, s).

Definition getUser (s : sysworld K) (nae : list Z) : outcome Z :=
  loop fuel (fun us =>
    if us =? 0 then Done (inr 0)
    else
      let* f := getf (tree (sfs s)) us in
      if strncmp_chars nae (fname f) (length (fname f)) 0 =? 0 then Done (inr us)
      else let* n := getUNext s us in Done (inl n)) (listuser s).

Definition isRoot (s : sysworld K) : outcome Z :=
  if actual s =? 0 then Done 0
  else let* t := getUType s (actual s) in Done (b2z (t =? USER_ROOT)).

End Environment.
