(* ===== verification/EnvironmentSpec.v ===== *)
(** Variables keep their text, and who can log in.

    A variable holds a string when its value is a block of the heap with the
    string and its terminator ([holds]); [write] establishes it and [getvar]
    reads it back, over every allocator that meets the contract of
    [KAlloc.v], and each fails exactly when its request is refused.  [login] compares with the password as a prefix. *)

From Stdlib Require Import ZArith Lia.
From stdpp Require Import base list gmap option.
From coqutil Require Import Datatypes.RecordSetters.
From S2P Require Import Prelude Memory Strings KAlloc Bump FileTree Filesystem Bytes Chars FileTreeSpec Environment.
Import TriangleBracketNotations.

(** ** The length of a value *)

Lemma strnlen_spec m a s n :
  cstr m a s → zlen s < n → strnlen m a n = Done (zlen s).
Proof.
  intros Hs Hn. pose proof (zlen_nonneg s). unfold strnlen.
  destruct (while_total (fun len => 0 <= len <= zlen s) (fun len => Z.to_nat (zlen s - len))
    (fun len => (len <? n) && negb (load8 m (a + len) =? 0)) (fun len => len + 1)) with (fuel := S (Z.to_nat n)) (s := 0)
    as (r & -> & Hr & Hc); [|lia|lia|].
  - intros len Hl [_ Hc%negb_true_iff%Z.eqb_neq]%andb_true_iff.
    destruct (decide (len = zlen s)) as [->|]; [by rewrite cstr_end in Hc|lia].
  - f_equal. destruct (decide (r = zlen s)) as [|Hne]; [done|]. exfalso.
    rewrite (proj2 (Z.ltb_lt r n)) in Hc by lia. apply negb_false_iff, Z.eqb_eq in Hc.
    assert (is_Some (s !! Z.to_nat r)) as [c Hc'] by (apply lookup_lt_is_Some; unfold zlen in *; lia).
    pose proof (proj1 (bytes_lookup _ _ _) (cstr_bytes _ _ _ Hs) _ _ Hc') as Hl. rewrite Z2Nat.id in Hl by lia.
    pose proof (cstr_nonzero _ _ _ Hs) as Hf. eapply Forall_lookup_1 in Hf; [|done]. cbn beta in Hf. lia.
Qed.

Lemma strnlen_total m a n : ∃ r, strnlen m a n = Done r.
Proof.
  unfold strnlen.
  destruct (while_total (fun len => 0 <= len) (fun len => Z.to_nat (n - len))
    (fun len => (len <? n) && negb (load8 m (a + len) =? 0)) (fun len => len + 1)) with (fuel := S (Z.to_nat n)) (s := 0)
    as (r & -> & _); [|lia|lia|by eexists].
  intros len Hl [Hc%Z.ltb_lt _]%andb_true_iff. lia.
Qed.

(** ** Writes inside a block *)

Lemma word_in_block x dest n : (4 | dest) → dest <= x < dest + n → dest <= x - x mod 4 < dest + n.
Proof.
  intros [d ->] Hx. pose proof (Z.mod_pos_bound x 4 ltac:(lia)). pose proof (Z.div_mod x 4 ltac:(lia)). lia.
Qed.

(** The words of [m'] outside the [n] bytes at the aligned address [dest] are those of [m]. *)
Definition writes_in (dest n : Z) (m m' : mem) : Prop := ∀ a, ¬ (dest <= a < dest + n) → load m' a = load m a.

#[export] Instance writes_in_preorder dest n : PreOrder (writes_in dest n).
Proof. split; [by intros m a|]. intros m1 m2 m3 H1 H2 a Ha. by rewrite H2, H1. Qed.

Lemma store8_writes_in dest n m x v : (4 | dest) → dest <= x < dest + n → writes_in dest n m (store8 m x v).
Proof.
  intros H4 Hx a Ha. apply load_store8_ne. intros <-. apply Ha. by apply word_in_block.
Qed.

Lemma for_writes_in dest n j (body : Z → mem → mem) m :
  0 <= j → (∀ i m, 0 <= i < j → writes_in dest n m (body i m)) → writes_in dest n m (for_ j body m).
Proof.
  intros Hj Hb. apply (for_inv (fun _ m' => writes_in dest n m m')); [done|done|].
  intros i m' Hi Hm. etrans; [done|by apply Hb].
Qed.

Lemma strncpy_writes_in dest n m src maxLength r m' :
  (4 | dest) → maxLength <= n → strncpy m dest src maxLength = Done (r, m') → writes_in dest n m m'.
Proof.
  intros H4 Hn. unfold strncpy. destruct ((dest =? 0) || (src =? 0)); [by intros [= _ <-]|].
  set (mx := if 255 <? maxLength then 255 else maxLength).
  assert (mx <= n) as Hmx by (subst mx; destruct (Z.ltb_spec 255 maxLength); lia).
  intros ([c m1] & Hl & [= _ <-])%obind_Done. revert Hl.
  apply (loop_inv (fun '(count, m1) => 0 <= count ∧ writes_in dest n m m1) (fun '(_, m1) => writes_in dest n m m1));
    [|by split].
  intros [count m0] [H0 Hm]. destruct (Z.ltb_spec count mx); cbn [negb]; [|done].
  assert (writes_in dest n m (store8 m0 (dest + count) (load8 m0 (src + count)))) as Hw.
  { etrans; [done|]. apply store8_writes_in; [done|lia]. }
  destruct (load8 _ (src + count) =? 0); [done|]. split; [lia|done].
Qed.

Section Variables.
Context {K : Type} `{KAllocLaws K}.
Variable fuel : nat.
Implicit Types (s : sysworld K) (k : K).

Lemma keeps_byte l k k' p n x :
  keeps l k k' → (p, n) ∈ l → (4 | p) → p <= x < p + n → load8 (kmem k') x = load8 (kmem k) x.
Proof.
  intros Hk Hin H4 Hx. unfold load8. do 2 f_equal. apply (Hk (x - x mod 4)).
  exists p, n. split; [done|]. by apply word_in_block.
Qed.

(** Writing inside a new block: the allocator does not notice, and the older blocks keep their bytes. *)
Lemma own_writes l k m p n :
  kalloc_ok k ((p, n) :: l) → block_disjoint p n l → writes_in p n (kmem k) m →
  kalloc_ok (with_mem k m) ((p, n) :: l) ∧ keeps l k (with_mem k m).
Proof.
  intros Hok Hd Hw. split.
  - apply kwrite_own; [done|]. intros a Ha. apply Hw. intros Hin. apply Ha. apply in_blocks_cons. by left.
  - intros a Ha. unfold kload. rewrite kmem_with. apply Hw. intros Hin. by apply (disjoint_not_in p n l a Hd Hin).
Qed.

(** The variable [p] holds the text [v] in one of the blocks [l]. *)
Definition holds s (l : list (Z * Z)) (p : Z) (v : list Z) : Prop :=
  ∃ a f, values s !! p = Some a ∧ (a, zlen v + 1) ∈ l ∧ cstr (kmem (sk s)) a v ∧
    getf (tree (sfs s)) p = Done f ∧ fsize f = zlen v + 1.

(** The [value_] of a variable is given back before a new one is taken. *)
Definition released k (v0 : Z) (k0 : K) : Prop := v0 = 0 ∧ k0 = k ∨ v0 ≠ 0 ∧ kfree k v0 = Done k0.

(** The fields of the world a write to a variable does not touch. *)
Definition same_system s s' : Prop :=
  users s' = users s ∧ listuser s' = listuser s ∧ svar s' = svar s ∧ actual s' = actual s ∧
  sroot s' = sroot s ∧ uservar s' = uservar s.

(** [kmalloc] has no memory for [n] bytes. *)
Definition refuses k (n : Z) : Prop := ∃ k', kmalloc k n = Done (0, k').

Lemma refuses_null k n q k' : kmalloc k n = Done (q, k') → refuses k n ↔ q = 0.
Proof. intros E. split; [intros [k2 E2]; congruence|intros ->; by exists k']. Qed.

(** [written s l p data k0 s']: what [s'] is after [data] is written to the
    variable [p] in [s], when its old value was released and [k0] left.  Only
    the value and the size of [p] change.  Without memory the value is null;
    otherwise the variable holds the text in a new block. *)
Record written s l p data k0 s' : Prop := {
  wt_system : same_system s s';
  wt_result :
    refuses k0 (zlen data + 1) ∧ values s' = <[p := 0]> (values s) ∧ kalloc_ok (sk s') l ∧ sfs s' = sfs s ∨
    ¬ refuses k0 (zlen data + 1) ∧ ∃ a, values s' = <[p := a]> (values s) ∧
      kalloc_ok (sk s') ((a, zlen data + 1) :: l) ∧ holds s' ((a, zlen data + 1) :: l) p data ∧ keeps l k0 (sk s') ∧
      setSize (tree (sfs s)) p (zlen data + 1) = Done (tree (sfs s')) ∧ sfs s' = set_tree (sfs s) (tree (sfs s'));
}.

Lemma variable_write_spec s l p f data v0 k0 :
  values s !! p = Some v0 → getf (tree (sfs s)) p = Done f → released (sk s) v0 k0 → kalloc_ok k0 l →
  fits (zlen data + 1) → zlen data < 2 ^ 31 - 1 → text data →
  ∃ r s', variable_write s p 0 data (zlen data) = Done (r, s') ∧ written s l p data k0 s' ∧
    (refuses k0 (zlen data + 1) → r = NOT_DEFINED) ∧ (¬ refuses k0 (zlen data + 1) → r = zlen data).
Proof.
  intros Hv Hf Hrel Hok Hfits Hlen Ht. pose proof (zlen_nonneg data). unfold variable_write. rewrite Hv. cbn [of_option obind].
  assert ((if negb (v0 =? 0) then kfree (sk s) v0 else Done (sk s)) = Done k0) as ->.
  { destruct Hrel as [[-> ->]|[Hne Hk]]; [done|]. by rewrite (proj2 (Z.eqb_neq _ _) Hne). }
  cbn [obind]. rewrite (u32_small (zlen data + 1)) by lia.
  destruct (kmalloc_fresh k0 l _ Hok Hfits) as (a & k1 & Ekm & Hkeep & Hcase).
  pose proof (refuses_null _ _ _ _ Ekm) as Hrf. rewrite Ekm. cbn [obind].
  destruct Hcase as [[-> Hok1]|(Ha & H4 & Hb & Hd & Hok1)].
  { assert (refuses k0 (zlen data + 1)) as Hr by by apply Hrf.
    eexists _, _. split; [done|]. split; [split; [done|by left]|by split]. }
  assert (¬ refuses k0 (zlen data + 1)) as Hr by (rewrite Hrf; lia).
  rewrite (proj2 (Z.eqb_neq a 0)) by lia. cbn [negb].
  unfold s32. rewrite (Z.mod_small (zlen data + 2 ^ 31)), Z.add_simpl_r by lia.
  rewrite (u32_small (a + zlen data)) by lia.
  set (m := store8 (copy_in (kmem k1) a data (zlen data)) (a + zlen data) 0).
  assert (writes_in a (zlen data + 1) (kmem k1) m) as Hw.
  { etrans; [|apply store8_writes_in; [done|lia]]. apply for_writes_in; [done|].
    intros i m' Hi. apply store8_writes_in; [done|lia]. }
  destruct (own_writes l k1 m a _ Hok1 Hd Hw) as [Hok2 Hk2].
  destruct (updf_spec (tree (sfs s)) p (fun f => f <| fsize := zlen data + 1 |>) f Hf) as (t & Et & Ef & _).
  change (tree _) with (tree (sfs s)) at 1. unfold setSize. rewrite Et. cbn [obind].
  eexists _, _. split; [done|]. split; [|by split]. split; [done|]. right. split; [done|].
  exists a. split; [done|]. split; [exact Hok2|]. split; [|split; [by etrans|split; done]].
  exists a, (f <| fsize := zlen data + 1 |>). split; [apply lookup_insert_eq|]. split; [by left|].
  split; [|done]. cbn [sk]. change (cstr (kmem (with_mem k1 m)) a data). rewrite kmem_with. by apply copy_in_cstr.
Qed.

(** The size of a file plays no part in looking it up. *)
Lemma find_setSize t p v t' d n : setSize t p v = Done t' → find fuel t' d n = find fuel t d n.
Proof.
  unfold setSize. intros Ht.
  assert (∃ f0, getf t p = Done f0) as [f0 Ef].
  { unfold updf in Ht. destruct (getf t p); by eauto. }
  destruct (updf_spec t p (fun f => f <| fsize := v |>) f0 Ef) as (t1 & E1 & Ep & Ene & _).
  rewrite Ht in E1. injection E1 as <-.
  assert (∀ q, match getf t' q, getf t q with
               | Done f', Done f => fname f' = fname f ∧ fnext f' = fnext f ∧ fchild f' = fchild f
               | Stuck, Stuck => True
               | _, _ => False
               end) as Hag.
  { intros q. destruct (decide (q = p)) as [->|Hq]; [by rewrite Ep, Ef|]. rewrite (Ene q Hq).
    unfold getf, of_option. by destruct (files t !! q). }
  unfold find. pose proof (Hag d) as Hd.
  destruct (getf t' d) as [fd'| |], (getf t d) as [fd| |]; try done. destruct Hd as (_ & _ & Hc).
  cbn [obind]. rewrite Hc. generalize (fchild fd). clear - Hag.
  induction fuel as [|n0 IH]; intros q; [done|]. cbn [loop].
  destruct (q =? 0); cbn [obind]; [done|]. pose proof (Hag q) as Hq.
  destruct (getf t' q) as [f'| |], (getf t q) as [f| |]; try done. cbn [obind].
  destruct Hq as (-> & Hn & _). destruct (same_name (fname f) n); [done|]. rewrite Hn. apply IH.
Qed.

Lemma memset_writes_in dest n m c j : (4 | dest) → 0 <= j <= n → writes_in dest n m (memset m dest c j).
Proof.
  intros H4 Hj. apply for_writes_in; [lia|]. intros i m' Hi. apply store8_writes_in; [done|lia].
Qed.

(** The read of a text of [v] into a zeroed block leaves its first 255 characters. *)
Lemma strncpy_text m q a v :
  text v → cstr m a v → a ≠ 0 → q ≠ 0 → q + zlen v < a ∨ a + zlen v < q →
  (∀ i, 0 <= i <= zlen v → load8 m (q + i) = 0) →
  ∃ r m', strncpy m q a (zlen v) = Done (r, m') ∧ cstr m' q (take 255 v) ∧ cstr m' a v.
Proof.
  intros Ht Hv Ha Hq Hov Hz. pose proof (zlen_nonneg v).
  destruct (strncpy_spec m q a v (zlen v)) as (m' & E & Hb & Ho); [done..|].
  eexists _, m'. split; [exact E|]. assert (zlen (take 255 v) = Z.min 255 (zlen v)) as Hlen.
  { unfold zlen. rewrite length_take. lia. }
  assert (take (Z.to_nat (Z.min (zlen v) 255)) (v ++ [0]) = take 255 v) as Htk.
  { rewrite take_app_le by (unfold zlen in *; lia). unfold zlen.
    destruct (decide (length v <= 255)%nat); [rewrite !take_ge by lia; done|f_equal; lia]. }
  rewrite Htk in Hb. split.
  - apply cstr_intro; [done|by apply Forall_take|]. rewrite Hlen. rewrite Ho by lia. apply Hz. lia.
  - apply (cstr_frame m); [|done]. intros x Hx. apply Ho. lia.
Qed.

Lemma getvar_spec s l p v name :
  kalloc_ok (sk s) l → holds s l p v → text v → fits (zlen v + 1) → zlen v < 2 ^ 31 - 1 →
  find fuel (tree (sfs s)) (svar s) name = Done p → p ≠ 0 →
  ∃ q s', getvar fuel s name = Done (q, s') ∧
    (refuses (sk s) (zlen v + 1) ∧ q = 0 ∨
     ¬ refuses (sk s) (zlen v + 1) ∧ q ≠ 0 ∧ cstr (kmem (sk s')) q (take 255 v) ∧
       kalloc_ok (sk s') ((q, zlen v + 1) :: l) ∧ holds s' l p v).
Proof.
  intros Hok (a & f & Hval & Hin & Hcs & Hf & Hsz) Ht Hfits Hlen Hfind Hp. pose proof (zlen_nonneg v).
  destruct (live_bounds _ _ _ _ Hok Hin) as (Ha & Ha4 & Hab).
  unfold getvar. rewrite Hfind. cbn [obind]. rewrite (proj2 (Z.eqb_neq p 0)) by done. rewrite Hf. cbn [obind]. rewrite Hsz.
  assert (s32 (zlen v + 1) = zlen v + 1) as Hs32 by (unfold s32; rewrite Z.mod_small by lia; lia). rewrite Hs32.
  destruct (kmalloc_fresh (sk s) l _ Hok Hfits) as (q & k1 & Ekm & Hkeep & Hq).
  pose proof (refuses_null _ _ _ _ Ekm) as Hrf. rewrite Ekm. cbn [obind].
  unfold read_file, variable_read. cbn [values sk]. change (values _) with (values s) at 1 2. rewrite Hval. cbn [of_option obind].
  rewrite (proj2 (Z.eqb_neq a 0)) by lia. rewrite Hs32.
  change (sk (s <| sk := ?k |>)) with k. cbn [sk]. rewrite !kmem_with.
  set (m1 := memset (kmem k1) q 0 (zlen v + 1)).
  destruct Hq as [[-> _]|(Hq & Hq4 & Hqb & Hd & Hok1)].
  { destruct (strnlen_total m1 a (zlen v + 1)) as [r ->]. cbn [obind].
    change (strncpy m1 0 a r) with (Done (0, m1)). eexists _, _. split; [reflexivity|]. left. by rewrite Hrf. }
  destruct (memset_spec (kmem k1) q 0 (zlen v + 1)) as [Hz Ho]; [lia|]. fold m1 in Hz, Ho.
  pose proof (Hd _ _ Hin) as Hdis.
  assert (cstr m1 a v) as Hcs1.
  { apply (cstr_frame (kmem (sk s))); [|done]. intros x Hx. rewrite Ho by lia.
    by apply (keeps_byte l _ _ a (zlen v + 1)); [..|lia]. }
  rewrite (strnlen_spec m1 a v) by (done || lia). cbn [obind].
  destruct (strncpy_text m1 q a v) as (r & m2 & E2 & Hq2 & Ha2); [done|done|lia|lia|lia|intros i Hi; apply Hz; lia|].
  rewrite E2. cbn [obind]. eexists _, _. split; [reflexivity|]. right. rewrite Hrf. do 2 (split; [lia|]). cbn [sk].
  assert (writes_in q (zlen v + 1) (kmem k1) m2) as Hw.
  { etrans; [|by eapply strncpy_writes_in; [..|exact E2]; [done|lia]]. apply memset_writes_in; [done|lia]. }
  rewrite with_with. destruct (own_writes l k1 m2 q _ Hok1 Hd Hw) as [Hok2 _].
  split; [change (cstr (kmem (with_mem k1 m2)) q (take 255 v)); by rewrite kmem_with|]. split; [exact Hok2|].
  exists a, f. do 2 (split; [done|]). split; [|done].
  change (cstr (kmem (with_mem k1 m2)) a v). by rewrite kmem_with.
Qed.

(** C26. A variable gives back what was written to it.  Writing a text to a
    variable fails exactly when [kmalloc] has no memory for it, and then the
    variable is empty; otherwise it returns the length of the text.  Then
    [getvar] of the variable's name returns null exactly when [kmalloc] has no
    memory for the copy, and otherwise a new string with the text, cut after 255
    characters, and the variable still holds all of it.  This is so over every
    allocator that meets the contract of [kmalloc] for the text and its
    terminator, and for a name under which [find] finds the variable. *)
Theorem write_getvar s l p f data v0 k0 name :
  values s !! p = Some v0 → getf (tree (sfs s)) p = Done f → released (sk s) v0 k0 → kalloc_ok k0 l →
  fits (zlen data + 1) → zlen data < 2 ^ 31 - 1 → text data →
  find fuel (tree (sfs s)) (svar s) name = Done p → p ≠ 0 →
  ∃ r s1, variable_write s p 0 data (zlen data) = Done (r, s1) ∧
    (refuses k0 (zlen data + 1) ∧ r = NOT_DEFINED ∧ values s1 !! p = Some 0 ∨
     ¬ refuses k0 (zlen data + 1) ∧ r = zlen data ∧ ∃ a q s2, getvar fuel s1 name = Done (q, s2) ∧
       (refuses (sk s1) (zlen data + 1) ∧ q = 0 ∨
        ¬ refuses (sk s1) (zlen data + 1) ∧ q ≠ 0 ∧ cstr (kmem (sk s2)) q (take 255 data) ∧
          holds s2 ((a, zlen data + 1) :: l) p data)).
Proof.
  intros Hv Hf Hrel Hok Hfits Hlen Ht Hfind Hp.
  destruct (variable_write_spec s l p f data v0 k0) as (r & s1 & -> & [Hsame Hr] & Hr1 & Hr2); [done..|].
  exists r, s1. split; [done|]. destruct Hr as [(Hn & E & _)|(Hn & a & _ & Hok1 & Hh & _ & Hset & _)].
  { left. split; [done|]. split; [by apply Hr1|]. rewrite E. apply lookup_insert_eq. }
  right. split; [done|]. split; [by apply Hr2|]. exists a. destruct Hsame as (_ & _ & Hsv & _).
  destruct (getvar_spec s1 _ p data name Hok1 Hh Ht Hfits Hlen) as (q & s2 & -> & Hq); [|done|].
  { rewrite Hsv. by rewrite (find_setSize _ _ _ _ _ _ Hset). }
  exists q, s2. split; [done|]. destruct Hq as [?|(? & ? & ? & _ & ?)]; [by left|by right].
Qed.

(** ** Users *)

Definition password_ok (pw : list Z) : Prop := length pw = 512%nat ∧ ∃ t rest, text t ∧ pw = t ++ 0 :: rest.

(** The password a user has, empty for none. *)
Definition stored_password (u : user) : list Z := c_str (password u).

Lemma getPassword_spec s us u :
  getu s us = Done u → password_ok (password u) →
  getPassword s us = Done (if decide (stored_password u = []) then None else Some (stored_password u)) ∧
  text (stored_password u).
Proof.
  intros Hu (_ & t & rest & Ht & Hpw). unfold getPassword, stored_password. rewrite Hu. cbn [obind]. rewrite Hpw.
  rewrite c_str_text by done. split; [|done]. destruct t as [|c t]; [done|].
  apply list.Forall_cons_1 in Ht as [Hc _]. rewrite decide_False by done.
  change (zget 0 ((c :: t) ++ 0 :: rest) 0) with c. by rewrite (proj2 (Z.eqb_neq c 0)) by lia.
Qed.

(** The stored password is empty or the one given begins with it. *)
Definition accepts (u : user) (pass : option (list Z)) : Prop :=
  stored_password u = [] ∨ ∃ p, pass = Some p ∧ stored_password u `prefix_of` p.

(** C27. [login].  It is refused, and changes nothing, exactly when the user has
    a password and none is given or the one given does not begin with it.
    Otherwise the user becomes the actual one and the variable [USER] holds the
    user's name, or nothing when [kmalloc] has no memory for it; no other
    variable, file or field of the system changes. *)
Theorem login_spec s l us u f fv pass v0 k0 :
  us ≠ 0 → getu s us = Done u → password_ok (password u) → from_option text True pass →
  getf (tree (sfs s)) us = Done f →
  values s !! uservar s = Some v0 → getf (tree (sfs s)) (uservar s) = Done fv → released (sk s) v0 k0 → kalloc_ok k0 l →
  fits (zlen (fname f) + 1) → zlen (fname f) < 2 ^ 31 - 1 → text (fname f) →
  ∃ r s', login s us pass = Done (r, s') ∧
    (accepts u pass → r = RETURN_OK ∧ ∃ s1, written s l (uservar s) (fname f) k0 s1 ∧ s' = s1 <| actual := us |>) ∧
    (¬ accepts u pass → r ≠ RETURN_OK ∧ s' = s).
Proof.
  intros Hus Hu Hpw Hpass Hf Hv Hfv Hrel Hok Hfits Hlen Ht.
  destruct (getPassword_spec s us u Hu Hpw) as [Hget Htext].
  destruct (variable_write_spec s l (uservar s) fv (fname f) v0 k0) as (r & s1 & Hw & Hwr & _); [done..|].
  unfold login. rewrite (proj2 (Z.eqb_neq us 0)) by done. rewrite Hget. cbn [obind].
  assert (∀ X : Prop, X → ∃ r' s', (let* f := getf (tree (sfs s)) us in
      let* (_, s) := variable_write s (uservar s) 0 (fname f) (zlen (fname f)) in
      Done (RETURN_OK, s <| actual := us |>)) = Done (r', s') ∧
    (X → r' = RETURN_OK ∧ ∃ s1, written s l (uservar s) (fname f) k0 s1 ∧ s' = s1 <| actual := us |>) ∧
    (¬ X → r' ≠ RETURN_OK ∧ s' = s)) as Hgo.
  { intros X HX. rewrite Hf. cbn [obind]. rewrite Hw. cbn [obind]. eexists _, _. split; [done|].
    split; [|done]. intros _. split; [done|]. by exists s1. }
  case_decide as Hempty; [apply Hgo; by left|].
  destruct pass as [pass|].
  - destruct (Z.eqb_spec (strncmp_chars pass (stored_password u) (length (stored_password u)) 0) 0) as [E|Hne]; cbn [negb].
    + apply Hgo. right. exists pass. split; [done|]. by apply strncmp_prefix.
    + eexists _, s. split; [done|]. split; [|done]. intros [?|(p & [= <-] & Hp)]; [done|].
      by apply strncmp_prefix in Hp.
  - eexists _, s. split; [done|]. split; [|done]. intros [?|(p & ? & _)]; done.
Qed.

(** A password is cut after 255 characters. *)
Lemma setPassword_spec s us u n :
  getu s us = Done u → text n →
  ∃ s' u', setPassword s us (Some n) = Done s' ∧ getu s' us = Done u' ∧
    password_ok (password u') ∧ stored_password u' = take 255 n.
Proof.
  intros Hu Hn. unfold setPassword, updu. rewrite Hu. cbn [obind].
  set (pw := strncpy_chars (replicate 512 0) n 511).
  eexists _, (u <| password := pw |>). split; [done|]. split.
  { unfold getu. change (of_option (<[us:=u <| password := pw |>]> (users s) !! us) = Done (u <| password := pw |>)).
    by rewrite lookup_insert_eq. }
  change (password (u <| password := pw |>)) with pw. unfold stored_password.
  change (password (u <| password := pw |>)) with pw.
  assert (∃ rest, pw = take 255 n ++ 0 :: rest ∧ length pw = 512%nat) as (rest & E & Hlen).
  { unfold pw, strncpy_chars. change (255 <? 511) with true. cbn iota. unfold splice.
    change (Z.to_nat 255) with 255%nat. change (Z.to_nat 0) with 0%nat. rewrite take_0. cbn [app Nat.add].
    rewrite drop_replicate. destruct (decide (length n <= 254)%nat).
    - rewrite (take_ge (n ++ [0])) by (rewrite length_app; simpl; lia). rewrite (take_ge n) by lia. rewrite <- app_assoc.
      eexists. split; [done|]. cbn [length]. rewrite !length_app. cbn [length]. rewrite ?length_replicate, ?length_app. cbn [length]. lia.
    - rewrite take_app_le by lia. rewrite length_take, Nat.min_l by lia. change (replicate (512 - 255) 0) with (0 :: replicate 256 0).
      eexists. split; [done|]. rewrite length_app, length_take. cbn [length]. rewrite length_replicate. lia. }
  split; [split; [done|]|].
  - exists (take 255 n), rest. split; [by apply Forall_take|done].
  - rewrite E. apply c_str_text. by apply Forall_take.
Qed.

End Variables.

(** ** A concrete system *)

Definition no_scan (t : ftree) (p : Z) : outcome ftree := Done t.
Definition empty_fs : filesystem := mk_fs (mk_ftree ∅ 1 0) [] [] 0 0 0.
Definition empty_sys (fs : filesystem) : sysworld bump := mk_sys fs (mk_bump ∅ 0x1000) ∅ ∅ 0 0 0 0 0.

(** The system after [fsm.init] and [sys.init]. *)
Definition booted : outcome (sysworld bump) :=
  let* fs := fs_init empty_fs 0 in
  system_init 20 no_scan 0 None [49] [50] (empty_sys fs).
Definition booted_sys : sysworld bump :=
  match booted with Done s => s | _ => empty_sys empty_fs end.

Example booted_users :
  (actual booted_sys, sroot booted_sys, uservar booted_sys, svar booted_sys) = (11, 10, 12, 6).
Proof. vm_compute. reflexivity. Qed.

Lemma booted_heap_ok : bump_ok (sk booted_sys) [].
Proof.
  assert (bnext (sk booted_sys) = 4188) as E by (vm_compute; reflexivity).
  unfold bump_ok. rewrite E. split; [lia|]. split; [by exists 1047|]. split; [lia|]. intros p n Hp. exfalso. exact (not_elem_of_nil (p, n) Hp).
Qed.

(** [bump] has memory for the requests below. *)
Lemma bump_not_refused (b : bump) n : (bnext b + bump_size n <? 2 ^ 31) && negb (bnext b =? 0) = true → ¬ refuses b n.
Proof.
  intros [Hlt Hne]%andb_true_iff [k' E]. unfold kmalloc, bump_kalloc in E. rewrite Hlt in E. injection E as E _.
  by rewrite E in Hne.
Qed.

(** The file at an address of the tree. *)
Definition a_file (s : sysworld bump) (p : Z) : file :=
  match getf (tree (sfs s)) p with Done f => f | _ => mk_file [] 0 TYPE_FILE 0 0 0 0 0 0 0 0 end.

(** The variable [USER] of the booted system, with the text "ab". *)
Definition ab : list Z := [97; 98].
Definition write_run : outcome (Z * sysworld bump) := variable_write booted_sys 12 0 ab (zlen ab).

Lemma booted_serves : ¬ refuses (sk booted_sys) (zlen ab + 1).
Proof. apply bump_not_refused. vm_compute. reflexivity. Qed.

Lemma write_run_serves r s1 : write_run = Done (r, s1) → ¬ refuses (sk s1) (zlen ab + 1).
Proof.
  intros E. apply bump_not_refused.
  transitivity (match write_run with Done (_, s) => (bnext (sk s) + bump_size (zlen ab + 1) <? 2 ^ 31) && negb (bnext (sk s) =? 0)
                | _ => false end); [by rewrite E|vm_compute; reflexivity].
Qed.

Lemma write_getvar_witness :
  ∃ s1 a q s2, variable_write booted_sys 12 0 ab (zlen ab) = Done (zlen ab, s1) ∧
    getvar 20 s1 [85; 83; 69; 82] = Done (q, s2) ∧ q ≠ 0 ∧ cstr (kmem (sk s2)) q (take 255 ab) ∧
    holds s2 [(a, zlen ab + 1)] 12 ab.
Proof.
  destruct (write_getvar 20 booted_sys [] 12 (a_file booted_sys 12) ab 0x1000 (sk booted_sys) [85; 83; 69; 82])
    as (r & s1 & E & Hr);
    [vm_compute; reflexivity|vm_compute; reflexivity|right; split; [done|vm_compute; reflexivity]
    |exact booted_heap_ok|vm_compute; reflexivity|vm_compute; reflexivity| |vm_compute; reflexivity|lia|].
  { unfold text, ab. repeat constructor; lia. }
  destruct Hr as [[Hr _]|(_ & -> & a & q & s2 & Eq & Hq)]; [destruct (booted_serves Hr)|].
  destruct Hq as [[Hr _]|(_ & Hq & Hc & Hh)]; [destruct (write_run_serves (zlen ab) s1 E Hr)|].
  exists s1, a, q, s2. split; [exact E|]. split; [exact Eq|]. split; [exact Hq|]. split; [exact Hc|exact Hh].
Defined.

(** The login of [root] after a password [secret] was set. *)
Definition secret : list Z := [115; 101; 99; 114; 101; 116].
Definition secured_sys : sysworld bump :=
  match setPassword booted_sys 10 (Some secret) with Done s => s | _ => booted_sys end.
Definition root_user : user := mk_user USER_ROOT 0 (strncpy_chars (replicate 512 0) secret 511).

Lemma root_password_ok : password_ok (password root_user).
Proof.
  split; [reflexivity|]. exists secret, (replicate 505 0). split; [|reflexivity].
  unfold text, secret. repeat constructor; lia.
Qed.

Lemma secured_serves : ¬ refuses (sk secured_sys) (zlen user_root + 1).
Proof. apply bump_not_refused. vm_compute. reflexivity. Qed.

Lemma login_spec_witness :
  ∃ s' a, login secured_sys 10 (Some (secret ++ [33])) = Done (RETURN_OK, s') ∧ actual s' = 10 ∧
    holds s' [(a, 5)] 12 user_root ∧ values s' = <[12 := a]> (values secured_sys).
Proof.
  destruct (login_spec secured_sys [] 10 root_user (a_file secured_sys 10) (a_file secured_sys 12) (Some (secret ++ [33])) 0x1000 (sk secured_sys))
    as (r & s' & E & Hacc & _);
    [done|vm_compute; reflexivity|exact root_password_ok|unfold text, secret; simpl; repeat constructor; lia
    |vm_compute; reflexivity|vm_compute; reflexivity|vm_compute; reflexivity|right; split; [done|vm_compute; reflexivity]
    |exact booted_heap_ok|vm_compute; reflexivity|vm_compute; reflexivity| |].
  { assert (fname (a_file secured_sys 10) = user_root) as -> by (vm_compute; reflexivity).
    unfold text, user_root. repeat constructor; lia. }
  assert (fname (a_file secured_sys 10) = user_root) as En by (vm_compute; reflexivity). rewrite En in Hacc.
  destruct Hacc as (-> & s1 & [_ Hw] & ->).
  { right. exists (secret ++ [33]). split; [reflexivity|]. exists [33]. vm_compute. reflexivity. }
  destruct Hw as [[Hr _]|(_ & a & Hv & _ & Hh & _)]; [destruct (secured_serves Hr)|].
  exists (s1 <| actual := 10 |>), a. split; [exact E|]. split; [reflexivity|]. split; [exact Hh|exact Hv].
Defined.

(** Anything that begins with the password logs in, and any name that begins
    with the name of a user finds it. *)
Example longer_password_logs_in :
  match login secured_sys 10 (Some (secret ++ [33])) with Done (r, s) => (r, actual s) | _ => (-1, 0) end = (RETURN_OK, 10).
Proof. vm_compute. reflexivity. Qed.

Example longer_name_found : getUser 20 booted_sys (user_root ++ [107; 105; 116]) = Done 10.
Proof. vm_compute. reflexivity. Qed.
