(* ===== verification/Syscalls.v ===== *)
(** System calls: [src/src/kernel/core/syscalls.h], [syscalls.cc] and
    [api_posix.cc].

    A handler takes its arguments with [Architecture::getArg] and leaves its
    result with [setRet]; here [getArg] is a function and the result an
    option, nothing when the handler never calls [setRet].  The kernel's own
    [getArg] gives 0 for every argument and its [setRet] drops the result
    ([Architecture::getArg], below).  A pointer argument is an address in
    kernel memory. *)

From Stdlib Require Import ZArith Lia.
From stdpp Require Import base list gmap option.
From coqutil Require Import Datatypes.RecordSetters.
From S2P Require Import Prelude Memory Strings Bytes Chars KAlloc Mm Vmm Swap Paging Cow FileTree Filesystem Pit Process Arch Vfs Elf.
Import TriangleBracketNotations.

Inductive handler :=
  call_open | call_close | call_read | call_write | call_sbrk | call_ioctl | call_exit | call_execv | call_symlink |
  call_getdents | call_wait | call_dup2 | call_fork | call_chdir | call_mmap.

#[export] Instance handler_eq_dec : EqDecision handler.
Proof. solve_decision. Defined.

(** ** [class Syscalls] *)

Definition NB_SYSCALLS : Z := 100.

(** The numbers of [api/kernel/syscall_table.h]; [SYS_fork] is [NOT_DEFINED], 0. *)
Definition SYS_exit : Z := 1.
Definition SYS_read : Z := 3.
Definition SYS_write : Z := 4.
Definition SYS_open : Z := 5.
Definition SYS_close : Z := 6.
Definition SYS_wait4 : Z := 7.
Definition SYS_symlink : Z := 9.
Definition SYS_execve : Z := 11.
Definition SYS_chdir : Z := 12.
Definition SYS_dup2 : Z := 38.
Definition SYS_sbrk : Z := 45.
Definition SYS_ioctl : Z := 54.
Definition SYS_mmap : Z := 55.
Definition SYS_getdents : Z := 89.
Definition SYS_fork : Z := 0.

(** [calls]: writing past the array is [Stuck]. *)
Definition add (calls : list (option handler)) (num : Z) (h : handler) : outcome (list (option handler)) :=
  if num <? Z.of_nat (length calls) then Done (zset calls num (Some h)) else Stuck.

Definition init_table : list (Z * handler) :=
  [(SYS_open, call_open); (SYS_close, call_close); (SYS_read, call_read); (SYS_write, call_write);
   (SYS_sbrk, call_sbrk); (SYS_ioctl, call_ioctl); (SYS_exit, call_exit); (SYS_execve, call_execv);
   (SYS_symlink, call_symlink); (SYS_getdents, call_getdents); (SYS_wait4, call_wait); (SYS_dup2, call_dup2);
   (SYS_fork, call_fork); (SYS_chdir, call_chdir); (SYS_mmap, call_mmap)].

Definition syscalls_init : outcome (list (option handler)) :=
  foldl (fun calls '(a, h) => let* calls := calls in add calls a h)
    (Done (replicate (Z.to_nat NB_SYSCALLS) None)) init_table.

(** ** The handlers *)

Section Handlers.
Context {K : Type} `{KAlloc K} `{SlabCaches K} `{FileOps K}.
Variable fuel : nat.
Variable swap_file_write : Z.
Variable raw_info : Z → process_st.
Variable idle_thread : Z.
Variable scan : ftree → Z → outcome ftree.
(** What is on the kernel stack under a [dirent]. *)
Variable stack_bytes : list Z.
Variable getArg : Z → Z.

Notation result := (outcome (option Z * world K)) (only parsing).

Definition kmemory (w : world K) : mem := kmem (kal (wmm w)).
Definition set_kmemory (w : world K) (m : mem) : world K :=
  w <| wmm ::= fun s => set_kal s (with_mem (kal s) m) |>.

(** [fsm.path] of the string at [name]. *)
Definition lookup_path (w : world K) (name : Z) : outcome (Z * world K) :=
  let* s := string_at fuel (kmemory w) name in
  let* (fp, fs) := path fuel scan (wfs w) (current_dir w) s in
  Done (fp, w <| wfs := fs |>).

(** [info->ptr = info->ptr + ret] *)
Definition advance (w : world K) (p fd ret : Z) : outcome (world K) :=
  updp w p (fun pr => pr <| openfp ::= fun l =>
    let o := zget no_file l fd in zset l fd (mk_open (omode o) (u32 (optr o + ret)) (ofp o)) |>).

Definition sys_open (w : world K) : result :=
  let name := getArg 0 in
  let flag := getArg 1 in
  let p := pcurrent w in
  if p =? 0 then Done (Some (u32 (-1)), w)
  else
    let* (fp, w) := lookup_path w name in
    let* _ := getf (tree (wfs w)) fp in
    let* (_, w) := file_open w fp flag in
    let* (fd, w) := addFile_to w p fp flag in
    Done (Some fd, w).

Definition sys_close (w : world K) : result :=
  let fd := getArg 0 in
  let p := pcurrent w in
  if p =? 0 then Done (Some (u32 (-1)), w)
  else
    let* fp := getFile w p fd in
    if fp =? 0 then Done (None, w)
    else
      let* (_, w) := file_close w fp in
      let* w := deleteFile w p fd in
      Done (None, w).

(** [read] and [write]: the operation at the position of the descriptor. *)
Definition sys_transfer (op : world K → Z → Z → Z → Z → outcome (Z * world K)) (w : world K) : result :=
  let fd := getArg 0 in
  let buf := getArg 1 in
  let size := getArg 2 in
  let p := pcurrent w in
  if p =? 0 then Done (Some (u32 (-1)), w)
  else
    let* fp := getFile w p fd in
    if fp =? 0 then Done (Some (u32 (-1)), w)
    else
      let* info := getFileInfo w p fd in
      let* info := of_option info in
      let* (ret, w) := op w fp (optr info) buf size in
      let* w := advance w p fd ret in
      Done (Some ret, w).
Definition sys_read : world K → result := sys_transfer file_read.
Definition sys_write : world K → result := sys_transfer file_write.

Definition sys_ioctl (w : world K) : result :=
  let fd := getArg 0 in
  let buf := getArg 2 in
  let pos := getArg 1 in
  let p := pcurrent w in
  if p =? 0 then Done (Some (u32 (-1)), w)
  else
    let* fp := getFile w p fd in
    if fp =? 0 then Done (Some (u32 (-1)), w)
    else let* (ret, w) := file_ioctl w fp pos buf in Done (Some ret, w).

Definition sys_sbrk (w : world K) : result :=
  let size := getArg 0 in
  let* current := getPInfo w (pcurrent w) in
  let ret := e_heap current in
  let* w := setInfo w (pcurrent w) (current <| e_heap := u32 (ret + size) |>) in
  Done (Some ret, w).

Definition sys_exit (w : world K) : result :=
  let* w := Process.exit w (pcurrent w) in Done (None, w).

Definition sys_execv (w : world K) : result :=
  let filename := getArg 0 in
  let argv := getArg 1 in
  let m := kmemory w in
  let* (_, argc) := while fuel (fun '(ap, _) => negb (load m ap =? 0)) (fun '(ap, argc) => (ap + 4, argc + 1)) (argv, 0) in
  let* arg0 := if argc <=? 0 then Done [] else let* s := string_at fuel m (load m argv) in Done [s] in
  let* name := string_at fuel m filename in
  let* (ret, w) := execv fuel raw_info idle_thread scan w name argc arg0 in
  Done (Some (u32 ret), w).

Definition sys_symlink (w : world K) : result :=
  let* oldpath := string_at fuel (kmemory w) (getArg 0) in
  let* path := string_at fuel (kmemory w) (getArg 1) in
  let* (ret, fs) := link fuel scan (wfs w) (current_dir w) (pcurrent w) oldpath path in
  Done (Some (u32 ret), w <| wfs := fs |>).

(** [struct dirent]: the inode in 8 bytes and the name in 256. *)
Definition sizeof_dirent : Z := 264.
Definition word_le (v : Z) : list Z := [v mod 256; v / 2 ^ 8 mod 256; v / 2 ^ 16 mod 256; v / 2 ^ 24 mod 256].
Definition dirent_bytes (inode : Z) (name : list Z) : list Z :=
  word_le inode ++ word_le 0 ++ strncpy_chars (drop 8 stack_bytes) name 256.

(** The child number [ptr] of a directory. *)
Definition nth_child (w : world K) (fp ptr : Z) : outcome Z :=
  let* f := getf (tree (wfs w)) fp in
  loop fuel (fun '(child, i) =>
    if child =? 0 then Done (inr 0)
    else if i =? ptr then Done (inr child)
    else let* c := getf (tree (wfs w)) child in Done (inl (fnext c, i + 1))) (fchild f, 0).

Definition sys_getdents (w : world K) : result :=
  let fd := getArg 0 in
  let entry := getArg 1 in
  let size := s32 (getArg 2) in
  let p := pcurrent w in
  if p =? 0 then Done (Some 0, w)
  else
    let* fp := getFile w p fd in
    if fp =? 0 then Done (Some 0, w)
    else
      let* info := getFileInfo w p fd in
      let* info := of_option info in
      let* child := nth_child w fp (optr info) in
      if child =? 0 then Done (Some 0, w)
      else
        let* c := getf (tree (wfs w)) child in
        if sizeof_dirent <? size then Stuck
        else
          let w := set_kmemory w (copy_in (kmemory w) entry (dirent_bytes (finode c) (fname c)) size) in
          let* w := advance w p fd 1 in
          Done (Some 1, w).

Definition sys_wait (w : world K) : result :=
  let status := getArg 1 in
  let w := set_kmemory w (store (kmemory w) status 0) in
  let* (_, w) := wait fuel w (pcurrent w) in
  Done (None, w).

Definition sys_dup2 (w : world K) : result :=
  let oldfd := getArg 0 in
  let newfd := getArg 1 in
  let p := pcurrent w in
  let* _ := getp w p in
  let* fp := getFile w p oldfd in
  let* w := setFile w p newfd fp 0 0 in
  Done (Some newfd, w).

Definition sys_fork (w : world K) : result :=
  let* (ret, w) := fork fuel swap_file_write raw_info idle_thread w (pcurrent w) in
  Done (Some (u32 ret), w).

Definition sys_chdir (w : world K) : result :=
  let p := pcurrent w in
  let* (f, w) := lookup_path w (getArg 0) in
  if f =? 0 then Done (Some (u32 (-1)), w)
  else let* w := setCurrentDir w p f in Done (Some 1, w).

Definition sys_mmap (w : world K) : result :=
  let fd := getArg 3 in
  let size := getArg 0 in
  let p := pcurrent w in
  if p =? 0 then Done (Some (u32 (-1)), w)
  else
    let* fp := getFile w p fd in
    if fp =? 0 then Done (Some (u32 (-1)), w)
    else let* ret := file_mmap w fp size in Done (Some ret, w).

Definition handle (h : handler) (w : world K) : result :=
  match h with
  | call_open => sys_open w
  | call_close => sys_close w
  | call_read => sys_read w
  | call_write => sys_write w
  | call_sbrk => sys_sbrk w
  | call_ioctl => sys_ioctl w
  | call_exit => sys_exit w
  | call_execv => sys_execv w
  | call_symlink => sys_symlink w
  | call_getdents => sys_getdents w
  | call_wait => sys_wait w
  | call_dup2 => sys_dup2 w
  | call_fork => sys_fork w
  | call_chdir => sys_chdir w
  | call_mmap => sys_mmap w
  end.

(** [Syscalls::call]: the number is not compared with the size of the array. *)
Definition call (calls : list (option handler)) (num : Z) (w : world K) : result :=
  match calls !! Z.to_nat num with
  | None => Stuck
  | Some None => Done (None, w)
  | Some (Some h) => handle h w
  end.

End Handlers.

(** [Architecture::getArg] *)
Definition arch_getArg (argnum : Z) : Z := 0.
