(* ===== verification/SyscallsSpec.v ===== *)
(** What the system calls do with descriptors and directories, and which
    handler a number reaches. *)

From Stdlib Require Import ZArith Lia.
From stdpp Require Import base list gmap option.
From coqutil Require Import Datatypes.RecordSetters.
From S2P Require Import Prelude Memory Strings Bytes Chars KAlloc Bump Mm Vmm Swap Paging Cow FileTree Filesystem Pit Process Arch.
From S2P Require Import FileTreeSpec ArchSpec Vfs Elf Syscalls.
Import TriangleBracketNotations.

(** ** Numbers *)

Definition calls_table : list (option handler) :=
  match syscalls_init with Done calls => calls | _ => [] end.

(** The handler of a number by the list of [init]. *)
Definition handler_of (num : Z) : option handler :=
  snd <$> List.find (fun '(a, _) => a =? num) init_table.

Lemma calls_table_lookup num : 0 <= num < NB_SYSCALLS → calls_table !! Z.to_nat num = Some (handler_of num).
Proof.
  intros Hn.
  assert (Forall (fun i => calls_table !! i = Some (handler_of (Z.of_nat i))) (seq 0 100)) as HF.
  { apply (bool_decide_unpack _). vm_compute. reflexivity. }
  unfold NB_SYSCALLS in Hn. rewrite List.Forall_forall in HF. specialize (HF (Z.to_nat num)).
  rewrite Z2Nat.id in HF by lia. apply HF. apply in_seq. lia.
Qed.

(** ** The laws of the virtual operations *)

(** Opening and closing a file returns, and leaves the processes alone. *)
Class FileOpsLaws (K : Type) `{FileOps K} := {
  open_law w fp flag : ∃ r w', file_open w fp flag = Done (r, w') ∧ procs w' = procs w ∧ pcurrent w' = pcurrent w;
  close_law w fp : ∃ r w', file_close w fp = Done (r, w') ∧ procs w' = procs w ∧ pcurrent w' = pcurrent w;
}.

#[export] Instance base_laws K : @FileOpsLaws K (base_file_ops K).
Proof. split; intros; do 2 eexists; done. Qed.

Section Spec.
Context {K : Type} `{KAllocLaws K} `{SlabCaches K} `{FileOpsLaws K}.
Variable fuel : nat.
Variable swap_file_write : Z.
Variable raw_info : Z → process_st.
Variable idle_thread : Z.
Variable scan : ftree → Z → outcome ftree.
Variable stack_bytes : list Z.

Lemma lookup_path_procs w name fp w' :
  lookup_path fuel scan w name = Done (fp, w') → procs w' = procs w ∧ pcurrent w' = pcurrent w.
Proof.
  unfold lookup_path. intros (s & _ & ([f fs] & _ & [= _ <-])%obind_Done)%obind_Done. done.
Qed.

(** C39. A number reaches the handler that [init] registered for it: the 15
    calls, [fork] under the number 0 of every call that is not defined.  Any
    other number below 100 does nothing; from 100 on the array is read past
    its end. *)
Theorem call_dispatch getArg num w :
  0 <= num →
  call fuel swap_file_write raw_info idle_thread scan stack_bytes getArg calls_table num w
  = if num <? NB_SYSCALLS then
      match handler_of num with
      | Some h => handle fuel swap_file_write raw_info idle_thread scan stack_bytes getArg h w
      | None => Done (None, w)
      end
    else Stuck.
Proof.
  intros Hn. unfold call. destruct (Z.ltb_spec num NB_SYSCALLS).
  - rewrite calls_table_lookup by lia. done.
  - assert (length calls_table = Z.to_nat NB_SYSCALLS) as Hl by (vm_compute; reflexivity).
    rewrite lookup_ge_None_2 by (rewrite Hl; lia). done.
Qed.

(** Descriptor [fd] of process [p], while the table keeps its length. *)
Lemma zget_lookup (l : list openfile) (i : nat) o : l !! i = Some o → zget no_file l (Z.of_nat i) = o.
Proof.
  intros Hi. unfold zget. rewrite decide_True by lia. rewrite Nat2Z.id. by apply nth_lookup_Some.
Qed.

Lemma free_fd_lookup l i : free_fd l = Some i → ∃ o, l !! i = Some o ∧ ofp o = 0 ∧ ∀ j o', (j < i)%nat → l !! j = Some o' → ofp o' ≠ 0.
Proof.
  unfold free_fd. intros ([i' o] & (Hl & Ho & Hj)%list_find_Some & ->)%fmap_Some.
  exists o. split; [done|]. split; [done|]. intros j o' Hlt Ho'. by eapply Hj.
Qed.

(** C21. [open] and [close].  Opening a path that exists, in a process with a
    free descriptor, returns the lowest free one, and the descriptor is the file
    at position 0; every other descriptor is as before.  Closing it gives the
    process back its table. *)
Theorem open_close_roundtrip getArg getArg' w w1 p pr fp i :
  pcurrent w = p → p ≠ 0 → getp w p = Done pr → length (openfp pr) = 32%nat →
  lookup_path fuel scan w (getArg 0) = Done (fp, w1) → fp ≠ 0 → is_Some (files (tree (wfs w1)) !! fp) →
  free_fd (openfp pr) = Some i → openfp pr !! i = Some no_file → getArg' 0 = Z.of_nat i →
  ∃ w2 w3 pr2, sys_open fuel scan getArg w = Done (Some (Z.of_nat i), w2) ∧ getp w2 p = Done pr2 ∧
    openfp pr2 = <[i := mk_open (getArg 1) 0 fp]> (openfp pr) ∧
    (∀ j o, (j < i)%nat → openfp pr !! j = Some o → ofp o ≠ 0) ∧
    sys_close getArg' w2 = Done (None, w3) ∧ getp w3 p = Done pr ∧ ∀ q, q ≠ p → getp w3 q = getp w q.
Proof.
  intros Hp Hp0 Hpr Hlen Hpath Hfp [ff Hff] Hfree Hslot Harg.
  destruct (lookup_path_procs _ _ _ _ Hpath) as [Hprocs Hcur].
  destruct (open_law w1 fp (getArg 1)) as (r & wo & Ho & Hop & Hoc).
  destruct (free_fd_lookup _ _ Hfree) as (o & Ho' & _ & Hlow).
  assert (i < 32)%nat as Hi by (rewrite <- Hlen; by eapply lookup_lt_Some).
  assert (getp wo p = Done pr) as Hpr' by (unfold getp; by rewrite Hop, Hprocs).
  destruct (updp_spec wo p (fun pr => pr <| openfp ::= fun l => zset l (Z.of_nat i) (mk_open (getArg 1) 0 fp) |>) pr Hpr')
    as (w2 & Hw2 & E2 & O2 & S2).
  set (pr2 := pr <| openfp ::= _ |>) in E2.
  assert (openfp pr2 = <[i := mk_open (getArg 1) 0 fp]> (openfp pr)) as Hfd.
  { change (openfp pr2) with (zset (openfp pr) (Z.of_nat i) (mk_open (getArg 1) 0 fp)).
    unfold zset. rewrite decide_True by lia. by rewrite Nat2Z.id. }
  assert (sys_open fuel scan getArg w = Done (Some (Z.of_nat i), w2)) as Hsys.
  { unfold sys_open. rewrite Hp, (proj2 (Z.eqb_neq p 0)) by done. rewrite Hpath. cbn [obind].
    unfold getf. rewrite Hff. cbn [of_option obind]. rewrite Ho. cbn [obind]. unfold addFile_to. rewrite Hpr'. cbn [obind].
    rewrite (proj2 (Z.eqb_neq fp 0)) by done. rewrite Hfree, Hw2. done. }
  assert (getFile w2 p (Z.of_nat i) = Done fp) as Hget.
  { unfold getFile, CONFIG_MAX_FILE. rewrite (proj2 (Z.leb_gt _ _)) by lia. rewrite E2. cbn [obind]. rewrite Hfd.
    rewrite (zget_lookup _ i (mk_open (getArg 1) 0 fp)); [done|]. rewrite list_lookup_insert_eq; [done|lia]. }
  destruct (close_law w2 fp) as (rc & wc & Hc & Hcp & Hcc).
  assert (getp wc p = Done pr2) as E3 by (unfold getp; rewrite Hcp; exact E2).
  destruct (updp_spec wc p (fun pr => pr <| openfp ::= fun l => zset l (Z.of_nat i) no_file |>) pr2 E3)
    as (w3 & Hw3 & E4 & O4 & _).
  exists w2, w3, pr2. do 3 (split; [done|]). split; [by intros j o' Hj; apply Hlow|]. split; [|split].
  - unfold sys_close. assert (pcurrent w2 = p) as -> by (rewrite S2; change (pcurrent wo = p); congruence).
    rewrite (proj2 (Z.eqb_neq p 0)) by done. rewrite Harg, Hget. cbn [obind]. rewrite (proj2 (Z.eqb_neq fp 0)) by done.
    rewrite Hc. cbn [obind]. unfold deleteFile, CONFIG_MAX_FILE. rewrite (proj2 (Z.leb_gt _ _)) by lia. by rewrite Hw3.
  - rewrite E4. f_equal. transitivity (pr <| openfp := openfp pr |>); [|by destruct pr].
    assert (zset (zset (openfp pr) (Z.of_nat i) (mk_open (getArg 1) 0 fp)) (Z.of_nat i) no_file = openfp pr) as Hz.
    { unfold zset. rewrite !decide_True by lia. rewrite Nat2Z.id, list_insert_insert_eq. by apply list_insert_id. }
    change (pr <| openfp := zset (zset (openfp pr) (Z.of_nat i) (mk_open (getArg 1) 0 fp)) (Z.of_nat i) no_file |>
            = pr <| openfp := openfp pr |>). by rewrite Hz.
  - intros q Hq. rewrite O4 by done. unfold getp. rewrite Hcp. fold (getp w2 q). rewrite O2 by done. unfold getp. by rewrite Hop, Hprocs.
Qed.

(** ** Directories *)

Lemma nth_child_spec (w : world K) fp l ptr :
  dir_ok (tree (wfs w)) fp l → (length l < fuel)%nat → 0 <= ptr →
  nth_child fuel w fp ptr = Done (default 0 (l !! Z.to_nat ptr)).
Proof.
  intros ((f & Ef & Hc) & Hs & _) Hf Hptr. unfold nth_child. rewrite Ef. cbn [obind]. rewrite Hc.
  cut (∀ fuel l prev i, siblings (tree (wfs w)) fp prev l → (length l < fuel)%nat → 0 <= i <= ptr →
    loop fuel (fun '(child, i) =>
      if child =? 0 then Done (inr 0)
      else if i =? ptr then Done (inr child)
      else let* c := getf (tree (wfs w)) child in Done (inl (fnext c, i + 1))) (hd 0 l, i)
    = Done (default 0 (l !! Z.to_nat (ptr - i)))).
  { intros Hcut. rewrite (Hcut fuel l 0 0 Hs Hf) by lia. by rewrite Z.sub_0_r. }
  clear fuel l f Ef Hc Hs Hf. intros fuel l. revert fuel.
  induction l as [|x l IH]; intros [|fuel] prev i Hs Hf Hi; cbn [length] in Hf; try lia; cbn [loop hd].
  { by rewrite Z.eqb_refl. }
  destruct Hs as (Hx & (f & Ef & _ & _ & Hn) & Hs). rewrite (proj2 (Z.eqb_neq x 0)) by done.
  destruct (Z.eqb_spec i ptr) as [->|]; cbn [obind]; [by rewrite Z.sub_diag|].
  rewrite Ef. cbn [obind]. rewrite Hn. rewrite (IH fuel x (i + 1)) by (done || lia).
  replace (Z.to_nat (ptr - i)) with (S (Z.to_nat (ptr - (i + 1)))) by lia. done.
Qed.

(** C20. [getdents].  A descriptor of a directory at position [n] gives the
    entry of its child number [n]: the first [size] bytes of the inode and the
    name are written at [entry] and nothing else, the position moves to
    [n + 1] and no other descriptor changes.  After the last child the call
    returns 0 and changes nothing. *)
Theorem getdents_spec getArg w p pr d l o :
  pcurrent w = p → p ≠ 0 → getp w p = Done pr → 0 <= getArg 0 < 32 → length (openfp pr) = 32%nat →
  zget no_file (openfp pr) (getArg 0) = o → ofp o = d → d ≠ 0 → 0 <= optr o < 2 ^ 32 →
  dir_ok (tree (wfs w)) d l → (length l < fuel)%nat → 0 <= getArg 2 <= sizeof_dirent →
  match l !! Z.to_nat (optr o) with
  | None => sys_getdents fuel stack_bytes getArg w = Done (Some 0, w)
  | Some child =>
    ∃ cf w', getf (tree (wfs w)) child = Done cf ∧ sys_getdents fuel stack_bytes getArg w = Done (Some 1, w') ∧
      (∀ i, 0 <= i < getArg 2 →
        load8 (kmemory w') (getArg 1 + i) = u8 (zget 0 (dirent_bytes stack_bytes (finode cf) (fname cf)) i)) ∧
      (∀ x, x < getArg 1 ∨ getArg 1 + getArg 2 <= x → load8 (kmemory w') x = load8 (kmemory w) x) ∧
      getp w' p = Done (pr <| openfp ::= fun l =>
        zset l (getArg 0) (mk_open (omode o) (u32 (optr o + 1)) d) |>) ∧
      ∀ q, q ≠ p → getp w' q = getp w q
  end.
Proof.
  intros Hp Hp0 Hpr Hfd Hlen Ho Hd Hd0 Hptr Hdir Hfuel Hsize.
  assert (sys_getdents fuel stack_bytes getArg w =
    let* child := Done (default 0 (l !! Z.to_nat (optr o))) in
    if child =? 0 then Done (Some 0, w)
    else
      let* c := getf (tree (wfs w)) child in
      if sizeof_dirent <? getArg 2 then Stuck
      else
        let w := set_kmemory w (copy_in (kmemory w) (getArg 1) (dirent_bytes stack_bytes (finode c) (fname c)) (getArg 2)) in
        let* w := advance w p (getArg 0) 1 in
        Done (Some 1, w)) as ->.
  { unfold sys_getdents. rewrite Hp, (proj2 (Z.eqb_neq p 0)) by done. unfold getFile, getFileInfo, CONFIG_MAX_FILE.
    rewrite (proj2 (Z.leb_gt _ _)) by lia. rewrite Hpr. cbn [obind of_option]. rewrite Ho, Hd.
    rewrite (proj2 (Z.eqb_neq d 0)) by done. rewrite (nth_child_spec w d l) by (done || lia).
    unfold s32, sizeof_dirent in *. by rewrite Z.mod_small, Z.add_simpl_r by lia. }
  cbn [obind]. destruct (l !! Z.to_nat (optr o)) as [child|] eqn:Hchild; [change (default 0 (Some child)) with child|done].
  destruct Hdir as (_ & Hsib & _).
  destruct (siblings_live _ _ _ _ child Hsib) as (Hc0 & cf & Hcf & _); [by eapply list_elem_of_lookup_2|].
  rewrite (proj2 (Z.eqb_neq child 0)) by done. rewrite Hcf. cbn [obind]. rewrite (proj2 (Z.ltb_ge _ _)) by lia.
  cbn zeta. set (m := copy_in _ _ _ _). set (w1 := set_kmemory w m).
  destruct (updp_spec w1 p (fun pr => pr <| openfp ::= fun l =>
    let o := zget no_file l (getArg 0) in zset l (getArg 0) (mk_open (omode o) (u32 (optr o + 1)) (ofp o)) |>) pr Hpr)
    as (w2 & Hw2 & E2 & O2 & S2).
  exists cf, w2. split; [done|]. split; [by replace (advance w1 p (getArg 0) 1) with (Done w2)|].
  assert (kmemory w2 = m) as ->.
  { rewrite S2. change (kmem (with_mem (kal (wmm w)) m) = m). apply kmem_with. }
  destruct (copy_in_spec (kmemory w) (getArg 1) (dirent_bytes stack_bytes (finode cf) (fname cf)) (getArg 2)) as [Hin Hout]; [lia|].
  split; [exact Hin|]. split; [exact Hout|]. split; [|exact O2].
  rewrite E2. f_equal. change (pr <| openfp := zset (openfp pr) (getArg 0) (mk_open
    (omode (zget no_file (openfp pr) (getArg 0))) (u32 (optr (zget no_file (openfp pr) (getArg 0)) + 1))
    (ofp (zget no_file (openfp pr) (getArg 0)))) |> = pr <| openfp := zset (openfp pr) (getArg 0) (mk_open (omode o) (u32 (optr o + 1)) d) |>).
  by rewrite Ho, Hd.
Qed.

End Spec.

(** ** Concrete runs *)

Definition scan_none (t : ftree) (p : Z) : outcome ftree := Done t.
#[local] Instance plain_files : FileOps bump := base_file_ops bump.

(** The path "/" at address [0x8000], in the system of [ArchSpec.v], with a
    root directory of two files. *)
Definition two_files : ftree :=
  match (let '(r, t) := new_file (mk_ftree ∅ 0x7000 1) 0 name_root TYPE_DIRECTORY in
         let* (_, t) := createChild t 0 r [97] TYPE_FILE in
         let* (_, t) := createChild t 0 r [98] TYPE_FILE in Done t) with
  | Done t => t | _ => mk_ftree ∅ 0 0 end.
Definition sys_world : world bump :=
  set_kmemory (queue_world <| wfs := mk_fs two_files [] [] 0x7000 0 0 |>) (store ∅ 0x8000 47).
Definition arg_open (n : Z) : Z := if n =? 0 then 0x8000 else 2.

Definition path_result : Z * world bump :=
  match lookup_path 20 scan_none sys_world 0x8000 with Done r => r | _ => (0, sys_world) end.

Lemma path_found : lookup_path 20 scan_none sys_world 0x8000 = Done (0x7000, snd path_result).
Proof.
  assert (fst path_result = 0x7000) as <- by (vm_compute; reflexivity).
  rewrite <- surjective_pairing. apply is_done_eq. vm_compute. reflexivity.
Qed.

Lemma sys_proc_eq : getp sys_world 4105 = Done (queue_proc 4105).
Proof. vm_compute. reflexivity. Qed.

Lemma open_close_roundtrip_witness :
  ∃ w2 w3, sys_open 20 scan_none arg_open sys_world = Done (Some 0, w2) ∧
    sys_close (fun _ => 0) w2 = Done (None, w3) ∧ getp w3 4105 = Done (queue_proc 4105).
Proof.
  destruct (open_close_roundtrip 20 scan_none arg_open (fun _ => 0) sys_world (snd path_result) 4105 (queue_proc 4105) 0x7000 0)
    as (w2 & w3 & pr2 & E1 & _ & _ & _ & E2 & E3 & _);
    [vm_compute; reflexivity|done|exact sys_proc_eq|vm_compute; reflexivity|exact path_found|done
    |apply (bool_decide_unpack _); vm_compute; reflexivity|vm_compute; reflexivity|vm_compute; reflexivity|reflexivity|].
  exists w2, w3. split; [exact E1|]. split; [exact E2|exact E3].
Defined.

(** The directory open as descriptor 0 at position 1. *)
Definition dir_world : world bump :=
  match updp sys_world 4105 (fun pr => pr <| openfp ::= fun l => zset l 0 (mk_open 0 1 0x7000) |>) with
  | Done w => w | _ => sys_world end.
Definition dir_proc : process := match getp dir_world 4105 with Done pr => pr | _ => queue_proc 4105 end.
Definition arg_dents (n : Z) : Z := if n =? 0 then 0 else if n =? 1 then 0x9000 else 10.

Lemma two_files_dir : dir_ok (tree (wfs dir_world)) 0x7000 [0x7002; 0x7001].
Proof.
  split; [eexists; split; [vm_compute; reflexivity|reflexivity]|]. split; [|split; [|split; [|lia]]].
  - split; [lia|]. split; [eexists; split; [vm_compute; reflexivity|vm_compute; auto]|].
    split; [lia|]. split; [eexists; split; [vm_compute; reflexivity|vm_compute; auto]|done].
  - apply (bool_decide_unpack _). vm_compute. reflexivity.
  - apply (bool_decide_unpack _). vm_compute. reflexivity.
Qed.

Lemma getdents_spec_witness :
  ∃ cf w', getf (tree (wfs dir_world)) 0x7001 = Done cf ∧ sys_getdents 20 [] arg_dents dir_world = Done (Some 1, w') ∧
    (∀ i, 0 <= i < 10 → load8 (kmemory w') (0x9000 + i) = u8 (zget 0 (dirent_bytes [] (finode cf) (fname cf)) i)).
Proof.
  destruct (getdents_spec 20 [] arg_dents dir_world 4105 dir_proc 0x7000 [0x7002; 0x7001] (mk_open 0 1 0x7000))
    as (cf & w' & E1 & E2 & E3 & _);
    [vm_compute; reflexivity|done|vm_compute; reflexivity|vm_compute; split; [discriminate|reflexivity]|vm_compute; reflexivity
    |vm_compute; reflexivity|reflexivity|done|vm_compute; split; [discriminate|reflexivity]|exact two_files_dir|cbn; lia
    |vm_compute; split; discriminate|].
  exists cf, w'. split; [exact E1|]. split; [exact E2|exact E3].
Defined.

Lemma call_dispatch_witness :
  call 20 0 raw 0xC0001000 scan_none [] arch_getArg calls_table 2 sys_world = Done (None, sys_world).
Proof. rewrite (call_dispatch 20 0 raw 0xC0001000 scan_none [] arch_getArg 2 sys_world); [reflexivity|lia]. Defined.
