(* ===== verification/Console.v ===== *)
(** The console: [src/src/kernel/arch/x86/io.h] and [io.cc].

    The screen is 25 rows of 80 cells, a character and an attribute each, in
    kernel memory: at [RAMSCREEN] for the console that is shown, in the
    object's own array for the others.  [x] and [yl] are signed characters.
    [print] takes its format as characters and its arguments as a list; taking
    an argument that is not there, or of the wrong kind, is [Stuck], and so is
    reading behind the end of the format.  Port input and output is left out. *)

From Stdlib Require Import ZArith Lia.
From stdpp Require Import base list gmap option.
From coqutil Require Import Datatypes.RecordSetters.
From S2P Require Import Prelude Memory Strings Bytes Chars.
Import TriangleBracketNotations.

Definition RAMSCREEN : Z := 0xB8000.
Definition SIZESCREEN : Z := 0xFA0.
Definition SCREENLIM : Z := 0xB8FA0.

Inductive console_type := BUFFERED | GETCHAR.

(** [class IO]; [screen] is the address of the array, [inbuf] has 512 characters. *)
Record io := mk_io {
  real_screen : Z;
  screen : Z;
  inbuf : list Z;
  keypos : Z;
  inlock : Z;
  keystate : console_type;
  fcolor : Z;
  bcolor : Z;
  x : Z;
  yl : Z;
  kattr : Z;
}.

(** [IO::IO()], and [IO::IO(flag)] for a console that is not shown. *)
Definition new_io (screen_at : Z) (garbage : list Z) : io :=
  mk_io RAMSCREEN screen_at garbage 0 0 BUFFERED 0x07 0x00 0 0 0x07.
Definition new_io_hidden (screen_at : Z) (garbage : list Z) : io :=
  mk_io screen_at screen_at garbage 0 0 BUFFERED 0x07 0x00 0 0 0x07.

Definition getX (o : io) : Z := u32 (x o).
Definition getY (o : io) : Z := u32 (yl o).
Definition setColor (o : io) (fcol bcol : Z) : io := o <| fcolor := s8 fcol |> <| bcolor := s8 bcol |>.
Definition setXY (o : io) (xc yc : Z) : io := o <| x := s8 xc |> <| yl := s8 yc |>.

(** ** The screen *)

(** The loop of [scrollup], from [video] on. *)
Definition scroll_step (n : Z) (st : Z * mem) : Z * mem :=
  let '(video, m) := st in
  let tmp := u32 (video + n * 160) in
  let m :=
    if tmp <? SCREENLIM then
      let m := store8 m video (load8 m tmp) in
      store8 m (video + 1) (load8 m (tmp + 1))
    else
      let m := store8 m video 0 in
      store8 m (video + 1) 0x07 in
  (video + 2, m).

Definition scrollup (m : mem) (o : io) (n : Z) : outcome (mem * io) :=
  let* (_, m) := while (S (Z.to_nat (SCREENLIM - real_screen o)))
                   (fun '(video, _) => video <? SCREENLIM) (scroll_step n) (real_screen o, m) in
  let y := s8 (yl o - n) in
  Done (m, o <| yl := if y <? 0 then 0 else y |>).

Definition putc (m : mem) (o : io) (c : Z) : outcome (mem * io) :=
  let o := o <| kattr := 0x07 |> in
  let video := real_screen o + 2 * x o + 160 * yl o in
  let '(m, o) :=
    if c =? 10 then (m, o <| x := 0 |> <| yl ::= fun y => s8 (y + 1) |>)
    else if c =? 8 then
      (if negb (x o =? 0) then store8 m (video + 1) 0 else m, o <| x ::= fun x => s8 (x - 1) |>)
    else if c =? 9 then (m, o <| x ::= fun x => s8 (x + 8 - Z.rem x 8) |>)
    else if c =? 13 then (m, o <| x := 0 |>)
    else
      let m := store8 m video c in
      let m := store8 m (video + 1) (kattr o) in
      let o := o <| x ::= fun x => s8 (x + 1) |> in
      (m, if 79 <? x o then o <| x := 0 |> <| yl ::= fun y => s8 (y + 1) |> else o) in
  if 24 <? yl o then scrollup m o (yl o - 24) else Done (m, o).

Definition clear (m : mem) (o : io) : mem * io :=
  (memset m RAMSCREEN 0 SIZESCREEN, o <| x := 0 |> <| yl := 0 |>).

Definition save_screen (m : mem) (o : io) : mem * io :=
  (memcpy m (screen o) RAMSCREEN SIZESCREEN, o <| real_screen := screen o |>).
Definition load_screen (m : mem) (o : io) : mem * io :=
  (memcpy m RAMSCREEN (screen o) SIZESCREEN, o <| real_screen := RAMSCREEN |>).

(** The console objects, with the static [current_io] and [last_io]. *)
Record terminals := mk_terms { tmem : mem; ios : gmap Z io; current_io : Z; last_io : Z }.

Definition switchtty (t : terminals) (this : Z) : outcome terminals :=
  let* c := of_option (ios t !! current_io t) in
  let '(m, c) := save_screen (tmem t) c in
  let t := t <| tmem := m |> <| ios ::= fun s => <[current_io t := c]> s |> in
  let* o := of_option (ios t !! this) in
  let '(m, o) := load_screen (tmem t) o in
  Done (t <| tmem := m |> <| ios ::= fun s => <[this := o]> s |> <| last_io := current_io t |> <| current_io := this |>).

(** ** [print] *)

Inductive arg := AInt (n : Z) | AStr (s : option (list Z)).

(** The characters of a C string, until the terminator. *)
Definition put_chars (m : mem) (o : io) (s : list Z) : outcome (mem * io) :=
  foldl (fun r c => let* (m, o) := r in putc m o c) (Done (m, o)) s.

(** [itoa] to the local array [buf], which is a memory of its own at 0; the
    padding with zeroes; the characters of the result. *)
Definition pad (buf : mem) (size buflen : Z) : outcome mem :=
  if buflen <? size then
    let* (b, _, _) := while (S (S (Z.to_nat size))) (fun '(_, i, _) => 0 <=? i)
      (fun '(b, i, j) => (store8 b i (if 0 <=? j then load8 b j else 48), i - 1, j - 1)) (buf, size, buflen) in
    Done b
  else Done buf.

Definition number (uival base size : Z) : outcome (list Z) :=
  let* buf := itoa ∅ 0 uival base in
  let* buflen := strlen 34 buf 0 in
  let* buf := pad buf size buflen in
  string_at 34 buf 0.

Definition is_digit_char (c : Z) : bool := (48 <=? c) && (c <=? 57).

(** A character of the format; behind the terminator there is none. *)
Definition fmt_at (s : list Z) (i : Z) : outcome Z :=
  if Z.of_nat (length s) <? i then Stuck else Done (zget 0 s i).

Definition int_arg (args : list arg) : outcome (Z * list arg) :=
  match args with AInt n :: args => Done (n, args) | _ => Stuck end.

(** What a conversion prints, and the arguments left. *)
Definition convert (c size : Z) (args : list arg) : outcome (list Z * list arg) :=
  if c =? 100 then
    let* (a, args) := int_arg args in
    let ival := s32 a in
    let* ds := number (if ival <? 0 then u32 (0 - ival) else ival) 10 size in
    Done (if ival <? 0 then 45 :: ds else ds, args)
  else if c =? 117 then
    let* (a, args) := int_arg args in
    let* ds := number (u32 a) 10 size in
    Done (ds, args)
  else if (c =? 120) || (c =? 88) then
    let* (a, args) := int_arg args in
    let* ds := number (u32 a) 16 size in
    Done (48 :: 120 :: ds, args)
  else if c =? 112 then
    let* (a, args) := int_arg args in
    let* ds := number (u32 a) 16 8 in
    Done (48 :: 120 :: ds, args)
  else if c =? 115 then
    match args with
    | AStr s :: args => Done (default [] s, args)
    | _ => Stuck
    end
  else if c =? 99 then
    let* (a, args) := int_arg args in Done ([u8 a], args)
  else Done ([], args).

Definition print_step (s : list Z) (st : Z * list arg * mem * io) : outcome (Z * list arg * mem * io + mem * io) :=
  let '(i, args, m, o) := st in
  let* c := fmt_at s i in
  let i := i + 1 in
  if c =? 0 then Done (inr (m, o))
  else if c =? 37 then
    let* c := fmt_at s i in
    let i := i + 1 in
    let* (size, c, i) := if is_digit_char c then let* c' := fmt_at s i in Done (c - 48, c', i + 1) else Done (0, c, i) in
    let* (text, args) := convert c size args in
    let* (m, o) := put_chars m o text in
    Done (inl (i, args, m, o))
  else
    let* (m, o) := putc m o c in
    Done (inl (i, args, m, o)).

Definition print (m : mem) (o : io) (s : list Z) (args : list arg) : outcome (mem * io) :=
  loop (S (S (length s))) (print_step s) (0, args, m, o).

(** ** Input *)

(** [inbuf[i] = c]: outside the array it is [Stuck]. *)
Definition set_inbuf (o : io) (i c : Z) : outcome io :=
  if (0 <=? i) && (i <? Z.of_nat (length (inbuf o))) then Done (o <| inbuf ::= fun l => zset l i c |>) else Stuck.

Definition putctty (o : io) (c : Z) : outcome io :=
  match keystate o with
  | BUFFERED =>
    if c =? 8 then
      if 0 <? keypos o then
        let* o := set_inbuf o (keypos o) 0 in Done (o <| keypos ::= fun k => k - 1 |>)
      else Done o
    else if c =? 10 then
      let* o := set_inbuf o (keypos o) c in
      let o := o <| keypos ::= fun k => k + 1 |> in
      let* o := set_inbuf o (keypos o) 0 in
      Done (o <| inlock := 0 |> <| keypos := 0 |>)
    else
      let* o := set_inbuf o (keypos o) c in
      Done (o <| keypos ::= fun k => k + 1 |>)
  | GETCHAR =>
    let* o := set_inbuf o 0 c in
    let* o := set_inbuf o 1 0 in
    Done (o <| inlock := 0 |> <| keypos := 0 |>)
  end.

(** [read]: [typed] are the characters that arrive while it waits; when they
    run out with the lock still taken it never returns.  The result is the
    length of the caller's buffer as a string, and the buffer. *)
Fixpoint wait_unlocked (o : io) (typed : list Z) : outcome (io * list Z) :=
  if inlock o =? 1 then
    match typed with
    | [] => OutOfFuel
    | c :: typed => let* o := putctty o c in wait_unlocked o typed
    end
  else Done (o, typed).

Definition io_read (o : io) (buf : list Z) (count : Z) (typed : list Z) : outcome (Z * list Z * io * list Z) :=
  let o := o <| keystate := if 1 <? count then BUFFERED else GETCHAR |> in
  let* (o, typed) := wait_unlocked (o <| inlock := 1 |>) typed in
  let buf := strncpy_chars buf (c_str (inbuf o)) count in
  Done (Z.of_nat (length (c_str buf)), buf, o, typed).
