(* ===== verification/ConsoleSpec.v ===== *)
(** The console refines a terminal: a grid of cells, a cursor, and a scroll.

    [shows] relates the memory of the screen and the cursor of the object to
    an abstract [term]; [putc] of any character but backspace and tab refines
    [put], and [print] refines the put of the text its format stands for, in
    which a number is the shortest numeral of its base ([numeral]).  Backspace in
    the first column and tabs past the last one leave the screen, which the
    examples at the end show. *)

From Stdlib Require Import ZArith Lia.
From stdpp Require Import base list gmap option.
From coqutil Require Import Datatypes.RecordSetters.
From S2P Require Import Prelude Memory Strings Bytes Chars Console.
Import TriangleBracketNotations.

(** ** The terminal *)

Record term := mk_term { grid : Z → Z → Z * Z; row : Z; col : Z }.

Definition blank : Z * Z := (0, 0x07).

Definition set_cell (g : Z → Z → Z * Z) (r c : Z) (v : Z * Z) : Z → Z → Z * Z :=
  fun r' c' => if (r' =? r) && (c' =? c) then v else g r' c'.

(** The rows move up by one when the cursor is below the last. *)
Definition settle (t : term) : term :=
  if 24 <? row t then mk_term (fun r c => if r <? 24 then grid t (r + 1) c else blank) 24 (col t) else t.

Definition put (t : term) (ch : Z) : term :=
  settle
    (if ch =? 10 then mk_term (grid t) (row t + 1) 0
     else if ch =? 13 then mk_term (grid t) (row t) 0
     else
       let g := set_cell (grid t) (row t) (col t) (u8 ch, 0x07) in
       if 79 <=? col t then mk_term g (row t + 1) 0 else mk_term g (row t) (col t + 1)).

Definition put_text (t : term) (s : list Z) : term := foldl put t s.

(** ** The relation *)

Definition cell_at (r c : Z) : Z := RAMSCREEN + 160 * r + 2 * c.

Record shows (m : mem) (o : io) (t : term) : Prop := {
  shows_screen : real_screen o = RAMSCREEN;
  shows_row : yl o = row t;
  shows_col : x o = col t;
  shows_range : 0 <= row t <= 24 ∧ 0 <= col t <= 79;
  shows_cells : ∀ r c, 0 <= r <= 24 → 0 <= c <= 79 →
    (load8 m (cell_at r c), load8 m (cell_at r c + 1)) = grid t r c;
}.

(** Nothing outside the screen is written. *)
Definition off_screen (m m' : mem) : Prop :=
  ∀ a, a < RAMSCREEN ∨ SCREENLIM <= a → load8 m' a = load8 m a.

#[export] Instance off_screen_preorder : PreOrder off_screen.
Proof. split; [by intros m a|]. intros m1 m2 m3 H1 H2 a Ha. by rewrite H2, H1. Qed.

Lemma s8_small z : -128 <= z < 128 → s8 z = z.
Proof. intros. unfold s8. rewrite Z.mod_small by lia. lia. Qed.

(** ** Scrolling by one row *)

(** Before the cell at [video] the screen is scrolled, from it on it is not. *)
Definition half_scrolled (m0 : mem) (st : Z * mem) : Prop :=
  let '(video, m) := st in
  RAMSCREEN <= video <= SCREENLIM ∧ (2 | video) ∧ off_screen m0 m ∧
  (∀ a, RAMSCREEN <= a < video → load8 m a = if a + 160 <? SCREENLIM then load8 m0 (a + 160) else if Z.even a then 0 else 0x07) ∧
  (∀ a, video <= a < SCREENLIM → load8 m a = load8 m0 a).

Lemma scroll_step_spec m0 video m :
  half_scrolled m0 (video, m) → video < SCREENLIM → half_scrolled m0 (scroll_step 1 (video, m)).
Proof.
  intros ([Hlo _] & [k Hk] & Hoff & Hdone & Htodo) Hlt. unfold scroll_step. change (1 * 160) with 160.
  unfold half_scrolled, RAMSCREEN, SCREENLIM in *. rewrite u32_small by lia.
  assert (Z.even video = true ∧ Z.even (video + 1) = false) as [He Ho].
  { rewrite Hk. rewrite Z.even_add, Z.even_mul. change (Z.even 2) with true. rewrite orb_true_r. done. }
  split; [lia|]. split; [exists (k + 1); lia|].
  set (m' := if _ <? _ then _ else _).
  assert (∀ a, a ≠ video → a ≠ video + 1 → load8 m' a = load8 m a) as Hout.
  { intros a H1 H2. subst m'. destruct (_ <? _); by rewrite !load8_store8_ne by lia. }
  assert (∀ a, a = video ∨ a = video + 1 →
    load8 m' a = if a + 160 <? 0xB8FA0 then load8 m0 (a + 160) else if Z.even a then 0 else 0x07) as Hin.
  { intros a Ha. subst m'. destruct (Z.ltb_spec (video + 160) 0xB8FA0).
    - rewrite (proj2 (Z.ltb_lt (a + 160) _)) by lia. destruct Ha as [-> | ->].
      + rewrite load8_store8_ne, load8_store8_eq by lia. rewrite Htodo by lia. apply u8_small, load8_range.
      + rewrite load8_store8_eq, load8_store8_ne by lia. rewrite Htodo by lia.
        replace (video + 160 + 1) with (video + 1 + 160) by lia. apply u8_small, load8_range.
    - rewrite (proj2 (Z.ltb_ge (a + 160) _)) by lia. destruct Ha as [-> | ->].
      + rewrite load8_store8_ne, load8_store8_eq by lia. by rewrite He.
      + rewrite load8_store8_eq. by rewrite Ho. }
  split; [|split].
  - intros a Ha. rewrite Hout by (unfold RAMSCREEN, SCREENLIM in *; lia). by apply Hoff.
  - intros a Ha. destruct (decide (a = video ∨ a = video + 1)) as [Hv|Hv]; [by apply Hin|].
    rewrite Hout by lia. apply Hdone. lia.
  - intros a Ha. rewrite Hout by lia. apply Htodo. lia.
Qed.

Lemma cell_even r c : Z.even (cell_at r c) = true ∧ Z.even (cell_at r c + 1) = false.
Proof.
  unfold cell_at, RAMSCREEN. replace (0xB8000 + 160 * r + 2 * c) with (2 * (0x5C000 + 80 * r + c)) by lia.
  rewrite Z.even_add, !Z.even_mul. done.
Qed.

(** [scrollup(1)] with the cursor below the screen. *)
Lemma scrollup_spec m o :
  real_screen o = RAMSCREEN → yl o = 25 →
  ∃ m', scrollup m o 1 = Done (m', o <| yl := 24 |>) ∧ off_screen m m' ∧
    ∀ r c, 0 <= r <= 24 → 0 <= c <= 79 →
      (load8 m' (cell_at r c), load8 m' (cell_at r c + 1))
      = if r <? 24 then (load8 m (cell_at (r + 1) c), load8 m (cell_at (r + 1) c + 1)) else blank.
Proof.
  intros Hs Hy. unfold scrollup. rewrite Hs, Hy. change (s8 (25 - 1)) with 24. cbn iota beta.
  destruct (while_total (half_scrolled m) (fun '(video, _) => Z.to_nat (SCREENLIM - video))
    (fun '(video, _) => video <? SCREENLIM) (scroll_step 1)) with
    (fuel := S (Z.to_nat (SCREENLIM - RAMSCREEN))) (s := (RAMSCREEN, m)) as ([video m'] & -> & Hinv & Hend).
  - intros [video m1] Hinv Hc%Z.ltb_lt. pose proof (scroll_step_spec m video m1 Hinv Hc) as Hn.
    split; [done|]. destruct Hinv as ((? & _) & _). unfold scroll_step. unfold SCREENLIM in *. lia.
  - split; [unfold RAMSCREEN, SCREENLIM; lia|]. split; [exists 0x5C000; done|]. split; [done|].
    split; [intros a Ha; lia|done].
  - unfold RAMSCREEN, SCREENLIM. lia.
  - cbn [obind]. destruct Hinv as (Hv & _ & Hoff & Hdone & _). apply Z.ltb_ge in Hend.
    exists m'. split; [done|]. split; [done|]. intros r c Hr Hc. destruct (cell_even r c) as [He Ho].
    assert (cell_at (r + 1) c = cell_at r c + 160) as E by (unfold cell_at; lia). rewrite E.
    rewrite !Hdone by (unfold cell_at, RAMSCREEN, SCREENLIM in *; lia). rewrite He, Ho.
    destruct (Z.ltb_spec r 24).
    + rewrite !(proj2 (Z.ltb_lt _ _)) by (unfold cell_at, RAMSCREEN, SCREENLIM; lia).
      by replace (cell_at r c + 1 + 160) with (cell_at r c + 160 + 1) by lia.
    + by rewrite !(proj2 (Z.ltb_ge _ _)) by (unfold cell_at, RAMSCREEN, SCREENLIM; lia).
Qed.

(** The cells after the cursor's cell is written. *)
Lemma write_cell m o t ch :
  shows m o t →
  let m' := store8 (store8 m (cell_at (row t) (col t)) ch) (cell_at (row t) (col t) + 1) 0x07 in
  off_screen m m' ∧ ∀ r c, 0 <= r <= 24 → 0 <= c <= 79 →
    (load8 m' (cell_at r c), load8 m' (cell_at r c + 1)) = set_cell (grid t) (row t) (col t) (u8 ch, 0x07) r c.
Proof.
  intros [_ _ _ [Hr0 Hc0] Hg] m'. split.
  - intros a Ha. subst m'. rewrite !load8_store8_ne by (unfold cell_at, RAMSCREEN, SCREENLIM in *; lia). done.
  - intros r c Hr Hc. unfold set_cell. destruct (Z.eqb_spec r (row t)) as [->|Hne], (Z.eqb_spec c (col t)) as [->|Hnc]; cbn [andb];
      subst m'.
    + rewrite load8_store8_ne, !load8_store8_eq by lia. done.
    + rewrite !load8_store8_ne by (unfold cell_at; lia). by apply Hg.
    + rewrite !load8_store8_ne by (unfold cell_at; lia). by apply Hg.
    + rewrite !load8_store8_ne by (unfold cell_at; lia). by apply Hg.
Qed.

(** The end of [putc]: the screen scrolls when the cursor has left it. *)
Lemma settle_spec m o t :
  real_screen o = RAMSCREEN → yl o = row t → x o = col t → 0 <= row t <= 25 → 0 <= col t <= 79 →
  (∀ r c, 0 <= r <= 24 → 0 <= c <= 79 → (load8 m (cell_at r c), load8 m (cell_at r c + 1)) = grid t r c) →
  ∃ m' o', (if 24 <? yl o then scrollup m o (yl o - 24) else Done (m, o)) = Done (m', o') ∧
    shows m' o' (settle t) ∧ off_screen m m'.
Proof.
  intros Hs Hy Hx Hr Hc Hg. unfold settle. rewrite Hy. destruct (Z.ltb_spec 24 (row t)).
  - assert (row t = 25) as E by lia. rewrite E in *. change (25 - 24) with 1.
    destruct (scrollup_spec m o Hs Hy) as (m' & -> & Hoff & Hcells).
    exists m', (o <| yl := 24 |>). split; [done|]. split; [|done]. split; [done|done|done|split; [cbn; lia|done]|].
    intros r c Hr' Hc'. cbn [grid]. rewrite Hcells by done. destruct (Z.ltb_spec r 24); [|done]. apply Hg; lia.
  - exists m, o. split; [done|]. split; [|done]. split; [done|done|done|lia|done].
Qed.

(** [putc] on the console that is shown is the [put] of a terminal, for
    every character but backspace and tab: it returns, the screen shows the
    new terminal, and no byte outside the screen is written. *)
Theorem putc_refines m o t ch :
  shows m o t → ch ≠ 8 → ch ≠ 9 →
  ∃ m' o', putc m o ch = Done (m', o') ∧ shows m' o' (put t ch) ∧ off_screen m m'.
Proof.
  intros Hsh H8 H9. pose proof (write_cell m o t ch Hsh) as [Hwo Hwc]. destruct Hsh as [Hs Hy Hx [Hr Hc] Hg].
  unfold putc, put. rewrite (proj2 (Z.eqb_neq ch 8)), (proj2 (Z.eqb_neq ch 9)) by done.
  destruct (Z.eqb_spec ch 10); [|destruct (Z.eqb_spec ch 13)]; cbn iota.
  - apply (settle_spec m _ (mk_term (grid t) (row t + 1) 0)); cbn [row col grid]; try done; try lia.
    change (s8 (yl o + 1) = row t + 1). rewrite Hy. apply s8_small. lia.
  - apply (settle_spec m _ (mk_term (grid t) (row t) 0)); cbn [row col grid]; try done; lia.
  - change (real_screen (o <| kattr := 7 |>)) with (real_screen o). change (x (o <| kattr := 7 |>)) with (x o).
    change (yl (o <| kattr := 7 |>)) with (yl o). rewrite Hs, Hx, Hy.
    replace (RAMSCREEN + 2 * col t + 160 * row t) with (cell_at (row t) (col t)) by (unfold cell_at; lia).
    change (kattr (o <| kattr := 7 |>)) with 7. set (m1 := store8 (store8 m _ ch) _ 7) in *.
    set (o1 := o <| kattr := 7 |> <| x ::= fun x => s8 (x + 1) |>).
    assert (x o1 = col t + 1) as Hx1.
    { change (s8 (x o + 1) = col t + 1). rewrite Hx. apply s8_small. lia. }
    assert ((79 <? x o1) = (79 <=? col t)) as ->.
    { rewrite Hx1. destruct (Z.ltb_spec 79 (col t + 1)), (Z.leb_spec 79 (col t)); (done || lia). }
    destruct (Z.leb_spec 79 (col t)).
    + destruct (settle_spec m1 (o1 <| x := 0 |> <| yl ::= fun y => s8 (y + 1) |>)
        (mk_term (set_cell (grid t) (row t) (col t) (u8 ch, 7)) (row t + 1) 0)) as (m' & o' & E & Hsh & Hoff);
        cbn [row col grid]; try done; try lia.
      { change (s8 (yl o + 1) = row t + 1). rewrite Hy. apply s8_small. lia. }
      exists m', o'. split; [exact E|]. split; [done|]. by etrans.
    + destruct (settle_spec m1 o1 (mk_term (set_cell (grid t) (row t) (col t) (u8 ch, 7)) (row t) (col t + 1)))
        as (m' & o' & E & Hsh & Hoff); cbn [row col grid]; try done; try lia.
      exists m', o'. split; [exact E|]. split; [done|]. by etrans.
Qed.

(** ** Text *)

(** The characters whose [putc] stays on the screen. *)
Definition plain (c : Z) : Prop := c ≠ 8 ∧ c ≠ 9.

Lemma put_chars_refines s m o t :
  shows m o t → Forall plain s →
  ∃ m' o', put_chars m o s = Done (m', o') ∧ shows m' o' (put_text t s) ∧ off_screen m m'.
Proof.
  unfold put_chars. intros Hsh Hp. revert m o t Hsh. induction Hp as [|c s [H8 H9] _ IH]; intros m o t Hsh; cbn [foldl].
  { by exists m, o. }
  destruct (putc_refines m o t c Hsh H8 H9) as (m1 & o1 & E & Hsh1 & Hoff1). cbn [obind]. rewrite E.
  destruct (IH m1 o1 (put t c) Hsh1) as (m2 & o2 & E2 & Hsh2 & Hoff2).
  exists m2, o2. split; [exact E2|]. split; [exact Hsh2|]. by etrans.
Qed.

(** ** Numbers as text

    A numeral is defined by division alone, without the code's buffers: the
    digits of the quotient, then the digit of the remainder. *)
Definition digit_char (d : Z) : Z := if d <? 10 then 48 + d else 97 + (d - 10).

Fixpoint numeral_fuel (fuel : nat) (base n : Z) : list Z :=
  match fuel with
  | O => []
  | S fuel => if n <? base then [digit_char n] else numeral_fuel fuel base (n / base) ++ [digit_char (n mod base)]
  end.
Definition numeral (base n : Z) : list Z := numeral_fuel (S (Z.to_nat (Z.log2 n))) base n.

(** With zeroes in front, up to [size] characters. *)
Definition padded (base n size : Z) : list Z :=
  let ds := numeral base n in replicate (Z.to_nat (size - zlen ds)) 48 ++ ds.

(** What a conversion stands for: a signed decimal number, an unsigned one, a
    hexadecimal one, a pointer, a string, a character; any other character
    stands for nothing. *)
Definition conversion (c size : Z) (args : list arg) : outcome (list Z * list arg) :=
  let number_text (text : Z → list Z) :=
    match args with AInt n :: args => Done (text n, args) | _ => Stuck end in
  if c =? 100 then number_text (fun n => (if s32 n <? 0 then [45] else []) ++ padded 10 (Z.abs (s32 n)) size)
  else if c =? 117 then number_text (fun n => padded 10 (n mod 2 ^ 32) size)
  else if (c =? 120) || (c =? 88) then number_text (fun n => [48; 120] ++ padded 16 (n mod 2 ^ 32) size)
  else if c =? 112 then number_text (fun n => [48; 120] ++ padded 16 (n mod 2 ^ 32) 8)
  else if c =? 115 then
    match args with AStr (Some text) :: args => Done (text, args) | AStr None :: args => Done ([], args) | _ => Stuck end
  else if c =? 99 then number_text (fun n => [n mod 256])
  else Done ([], args).

(** The padding moves the digits up, from the last on, and fills with zeroes. *)
Lemma pad_spec b ds size :
  cstr b 0 ds →
  ∃ b', pad b size (zlen ds) = Done b' ∧ cstr b' 0 (replicate (Z.to_nat (size - zlen ds)) 48 ++ ds).
Proof.
  intros Hs. pose proof (zlen_nonneg ds) as Hl. unfold pad. destruct (Z.ltb_spec (zlen ds) size) as [Hlt|].
  2:{ exists b. split; [done|]. by rewrite Z2Nat.nonpos by lia. }
  set (d := size - zlen ds).
  destruct (while_total (fun '(b', i, j) => -1 <= i <= size ∧ j = i - d ∧ (∀ k, 0 <= k <= i → load8 b' k = load8 b k) ∧
      (∀ k, i < k <= size → load8 b' k = if d <=? k then load8 b (k - d) else 48))
    (fun '(_, i, _) => Z.to_nat (i + 1)) (fun '(_, i, _) => 0 <=? i)
    (fun '(b, i, j) => (store8 b i (if 0 <=? j then load8 b j else 48), i - 1, j - 1)))
    with (fuel := S (S (Z.to_nat size))) (s := (b, size, zlen ds)) as ([[b' i] j] & -> & (Hi & Hj & _ & Hdone) & Hc).
  - intros [[b' i] j] (Hi & -> & Htodo & Hdone) Hc%Z.leb_le. split; [|lia]. split; [lia|]. split; [lia|]. split.
    + intros k Hk. rewrite load8_store8_ne by lia. apply Htodo. lia.
    + intros k Hk. destruct (decide (k = i)) as [->|]; [|rewrite load8_store8_ne by lia; apply Hdone; lia].
      rewrite load8_store8_eq. destruct (Z.leb_spec 0 (i - d)), (Z.leb_spec d i); try lia; [|done].
      rewrite Htodo by lia. apply u8_small, load8_range.
  - split; [lia|]. split; [lia|]. split; [done|]. intros k Hk. lia.
  - lia.
  - apply Z.leb_gt in Hc. assert (i = -1) as -> by lia. cbn [obind]. exists b'. split; [done|].
    assert (zlen (replicate (Z.to_nat d) 48 ++ ds) = size) as Hz by (unfold zlen in *; rewrite length_app, length_replicate; lia).
    apply cstr_intro.
    + apply bytes_lookup. intros k c Hk. assert (0 <= Z.of_nat k < size) as Hk'.
      { apply lookup_lt_Some in Hk. unfold zlen in Hz. lia. }
      rewrite Z.add_0_l, Hdone by lia. destruct (Z.leb_spec d (Z.of_nat k)).
      * rewrite lookup_app_r in Hk by (rewrite length_replicate; lia). rewrite length_replicate in Hk.
        pose proof (proj1 (bytes_lookup _ _ _) (cstr_bytes _ _ _ Hs) _ _ Hk) as Hb.
        replace (Z.of_nat k - d) with (0 + Z.of_nat (k - Z.to_nat d)) by lia. done.
      * rewrite lookup_app_l in Hk by (rewrite length_replicate; lia). apply lookup_replicate_1 in Hk as [-> _]. done.
    + apply Forall_app. split; [apply Forall_replicate; lia|by eapply cstr_nonzero].
    + rewrite Hz, Z.add_0_l, Hdone by lia. destruct (Z.leb_spec d size); [|lia].
      replace (size - d) with (0 + zlen ds) by lia. by apply cstr_end.
Qed.

Lemma digit_char_val base c : is_digit base c → digit_char (digit_val c) = c.
Proof. intros [Hc _]. unfold digit_char, digit_val. repeat case_if; zify_bool; lia. Qed.

Lemma parse_snoc base l c : parse base (l ++ [c]) = parse base l * base + digit_val c.
Proof. unfold parse. by rewrite fold_left_app. Qed.

Lemma parse_lower base l : 2 <= base → Forall (is_digit base) l → 0 <= parse base l ∧ (l ≠ [] → hd 48 l ≠ 48 → 0 < parse base l).
Proof.
  intros Hb. induction l as [|c l IH] using rev_ind; [done|]. intros [Hl [Hc _]%list.Forall_cons_1]%Forall_app.
  destruct (IH Hl) as [H0 Hpos]. rewrite parse_snoc. destruct Hc as [Hc Hd]. split; [nia|]. intros _ Hh.
  destruct l as [|c0 l]; [|specialize (Hpos ltac:(done) Hh); nia].
  cbn in *. unfold digit_val in *. destruct (Z.ltb_spec c 58); lia.
Qed.

(** A number has one numeral. *)
Lemma numeral_unique base ds : 2 <= base → Forall (is_digit base) ds → (hd 48 ds = 48 → ds = [48]) →
  ∀ fuel, parse base ds < 2 ^ Z.of_nat fuel → (0 < fuel)%nat → numeral_fuel fuel base (parse base ds) = ds.
Proof.
  intros Hb. induction ds as [|c l IH] using rev_ind; [by intros _ H; specialize (H eq_refl)|].
  intros [Hl [Hc _]%list.Forall_cons_1]%Forall_app Hz fuel Hf Hpos. destruct fuel as [|fuel]; [lia|]. cbn [numeral_fuel].
  pose proof (digit_char_val _ _ Hc) as Ec. destruct Hc as [Hc Hd]. rewrite parse_snoc in *.
  destruct (decide (l = [])) as [->|Hne].
  - change (parse base []) with 0. rewrite Z.mul_0_l, Z.add_0_l, (proj2 (Z.ltb_lt _ base)), Ec by lia. done.
  - assert (hd 48 l ≠ 48) as Hh.
    { intros E. destruct l as [|c0 l]; [done|]. specialize (Hz E). injection Hz as _ Hz. by destruct l. }
    destruct (parse_lower base l Hb Hl) as [H0 Hp]. specialize (Hp Hne Hh).
    rewrite (proj2 (Z.ltb_ge _ base)) by nia.
    rewrite Z.add_comm, Z.div_add, Z.mod_add, Z.div_small, Z.mod_small, Z.add_0_l, Ec by lia. f_equal.
    rewrite Nat2Z.inj_succ, Z.pow_succ_r in Hf by lia. assert (parse base l < 2 ^ Z.of_nat fuel) by nia.
    apply IH; [done|done|done|]. destruct fuel; [change (2 ^ Z.of_nat 0) with 1 in *; lia|lia].
Qed.

(** The buffer of a conversion has the numeral, padded with zeroes. *)
Lemma number_padded n base size :
  2 <= base <= 36 → 0 <= n < 2 ^ 32 → size <= 9 → number n base size = Done (padded base n size).
Proof.
  intros Hb Hn Hsz. destruct (itoa_ok ∅ 0 n base Hb Hn) as (m' & ds & E & Hs & Hp & Hd & Hz & Hl & _).
  unfold number. rewrite E. cbn [obind].
  rewrite (strlen_spec 34 m' 0 ds) by (done || unfold zlen in Hl; lia). cbn [obind].
  destruct (pad_spec m' ds size Hs) as (b' & -> & Hb'). cbn [obind].
  assert (numeral base n = ds) as En.
  { rewrite <- Hp. apply numeral_unique; [lia|done|done| |lia]. rewrite Hp, Nat2Z.inj_succ.
    destruct (decide (n = 0)) as [->|]; [reflexivity|]. pose proof (Z.log2_nonneg n). rewrite Z2Nat.id by done. apply Z.log2_spec. lia. }
  unfold padded. rewrite En. apply string_at_spec; [done|].
  rewrite length_app, length_replicate. unfold zlen in *. lia.
Qed.

Lemma s32_range z : -2 ^ 31 <= s32 z < 2 ^ 31.
Proof. unfold s32. pose proof (Z.mod_pos_bound (z + 2 ^ 31) (2 ^ 32)). lia. Qed.

(** The code's conversions are those of the specification. *)
Lemma convert_conversion c size args : size <= 9 → convert c size args = conversion c size args.
Proof.
  intros Hsz. unfold convert, conversion, int_arg.
  destruct (c =? 100).
  { destruct args as [|[n|] args]; [done| |done]. cbn [obind]. pose proof (s32_range n). destruct (Z.ltb_spec (s32 n) 0).
    - rewrite number_padded by (rewrite ?u32_small; lia). cbn [obind app]. rewrite u32_small by lia.
      do 3 f_equal. by rewrite Z.abs_neq by lia.
    - rewrite number_padded by lia. cbn [obind app]. by rewrite Z.abs_eq by lia. }
  destruct (c =? 117).
  { destruct args as [|[n|] args]; [done| |done]. cbn [obind]. by rewrite number_padded by (apply u32_range || lia). }
  destruct ((c =? 120) || (c =? 88)).
  { destruct args as [|[n|] args]; [done| |done]. cbn [obind]. by rewrite number_padded by (apply u32_range || lia). }
  destruct (c =? 112).
  { destruct args as [|[n|] args]; [done| |done]. cbn [obind]. by rewrite number_padded by (apply u32_range || lia). }
  destruct (c =? 115); [by destruct args as [|[|[]]]|].
  by destruct (c =? 99); [destruct args as [|[]]|].
Qed.

(** The text a format stands for. *)
Fixpoint render (s : list Z) (args : list arg) : outcome (list Z) :=
  match s with
  | [] => Done []
  | c :: s =>
    if c =? 37 then
      match s with
      | [] => Stuck
      | c :: s =>
        if is_digit_char c then
          match s with
          | [] => Stuck
          | c' :: s =>
            let* (text, args) := conversion c' (c - 48) args in
            let* rest := render s args in Done (text ++ rest)
          end
        else
          let* (text, args) := conversion c 0 args in
          let* rest := render s args in Done (text ++ rest)
      end
    else let* rest := render s args in Done (c :: rest)
  end.

Lemma fmt_at_app pre s : fmt_at (pre ++ s) (zlen pre) = Done (hd 0 s).
Proof.
  unfold fmt_at, zlen, zget. rewrite length_app, (proj2 (Z.ltb_ge _ _)) by lia. rewrite decide_True by lia.
  rewrite Nat2Z.id. f_equal. rewrite app_nth2, Nat.sub_diag by lia. by destruct s.
Qed.

Lemma fmt_at_next pre c s : fmt_at (pre ++ c :: s) (zlen pre + 1) = Done (hd 0 s).
Proof.
  replace (zlen pre + 1) with (zlen (pre ++ [c])) by (unfold zlen; rewrite length_app; simpl; lia).
  replace (pre ++ c :: s) with ((pre ++ [c]) ++ s) by (by rewrite <- app_assoc). apply fmt_at_app.
Qed.

Lemma fmt_at_end s : fmt_at s (zlen s + 1) = Stuck.
Proof. unfold fmt_at, zlen. by rewrite (proj2 (Z.ltb_lt _ _)) by lia. Qed.

Lemma zlen_snoc {A} (l : list A) x : zlen (l ++ [x]) = zlen l + 1.
Proof. unfold zlen. rewrite length_app. simpl. lia. Qed.

(** The format from the position behind [pre] on. *)
Lemma print_from fuel pre s args text m o t :
  (length s < fuel)%nat → 0 ∉ s → render s args = Done text → shows m o t → Forall plain text →
  ∃ m' o', loop fuel (print_step (pre ++ s)) (zlen pre, args, m, o) = Done (m', o') ∧
    shows m' o' (put_text t text) ∧ off_screen m m'.
Proof.
  revert pre s args text m o t. induction fuel as [fuel IH] using lt_wf_ind.
  intros pre s args text m o t Hf Hs Hr Hsh Hp. destruct fuel as [|fuel]; [lia|]. cbn [loop]. unfold print_step at 1.
  rewrite fmt_at_app. cbn [obind]. destruct s as [|c s].
  { injection Hr as <-. cbn [hd]. rewrite Z.eqb_refl. cbn [obind]. exists m, o. by split. }
  cbn [hd render length] in *. rewrite (proj2 (Z.eqb_neq c 0)) by (intros ->; apply Hs; by left).
  assert (∀ pre', pre' = pre ++ [c] → pre ++ c :: s = pre' ++ s) as Happ by (intros ? ->; by rewrite <- app_assoc).
  destruct (Z.eqb_spec c 37) as [->|Hne].
  2:{ apply obind_Done in Hr as (rest & Hrest & [= <-]). apply list.Forall_cons_1 in Hp as [[H8 H9] Hp].
      destruct (putc_refines m o t c Hsh H8 H9) as (m1 & o1 & -> & Hsh1 & Hoff1). cbn [obind].
      rewrite <- zlen_snoc with (x := c), (Happ _ eq_refl).
      destruct (IH fuel ltac:(lia) (pre ++ [c]) s args rest m1 o1 (put t c)) as (m2 & o2 & E2 & Hsh2 & Hoff2);
        [lia|set_solver|done..|]. exists m2, o2. split; [exact E2|]. split; [done|]. by etrans. }
  destruct s as [|c1 s]; [done|]. rewrite fmt_at_next. cbn [obind hd].
  (* a conversion [c'] with [size], its text and the rest of the format *)
  assert (∀ pre' s' c' size, pre ++ 37 :: c1 :: s = pre' ++ s' → (length s' < fuel)%nat → 0 ∉ s' → size <= 9 →
    (let* (text, args) := conversion c' size args in let* rest := render s' args in Done (text ++ rest)) = Done text →
    ∃ m' o',
      (let* x := (let* (text, args) := convert c' size args in
                  let* (m, o) := put_chars m o text in Done (inl (zlen pre', args, m, o))) in
       match x with
       | inl s0 => loop fuel (print_step (pre ++ 37 :: c1 :: s)) s0
       | inr r => Done r
       end) = Done (m', o') ∧ shows m' o' (put_text t text) ∧ off_screen m m') as Hconv.
  { intros pre' s' c' size Es Hl Hs' Hsz Hc. rewrite convert_conversion by done. apply obind_Done in Hc as ([t1 args'] & -> & Hc). cbn [obind].
    apply obind_Done in Hc as (rest & Hrest & [= <-]). apply Forall_app in Hp as [Hp1 Hp2].
    destruct (put_chars_refines t1 m o t Hsh Hp1) as (m1 & o1 & -> & Hsh1 & Hoff1). cbn [obind]. rewrite Es.
    destruct (IH fuel ltac:(lia) pre' s' args' rest m1 o1 (put_text t t1)) as (m2 & o2 & E2 & Hsh2 & Hoff2); [done..|].
    exists m2, o2. split; [exact E2|]. unfold put_text in *. rewrite foldl_app. split; [done|]. by etrans. }
  destruct (is_digit_char c1) eqn:Hd; cbn [length] in Hf.
  - destruct s as [|c2 s]; [done|]. cbn [length] in Hf.
    replace (zlen pre + 1 + 1) with (zlen (pre ++ [37]) + 1) by (rewrite zlen_snoc; lia).
    replace (fmt_at (pre ++ 37 :: c1 :: c2 :: s) (zlen (pre ++ [37]) + 1)) with (Done c2)
      by (rewrite (Happ _ eq_refl), fmt_at_next; done). cbn [obind].
    replace (zlen (pre ++ [37]) + 1 + 1) with (zlen (pre ++ [37; c1; c2])) by (unfold zlen; rewrite !length_app; simpl; lia).
    apply (Hconv _ s); [by rewrite <- app_assoc|lia|set_solver| |done].
    unfold is_digit_char in Hd. zify_bool. lia.
  - replace (zlen pre + 1 + 1) with (zlen (pre ++ [37; c1])) by (unfold zlen; rewrite length_app; simpl; lia).
    cbn [obind]. apply (Hconv _ s); [by rewrite <- app_assoc|lia|set_solver|lia|done].
Qed.

(** C24. [print] prints the text its format stands for, with its numbers written
    in decimal and hexadecimal by division, and padded: on the console that is
    shown, when the format is well formed, its arguments are there and the
    text has no backspace or tab, it returns, the screen is that of the
    terminal the text was put to, and no byte outside the screen is written. *)
Theorem print_refines s args text m o t :
  shows m o t → 0 ∉ s → render s args = Done text → Forall plain text →
  ∃ m' o', print m o s args = Done (m', o') ∧ shows m' o' (put_text t text) ∧ off_screen m m'.
Proof. intros Hsh Hs Hr Hp. apply (print_from _ [] s args); (done || lia). Qed.

(** ** Concrete runs *)

Definition demo_io : io := new_io 0x200000 (replicate 512 0).
Definition demo_term : term := mk_term (fun _ _ => (0, 0)) 0 0.

Lemma demo_shows : shows ∅ demo_io demo_term.
Proof.
  split; [done|done|done|cbn; lia|]. intros r c _ _. unfold load8, load. rewrite !lookup_empty.
  change (default 0 None) with 0. by rewrite !Z.shiftr_0_l.
Qed.

Lemma putc_refines_witness :
  ∃ m' o', putc ∅ demo_io 65 = Done (m', o') ∧ shows m' o' (put demo_term 65) ∧ off_screen ∅ m'.
Proof. apply (putc_refines ∅ demo_io demo_term 65 demo_shows); lia. Defined.

(** The format "n%3d" with the argument 7. *)
Lemma print_refines_witness :
  ∃ m' o', print ∅ demo_io [110; 37; 51; 100] [AInt 7] = Done (m', o') ∧
    shows m' o' (put_text demo_term [110; 48; 48; 55]) ∧ off_screen ∅ m'.
Proof.
  apply (print_refines [110; 37; 51; 100] [AInt 7] [110; 48; 48; 55] ∅ demo_io demo_term demo_shows);
    [apply (bool_decide_unpack _); reflexivity|vm_compute; reflexivity|].
  unfold plain. repeat constructor; lia.
Defined.

(** The specification's numerals, on the numbers of the code's corner cases. *)
Example conversions :
  (conversion 100 3 [AInt (-7)], conversion 100 0 [AInt (-2 ^ 31)], conversion 120 4 [AInt 255], conversion 117 0 [AInt 0])
  = (Done ([45; 48; 48; 55], []), Done ([45; 50; 49; 52; 55; 52; 56; 51; 54; 52; 56], []), Done ([48; 120; 48; 48; 102; 102], []),
     Done ([48], [])).
Proof. vm_compute. reflexivity. Qed.

(** A percent sign cannot be printed, and a minus sign in a conversion ends it:
    the shell's formats "%d%%" and "%-10s" print no percent sign, and "10s". *)
Example percent_prints_nothing : render [37; 100; 37; 37] [AInt 5] = Done [53].
Proof. vm_compute. reflexivity. Qed.
Example minus_ends_conversion : render [37; 45; 49; 48; 115] [AStr (Some [97])] = Done [49; 48; 115].
Proof. vm_compute. reflexivity. Qed.

(** Backspace in the first column moves the cursor to column -1, and the next
    character is written in front of the screen. *)
Example backspace_leaves_screen :
  match put_chars ∅ demo_io [8; 65] with Done (m, o) => Some (load8 m (RAMSCREEN - 2), x o) | _ => None end
  = Some (65, 0).
Proof. vm_compute. reflexivity. Qed.

(** Tabs are not wrapped at the end of the line; the sixteenth makes the signed
    column negative. *)
Example tabs_leave_screen :
  match put_chars ∅ demo_io (replicate 16 9) with Done (_, o) => Some (x o) | _ => None end = Some (-128).
Proof. vm_compute. reflexivity. Qed.

(** The line buffer is not bounded: its 513th character is written behind it. *)
Example line_buffer_overflows :
  foldl (fun o c => let* o := o in putctty o c) (Done demo_io) (replicate 513 97) = Stuck.
Proof. vm_compute. reflexivity. Qed.

(** A hidden console above the frame buffer never scrolls: its screen stays as it is. *)
Example hidden_console_never_scrolls :
  scrollup ∅ ((new_io_hidden 0x200000 []) <| yl := 25 |>) 1 = Done (∅, (new_io_hidden 0x200000 []) <| yl := 24 |>).
Proof. vm_compute. reflexivity. Qed.
