(* ===== verification/Shell.v ===== *)
(** The shell: [src/src/kernel/core/shell.h] and [shell.cc].

    Strings in the shell object and in the static buffer of [parse_command] are
    lists of characters; the paths and the history that [kmalloc] allocates are
    in kernel memory, with whatever is there.  What the commands print is a
    list of events: a call of [IO::print] with its format and arguments (what
    that puts on the screen is [Console.v]), or bytes for [IO::putc].
    The output to the serial port is left out. *)

From Stdlib Require Import ZArith Lia String Ascii.
From stdpp Require Import base list gmap option.
From coqutil Require Import Datatypes.RecordSetters.
From S2P Require Import Prelude Memory Strings Bytes Chars KAlloc Mm Vmm Swap Paging Cow FileTree Filesystem Pit Process Vfs Elf Syscalls Console.
Import TriangleBracketNotations.
Local Open Scope Z_scope.

Definition MAX_COMMAND_LENGTH : Z := 512.
Definition MAX_ARGS : Z := 32.
Definition MAX_PATH_LENGTH : Z := 256.
Definition MAX_HISTORY : Z := 10.

(** The characters of a literal, and of a literal with a line end. *)
Definition chars (s : string) : list Z := map (fun a => Z.of_N (N_of_ascii a)) (list_ascii_of_string s).
Definition line (s : string) : list Z := chars s ++ [10].

(** ** [parse_command] *)

Definition QUOTE : Z := 34.
Definition is_blank (c : Z) : bool := (c =? 32) || (c =? 9).

(** A quote is taken out by moving the rest of the string down. *)
Definition shift_down (buffer : list Z) (i : Z) : outcome (list Z) :=
  let* (buffer, _) := while (S (List.length buffer)) (fun '(b, j) => negb (zget 0 b j =? 0))
    (fun '(b, j) => (zset b j (zget 0 b (j + 1)), j + 1)) (buffer, i) in
  Done buffer.

(** [args[argc] = token]: [args] has [MAX_ARGS] elements. *)
Definition push_arg (args : list Z) (token : Z) : outcome (list Z) :=
  if Z.of_nat (List.length args) <? MAX_ARGS then Done (args ++ [token]) else Stuck.

Definition parse_step (st : list Z * list Z * Z * bool * Z) : outcome (list Z * list Z * Z * bool * Z + list Z * list Z * Z) :=
  let '(buffer, args, token, in_quotes, i) := st in
  if negb (zget 0 buffer i =? 0) && (Z.of_nat (List.length args) <? MAX_ARGS - 1) then
    let c := zget 0 buffer i in
    if c =? QUOTE then
      let* buffer := shift_down buffer i in
      Done (inl (buffer, args, token, negb in_quotes, i))
    else if negb in_quotes && is_blank c then
      let buffer := zset buffer i 0 in
      let* args := if negb (zget 0 buffer token =? 0) then push_arg args token else Done args in
      let* i := while (S (List.length buffer)) (fun i => is_blank (zget 0 buffer (i + 1))) (fun i => i + 1) i in
      Done (inl (buffer, args, i + 1, in_quotes, i + 1))
    else Done (inl (buffer, args, token, in_quotes, i + 1))
  else Done (inr (buffer, args, token)).

(** The arguments are pointers into the static buffer; the null behind them is
    written too. *)
Definition parse_command (static : list Z) (input : list Z) : outcome (list Z * list Z) :=
  let buffer := splice 0 (input ++ [0]) static in
  let* (buffer, args, token) := loop (S (S (2 * List.length input))) parse_step (buffer, [], 0, false, 0) in
  let* args := if negb (zget 0 buffer token =? 0) then push_arg args token else Done args in
  let* _ := push_arg args 0 in
  Done (buffer, args).

(** The strings that the pointers [args] are. *)
Definition arg_strings (buffer : list Z) (args : list Z) : list (list Z) :=
  map (fun a => c_str (drop (Z.to_nat a) buffer)) args.

(** ** The state *)

Inductive event :=
| Printed (format : list Z) (args : list arg)
| Put (bytes : list Z).

Record shell (K : Type) := mk_shell {
  sw : world K;
  current_directory : list Z;
  command_history : list Z;
  history_count : Z;
  running : bool;
  exit_code : Z;
  out : list event;
}.
Arguments mk_shell {K}.
Arguments sw {K}.
Arguments current_directory {K}.
Arguments command_history {K}.
Arguments history_count {K}.
Arguments running {K}.
Arguments exit_code {K}.
Arguments out {K}.

(** The table of commands: name, description, handler. *)
Inductive command :=
  cmd_help | cmd_echo | cmd_clear | cmd_ls | cmd_cd | cmd_pwd | cmd_cat | cmd_mkdir | cmd_rm | cmd_cp | cmd_mv |
  cmd_ps | cmd_mem | cmd_swap | cmd_uptime | cmd_uname | cmd_exit.

Definition builtin_commands : list (list Z * list Z * command) :=
  [(chars "help", chars "Show this help message", cmd_help);
   (chars "echo", chars "Display a line of text", cmd_echo);
   (chars "clear", chars "Clear the screen", cmd_clear);
   (chars "ls", chars "List directory contents", cmd_ls);
   (chars "cd", chars "Change directory", cmd_cd);
   (chars "pwd", chars "Print working directory", cmd_pwd);
   (chars "cat", chars "Display file contents", cmd_cat);
   (chars "mkdir", chars "Create directory", cmd_mkdir);
   (chars "rm", chars "Remove files or directories", cmd_rm);
   (chars "cp", chars "Copy files", cmd_cp);
   (chars "mv", chars "Move/rename files", cmd_mv);
   (chars "ps", chars "Show running processes", cmd_ps);
   (chars "mem", chars "Show memory information", cmd_mem);
   (chars "swap", chars "Show swap information", cmd_swap);
   (chars "uptime", chars "Show system uptime", cmd_uptime);
   (chars "uname", chars "Show system information", cmd_uname);
   (chars "exit", chars "Exit the shell", cmd_exit)].

Definition find_command (name : list Z) : option command :=
  snd <$> List.find (fun '(n, _, _) => same_name n name) builtin_commands.

Section Shell.
Context {K : Type} `{KAlloc K} `{FileOps K}.
Variable fuel : nat.
Variable scan : ftree → Z → outcome ftree.

Definition say (s : shell K) (format : list Z) (args : list arg) : shell K := s <| out ::= fun l => l ++ [Printed format args] |>.
Definition set_sw (s : shell K) (w : world K) : shell K := s <| sw := w |>.

(** [kmalloc] and [kfree] from the shell. *)
Definition sh_alloc (s : shell K) (size : Z) : outcome (Z * shell K) :=
  let* (p, m) := mm_alloc (wmm (sw s)) size in Done (p, set_sw s ((sw s) <| wmm := m |>)).
Definition sh_free (s : shell K) (p : Z) : outcome (shell K) :=
  let* m := mm_free (wmm (sw s)) p in Done (set_sw s ((sw s) <| wmm := m |>)).
Definition sh_mem (s : shell K) : mem := kmemory (sw s).
Definition set_mem (s : shell K) (m : mem) : shell K := set_sw s (set_kmemory (sw s) m).

(** [strcpy(state.current_directory, ...)]: the array has [MAX_PATH_LENGTH] characters. *)
Definition set_directory (s : shell K) (dir : list Z) : outcome (shell K) :=
  if zlen dir <? MAX_PATH_LENGTH then Done (s <| current_directory := dir |>) else Stuck.

(** [init] *)
Definition shell_init (s : shell K) : shell K :=
  let s := say s (line "[SHELL] Initializing shell") [] in
  let s := s <| current_directory := chars "/" |> <| history_count := 0 |> <| running := false |>
             <| exit_code := 0 |> <| command_history := replicate (Z.to_nat MAX_HISTORY) 0 |> in
  say s (line "[SHELL] Shell initialized") [].

Definition clear_screen (s : shell K) : shell K :=
  set_mem s (for_ (80 * 25) (fun i m => store8 (store8 m (RAMSCREEN + 2 * i) 0x20) (RAMSCREEN + 2 * i + 1) 0x07) (sh_mem s)).

(** ** History *)

Definition remember (s : shell K) (i : Z) (cmd : list Z) : outcome (Z * shell K) :=
  let* (p, s) := sh_alloc s (zlen cmd + 1) in
  let s := s <| command_history ::= fun l => zset l i p |> in
  Done (p, if negb (p =? 0) then set_mem s (strcpy_chars (sh_mem s) p cmd) else s).

Definition add_to_history (s : shell K) (cmd : list Z) : outcome (shell K) :=
  if history_count s <? MAX_HISTORY then
    let* (p, s) := remember s (history_count s) cmd in
    Done (if negb (p =? 0) then s <| history_count ::= fun n => n + 1 |> else s)
  else
    let* s := sh_free s (zget 0 (command_history s) 0) in
    let s := s <| command_history ::= fun l => for_ (MAX_HISTORY - 1) (fun i l => zset l i (zget 0 l (i + 1))) l |> in
    let* (_, s) := remember s (MAX_HISTORY - 1) cmd in
    Done s.

(** ** Paths *)

Definition is_absolute_path (path : list Z) : bool := zget 0 path 0 =? SLASH.

Definition join_path (s : shell K) (dir file : list Z) : outcome (Z * shell K) :=
  let dir_len := zlen dir in
  let total_len := dir_len + zlen file + 2 in
  let* (result, s) := sh_alloc s total_len in
  if result =? 0 then Done (0, s)
  else
    let m := strcpy_chars (sh_mem s) result dir in
    let* m := if (0 <? dir_len) && negb (zget 0 dir (dir_len - 1) =? SLASH) then strcat_chars fuel m result [SLASH] else Done m in
    let* m := strcat_chars fuel m result file in
    Done (result, set_mem s m).

Definition get_full_path (s : shell K) (path : list Z) : outcome (Z * shell K) :=
  if is_absolute_path path then
    let* (result, s) := sh_alloc s (zlen path + 1) in
    Done (result, if negb (result =? 0) then set_mem s (strcpy_chars (sh_mem s) result path) else s)
  else join_path s (current_directory s) path.

(** [fsm.path] of characters, and of a string in memory. *)
Definition find_path (s : shell K) (name : list Z) : outcome (Z * shell K) :=
  let* (fp, fs) := path fuel scan (wfs (sw s)) (current_dir (sw s)) name in
  Done (fp, set_sw s ((sw s) <| wfs := fs |>)).
Definition find_path_at (s : shell K) (p : Z) : outcome (Z * shell K) :=
  let* name := string_at fuel (sh_mem s) p in find_path s name.

(** The last slash of a string: [strrchr(s, '/')]. *)
Definition last_slash (l : list Z) : option nat := head (filter (fun i => zget 0 l (Z.of_nat i) = SLASH) (rev (seq 0 (List.length l)))).

Definition run_cd (s : shell K) (argv : list (list Z)) : outcome (Z * shell K) :=
  match argv with
  | _ :: new_dir :: _ =>
    if same_name new_dir (chars "..") then
      match last_slash (current_directory s) with
      | Some (S i) => Done (0, s <| current_directory ::= take (S i) |>)
      | _ => Done (0, s <| current_directory := chars "/" |>)
      end
    else if same_name new_dir (chars ".") then Done (0, s)
    else
      let* (full_path, s) := get_full_path s new_dir in
      if negb (full_path =? 0) then
        let* (dir, s) := find_path_at s full_path in
        if negb (dir =? 0) then
          let* text := string_at fuel (sh_mem s) full_path in
          let* s := set_directory s text in
          let* s := sh_free s full_path in
          Done (0, s)
        else
          let s := say s (line "cd: %s: No such file or directory") [AStr (Some new_dir)] in
          let* s := sh_free s full_path in
          Done (1, s)
      else Done (0, s)
  | _ => Done (0, s <| current_directory := chars "/" |>)
  end.

(** ** The other commands *)

Definition run_help (s : shell K) : Z * shell K :=
  let s := say s (line "Available commands:" ++ [10]) [] in
  let s := foldl (fun s '(n, d, _) => say s (line "  %-10s - %s") [AStr (Some n); AStr (Some d)]) s builtin_commands in
  (0, say s [10] []).

Definition run_echo (s : shell K) (argv : list (list Z)) : Z * shell K :=
  let argc := Z.of_nat (List.length argv) in
  let s := for_ (argc - 1) (fun i s =>
    let s := say s (chars "%s") [AStr (Some (zget [] argv (i + 1)))] in
    if i + 1 <? argc - 1 then say s (chars " ") [] else s) s in
  (0, say s [10] []).

Definition marker (ty : file_type) : Z :=
  match ty with TYPE_DIRECTORY => 47 | TYPE_LINK => 64 | TYPE_DEVICE => 35 | _ => 32 end.

Definition run_ls (s : shell K) (argv : list (list Z)) : outcome (Z * shell K) :=
  let path := match argv with _ :: p :: _ => p | _ => current_directory s end in
  let* (dir, s) := find_path s path in
  if dir =? 0 then Done (1, say s (line "ls: cannot access '%s': No such file or directory") [AStr (Some path)])
  else
    let* f := getf (tree (wfs (sw s))) dir in
    if negb (bool_decide (ftype f = TYPE_DIRECTORY)) then Done (0, say s (line "%s") [AStr (Some (fname f))])
    else
      let* t := scan (tree (wfs (sw s))) dir in
      let s := set_sw s ((sw s) <| wfs ::= fun fs => set_tree fs t |>) in
      let s := say s (line "Contents of %s:") [AStr (Some path)] in
      let* f := getf t dir in
      let* s := loop fuel (fun '(s, child) =>
        if child =? 0 then Done (inr s)
        else
          let* c := getf t child in
          Done (inl (say s (line "  %s%c") [AStr (Some (fname c)); AInt (marker (ftype c))], fnext c))) (s, fchild f) in
      Done (0, s).

Definition run_pwd (s : shell K) : Z * shell K := (0, say s (line "%s") [AStr (Some (current_directory s))]).

(** The loop of [cmd_cat]: the file in chunks of 512 bytes, until a read gives nothing. *)
Definition cat_loop (s : shell K) (file buffer file_size : Z) : outcome (shell K) :=
  loop fuel (fun '(s, offset) =>
    if offset <? file_size then
      let to_read := Z.min (file_size - offset) 512 in
      let* (read, w) := file_read (sw s) file offset buffer to_read in
      let s := set_sw s w in
      if read =? 0 then Done (inr s)
      else
        let bytes := map (fun i => load8 (sh_mem s) (buffer + Z.of_nat i)) (seq 0 (Z.to_nat read)) in
        Done (inl (s <| out ::= fun l => l ++ [Put bytes] |>, u32 (offset + read)))
    else Done (inr s)) (s, 0).

Definition run_cat (s : shell K) (argv : list (list Z)) : outcome (Z * shell K) :=
  match argv with
  | _ :: name :: _ =>
    let* (full_path, s) := get_full_path s name in
    if full_path =? 0 then Done (1, say s (line "cat: memory allocation failed") [])
    else
      let* (file, s) := find_path_at s full_path in
      let* s := sh_free s full_path in
      if file =? 0 then Done (1, say s (line "cat: %s: No such file or directory") [AStr (Some name)])
      else
        let* f := getf (tree (wfs (sw s))) file in
        if bool_decide (ftype f = TYPE_DIRECTORY) then Done (1, say s (line "cat: %s: Is a directory") [AStr (Some name)])
        else if fsize f =? 0 then Done (0, say s [10] [])
        else
          let* (buffer, s) := sh_alloc s 512 in
          if buffer =? 0 then Done (1, say s (line "cat: unable to allocate buffer") [])
          else
            let* s := cat_loop s file buffer (fsize f) in
            let* s := sh_free s buffer in
            Done (0, say s [10] [])
  | _ => Done (1, say s (line "Usage: cat <filename>") [])
  end.

(** The name of a state; [ZOMBIE] is never reached, it is [RUNNING]. *)
Definition state_str (st : Z) : list Z :=
  if (st =? RUNNING) || (st =? CHILD) then chars "RUNNING"
  else if st =? READY then chars "READY"
  else if st =? SLEEPING then chars "SLEEPING"
  else if st =? ZOMBIE then chars "ZOMBIE"
  else chars "INVALID".

Definition run_ps (s : shell K) : outcome (Z * shell K) :=
  let s := say s (line "PID  PPID STATE      CMD") [] in
  let w := sw s in
  if plist w =? 0 then Done (0, say s (line "No processes running") [])
  else
    let* s := loop fuel (fun '(s, p) =>
      let* pr := getp w p in
      let* ppid := if negb (pparent pr =? 0) then getPid w (pparent pr) else Done 0 in
      let* f := getf (tree (wfs w)) p in
      let s := say s (line "%3d  %4d %-10s %s") [AInt (pid pr); AInt ppid; AStr (Some (state_str (state pr))); AStr (Some (fname f))] in
      Done (if negb (pnext pr =? 0) && negb (pnext pr =? plist w) then inl (s, pnext pr) else inr s)) (s, plist w) in
    Done (0, s).

Definition run_mem (s : shell K) : outcome (Z * shell K) :=
  let total_frames := frame_count (wmm (sw s)) in
  let used_frames := frames_used (wmm (sw s)) in
  let free_frames := u32 (total_frames - used_frames) in
  let total_kb := u32 (total_frames * 4) in
  let used_kb := u32 (used_frames * 4) in
  let free_kb := u32 (free_frames * 4) in
  if total_frames =? 0 then Stuck
  else
    let usage_percent := u32 (used_frames * 100) / total_frames in
    let s := say s (line "Memory Information:") [] in
    let s := say s (line "  Total Memory:    %d MB (%d KB)") [AInt (total_kb / 1024); AInt total_kb] in
    let s := say s (line "  Used Memory:     %d MB (%d KB)") [AInt (used_kb / 1024); AInt used_kb] in
    let s := say s (line "  Free Memory:     %d MB (%d KB)") [AInt (free_kb / 1024); AInt free_kb] in
    let s := say s (line "  Usage:           %d%%") [AInt usage_percent] in
    let s := say s (line "  Frame Size:      4 KB") [] in
    let s := say s (line "  Total Frames:    %d") [AInt total_frames] in
    let s := say s (line "  Used Frames:     %d") [AInt used_frames] in
    Done (0, say s (line "  Free Frames:     %d") [AInt free_frames]).

(** The sums over the swap devices: their number, and the KB there are and in use. *)
Definition swap_totals (s : mm K) : outcome (Z * Z * Z) :=
  loop fuel (fun '(dev, n, total, used) =>
    if dev =? 0 then Done (inr (n, total, used))
    else Done (inl (mload s (dev + sd_next), u32 (n + 1), u32 (total + mload s (dev + sd_pages) * 4),
                    u32 (used + mload s (dev + sd_inuse) * 4)))) (swap_devices (swapm s), 0, 0, 0).

Definition swap_lines (s : shell K) : outcome (shell K) :=
  let m := wmm (sw s) in
  loop fuel (fun '(s, dev, idx) =>
    if dev =? 0 then Done (inr s)
    else
      let* path := string_at fuel (sh_mem s) (mload m (dev + sd_path)) in
      let type_str := if mload m (dev + sd_type) =? 1 then chars "device" else chars "file" in
      let s := say s (line "  [%d] %s (%s): %d MB / %d MB")
        [AInt idx; AStr (Some path); AStr (Some type_str); AInt (u32 (mload m (dev + sd_inuse) * 4) / 1024);
         AInt (u32 (mload m (dev + sd_pages) * 4) / 1024)] in
      Done (inl (s, mload m (dev + sd_next), idx + 1))) (s, swap_devices (swapm m), 0).

Definition run_swap (s : shell K) : outcome (Z * shell K) :=
  let* (device_count, total_swap, used_swap) := swap_totals (wmm (sw s)) in
  let free_swap := u32 (total_swap - used_swap) in
  let s := say s (line "Swap Information:") [] in
  let s := say s (line "  Total Swap:       %d MB (%d KB)") [AInt (total_swap / 1024); AInt total_swap] in
  let s := say s (line "  Used Swap:        %d MB (%d KB)") [AInt (used_swap / 1024); AInt used_swap] in
  let s := say s (line "  Free Swap:        %d MB (%d KB)") [AInt (free_swap / 1024); AInt free_swap] in
  let s := say s (line "  Swap Devices:     %d") [AInt device_count] in
  if 0 <? device_count then
    let usage_percent := if 0 <? total_swap then u32 (used_swap * 100) / total_swap else 0 in
    let s := say s (line "  Swap Usage:       %d%%") [AInt usage_percent] in
    let s := say s ([10] ++ line "Swap Devices:") [] in
    let* s := swap_lines s in Done (0, s)
  else Done (0, s).

(** Days, hours, minutes and seconds of a time in milliseconds. *)
Definition uptime_parts (uptime_ms : Z) : Z * Z * Z * Z :=
  let seconds := uptime_ms / 1000 in
  let minutes := seconds / 60 in
  let hours := minutes / 60 in
  let days := hours / 24 in
  (days, hours mod 24, minutes mod 60, seconds mod 60).

Definition run_uptime (s : shell K) : outcome (Z * shell K) :=
  let* uptime_ms := get_uptime_ms (wpit (sw s)) in
  let '(days, hours, minutes, seconds) := uptime_parts uptime_ms in
  let s := say s (line "System uptime: %d days, %d hours, %d minutes, %d seconds")
    [AInt (u32 days); AInt (u32 hours); AInt (u32 minutes); AInt (u32 seconds)] in
  Done (0, say s (line "Timer ticks: %d") [AInt (u32 (Pit.get_ticks (wpit (sw s))))]).

Definition run_uname (s : shell K) : Z * shell K :=
  let s := say s (line "kmOS 1.0 x86 kernel") [] in
  (0, say s (line "Created by: @kkmonlee") []).

Definition shell_exit (s : shell K) (code : Z) : shell K :=
  say (s <| running := false |> <| exit_code := code |>) (line "Goodbye!") [].

(** The digits of the argument, an [int] that may not overflow. *)
Definition exit_value (a : list Z) : outcome Z :=
  foldl (fun code c =>
    let* code := code in
    if is_digit_char c then (if 2 ^ 31 <=? code * 10 + (c - 48) then Stuck else Done (code * 10 + (c - 48))) else Done code)
    (Done 0) a.

Definition run_exit (s : shell K) (argv : list (list Z)) : outcome (Z * shell K) :=
  let* code := match argv with _ :: a :: _ => exit_value a | _ => Done 0 end in
  Done (code, shell_exit s code).

Definition not_implemented (s : shell K) (format : list Z) : Z * shell K := (1, say s format []).

Definition run_command (c : command) (s : shell K) (argv : list (list Z)) : outcome (Z * shell K) :=
  match c with
  | cmd_help => Done (run_help s)
  | cmd_echo => Done (run_echo s argv)
  | cmd_clear => Done (0, clear_screen s)
  | cmd_ls => run_ls s argv
  | cmd_cd => run_cd s argv
  | cmd_pwd => Done (run_pwd s)
  | cmd_cat => run_cat s argv
  | cmd_mkdir => Done (not_implemented s (line "mkdir: command not yet implemented"))
  | cmd_rm => Done (not_implemented s (line "rm: command not yet implemented"))
  | cmd_cp => Done (not_implemented s (line "cp: command not yet implemented"))
  | cmd_mv => Done (not_implemented s (line "mv: command not yet implemented"))
  | cmd_ps => run_ps s
  | cmd_mem => run_mem s
  | cmd_swap => run_swap s
  | cmd_uptime => run_uptime s
  | cmd_uname => Done (run_uname s)
  | cmd_exit => run_exit s argv
  end.

Definition execute_command (s : shell K) (args : list (list Z)) : outcome (Z * shell K) :=
  match args with
  | [] => Done (0, s)
  | name :: _ =>
    match find_command name with
    | Some c => run_command c s args
    | None =>
      let s := say s (line "Command not found: %s") [AStr (Some name)] in
      Done (1, say s (line "Type 'help' for a list of available commands.") [])
    end
  end.

(** ** [run]: the lines are what [read_line] returns, one after the other; when
    they run out it waits for ever *)

Definition print_prompt (s : shell K) : shell K := say s (chars "kmOS:%s$ ") [AStr (Some (current_directory s))].

Definition run_line (s : shell K) (static command_buffer : list Z) : outcome (shell K * list Z) :=
  if 0 <? zlen command_buffer then
    let* (static, args) := parse_command static command_buffer in
    let argv := arg_strings static args in
    if 0 <? zlen argv then
      let* s := add_to_history s command_buffer in
      let* (_, s) := execute_command s argv in
      Done (s, static)
    else Done (s, static)
  else Done (s, static).

Fixpoint run_loop (s : shell K) (static : list Z) (lines : list (list Z)) : outcome (shell K) :=
  if running s then
    let s := print_prompt s in
    match lines with
    | [] => OutOfFuel
    | l :: lines => let* (s, static) := run_line s static l in run_loop s static lines
    end
  else Done (say s (line "Shell exiting with code %d") [AInt (exit_code s)]).

Definition print_banner (s : shell K) : shell K :=
  let s := clear_screen s in
  let s := say s (line "╔════════════════════════════════════════════════════════════════════════════════╗") [] in
  let s := say s (line "║                                    kmOS Shell                                  ║") [] in
  let s := say s (line "║                              Welcome to kmOS v1.0                              ║") [] in
  let s := say s (line "╚════════════════════════════════════════════════════════════════════════════════╝") [] in
  let s := say s [10] [] in
  say s (line "Type 'help' for a list of available commands." ++ [10]) [].

Definition shell_run (s : shell K) (static : list Z) (lines : list (list Z)) : outcome (shell K) :=
  run_loop (print_banner s <| running := true |>) static lines.

End Shell.
