(* ===== verification/ShellSpec.v ===== *)
(** The shell's parser is a tokenizer, and what becomes of paths.

    [words] is the reference: words separated by blanks, quotes taken out and
    protecting blanks, at most 31 of them before the rest of the line is taken
    as it is.  [parse_command] does the same in place, in its static buffer,
    and writes behind its array when there are 32. *)

From Stdlib Require Import ZArith Lia String.
From stdpp Require Import base list gmap option.
From coqutil Require Import Datatypes.RecordSetters.
From S2P Require Import Prelude Memory Strings Bytes Chars KAlloc Bump Mm Filesystem Process ArchSpec Vfs Syscalls Console Shell.
Import TriangleBracketNotations.

(** ** Positions in a buffer *)

Lemma zget_middle (a : list Z) c b : zget 0 (a ++ c :: b) (zlen a) = c.
Proof.
  unfold zget, zlen. rewrite decide_True by lia. rewrite Nat2Z.id, app_nth2, Nat.sub_diag by lia. done.
Qed.

Lemma zset_middle (a : list Z) c b v : zset (a ++ c :: b) (zlen a) v = a ++ v :: b.
Proof.
  unfold zset, zlen. rewrite decide_True by lia. rewrite Nat2Z.id, insert_app_r_alt, Nat.sub_diag by lia. done.
Qed.

Lemma zlen_snoc' {A} (l : list A) x : zlen (l ++ [x]) = zlen l + 1.
Proof. unfold zlen. rewrite length_app. simpl. lia. Qed.

Lemma zget_next (a : list Z) c d b : zget 0 (a ++ c :: d :: b) (zlen a + 1) = d.
Proof.
  rewrite <- (zlen_snoc' a c). replace (a ++ c :: d :: b) with ((a ++ [c]) ++ d :: b) by (by rewrite <- app_assoc).
  apply zget_middle.
Qed.

(** Taking out the character at [i]: the rest of the string moves down. *)
Lemma shift_down_spec a c s g :
  text (c :: s) → shift_down (a ++ (c :: s) ++ 0 :: g) (zlen a) = Done (a ++ s ++ 0 :: 0 :: g).
Proof.
  intros Ht. unfold shift_down.
  cut (∀ n s c a, text (c :: s) → (S (length s) < n)%nat → while n (fun '(b, j) => negb (zget 0 b j =? 0))
    (fun '(b, j) => (zset b j (zget 0 b (j + 1)), j + 1)) (a ++ (c :: s) ++ 0 :: g, zlen a)
    = Done (a ++ s ++ 0 :: 0 :: g, zlen a + zlen (c :: s))).
  { intros Hcut. rewrite Hcut; [done|done|]. rewrite !length_app. simpl. lia. }
  clear a c s Ht. unfold while. induction n as [|n IH]; intros s c a Ht Hn; [lia|]. cbn [loop].
  apply list.Forall_cons_1 in Ht as [Hc Ht]. cbn [app]. rewrite zget_middle.
  rewrite (proj2 (Z.eqb_neq c 0)) by lia. cbn [negb obind].
  destruct s as [|d s]; cbn [app].
  - rewrite zget_next, zset_middle. destruct n as [|n]; [simpl in Hn; lia|]. cbn [loop].
    replace (zlen a + 1) with (zlen (a ++ [0])) by apply zlen_snoc'.
    replace (a ++ 0 :: 0 :: g) with ((a ++ [0]) ++ 0 :: g) at 1 by (by rewrite <- app_assoc).
    rewrite zget_middle. cbn [Z.eqb negb obind]. by rewrite zlen_snoc'.
  - rewrite zget_next, zset_middle.
    replace (zlen a + 1) with (zlen (a ++ [d])) by apply zlen_snoc'.
    replace (a ++ d :: d :: s ++ 0 :: g) with ((a ++ [d]) ++ (d :: s) ++ 0 :: g) by (by rewrite <- app_assoc).
    rewrite IH by (done || simpl in Hn; lia). rewrite zlen_snoc', <- app_assoc. cbn [app]. do 2 f_equal.
    unfold zlen. simpl. lia.
Qed.

(** ** The reference *)

Definition nonempty (w : list Z) : list (list Z) := match w with [] => [] | _ => [w] end.

Fixpoint drop_blanks (s : list Z) : list Z :=
  match s with
  | [] => []
  | c :: s' => if is_blank c then drop_blanks s' else s
  end.

(** The words of [s] behind the part [cur] of one, with [n] words before:
    [q] is inside quotes. *)
Fixpoint words (s : list Z) (q : bool) (cur : list Z) (n : Z) : list (list Z) :=
  match s with
  | [] => nonempty cur
  | c :: s =>
    if c =? QUOTE then words s (negb q) cur n
    else if negb q && is_blank c then
      match cur with
      | [] => words s q [] n
      | _ => cur :: (if n + 1 <? MAX_ARGS - 1 then words s q [] (n + 1) else nonempty (drop_blanks s))
      end
    else words s q (cur ++ [c]) n
  end.

Lemma words_drop_blanks s n : words (drop_blanks s) false [] n = words s false [] n.
Proof.
  induction s as [|c s IH]; [done|]. cbn [drop_blanks words]. destruct (is_blank c) eqn:Hb; [|by cbn [words]; rewrite Hb].
  rewrite IH. destruct (Z.eqb_spec c QUOTE) as [->|]; [done|]. done.
Qed.

Lemma drop_blanks_split s : ∃ b, s = b ++ drop_blanks s ∧ Forall (λ c, is_blank c = true) b.
Proof.
  induction s as [|c s (b & E & Hb)]; [by exists []|]. cbn [drop_blanks]. destruct (is_blank c) eqn:Hc; [|by exists []].
  exists (c :: b). split; [cbn; by rewrite <- E|by constructor].
Qed.

Lemma words_length s q cur n : 0 <= n < 31 → n + zlen (words s q cur n) <= 32.
Proof.
  unfold zlen. revert q cur n. induction s as [|c s IH]; intros q cur n Hn; cbn [words].
  { destruct cur; simpl; lia. }
  destruct (c =? QUOTE); [by apply IH|]. destruct (negb q && is_blank c); [|by apply IH].
  destruct cur as [|d cur]; [by apply IH|]. change (MAX_ARGS - 1) with 31. cbn [length].
  destruct (Z.ltb_spec (n + 1) 31); [specialize (IH q [] (n + 1) ltac:(lia)); lia|].
  destruct (drop_blanks s); simpl; lia.
Qed.

(** Skipping blanks from the one before [s]. *)
Lemma skip_spec fuel a c s g :
  (length s < fuel)%nat →
  while fuel (fun i => is_blank (zget 0 (a ++ c :: s ++ 0 :: g) (i + 1))) (fun i => i + 1) (zlen a)
  = Done (zlen a + (zlen s - zlen (drop_blanks s))).
Proof.
  unfold while. revert a c s. induction fuel as [|fuel IH]; intros a c s Hf; [lia|]. cbn [loop].
  destruct s as [|d s]; cbn [app].
  { rewrite zget_next. cbn. by rewrite Z.add_0_r. }
  rewrite zget_next. cbn [drop_blanks]. destruct (is_blank d) eqn:Hd; cbn [obind]; [|by rewrite Z.sub_diag, Z.add_0_r].
  rewrite <- (zlen_snoc' a c). replace (a ++ c :: d :: s ++ 0 :: g) with ((a ++ [c]) ++ d :: s ++ 0 :: g) by (by rewrite <- app_assoc).
  rewrite IH by (simpl in Hf; lia). f_equal. rewrite zlen_snoc'. unfold zlen. simpl. lia.
Qed.

(** ** The invariant *)

(** The pointers [args] into the finished part [p] of the buffer are the strings [ws]. *)
Definition finished (p : list Z) (args : list Z) (ws : list (list Z)) : Prop :=
  Forall2 (fun a w => ∀ g, c_str (drop (Z.to_nat a) (p ++ g)) = w) args ws.

Lemma finished_app p x args ws : finished p args ws → finished (p ++ x) args ws.
Proof. intros H. eapply Forall2_impl; [|exact H]. intros a w Ha g. rewrite <- app_assoc. apply Ha. Qed.

Lemma finished_snoc p w x args ws :
  finished p args ws → text w → finished (p ++ w ++ 0 :: x) (args ++ [zlen p]) (ws ++ [w]).
Proof.
  intros H Hw. apply Forall2_app; [by apply finished_app|]. constructor; [|constructor]. intros g.
  unfold zlen. rewrite Nat2Z.id, <- app_assoc, drop_app_length, <- app_assoc. cbn [app]. by apply c_str_text.
Qed.

Lemma finished_strings p g args ws : finished p args ws → arg_strings (p ++ g) args = ws.
Proof. induction 1 as [|a w args ws Ha _ IH]; [done|]. cbn [arg_strings map]. by rewrite Ha, <- IH at 1. Qed.

Definition finish (r : list Z * list Z * Z) : outcome (list Z * list Z) :=
  let '(buffer, args, token) := r in
  let* args := if negb (zget 0 buffer token =? 0) then push_arg args token else Done args in
  let* _ := push_arg args 0 in
  Done (buffer, args).

Definition parsed (ws : list (list Z)) (r : outcome (list Z * list Z)) : Prop :=
  if zlen ws <? MAX_ARGS then ∃ buffer args, r = Done (buffer, args) ∧ arg_strings buffer args = ws ∧ zlen buffer = MAX_COMMAND_LENGTH
  else r = Stuck.

Lemma finished_length p args ws : finished p args ws → zlen args = zlen ws.
Proof. intros H. unfold zlen. by rewrite (Forall2_length H). Qed.

Lemma finish_spec p cur g args ws :
  finished p args ws → text cur → zlen args <= 31 → zlen (p ++ cur ++ 0 :: g) = MAX_COMMAND_LENGTH →
  parsed (ws ++ nonempty cur) (finish (p ++ cur ++ 0 :: g, args, zlen p)).
Proof.
  intros Hf Hcur Hn Hlen. pose proof (finished_length _ _ _ Hf) as Hal. unfold finish, parsed, push_arg.
  change (Z.of_nat (length args)) with (zlen args). change MAX_ARGS with 32 in *.
  destruct cur as [|c cur]; cbn [app nonempty].
  - rewrite zget_middle. cbn [Z.eqb negb obind].
    change (Z.of_nat (length args)) with (zlen args). rewrite (app_nil_r ws), Hal. rewrite !(proj2 (Z.ltb_lt (zlen ws) 32)) by lia. cbn [obind].
    eexists _, _. split; [done|]. split; [by apply finished_strings|done].
  - rewrite zget_middle. apply list.Forall_cons_1 in Hcur as [Hc Hcur']. rewrite (proj2 (Z.eqb_neq c 0)) by lia. cbn [negb].
    rewrite (proj2 (Z.ltb_lt (zlen args) 32)) by lia. cbn [obind].
    change (Z.of_nat (length (args ++ [zlen p]))) with (zlen (args ++ [zlen p])). rewrite !zlen_snoc', Hal.
    destruct (zlen ws + 1 <? 32); [|done]. cbn [obind]. eexists _, _. split; [done|]. split; [|done].
    pose proof (finished_snoc p (c :: cur) [] args ws Hf ltac:(by constructor)) as Hf'.
    replace (p ++ c :: cur ++ 0 :: g) with ((p ++ (c :: cur) ++ [0]) ++ g) by (by rewrite <- !app_assoc).
    by apply finished_strings.
Qed.

(** Lengths of concatenations. *)
Ltac len := unfold zlen in *; repeat (rewrite length_app in * || cbn [length app] in * ); lia.

Lemma zlen_app2 (p cur : list Z) : zlen p + zlen cur = zlen (p ++ cur).
Proof. by rewrite zlen_app. Qed.

Lemma token_char (p cur x : list Z) : zget 0 ((p ++ cur) ++ 0 :: x) (zlen p) = hd 0 cur.
Proof. rewrite <- app_assoc. destruct cur; cbn [app]; by rewrite zget_middle. Qed.

(** The blanks behind a token, the first of them overwritten. *)
Lemma blank_split p cur s g :
  text s → ∃ b, text (drop_blanks s) ∧ (length (drop_blanks s) <= length s)%nat ∧
    (p ++ cur) ++ 0 :: s ++ 0 :: g = (p ++ cur ++ 0 :: b) ++ [] ++ drop_blanks s ++ 0 :: g ∧
    zlen (p ++ cur) + (zlen s - zlen (drop_blanks s)) + 1 = zlen (p ++ cur ++ 0 :: b).
Proof.
  intros Hs. destruct (drop_blanks_split s) as (b & Es & Hb). set (s' := drop_blanks s) in *. exists b.
  split; [rewrite Es in Hs; by apply Forall_app in Hs as [_ ?]|]. split; [rewrite Es; len|]. split.
  - rewrite Es at 1. by rewrite <- !app_assoc.
  - rewrite Es at 1. len.
Qed.

Lemma parse_loop fuel p cur s g q args ws :
  finished p args ws → text cur → text s → zlen args < 31 →
  zlen (p ++ cur ++ s ++ 0 :: g) = MAX_COMMAND_LENGTH → (length s < fuel)%nat →
  parsed (ws ++ words s q cur (zlen args))
    (let* r := loop fuel parse_step (p ++ cur ++ s ++ 0 :: g, args, zlen p, q, zlen p + zlen cur) in finish r).
Proof.
  revert p cur s g q args ws. induction fuel as [|fuel IH]; intros p cur s g q args ws Hf Hcur Hs Hn Hlen Hfuel; [lia|].
  cbn [loop]. unfold parse_step at 1. rewrite zlen_app2.
  destruct s as [|c s]; cbn [app words].
  { rewrite app_assoc, zget_middle. cbn [Z.eqb negb andb obind]. rewrite <- app_assoc. by apply finish_spec; [..|lia|]. }
  rewrite app_assoc, zget_middle. apply list.Forall_cons_1 in Hs as [Hc Hs]. cbn [length] in Hfuel.
  rewrite (proj2 (Z.eqb_neq c 0)) by lia. change (Z.of_nat (length args)) with (zlen args).
  change (MAX_ARGS - 1) with 31 in *. rewrite (proj2 (Z.ltb_lt (zlen args) 31)) by lia. cbn [negb andb].
  destruct (Z.eqb_spec c QUOTE) as [->|Hq].
  - replace ((p ++ cur) ++ QUOTE :: s ++ 0 :: g) with ((p ++ cur) ++ (QUOTE :: s) ++ 0 :: g) by done.
    rewrite shift_down_spec by (by constructor). cbn [obind]. rewrite <- app_assoc, <- zlen_app2.
    apply IH; [done|done|done|done|len|lia].
  - destruct (negb q && is_blank c) eqn:Hblank.
    2:{ cbn [obind]. rewrite <- (zlen_snoc' (p ++ cur) c).
        replace ((p ++ cur) ++ c :: s ++ 0 :: g) with (p ++ (cur ++ [c]) ++ s ++ 0 :: g) by (by rewrite <- !app_assoc).
        replace (zlen ((p ++ cur) ++ [c])) with (zlen p + zlen (cur ++ [c])) by len.
        apply IH; [done|by apply Forall_app; split; [|by constructor]|done|done|len|lia]. }
    rewrite zset_middle. apply andb_true_iff in Hblank as [->%negb_true_iff _].
    destruct (blank_split p cur s g Hs) as (b & Hs' & Hls' & EB & EI). set (s' := drop_blanks s) in *.
    rewrite (skip_spec _ (p ++ cur) 0 s g) by len. fold s'.
    assert (zlen ((p ++ cur ++ 0 :: b) ++ [] ++ s' ++ 0 :: g) = MAX_COMMAND_LENGTH) as Hlen'.
    { rewrite <- EB, <- Hlen. len. }
    rewrite token_char. destruct cur as [|d cur]; cbn [hd].
    + cbn [Z.eqb negb obind]. rewrite EI, EB.
      replace (loop fuel parse_step _) with (loop fuel parse_step ((p ++ [] ++ 0 :: b) ++ [] ++ s' ++ 0 :: g, args,
        zlen (p ++ [] ++ 0 :: b), false, zlen (p ++ [] ++ 0 :: b) + zlen (@nil Z))) by (do 3 f_equal; len).
      rewrite <- words_drop_blanks. fold s'. apply IH; [by apply finished_app|constructor|done|done|done|lia].
    + assert (0 < d) as Hd by (apply list.Forall_cons_1 in Hcur as [? _]; lia).
      rewrite (proj2 (Z.eqb_neq d 0)) by lia. cbn [negb]. unfold push_arg.
      change (Z.of_nat (length args)) with (zlen args). change MAX_ARGS with 32. rewrite (proj2 (Z.ltb_lt (zlen args) 32)) by lia.
      cbn [obind]. rewrite EI, EB. set (P := p ++ (d :: cur) ++ 0 :: b) in *.
      pose proof (finished_snoc p (d :: cur) b args ws Hf Hcur) as Hf'. fold P in Hf'.
      change (32 - 1) with 31. set (tl := if _ : bool then _ else _). change ((d :: cur) :: tl) with ([d :: cur] ++ tl). rewrite (app_assoc ws). subst tl.
      destruct (Z.ltb_spec (zlen args + 1) 31).
      * replace (loop fuel parse_step _) with (loop fuel parse_step (P ++ [] ++ s' ++ 0 :: g, args ++ [zlen p],
          zlen P, false, zlen P + zlen (@nil Z))) by (do 2 f_equal; len).
        rewrite <- words_drop_blanks. fold s'. rewrite <- (zlen_snoc' args (zlen p)).
        apply IH; [done|constructor|done|rewrite zlen_snoc'; lia|done|lia].
      * destruct fuel as [|fuel]; [lia|]. cbn [loop]. unfold parse_step at 1.
        assert ((Z.of_nat (length (args ++ [zlen p])) <? MAX_ARGS - 1) = false) as ->.
        { apply Z.ltb_ge. change (MAX_ARGS - 1) with 31. len. }
        rewrite andb_false_r. cbn [obind app]. apply finish_spec; [done|done|rewrite zlen_snoc'; lia|done].
Qed.

(** C25. [parse_command] is the reference tokenizer.  On a line that fits the
    buffer it ends, and the strings its arguments point to are the words of the
    line: separated by blanks, with quotes taken out and blanks inside quotes
    kept; after 31 words the rest of the line is one argument, quotes and all.
    When that makes 32 arguments the null pointer is written behind the array. *)
Theorem parse_command_spec static input :
  text input → zlen input < MAX_COMMAND_LENGTH → zlen static = MAX_COMMAND_LENGTH →
  parsed (words input false [] 0) (parse_command static input).
Proof.
  intros Ht Hl Hs. unfold parse_command.
  assert (splice 0 (input ++ [0]) static = [] ++ [] ++ input ++ 0 :: drop (S (length input)) static) as ->.
  { unfold splice. change (Z.to_nat 0) with 0%nat. rewrite take_0. cbn [app Nat.add]. rewrite length_app, Nat.add_1_r.
    by rewrite <- app_assoc. }
  apply (parse_loop _ [] [] input (drop (S (length input)) static) false [] []); [constructor|constructor|done|done| |lia].
  change MAX_COMMAND_LENGTH with 512 in *. unfold zlen in *. cbn [app]. rewrite length_app. cbn [length]. rewrite length_drop. lia.
Qed.

(** ** Paths *)

Section Paths.
Context {K : Type} `{KAllocLaws K}.
Variable fuel : nat.

Lemma sh_mem_set (s : shell K) m : sh_mem (set_mem s m) = m.
Proof. unfold sh_mem, set_mem, kmemory, set_kmemory. apply kmem_with. Qed.

(** [dir/file], with one slash between them. *)
Definition joined (dir file : list Z) : list Z :=
  dir ++ (if (0 <? zlen dir) && negb (zget 0 dir (zlen dir - 1) =? SLASH) then [SLASH] else []) ++ file.

(** The path of a relative name.  [join_path] makes [dir/file] when the
    block that [kmalloc] returns holds zeroes where the name will be; it relies
    on that, since neither [strcat] writes a terminator. *)
Theorem join_path_spec (s : shell K) dir file q s1 :
  text dir → text file → sh_alloc s (zlen dir + zlen file + 2) = Done (q, s1) → q ≠ 0 →
  (∀ i, zlen dir < i < zlen dir + zlen file + 2 → load8 (sh_mem s1) (q + i) = 0) → (length (joined dir file) < fuel)%nat →
  ∃ s2, join_path fuel s dir file = Done (q, s2) ∧ cstr (sh_mem s2) q (joined dir file).
Proof.
  intros Hd Hf Ha Hq Hz Hfuel. pose proof (zlen_nonneg dir). pose proof (zlen_nonneg file).
  unfold join_path. rewrite Ha. cbn [obind]. rewrite (proj2 (Z.eqb_neq q 0)) by done.
  destruct (strcpy_chars_spec (sh_mem s1) q dir Hd) as [Hc Ho]. set (m1 := strcpy_chars (sh_mem s1) q dir) in *.
  assert (∃ d m2, (if (0 <? zlen dir) && negb (zget 0 dir (zlen dir - 1) =? SLASH) then strcat_chars fuel m1 q [SLASH] else Done m1)
    = Done m2 ∧ joined dir file = d ++ file ∧ cstr m2 q d ∧ load8 m2 (q + zlen d + zlen file) = 0) as (d & m2 & -> & Ej & Hc2 & Hz2).
  { unfold joined in *. destruct ((0 <? zlen dir) && _).
    - destruct (strcat_chars_spec fuel m1 q dir [SLASH]) as (m2 & -> & Hc2 & Ho2); [done|by constructor| | |].
      + rewrite !length_app in Hfuel. lia.
      + change (zlen [SLASH]) with 1. rewrite <- Z.add_assoc, Ho by lia. apply Hz. lia.
      + exists (dir ++ [SLASH]), m2. split; [done|]. split; [by rewrite <- app_assoc|]. split; [done|].
        rewrite zlen_app. change (zlen [SLASH]) with 1 in *. rewrite Ho2, <- !Z.add_assoc, Ho by lia. apply Hz. lia.
    - exists dir, m1. split; [done|]. split; [done|]. split; [done|].
      destruct (decide (zlen file = 0)) as [->|]; [rewrite Z.add_0_r; by apply cstr_end|].
      rewrite <- Z.add_assoc, Ho by lia. apply Hz. lia. }
  cbn [obind]. rewrite Ej in *.
  destruct (strcat_chars_spec fuel m2 q d file) as (m3 & -> & Hc3 & _); [done|done|rewrite length_app in Hfuel; lia|done|].
  cbn [obind]. eexists. split; [done|]. by rewrite sh_mem_set.
Qed.

End Paths.

(** The last slash of a path. *)
Lemma last_position (P : nat → Prop) `{!∀ i, Decision (P i)} n i :
  (i < n)%nat → P i → (∀ j, (i < j < n)%nat → ¬ P j) → head (filter P (rev (seq 0 n))) = Some i.
Proof.
  induction n as [|n IH]; intros Hi HP Hj; [lia|]. rewrite seq_S, rev_app_distr. cbn [rev app Nat.add].
  destruct (decide (i = n)) as [->|]; [by rewrite filter_cons_True|].
  rewrite filter_cons_False by (apply Hj; lia). apply IH; [lia|done|]. intros j Hlt. apply Hj. lia.
Qed.

Lemma last_slash_spec dir name : SLASH ∉ name → last_slash (dir ++ SLASH :: name) = Some (length dir).
Proof.
  intros Hn. unfold last_slash. apply last_position.
  - rewrite length_app. simpl. lia.
  - apply zget_middle.
  - intros j Hj. rewrite length_app in Hj. cbn [length] in Hj. unfold zget. rewrite decide_True by lia. rewrite Nat2Z.id.
    rewrite app_nth2 by lia. destruct (j - length dir)%nat as [|k] eqn:E; [lia|]. cbn [nth]. intros Hs. apply Hn.
    rewrite <- Hs. apply list_elem_of_In, nth_In. lia.
Qed.

(** The parts of a time up. *)
Lemma uptime_parts_spec ms d h m s :
  0 <= ms → uptime_parts ms = (d, h, m, s) →
  ms / 1000 = ((d * 24 + h) * 60 + m) * 60 + s ∧ 0 <= h < 24 ∧ 0 <= m < 60 ∧ 0 <= s < 60.
Proof.
  intros Hms [= <- <- <- <-]. set (t := ms / 1000).
  pose proof (Z.div_mod t 60 ltac:(lia)). pose proof (Z.div_mod (t / 60) 60 ltac:(lia)).
  pose proof (Z.div_mod (t / 60 / 60) 24 ltac:(lia)).
  pose proof (Z.mod_pos_bound t 60 ltac:(lia)). pose proof (Z.mod_pos_bound (t / 60) 60 ltac:(lia)).
  pose proof (Z.mod_pos_bound (t / 60 / 60) 24 ltac:(lia)). lia.
Qed.

(** ** Concrete runs *)

Definition zero_buffer : list Z := replicate 512 0.

(** The line [a 'b c' d] with double quotes. *)
Definition quoted_line : list Z := [97; 32; 34; 98; 32; 99; 34; 32; 100].

Lemma parse_command_spec_witness : parsed [[97]; [98; 32; 99]; [100]] (parse_command zero_buffer quoted_line).
Proof.
  apply (parse_command_spec zero_buffer quoted_line); [unfold text, quoted_line; repeat constructor; lia|reflexivity|reflexivity].
Defined.

(** 32 words: the null pointer goes behind the array of 32. *)
Example too_many_arguments : parse_command zero_buffer (concat (replicate 32 [97; 32])) = Stuck.
Proof. vm_compute. reflexivity. Qed.

#[local] Instance base_files : FileOps bump := base_file_ops bump.

(** A shell in the directory "/a" on a heap whose free memory holds [m]. *)
Definition demo_shell (m : mem) : shell bump :=
  mk_shell ((ArchSpec.boot_world) <| wmm ::= fun s => set_kal s (mk_bump m 0x1000) |>) [47; 97] [] 0 true 0 [].

Definition joined_name (m : mem) : option (list Z) :=
  match join_path 20 (demo_shell m) [47; 97] [98] with
  | Done (q, s) => match string_at 20 (sh_mem s) q with Done n => Some n | _ => None end
  | _ => None
  end.

Definition after_alloc : shell bump :=
  match sh_alloc (demo_shell ∅) 5 with Done (_, s) => s | _ => demo_shell ∅ end.

Lemma after_alloc_fresh : sh_mem after_alloc = ∅.
Proof. vm_compute. reflexivity. Qed.

Definition at_1000 (r : outcome (Z * shell bump)) : bool :=
  match r with Done (q, _) => q =? 0x1000 | _ => false end.

Lemma after_alloc_result : sh_alloc (demo_shell ∅) 5 = Done (0x1000, after_alloc).
Proof.
  assert (at_1000 (sh_alloc (demo_shell ∅) 5) = true) as H by (vm_compute; reflexivity).
  unfold after_alloc. destruct (sh_alloc _ _) as [[q s]| |]; try discriminate H.
  apply Z.eqb_eq in H. by subst q.
Qed.

Lemma join_path_spec_witness :
  ∃ s2, join_path 20 (demo_shell ∅) [47; 97] [98] = Done (0x1000, s2) ∧ cstr (sh_mem s2) 0x1000 (joined [47; 97] [98]).
Proof.
  apply (join_path_spec 20 (demo_shell ∅) [47; 97] [98] 0x1000 after_alloc).
  - unfold text. repeat constructor; lia.
  - unfold text. repeat constructor; lia.
  - apply after_alloc_result.
  - lia.
  - rewrite after_alloc_fresh. intros i _. unfold load8, load. by rewrite lookup_empty, Z.shiftr_0_l, Z.land_0_l.
  - vm_compute. lia.
Defined.

(** On memory that was used before, here a block of [x], the name is longer. *)
Example join_path_on_used_memory : joined_name (store (store ∅ 0x1000 0x78787878) 0x1004 0x7878) = Some [47; 97; 47; 120; 120; 120; 98].
Proof. vm_compute. reflexivity. Qed.

(** A file that is no more than a [File] reads as 4294967295 bytes. *)
Example base_read_count : ∀ (w : world bump) fp pos buf size, base_read w fp pos buf size = Done (4294967295, w).
Proof. reflexivity. Qed.

(** A process that has exited is shown as running. *)
Example zombie_shown_running : state_str ZOMBIE = chars "RUNNING".
Proof. vm_compute. reflexivity. Qed.

(** [cd ..], [pwd] and [exit 3]. *)
Definition command_line (s : string) : list Z := chars s.
Example cd_pwd_exit :
  match run_loop 20 (fun t _ => Done t) ((demo_shell ∅) <| current_directory := command_line "/a/b" |> <| command_history := replicate 10 0 |>)
          zero_buffer [command_line "cd .."; command_line "exit 3"] with
  | Done s => Some (current_directory s, exit_code s, running s, history_count s)
  | _ => None
  end = Some (command_line "/a", 3, false, 2).
Proof. vm_compute. reflexivity. Qed.
