(* ===== verification/Cxx.v ===== *)
(** What the compiler calls: [src/src/kernel/runtime/divdi3.cc] and [cxx.cc].

    [__udivdi3] and [__umoddi3] are every [u64] division on the 32-bit machine:
    the schoolbook shift-and-subtract division.  For C++: guards of local
    statics, the canary of the stack protector, and [new] and [delete], which
    are [kmalloc] and [kfree].  [__cxa_finalize], [__cxa_pure_virtual],
    [__cxa_guard_abort] and [_Unwind_Resume] are empty. *)

From Stdlib Require Import ZArith Lia.
From stdpp Require Import base list gmap option.
From S2P Require Import Prelude Memory KAlloc.

(** ** 64-bit division *)

(** [r <<= 1; r |= (n >> i) & 1] for [i = 63 - j]. *)
Definition shift_in (n r i : Z) : Z := Z.lor (u64 (Z.shiftl r 1)) (Z.land (Z.shiftr n i) 1).

Definition __udivdi3 (n d : Z) : Z :=
  if d =? 0 then 0
  else
    fst (for_ 64 (fun j '(q, r) =>
      let i := 63 - j in
      let r := shift_in n r i in
      if d <=? r then (Z.lor q (u64 (Z.shiftl 1 i)), r - d) else (q, r)) (0, 0)).

Definition __umoddi3 (n d : Z) : Z :=
  if d =? 0 then 0
  else
    for_ 64 (fun j r =>
      let i := 63 - j in
      let r := shift_in n r i in
      if d <=? r then r - d else r) 0.

(** ** One round *)

Lemma shift_bit n i : 0 <= i → Z.shiftr n i = 2 * Z.shiftr n (i + 1) + Z.land (Z.shiftr n i) 1.
Proof.
  intros Hi. change 1 with (Z.ones 1) at 2. rewrite Z.land_ones by lia.
  rewrite <- Z.shiftr_shiftr by lia. rewrite (Z.shiftr_div_pow2 (Z.shiftr n i) 1) by lia.
  change (2 ^ 1) with 2. apply Z.div_mod. lia.
Qed.

(** The remainder register holds the dividend's high bits modulo [d], and no
    bit is lost by the shift, even for divisors above [2 ^ 63]. *)
Lemma shift_in_spec n d i :
  0 <= n < 2 ^ 64 → 0 < d → 0 <= i →
  shift_in n (Z.shiftr n (i + 1) mod d) i = 2 * (Z.shiftr n (i + 1) mod d) + Z.land (Z.shiftr n i) 1.
Proof.
  intros Hn Hd Hi. unfold shift_in. set (p := Z.shiftr n (i + 1)).
  assert (0 <= p ∧ 2 * p < 2 ^ 64) as [Hp0 Hp].
  { unfold p. rewrite Z.shiftr_div_pow2, Z.pow_add_r by lia.
    assert (0 < 2 ^ i) by (apply Z.pow_pos_nonneg; lia).
    split; [apply Z.div_pos; lia|]. change (2 ^ 1) with 2.
    pose proof (Z.mul_div_le n (2 ^ i * 2) ltac:(lia)). nia. }
  assert (0 <= p mod d <= p) by (split; [apply Z.mod_pos_bound; lia|apply Z.mod_le; lia]).
  assert (0 <= Z.land (Z.shiftr n i) 1 < 2).
  { change 1 with (Z.ones 1). rewrite Z.land_ones by lia. apply Z.mod_pos_bound. lia. }
  rewrite Z.shiftl_mul_pow2 by lia. change (2 ^ 1) with (2 ^ 1 * 1) at 1.
  rewrite u64_small by lia. rewrite Z.mul_1_r, lor_low_add by lia. lia.
Qed.

Lemma div_step p b d :
  0 < d → 0 <= p → 0 <= b < 2 →
  let r := 2 * (p mod d) + b in
  ((2 * p + b) mod d = if d <=? r then r - d else r) ∧
  ((2 * p + b) / d = 2 * (p / d) + if d <=? r then 1 else 0).
Proof.
  intros Hd Hp Hb r. pose proof (Z.div_mod p d ltac:(lia)). pose proof (Z.mod_pos_bound p d Hd).
  split.
  - symmetry. apply (Z.mod_unique_pos _ _ (2 * (p / d) + if d <=? r then 1 else 0)); subst r; case_if; lia.
  - symmetry. apply (Z.div_unique_pos _ _ _ (if d <=? r then r - d else r)); subst r; case_if; lia.
Qed.

Lemma land1_bound x : 0 <= Z.land x 1 < 2.
Proof. change 1 with (Z.ones 1). rewrite Z.land_ones by lia. apply Z.mod_pos_bound. lia. Qed.

Lemma shiftr_64 n : 0 <= n < 2 ^ 64 → Z.shiftr n 64 = 0.
Proof. intros. rewrite Z.shiftr_div_pow2 by lia. by apply Z.div_small. Qed.

(** ** The theorems *)

(** C30. [__udivdi3] is the 64-bit quotient, for every dividend and divisor,
    and 0 for a zero divisor instead of a trap. *)
Theorem udivdi3_spec n d :
  0 <= n < 2 ^ 64 → 0 <= d < 2 ^ 64 → __udivdi3 n d = if d =? 0 then 0 else n / d.
Proof.
  intros Hn Hd. unfold __udivdi3. case_if; [done|].
  set (body := fun (j : Z) '(q, r) => _).
  pose proof (for_inv (fun j '(q, r) =>
    r = Z.shiftr n (64 - j) mod d ∧ q = Z.shiftr n (64 - j) / d * 2 ^ (64 - j)) body 64 (0, 0)) as H.
  destruct (for_ 64 body (0, 0)) as [q r]. simpl.
  destruct H as [_ Hq]; [lia| | |].
  - change (64 - 0) with 64. rewrite shiftr_64 by done. by rewrite Z.mod_0_l, Z.div_0_l by lia.
  - intros j [q' r'] Hj [-> ->]. unfold body. replace (64 - j) with (63 - j + 1) by lia.
    rewrite shift_in_spec by lia.
    replace (64 - (j + 1)) with (63 - j) by lia. set (i := 63 - j) in *.
    pose proof (land1_bound (Z.shiftr n i)) as Hb. pose proof (shift_bit n i ltac:(lia)) as E.
    set (b := Z.land (Z.shiftr n i) 1) in *.
    assert (0 <= Z.shiftr n (i + 1)) as Hp by (apply Z.shiftr_nonneg; lia).
    rewrite E.
    destruct (div_step _ _ d ltac:(lia) Hp Hb) as [-> ->].
    assert (0 < 2 ^ i) by (apply Z.pow_pos_nonneg; lia).
    assert (2 ^ i < 2 ^ 64) by (apply Z.pow_lt_mono_r; lia).
    rewrite Z.pow_add_r by lia. change (2 ^ 1) with 2.
    case_if; split; try done; [|lia].
    rewrite Z.shiftl_1_l, u64_small by lia.
    replace (2 ^ i * 2) with (2 ^ (i + 1)) by (rewrite Z.pow_add_r; lia).
    rewrite lor_low_add by (rewrite ?Z.pow_add_r; lia). rewrite Z.pow_add_r by lia. lia.
  - rewrite Hq, Z.sub_diag, Z.shiftr_0_r, Z.mul_1_r. done.
Qed.

(** [__umoddi3] is the 64-bit remainder, and 0 for a zero divisor. *)
Theorem umoddi3_spec n d :
  0 <= n < 2 ^ 64 → 0 <= d < 2 ^ 64 → __umoddi3 n d = if d =? 0 then 0 else n mod d.
Proof.
  intros Hn Hd. unfold __umoddi3. case_if; [done|].
  set (body := fun (j r : Z) => _).
  pose proof (for_inv (fun j r => r = Z.shiftr n (64 - j) mod d) body 64 0) as H.
  rewrite H; [by rewrite Z.sub_diag, Z.shiftr_0_r|lia| |].
  - change (64 - 0) with 64. rewrite shiftr_64 by done. by rewrite Z.mod_0_l by lia.
  - intros j r' Hj ->. unfold body. replace (64 - j) with (63 - j + 1) by lia.
    rewrite shift_in_spec by lia.
    replace (64 - (j + 1)) with (63 - j) by lia. set (i := 63 - j) in *.
    pose proof (land1_bound (Z.shiftr n i)) as Hb. pose proof (shift_bit n i ltac:(lia)) as E.
    set (b := Z.land (Z.shiftr n i) 1) in *.
    assert (0 <= Z.shiftr n (i + 1)) as Hp by (apply Z.shiftr_nonneg; lia).
    rewrite E.
    by destruct (div_step _ _ d ltac:(lia) Hp Hb) as [-> _].
Qed.

Lemma udivdi3_spec_witness :
  __udivdi3 0xFFFFFFFFFFFFFFFF 0xFFFFFFFFFFFFFFFE = 1 ∧ __udivdi3 1000000007 0 = 0.
Proof.
  split; [rewrite (udivdi3_spec 0xFFFFFFFFFFFFFFFF 0xFFFFFFFFFFFFFFFE)
         |rewrite (udivdi3_spec 1000000007 0)]; (lia || reflexivity).
Defined.
Lemma umoddi3_spec_witness : __umoddi3 0xFFFFFFFFFFFFFFFF 0x8000000000000001 = 0x7FFFFFFFFFFFFFFE.
Proof. rewrite (umoddi3_spec 0xFFFFFFFFFFFFFFFF 0x8000000000000001); (lia || reflexivity). Defined.

(** ** C++ *)

(** The first byte of a guard is set once the static is made. *)
Definition cxa_guard_acquire (m : mem) (guard : Z) : Z := b2z (load8 m guard =? 0).
Definition cxa_guard_release (m : mem) (guard : Z) : mem := store8 m guard 1.

(** Destructors of statics are not kept: the kernel never ends. *)
Definition cxa_atexit (destructor parameter home : Z) : Z := 0.

Definition sizeof_guard : Z := 4.
Definition NEWLINE : Z := 10.

(** [a] is the address of [__stack_chk_guard]. *)
Definition stack_chk_guard_setup (m : mem) (a : Z) : mem :=
  let m := store8 m (a + (sizeof_guard - 1)) 255 in
  let m := store8 m (a + (sizeof_guard - 2)) NEWLINE in
  store8 m a 0.

(** [for (;;);], after a message *)
Definition stack_chk_fail (fuel : nat) : outcome unit := while fuel (fun _ => true) (fun u => u) tt.

Section New.
Context {K : Type} `{KAlloc K}.

Definition operator_new (k : K) (len : Z) : outcome (Z * K) := kmalloc k len.
Definition operator_new_array (k : K) (len : Z) : outcome (Z * K) := operator_new k len.
Definition operator_delete (k : K) (ptr : Z) : outcome K := kfree k ptr.
Definition operator_delete_sized (k : K) (ptr size : Z) : outcome K := kfree k ptr.
Definition operator_delete_array (k : K) (ptr : Z) : outcome K := operator_delete k ptr.
Definition operator_delete_array_sized (k : K) (ptr size : Z) : outcome K := operator_delete k ptr.

End New.

(** A local static is made once: after the release its guard is not acquired
    again, and the guards of other statics are not touched. *)
Lemma guard_once m g g' :
  cxa_guard_acquire (cxa_guard_release m g) g = 0 ∧
  (g' ≠ g → cxa_guard_acquire (cxa_guard_release m g) g' = cxa_guard_acquire m g').
Proof.
  unfold cxa_guard_acquire, cxa_guard_release. split; [by rewrite load8_store8_eq|].
  intros Hne. by rewrite load8_store8_ne by done.
Qed.

(** The canary is 0xFF0A0000 over a pointer that was null: it ends a string that
    is copied over it, and a line that is read over it. *)
Lemma canary_bytes m a :
  load8 m (a + 1) = 0 →
  let m' := stack_chk_guard_setup m a in
  load8 m' a = 0 ∧ load8 m' (a + 1) = 0 ∧ load8 m' (a + 2) = NEWLINE ∧ load8 m' (a + 3) = 255.
Proof.
  intros H1 m'. unfold m', stack_chk_guard_setup, sizeof_guard.
  split_and!; repeat (rewrite load8_store8_ne by lia); [|done|..]; by rewrite load8_store8_eq.
Qed.

(** A smashed stack stops the kernel for good. *)
Lemma stack_chk_fail_hangs fuel : stack_chk_fail fuel = OutOfFuel.
Proof. unfold stack_chk_fail, while. induction fuel as [|fuel IH]; [done|]. exact IH. Qed.
