(* ===== verification/Stats.v ===== *)
(** The figures the kernel reports: what the [print_stats] functions of
    [slub.cc], [cow.cc], [unified_alloc.cc] and [page_replacement.cc] compute
    before they print it.  Sums run over a list in memory and wrap at 32 bits;
    a hit rate is the percentage of hits, and is wrong from 42949673 hits on,
    where the product with 100 no longer fits. *)

From Stdlib Require Import ZArith Lia.
From stdpp Require Import base list gmap option.
From S2P Require Import Prelude Memory DList Buddy Slub KAlloc Mm Cow.

(** [for (x = head; x; x = x->next) acc = f(acc, x);] *)
Definition walk {A} (fuel : nat) (m : mem) (next : Z) (f : A → Z → A) (head : Z) (acc : A) : outcome A :=
  loop fuel (fun '(x, acc) =>
    Done (if x =? 0 then inr acc else inl (load m (x + next), f acc x))) (head, acc).

(** [(hits * 100) / (hits + misses)], when anything was counted. *)
Definition hit_rate (hits misses : Z) : option Z :=
  let n := u32 (hits + misses) in
  if 0 <? n then Some (u32 (hits * 100) / n) else None.

(** [UnifiedAllocator::calculate_fragmentation] and [validate_heap] are stubs. *)
Definition calculate_fragmentation : Z := 0.
Definition validate_heap : bool := true.

(** ** SLUB *)

Record slub_totals := mk_totals {
  total_caches : Z;
  total_pages : Z;
  total_objects : Z;
  total_allocated : Z;
  total_allocs : Z;
  total_frees : Z;
  total_hits : Z;
  total_misses : Z;
}.

Definition no_totals : slub_totals := mk_totals 0 0 0 0 0 0 0 0.

Definition add_cache (h : heap) (t : slub_totals) (cache : Z) : slub_totals :=
  mk_totals (u32 (total_caches t + 1)) (u32 (total_pages t + hload h (cache + uc_total_pages)))
    (u32 (total_objects t + hload h (cache + uc_total_objects)))
    (u32 (total_allocated t + hload h (cache + uc_active)))
    (u32 (total_allocs t + hload h (cache + uc_allocations)))
    (u32 (total_frees t + hload h (cache + uc_frees)))
    (u32 (total_hits t + hload h (cache + uc_hits)))
    (u32 (total_misses t + hload h (cache + uc_misses))).

Definition slub_stats (fuel : nat) (h : heap) (s : slub) : outcome (slub_totals * option Z) :=
  let* t := walk fuel (hmem h) uc_next (add_cache h) (cache_chain s) no_totals in
  Done (t, hit_rate (total_hits t) (total_misses t)).

(** ** Copy on write *)

(** References, shared pages. *)
Definition add_cow_page (m : mem) (t : Z * Z) (page : Z) : Z * Z :=
  (u32 (fst t + load m (page + cw_refs)), if 1 <? load m (page + cw_refs) then u32 (snd t + 1) else snd t).

(** References, shared pages and the bytes sharing saves. *)
Definition cow_stats (fuel : nat) (m : mem) (cow_pages : Z) : outcome (Z * Z * Z) :=
  let* (total_refs, shared_pages) := walk fuel m cw_next (add_cow_page m) cow_pages (0, 0) in
  Done (total_refs, shared_pages, u32 (shared_pages * 4096)).

(** ** What they compute *)

(** A walk ends on every list and visits its elements in order. *)
Lemma walk_slist {A} m next (f : A → Z → A) l :
  ∀ fuel head acc, slist next m head l → (length l < fuel)%nat → walk fuel m next f head acc = Done (foldl f acc l).
Proof.
  induction l as [|x l IH]; intros fuel head acc Hl Hf; (destruct fuel as [|fuel]; [lia|]).
  - cbn in Hl. subst head. done.
  - destruct Hl as (-> & Hx & Hl). unfold walk. cbn [loop]. rewrite (proj2 (Z.eqb_neq x 0)) by done. cbn [obind].
    apply IH; [done|]. cbn in Hf. lia.
Qed.

Definition total (g : Z → Z) (l : list Z) : Z := foldr Z.add 0 (map g l).

(** A counter that wraps at every step holds the sum, wrapped. *)
Lemma counter_sum {A} (f : A → Z → A) (count : A → Z) (g : Z → Z) l :
  (∀ t x, 0 <= count t < 2 ^ 32 → count (f t x) = u32 (count t + g x)) →
  ∀ t, 0 <= count t < 2 ^ 32 → count (foldl f t l) = u32 (count t + total g l).
Proof.
  intros Hf. induction l as [|x l IH]; intros t Ht; cbn [foldl].
  { change (total g []) with 0. rewrite u32_small; lia. }
  rewrite IH; rewrite Hf by done; [|apply u32_range]. unfold u32. rewrite Zplus_mod_idemp_l. f_equal.
  change (total g (x :: l)) with (g x + total g l). lia.
Qed.

Lemma counter_from_0 {A} (f : A → Z → A) (count : A → Z) (g : Z → Z) l t :
  (∀ t x, 0 <= count t < 2 ^ 32 → count (f t x) = u32 (count t + g x)) → count t = 0 →
  count (foldl f t l) = u32 (total g l).
Proof. intros Hf Ht. rewrite (counter_sum f count g l Hf) by (by rewrite Ht). by rewrite Ht. Qed.

(** The totals of SLUB are the sums over its caches, and the number of them. *)
Lemma slub_stats_spec fuel h s l :
  slist uc_next (hmem h) (cache_chain s) l → (length l < fuel)%nat →
  ∃ t, slub_stats fuel h s = Done (t, hit_rate (total_hits t) (total_misses t)) ∧
    total_caches t = u32 (Z.of_nat (length l)) ∧
    total_pages t = u32 (total (λ c, hload h (c + uc_total_pages)) l) ∧
    total_objects t = u32 (total (λ c, hload h (c + uc_total_objects)) l) ∧
    total_allocated t = u32 (total (λ c, hload h (c + uc_active)) l) ∧
    total_allocs t = u32 (total (λ c, hload h (c + uc_allocations)) l) ∧
    total_frees t = u32 (total (λ c, hload h (c + uc_frees)) l) ∧
    total_hits t = u32 (total (λ c, hload h (c + uc_hits)) l) ∧
    total_misses t = u32 (total (λ c, hload h (c + uc_misses)) l).
Proof.
  intros Hl Hf. unfold slub_stats. rewrite (walk_slist _ _ _ l _ _ _ Hl Hf). cbn [obind].
  eexists. split; [done|].
  assert (∀ n, total (λ _, 1) n = Z.of_nat (length n)) as <-.
  { induction n as [|x n IH]; [done|]. cbn [length]. rewrite Nat2Z.inj_succ, <- IH. cbn. unfold total. lia. }
  split_and!; [by apply (counter_from_0 _ total_caches)|by apply (counter_from_0 _ total_pages)
    |by apply (counter_from_0 _ total_objects)|by apply (counter_from_0 _ total_allocated)|by apply (counter_from_0 _ total_allocs)
    |by apply (counter_from_0 _ total_frees)|by apply (counter_from_0 _ total_hits)|by apply (counter_from_0 _ total_misses)].
Qed.

(** The saving of copy on write, for lists of at most 2^20 pages. *)
Lemma cow_stats_spec fuel m head l :
  slist cw_next m head l → (length l < fuel)%nat → Z.of_nat (length l) < 2 ^ 20 →
  cow_stats fuel m head = Done (u32 (total (λ p, load m (p + cw_refs)) l),
    Z.of_nat (length (filter (λ p, 1 < load m (p + cw_refs)) l)),
    4096 * Z.of_nat (length (filter (λ p, 1 < load m (p + cw_refs)) l))).
Proof.
  intros Hl Hf Hn. unfold cow_stats. rewrite (walk_slist _ _ _ l _ _ _ Hl Hf). cbn [obind].
  set (shared := λ p, 1 < load m (p + cw_refs)). set (g := λ p, if 1 <? load m (p + cw_refs) then 1 else 0).
  assert (∀ k, total g k = Z.of_nat (length (filter shared k))) as Hg.
  { induction k as [|x k IH]; [done|]. change (total g (x :: k)) with (g x + total g k). rewrite IH, filter_cons.
    unfold g, shared. destruct (Z.ltb_spec 1 (load m (x + cw_refs))); case_decide; try done; cbn [length]; lia. }
  pose proof (length_filter shared l) as Hfl.
  destruct (foldl (add_cow_page m) (0, 0) l) as [r n] eqn:E.
  assert (r = u32 (total (λ p, load m (p + cw_refs)) l)) as Er.
  { change r with (fst (r, n)). rewrite <- E. by apply (counter_from_0 _ fst). }
  assert (n = Z.of_nat (length (filter shared l))) as ->.
  { change n with (snd (r, n)). rewrite <- E, (counter_from_0 _ snd g); [|intros [t1 t2] x Ht; unfold g|done].
    - rewrite Hg. apply u32_small. lia.
    - cbn in *. destruct (1 <? _); [done|]. by rewrite Z.add_0_r, u32_small. }
  rewrite Er. cbn [obind]. rewrite (u32_small (_ * 4096)) by lia. do 2 f_equal. lia.
Qed.

(** The hit rate is the percentage, rounded down, as long as the product fits. *)
Lemma hit_rate_spec hits misses :
  0 <= hits <= 42949672 → 0 <= misses → 0 < hits + misses < 2 ^ 32 →
  hit_rate hits misses = Some (100 * hits / (hits + misses)) ∧ 100 * hits / (hits + misses) <= 100.
Proof.
  intros Hh Hm Hs. unfold hit_rate. rewrite (u32_small (hits + misses)) by lia.
  rewrite (proj2 (Z.ltb_lt 0 _)) by lia. rewrite (u32_small (hits * 100)) by lia. split; [by rewrite Z.mul_comm|].
  apply Z.div_le_upper_bound; lia.
Qed.

(** One hit more, and the rate falls from 100 to 0. *)
Lemma hit_rate_wraps : hit_rate 42949672 0 = Some 100 ∧ hit_rate 42949673 0 = Some 0.
Proof. split; reflexivity. Qed.
