(* ===== verification/Boot.v ===== *)
(** The start of the kernel: [kmain] of [src/src/kernel/core/main.cc], with
    [init_heap] of [arch/x86/alloc.cc] and the guards of [runtime/cxx.cc].

    [kmain] puts the parts together: the memory manager and the scheduler, the
    first process, the file tree, the drivers, the interrupt table, and the
    shell, which it runs until it exits; then it halts for ever.  The messages
    on the serial port are left out, those on the screen are not. *)

From Stdlib Require Import ZArith Lia String.
From stdpp Require Import base list gmap option.
From coqutil Require Import Datatypes.RecordSetters.
From S2P Require Import Prelude Memory Bump KAlloc Mm Vmm VmmSpec Fault FileTree Filesystem FilesystemSpec Pit Keyboard Process Arch ArchSpec Vfs Syscalls Ports X86 Console Shell.
Import TriangleBracketNotations.
Local Open Scope Z_scope.

Record machine (K P : Type) := mk_machine {
  msh : shell K;
  mkb : keyboard;
  mports : P;
  mkidt : list idtdesc;
  mkidtr : table_register;
}.
Arguments mk_machine {K P}.
Arguments msh {K P}.
Arguments mkb {K P}.
Arguments mports {K P}.
Arguments mkidt {K P}.
Arguments mkidtr {K P}.

(** [video_memory[i] = v], sixteen bits. *)
Definition video_put (m : mem) (i v : Z) : mem :=
  store8 (store8 m (RAMSCREEN + 2 * i) (Z.land v 0xff)) (RAMSCREEN + 2 * i + 1) (Z.land (Z.shiftr v 8) 0xff).
Definition video_clear (m : mem) : mem := for_ (80 * 25) (fun i m => video_put m i 0x0720) m.
Definition video_text (m : mem) (at_ attr : Z) (text : list Z) : mem :=
  for_ (Z.of_nat (List.length text)) (fun i m => video_put m (at_ + i) (Z.lor (Z.shiftl attr 8) (zget 0 text i))) m.

Section Boot.
Context {K : Type} `{KAlloc K} `{FileOps K} {P : Type} `{Ports P}.
Variable fuel : nat.
Variable scan : ftree → Z → outcome ftree.
Variable raw_info : Z → process_st.
Variables swap_file_write idle_thread ext2_driver asm_int_32 asm_int_33 : Z.

Definition on_world (m : machine K P) (w : world K) : machine K P :=
  mk_machine ((msh m) <| sw := w |>) (mkb m) (mports m) (mkidt m) (mkidtr m).

(** Up to [arch.init]: the screen, and the memory manager and scheduler. *)
Definition start_arch (w : world K) : outcome (world K) :=
  let m := video_clear (kmemory w) in
  let m := video_text m 0 0x0F (chars "KMAIN REACHED - SERIAL WORKS") in
  let m := video_text m 80 0x0E (chars "TRYING ARCH INIT...") in
  let w := set_kmemory w m in
  let* s := vmm_init fuel swap_file_write (wmm w) in
  Done (arch_init (w <| wmm := s |>)).

(** The process [kernel_main], first in the queue. *)
Definition start_process (w : world K) : outcome (world K) :=
  let '(kernel_process, w) := new_process raw_info w (chars "kernel_main") in
  let* w := setPParent w kernel_process 0 in
  addProcess raw_info idle_thread w kernel_process.

Definition start_files (w : world K) : outcome (world K) :=
  let* fs := fs_init (wfs w) (pcurrent w) in
  let '(_, fs) := register_driver fs ext2_driver in
  let w := w <| wfs := fs |> in
  Done (set_kmemory w (video_text (kmemory w) 160 0x0A (chars "ARCH INIT SUCCESS!"))).

(** Keyboard, interrupt table, interrupt controller and timer; [statuses] is
    what the keyboard controller answers. *)
Definition start_drivers (statuses : list Z) (m : machine K P) : outcome (machine K P) :=
  let* kb := Keyboard.init (mkb m) statuses in
  let w := sw (msh m) in
  let '(kidt, kidtr, mem) := init_idt (kmemory w) asm_int_32 asm_int_33 (mkidt m) in
  let w := set_kmemory w mem in
  let p := init_pic (mports m) in
  let* (pit, writes) := pit_init 100 in
  let p := outbs p writes in
  let w := configure_scheduler (w <| wpit := pit |>) (get_frequency pit) in
  Done (mk_machine ((msh m) <| sw := enable_interrupt w |>) kb p kidt kidtr).

(** From the first process to the shell. *)
Definition start_kernel (statuses : list Z) (m : machine K P) : outcome (machine K P) :=
  let* w := start_process (sw (msh m)) in
  let* w := start_files w in
  let* m := start_drivers statuses (on_world m w) in
  Done (mk_machine (shell_init (msh m)) (mkb m) (mports m) (mkidt m) (mkidtr m)).

(** [kmain]; [lines] is what is typed.  After the shell it halts for ever. *)
Definition kmain (statuses : list Z) (static : list Z) (lines : list (list Z)) (m : machine K P) : outcome (machine K P) :=
  let* w := start_arch (sw (msh m)) in
  let* m := start_kernel statuses (on_world m w) in
  let* _ := shell_run fuel scan (msh m) static lines in
  OutOfFuel.

(** ** The rest of the runtime *)

(** [init_heap], which runs once: the one chunk, all free. *)
Definition KMALLOC_PAGESIZE : Z := 4096.
Definition init_heap (initialized : bool) (m : mem) (kern_heap heap_start : Z) : bool * mem * Z * Z :=
  if initialized then (true, m, kern_heap, heap_start)
  else (true, store (store m KERN_HEAP KMALLOC_PAGESIZE) (KERN_HEAP + 4) 0, KERN_HEAP + KMALLOC_PAGESIZE, KERN_HEAP).

End Boot.

Section Halt.
Context {K : Type} `{KAlloc K} `{FileOps K} {P : Type} `{Ports P}.

(** The kernel does not return, whatever is typed. *)
Lemma kmain_never_returns fuel scan raw_info fw idle driver h32 h33 statuses static lines (m m' : machine K P) :
  kmain fuel scan raw_info fw idle driver h32 h33 statuses static lines m ≠ Done m'.
Proof.
  unfold kmain. destruct (start_arch _ _ _) as [w| |]; cbn [obind]; [|done..].
  destruct (start_kernel _ _ _ _ _ _ _) as [m1| |]; cbn [obind]; [|done..]. by destruct (shell_run _ _ _ _ _).
Qed.
End Halt.

(** ** A boot over the bump allocator *)

#[local] Instance plain_files : FileOps bump := base_file_ops bump.

(** Ports that remember what was written to them. *)
#[local] Instance log_ports : Ports (list (Z * Z)) := {
  port_inb p _ := (0, p); port_inw p _ := (0, p); port_outb p ad v := p ++ [(ad, v)]; port_outw p ad v := p ++ [(ad, v)];
}.

Definition cold_world : world bump :=
  arch_init (mk_world bare_mm empty_fs ∅ 1 0 0 0 0 0 0 0 false false (mk_pit 0 0) 0).
Definition cold : machine bump (list (Z * Z)) :=
  mk_machine (mk_shell cold_world [] [] 0 false 0 [])
    (mk_keyboard (replicate 256 0) 0 0 0 (mk_kstate false false false false)) [] zero_idt (mk_table 0 0).
Definition booted : outcome (machine bump (list (Z * Z))) :=
  start_kernel ArchSpec.raw 0xC0001000 0x9000 0x101000 0x101040 [0] cold.

(** Two processes are in the queue, the time slice is 20 ms, the timer runs
    at 100 Hz with its interrupt and the keyboard's open, and the page tables
    of the file system are there. *)
Example boot_state :
  (let* m := booted in
   let w := sw (msh m) in
   let* first := getPNext w (plist w) in
   let* fp := path 20 no_scan (wfs w) None (chars "/sys/env") in
   Done (getPid w (plist w), first =? idle_process w, ticks_per_quantum w, interrupts w, timer_frequency (wpit w),
         drivers (wfs w), fst fp =? var (wfs w), current_directory (msh m), running (msh m))) =
  Done (Done 1, true, 2, true, 100, [0x9000], true, [47], false).
Proof. vm_compute. reflexivity. Qed.

Example boot_outputs : (let* m := booted in Done (mports m)) = Done (pic_outputs ++ [(0x43, 0x36); (0x40, 0x9B); (0x40, 0x2E)]).
Proof. vm_compute. reflexivity. Qed.

(** A session after the boot. *)
Example boot_session :
  (let* m := booted in
   let* s := shell_run 30 no_scan (msh m) (replicate 512 0) [chars "cd /dev"; chars "cd ../nowhere"; chars "exit 3"] in
   Done (current_directory s, exit_code s, history_count s)) = Done (chars "/dev", 3, 3).
Proof. vm_compute. reflexivity. Qed.
